(* ===== verification/_CoqProject ===== *)
-Q . S2P
Prelude.v
Kmonad.v
Kstring.v
Mmu.v
Kalloc.v
Locks.v
Proc.v
Sched.v
SchedSys.v
Digits.v
Ring.v
Pipe.v
Block.v
Bio.v
Ide.v
IdeProof.v
Log.v
LogProof.v
LogRuns.v
Fs.v
FsTx.v
FsInode.v
FsFile.v
FsWrite.v
FsDir.v
FsTrunc.v
FsRuns.v
FsAcct.v
Mkfs.v
MkfsProof.v
MkfsFiles.v
MkfsMain.v
Vm.v
VmProof.v
VmUser.v
VmRuns.v
Grep.v
FontBin.v
Graphic.v
Console.v
ConsoleProof.v
Ulib.v
Sh.v
ShProof.v
ShPrint.v
Syscall.v
File.v
SysFile.v
FileRefs.v
Exec.v
ExecProof.v
Kbd.v
Sysproc.v
Trap.v
TrapRuns.v
Net.v
NetProof.v
Umalloc.v
UmallocProof.v
Uprog.v
Uproc.v
Vectors.v
X86.v
Asm.v
Uthread.v
Boot.v
Apic.v
MpUefi.v
Pci.v
Startup.v
