(* ===== verification/Prelude.v ===== *)
(** * xv6 with an MLFQ scheduler and a network stack: verification library

    The program is the xv6 teaching kernel for the i386 with multi-level
    feedback scheduling, a graphic console and a small network stack, its
    boot loader, the tool that builds its disk image (mkfs) and its user
    programs.  The sources are the C, assembly and header files under src/.
    This library translates them into definitions one function at a time,
    under their own names, and proves what makes them correct.

    ** How code is modelled

    Integers are [Z] with the wrap-around of their C type written out ([u32],
    [i32], ... below).  Kernel memory is a map from 32-bit addresses to bytes
    (Kstring.v) wherever the code depends on addresses: free list, page
    tables, packets, frame buffer, heap and stacks.  Tables of structs are
    lists of records and pointers into them indices.  Kernel code runs in the
    monad [K] of Kmonad.v, which threads the state of a component, ends in a
    panic, or suspends the process on a channel; it also keeps the set of
    spin locks the CPU holds, and acquiring a lock that is held, or releasing
    one that is not, panics as in the code.  [wp] is total correctness,
    [wlp] partial correctness with a postcondition for the suspended state,
    and [preserves] an invariant over both outcomes.  A function that sleeps
    is modelled up to the sleep, and from there by a definition of its own.
    Concurrency is a step relation over the operations of the components,
    with invariants by induction over its runs.  Devices are either models of
    their registers (disk, I/O APIC, PCI configuration space) or recorded
    accesses, whose answers are an argument.  Everything is executable; files
    named Runs.v and the witnesses evaluate it on concrete states.

    ** The parts of the program and their files

    - Machine and library code: Prelude.v (integers, bytes, little-endian
      words), Kmonad.v, Kstring.v (string.c), Mmu.v (mmu.h, memlayout.h,
      param.h), Digits.v and Ring.v (loops that several files share).
    - Memory: Kalloc.v (kalloc.c); Vm.v, VmProof.v, VmUser.v, VmRuns.v (vm.c).
    - Locks and processes: Locks.v (spinlock.c, sleeplock.c), Proc.v, Sched.v
      and SchedSys.v (proc.c).
    - Disk: Block.v is the interface between the buffer cache and its
      clients, a class of operations and a class of their laws; Bio.v (bio.c
      over memide.c) implements it; Log.v, LogProof.v, LogRuns.v (log.c) and
      the file system Fs.v, FsTx.v, FsInode.v, FsFile.v, FsWrite.v, FsDir.v,
      FsTrunc.v, FsRuns.v (fs.c) are proved against it; FsAcct.v accounts for
      the inode references, inode locks and log reservations they take.
      Ide.v and IdeProof.v are the driver ide.c.  Mkfs.v, MkfsProof.v, MkfsFiles.v, MkfsMain.v
      (mkfs.c) read the image they build with the kernel's definitions.
    - Files and system calls: Pipe.v (pipe.c), File.v (file.c), SysFile.v and
      FileRefs.v (sysfile.c), Syscall.v (the arguments in syscall.c),
      Sysproc.v (sysproc.c), Exec.v and ExecProof.v (exec.c), Trap.v and
      TrapRuns.v (trap.c, and the dispatch of syscall.c).  File.v implements
      the class [ProcEnv] that Proc.v is written against.
    - Console: FontBin.v (font_bin.h), Graphic.v (graphic.c, font.c and
      graphic_putc), Console.v and ConsoleProof.v (console.c), Kbd.v (kbd.c).
    - Network: Net.v and NetProof.v (eth.c, arp.c, ipv4.c, icmp.c, tcp.c,
      http.c, sending in i8254.c), Pci.v (pci.c, set-up in i8254.c).
    - Assembly: X86.v (a processor with registers, segments, descriptor
      tables and stack, seginit and tvinit), Vectors.v (vectors.S,
      vectors.pl), Asm.v (trapasm.S, swtch.S, usys.S, initcode.S).
    - Boot: Boot.v (bootmain.c), MpUefi.v (mp_uefi.c), Apic.v (lapic.c,
      ioapic.c, picirq.c), Startup.v (startothers and entrypgdir of main.c,
      uart.c, graphic_init, kvmalloc, getcallerpcs).
    - User programs: Ulib.v (ulib.c, printf.c), Umalloc.v and UmallocProof.v
      (umalloc.c), Sh.v, ShProof.v, ShPrint.v (sh.c), Grep.v (grep.c),
      Uprog.v (cat, wc, ls, echo, kill, ln, mkdir, rm), Uproc.v (init,
      zombie, forktest, stressfs, pinfo and the main loop of the shell),
      Uthread.v (uthread1.c, uthread_switch.S).

    ** What the theorems show

    - Crash safety: commit and recovery of the log leave all or none of a
      transaction after any number of crashes; initlog finds the log by the
      superblock and leaves it ready.
    - Files: balloc, bmap, readi, writei, itrunc, dirlookup and dirlink have
      their effect on the contents of files and directories and no other; an
      image built by mkfs satisfies what they assume.
    - Caches and drivers: the buffer cache is well formed in every run of its
      protocol and a block is in at most one buffer; the disk driver serves
      its requests in order and loses none, on a disk without errors.
    - Sharing: reference counts of open files are the numbers of descriptors
      that name them, up to the references in flight, with switches anywhere
      in the calls; pipes are first-in first-out queues without lost
      wakeups, but for killed writers; blocks handed out by malloc are
      disjoint.
    - Processes: spin locks exclude each other; a process is RUNNING exactly
      on one CPU; the scheduler picks the highest level and boosts waiting
      processes within a bound; a timer interrupt charges one tick, and
      sleep(n) lasts n ticks; killed processes do not return to user mode;
      traps and context switches restore all registers.
    - Protection: page tables change only where they are asked to; copyout
      and the argument fetchers stay within the process; exec switches to the
      new image at once or not at all and leaks no inode or reservation.
    - Terminals: the line discipline and the text screen implement their
      reference models across the wrap-around of their counters.
    - Programs: the parser of the shell is total and inverse to printing; the
      matcher of grep decides the language of its pattern; ICMP answers have
      right checksums and contents; the boot loader loads every segment; the
      clock is never read across an update.

    ** Bounds and fuel

    Loops over a structure of known size recurse on that size.  Other loops
    take a bound on the number of turns.  Where the source itself gives a
    bound the definitions compute it: the pages of a range in freerange and
    mappages, four steps per character and level of the grammar in the
    parser of the shell ([parsecmd_total]), the length of the text in the
    matcher, the digits of a 32-bit number.  Where the end depends on data,
    the bound is an argument and the theorem says how much is enough: twice
    the number of free blocks and 6 for malloc, two polls of the disk for
    each sector in bootmain, 26 reads of a clock that stands still in
    cmostime, the number of records in mpinit_uefi.  Where the processor
    would wait for ever for a device, the model stops with a panic or [None],
    and total correctness excludes it.  wp-theorems and theorems of the form
    "there is a result" include termination.

    ** Not modelled

    - main of main.c, mpenter and mpmain, which call the initialisations of
      the components in turn over the union of their states; initialisations
      that only name a lock (pinit, fileinit); idtinit, one instruction; and
      ideinit of memide.c, which takes addresses from the linker.
    - bootasm.S, entry.S and the first half of entryother.S: real mode and
      the instants before paging are not in the model of the processor.
    - Functions that only print: procdump, the print functions of arp.c,
      debug.c; and messages on the console in the middle of other functions.
    - i8254_recv, an endless loop whose call is commented out; cgaputc, which
      is commented out; pci_test, which nothing calls; mp.c, which main no
      longer uses and which halts by design.
    - main of grep.c, the demonstration in uthread1.c, and usertests.c, a
      driver that calls the system calls and compares the results with
      constants, without operations of its own.
    - Weak memory: a step of a CPU is atomic and seen by all others.
    - The compiler: C is read as the usual i386 compilation with wrapping
      integers; addresses given by the linker are arguments. *)

From stdpp Require Import base numbers strings gmap list.

Local Open Scope Z_scope.

(** ** Machine integers *)

(** C's unsigned 32-, 16- and 8-bit types wrap modulo a power of two; the
    signed ones are read back in two's complement (the target is i386
    with [-fno-strict-aliasing]). *)
Definition u32 (x : Z) : Z := x mod 4294967296.
Definition u16 (x : Z) : Z := x mod 65536.
Definition u8 (x : Z) : Z := x mod 256.
Definition i32 (x : Z) : Z :=
  if u32 x <? 2147483648 then u32 x else u32 x - 4294967296.
Definition i16 (x : Z) : Z :=
  if u16 x <? 32768 then u16 x else u16 x - 65536.
Definition i8 (x : Z) : Z :=
  if u8 x <? 128 then u8 x else u8 x - 256.

Definition in_u32 (x : Z) : Prop := 0 <= x < 4294967296.
Definition in_u16 (x : Z) : Prop := 0 <= x < 65536.
Definition in_u8 (x : Z) : Prop := 0 <= x < 256.

Lemma u32_id x : in_u32 x -> u32 x = x.
Proof. intros H. apply Z.mod_small, H. Qed.

Lemma u16_id x : in_u16 x -> u16 x = x.
Proof. intros H. apply Z.mod_small, H. Qed.

Lemma u8_id x : in_u8 x -> u8 x = x.
Proof. intros H. apply Z.mod_small, H. Qed.

Lemma u32_bound x : in_u32 (u32 x).
Proof. apply Z.mod_pos_bound. lia. Qed.

Lemma u16_bound x : in_u16 (u16 x).
Proof. apply Z.mod_pos_bound. lia. Qed.

Lemma u8_bound x : in_u8 (u8 x).
Proof. apply Z.mod_pos_bound. lia. Qed.

Lemma i32_id x : -2147483648 <= x < 2147483648 -> i32 x = x.
Proof.
  intros H. unfold i32, u32. destruct (Z.ltb_spec (x mod 4294967296) 2147483648);
    Z.div_mod_to_equations; lia.
Qed.

Lemma i32_u32 x : i32 (u32 x) = i32 x.
Proof. unfold i32, u32. by rewrite Z.mod_mod by done. Qed.

Lemma i32_range x : -2147483648 <= i32 x < 2147483648.
Proof.
  unfold i32. pose proof (u32_bound x) as Hb. unfold in_u32 in Hb.
  destruct (Z.ltb_spec (u32 x) 2147483648); lia.
Qed.

(** ** Byte strings

    A region of memory is a list of bytes, each a [Z] in [0, 256).  [bsub]
    reads [n] bytes at [off], [bput] overwrites the bytes at [off]. *)

Abbreviation bytes := (list Z).

Definition bsub (off n : nat) (l : bytes) : bytes := take n (drop off l).
Definition bput (off : nat) (bs l : bytes) : bytes :=
  take off l ++ bs ++ drop (off + length bs) l.

(** The byte at an offset; reading past the region gives 0 (the callers
    stay inside it). *)
Definition nth_byte (l : bytes) (i : nat) : Z := default 0 (l !! i).

(** Little-endian layout of the i386. *)
Fixpoint le_val (l : bytes) : Z :=
  match l with
  | [] => 0
  | b :: t => b + 256 * le_val t
  end.

Fixpoint le_bytes (n : nat) (z : Z) : bytes :=
  match n with
  | O => []
  | S n => z mod 256 :: le_bytes n (z / 256)
  end.

Definition get_u32 (off : nat) (l : bytes) : Z := le_val (bsub off 4 l).
Definition put_u32 (off : nat) (v : Z) (l : bytes) : bytes := bput off (le_bytes 4 v) l.
Definition get_u16 (off : nat) (l : bytes) : Z := le_val (bsub off 2 l).
Definition put_u16 (off : nat) (v : Z) (l : bytes) : bytes := bput off (le_bytes 2 v) l.

Definition is_byte (b : Z) : Prop := 0 <= b < 256.

#[export] Instance is_byte_dec b : Decision (is_byte b).
Proof. unfold is_byte. apply _. Defined.

Lemma length_le_bytes n z : length (le_bytes n z) = n.
Proof. revert z; induction n as [|n IH]; intros z; simpl; [done|]. by rewrite IH. Qed.

Lemma le_val_bytes n z : le_val (le_bytes n z) = z mod 256 ^ Z.of_nat n.
Proof.
  revert z; induction n as [|n IH]; intros z; simpl.
  - by rewrite Z.mod_1_r.
  - rewrite IH, Nat2Z.inj_succ, Z.pow_succ_r by lia.
    rewrite Z.rem_mul_r by lia. lia.
Qed.

Lemma le_bytes_is_byte n z : Forall is_byte (le_bytes n z).
Proof.
  revert z; induction n as [|n IH]; intros z; simpl; constructor; [|apply IH].
  unfold is_byte. apply Z.mod_pos_bound. lia.
Qed.

Lemma le_bytes_val l : Forall is_byte l -> le_bytes (length l) (le_val l) = l.
Proof.
  induction 1 as [|b l Hb _ IH]; [done|]. simpl. unfold is_byte in Hb.
  rewrite (Z.mul_comm 256), Z.mod_add, Z.mod_small by lia.
  rewrite Z.div_add, Z.div_small by lia. by rewrite Z.add_0_l, IH.
Qed.

Lemma le_val_bound l : Forall is_byte l -> 0 <= le_val l < 256 ^ Z.of_nat (length l).
Proof.
  induction 1 as [|b l Hb _ IH]; [simpl; lia|]. cbn [le_val length].
  rewrite Nat2Z.inj_succ, Z.pow_succ_r by lia. unfold is_byte in Hb. lia.
Qed.

(** *** Reading and overwriting byte regions *)

Lemma length_bsub off n l : (off + n <= length l)%nat -> length (bsub off n l) = n.
Proof. intros H. unfold bsub. rewrite length_take, length_drop. lia. Qed.

Lemma length_bput off bs l :
  (off + length bs <= length l)%nat -> length (bput off bs l) = length l.
Proof.
  intros H. unfold bput. rewrite !length_app, length_take, length_drop. lia.
Qed.

Lemma bsub_bput_same off bs l :
  (off + length bs <= length l)%nat -> bsub off (length bs) (bput off bs l) = bs.
Proof.
  intros H. unfold bsub, bput.
  rewrite drop_app_ge by (rewrite length_take; lia).
  rewrite length_take. replace (off - off `min` length l)%nat with 0%nat by lia.
  rewrite drop_0. by rewrite take_app_length.
Qed.

Lemma lookup_bput off bs l i :
  (off + length bs <= length l)%nat ->
  bput off bs l !! i =
    if decide (off <= i < off + length bs)%nat then bs !! (i - off)%nat else l !! i.
Proof.
  intros H. unfold bput. destruct (decide (i < off)%nat) as [Hlt|Hge].
  - rewrite lookup_app_l by (rewrite length_take; lia).
    rewrite lookup_take_lt by lia. rewrite decide_False by lia. done.
  - rewrite lookup_app_r by (rewrite length_take; lia).
    rewrite length_take. replace (i - off `min` length l)%nat with (i - off)%nat by lia.
    destruct (decide (i < off + length bs)%nat) as [Hin|Hout].
    + rewrite lookup_app_l by lia. rewrite decide_True by lia. done.
    + rewrite lookup_app_r by lia. rewrite lookup_drop, decide_False by lia.
      f_equal. lia.
Qed.

Lemma lookup_bsub off n l i :
  bsub off n l !! i = if decide (i < n)%nat then l !! (off + i)%nat else None.
Proof.
  unfold bsub. destruct (decide (i < n)%nat).
  - by rewrite lookup_take_lt, lookup_drop by lia.
  - rewrite lookup_ge_None_2; [done|]. rewrite length_take. lia.
Qed.

Lemma bsub_bput_disjoint off n off' bs l :
  (off' + length bs <= length l)%nat ->
  (off + n <= off' \/ off' + length bs <= off)%nat ->
  bsub off n (bput off' bs l) = bsub off n l.
Proof.
  intros H Hd. apply list_eq. intros i. rewrite !lookup_bsub.
  destruct (decide (i < n)%nat); [|done]. rewrite lookup_bput by done.
  rewrite decide_False by lia. done.
Qed.

Lemma Forall_bput (P : Z -> Prop) off bs l :
  Forall P bs -> Forall P l -> Forall P (bput off bs l).
Proof.
  intros Hb Hl. unfold bput. rewrite !Forall_app. split; [by apply Forall_take|].
  split; [done|]. by apply Forall_drop.
Qed.

Lemma Forall_bsub (P : Z -> Prop) off n l : Forall P l -> Forall P (bsub off n l).
Proof. intros Hl. unfold bsub. by apply Forall_take, Forall_drop. Qed.

Lemma length_put_u32 off v l :
  (off + 4 <= length l)%nat -> length (put_u32 off v l) = length l.
Proof. intros H. unfold put_u32. by rewrite length_bput by (rewrite length_le_bytes; lia). Qed.

Lemma get_put_u32 off v l :
  (off + 4 <= length l)%nat -> get_u32 off (put_u32 off v l) = u32 v.
Proof.
  intros H. unfold get_u32, put_u32.
  pose proof (bsub_bput_same off (le_bytes 4 v) l) as E.
  rewrite length_le_bytes in E. rewrite E by lia. by rewrite le_val_bytes.
Qed.

Lemma get_put_u32_ne off off' v l :
  (off' + 4 <= length l)%nat -> (off + 4 <= off' \/ off' + 4 <= off)%nat ->
  get_u32 off (put_u32 off' v l) = get_u32 off l.
Proof.
  intros H Hd. unfold get_u32, put_u32.
  by rewrite bsub_bput_disjoint by (rewrite length_le_bytes; lia).
Qed.

Lemma length_put_u16 off v l :
  (off + 2 <= length l)%nat -> length (put_u16 off v l) = length l.
Proof. intros H. unfold put_u16. by rewrite length_bput by (rewrite length_le_bytes; lia). Qed.

Lemma get_put_u16 off v l :
  (off + 2 <= length l)%nat -> get_u16 off (put_u16 off v l) = u16 v.
Proof.
  intros H. unfold get_u16, put_u16.
  pose proof (bsub_bput_same off (le_bytes 2 v) l) as E.
  rewrite length_le_bytes in E. rewrite E by lia. by rewrite le_val_bytes.
Qed.

Lemma Forall_put_u32 off v l : Forall is_byte l -> Forall is_byte (put_u32 off v l).
Proof. apply Forall_bput, le_bytes_is_byte. Qed.

Lemma get_u32_bound off l : Forall is_byte l -> in_u32 (get_u32 off l).
Proof.
  intros H. unfold get_u32, in_u32.
  pose proof (le_val_bound (bsub off 4 l) (Forall_bsub _ _ _ _ H)) as Hb.
  assert (length (bsub off 4 l) <= 4)%nat by (unfold bsub; rewrite length_take; lia).
  assert (256 ^ Z.of_nat (length (bsub off 4 l)) <= 256 ^ 4) by (apply Z.pow_le_mono_r; lia).
  lia.
Qed.

(** ** Scans of a table

    [for(p = table; p < &table[N]; p++) if(f(p)) goto found;] *)
Fixpoint find_idx {A} (f : A -> bool) (l : list A) : option nat :=
  match l with
  | [] => None
  | x :: t => if f x then Some 0%nat else S <$> find_idx f t
  end.

Section find_idx_facts.
Context {A : Type}.
Implicit Types (f : A -> bool) (l : list A).

Lemma find_idx_Some f l i :
  find_idx f l = Some i <->
  (exists x, l !! i = Some x /\ f x = true) /\
  (forall j y, (j < i)%nat -> l !! j = Some y -> f y = false).
Proof.
  revert i; induction l as [|x l IH]; intros i; simpl.
  { split; [done|]. intros [(y & H & _) _]. by rewrite lookup_nil in H. }
  destruct (f x) eqn:Hf.
  - split.
    + intros [= <-]. split; [by exists x|]. intros; lia.
    + intros [_ H]. destruct i as [|i]; [done|].
      specialize (H 0%nat x ltac:(lia) eq_refl). congruence.
  - rewrite fmap_Some. split.
    + intros (k & Hk & ->). apply IH in Hk as [(y & Hy & Hfy) Hlt].
      split; [by exists y|]. intros [|j] z Hj Hz; simpl in Hz; [congruence|].
      apply (Hlt j z); [lia|done].
    + intros [(y & Hy & Hfy) Hlt]. destruct i as [|i]; simpl in Hy; [congruence|].
      exists i. split; [|done]. apply IH. split; [by exists y|].
      intros j z Hj Hz. apply (Hlt (S j) z); [lia|done].
Qed.

Lemma find_idx_None f l :
  find_idx f l = None <-> (forall i x, l !! i = Some x -> f x = false).
Proof.
  induction l as [|x l IH]; simpl.
  { split; [intros _ i y H; by rewrite lookup_nil in H|done]. }
  destruct (f x) eqn:Hf.
  - split; [done|]. intros H. specialize (H 0%nat x eq_refl). congruence.
  - rewrite fmap_None, IH. split.
    + intros H [|i] y Hy; simpl in Hy; [congruence|]. by apply (H i).
    + intros H i y Hy. by apply (H (S i)).
Qed.

Lemma find_idx_lt f l i : find_idx f l = Some i -> (i < length l)%nat.
Proof. intros H. apply find_idx_Some in H as [(x & Hx & _) _]. by apply lookup_lt_Some in Hx. Qed.

Lemma find_idx_is_Some f l i x :
  l !! i = Some x -> f x = true -> exists j, find_idx f l = Some j /\ (j <= i)%nat.
Proof.
  intros Hx Hf. destruct (find_idx f l) as [j|] eqn:E.
  - exists j. split; [done|]. destruct (decide (j <= i)%nat); [done|].
    apply find_idx_Some in E as [_ H]. specialize (H i x ltac:(lia) Hx). congruence.
  - rewrite find_idx_None in E. specialize (E i x Hx). congruence.
Qed.

End find_idx_facts.

(** ** Sums over a table *)
Definition zsum {A} (f : A -> Z) (l : list A) : Z := foldr (fun x n => f x + n) 0 l.
#[global] Arguments zsum : simpl never.

Lemma zsum_insert {A} (f : A -> Z) l i x y :
  l !! i = Some x -> zsum f (<[i := y]> l) = zsum f l - f x + f y.
Proof.
  unfold zsum. revert i; induction l as [|z l IH]; intros [|i] H; cbn in *; [done..| |].
  - injection H as ->. lia.
  - rewrite IH by done. lia.
Qed.

Lemma zsum_nonneg {A} (f : A -> Z) l : (forall x, 0 <= f x) -> 0 <= zsum f l.
Proof. intros Hf. unfold zsum. induction l as [|x l IH]; cbn; [lia|]. specialize (Hf x). lia. Qed.

Lemma zsum_ge {A} (f : A -> Z) l i x :
  (forall x, 0 <= f x) -> l !! i = Some x -> f x <= zsum f l.
Proof.
  intros Hf. unfold zsum. revert i; induction l as [|y l IH]; intros [|i] H; cbn in *; [done..| |].
  - injection H as ->. pose proof (zsum_nonneg f l Hf) as Hl. unfold zsum in Hl. lia.
  - apply IH in H. specialize (Hf y). lia.
Qed.
