(* ===== verification/Kmonad.v ===== *)
(** * The kernel monad

    Kernel code is C code that updates global tables, may call [panic],
    may go to sleep on a channel and runs with a set of spin locks held.
    [K S A] is a computation of that kind over a component's state [S]:
    it returns a value and a new state, panics (the machine stops), or
    suspends the calling process on a channel.  Beside [S] a computation
    carries the context of the CPU it runs on: the spin locks that CPU
    holds, the channels it has called [wakeup] on, and the pid of the
    current process.  [wp] is the total-correctness reading: the
    computation returns, neither panicking nor sleeping, and its result
    satisfies the postcondition. *)

From stdpp Require Import base numbers strings gmap list.
From S2P Require Import Prelude.

Local Open Scope Z_scope.

(** The spin locks of the kernel, by the object that contains them. *)
Inductive lockid : Type :=
| L_ptable                 (* proc.c    ptable.lock *)
| L_kmem                   (* kalloc.c  kmem.lock *)
| L_bcache                 (* bio.c     bcache.lock *)
| L_log                    (* log.c     log.lock *)
| L_icache                 (* fs.c      icache.lock *)
| L_ftable                 (* file.c    ftable.lock *)
| L_cons                   (* console.c cons.lock *)
| L_ticks                  (* trap.c    tickslock *)
| L_ide                    (* ide.c     idelock *)
| L_pipe (p : Z)           (* pipe.c    p->lock *)
| L_sleep_buf (i : nat)    (* the spin lock inside a buffer's sleep lock *)
| L_sleep_inode (i : nat). (* the spin lock inside an inode's sleep lock *)

#[export] Instance lockid_eq_dec : EqDecision lockid.
Proof. solve_decision. Defined.

(** Sleep channels: the kernel uses the address of the object waited for. *)
Inductive chan : Type :=
| C_proc (i : nat)         (* wait(): the parent's struct proc *)
| C_log                    (* &log *)
| C_ticks                  (* &ticks *)
| C_input                  (* &input.r *)
| C_buf (i : nat)          (* ide.c: the buf *)
| C_bufslp (i : nat)       (* &b->lock *)
| C_inodeslp (i : nat)     (* &ip->lock *)
| C_nread (p : Z)          (* &p->nread *)
| C_nwrite (p : Z).        (* &p->nwrite *)

#[export] Instance chan_eq_dec : EqDecision chan.
Proof. solve_decision. Defined.

Record ctx : Type := mkctx {
  held : list lockid;    (* spin locks held by this CPU, innermost first *)
  woken : list chan;     (* wakeup() calls made so far, in order *)
  mypid : Z              (* myproc()->pid *)
}.

Inductive kres (S A : Type) : Type :=
| Ret (a : A) (s : S) (c : ctx)
| Panic (msg : string)
| Sleep (ch : chan) (s : S) (c : ctx).
Arguments Ret {S A}.
Arguments Panic {S A}.
Arguments Sleep {S A}.

Definition K (S A : Type) : Type := S -> ctx -> kres S A.

#[export] Instance K_ret S : MRet (K S) := fun A a s c => Ret a s c.
#[export] Instance K_bind S : MBind (K S) := fun A B f m s c =>
  match m s c with
  | Ret a s' c' => f a s' c'
  | Panic msg => Panic msg
  | Sleep ch s' c' => Sleep ch s' c'
  end.

Section operations.
Context {S : Type}.

Definition panic {A} (msg : string) : K S A := fun _ _ => Panic msg.
Definition get : K S S := fun s c => Ret s s c.
Definition gets {A} (f : S -> A) : K S A := fun s c => Ret (f s) s c.
Definition modify (f : S -> S) : K S unit := fun s c => Ret tt (f s) c.
Definition getpid : K S Z := fun s c => Ret (mypid c) s c.

(** The process gives up the CPU until [wakeup ch]. *)
Definition block {A} (ch : chan) : K S A := fun s c => Sleep ch s c.

Definition wakeup (ch : chan) : K S unit := fun s c =>
  Ret tt s (mkctx (held c) (woken c ++ [ch]) (mypid c)).

(** [acquire] panics when this CPU already holds the lock and [release]
    when it does not (spinlock.c, modelled in Locks.v). *)
Definition acquire (l : lockid) : K S unit := fun s c =>
  if decide (l ∈ held c) then Panic "acquire"
  else Ret tt s (mkctx (l :: held c) (woken c) (mypid c)).

Fixpoint remove_lock (l : lockid) (h : list lockid) : list lockid :=
  match h with
  | [] => []
  | x :: t => if decide (l = x) then t else x :: remove_lock l t
  end.

Definition release (l : lockid) : K S unit := fun s c =>
  if decide (l ∈ held c) then Ret tt s (mkctx (remove_lock l (held c)) (woken c) (mypid c))
  else Panic "release".

(** [for(i = lo; i < lo + n; i++) body(i)] *)
Fixpoint for_range (lo : Z) (n : nat) (body : Z -> K S unit) : K S unit :=
  match n with
  | O => mret tt
  | Datatypes.S n => body lo;; for_range (lo + 1) n body
  end.

Definition when (b : bool) (m : K S unit) : K S unit := if b then m else mret tt.

Definition wp {A} (m : K S A) (Q : A -> S -> ctx -> Prop) (s : S) (c : ctx) : Prop :=
  match m s c with
  | Ret a s' c' => Q a s' c'
  | _ => False
  end.

End operations.

(** A component's computation inside a larger state. *)
Record lens (S T : Type) : Type := Lens {
  lget : S -> T;
  lset : T -> S -> S
}.
Arguments Lens {S T}.
Arguments lget {S T}.
Arguments lset {S T}.

Definition zoom {S T A} (l : lens S T) (m : K T A) : K S A := fun s c =>
  match m (lget l s) c with
  | Ret a t c' => Ret a (lset l t s) c'
  | Panic msg => Panic msg
  | Sleep ch t c' => Sleep ch (lset l t s) c'
  end.

Class LensOk {S T} (l : lens S T) : Prop := {
  lget_lset t s : lget l (lset l t s) = t;
  lset_lget s : lset l (lget l s) s = s;
  lset_lset t t' s : lset l t (lset l t' s) = lset l t s
}.

Section rules.
Context {S : Type}.
Implicit Types (s : S) (c : ctx).

Lemma wp_ret {A} (a : A) (Q : A -> S -> ctx -> Prop) s c : Q a s c -> wp (mret a) Q s c.
Proof. done. Qed.

Lemma wp_bind {A B} (f : A -> K S B) (m : K S A) (Q : B -> S -> ctx -> Prop) s c :
  wp m (fun a s' c' => wp (f a) Q s' c') s c -> wp (mbind f m) Q s c.
Proof. unfold wp, mbind, K_bind. by destruct (m s c). Qed.

Lemma wp_mono {A} (m : K S A) (P Q : A -> S -> ctx -> Prop) s c :
  wp m P s c -> (forall a s' c', P a s' c' -> Q a s' c') -> wp m Q s c.
Proof. unfold wp. destruct (m s c); naive_solver. Qed.

Lemma wp_get (Q : S -> S -> ctx -> Prop) s c : Q s s c -> wp get Q s c.
Proof. done. Qed.

Lemma wp_gets {A} (f : S -> A) (Q : A -> S -> ctx -> Prop) s c :
  Q (f s) s c -> wp (gets f) Q s c.
Proof. done. Qed.

Lemma wp_modify f (Q : unit -> S -> ctx -> Prop) s c : Q tt (f s) c -> wp (modify f) Q s c.
Proof. done. Qed.

Lemma wp_getpid (Q : Z -> S -> ctx -> Prop) s c : Q (mypid c) s c -> wp getpid Q s c.
Proof. done. Qed.

Lemma wp_wakeup ch (Q : unit -> S -> ctx -> Prop) s c :
  Q tt s (mkctx (held c) (woken c ++ [ch]) (mypid c)) -> wp (wakeup ch) Q s c.
Proof. done. Qed.

Lemma wp_acquire l (Q : unit -> S -> ctx -> Prop) s c :
  l ∉ held c -> Q tt s (mkctx (l :: held c) (woken c) (mypid c)) -> wp (acquire l) Q s c.
Proof. intros H HQ. unfold wp, acquire. by rewrite decide_False. Qed.

(** Locks are released in the reverse order of acquisition in most
    functions: the lock is then at the head of [held]. *)
Lemma wp_release l h w p (Q : unit -> S -> ctx -> Prop) s :
  Q tt s (mkctx h w p) -> wp (release l) Q s (mkctx (l :: h) w p).
Proof.
  intros HQ. unfold wp, release; cbn [held woken mypid].
  rewrite decide_True by set_solver. cbn. by rewrite decide_True.
Qed.

Lemma acquire_run l s h w p :
  l ∉ h -> acquire l s (mkctx h w p) = Ret tt s (mkctx (l :: h) w p).
Proof. intros H. unfold acquire. by rewrite decide_False. Qed.

Lemma release_run l s h w p : release l s (mkctx (l :: h) w p) = Ret tt s (mkctx h w p).
Proof.
  unfold release. cbn [held woken mypid]. rewrite decide_True by set_solver. cbn.
  by rewrite decide_True.
Qed.

Lemma wp_eq {A} (m : K S A) a s c s' c' (Q : A -> S -> ctx -> Prop) :
  m s c = Ret a s' c' -> Q a s' c' -> wp m Q s c.
Proof. intros E H. unfold wp. by rewrite E. Qed.

Lemma wp_inv {A} (m : K S A) (Q : A -> S -> ctx -> Prop) s c :
  wp m Q s c -> exists a s' c', m s c = Ret a s' c' /\ Q a s' c'.
Proof. unfold wp. destruct (m s c); naive_solver. Qed.

Lemma wp_zoom {T A} (l : lens S T) (m : K T A) (Q : A -> S -> ctx -> Prop) s c :
  wp m (fun a t c' => Q a (lset l t s) c') (lget l s) c -> wp (zoom l m) Q s c.
Proof. unfold wp, zoom. by destruct (m (lget l s) c). Qed.

End rules.

(** What is known of a run that returned. *)
Lemma wp_run {S A} (m : K S A) (Q : A -> S -> ctx -> Prop) s c a s' c' :
  wp m Q s c -> m s c = Ret a s' c' -> Q a s' c'.
Proof. unfold wp. intros H E. by rewrite E in H. Qed.

Lemma mkctx_eta c : mkctx (held c) (woken c) (mypid c) = c.
Proof. by destruct c. Qed.

(** The monad laws, as equations on runs. *)
Lemma bind_ret_l {S A B} (a : A) (f : A -> K S B) s c :
  mbind f (mret a) s c = f a s c.
Proof. done. Qed.

Lemma bind_ret_r {S A} (m : K S A) s c : mbind mret m s c = m s c.
Proof. unfold mbind, K_bind. by destruct (m s c). Qed.

Lemma bind_assoc {S A B C} (m : K S A) (f : A -> K S B) (g : B -> K S C) s c :
  mbind g (mbind f m) s c = mbind (fun a => mbind g (f a)) m s c.
Proof. unfold mbind, K_bind. by destruct (m s c). Qed.

(** ** Partial correctness

    [wlp m Q R] holds when a run of [m] that returns satisfies [Q] and a
    run that suspends satisfies [R]; invariants of the whole system, where
    a panic stops the machine, are stated with it. *)
Definition wlp {S A} (m : K S A) (Q : A -> S -> ctx -> Prop) (R : S -> ctx -> Prop)
    (s : S) (c : ctx) : Prop :=
  match m s c with
  | Ret a s' c' => Q a s' c'
  | Panic _ => True
  | Sleep _ s' c' => R s' c'
  end.

Section partial_rules.
Context {S : Type}.
Implicit Types (s : S) (c : ctx) (R : S -> ctx -> Prop).

Lemma wlp_ret {A} (a : A) (Q : A -> S -> ctx -> Prop) R s c : Q a s c -> wlp (mret a) Q R s c.
Proof. done. Qed.

Lemma wlp_bind {A B} (f : A -> K S B) (m : K S A) (Q : B -> S -> ctx -> Prop) R s c :
  wlp m (fun a s' c' => wlp (f a) Q R s' c') R s c -> wlp (mbind f m) Q R s c.
Proof. unfold wlp, mbind, K_bind. by destruct (m s c). Qed.

Lemma wlp_mono {A} (m : K S A) (P Q : A -> S -> ctx -> Prop) R s c :
  wlp m P R s c -> (forall a s' c', P a s' c' -> Q a s' c') -> wlp m Q R s c.
Proof. unfold wlp. destruct (m s c); naive_solver. Qed.

Lemma wlp_mono_both {A} (m : K S A) (P Q : A -> S -> ctx -> Prop) (R R' : S -> ctx -> Prop) s c :
  wlp m P R s c -> (forall a s' c', P a s' c' -> Q a s' c') ->
  (forall s' c', R s' c' -> R' s' c') -> wlp m Q R' s c.
Proof. unfold wlp. destruct (m s c); naive_solver. Qed.

Lemma wlp_panic {A} msg (Q : A -> S -> ctx -> Prop) R s c : wlp (panic msg) Q R s c.
Proof. done. Qed.

Lemma wlp_get (Q : S -> S -> ctx -> Prop) R s c : Q s s c -> wlp get Q R s c.
Proof. done. Qed.

Lemma wlp_gets {A} (f : S -> A) (Q : A -> S -> ctx -> Prop) R s c :
  Q (f s) s c -> wlp (gets f) Q R s c.
Proof. done. Qed.

Lemma wlp_modify f (Q : unit -> S -> ctx -> Prop) R s c : Q tt (f s) c -> wlp (modify f) Q R s c.
Proof. done. Qed.

Lemma wlp_acquire l (Q : unit -> S -> ctx -> Prop) R s c :
  (l ∉ held c -> Q tt s (mkctx (l :: held c) (woken c) (mypid c))) -> wlp (acquire l) Q R s c.
Proof. intros HQ. unfold wlp, acquire. case_decide; [done|by apply HQ]. Qed.

Lemma wlp_release l (Q : unit -> S -> ctx -> Prop) R s c :
  (l ∈ held c -> Q tt s (mkctx (remove_lock l (held c)) (woken c) (mypid c))) ->
  wlp (release l) Q R s c.
Proof. intros HQ. unfold wlp, release. case_decide; [by apply HQ|done]. Qed.

Lemma wlp_wakeup ch (Q : unit -> S -> ctx -> Prop) R s c :
  Q tt s (mkctx (held c) (woken c ++ [ch]) (mypid c)) -> wlp (wakeup ch) Q R s c.
Proof. done. Qed.

Lemma wlp_getpid (Q : Z -> S -> ctx -> Prop) R s c : Q (mypid c) s c -> wlp getpid Q R s c.
Proof. done. Qed.

Lemma wlp_block {A} ch (Q : A -> S -> ctx -> Prop) R s c : R s c -> wlp (block ch) Q R s c.
Proof. done. Qed.

Lemma wlp_zoom {T A} (l : lens S T) (m : K T A) (Q : A -> S -> ctx -> Prop) R s c :
  (forall a t c', Q a (lset l t s) c') -> (forall t c', R (lset l t s) c') ->
  wlp (zoom l m) Q R s c.
Proof. intros HQ HR. unfold wlp, zoom. destruct (m (lget l s) c); eauto. Qed.

Lemma wlp_inv {A} (m : K S A) (Q : A -> S -> ctx -> Prop) R s c a s' c' :
  wlp m Q R s c -> m s c = Ret a s' c' -> Q a s' c'.
Proof. unfold wlp. intros H E. by rewrite E in H. Qed.

Lemma wlp_inv_sleep {A} (m : K S A) (Q : A -> S -> ctx -> Prop) R s c ch s' c' :
  wlp m Q R s c -> m s c = Sleep ch s' c' -> R s' c'.
Proof. unfold wlp. intros H E. by rewrite E in H. Qed.

End partial_rules.

Ltac lstep :=
  lazymatch goal with
  | |- wlp (mbind _ _) _ _ _ _ => apply wlp_bind; cbn beta
  | |- wlp (mret _) _ _ _ _ => apply wlp_ret; cbn beta
  | |- wlp (panic _) _ _ _ _ => apply wlp_panic
  | |- wlp get _ _ _ _ => apply wlp_get; cbn beta
  | |- wlp (gets _) _ _ _ _ => apply wlp_gets; cbn beta
  | |- wlp (modify _) _ _ _ _ => apply wlp_modify; cbn beta
  | |- wlp (acquire _) _ _ _ _ => apply wlp_acquire; intros _; cbn [held woken mypid]; cbn beta
  | |- wlp (wakeup _) _ _ _ _ => apply wlp_wakeup; cbn beta
  | |- wlp getpid _ _ _ _ => apply wlp_getpid; cbn beta
  | |- wlp (release _) _ _ _ _ => apply wlp_release; intros _; cbn [held woken mypid]; cbn beta
  | |- wlp (block _) _ _ _ _ => apply wlp_block; cbn beta
  end.

Ltac lsteps := repeat lstep.

(** *** Preservation of an invariant *)
Definition preserves {S A} (I : S -> Prop) (m : K S A) : Prop :=
  forall s c, I s -> wlp m (fun _ s' _ => I s') (fun s' _ => I s') s c.

Section preserves_rules.
Context {S : Type} (I : S -> Prop).

Lemma preserves_ret {A} (a : A) : preserves I (mret a).
Proof. intros s c HI. by lsteps. Qed.

Lemma preserves_bind {A B} (m : K S A) (f : A -> K S B) :
  preserves I m -> (forall a, preserves I (f a)) -> preserves I (mbind f m).
Proof.
  intros Hm Hf s c HI. apply wlp_bind. eapply wlp_mono; [by apply Hm|].
  intros a s' c' HI'. by apply Hf.
Qed.

Lemma preserves_panic {A} msg : preserves I (panic msg : K S A).
Proof. intros s c HI. by lsteps. Qed.

Lemma preserves_gets {A} (f : S -> A) : preserves I (gets f).
Proof. intros s c HI. by lsteps. Qed.

Lemma preserves_get : preserves I get.
Proof. intros s c HI. by lsteps. Qed.

Lemma preserves_modify f : (forall s, I s -> I (f s)) -> preserves I (modify f).
Proof. intros Hf s c HI. lsteps. by apply Hf. Qed.

Lemma preserves_acquire l : preserves I (acquire l).
Proof. intros s c HI. by lsteps. Qed.

Lemma preserves_wakeup ch : preserves I (wakeup ch).
Proof. by intros s c HI. Qed.

Lemma preserves_getpid : preserves I getpid.
Proof. by intros s c HI. Qed.

Lemma preserves_release l : preserves I (release l).
Proof. intros s c HI. by lsteps. Qed.

Lemma preserves_block {A} ch : preserves I (block ch : K S A).
Proof. intros s c HI. by lsteps. Qed.

Lemma preserves_zoom {T A} (l : lens S T) (m : K T A) :
  (forall s t, I s -> I (lset l t s)) -> preserves I (zoom l m).
Proof. intros Hl s c HI. apply wlp_zoom; intros; by apply Hl. Qed.

Lemma preserves_when b m : preserves I m -> preserves I (when b m).
Proof. intros Hm. destruct b; [done|]. apply preserves_ret. Qed.

End preserves_rules.

Create HintDb pres.
#[export] Hint Resolve preserves_ret preserves_panic preserves_gets preserves_get
  preserves_acquire preserves_release preserves_block preserves_when preserves_wakeup
  preserves_getpid : pres.

(** Walks down the structure of a computation. *)
Ltac preserve :=
  repeat lazymatch goal with
  | |- preserves _ (mbind _ _) => apply preserves_bind; [|intros ?]
  | |- preserves _ (match ?x with _ => _ end) => destruct x
  | |- _ => fail
  end; auto with pres.

(** ** Automation

    [kstep] applies the rule for the head operation of a [wp] goal;
    [ksteps] repeats it. *)
Create HintDb kdb.

Ltac kstep :=
  lazymatch goal with
  | |- wp (mbind _ _) _ _ _ => apply wp_bind; cbn beta
  | |- wp (mret _) _ _ _ => apply wp_ret; cbn beta
  | |- wp get _ _ _ => apply wp_get; cbn beta
  | |- wp (gets _) _ _ _ => apply wp_gets; cbn beta
  | |- wp (modify _) _ _ _ => apply wp_modify; cbn beta
  | |- wp getpid _ _ _ => apply wp_getpid; cbn [held woken mypid]; cbn beta
  | |- wp (wakeup _) _ _ _ => apply wp_wakeup; cbn [held woken mypid]; cbn beta
  | |- wp (acquire _) _ _ _ => apply wp_acquire; [try done|cbn [held woken mypid]; cbn beta]
  | |- wp (release _) _ _ (mkctx (_ :: _) _ _) => apply wp_release; cbn beta
  | |- wp (zoom _ _) _ _ _ => apply wp_zoom; cbn beta
  end.

Ltac ksteps := repeat kstep.

#[export] Hint Resolve u32_bound u16_bound u8_bound : kdb.
