(* ===== verification/Kstring.v ===== *)
(** * string.c: the kernel's memory and string primitives

    Memory is a map from 32-bit addresses to bytes; a [const char*] that is
    only read is the function giving its bytes by offset.  The loops are
    the C loops, one iteration per byte, with pointers that wrap at 32
    bits.  The theorems give each routine its reference meaning: [memmove]
    copies the original bytes also when the regions overlap, the word-wise
    branch of [memset] equals the byte-wise one, and the bounded string
    copies write exactly the specified bytes. *)

From stdpp Require Import base numbers strings list.
From S2P Require Import Prelude.

Local Open Scope Z_scope.

Definition memory : Type := Z -> Z.

Definition store8 (a v : Z) (m : memory) : memory := fun x => if x =? a then u8 v else m x.

(** A 32-bit store, little-endian, at consecutive (wrapping) addresses. *)
Definition store32 (a v : Z) (m : memory) : memory :=
  store8 (u32 (a + 3)) (v / 16777216) (store8 (u32 (a + 2)) (v / 65536)
    (store8 (u32 (a + 1)) (v / 256) (store8 a v m))).

Definition load32 (a : Z) (m : memory) : Z :=
  m a + 256 * m (u32 (a + 1)) + 65536 * m (u32 (a + 2)) + 16777216 * m (u32 (a + 3)).

(** x86.h: [rep stosb] and [rep stosl] store [cnt] bytes or words. *)
Fixpoint stosb (addr data : Z) (cnt : nat) (m : memory) : memory :=
  match cnt with
  | O => m
  | S cnt => stosb (u32 (addr + 1)) data cnt (store8 addr data m)
  end.

Fixpoint stosl (addr data : Z) (cnt : nat) (m : memory) : memory :=
  match cnt with
  | O => m
  | S cnt => stosl (u32 (addr + 4)) data cnt (store32 addr data m)
  end.

Definition memset (dst c n : Z) (m : memory) : memory :=
  if (Z.rem (i32 dst) 4 =? 0) && (n mod 4 =? 0) then
    let c := Z.land c 255 in
    let w := u32 (Z.lor (Z.lor (Z.lor (Z.shiftl c 24) (Z.shiftl c 16)) (Z.shiftl c 8)) c) in
    stosl dst w (Z.to_nat (n / 4)) m
  else stosb dst c (Z.to_nat n) m.

(** [while(n-- > 0)] compare one byte and advance. *)
Fixpoint memcmp (s1 s2 : Z -> Z) (n : nat) : Z :=
  match n with
  | O => 0
  | S n =>
      if negb (s1 0 =? s2 0) then s1 0 - s2 0
      else memcmp (fun i => s1 (i + 1)) (fun i => s2 (i + 1)) n
  end.

(** The copy loops of memmove: downwards with [*--d = *--s], upwards with
    [*d++ = *s++]. *)
Fixpoint copy_backward (d s : Z) (n : nat) (m : memory) : memory :=
  match n with
  | O => m
  | S n =>
      let d := u32 (d - 1) in let s := u32 (s - 1) in
      copy_backward d s n (store8 d (m s) m)
  end.

Fixpoint copy_forward (d s : Z) (n : nat) (m : memory) : memory :=
  match n with
  | O => m
  | S n => copy_forward (u32 (d + 1)) (u32 (s + 1)) n (store8 d (m s) m)
  end.

Definition memmove (dst src n : Z) (m : memory) : memory :=
  if (src <? dst) && (dst <? u32 (src + n)) then
    copy_backward (u32 (dst + n)) (u32 (src + n)) (Z.to_nat n) m
  else copy_forward dst src (Z.to_nat n) m.

Definition memcpy (dst src n : Z) (m : memory) : memory := memmove dst src n m.

(** [while(n > 0 && *p && *p == *q) n--, p++, q++;] *)
Fixpoint strncmp (p q : Z -> Z) (n : nat) : Z :=
  match n with
  | O => 0
  | S n' =>
      if negb (p 0 =? 0) && (p 0 =? q 0)
      then strncmp (fun i => p (i + 1)) (fun i => q (i + 1)) n'
      else u8 (p 0) - u8 (q 0)
  end.

Fixpoint zero_fill (s : Z) (n : nat) (m : memory) : memory :=
  match n with
  | O => m
  | S n => zero_fill (u32 (s + 1)) n (store8 s 0 m)
  end.

(** The first loop copies bytes up to and including a NUL, the second
    one zero-fills what is left of the [n] bytes. *)
Fixpoint strncpy_loop (s t : Z) (n : nat) (m : memory) : memory :=
  match n with
  | O => m
  | S n =>
      let m' := store8 s (m t) m in
      if m' s =? 0 then zero_fill (u32 (s + 1)) n m'
      else strncpy_loop (u32 (s + 1)) (u32 (t + 1)) n m'
  end.

Definition strncpy (s t n : Z) (m : memory) : memory := strncpy_loop s t (Z.to_nat n) m.

(** [n] is the number of iterations the copy loop may still make; the
    final store terminates the string one past the last byte copied. *)
Fixpoint safestrcpy_loop (s t : Z) (n : nat) (m : memory) : memory :=
  match n with
  | O => store8 s 0 m
  | S n =>
      let m' := store8 s (m t) m in
      if m' s =? 0 then store8 (u32 (s + 1)) 0 m'
      else safestrcpy_loop (u32 (s + 1)) (u32 (t + 1)) n m'
  end.

Definition safestrcpy (s t n : Z) (m : memory) : memory :=
  if n <=? 0 then m else safestrcpy_loop s t (Z.to_nat (n - 1)) m.

(** [for(n = 0; s[n]; n++) ;], searching at most [fuel] bytes. *)
Fixpoint strlen (fuel : nat) (s : Z -> Z) : option Z :=
  match fuel with
  | O => None
  | S fuel =>
      if s 0 =? 0 then Some 0
      else n ← strlen fuel (fun i => s (i + 1)); Some (n + 1)
  end.

(** ** What the routines do *)

(** [n] bytes from [a] stay inside the 32-bit address space. *)
Definition no_wrap (a n : Z) : Prop := 0 <= a /\ 0 <= n /\ a + n < 4294967296.

Definition in_range (a n x : Z) : bool := (a <=? x) && (x <? a + n).

Definition byte_memory (m : memory) : Prop := forall x, is_byte (m x).

Ltac bool_cases :=
  repeat match goal with
  | |- context [ ?a =? ?b ] => destruct (Z.eqb_spec a b)
  | |- context [ ?a <=? ?b ] => destruct (Z.leb_spec a b)
  | |- context [ ?a <? ?b ] => destruct (Z.ltb_spec a b)
  end; cbn [andb orb negb]; try lia; try done.

Lemma in_range_spec a n x : in_range a n x = true <-> a <= x < a + n.
Proof. unfold in_range. rewrite andb_true_iff, Z.leb_le, Z.ltb_lt. done. Qed.

Lemma in_range_false a n x : in_range a n x = false <-> ~ (a <= x < a + n).
Proof. rewrite <- in_range_spec. by destruct (in_range a n x). Qed.

Lemma byte_memory_store8 a v m : byte_memory m -> byte_memory (store8 a v m).
Proof. intros H x. unfold store8. destruct (x =? a); [apply u8_bound|apply H]. Qed.

Lemma stosb_spec addr data n m x :
  no_wrap addr (Z.of_nat n) ->
  stosb addr data n m x = if in_range addr (Z.of_nat n) x then u8 data else m x.
Proof.
  revert addr m; induction n as [|n IH]; intros addr m (H0 & _ & H1); cbn [stosb].
  - unfold in_range. bool_cases.
  - rewrite u32_id by (unfold in_u32; lia).
    rewrite IH by (unfold no_wrap; lia). unfold in_range, store8. bool_cases.
Qed.

Lemma store32_spec a v m x :
  no_wrap a 4 ->
  store32 a v m x =
    if x =? a then u8 v else if x =? a + 1 then u8 (v / 256)
    else if x =? a + 2 then u8 (v / 65536) else if x =? a + 3 then u8 (v / 16777216)
    else m x.
Proof.
  intros (H0 & _ & H1). unfold store32. rewrite !u32_id by (unfold in_u32; lia).
  unfold store8. bool_cases.
Qed.

(** Every byte of the word [c c c c] is [c]. *)
Lemma splat_bytes c :
  let b := Z.land c 255 in
  let w := u32 (Z.lor (Z.lor (Z.lor (Z.shiftl b 24) (Z.shiftl b 16)) (Z.shiftl b 8)) b) in
  u8 w = u8 c /\ u8 (w / 256) = u8 c /\ u8 (w / 65536) = u8 c /\ u8 (w / 16777216) = u8 c.
Proof.
  intros b. assert (Hb : b = u8 c) by (unfold b, u8; change 255 with (Z.ones 8); by rewrite Z.land_ones).
  rewrite !Hb. pose proof (u8_bound c) as Hc. unfold in_u8 in Hc.
  set (d := u8 c) in *.
  assert (Hor : Z.lor (Z.lor (Z.lor (Z.shiftl d 24) (Z.shiftl d 16)) (Z.shiftl d 8)) d
                = d * 16843009).
  { assert (Hl : forall x k, 0 <= k -> 0 <= x < 2 ^ k -> Z.lor (Z.shiftl d k) x = d * 2 ^ k + x).
    { intros x k Hk Hx. rewrite <- Z.add_lor_land, Z.shiftl_mul_pow2 by lia.
      replace (Z.land (d * 2 ^ k) x) with 0; [lia|]. symmetry.
      apply Z.bits_inj'. intros i Hi. rewrite Z.land_spec, Z.bits_0.
      destruct (Z.lt_ge_cases i k).
      - by rewrite Z.mul_pow2_bits_low.
      - destruct (Z.eq_dec x 0) as [->|]; [by rewrite Z.bits_0, andb_false_r|].
        rewrite (Z.bits_above_log2 x i); [by rewrite andb_false_r|lia|].
        apply Z.log2_lt_pow2; [lia|].
        apply Z.lt_le_trans with (2 ^ k); [lia|]. apply Z.pow_le_mono_r; lia. }
    rewrite <- !Z.lor_assoc.
    rewrite (Hl d 8) by lia. rewrite (Hl (d * 2 ^ 8 + d) 16) by lia.
    rewrite (Hl (d * 2 ^ 16 + (d * 2 ^ 8 + d)) 24) by lia. lia. }
  cbv zeta. rewrite Hor. unfold u32. rewrite Z.mod_small by lia. unfold u8 in *.
  repeat split; Z.div_mod_to_equations; lia.
Qed.

Lemma stosl_splat_spec addr w v n m x :
  no_wrap addr (4 * Z.of_nat n) ->
  u8 w = v -> u8 (w / 256) = v -> u8 (w / 65536) = v -> u8 (w / 16777216) = v ->
  stosl addr w n m x = if in_range addr (4 * Z.of_nat n) x then v else m x.
Proof.
  intros Hw H0 H1 H2 H3. revert addr m Hw; induction n as [|n IH]; intros addr m (Ha & _ & Hb);
    cbn [stosl].
  - unfold in_range. bool_cases.
  - rewrite u32_id by (unfold in_u32; lia).
    rewrite IH by (unfold no_wrap; lia).
    rewrite store32_spec by (unfold no_wrap; lia).
    rewrite H0, H1, H2, H3. unfold in_range. bool_cases.
Qed.

(** The word-wise branch and the byte-wise branch of memset agree. *)
Lemma memset_spec dst c n m x :
  no_wrap dst n ->
  memset dst c n m x = if in_range dst n x then u8 c else m x.
Proof.
  intros (H0 & Hn & H1). unfold memset.
  destruct (Z.rem (i32 dst) 4 =? 0); simpl;
    [destruct (Z.eqb_spec (n mod 4) 0) as [Hm|Hm]|];
    try (rewrite stosb_spec by (unfold no_wrap; lia); by rewrite Z2Nat.id by lia).
  destruct (splat_bytes c) as (E0 & E1 & E2 & E3).
  assert (Hdiv : 4 * Z.of_nat (Z.to_nat (n / 4)) = n) by (Z.div_mod_to_equations; lia).
  rewrite (stosl_splat_spec _ _ (u8 c)); try done; rewrite Hdiv; [done|unfold no_wrap; lia].
Qed.

Lemma copy_forward_spec d s n m x :
  byte_memory m -> no_wrap d (Z.of_nat n) -> no_wrap s (Z.of_nat n) ->
  (d <= s \/ s + Z.of_nat n <= d) ->
  copy_forward d s n m x = if in_range d (Z.of_nat n) x then m (x - d + s) else m x.
Proof.
  revert d s m; induction n as [|n IH]; intros d s m Hm (Hd0 & _ & Hd1) (Hs0 & _ & Hs1) Hov;
    cbn [copy_forward].
  - unfold in_range. bool_cases.
  - rewrite !u32_id by (unfold in_u32; lia).
    rewrite IH; [|by apply byte_memory_store8|unfold no_wrap; lia..|lia].
    unfold in_range, store8. rewrite (u8_id (m s)) by apply Hm.
    bool_cases; f_equal; lia.
Qed.

Lemma copy_backward_spec d s n m x :
  byte_memory m -> 0 <= d - Z.of_nat n -> d < 4294967296 ->
  0 <= s - Z.of_nat n -> s < 4294967296 -> s <= d ->
  copy_backward d s n m x =
    if in_range (d - Z.of_nat n) (Z.of_nat n) x then m (x - d + s) else m x.
Proof.
  revert d s m; induction n as [|n IH]; intros d s m Hm Hd0 Hd1 Hs0 Hs1 Hov;
    cbn [copy_backward].
  - unfold in_range. bool_cases.
  - rewrite !u32_id by (unfold in_u32; lia).
    rewrite IH; [|by apply byte_memory_store8|lia..].
    unfold in_range, store8. rewrite (u8_id (m (s - 1))) by apply Hm.
    bool_cases; f_equal; lia.
Qed.

(** memmove copies the bytes the source region held before the call, in
    either overlap direction. *)
Lemma memmove_spec dst src n m x :
  byte_memory m -> no_wrap dst n -> no_wrap src n ->
  memmove dst src n m x = if in_range dst n x then m (x - dst + src) else m x.
Proof.
  intros Hm Hd Hs. destruct Hd as (Hd0 & Hn & Hd1), Hs as (Hs0 & _ & Hs1). unfold memmove.
  rewrite !u32_id by (unfold in_u32; lia).
  destruct (Z.ltb_spec src dst); cbn [andb]; [destruct (Z.ltb_spec dst (src + n))|].
  - rewrite copy_backward_spec by (done || lia). rewrite Z2Nat.id by lia.
    replace (dst + n - n) with dst by lia.
    destruct (in_range dst n x); [|done]. f_equal. lia.
  - rewrite copy_forward_spec by (done || unfold no_wrap; lia). by rewrite Z2Nat.id by lia.
  - rewrite copy_forward_spec by (done || unfold no_wrap; lia). by rewrite Z2Nat.id by lia.
Qed.

Lemma memcmp_zero s1 s2 n :
  memcmp s1 s2 n = 0 <-> (forall i, 0 <= i < Z.of_nat n -> s1 i = s2 i).
Proof.
  revert s1 s2; induction n as [|n IH]; intros s1 s2; cbn [memcmp].
  - split; [intros _ i Hi; lia|done].
  - destruct (Z.eqb_spec (s1 0) (s2 0)) as [E|E]; cbn [negb].
    + rewrite IH. split.
      * intros H i Hi. destruct (Z.eq_dec i 0) as [->|]; [done|].
        specialize (H (i - 1) ltac:(lia)). by replace (i - 1 + 1) with i in H by lia.
      * intros H i Hi. apply H. lia.
    + split; [lia|]. intros H. exfalso. apply E, H. lia.
Qed.

(** *** Bounded string copies *)

(** The [n] bytes strncpy stores: the string up to its NUL, zero-padded. *)
Fixpoint strncpy_ref (t : Z -> Z) (n : nat) : bytes :=
  match n with
  | O => []
  | S n => if t 0 =? 0 then replicate (S n) 0 else t 0 :: strncpy_ref (fun i => t (i + 1)) n
  end.

Lemma length_strncpy_ref t n : length (strncpy_ref t n) = n.
Proof.
  revert t; induction n as [|n IH]; intros t; cbn [strncpy_ref]; [done|].
  destruct (t 0 =? 0); [by rewrite length_replicate|]. cbn. by rewrite IH.
Qed.

Lemma strncpy_ref_ext t t' n :
  (forall i, 0 <= i < Z.of_nat n -> t i = t' i) -> strncpy_ref t n = strncpy_ref t' n.
Proof.
  revert t t'; induction n as [|n IH]; intros t t' H; cbn [strncpy_ref]; [done|].
  rewrite (H 0) by lia. destruct (t' 0 =? 0); [done|]. f_equal.
  apply IH. intros i Hi. apply H. lia.
Qed.

Lemma zero_fill_spec s n m x :
  no_wrap s (Z.of_nat n) ->
  zero_fill s n m x = if in_range s (Z.of_nat n) x then 0 else m x.
Proof.
  revert s m; induction n as [|n IH]; intros s m (H0 & _ & H1); cbn [zero_fill].
  - unfold in_range. bool_cases.
  - rewrite u32_id by (unfold in_u32; lia).
    rewrite IH by (unfold no_wrap; lia). unfold in_range, store8, u8. bool_cases.
Qed.

Lemma nth_byte_replicate_0 n i : nth_byte (replicate n 0) i = 0.
Proof.
  unfold nth_byte. destruct (replicate n 0 !! i) as [b|] eqn:E; [|done].
  by apply lookup_replicate in E as [-> _].
Qed.

Lemma strncpy_loop_spec s t n m x :
  byte_memory m -> no_wrap s (Z.of_nat n) -> no_wrap t (Z.of_nat n) ->
  (s + Z.of_nat n <= t \/ t + Z.of_nat n <= s) ->
  strncpy_loop s t n m x =
    if in_range s (Z.of_nat n) x
    then nth_byte (strncpy_ref (fun i => m (t + i)) n) (Z.to_nat (x - s)) else m x.
Proof.
  revert s t m; induction n as [|n IH]; intros s t m Hm (Hs0 & _ & Hs1) (Ht0 & _ & Ht1) Hov;
    cbn [strncpy_loop strncpy_ref].
  - unfold in_range. bool_cases.
  - rewrite !u32_id by (unfold in_u32; lia).
    unfold store8 at 1. rewrite Z.eqb_refl, (u8_id (m t)) by apply Hm.
    rewrite Z.add_0_r. destruct (Z.eqb_spec (m t) 0) as [E|E].
    + rewrite zero_fill_spec by (unfold no_wrap; lia). rewrite nth_byte_replicate_0, E.
      unfold in_range, store8, u8. bool_cases.
    + rewrite IH; [|by apply byte_memory_store8|unfold no_wrap; lia..|lia].
      rewrite (strncpy_ref_ext _ (fun i => m (t + (i + 1)))).
      2: { intros i Hi. unfold store8. bool_cases. f_equal. lia. }
      unfold in_range, store8. rewrite (u8_id (m t)) by apply Hm. bool_cases.
      all: destruct (Z.to_nat (x - s)) as [|k] eqn:Ek; try lia; try done.
      all: by replace (Z.to_nat (x - (s + 1))) with k by lia.
Qed.

(** The bytes safestrcpy leaves at the destination, terminator included:
    at most [n - 1] bytes of the string, then NUL. *)
Fixpoint cstring (t : Z -> Z) (n : nat) : bytes :=
  match n with
  | O => []
  | S n => if t 0 =? 0 then [] else t 0 :: cstring (fun i => t (i + 1)) n
  end.

Lemma length_cstring t n : (length (cstring t n) <= n)%nat.
Proof.
  revert t; induction n as [|n IH]; intros t; cbn [cstring]; [done|].
  destruct (t 0 =? 0); cbn; [lia|]. specialize (IH (fun i => t (i + 1))). lia.
Qed.

Lemma cstring_nonzero t n : Forall (fun b => b <> 0) (cstring t n).
Proof.
  revert t; induction n as [|n IH]; intros t; cbn [cstring]; [constructor|].
  destruct (Z.eqb_spec (t 0) 0); [constructor|]. constructor; [done|apply IH].
Qed.

Lemma cstring_ext t t' n :
  (forall i, 0 <= i < Z.of_nat n -> t i = t' i) -> cstring t n = cstring t' n.
Proof.
  revert t t'; induction n as [|n IH]; intros t t' H; cbn [cstring]; [done|].
  rewrite (H 0) by lia. destruct (t' 0 =? 0); [done|]. f_equal.
  apply IH. intros i Hi. apply H. lia.
Qed.

Lemma safestrcpy_loop_frame s t n m x :
  no_wrap s (Z.of_nat n + 1) -> ~ (s <= x <= s + Z.of_nat n) ->
  safestrcpy_loop s t n m x = m x.
Proof.
  revert s t m; induction n as [|n IH]; intros s t m (Hs0 & _ & Hs1) Hx; cbn [safestrcpy_loop].
  - unfold store8. bool_cases.
  - rewrite (u32_id (s + 1)) by (unfold in_u32; lia).
    destruct (store8 s (m t) m s =? 0).
    + unfold store8. bool_cases.
    + rewrite IH by (unfold no_wrap; lia). unfold store8. bool_cases.
Qed.

Lemma safestrcpy_loop_spec s t n m i :
  byte_memory m -> no_wrap s (Z.of_nat n + 1) -> no_wrap t (Z.of_nat n + 1) ->
  (s + Z.of_nat n + 1 <= t \/ t + Z.of_nat n + 1 <= s) ->
  (i <= length (cstring (fun j => m (t + j)%Z) n))%nat ->
  safestrcpy_loop s t n m (s + Z.of_nat i) =
    nth_byte (cstring (fun j => m (t + j)) n ++ [0]) i.
Proof.
  revert s t m i; induction n as [|n IH];
    intros s t m i Hm (Hs0 & _ & Hs1) (Ht0 & _ & Ht1) Hov Hi; cbn [safestrcpy_loop cstring] in *.
  - destruct i as [|i]; [|cbn in Hi; lia]. unfold store8, u8. bool_cases.
  - rewrite (u32_id (s + 1)), (u32_id (t + 1)) by (unfold in_u32; lia).
    unfold store8 at 1. rewrite Z.eqb_refl, (u8_id (m t)) by apply Hm.
    rewrite Z.add_0_r in *. destruct (Z.eqb_spec (m t) 0) as [E|E].
    + destruct i as [|i]; [|cbn in Hi; lia]. cbn. unfold store8, u8.
      rewrite E. bool_cases.
    + assert (Hext : cstring (fun j => m (t + (j + 1))) n =
                     cstring (fun j => store8 s (m t) m (t + 1 + j)) n).
      { apply cstring_ext. intros j Hj. unfold store8. bool_cases. f_equal. lia. }
      rewrite Hext in *. destruct i as [|i].
      * rewrite Z.add_0_r. rewrite safestrcpy_loop_frame by (unfold no_wrap; lia).
        unfold store8. rewrite Z.eqb_refl. apply u8_id, Hm.
      * replace (s + Z.of_nat (S i)) with (s + 1 + Z.of_nat i) by lia.
        rewrite IH; [done|by apply byte_memory_store8|unfold no_wrap; lia..|lia|cbn in Hi; lia].
Qed.

(** strncmp returns 0 exactly when the strings, cut at [n] bytes, agree. *)
Lemma strncmp_zero p q n :
  byte_memory p -> byte_memory q ->
  strncmp p q n = 0 <-> cstring p n = cstring q n.
Proof.
  revert p q; induction n as [|n IH]; intros p q Hp Hq; cbn [strncmp cstring]; [done|].
  rewrite !u8_id by (apply Hp || apply Hq).
  destruct (Z.eqb_spec (p 0) 0) as [E|E]; cbn [negb andb].
  - destruct (Z.eqb_spec (q 0) 0) as [E'|E'].
    + split; [done|lia].
    + split; [lia|done].
  - destruct (Z.eqb_spec (p 0) (q 0)) as [E1|E1]; cbn [andb].
    + rewrite IH by (intros x; apply Hp || apply Hq). rewrite <- E1.
      rewrite (proj2 (Z.eqb_neq _ _) E). split; [by intros ->|by intros [=]].
    + destruct (Z.eqb_spec (q 0) 0); (split; [lia|by intros [=]]).
Qed.

Lemma strlen_spec fuel s k :
  strlen fuel s = Some k <->
  0 <= k < Z.of_nat fuel /\ s k = 0 /\ (forall i, 0 <= i < k -> s i <> 0).
Proof.
  revert s k; induction fuel as [|fuel IH]; intros s k; cbn [strlen].
  { split; [done|lia]. }
  destruct (Z.eqb_spec (s 0) 0) as [E|E].
  - split.
    + intros [= <-]. split; [lia|]. split; [done|]. intros; lia.
    + intros (Hk & _ & H). f_equal. destruct (Z.eq_dec k 0); [done|].
      exfalso. apply (H 0); [lia|done].
  - destruct (strlen fuel (fun i => s (i + 1))) as [n|] eqn:En; cbn.
    + apply IH in En as (Hn & Hz & Hnz). split.
      * intros [= <-]. split; [lia|]. split; [done|]. intros i Hi.
        destruct (Z.eq_dec i 0) as [->|]; [done|].
        specialize (Hnz (i - 1) ltac:(lia)). by replace (i - 1 + 1) with i in Hnz by lia.
      * intros (Hk & Hk0 & H). f_equal.
        destruct (Z.lt_trichotomy (n + 1) k) as [L|[L|L]]; [|done|].
        -- exfalso. apply (H (n + 1)); [lia|done].
        -- exfalso. destruct (Z.eq_dec k 0) as [->|]; [done|].
           apply (Hnz (k - 1)); [lia|]. by replace (k - 1 + 1) with k by lia.
    + split; [done|]. intros (Hk & Hk0 & H). exfalso.
      destruct (Z.eq_dec k 0) as [->|]; [done|].
      assert (strlen fuel (fun i => s (i + 1)) = Some (k - 1)) as E'; [|congruence].
      apply IH. replace (k - 1 + 1) with k by lia. split; [lia|]. split; [done|].
      intros i Hi. apply H. lia.
Qed.
