(* ===== verification/Mmu.v ===== *)
(** * mmu.h, memlayout.h and param.h: constants and address arithmetic

    The bit-level macros that split and round 32-bit addresses, written
    with the same shifts and masks, and their arithmetic meaning. *)

From stdpp Require Import base numbers strings list.
From S2P Require Import Prelude.

Local Open Scope Z_scope.

(** ** param.h *)
Definition NPROC : nat := 64.
Definition KSTACKSIZE : Z := 4096.
Definition NCPU : nat := 4.
Definition NOFILE : nat := 16.
Definition NFILE : nat := 100.
Definition NINODE : nat := 50.
Definition NDEV : Z := 10.
Definition ROOTDEV : Z := 1.
Definition MAXARG : Z := 32.
Definition MAXOPBLOCKS : Z := 10.
Definition LOGSIZE : Z := MAXOPBLOCKS * 3.
Definition NBUF : nat := 30.
Definition FSSIZE : Z := 1000.

(** ** memlayout.h *)
Definition EXTMEM : Z := 0x100000.
Definition PHYSTOP : Z := 0x20000000.
Definition DEVSPACE : Z := 0xFE000000.
Definition KERNBASE : Z := 0x80000000.
Definition KERNLINK : Z := KERNBASE + EXTMEM.
Definition PCI_BAR_BASE : Z := 0x80000000.
Definition PCI_VP_OFFSET : Z := 0x40000000.
Definition V2P (a : Z) : Z := u32 (a - KERNBASE).
Definition P2V (a : Z) : Z := u32 (a + KERNBASE).

(** ** mmu.h *)
Definition PGSIZE : Z := 4096.
Definition NPDENTRIES : Z := 1024.
Definition NPTENTRIES : Z := 1024.
Definition PTXSHIFT : Z := 12.
Definition PDXSHIFT : Z := 22.
Definition PTE_P : Z := 0x001.
Definition PTE_W : Z := 0x002.
Definition PTE_U : Z := 0x004.
Definition FL_IF : Z := 0x200.
Definition DPL_USER : Z := 3.
Definition SEG_KCODE : Z := 1.
Definition SEG_KDATA : Z := 2.
Definition SEG_UCODE : Z := 3.
Definition SEG_UDATA : Z := 4.

Definition PDX (va : Z) : Z := Z.land (Z.shiftr va PDXSHIFT) 0x3FF.
Definition PTX (va : Z) : Z := Z.land (Z.shiftr va PTXSHIFT) 0x3FF.
Definition PGADDR (d t o : Z) : Z :=
  u32 (Z.lor (Z.lor (Z.shiftl d PDXSHIFT) (Z.shiftl t PTXSHIFT)) o).
Definition PGROUNDUP (sz : Z) : Z := Z.land (u32 (sz + PGSIZE - 1)) (u32 (Z.lnot (PGSIZE - 1))).
Definition PGROUNDDOWN (a : Z) : Z := Z.land a (u32 (Z.lnot (PGSIZE - 1))).
Definition PTE_ADDR (pte : Z) : Z := Z.land pte (u32 (Z.lnot 0xFFF)).
Definition PTE_FLAGS (pte : Z) : Z := Z.land pte 0xFFF.

(** ** Arithmetic meaning of the masks *)

(** Clearing the low 12 bits of a 32-bit value rounds down to a page. *)
Lemma land_round_down x n : 0 <= n -> in_u32 x ->
  Z.land x (Z.ldiff (Z.ones 32) (Z.ones n)) = x / 2 ^ n * 2 ^ n.
Proof.
  intros Hn Hx. replace (Z.land x (Z.ldiff (Z.ones 32) (Z.ones n))) with (Z.ldiff (Z.land x (Z.ones 32)) (Z.ones n)).
  - rewrite Z.land_ones, Z.ldiff_ones_r by lia.
    rewrite Z.shiftl_mul_pow2, Z.shiftr_div_pow2 by lia.
    rewrite Z.mod_small by (unfold in_u32 in Hx; lia). done.
  - apply Z.bits_inj'. intros j Hj. rewrite !Z.ldiff_spec, !Z.land_spec, Z.ldiff_spec.
    by rewrite andb_assoc.
Qed.

Lemma land_page_mask x :
  in_u32 x -> Z.land x (u32 (Z.lnot 4095)) = x / 4096 * 4096.
Proof. by apply (land_round_down x 12). Qed.

Lemma PTE_ADDR_eq pte : in_u32 pte -> PTE_ADDR pte = pte / 4096 * 4096.
Proof. apply land_page_mask. Qed.

Lemma PTE_FLAGS_eq pte : PTE_FLAGS pte = pte mod 4096.
Proof. unfold PTE_FLAGS. change 0xFFF with (Z.ones 12). by rewrite Z.land_ones. Qed.

Lemma PGROUNDDOWN_eq a : in_u32 a -> PGROUNDDOWN a = a / 4096 * 4096.
Proof. apply land_page_mask. Qed.

Lemma PGROUNDUP_eq sz :
  0 <= sz <= 4294963200 -> PGROUNDUP sz = (sz + 4095) / 4096 * 4096.
Proof.
  intros H. unfold PGROUNDUP, PGSIZE. rewrite land_page_mask by apply u32_bound.
  rewrite u32_id by (unfold in_u32; lia). f_equal. f_equal. lia.
Qed.

Lemma PDX_eq va : in_u32 va -> PDX va = va / 4194304.
Proof.
  intros H. unfold in_u32 in H. unfold PDX, PDXSHIFT. change 0x3FF with (Z.ones 10).
  rewrite Z.land_ones, Z.shiftr_div_pow2 by lia. change (2 ^ 22) with 4194304.
  apply Z.mod_small. Z.div_mod_to_equations; lia.
Qed.

Lemma PTX_eq va : in_u32 va -> PTX va = va / 4096 mod 1024.
Proof.
  intros H. unfold PTX, PTXSHIFT. change 0x3FF with (Z.ones 10).
  by rewrite Z.land_ones, Z.shiftr_div_pow2 by lia.
Qed.

Lemma PGADDR_0 d : 0 <= d < 1024 -> PGADDR d 0 0 = d * 4194304.
Proof.
  intros H. unfold PGADDR, PDXSHIFT, PTXSHIFT. rewrite Z.shiftl_0_l, !Z.lor_0_r.
  rewrite Z.shiftl_mul_pow2 by lia. apply u32_id. unfold in_u32. lia.
Qed.

Lemma V2P_P2V a : 0 <= a < KERNBASE -> V2P (P2V a) = a.
Proof.
  unfold KERNBASE. intros H. unfold V2P, P2V, KERNBASE, u32.
  Z.div_mod_to_equations; lia.
Qed.

Lemma V2P_eq a : KERNBASE <= a < 4294967296 -> V2P a = a - KERNBASE.
Proof. unfold KERNBASE. intros H. unfold V2P, KERNBASE. apply u32_id. unfold in_u32. lia. Qed.

Lemma P2V_eq a : 0 <= a < KERNBASE -> P2V a = a + KERNBASE.
Proof. unfold KERNBASE. intros H. unfold P2V, KERNBASE. apply u32_id. unfold in_u32. lia. Qed.

(** Page-aligned addresses and flags share no bits. *)
Lemma lor_page x f : x mod 4096 = 0 -> 0 <= f < 4096 -> Z.lor x f = x + f.
Proof.
  intros Hx Hf. rewrite <- Z.add_lor_land. replace (Z.land x f) with 0; [lia|]. symmetry.
  apply Z.bits_inj'. intros n Hn. rewrite Z.land_spec, Z.bits_0.
  apply Z.div_exact in Hx; [|lia]. rewrite Hx, Z.mul_comm. change 4096 with (2 ^ 12).
  destruct (Z.lt_ge_cases n 12); [by rewrite Z.mul_pow2_bits_low|].
  rewrite <- (Z.mod_small f (2 ^ 12)) by (cbn; lia). by rewrite Z.mod_pow2_bits_high, andb_false_r by lia.
Qed.

Lemma PTE_ADDR_page x f : in_u32 (x + f) -> x mod 4096 = 0 -> 0 <= f < 4096 -> PTE_ADDR (x + f) = x.
Proof.
  intros Hu Hx Hf. rewrite PTE_ADDR_eq by done. apply Z.div_exact in Hx; [|lia].
  assert ((x + f) / 4096 = x / 4096) as ->; [|lia]. rewrite Hx at 1. rewrite Z.mul_comm, Z.div_add_l by lia.
  rewrite (Z.div_small f) by lia. lia.
Qed.

Lemma bits_bound n x : 0 <= n ->
  0 <= x < 2 ^ n <-> 0 <= x /\ forall j, n <= j -> Z.testbit x j = false.
Proof.
  intros Hn. split.
  - intros Hx. split; [lia|]. intros j Hj. rewrite <- (Z.mod_small x (2 ^ n)) by lia. apply Z.mod_pow2_bits_high. lia.
  - intros [H0 Hj]. split; [done|]. destruct (decide (x = 0)) as [->|]; [apply Z.pow_pos_nonneg; lia|].
    apply Z.log2_lt_pow2; [lia|]. destruct (Z.lt_ge_cases (Z.log2 x) n) as [|Hge]; [done|].
    specialize (Hj _ Hge). rewrite Z.bit_log2 in Hj by lia. done.
Qed.

Lemma in_u32_lor x y : in_u32 x -> in_u32 y -> in_u32 (Z.lor x y).
Proof.
  unfold in_u32. change 4294967296 with (2 ^ 32). rewrite !bits_bound by lia. intros [Hx Bx] [Hy By].
  split; [by apply Z.lor_nonneg|]. intros j Hj. by rewrite Z.lor_spec, Bx, By.
Qed.
