(* ===== verification/Kalloc.v ===== *)
(** * kalloc.c: the physical page allocator

    [kmem.freelist] points to the first free page and each free page
    holds, in its first word, the address of the next one.  The model
    keeps that list in memory, as the code does; [freelist_rep] relates
    it to the list of free pages, and the theorems show that [kfree] and
    [kalloc] are push and pop of that list. *)

From stdpp Require Import base numbers strings sets list.
From S2P Require Import Prelude Kmonad Kstring Mmu.

Local Open Scope Z_scope.

Record kmem : Type := mkkmem {
  use_lock : bool;
  freelist : Z;          (* struct run *, 0 when empty *)
  kmemory : memory       (* the memory the pages live in *)
}.

Definition set_use_lock (b : bool) (k : kmem) : kmem := mkkmem b (freelist k) (kmemory k).
Definition set_freelist (r : Z) (k : kmem) : kmem := mkkmem (use_lock k) r (kmemory k).
Definition set_kmemory (m : memory) (k : kmem) : kmem := mkkmem (use_lock k) (freelist k) m.

Section kalloc.

(** [end]: first address after the kernel image (kernel.ld). *)
Variable kend : Z.

(** [(uint)v % PGSIZE || v < end || V2P(v) >= PHYSTOP] *)
Definition bad_page (v : Z) : bool :=
  negb (v mod PGSIZE =? 0) || (v <? kend) || (PHYSTOP <=? V2P v).

Definition kfree (v : Z) : K kmem unit :=
  if bad_page v then panic "kfree"
  else
    modify (fun k => set_kmemory (memset v 1 PGSIZE (kmemory k)) k);;
    locking ← gets use_lock;
    when locking (acquire L_kmem);;
    modify (fun k => set_kmemory (store32 v (freelist k) (kmemory k)) k);;
    modify (set_freelist v);;
    when locking (release L_kmem).

Definition kalloc : K kmem Z :=
  locking ← gets use_lock;
  when locking (acquire L_kmem);;
  r ← gets freelist;
  when (negb (r =? 0)) (modify (fun k => set_freelist (load32 r (kmemory k)) k));;
  when locking (release L_kmem);;
  mret r.

(** [for(; p + PGSIZE <= vend; p += PGSIZE) kfree(p);] with at most [fuel]
    iterations. *)
Fixpoint freerange_loop (fuel : nat) (p vend : Z) : K kmem unit :=
  match fuel with
  | O => mret tt
  | S fuel =>
      if u32 (p + PGSIZE) <=? vend
      then kfree p;; freerange_loop fuel (u32 (p + PGSIZE)) vend
      else mret tt
  end.

Definition freerange (vstart vend : Z) : K kmem unit :=
  freerange_loop (Z.to_nat (vend / PGSIZE)) (PGROUNDUP vstart) vend.

Definition kinit1 (vstart vend : Z) : K kmem unit :=
  modify (set_use_lock false);; freerange vstart vend.

Definition kinit2 (vstart vend : Z) : K kmem unit :=
  freerange vstart vend;; modify (set_use_lock true).

(** ** The list of free pages *)

Fixpoint freelist_rep (m : memory) (head : Z) (l : list Z) : Prop :=
  match l with
  | [] => head = 0
  | a :: t => head = a /\ freelist_rep m (load32 a m) t
  end.

Definition page_ok (v : Z) : Prop :=
  v mod PGSIZE = 0 /\ kend <= v /\ KERNBASE <= v /\ v < KERNBASE + PHYSTOP.

(** The allocator holds exactly the pages [l], all of them different. *)
Definition kmem_inv (l : list Z) (k : kmem) : Prop :=
  freelist_rep (kmemory k) (freelist k) l /\ NoDup l /\ Forall page_ok l.

Lemma page_ok_not_bad v : page_ok v -> bad_page v = false.
Proof.
  intros (Ha & He & Hk & Ht). unfold bad_page, PHYSTOP, KERNBASE in *.
  rewrite Ha, V2P_eq by (unfold KERNBASE; lia).
  destruct (Z.ltb_spec v kend); [lia|].
  destruct (Z.leb_spec 0x20000000 (v - KERNBASE)); [unfold KERNBASE in *; lia|done].
Qed.

Lemma page_ok_no_wrap v : page_ok v -> no_wrap v PGSIZE.
Proof. unfold page_ok, no_wrap, PGSIZE, KERNBASE, PHYSTOP. lia. Qed.

Lemma pages_disjoint v w x :
  v mod PGSIZE = 0 -> w mod PGSIZE = 0 -> v <> w -> v <= x < v + PGSIZE ->
  ~ (w <= x < w + PGSIZE).
Proof. unfold PGSIZE. intros Hv Hw Hne Hx Hy. Z.div_mod_to_equations; lia. Qed.

Lemma load32_ext a m m' :
  no_wrap a 4 -> (forall x, a <= x < a + 4 -> m x = m' x) -> load32 a m = load32 a m'.
Proof.
  intros (H0 & _ & H1) H. unfold load32. rewrite !u32_id by (unfold in_u32; lia).
  rewrite !H by lia. done.
Qed.

Lemma load32_store32 a v m : no_wrap a 4 -> in_u32 v -> load32 a (store32 a v m) = v.
Proof.
  intros Hw Hv. unfold load32. destruct Hw as (H0 & ? & H1).
  rewrite !u32_id by (unfold in_u32; lia).
  rewrite !store32_spec by (unfold no_wrap; lia). unfold u8, in_u32 in *.
  bool_cases. Z.div_mod_to_equations; lia.
Qed.

(** Writing inside a page that is not free leaves the list intact. *)
Lemma freelist_rep_frame m m' v head l :
  v mod PGSIZE = 0 -> v ∉ l -> Forall page_ok l ->
  (forall x, ~ (v <= x < v + PGSIZE) -> m' x = m x) ->
  freelist_rep m head l -> freelist_rep m' head l.
Proof.
  intros Hv Hnin Hok Hm. revert head Hnin Hok.
  induction l as [|a l IH]; intros head Hnin Hok; [done|].
  intros [-> Hrep]. apply Forall_cons in Hok as [Ha Hok].
  apply not_elem_of_cons in Hnin as [Hne Hnin].
  split; [done|]. rewrite (load32_ext a m' m).
  - by apply IH.
  - destruct (page_ok_no_wrap a Ha) as (H0 & _ & H1). unfold no_wrap, PGSIZE in *. lia.
  - intros x Hx. apply Hm. destruct Ha as (Hmod & _).
    apply (pages_disjoint a v x); auto. unfold PGSIZE. lia.
Qed.

Lemma freelist_head_u32 m l head :
  freelist_rep m head l -> Forall page_ok l -> in_u32 head.
Proof.
  destruct l as [|a l]; cbn.
  - intros -> _. unfold in_u32. lia.
  - intros [-> _] Hok. apply Forall_cons in Hok as [Ha _]. unfold page_ok, in_u32, KERNBASE, PHYSTOP in *. lia.
Qed.

(** The page after kfree: its first word links to the old head and the
    rest is filled with 1s; no other byte of memory changes. *)
Lemma kfree_run v l k c :
  kmem_inv l k -> page_ok v -> v ∉ l -> L_kmem ∉ held c ->
  wp (kfree v) (fun _ k' c' => c' = c /\ kmem_inv (v :: l) k' /\ use_lock k' = use_lock k /\
    (forall x, ~ (v <= x < v + PGSIZE) -> kmemory k' x = kmemory k x)) k c.
Proof.
  intros (Hrep & Hnd & Hok) Hv Hnin Hlk. destruct (page_ok_no_wrap v Hv) as (Hv0 & _ & Hv1).
  assert (Hv4 : no_wrap v 4) by (unfold no_wrap, PGSIZE in *; lia).
  assert (Hframe : forall x, ~ (v <= x < v + PGSIZE) ->
    store32 v (freelist k) (memset v 1 PGSIZE (kmemory k)) x = kmemory k x).
  { intros x Hx. rewrite store32_spec, memset_spec by (done || unfold no_wrap, PGSIZE in *; lia).
    unfold PGSIZE in *. rewrite (proj2 (in_range_false v 4096 x)) by done. bool_cases. }
  assert (Hinv : kmem_inv (v :: l) (mkkmem (use_lock k) v
    (store32 v (freelist k) (memset v 1 PGSIZE (kmemory k))))).
  { repeat split; cbn; [|by constructor|by constructor].
    rewrite load32_store32 by eauto using freelist_head_u32.
    eapply freelist_rep_frame; eauto. apply Hv. }
  unfold kfree. rewrite page_ok_not_bad by done. destruct c as [h w p]; cbn in Hlk.
  ksteps. cbn [use_lock set_kmemory]. revert Hinv. destruct (use_lock k) eqn:Hul; intros Hinv; cbn [when]; ksteps;
    cbn [when]; ksteps; (split; [done|]); (split; [exact Hinv|]); (split; [done|exact Hframe]).
Qed.

Lemma kalloc_run l k c :
  kmem_inv l k -> L_kmem ∉ held c ->
  wp kalloc (fun r k' c' => c' = c /\ r = default 0 (head l) /\ kmem_inv (tail l) k' /\
    use_lock k' = use_lock k /\ kmemory k' = kmemory k) k c.
Proof.
  intros (Hrep & Hnd & Hok) Hlk. destruct c as [h w p]; cbn in Hlk.
  assert (Hpost : let k' := if freelist k =? 0 then k
                  else set_freelist (load32 (freelist k) (kmemory k)) k in
    freelist k = default 0 (head l) /\ kmem_inv (tail l) k' /\
    use_lock k' = use_lock k /\ kmemory k' = kmemory k).
  { destruct l as [|a l]; cbn in Hrep |- *.
    - rewrite Hrep, Z.eqb_refl. split; [done|]. repeat split; [done|constructor..].
    - destruct Hrep as [-> Hrep]. apply Forall_cons in Hok as [Ha Hok].
      apply NoDup_cons in Hnd as [_ Hnd].
      destruct (Z.eqb_spec a 0); [unfold page_ok, KERNBASE in Ha; lia|].
      repeat split; done. }
  unfold kalloc. cbv zeta in Hpost.
  ksteps. destruct (use_lock k) eqn:Hul; cbn [when]; ksteps;
    destruct (freelist k =? 0); cbn [negb when]; ksteps; cbn [when]; ksteps;
    (split; [done|]); destruct Hpost as (H1 & H2 & H3 & H4); rewrite <- ?Hul; done.
Qed.

(** *** Initialisation *)

(** The [n] consecutive pages from [p], in address order. *)
Fixpoint pages (p : Z) (n : nat) : list Z :=
  match n with
  | O => []
  | S n => p :: pages (p + PGSIZE) n
  end.

Lemma freerange_loop_run fuel p vend l k c :
  kmem_inv l k -> L_kmem ∉ held c ->
  p mod PGSIZE = 0 -> kend <= p -> KERNBASE <= p -> vend <= KERNBASE + PHYSTOP ->
  p + PGSIZE < 4294967296 -> Forall (fun a => a < p) l -> (vend - p) / PGSIZE <= Z.of_nat fuel ->
  wp (freerange_loop fuel p vend)
    (fun _ k' c' => c' = c /\ use_lock k' = use_lock k /\
      kmem_inv (rev (pages p (Z.to_nat ((vend - p) / PGSIZE))) ++ l) k') k c.
Proof.
  unfold PGSIZE in *. revert p l k; induction fuel as [|fuel IH];
    intros p l k Hinv Hlk Hp He Hk Ht Hw32 Hlt Hfuel; cbn [freerange_loop].
  - replace (Z.to_nat ((vend - p) / 4096)) with 0%nat by lia. ksteps. done.
  - unfold KERNBASE, PHYSTOP in *. unfold PGSIZE. destruct (decide (p + 4096 <= vend)) as [Hle|Hgt].
    + rewrite u32_id by (unfold in_u32; lia). rewrite (proj2 (Z.leb_le _ _)) by done.
      ksteps. eapply wp_mono.
      { apply (kfree_run p l); [done| |by intros Hin; rewrite Forall_forall in Hlt; apply Hlt in Hin; lia|done].
        unfold page_ok, KERNBASE, PHYSTOP, PGSIZE. lia. }
      intros _ k' c' (-> & Hinv' & Hul & _). eapply wp_mono.
      { apply (IH (p + 4096) (p :: l)); try done; try lia.
        - Z.div_mod_to_equations; lia.
        - constructor; [lia|]. eapply Forall_impl; [done|]. cbn. lia.
        - Z.div_mod_to_equations; lia. }
      intros _ k'' c'' (-> & Hul' & Hinv''). split; [done|]. split; [congruence|].
      replace (Z.to_nat ((vend - p) / 4096)) with (S (Z.to_nat ((vend - (p + 4096)) / 4096)))
        by (Z.div_mod_to_equations; lia).
      cbn [pages rev]. rewrite <- app_assoc. exact Hinv''.
    + replace (Z.to_nat ((vend - p) / 4096)) with 0%nat by (Z.div_mod_to_equations; lia).
      destruct (Z.leb_spec (u32 (p + 4096)) vend) as [Hw|Hw].
      * rewrite u32_id in Hw by (unfold in_u32; lia). lia.
      * ksteps. done.
Qed.

(** kinit1 on an empty allocator puts exactly the whole pages of
    [vstart, vend) on the free list, the highest first, and takes no lock. *)
Theorem kinit1_pages vstart vend k c :
  kmem_inv [] k -> L_kmem ∉ held c ->
  kend <= vstart -> KERNBASE <= vstart <= vend -> vend <= KERNBASE + PHYSTOP ->
  wp (kinit1 vstart vend)
    (fun _ k' c' => c' = c /\ use_lock k' = false /\
      let p := PGROUNDUP vstart in
      kmem_inv (rev (pages p (Z.to_nat ((vend - p) / PGSIZE)))) k') k c.
Proof.
  intros Hinv Hlk He Hk Ht. unfold kinit1, freerange.
  assert (Hp : PGROUNDUP vstart = (vstart + 4095) / 4096 * 4096)
    by (apply PGROUNDUP_eq; unfold KERNBASE, PHYSTOP in *; lia).
  ksteps. eapply wp_mono.
  { apply (freerange_loop_run _ _ _ []); rewrite ?Hp; unfold KERNBASE, PHYSTOP, PGSIZE in *;
      try done; try (by constructor); Z.div_mod_to_equations; lia. }
  intros _ k' c' (-> & Hul & Hinv'). split; [done|]. split; [done|].
  by rewrite app_nil_r in Hinv'.
Qed.

(** C37. The free list behaves as a stack of pages: a page given back with
    kfree is the one the next kalloc returns, the pages free before stay
    free in the same order, and no lock stays held. *)
Theorem kfree_kalloc v l k c :
  kmem_inv l k -> page_ok v -> v ∉ l -> L_kmem ∉ held c ->
  wp (kfree v;; kalloc) (fun r k' c' => r = v /\ kmem_inv l k' /\ c' = c) k c.
Proof.
  intros Hinv Hv Hnin Hlk. ksteps. eapply wp_mono; [by apply (kfree_run v l)|].
  intros _ k1 c1 (-> & Hinv1 & _). eapply wp_mono; [by apply (kalloc_run (v :: l))|].
  intros r k2 c2 (-> & -> & Hinv2 & _). done.
Qed.

End kalloc.

(** Two free pages above a kernel that ends at 0x80400000. *)
Definition two_pages : kmem :=
  {| use_lock := true; freelist := 2151682048;
     kmemory := store32 2151682048 2151677952 (store32 2151677952 0 (fun _ => 0)) |}.

Lemma kinit1_pages_witness :
  wp (kinit1 2151677952 2151677952 2151690240)
    (fun _ k' c' => c' = mkctx [] [] 0 /\ use_lock k' = false /\
      kmem_inv 2151677952 [2151686144; 2151682048; 2151677952] k')
    {| use_lock := false; freelist := 0; kmemory := fun _ => 0 |} (mkctx [] [] 0).
Proof.
  refine (wp_mono _ _ _ _ _ (kinit1_pages 2151677952 2151677952 2151690240 _ _ _ _ _ _ _) _);
    try (unfold KERNBASE, PHYSTOP; cbn; lia).
  - repeat constructor.
  - cbn. set_solver.
  - intros _ k' c' H. exact H.
Defined.

Lemma kfree_kalloc_witness :
  wp (kfree 2151677952 2151686144;; kalloc)
    (fun r k' c' => r = 2151686144 /\ kmem_inv 2151677952 [2151682048; 2151677952] k' /\
      c' = mkctx [] [] 0) two_pages (mkctx [] [] 0).
Proof.
  apply kfree_kalloc.
  - split; [by vm_compute|].
    split; [repeat constructor; set_solver|]. repeat constructor; by vm_compute.
  - repeat split; by vm_compute.
  - set_solver.
  - cbn. set_solver.
Defined.
