(* ===== verification/Locks.v ===== *)
(** * spinlock.c and sleeplock.c

    Part 1 models spin locks at the level of the machine: every CPU has its
    interrupt flag, the [ncli]/[intena] pair of struct cpu and a position
    inside [acquire] or [release]; a step relation interleaves the CPUs at
    the atomic instructions (the [xchg], the store of [lk->cpu], the store
    that frees the lock).  The invariant over all interleavings gives
    mutual exclusion and disabled interrupts inside critical sections.

    Part 2 models sleep locks in the kernel monad; they are the locks of
    buffers and inodes. *)

From stdpp Require Import base numbers strings gmap list.
From S2P Require Import Prelude Kmonad Mmu.

Local Open Scope Z_scope.

(** ** Part 1: spin locks *)

Module Spin.

(** The fields of struct cpu that spinlock.c uses, and the CPU's IF flag. *)
Record cpu : Type := mkcpu {
  iflag : bool;      (* readeflags() & FL_IF *)
  ncli : Z;
  intena : bool
}.

(** struct spinlock, without the debugging fields name and pcs. *)
Record spinlock : Type := mklock {
  locked : bool;
  owner : option nat   (* lk->cpu *)
}.

Definition initlock : spinlock := mklock false None.

Definition pushcli (c : cpu) : cpu :=
  let eflags := iflag c in                              (* eflags = readeflags(); cli(); *)
  let ie := if ncli c =? 0 then eflags else intena c in
  mkcpu false (ncli c + 1) ie.

Definition popcli (c : cpu) : string + cpu :=
  if iflag c then inl "popcli - interruptible"
  else
    let n := ncli c - 1 in
    if n <? 0 then inl "popcli"
    else inr (mkcpu ((n =? 0) && intena c) n (intena c)).

(** [lock->locked && lock->cpu == mycpu()] *)
Definition holding (i : nat) (l : spinlock) : bool :=
  locked l && bool_decide (owner l = Some i).

(** Where a CPU is with respect to the lock code. *)
Inductive lockpc : Type :=
| Out                 (* outside acquire and release *)
| Spinning (l : nat)  (* in the xchg loop of acquire *)
| Acquired (l : nat)  (* after the xchg, before lk->cpu = mycpu() *)
| Releasing (l : nat) (* after lk->cpu = 0, before lk->locked = 0 *)
| Nested.             (* between the pushcli and popcli of myproc or switchuvm *)

Record machine : Type := mkmachine {
  cpus : list (cpu * lockpc);
  locks : list spinlock
}.

Definition set_cpu (i : nat) (c : cpu) (pc : lockpc) (m : machine) : machine :=
  mkmachine (<[i := (c, pc)]> (cpus m)) (locks m).
Definition set_lock (l : nat) (k : spinlock) (m : machine) : machine :=
  mkmachine (cpus m) (<[l := k]> (locks m)).

(** One atomic step of CPU [i].  A step exists only where the code does
    not panic. *)
Inductive step (m : machine) : machine -> Prop :=
| step_acquire i l c k :           (* pushcli(); if(holding(lk)) panic *)
    cpus m !! i = Some (c, Out) -> locks m !! l = Some k ->
    holding i k = false ->
    step m (set_cpu i (pushcli c) (Spinning l) m)
| step_xchg_busy i l c k :         (* xchg(&lk->locked, 1) != 0 *)
    cpus m !! i = Some (c, Spinning l) -> locks m !! l = Some k -> locked k = true ->
    step m (set_lock l (mklock true (owner k)) m)
| step_xchg i l c k :              (* xchg(&lk->locked, 1) == 0 *)
    cpus m !! i = Some (c, Spinning l) -> locks m !! l = Some k -> locked k = false ->
    step m (set_cpu i c (Acquired l) (set_lock l (mklock true (owner k)) m))
| step_set_owner i l c k :         (* lk->cpu = mycpu() *)
    cpus m !! i = Some (c, Acquired l) -> locks m !! l = Some k ->
    step m (set_cpu i c Out (set_lock l (mklock (locked k) (Some i)) m))
| step_release i l c k :           (* if(!holding(lk)) panic; lk->cpu = 0 *)
    cpus m !! i = Some (c, Out) -> locks m !! l = Some k ->
    holding i k = true ->
    step m (set_cpu i c (Releasing l) (set_lock l (mklock (locked k) None) m))
| step_unlock i l c c' k :         (* lk->locked = 0; popcli() *)
    cpus m !! i = Some (c, Releasing l) -> locks m !! l = Some k ->
    popcli c = inr c' ->
    step m (set_cpu i c' Out (set_lock l (mklock false (owner k)) m))
| step_pushcli i c :               (* myproc(), switchuvm(): pushcli() *)
    cpus m !! i = Some (c, Out) ->
    step m (set_cpu i (pushcli c) Nested m)
| step_popcli i c c' :             (* ... popcli() *)
    cpus m !! i = Some (c, Nested) -> popcli c = inr c' ->
    step m (set_cpu i c' Out m).

Inductive reachable (m0 : machine) : machine -> Prop :=
| reach_refl : reachable m0 m0
| reach_step m m' : reachable m0 m -> step m m' -> reachable m0 m'.

(** At boot the CPUs are outside the lock code with [ncli = 0] and every
    lock is free. *)
Definition boot (m : machine) : Prop :=
  (forall i c pc, cpus m !! i = Some (c, pc) -> ncli c = 0 /\ pc = Out) /\
  (forall l k, locks m !! l = Some k -> k = initlock).

Definition pc_at (pc : lockpc) (l : nat) : Prop := pc = Acquired l \/ pc = Releasing l.

(** CPU [i] is between the xchg of acquire(l) and the store of release(l). *)
Definition in_cs (m : machine) (i l : nat) : Prop :=
  (exists c pc, cpus m !! i = Some (c, pc) /\ pc_at pc l) \/
  (exists k, locks m !! l = Some k /\ owner k = Some i).

(** pushcli calls that the position inside the lock code accounts for. *)
Definition pc_depth (pc : lockpc) : Z := match pc with Out => 0 | _ => 1 end.

Definition owns (i : nat) (k : spinlock) : Z := if decide (owner k = Some i) then 1 else 0.

(** ncli is the number of locks the CPU owns, plus one inside the lock
    code; interrupts are off whenever it is positive. *)
Record inv (m : machine) : Prop := {
  inv_cpu : forall i c pc, cpus m !! i = Some (c, pc) ->
    ncli c = zsum (owns i) (locks m) + pc_depth pc /\ (0 < ncli c -> iflag c = false);
  inv_owner : forall l k i, locks m !! l = Some k -> owner k = Some i ->
    locked k = true /\ is_Some (cpus m !! i);
  inv_pc : forall i c pc l, cpus m !! i = Some (c, pc) -> pc_at pc l ->
    exists k, locks m !! l = Some k /\ locked k = true /\ owner k = None;
  inv_excl : forall i j c d pc pc' l,
    cpus m !! i = Some (c, pc) -> pc_at pc l ->
    cpus m !! j = Some (d, pc') -> pc_at pc' l -> i = j
}.

(** pushcli and popcli are matched: a popcli undoes a pushcli, whether
    interrupts were on or off before. *)
Lemma popcli_pushcli c :
  0 <= ncli c -> (0 < ncli c -> iflag c = false) ->
  exists c', popcli (pushcli c) = inr c' /\ iflag c' = iflag c /\ ncli c' = ncli c /\
             (0 < ncli c -> c' = c).
Proof.
  intros Hn Hi. unfold popcli, pushcli; cbn.
  destruct (Z.ltb_spec (ncli c + 1 - 1) 0); [lia|].
  eexists; split; [done|]. cbn.
  destruct (Z.eqb_spec (ncli c) 0) as [E|E]; destruct (Z.eqb_spec (ncli c + 1 - 1) 0); try lia; cbn.
  - repeat split; [lia|]. lia.
  - assert (iflag c = false) as Hf by (apply Hi; lia).
    split; [done|]. split; [lia|]. intros _. destruct c; cbn in *. f_equal; [done|lia].
Qed.

Lemma owns_nonneg i k : 0 <= owns i k.
Proof. unfold owns. case_decide; lia. Qed.

Lemma pushcli_ncli c : ncli (pushcli c) = ncli c + 1.
Proof. done. Qed.

Lemma popcli_inr c c' :
  popcli c = inr c' ->
  ncli c' = ncli c - 1 /\ 0 <= ncli c' /\ (0 < ncli c' -> iflag c' = false).
Proof.
  unfold popcli. destruct (iflag c); [done|].
  destruct (Z.ltb_spec (ncli c - 1) 0); [done|]. intros [= <-]; cbn.
  split; [done|]. split; [lia|]. intros ?. destruct (Z.eqb_spec (ncli c - 1) 0); [lia|done].
Qed.

Lemma spin_boot_inv m : boot m -> inv m.
Proof.
  intros [Hc Hl].
  assert (Hz : forall i, zsum (owns i) (locks m) = 0).
  { intros i. assert (Hall : Forall (fun k => k = initlock) (locks m)).
    { apply Forall_lookup_2. exact Hl. }
    revert Hall. generalize (locks m). induction 1 as [|k ls -> _ IH]; [done|].
    unfold zsum in *. cbn. by rewrite IH. }
  split.
  - intros i c pc H. destruct (Hc _ _ _ H) as [-> ->]. rewrite Hz. cbn. lia.
  - intros l k i H Ho. rewrite (Hl _ _ H) in Ho. done.
  - intros i c pc l H [E|E]; destruct (Hc _ _ _ H) as [_ ->]; done.
  - intros i j c d pc pc' l H [E|E]; destruct (Hc _ _ _ H) as [_ ->]; done.
Qed.

Ltac inv_lookups :=
  repeat match goal with
  | H : <[_ := _]> _ !! _ = Some _ |- _ =>
      apply list_lookup_insert_Some in H as [(-> & [= <- <-] & _)|(? & H)]
  | H : <[_ := _]> _ !! _ = Some _ |- _ =>
      apply list_lookup_insert_Some in H as [(-> & <- & _)|(? & H)]
  end.

Lemma zsum_owns_insert m i l k k' :
  locks m !! l = Some k ->
  zsum (owns i) (<[l := k']> (locks m)) = zsum (owns i) (locks m) - owns i k + owns i k'.
Proof. apply zsum_insert. Qed.

Lemma owns_None i k : owner k = None -> owns i k = 0.
Proof. intros E. unfold owns. by rewrite E. Qed.

Lemma owns_self i k : owner k = Some i -> owns i k = 1.
Proof. intros E. unfold owns. by rewrite E, decide_True. Qed.

Lemma owns_other i j k : owner k = Some i -> i <> j -> owns j k = 0.
Proof. intros E Hne. unfold owns. rewrite E, decide_False; [done|]. by intros [= ->]. Qed.

Lemma holding_true i k : holding i k = true -> locked k = true /\ owner k = Some i.
Proof.
  unfold holding. intros H. apply andb_true_iff in H as [Hl Ho].
  by apply bool_decide_eq_true in Ho.
Qed.

(** The four clauses of the invariant, one lemma each. *)
Section preservation.
Context (m m' : machine) (Hinv : inv m) (Hs : step m m').

Lemma step_inv_cpu i c pc :
  cpus m' !! i = Some (c, pc) ->
  ncli c = zsum (owns i) (locks m') + pc_depth pc /\ (0 < ncli c -> iflag c = false).
Proof.
  destruct Hinv as [Hcpu Hown Hpc Hex].
  destruct Hs as [j l d k Hj Hl Hh|j l d k Hj Hl Hk|j l d k Hj Hl Hk|j l d k Hj Hl
    |j l d k Hj Hl Hh|j l d d' k Hj Hl Hp|j d Hj|j d d' Hj Hp]; cbn; intros Hi;
    pose proof (Hcpu _ _ _ Hj) as [E Ei];
    try rewrite (zsum_owns_insert _ _ _ _ _ Hl);
    try apply holding_true in Hh as [Hh1 Hh2];
    try (pose proof (popcli_inr _ _ Hp) as (Hp1 & Hp2 & Hp3));
    try (destruct (Hpc _ _ _ _ Hj (or_introl eq_refl)) as (k0 & Hk0 & Hlk & Ho);
         rewrite Hl in Hk0; injection Hk0 as <-);
    try (destruct (Hpc _ _ _ _ Hj (or_intror eq_refl)) as (k0 & Hk0 & Hlk & Ho);
         rewrite Hl in Hk0; injection Hk0 as <-);
    inv_lookups; try (pose proof (Hcpu _ _ _ Hi) as [E2 Ei2]; split; [|done]);
    unfold pc_depth in *; cbn [ncli pushcli iflag].
  - split; [lia|done].
  - lia.
  - unfold owns at 2 3; cbn. lia.
  - split; [|done]. unfold owns at 2 3; cbn. lia.
  - unfold owns at 2 3; cbn. lia.
  - split; [|done]. rewrite (owns_None i k), (owns_self i (mklock _ _)) by done. lia.
  - rewrite (owns_None i k), (owns_other j i (mklock _ _)) by done. lia.
  - split; [|done]. rewrite (owns_self i k), (owns_None i (mklock _ _)) by done. lia.
  - rewrite (owns_other j i k), (owns_None i (mklock _ _)) by done. lia.
  - split; [|done]. unfold owns at 2 3; cbn. lia.
  - unfold owns at 2 3; cbn. lia.
  - split; [lia|done].
  - lia.
  - split; [lia|done].
  - lia.
Qed.

Lemma step_inv_owner l k i :
  locks m' !! l = Some k -> owner k = Some i -> locked k = true /\ is_Some (cpus m' !! i).
Proof.
  destruct Hinv as [Hcpu Hown Hpc Hex].
  assert (Hsome : is_Some (cpus m !! i) -> is_Some (cpus m' !! i)).
  { rewrite !lookup_lt_is_Some. by destruct Hs; cbn; rewrite ?length_insert. }
  destruct Hs as [j l' d k' Hj Hl Hh|j l' d k' Hj Hl Hk|j l' d k' Hj Hl Hk|j l' d k' Hj Hl
    |j l' d k' Hj Hl Hh|j l' d d' k' Hj Hl Hp|j d Hj|j d d' Hj Hp]; cbn; intros Hk0 Ho;
    inv_lookups; cbn in Ho; try (destruct (Hown _ _ _ Hk0 Ho); by auto).
  - destruct (Hown _ _ _ Hl Ho); by auto.
  - destruct (Hown _ _ _ Hl Ho); by auto.
  - destruct (Hpc _ _ _ _ Hj (or_introl eq_refl)) as (k0 & Hk1 & Hlk & _). simplify_eq.
    split; [done|]. apply Hsome. eauto.
  - done.
  - destruct (Hpc _ _ _ _ Hj (or_intror eq_refl)) as (k0 & Hk1 & _ & Hn). congruence.
Qed.

Lemma step_inv_pc i c pc l :
  cpus m' !! i = Some (c, pc) -> pc_at pc l ->
  exists k, locks m' !! l = Some k /\ locked k = true /\ owner k = None.
Proof.
  destruct Hinv as [Hcpu Hown Hpc Hex].
  assert (Hlt : forall l k, locks m !! l = Some k -> (l < length (locks m))%nat)
    by (intros; by eapply lookup_lt_Some).
  destruct Hs as [j l' d k' Hj Hl Hh|j l' d k' Hj Hl Hk|j l' d k' Hj Hl Hk|j l' d k' Hj Hl
    |j l' d k' Hj Hl Hh|j l' d d' k' Hj Hl Hp|j d Hj|j d d' Hj Hp]; cbn; intros Hi Hat;
    inv_lookups; try (by destruct Hat); try (by eauto).
  - destruct (Hpc _ _ _ _ Hi Hat) as (k0 & Hk0 & Hlk & Ho).
    destruct (decide (l = l')) as [->|]; [|by rewrite list_lookup_insert_ne; eauto].
    rewrite list_lookup_insert_eq by eauto. simplify_eq. eauto.
  - destruct Hat as [[= ->]|]; [|done]. rewrite list_lookup_insert_eq by eauto.
    eexists; split; [done|]. split; [done|]. cbn.
    destruct (owner k') as [o|] eqn:Eo; [|done]. destruct (Hown _ _ _ Hl Eo). congruence.
  - destruct (Hpc _ _ _ _ Hi Hat) as (k0 & Hk0 & Hlk & Ho).
    destruct (decide (l = l')) as [->|]; [congruence|]. rewrite list_lookup_insert_ne; eauto.
  - destruct (Hpc _ _ _ _ Hi Hat) as (k0 & Hk0 & Hlk & Ho).
    destruct (decide (l = l')) as [->|]; [|rewrite list_lookup_insert_ne; eauto].
    exfalso. eapply H, (Hex j i); eauto. by left.
  - destruct Hat as [|[= ->]]; [done|]. rewrite list_lookup_insert_eq by eauto.
    apply holding_true in Hh as [Hh _]. eauto.
  - destruct (Hpc _ _ _ _ Hi Hat) as (k0 & Hk0 & Hlk & Ho).
    apply holding_true in Hh as [_ Hh].
    destruct (decide (l = l')) as [->|]; [congruence|]. rewrite list_lookup_insert_ne; eauto.
  - destruct (Hpc _ _ _ _ Hi Hat) as (k0 & Hk0 & Hlk & Ho).
    destruct (decide (l = l')) as [->|]; [|rewrite list_lookup_insert_ne; eauto].
    exfalso. eapply H, (Hex j i); eauto. by right.
Qed.

Lemma step_inv_excl i j c d pc pc' l :
  cpus m' !! i = Some (c, pc) -> pc_at pc l ->
  cpus m' !! j = Some (d, pc') -> pc_at pc' l -> i = j.
Proof.
  destruct Hinv as [Hcpu Hown Hpc Hex].
  destruct Hs as [h l' e k' Hj Hl Hh|h l' e k' Hj Hl Hk|h l' e k' Hj Hl Hk|h l' e k' Hj Hl
    |h l' e k' Hj Hl Hh|h l' e e' k' Hj Hl Hp|h e Hj|h e e' Hj Hp]; cbn; intros Hi Hat Hi' Hat';
    inv_lookups; try done; try (by destruct Hat); try (by destruct Hat'); try (by eauto).
  - destruct Hat' as [[= ->]|]; [|done]. destruct (Hpc _ _ _ _ Hi Hat) as (k0 & Hk0 & Hlk & _).
    congruence.
  - destruct Hat as [[= ->]|]; [|done]. destruct (Hpc _ _ _ _ Hi' Hat') as (k0 & Hk0 & Hlk & _).
    congruence.
  - apply holding_true in Hh as [_ Hh].
    destruct Hat' as [|[= ->]]; [done|]. destruct (Hpc _ _ _ _ Hi Hat) as (k0 & Hk0 & _ & Ho).
    congruence.
  - apply holding_true in Hh as [_ Hh].
    destruct Hat as [|[= ->]]; [done|]. destruct (Hpc _ _ _ _ Hi' Hat') as (k0 & Hk0 & _ & Ho).
    congruence.
Qed.

Lemma step_inv : inv m'.
Proof.
  split; [exact step_inv_cpu|exact step_inv_owner|exact step_inv_pc|exact step_inv_excl].
Qed.

End preservation.

Lemma reachable_inv m0 m : boot m0 -> reachable m0 m -> inv m.
Proof.
  intros Hb Hr. induction Hr as [|m m' _ IH Hs]; [by apply spin_boot_inv|]. by apply (step_inv m m').
Qed.

(** C7. Mutual exclusion: in every state reachable from boot, at most one
    CPU is inside the critical section of a given spin lock. *)
Theorem spinlock_mutual_exclusion m0 m i j l :
  boot m0 -> reachable m0 m -> in_cs m i l -> in_cs m j l -> i = j.
Proof.
  intros Hb Hr. destruct (reachable_inv _ _ Hb Hr) as [Hcpu Hown Hpc Hex].
  intros [(c & pc & Hi & Hat)|(k & Hk & Ho)] [(d & pc' & Hj & Hat')|(k' & Hk' & Ho')].
  - by eapply Hex.
  - destruct (Hpc _ _ _ _ Hi Hat) as (? & ? & ? & ?). congruence.
  - destruct (Hpc _ _ _ _ Hj Hat') as (? & ? & ? & ?). congruence.
  - congruence.
Qed.

(** A CPU inside a critical section has interrupts disabled, so no
    interrupt handler of that CPU can deadlock on the lock; and its
    [ncli] counts exactly the locks it owns plus the acquire, release or
    pushcli it is executing. *)
Theorem spinlock_interrupts_off m0 m i l :
  boot m0 -> reachable m0 m -> in_cs m i l ->
  exists c pc, cpus m !! i = Some (c, pc) /\ iflag c = false /\
    ncli c = zsum (owns i) (locks m) + pc_depth pc.
Proof.
  intros Hb Hr. destruct (reachable_inv _ _ Hb Hr) as [Hcpu Hown Hpc Hex].
  pose proof (fun i => zsum_nonneg (owns i) (locks m) (owns_nonneg i)) as Hnn.
  intros [(c & pc & Hi & Hat)|(k & Hk & Ho)].
  - destruct (Hcpu _ _ _ Hi) as [E Hif]. exists c, pc. split; [done|]. split; [|done].
    apply Hif. specialize (Hnn i). destruct Hat as [-> | ->]; cbn in E; lia.
  - destruct (Hown _ _ _ Hk Ho) as [_ [[c pc] Hi]]. destruct (Hcpu _ _ _ Hi) as [E Hif].
    exists c, pc. split; [done|]. split; [|done]. apply Hif.
    pose proof (zsum_ge _ _ _ _ (owns_nonneg i) Hk) as Hge. rewrite owns_self in Hge by done.
    destruct pc; cbn in E; lia.
Qed.

End Spin.

(** ** Part 2: sleep locks *)

Record sleeplock : Type := mksleeplock {
  slocked : bool;
  spid : Z        (* process holding the lock *)
}.

Section sleeplock.
Context {S : Type}.

(** The lock inside the component's state, the spin lock that guards it
    and the channel its waiters sleep on. *)
Variable sl : lens S sleeplock.
Variable guard : lockid.
Variable slpchan : chan.

Definition initsleeplock : K S unit := modify (lset sl (mksleeplock false 0)).

(** The loop [while(lk->locked) sleep(lk, &lk->lk)] suspends the caller
    when the lock is taken; sleep releases the guard. *)
Definition acquiresleep : K S unit :=
  acquire guard;;
  lk ← gets (lget sl);
  if slocked lk then release guard;; block slpchan
  else
    pid ← getpid;
    modify (lset sl (mksleeplock true pid));;
    release guard.

Definition releasesleep : K S unit :=
  acquire guard;;
  modify (lset sl (mksleeplock false 0));;
  wakeup slpchan;;
  release guard.

Definition holdingsleep : K S bool :=
  acquire guard;;
  r ← gets (fun s => slocked (lget sl s));
  release guard;;
  mret r.

Lemma wp_acquiresleep (Q : unit -> S -> ctx -> Prop) s c :
  guard ∉ held c -> slocked (lget sl s) = false ->
  Q tt (lset sl (mksleeplock true (mypid c)) s) c -> wp acquiresleep Q s c.
Proof.
  intros Hg Hf HQ. destruct c as [h w p]. unfold acquiresleep.
  do 4 kstep. rewrite Hf. ksteps. exact HQ.
Qed.

Lemma wp_releasesleep (Q : unit -> S -> ctx -> Prop) s c :
  guard ∉ held c ->
  Q tt (lset sl (mksleeplock false 0) s) (mkctx (held c) (woken c ++ [slpchan]) (mypid c)) ->
  wp releasesleep Q s c.
Proof. intros Hg HQ. destruct c as [h w p]. unfold releasesleep. ksteps. exact HQ. Qed.

Lemma wp_holdingsleep (Q : bool -> S -> ctx -> Prop) s c :
  guard ∉ held c -> Q (slocked (lget sl s)) s c -> wp holdingsleep Q s c.
Proof. intros Hg HQ. destruct c as [h w p]. unfold holdingsleep. ksteps. exact HQ. Qed.

(** A process that finds the lock taken sleeps on it without the guard. *)
Lemma acquiresleep_blocks s c :
  guard ∉ held c -> slocked (lget sl s) = true -> acquiresleep s c = Sleep slpchan s c.
Proof.
  intros Hg Ht. destruct c as [h w p]; cbn in Hg. unfold acquiresleep, mbind, K_bind, acquire.
  cbn [held]. rewrite decide_False by done. cbn. rewrite Ht. unfold mbind, K_bind, release.
  cbn [held]. rewrite decide_True by set_solver. cbn. by rewrite decide_True.
Qed.

End sleeplock.

(** ** Witnesses *)

Module SpinDemo.
Import Spin.

Definition c_on : cpu := Spin.mkcpu true 0 false.
Definition c_off : cpu := Spin.mkcpu false 1 true.
Definition m0 : machine := mkmachine [(c_on, Out); (c_on, Out)] [initlock].
Definition m1 : machine := mkmachine [(c_off, Spinning 0); (c_on, Out)] [initlock].
Definition m2 : machine := mkmachine [(c_off, Acquired 0); (c_on, Out)] [mklock true None].
Definition m3 : machine := mkmachine [(c_off, Out); (c_on, Out)] [mklock true (Some 0%nat)].

Lemma boot_m0 : boot m0.
Proof.
  split.
  - intros [|[|i]] c pc Hc; cbn in Hc; by simplify_eq.
  - intros [|l] k Hk; cbn in Hk; by simplify_eq.
Qed.

Lemma reach_m3 : reachable m0 m3.
Proof.
  apply (reach_step _ m2); [apply (reach_step _ m1); [apply (reach_step _ m0)|]|].
  - apply reach_refl.
  - by apply (step_acquire m0 0 0 c_on initlock).
  - by apply (step_xchg m1 0 0 c_off initlock).
  - by apply (step_set_owner m2 0 0 c_off (mklock true None)).
Qed.

End SpinDemo.

Lemma spinlock_mutual_exclusion_witness :
  Spin.in_cs SpinDemo.m3 0 0 /\ forall j, Spin.in_cs SpinDemo.m3 j 0 -> j = 0%nat.
Proof.
  assert (H0 : Spin.in_cs SpinDemo.m3 0 0) by (right; by eexists).
  split; [done|]. intros j Hj.
  by apply (Spin.spinlock_mutual_exclusion SpinDemo.m0 SpinDemo.m3 j 0 0 SpinDemo.boot_m0
    SpinDemo.reach_m3).
Defined.

Lemma spinlock_interrupts_off_witness :
  exists c pc, Spin.cpus SpinDemo.m3 !! 0%nat = Some (c, pc) /\ Spin.iflag c = false /\
    Spin.ncli c = zsum (Spin.owns 0) (Spin.locks SpinDemo.m3) + Spin.pc_depth pc.
Proof.
  apply (Spin.spinlock_interrupts_off SpinDemo.m0 SpinDemo.m3 0 0 SpinDemo.boot_m0
    SpinDemo.reach_m3).
  right. by eexists.
Defined.
