(* ===== verification/Proc.v ===== *)
(** * proc.c: processes

    The process table, process creation and termination, sleep and wakeup.
    A [struct proc *] is an index into [ptable.proc]; the null pointer is
    [None].  The parts of the kernel that proc.c calls (page allocator,
    virtual memory, files, inodes, log) are behind the class [ProcEnv]:
    proc.c is modelled for any implementation of it, and an operation of
    the environment cannot touch the process table.

    [swtch] is the boundary between two steps of the system: a function
    that calls [sched()] is modelled up to the switch, and what it does
    when the process runs again is a definition of its own
    ([sleep_resume], [yield_resume], [forkret]). *)

From stdpp Require Import base numbers strings gmap list.
From S2P Require Import Prelude Kmonad Kstring Mmu Locks.

Local Open Scope Z_scope.

Inductive procstate : Type := UNUSED | EMBRYO | SLEEPING | RUNNABLE | RUNNING | ZOMBIE.

#[export] Instance procstate_eq_dec : EqDecision procstate.
Proof. solve_decision. Defined.

(** The numeric value of the C enum. *)
Definition procstate_code (s : procstate) : Z :=
  match s with
  | UNUSED => 0 | EMBRYO => 1 | SLEEPING => 2 | RUNNABLE => 3 | RUNNING => 4 | ZOMBIE => 5
  end.

(** x86.h: struct trapframe, without the padding. *)
Record trapframe : Type := mktf {
  tf_edi : Z;
  tf_esi : Z;
  tf_ebp : Z;
  tf_oesp : Z;
  tf_ebx : Z;
  tf_edx : Z;
  tf_ecx : Z;
  tf_eax : Z;
  tf_gs : Z;
  tf_fs : Z;
  tf_es : Z;
  tf_ds : Z;
  tf_trapno : Z;
  tf_err : Z;
  tf_eip : Z;
  tf_cs : Z;
  tf_eflags : Z;
  tf_esp : Z;
  tf_ss : Z
}.

Definition zero_tf : trapframe := mktf 0 0 0 0 0 0 0 0 0 0 0 0 0 0 0 0 0 0 0.

Definition set_tf_eax (v : Z) (x : trapframe) : trapframe :=
  mktf (tf_edi x) (tf_esi x) (tf_ebp x) (tf_oesp x) (tf_ebx x) (tf_edx x) (tf_ecx x) v (tf_gs x) (tf_fs x) (tf_es x) (tf_ds x) (tf_trapno x) (tf_err x) (tf_eip x) (tf_cs x) (tf_eflags x) (tf_esp x) (tf_ss x).
Definition set_tf_es (v : Z) (x : trapframe) : trapframe :=
  mktf (tf_edi x) (tf_esi x) (tf_ebp x) (tf_oesp x) (tf_ebx x) (tf_edx x) (tf_ecx x) (tf_eax x) (tf_gs x) (tf_fs x) v (tf_ds x) (tf_trapno x) (tf_err x) (tf_eip x) (tf_cs x) (tf_eflags x) (tf_esp x) (tf_ss x).
Definition set_tf_ds (v : Z) (x : trapframe) : trapframe :=
  mktf (tf_edi x) (tf_esi x) (tf_ebp x) (tf_oesp x) (tf_ebx x) (tf_edx x) (tf_ecx x) (tf_eax x) (tf_gs x) (tf_fs x) (tf_es x) v (tf_trapno x) (tf_err x) (tf_eip x) (tf_cs x) (tf_eflags x) (tf_esp x) (tf_ss x).
Definition set_tf_eip (v : Z) (x : trapframe) : trapframe :=
  mktf (tf_edi x) (tf_esi x) (tf_ebp x) (tf_oesp x) (tf_ebx x) (tf_edx x) (tf_ecx x) (tf_eax x) (tf_gs x) (tf_fs x) (tf_es x) (tf_ds x) (tf_trapno x) (tf_err x) v (tf_cs x) (tf_eflags x) (tf_esp x) (tf_ss x).
Definition set_tf_cs (v : Z) (x : trapframe) : trapframe :=
  mktf (tf_edi x) (tf_esi x) (tf_ebp x) (tf_oesp x) (tf_ebx x) (tf_edx x) (tf_ecx x) (tf_eax x) (tf_gs x) (tf_fs x) (tf_es x) (tf_ds x) (tf_trapno x) (tf_err x) (tf_eip x) v (tf_eflags x) (tf_esp x) (tf_ss x).
Definition set_tf_eflags (v : Z) (x : trapframe) : trapframe :=
  mktf (tf_edi x) (tf_esi x) (tf_ebp x) (tf_oesp x) (tf_ebx x) (tf_edx x) (tf_ecx x) (tf_eax x) (tf_gs x) (tf_fs x) (tf_es x) (tf_ds x) (tf_trapno x) (tf_err x) (tf_eip x) (tf_cs x) v (tf_esp x) (tf_ss x).
Definition set_tf_esp (v : Z) (x : trapframe) : trapframe :=
  mktf (tf_edi x) (tf_esi x) (tf_ebp x) (tf_oesp x) (tf_ebx x) (tf_edx x) (tf_ecx x) (tf_eax x) (tf_gs x) (tf_fs x) (tf_es x) (tf_ds x) (tf_trapno x) (tf_err x) (tf_eip x) (tf_cs x) (tf_eflags x) v (tf_ss x).
Definition set_tf_ss (v : Z) (x : trapframe) : trapframe :=
  mktf (tf_edi x) (tf_esi x) (tf_ebp x) (tf_oesp x) (tf_ebx x) (tf_edx x) (tf_ecx x) (tf_eax x) (tf_gs x) (tf_fs x) (tf_es x) (tf_ds x) (tf_trapno x) (tf_err x) (tf_eip x) (tf_cs x) (tf_eflags x) (tf_esp x) v.

Definition sizeof_trapframe : Z := 76.

(** proc.h: saved registers for kernel context switches. *)
Record context : Type := mkcontext {
  ctx_edi : Z;
  ctx_esi : Z;
  ctx_ebx : Z;
  ctx_ebp : Z;
  ctx_eip : Z
}.

Definition sizeof_context : Z := 20.

Record proc : Type := mkproc {
  sz : Z;   (* size of process memory *)
  pgdir : Z;   (* page table *)
  kstack : Z;   (* bottom of the kernel stack *)
  pstate : procstate;
  pid : Z;
  parent : option nat;   (* index in ptable, None = 0 *)
  tfp : Z;   (* address of the trap frame *)
  tf : trapframe;   (* the trap frame itself *)
  contextp : Z;   (* address of the saved context *)
  pcontext : context;   (* the saved context *)
  pchan : option chan;   (* channel slept on, None = 0 *)
  killed : bool;
  ofile : list (option nat);   (* open files, index in ftable *)
  cwd : option nat;   (* inode, index in icache *)
  name : bytes;   (* char name[16] *)
  uscheduler : Z;   (* p->scheduler: user-level scheduler *)
  is_threaded : bool;
  priority : Z;   (* MLFQ level, 0..3 *)
  pticks : list Z;   (* ticks run at each level *)
  wait_ticks : list Z   (* rounds waited at each level *)
}.

Definition set_sz (v : Z) (x : proc) : proc :=
  mkproc v (pgdir x) (kstack x) (pstate x) (pid x) (parent x) (tfp x) (tf x) (contextp x) (pcontext x) (pchan x) (killed x) (ofile x) (cwd x) (name x) (uscheduler x) (is_threaded x) (priority x) (pticks x) (wait_ticks x).
Definition set_pgdir (v : Z) (x : proc) : proc :=
  mkproc (sz x) v (kstack x) (pstate x) (pid x) (parent x) (tfp x) (tf x) (contextp x) (pcontext x) (pchan x) (killed x) (ofile x) (cwd x) (name x) (uscheduler x) (is_threaded x) (priority x) (pticks x) (wait_ticks x).
Definition set_kstack (v : Z) (x : proc) : proc :=
  mkproc (sz x) (pgdir x) v (pstate x) (pid x) (parent x) (tfp x) (tf x) (contextp x) (pcontext x) (pchan x) (killed x) (ofile x) (cwd x) (name x) (uscheduler x) (is_threaded x) (priority x) (pticks x) (wait_ticks x).
Definition set_pstate (v : procstate) (x : proc) : proc :=
  mkproc (sz x) (pgdir x) (kstack x) v (pid x) (parent x) (tfp x) (tf x) (contextp x) (pcontext x) (pchan x) (killed x) (ofile x) (cwd x) (name x) (uscheduler x) (is_threaded x) (priority x) (pticks x) (wait_ticks x).
Definition set_pid (v : Z) (x : proc) : proc :=
  mkproc (sz x) (pgdir x) (kstack x) (pstate x) v (parent x) (tfp x) (tf x) (contextp x) (pcontext x) (pchan x) (killed x) (ofile x) (cwd x) (name x) (uscheduler x) (is_threaded x) (priority x) (pticks x) (wait_ticks x).
Definition set_parent (v : option nat) (x : proc) : proc :=
  mkproc (sz x) (pgdir x) (kstack x) (pstate x) (pid x) v (tfp x) (tf x) (contextp x) (pcontext x) (pchan x) (killed x) (ofile x) (cwd x) (name x) (uscheduler x) (is_threaded x) (priority x) (pticks x) (wait_ticks x).
Definition set_tfp (v : Z) (x : proc) : proc :=
  mkproc (sz x) (pgdir x) (kstack x) (pstate x) (pid x) (parent x) v (tf x) (contextp x) (pcontext x) (pchan x) (killed x) (ofile x) (cwd x) (name x) (uscheduler x) (is_threaded x) (priority x) (pticks x) (wait_ticks x).
Definition set_tf (v : trapframe) (x : proc) : proc :=
  mkproc (sz x) (pgdir x) (kstack x) (pstate x) (pid x) (parent x) (tfp x) v (contextp x) (pcontext x) (pchan x) (killed x) (ofile x) (cwd x) (name x) (uscheduler x) (is_threaded x) (priority x) (pticks x) (wait_ticks x).
Definition set_contextp (v : Z) (x : proc) : proc :=
  mkproc (sz x) (pgdir x) (kstack x) (pstate x) (pid x) (parent x) (tfp x) (tf x) v (pcontext x) (pchan x) (killed x) (ofile x) (cwd x) (name x) (uscheduler x) (is_threaded x) (priority x) (pticks x) (wait_ticks x).
Definition set_pcontext (v : context) (x : proc) : proc :=
  mkproc (sz x) (pgdir x) (kstack x) (pstate x) (pid x) (parent x) (tfp x) (tf x) (contextp x) v (pchan x) (killed x) (ofile x) (cwd x) (name x) (uscheduler x) (is_threaded x) (priority x) (pticks x) (wait_ticks x).
Definition set_pchan (v : option chan) (x : proc) : proc :=
  mkproc (sz x) (pgdir x) (kstack x) (pstate x) (pid x) (parent x) (tfp x) (tf x) (contextp x) (pcontext x) v (killed x) (ofile x) (cwd x) (name x) (uscheduler x) (is_threaded x) (priority x) (pticks x) (wait_ticks x).
Definition set_killed (v : bool) (x : proc) : proc :=
  mkproc (sz x) (pgdir x) (kstack x) (pstate x) (pid x) (parent x) (tfp x) (tf x) (contextp x) (pcontext x) (pchan x) v (ofile x) (cwd x) (name x) (uscheduler x) (is_threaded x) (priority x) (pticks x) (wait_ticks x).
Definition set_ofile (v : list (option nat)) (x : proc) : proc :=
  mkproc (sz x) (pgdir x) (kstack x) (pstate x) (pid x) (parent x) (tfp x) (tf x) (contextp x) (pcontext x) (pchan x) (killed x) v (cwd x) (name x) (uscheduler x) (is_threaded x) (priority x) (pticks x) (wait_ticks x).
Definition set_cwd (v : option nat) (x : proc) : proc :=
  mkproc (sz x) (pgdir x) (kstack x) (pstate x) (pid x) (parent x) (tfp x) (tf x) (contextp x) (pcontext x) (pchan x) (killed x) (ofile x) v (name x) (uscheduler x) (is_threaded x) (priority x) (pticks x) (wait_ticks x).
Definition set_name (v : bytes) (x : proc) : proc :=
  mkproc (sz x) (pgdir x) (kstack x) (pstate x) (pid x) (parent x) (tfp x) (tf x) (contextp x) (pcontext x) (pchan x) (killed x) (ofile x) (cwd x) v (uscheduler x) (is_threaded x) (priority x) (pticks x) (wait_ticks x).
Definition set_uscheduler (v : Z) (x : proc) : proc :=
  mkproc (sz x) (pgdir x) (kstack x) (pstate x) (pid x) (parent x) (tfp x) (tf x) (contextp x) (pcontext x) (pchan x) (killed x) (ofile x) (cwd x) (name x) v (is_threaded x) (priority x) (pticks x) (wait_ticks x).
Definition set_is_threaded (v : bool) (x : proc) : proc :=
  mkproc (sz x) (pgdir x) (kstack x) (pstate x) (pid x) (parent x) (tfp x) (tf x) (contextp x) (pcontext x) (pchan x) (killed x) (ofile x) (cwd x) (name x) (uscheduler x) v (priority x) (pticks x) (wait_ticks x).
Definition set_priority (v : Z) (x : proc) : proc :=
  mkproc (sz x) (pgdir x) (kstack x) (pstate x) (pid x) (parent x) (tfp x) (tf x) (contextp x) (pcontext x) (pchan x) (killed x) (ofile x) (cwd x) (name x) (uscheduler x) (is_threaded x) v (pticks x) (wait_ticks x).
Definition set_pticks (v : list Z) (x : proc) : proc :=
  mkproc (sz x) (pgdir x) (kstack x) (pstate x) (pid x) (parent x) (tfp x) (tf x) (contextp x) (pcontext x) (pchan x) (killed x) (ofile x) (cwd x) (name x) (uscheduler x) (is_threaded x) (priority x) v (wait_ticks x).
Definition set_wait_ticks (v : list Z) (x : proc) : proc :=
  mkproc (sz x) (pgdir x) (kstack x) (pstate x) (pid x) (parent x) (tfp x) (tf x) (contextp x) (pcontext x) (pchan x) (killed x) (ofile x) (cwd x) (name x) (uscheduler x) (is_threaded x) (priority x) (pticks x) v.

(** The scheduler loop of a CPU is at its top, or has switched to a
    process from its MLFQ branch or from its round-robin branch. *)
Inductive schedpc : Type :=
| AtTop
| InMLFQ (selected : nat)
| InRR (p : nat).

(** proc.h: struct cpu (interrupt nesting is in Locks.v). *)
Record cpu : Type := mkcpu {
  cproc : option nat;   (* the process running on this CPU *)
  sched_policy : Z;
  cr3 : Z;   (* page table register *)
  ts_esp0 : Z;   (* kernel stack in the TSS *)
  spc : schedpc   (* where scheduler() is *)
}.

Definition set_cproc (v : option nat) (x : cpu) : cpu :=
  mkcpu v (sched_policy x) (cr3 x) (ts_esp0 x) (spc x).
Definition set_sched_policy (v : Z) (x : cpu) : cpu :=
  mkcpu (cproc x) v (cr3 x) (ts_esp0 x) (spc x).
Definition set_cr3 (v : Z) (x : cpu) : cpu :=
  mkcpu (cproc x) (sched_policy x) v (ts_esp0 x) (spc x).
Definition set_ts_esp0 (v : Z) (x : cpu) : cpu :=
  mkcpu (cproc x) (sched_policy x) (cr3 x) v (spc x).
Definition set_spc (v : schedpc) (x : cpu) : cpu :=
  mkcpu (cproc x) (sched_policy x) (cr3 x) (ts_esp0 x) v.

(** What proc.c uses of the other parts of the kernel. *)
Class ProcEnv (E : Type) : Type := {
  env_kalloc : K E Z;
  env_kfree : Z -> K E unit;
  env_setupkvm : K E Z;
  env_inituvm : Z -> bytes -> K E unit;
  env_allocuvm : Z -> Z -> Z -> K E Z;
  env_deallocuvm : Z -> Z -> Z -> K E Z;
  env_copyuvm : Z -> Z -> K E Z;
  env_freevm : Z -> K E unit;
  env_filedup : nat -> K E nat;
  env_fileclose : nat -> K E unit;
  env_idup : nat -> K E nat;
  env_iput : nat -> K E unit;
  env_namei : bytes -> K E (option nat);
  env_begin_op : K E unit;
  env_end_op : K E unit
}.

Record pst (E : Type) : Type := mkpst {
  ptable : list proc;
  nextpid : Z;
  initproc : option nat;
  cpus : list cpu;
  this : nat;   (* the CPU the code runs on *)
  env : E   (* the rest of the kernel *)
}.
Arguments mkpst {E}.
Arguments ptable {E}.
Arguments nextpid {E}.
Arguments initproc {E}.
Arguments cpus {E}.
Arguments this {E}.
Arguments env {E}.

Definition set_ptable {E} (v : list proc) (s : pst E) : pst E :=
  mkpst v (nextpid s) (initproc s) (cpus s) (this s) (env s).
Definition set_nextpid {E} (v : Z) (s : pst E) : pst E :=
  mkpst (ptable s) v (initproc s) (cpus s) (this s) (env s).
Definition set_initproc {E} (v : option nat) (s : pst E) : pst E :=
  mkpst (ptable s) (nextpid s) v (cpus s) (this s) (env s).
Definition set_cpus {E} (v : list cpu) (s : pst E) : pst E :=
  mkpst (ptable s) (nextpid s) (initproc s) v (this s) (env s).
Definition set_this {E} (v : nat) (s : pst E) : pst E :=
  mkpst (ptable s) (nextpid s) (initproc s) (cpus s) v (env s).
Definition set_env {E} (v : E) (s : pst E) : pst E :=
  mkpst (ptable s) (nextpid s) (initproc s) (cpus s) (this s) v.

Definition env_lens {E} : lens (pst E) E := Lens env set_env.

#[export] Instance env_lens_ok {E} : LensOk (@env_lens E).
Proof. split; intros; by destruct s. Qed.

(** An operation of the environment, from proc.c. *)
Abbreviation on_env m := (zoom env_lens m).

(** The [n] bytes of a buffer after safestrcpy(dst, src, n), the two
    strings placed at different addresses. *)
Definition safestrcpy_buf (dst src : bytes) : bytes :=
  let m a := if a <? 1000 then nth_byte dst (Z.to_nat a) else nth_byte src (Z.to_nat (a - 1000)) in
  (fun i => safestrcpy 0 1000 (Z.of_nat (length dst)) m (Z.of_nat i)) <$> seq 0 (length dst).

Section proc.
Context {E : Type} `{ProcEnv E}.

(** Link-time addresses of trapasm.S and proc.c, and the contents of a
    freshly allocated kernel stack. *)
Variables (trapret_addr forkret_addr : Z) (fresh_tf : trapframe) (kpgdir : Z).

Implicit Types (s : pst E).

(** *** Access to the table *)
Definition getp (i : nat) : K (pst E) (option proc) := gets (fun s => ptable s !! i).
Definition updp (i : nat) (f : proc -> proc) : K (pst E) unit :=
  modify (fun s => set_ptable (alter f i (ptable s)) s).
Definition updcpu (f : cpu -> cpu) : K (pst E) unit :=
  modify (fun s => set_cpus (alter f (this s) (cpus s)) s).

(** Dereferencing a null or wild [struct proc *] is a fault. *)
Definition deref {A} (o : option A) : K (pst E) A :=
  match o with Some a => mret a | None => panic "trap" end.

(** The CPU whose APIC id is [apicid]: [mycpu] searches cpus[0..ncpu). *)
Definition mycpu (apicids : list Z) (apicid : Z) : string + nat :=
  match find_idx (fun a => a =? apicid) apicids with
  | Some i => inr i
  | None => inl "unknown apicid"
  end.

Definition myproc : K (pst E) (option nat) :=
  gets (fun s => c ← cpus s !! this s; cproc c).

Definition is_state (st : procstate) (p : proc) : bool := bool_decide (pstate p = st).

Definition allocproc : K (pst E) (option nat) :=
  acquire L_ptable;;
  s ← get;
  match find_idx (is_state UNUSED) (ptable s) with
  | None => release L_ptable;; mret None
  | Some i =>
      updp i (set_pstate EMBRYO);;
      updp i (set_pid (nextpid s));;
      modify (set_nextpid (i32 (nextpid s + 1)));;
      updp i (set_priority 3);;
      updp i (set_pticks (replicate 4 0));;
      updp i (set_wait_ticks (replicate 4 0));;
      release L_ptable;;
      k ← on_env env_kalloc;
      updp i (set_kstack k);;
      if k =? 0 then updp i (set_pstate UNUSED);; mret None
      else
        let sp := u32 (k + KSTACKSIZE - sizeof_trapframe) in
        updp i (set_tfp sp);;
        updp i (set_tf fresh_tf);;
        (* *(uint* )(sp - 4) = trapret is the return address of forkret *)
        let sp := u32 (sp - 4 - sizeof_context) in
        updp i (set_contextp sp);;
        updp i (set_pcontext (mkcontext 0 0 0 0 forkret_addr));;
        mret (Some i)
  end.

(** switchuvm (vm.c): point the CPU at the process's page table and
    kernel stack. *)
Definition switchuvm (i : nat) : K (pst E) unit :=
  o ← getp i;
  p ← deref o;
  if kstack p =? 0 then panic "switchuvm: no kstack"
  else if pgdir p =? 0 then panic "switchuvm: no pgdir"
  else
    updcpu (set_ts_esp0 (u32 (kstack p + KSTACKSIZE)));;
    updcpu (set_cr3 (V2P (pgdir p))).

Definition switchkvm : K (pst E) unit := updcpu (set_cr3 (V2P kpgdir)).

Definition initcode_name : bytes := [105; 110; 105; 116; 99; 111; 100; 101; 0].   (* "initcode" *)
Definition slash : bytes := [47; 0].                                             (* "/" *)

(** The trap frame userinit builds for the first process. *)
Definition userinit_tf : trapframe :=
  let udata := Z.lor (Z.shiftl SEG_UDATA 3) DPL_USER in
  set_tf_eip 0 (set_tf_esp PGSIZE (set_tf_eflags FL_IF (set_tf_ss udata (set_tf_es udata
    (set_tf_ds udata (set_tf_cs (Z.lor (Z.shiftl SEG_UCODE 3) DPL_USER) zero_tf)))))).

Definition userinit (initcode : bytes) : K (pst E) unit :=
  p ← allocproc;
  modify (set_initproc p);;
  i ← deref p;
  pd ← on_env env_setupkvm;
  updp i (set_pgdir pd);;
  if pd =? 0 then panic "userinit: out of memory?"
  else
    on_env (env_inituvm pd initcode);;
    updp i (set_sz PGSIZE);;
    updp i (set_tf userinit_tf);;
    updp i (fun p => set_name (safestrcpy_buf (name p) initcode_name) p);;
    d ← on_env (env_namei slash);
    updp i (set_cwd d);;
    acquire L_ptable;;
    updp i (set_pstate RUNNABLE);;
    release L_ptable.

Definition growproc (n : Z) : K (pst E) Z :=
  me ← myproc;
  i ← deref me;
  o ← getp i;
  p ← deref o;
  let finish sz' := updp i (set_sz sz');; switchuvm i;; mret 0 in
  if 0 <? n then
    sz' ← on_env (env_allocuvm (pgdir p) (sz p) (u32 (sz p + n)));
    if sz' =? 0 then mret (-1) else finish sz'
  else if n <? 0 then
    sz' ← on_env (env_deallocuvm (pgdir p) (sz p) (u32 (sz p + n)));
    if sz' =? 0 then mret (-1) else finish sz'
  else finish (sz p).

(** [for(i = 0; i < NOFILE; i++) if(curproc->ofile[i])
     np->ofile[i] = filedup(curproc->ofile[i]);] *)
Fixpoint fork_files (np : nat) (fd : nat) (files : list (option nat)) : K (pst E) unit :=
  match files with
  | [] => mret tt
  | None :: rest => fork_files np (S fd) rest
  | Some f :: rest =>
      f' ← on_env (env_filedup f);
      updp np (fun q => set_ofile (<[fd := Some f']> (ofile q)) q);;
      fork_files np (S fd) rest
  end.

Definition fork : K (pst E) Z :=
  me ← myproc;
  n ← allocproc;
  match n with
  | None => mret (-1)
  | Some np =>
      cur ← deref me;
      o ← getp cur;
      p ← deref o;
      pd ← on_env (env_copyuvm (pgdir p) (sz p));
      updp np (set_pgdir pd);;
      if pd =? 0 then
        o' ← getp np;
        q ← deref o';
        on_env (env_kfree (kstack q));;
        updp np (set_kstack 0);;
        updp np (set_pstate UNUSED);;
        mret (-1)
      else
        updp np (set_sz (sz p));;
        updp np (set_parent (Some cur));;
        updp np (set_tf (tf p));;
        updp np (fun q => set_tf (set_tf_eax 0 (tf q)) q);;
        fork_files np 0 (ofile p);;
        d ← deref (cwd p);
        d' ← on_env (env_idup d);
        updp np (set_cwd (Some d'));;
        updp np (fun q => set_name (safestrcpy_buf (name q) (name p)) q);;
        o'' ← getp np;
        q ← deref o'';
        acquire L_ptable;;
        updp np (set_pstate RUNNABLE);;
        release L_ptable;;
        mret (pid q)
  end.

(** wakeup1: every process sleeping on [ch] becomes runnable ([None] is
    the null channel). *)
Definition wake (ch : option chan) (p : proc) : proc :=
  if is_state SLEEPING p && bool_decide (pchan p = ch) then set_pstate RUNNABLE p else p.

Definition wakeup1 (ch : option chan) : K (pst E) unit :=
  modify (fun s => set_ptable (wake ch <$> ptable s) s).

Definition wakeup (ch : chan) : K (pst E) unit :=
  acquire L_ptable;; wakeup1 (Some ch);; release L_ptable.

(** sched: the checks it makes before [swtch].  A CPU's [ncli] is the
    number of spin locks it holds (Locks.v), and interrupts are off while
    it holds one. *)
Definition sched : K (pst E) unit := fun s c =>
  if negb (bool_decide (L_ptable ∈ held c)) then Panic "sched ptable.lock"
  else if negb (Nat.eqb (length (held c)) 1) then Panic "sched locks"
  else
    match cp ← cpus s !! this s; i ← cproc cp; ptable s !! i with
    | None => Panic "trap"
    | Some p => if is_state RUNNING p then Panic "sched running" else Ret tt s c
    end.

(** yield, up to the switch and after it. *)
Definition yield : K (pst E) unit :=
  acquire L_ptable;;
  me ← myproc;
  i ← deref me;
  updp i (set_pstate RUNNABLE);;
  sched.

Definition yield_resume : K (pst E) unit := release L_ptable.

(** A child's first switch: it still holds ptable.lock. *)
Definition forkret (first_init : K (pst E) unit) (first : bool) : K (pst E) bool :=
  release L_ptable;;
  if first then first_init;; mret false else mret false.

(** sleep, up to the switch: the process is then off the CPU. *)
Definition sleep (ch : chan) (lk : lockid) : K (pst E) unit :=
  me ← myproc;
  match me with
  | None => panic "sleep"
  | Some i =>
      (if decide (lk = L_ptable) then mret tt else acquire L_ptable;; release lk);;
      updp i (set_pchan (Some ch));;
      updp i (set_pstate SLEEPING);;
      sched;;
      block ch
  end.

(** What sleep does when the process runs again. *)
Definition sleep_resume (i : nat) (lk : lockid) : K (pst E) unit :=
  updp i (set_pchan None);;
  if decide (lk = L_ptable) then mret tt else release L_ptable;; acquire lk.

(** kill: the first slot with that pid, whatever its state. *)
Definition kill (target : Z) : K (pst E) Z :=
  acquire L_ptable;;
  s ← get;
  match find_idx (fun p => pid p =? target) (ptable s) with
  | Some i =>
      updp i (set_killed true);;
      updp i (fun p => if is_state SLEEPING p then set_pstate RUNNABLE p else p);;
      release L_ptable;;
      mret 0
  | None => release L_ptable;; mret (-1)
  end.

(** exit closes every open file ... *)
Fixpoint exit_files (cur : nat) (fd : nat) (files : list (option nat)) : K (pst E) unit :=
  match files with
  | [] => mret tt
  | None :: rest => exit_files cur (S fd) rest
  | Some f :: rest =>
      on_env (env_fileclose f);;
      updp cur (fun q => set_ofile (<[fd := None]> (ofile q)) q);;
      exit_files cur (S fd) rest
  end.

(** ... and passes its children to init, waking init for each zombie.
    The scan works on the table it updates. *)
Fixpoint reparent (cur : nat) (ip : option nat) (n : nat) (i : nat) : K (pst E) unit :=
  match n with
  | O => mret tt
  | S n =>
      o ← getp i;
      p ← deref o;
      (if bool_decide (parent p = Some cur) then
         updp i (set_parent ip);;
         when (is_state ZOMBIE p) (wakeup1 (C_proc <$> ip))
       else mret tt);;
      reparent cur ip n (S i)
  end.

(** The part of exit under ptable.lock, up to the switch. *)
Definition exit_zombie (cur : nat) : K (pst E) unit :=
  acquire L_ptable;;
  o2 ← getp cur;
  p2 ← deref o2;
  wakeup1 (C_proc <$> parent p2);;
  n ← gets (fun s => length (ptable s));
  ip ← gets initproc;
  reparent cur ip n 0;;
  updp cur (set_pstate ZOMBIE);;
  sched.

Definition exit : K (pst E) unit :=
  me ← myproc;
  cur ← deref me;
  ip ← gets initproc;
  if bool_decide (ip = Some cur) then panic "init exiting"
  else
    o ← getp cur;
    p ← deref o;
    exit_files cur 0 (ofile p);;
    on_env env_begin_op;;
    o1 ← getp cur;
    p1 ← deref o1;
    d ← deref (cwd p1);
    on_env (env_iput d);;
    on_env env_end_op;;
    updp cur (set_cwd None);;
    exit_zombie cur.

(** wait: one scan of the table for an exited child.  [inl i] is the slot
    of a zombie child, [inr havekids] the outcome of a scan without one. *)
Fixpoint wait_scan (cur : nat) (i : nat) (havekids : bool) (l : list proc) : nat + bool :=
  match l with
  | [] => inr havekids
  | p :: rest =>
      if negb (bool_decide (parent p = Some cur)) then wait_scan cur (S i) havekids rest
      else if is_state ZOMBIE p then inl i
      else wait_scan cur (S i) true rest
  end.

(** One turn of wait's loop, ptable.lock held; it ends by returning a
    value or by sleeping on the process itself. *)
Definition wait_turn : K (pst E) Z :=
  me ← myproc;
  cur ← deref me;
  s ← get;
  match wait_scan cur 0 false (ptable s) with
  | inl i =>
      o ← getp i;
      p ← deref o;
      on_env (env_kfree (kstack p));;
      updp i (set_kstack 0);;
      on_env (env_freevm (pgdir p));;
      updp i (set_pid 0);;
      updp i (set_parent None);;
      updp i (fun q => set_name (<[0%nat := 0]> (name q)) q);;
      updp i (set_killed false);;
      updp i (set_pstate UNUSED);;
      release L_ptable;;
      mret (pid p)
  | inr havekids =>
      o ← getp cur;
      p ← deref o;
      if negb havekids || killed p then release L_ptable;; mret (-1)
      else sleep (C_proc cur) L_ptable;; mret 0 (* not reached: sleep suspends *)
  end.

Definition wait : K (pst E) Z := acquire L_ptable;; wait_turn.

End proc.
