(* ===== verification/Sched.v ===== *)
(** * proc.c: the scheduler

    The per-CPU scheduler with its multi-level feedback queue, and the
    theorems about it: what the MLFQ branch selects, demotion, the
    waiting-time boost and its bound. *)

From stdpp Require Import base numbers strings gmap list.
From S2P Require Import Prelude Kmonad Kstring Mmu Locks Proc.

Local Open Scope Z_scope.

(** Reading entry [i] of an int[4]. *)
Definition at4 (l : list Z) (i : Z) : Z := default 0 (l !! Z.to_nat i).

(** [int slice[4]] of scheduler() and of priority_boost(). *)
Definition slice : list Z := [1000000; 32; 16; 8].
Definition boost_slice : list Z := [0; 32; 16; 8].

(** The nested search loops: level 3 first, then slot order. *)
Fixpoint mlfq_search (levels : nat) (l : list proc) : option nat :=
  match levels with
  | O => None
  | S n =>
      match find_idx (fun p => is_state RUNNABLE p && (priority p =? Z.of_nat n)) l with
      | Some i => Some i
      | None => mlfq_search n l
      end
  end.

Definition mlfq_select (l : list proc) : option nat := mlfq_search 4 l.

(** [if (prio > 0 && selected->ticks[prio] >= slice[prio])] *)
Definition demote (p : proc) : proc :=
  let prio := priority p in
  if (0 <? prio) && (at4 slice prio <=? at4 (pticks p) prio)
  then set_pticks (<[Z.to_nat prio := 0]> (pticks p)) (set_priority (prio - 1) p)
  else p.

(** update_wait_ticks, for one process other than the one that ran. *)
Definition wait_tick (p : proc) : proc :=
  if is_state RUNNABLE p then
    if (priority p <? 0) || (3 <? priority p) then p
    else set_wait_ticks (alter (fun w => i32 (w + 1)) (Z.to_nat (priority p)) (wait_ticks p)) p
  else p.

Definition update_wait_ticks (running : nat) (l : list proc) : list proc :=
  imap (fun i p => if Nat.eqb i running then p else wait_tick p) l.

(** priority_boost, for one process. *)
Definition boost (p : proc) : proc :=
  if is_state UNUSED p then p
  else
    let prio := priority p in
    let p1 :=
      if (prio =? 2) || (prio =? 1) then
        let limit := 10 * at4 boost_slice prio in
        if limit <=? at4 (wait_ticks p) prio
        then set_wait_ticks (<[Z.to_nat prio := 0]> (wait_ticks p)) (set_priority (priority p + 1) p)
        else p
      else p in
    if prio =? 0 then
      if 500 <=? at4 (wait_ticks p1) 0
      then set_wait_ticks (<[0%nat := 0]> (wait_ticks p1)) (set_priority 1 p1)
      else p1
    else p1.

Definition priority_boost (l : list proc) : list proc := boost <$> l.

Section sched.
Context {E : Type} `{ProcEnv E}.
Variables (kpgdir : Z).

Definition upd_table (f : list proc -> list proc) : K (pst E) unit :=
  modify (fun s => set_ptable (f (ptable s)) s).

(** c->proc = p; switchuvm(p); p->state = RUNNING; swtch(...).  The
    switch leaves ptable.lock held; [pc] is where scheduler() resumes. *)
Definition dispatch (i : nat) (pc : schedpc) : K (pst E) unit :=
  updcpu (set_cproc (Some i));;
  switchuvm i;;
  updp i (set_pstate RUNNING);;
  updcpu (set_spc pc).

(** The round-robin loop from slot [start]. *)
Definition rr_from (start : nat) : K (pst E) unit :=
  s ← get;
  match find_idx (is_state RUNNABLE) (drop start (ptable s)) with
  | Some k => dispatch (start + k) (InRR (start + k))
  | None => updcpu (set_spc AtTop);; release L_ptable
  end.

(** One turn of [for(;;)], up to the first switch. *)
Definition scheduler_top : K (pst E) unit :=
  acquire L_ptable;;
  s ← get;
  c ← deref (cpus s !! this s);
  if (sched_policy c =? 1) || (sched_policy c =? 2) then
    match mlfq_select (ptable s) with
    | Some i => dispatch i (InMLFQ i)
    | None => release L_ptable
    end
  else rr_from 0.

(** What scheduler() does when a process switches back to it. *)
Definition scheduler_return : K (pst E) unit :=
  s ← get;
  c ← deref (cpus s !! this s);
  match spc c with
  | AtTop => panic "trap"
  | InMLFQ i =>
      switchkvm kpgdir;;
      updp i demote;;
      upd_table (update_wait_ticks i);;
      upd_table priority_boost;;
      updcpu (set_cproc None);;
      updcpu (set_spc AtTop);;
      release L_ptable
  | InRR i =>
      switchkvm kpgdir;;
      updcpu (set_cproc None);;
      rr_from (S i)
  end.

(** The process part of a timer interrupt (trap.c), before its yield:
    [myproc()->ticks[myproc()->priority]++] for a RUNNING process. *)
Definition tick (p : proc) : proc :=
  set_pticks (alter (fun t => i32 (t + 1)) (Z.to_nat (priority p)) (pticks p)) p.

Definition timer_yield : K (pst E) unit :=
  me ← myproc;
  match me with
  | None => mret tt
  | Some i =>
      o ← getp i;
      p ← deref o;
      if is_state RUNNING p then updp i tick;; yield else mret tt
  end.

(** After a switch the process on this CPU, if any, goes on: in sleep()
    when it has a channel, else in yield() or forkret(). *)
Definition resume : K (pst E) unit :=
  me ← myproc;
  match me with
  | None => mret tt
  | Some i =>
      o ← getp i;
      p ← deref o;
      if decide (is_Some (pchan p)) then updp i (set_pchan None);; release L_ptable
      else yield_resume
  end.

(** sys_setSchedPolicy, after its argument check. *)
Definition setSchedPolicy (policy : Z) : K (pst E) Z :=
  if (policy <? 0) || (3 <? policy) then mret (-1)
  else updcpu (set_sched_policy policy);; mret 0.

End sched.

(** ** What the MLFQ branch selects *)

Lemma is_state_true st p : is_state st p = true <-> pstate p = st.
Proof. unfold is_state. apply bool_decide_eq_true. Qed.

Lemma is_state_false st p : is_state st p = false <-> pstate p <> st.
Proof. unfold is_state. apply bool_decide_eq_false. Qed.

(** [p] is a candidate of the search through levels [0..n). *)
Definition candidate (n : nat) (p : proc) : Prop :=
  pstate p = RUNNABLE /\ 0 <= priority p < Z.of_nat n.

Lemma search_level n p :
  is_state RUNNABLE p && (priority p =? Z.of_nat n) = true <->
  pstate p = RUNNABLE /\ priority p = Z.of_nat n.
Proof. by rewrite andb_true_iff, is_state_true, Z.eqb_eq. Qed.

Lemma mlfq_search_Some n l i :
  mlfq_search n l = Some i ->
  exists p, l !! i = Some p /\ candidate n p /\
    forall j q, l !! j = Some q -> candidate n q ->
      priority q < priority p \/ (priority q = priority p /\ (i <= j)%nat).
Proof.
  induction n as [|n IH]; cbn [mlfq_search]; [done|].
  destruct (find_idx _ l) as [k|] eqn:Ef.
  - intros [= <-]. apply find_idx_Some in Ef as [(p & Hp & Hf) Hfirst].
    apply search_level in Hf as [Hr Hq]. exists p. split; [done|]. split; [split; [done|lia]|].
    intros j q Hj [Hjr Hjq]. destruct (decide (priority q = Z.of_nat n)) as [E|E]; [|left; lia].
    right. split; [lia|]. destruct (decide (k <= j)%nat); [done|].
    specialize (Hfirst j q ltac:(lia) Hj).
    rewrite (proj2 (search_level n q)) in Hfirst by done. done.
  - intros Hs. destruct (IH Hs) as (p & Hp & [Hr Hq] & Hmax).
    exists p. split; [done|]. split; [split; [done|lia]|].
    intros j q Hj [Hjr Hjq]. apply Hmax; [done|]. split; [done|].
    rewrite find_idx_None in Ef. specialize (Ef j q Hj).
    destruct (decide (priority q = Z.of_nat n)) as [E'|E']; [|lia].
    rewrite (proj2 (search_level n q)) in Ef by done. done.
Qed.

Lemma mlfq_search_None n l :
  mlfq_search n l = None <-> (forall j q, l !! j = Some q -> ~ candidate n q).
Proof.
  induction n as [|n IH]; cbn [mlfq_search].
  { split; [|done]. intros _ j q _ [_ ?]. lia. }
  destruct (find_idx _ l) as [k|] eqn:Ef.
  - split; [done|]. intros Hno. apply find_idx_Some in Ef as [(p & Hp & Hf) _].
    apply search_level in Hf as [Hr Hq]. exfalso. apply (Hno k p Hp). split; [done|lia].
  - rewrite IH. rewrite find_idx_None in Ef. split; intros Hno j q Hj [Hr Hq].
    + destruct (decide (priority q = Z.of_nat n)) as [E'|E'].
      * specialize (Ef j q Hj). rewrite (proj2 (search_level n q)) in Ef by done. done.
      * apply (Hno j q Hj). split; [done|lia].
    + apply (Hno j q Hj). split; [done|lia].
Qed.

(** C24. The MLFQ branch picks a runnable process of the highest occupied
    level and, in that level, the one with the lowest slot; it picks none
    exactly when no process is runnable at a level 0..3. *)
Theorem mlfq_select_correct (l : list proc) :
  match mlfq_select l with
  | Some i =>
      exists p, l !! i = Some p /\ pstate p = RUNNABLE /\ 0 <= priority p <= 3 /\
        forall j q, l !! j = Some q -> pstate q = RUNNABLE -> 0 <= priority q <= 3 ->
          priority q < priority p \/ (priority q = priority p /\ (i <= j)%nat)
  | None => forall j q, l !! j = Some q -> pstate q = RUNNABLE -> ~ (0 <= priority q <= 3)
  end.
Proof.
  destruct (mlfq_select l) as [i|] eqn:Es.
  - destruct (mlfq_search_Some _ _ _ Es) as (p & Hp & [Hr Hq] & Hmax).
    exists p. split; [done|]. split; [done|]. split; [lia|].
    intros j q Hj Hjr Hjq. apply (Hmax j q Hj). split; [done|lia].
  - intros j q Hj Hr Hq. apply (proj1 (mlfq_search_None 4 l) Es j q Hj). split; [done|lia].
Qed.

(** ** Well-formed scheduling fields *)

Record proc_ok (p : proc) : Prop := {
  ok_priority : 0 <= priority p <= 3;
  ok_ticks : length (pticks p) = 4%nat;
  ok_waits : length (wait_ticks p) = 4%nat;
  ok_ofile : length (ofile p) = NOFILE
}.

Lemma at4_insert l i v : (Z.to_nat i < length l)%nat -> at4 (<[Z.to_nat i := v]> l) i = v.
Proof. intros Hl. unfold at4. by rewrite list_lookup_insert_eq. Qed.

Lemma at4_insert_ne l i j v :
  Z.to_nat i <> Z.to_nat j -> at4 (<[Z.to_nat j := v]> l) i = at4 l i.
Proof. intros Hl. unfold at4. by rewrite list_lookup_insert_ne. Qed.

Lemma demote_ok p : proc_ok p -> proc_ok (demote p).
Proof.
  intros [Hp Ht Hw Ho]. unfold demote. destruct (Z.ltb_spec 0 (priority p)); cbn [andb]; [|done].
  case_match; [|done]. split; cbn; rewrite ?length_insert; [lia|done..].
Qed.

Lemma wait_tick_ok p : proc_ok p -> proc_ok (wait_tick p).
Proof.
  intros [Hp Ht Hw Ho]. unfold wait_tick. repeat case_match; try done.
  split; cbn; rewrite ?length_alter; done.
Qed.

Lemma boost_ok p : proc_ok p -> proc_ok (boost p).
Proof.
  intros [Hp Ht Hw Ho]. unfold boost. destruct (is_state UNUSED p); [done|].
  cbv zeta. destruct (Z.eqb_spec (priority p) 2), (Z.eqb_spec (priority p) 1),
    (Z.eqb_spec (priority p) 0); cbn [orb]; try lia; repeat case_match; try done;
    split; cbn; rewrite ?length_insert; (done || lia).
Qed.

Lemma tick_ok p : proc_ok p -> proc_ok (tick p).
Proof. intros [Hp Ht Hw Ho]. unfold tick. split; cbn; rewrite ?length_alter; done. Qed.

(** Demotion: after its turn the process that ran drops exactly one
    level, with its tick count at the old level reset, when it has used up
    the time slice of a level above 0; otherwise nothing changes. *)
Theorem demote_correct p :
  proc_ok p ->
  let q := priority p in
  if decide (0 < q /\ at4 slice q <= at4 (pticks p) q)
  then priority (demote p) = q - 1 /\ at4 (pticks (demote p)) q = 0 /\
       (forall r, 0 <= r <= 3 -> r <> q -> at4 (pticks (demote p)) r = at4 (pticks p) r) /\
       wait_ticks (demote p) = wait_ticks p
  else demote p = p.
Proof.
  intros [Hp Ht Hw Ho] q. unfold demote. fold q.
  destruct (Z.ltb_spec 0 q), (Z.leb_spec (at4 slice q) (at4 (pticks p) q)); cbn [andb];
    case_decide; try lia; try done.
  cbn. split; [done|]. split; [apply at4_insert; rewrite Ht; unfold q in *; lia|].
  split; [|done]. intros r Hr Hne. apply at4_insert_ne. unfold q in *. lia.
Qed.

(** ** The boost bounds the wait below the top level *)

(** A scheduling round seen by a runnable process that was not selected. *)
Definition wait_round (p : proc) : proc := boost (wait_tick p).

Definition wait_limit (q : Z) : Z := if q =? 0 then 500 else 10 * at4 boost_slice q.

(** Rounds until level 3, at most. *)
Definition rounds_left (p : proc) : Z :=
  let left q := Z.max 1 (wait_limit q - at4 (wait_ticks p) q) in
  if priority p =? 0 then left 0 + 320 + 160
  else if priority p =? 1 then left 1 + 160
  else if priority p =? 2 then left 2
  else 0.

Definition waiting (p : proc) : Prop :=
  proc_ok p /\ pstate p = RUNNABLE /\
  (forall q, 0 <= q <= 2 -> 0 <= at4 (wait_ticks p) q < 2147483647).

Lemma at4_alter l i f :
  (Z.to_nat i < length l)%nat -> at4 (alter f (Z.to_nat i) l) i = f (at4 l i).
Proof.
  intros Hl. unfold at4. rewrite list_lookup_alter_eq.
  destruct (lookup_lt_is_Some_2 l (Z.to_nat i) Hl) as [x ->]. done.
Qed.

Lemma at4_alter_ne l i j f :
  Z.to_nat i <> Z.to_nat j -> at4 (alter f (Z.to_nat j) l) i = at4 l i.
Proof. intros Hl. unfold at4. by rewrite list_lookup_alter_ne. Qed.

(** The waiting counter of the process's level goes up by one; when it
    reaches the limit the process moves up a level and the counter is
    cleared. *)
Lemma wait_round_below p :
  waiting p -> priority p < 3 ->
  let q := priority p in
  let w := at4 (wait_ticks p) q + 1 in
  pstate (wait_round p) = RUNNABLE /\
  (if wait_limit q <=? w
   then priority (wait_round p) = q + 1 /\ at4 (wait_ticks (wait_round p)) q = 0
   else priority (wait_round p) = q /\ at4 (wait_ticks (wait_round p)) q = w) /\
  (forall r, 0 <= r <= 3 -> r <> q -> at4 (wait_ticks (wait_round p)) r = at4 (wait_ticks p) r).
Proof.
  intros ([Hp Ht Hw Ho] & Hr & Hb) Hlt q w.
  assert (Ew : wait_tick p = set_wait_ticks
    (alter (fun x => i32 (x + 1)) (Z.to_nat q) (wait_ticks p)) p).
  { unfold wait_tick. rewrite (proj2 (is_state_true _ _) Hr). fold q.
    destruct (Z.ltb_spec q 0), (Z.ltb_spec 3 q); unfold q in *; try lia. done. }
  unfold wait_round. rewrite Ew.
  set (ws := alter _ _ _). assert (Hws : at4 ws q = w).
  { unfold ws. rewrite at4_alter by (rewrite Hw; unfold q in *; lia).
    unfold w. apply i32_id. specialize (Hb q). unfold q in *. lia. }
  assert (Hwr : forall r, 0 <= r <= 3 -> r <> q -> at4 ws r = at4 (wait_ticks p) r).
  { intros r Hrr Hne. unfold ws. apply at4_alter_ne. unfold q in *. lia. }
  assert (Hlen : length ws = 4%nat) by (unfold ws; by rewrite length_alter).
  unfold boost. replace (is_state UNUSED _) with false by (symmetry; apply is_state_false; cbn; congruence).
  cbn [priority set_wait_ticks wait_ticks]. fold q. unfold wait_limit.
  assert (Hq : q = 0 \/ q = 1 \/ q = 2) by (unfold q in *; lia).
  assert (Hins : at4 (<[Z.to_nat q := 0]> ws) q = 0 /\
    forall r, 0 <= r <= 3 -> r <> q -> at4 (<[Z.to_nat q := 0]> ws) r = at4 (wait_ticks p) r).
  { split; [apply at4_insert; rewrite Hlen; unfold q in *; lia|].
    intros r Hrr Hne. rewrite at4_insert_ne by (unfold q in *; lia). by apply Hwr. }
  clearbody ws w. destruct Hins as [Hi1 Hi2].
  destruct Hq as [E0|[E0|E0]]; rewrite E0 in *; cbn; rewrite Hws; case_match; cbn; auto.
Qed.

Lemma wait_round_top p : waiting p -> priority p = 3 -> priority (wait_round p) = 3.
Proof.
  intros (_ & Hr & _) H3. unfold wait_round, boost.
  assert (Hp : priority (wait_tick p) = 3).
  { unfold wait_tick. repeat case_match; done. }
  case_match; [done|]. rewrite Hp. done.
Qed.

Lemma wait_round_state p : pstate p = RUNNABLE -> pstate (wait_round p) = RUNNABLE.
Proof.
  intros Hr. unfold wait_round, boost, wait_tick. repeat case_match; done.
Qed.

Lemma wait_round_waiting p : waiting p -> waiting (wait_round p).
Proof.
  intros Hw. pose proof Hw as (Hok & Hr & Hb).
  split; [apply boost_ok, wait_tick_ok, Hok|]. split; [by apply wait_round_state|].
  intros q Hq. destruct (decide (priority p < 3)) as [Hlt|Hge].
  - destruct (wait_round_below p Hw Hlt) as (_ & Hmain & Hoth).
    destruct (decide (q = priority p)) as [->|Hne].
    + assert (Hl : wait_limit (priority p) <= 500).
      { destruct Hok as [? _ _ _].
        assert (priority p = 0 \/ priority p = 1 \/ priority p = 2) as [->|[->| ->]] by lia; done. }
      destruct (Z.leb_spec (wait_limit (priority p)) (at4 (wait_ticks p) (priority p) + 1));
        destruct Hmain as [_ ->]; specialize (Hb (priority p)); lia.
    + rewrite Hoth by lia. by apply Hb.
  - assert (H3 : priority p = 3) by (destruct Hok; lia).
    assert (Hsame : at4 (wait_ticks (wait_round p)) q = at4 (wait_ticks p) q); [|by rewrite Hsame; apply Hb].
    unfold wait_round, boost, wait_tick. rewrite (proj2 (is_state_true _ _) Hr), H3. cbn.
    replace (is_state UNUSED _) with false by (symmetry; apply is_state_false; cbn; congruence).
    cbn. rewrite H3. cbn. change 3%nat with (Z.to_nat 3). apply at4_alter_ne. lia.
Qed.

Lemma rounds_left_bound p : waiting p -> 0 <= rounds_left p <= 980.
Proof.
  intros (Hok & _ & Hb). unfold rounds_left. cbv zeta.
  change (wait_limit 0) with 500. change (wait_limit 1) with 320. change (wait_limit 2) with 160.
  pose proof (Hb 0). pose proof (Hb 1). pose proof (Hb 2).
  repeat case_match; lia.
Qed.

Lemma wait_round_progress p :
  waiting p -> priority p < 3 -> rounds_left (wait_round p) < rounds_left p.
Proof.
  intros Hw Hlt. pose proof Hw as (Hok & Hr & Hb).
  destruct (wait_round_below p Hw Hlt) as (_ & Hmain & Hoth).
  pose proof (wait_round_waiting p Hw) as (_ & _ & Hb').
  pose proof (Hb' 0). pose proof (Hb' 1). pose proof (Hb' 2).
  assert (Hq : priority p = 0 \/ priority p = 1 \/ priority p = 2) by (destruct Hok; lia).
  unfold rounds_left. cbv zeta.
  change (wait_limit 0) with 500. change (wait_limit 1) with 320. change (wait_limit 2) with 160.
  destruct (Z.leb_spec (wait_limit (priority p)) (at4 (wait_ticks p) (priority p) + 1)) as [Hl|Hl];
    destruct Hmain as [-> Hm]; destruct Hq as [E0|[E0|E0]]; rewrite E0 in *;
    change (wait_limit 0) with 500 in *; change (wait_limit 1) with 320 in *;
    change (wait_limit 2) with 160 in *; repeat case_match; lia.
Qed.

Lemma wait_round_iter p n :
  waiting p -> (980 <= n)%nat -> priority (Nat.iter n wait_round p) = 3.
Proof.
  intros Hw Hn.
  assert (Hgen : forall k, waiting (Nat.iter k wait_round p) /\
    (priority (Nat.iter k wait_round p) = 3 \/
     rounds_left (Nat.iter k wait_round p) <= rounds_left p - Z.of_nat k)).
  { induction k as [|k [IHw IH]]; [split; [done|right; cbn; lia]|].
    cbn [Nat.iter nat_rect]. fold (Nat.iter k wait_round p).
    split; [by apply wait_round_waiting|].
    destruct (decide (priority (Nat.iter k wait_round p) = 3)) as [E3|E3].
    - left. by apply wait_round_top.
    - destruct IH as [?|IH]; [done|]. right.
      assert (priority (Nat.iter k wait_round p) < 3) as Hlt by (destruct IHw as [[] _]; lia).
      pose proof (wait_round_progress _ IHw Hlt). lia. }
  destruct (Hgen n) as [Hwn [?|Hle]]; [done|].
  pose proof (rounds_left_bound p Hw). pose proof (rounds_left_bound _ Hwn) as Hb.
  assert (E0 : rounds_left (Nat.iter n wait_round p) = 0) by lia.
  destruct Hwn as ([Hp _ _ _] & _ & _). revert E0 Hp.
  generalize (Nat.iter n wait_round p) as r. intros r E0 Hp. unfold rounds_left in E0.
  cbv zeta in E0. repeat case_match; lia.
Qed.

Lemma wait_rounds_waiting p n : waiting p -> waiting (Nat.iter n wait_round p).
Proof. intros Hw. induction n as [|n IH]; [done|]. by apply wait_round_waiting. Qed.

(** ** Rounds of the scheduler *)

Section rounds.
Context {E : Type}.
Variables (kpgdir : Z).

(** From the first state to the second, [n] turns of the MLFQ branch ended
    with a process other than the one in slot [i]: each is scheduler() from
    its swtch() on.  Between them anything may happen, on this or another
    CPU, that leaves slot [i] as it is. *)
Inductive passed_over (i : nat) : nat -> pst E -> pst E -> Prop :=
  | po_start s : passed_over i 0 s s
  | po_rest n s s1 s2 :
      passed_over i n s s1 -> ptable s2 !! i = ptable s1 !! i -> passed_over i n s s2
  | po_round n s s1 s2 c c1 c2 j :
      passed_over i n s s1 ->
      cpus s1 !! this s1 = Some c -> spc c = InMLFQ j -> j <> i ->
      scheduler_return kpgdir s1 c1 = Ret tt s2 c2 ->
      passed_over i (n + 1) s s2.

Lemma round_slot i j p (s1 s2 : pst E) c c1 c2 :
  cpus s1 !! this s1 = Some c -> spc c = InMLFQ j -> j <> i ->
  ptable s1 !! i = Some p -> scheduler_return kpgdir s1 c1 = Ret tt s2 c2 ->
  ptable s2 !! i = Some (wait_round p).
Proof.
  intros Hc Hpc Hne Hp Hrun.
  assert (Hw : wlp (scheduler_return kpgdir)
    (fun _ s' _ => ptable s' !! i = Some (wait_round p)) (fun _ _ => False) s1 c1).
  { unfold scheduler_return. lsteps. rewrite Hc. cbn [deref]. lsteps. rewrite Hpc.
    unfold switchkvm, updcpu, updp, upd_table. lsteps.
    cbn [ptable set_ptable set_cpus]. unfold priority_boost, update_wait_ticks.
    rewrite list_lookup_fmap, list_lookup_imap, list_lookup_alter_ne, Hp by done.
    cbn [fmap option_fmap option_map]. by rewrite (proj2 (Nat.eqb_neq i j)) by done. }
  exact (wlp_inv _ _ _ _ _ _ _ _ Hw Hrun).
Qed.

Lemma passed_over_slot i n p (s s' : pst E) :
  passed_over i n s s' -> ptable s !! i = Some p ->
  ptable s' !! i = Some (Nat.iter n wait_round p).
Proof.
  intros Hrun Hp. induction Hrun as [s|n s s1 s2 _ IH Hr|n s s1 s2 c c1 c2 j _ IH Hc Hpc Hne Hrun];
    [done|by rewrite Hr, IH|].
  rewrite Nat.add_1_r. by apply (round_slot i j _ s1 s2 c c1 c2 Hc Hpc Hne); [apply IH|].
Qed.

Lemma mlfq_select_top l i p :
  l !! i = Some p -> pstate p = RUNNABLE -> priority p = 3 ->
  exists j q, mlfq_select l = Some j /\ (j <= i)%nat /\ l !! j = Some q /\
    pstate q = RUNNABLE /\ priority q = 3.
Proof.
  intros Hp Hr H3. unfold mlfq_select. destruct (mlfq_search 4 l) as [j|] eqn:Ej.
  - destruct (mlfq_search_Some _ _ _ Ej) as (q & Hq & [Hqr Hq3] & Hmax).
    exists j, q. destruct (Hmax i p Hp) as [?|[? ?]]; [split; [done|lia]|lia|].
    repeat split; (done || lia).
  - exfalso. apply (proj1 (mlfq_search_None 4 l) Ej i p Hp). split; [done|lia].
Qed.

(** C33. Bounded waiting below the top level.  While a process stays in
    the table, runnable and untouched by others, 980 or more turns of the
    MLFQ branch of scheduler() that ran some other process (500 at level 0,
    320 at level 1, 160 at level 2) leave it runnable at level 3: the next
    search then selects a process of level 3, and none of a later slot. *)
Theorem boost_bounds_waiting i n p (s s' : pst E) :
  passed_over i n s s' -> ptable s !! i = Some p -> waiting p -> (980 <= n)%nat ->
  (exists p', ptable s' !! i = Some p' /\ pstate p' = RUNNABLE /\ priority p' = 3) /\
  (exists j q, mlfq_select (ptable s') = Some j /\ (j <= i)%nat /\
     ptable s' !! j = Some q /\ pstate q = RUNNABLE /\ priority q = 3).
Proof.
  intros Hrun Hp Hw Hn. pose proof (passed_over_slot _ _ _ _ _ Hrun Hp) as Hp'.
  destruct (wait_rounds_waiting p n Hw) as (_ & Hr & _).
  pose proof (wait_round_iter p n Hw Hn) as H3.
  split; [by exists (Nat.iter n wait_round p)|by apply (mlfq_select_top _ _ _ Hp')].
Qed.

End rounds.

(** ** Witnesses *)

(** A runnable process at level [prio] that has used [used] ticks there. *)
Definition demo_proc (prio used : Z) : proc :=
  mkproc 0 0 0 RUNNABLE 1 None 0 zero_tf 0 (mkcontext 0 0 0 0 0) None false
    (replicate NOFILE None) None (replicate 16 0) 0 false prio
    (<[Z.to_nat prio := used]> (replicate 4 0)) (replicate 4 0).

Lemma demote_correct_witness :
  priority (demote (demo_proc 2 16)) = 1 /\ demote (demo_proc 2 15) = demo_proc 2 15.
Proof.
  split.
  - by apply (demote_correct (demo_proc 2 16)).
  - by apply (demote_correct (demo_proc 2 15)).
Defined.

(** A level 3 process in slot 0 is selected over and over, a level 0 one in
    slot 1 waits. *)
Definition demo_cpu : cpu := mkcpu (Some 0%nat) 1 0 0 (InMLFQ 0).
Definition demo_sched (p : proc) : pst unit := mkpst [demo_proc 3 0; p] 1 None [demo_cpu] 0 tt.

Lemma demo_passed n : passed_over 0 1 n (demo_sched (demo_proc 0 0))
  (demo_sched (Nat.iter n wait_round (demo_proc 0 0))).
Proof.
  induction n as [|n IH]; [constructor|]. replace (S n) with (n + 1)%nat at 1 by lia.
  cbn [Nat.iter nat_rect]. revert IH. fold (Nat.iter n wait_round (demo_proc 0 0)).
  generalize (Nat.iter n wait_round (demo_proc 0 0)). intros p IH.
  eapply po_rest; [by eapply (po_round _ _ _ _ _ _ demo_cpu (mkctx [L_ptable] [] 0) _ 0 IH)|].
  done.
Qed.

Lemma boost_bounds_waiting_witness :
  exists j q, mlfq_select
    (ptable (demo_sched (Nat.iter 980 wait_round (demo_proc 0 0)))) = Some j /\
    (j <= 1)%nat /\ pstate q = RUNNABLE /\ priority q = 3.
Proof.
  destruct (boost_bounds_waiting 0 1 980 (demo_proc 0 0) _ _ (demo_passed 980)) as [_ Hsel];
    [done| |done|].
  { split; [by split|]. split; [done|].
    intros q Hq. assert (q = 0 \/ q = 1 \/ q = 2) as [->|[->| ->]] by lia; by vm_compute. }
  destruct Hsel as (j & q & ? & ? & _ & ? & ?). by exists j, q.
Defined.
