(* ===== verification/SchedSys.v ===== *)
(** * The process system on several CPUs

    The step relation interleaves, under ptable.lock, the scheduler loops
    of the CPUs with the operations of the running processes.  Its
    invariant says that a process is RUNNING exactly when it is the
    current process of one CPU, and that the scheduling fields stay in
    range. *)

From stdpp Require Import base numbers strings gmap list.
From S2P Require Import Prelude Kmonad Kstring Mmu Locks Proc Sched.

Local Open Scope Z_scope.

(** What wait() relies on: releasing memory does not sleep (kfree and
    freevm only take kmem.lock). *)
Definition no_sleep {S A} (m : K S A) : Prop :=
  forall s c ch s' c', m s c <> Sleep ch s' c'.

Class ProcEnvLaws (E : Type) `{ProcEnv E} : Prop := {
  env_kfree_no_sleep v : no_sleep (env_kfree v : K E unit);
  env_freevm_no_sleep pd : no_sleep (env_freevm pd : K E unit)
}.

Section sys.
Context {E : Type} `{ProcEnvLaws E}.
Variables (forkret_addr : Z) (fresh_tf : trapframe) (kpgdir : Z).
Implicit Types (s : pst E) (X : nat -> Prop).

Abbreviation allocproc := (allocproc forkret_addr fresh_tf).
Abbreviation fork := (fork forkret_addr fresh_tf).
Abbreviation scheduler_return := (scheduler_return kpgdir).

(** The running process has called sched(): the scheduler of its CPU goes
    on, possibly dispatches another process, and that one resumes. *)
Definition switch : K (pst E) unit := scheduler_return;; resume.

Definition running_on (s : pst E) (i p : nat) : Prop :=
  exists c, cpus s !! i = Some c /\ cproc c = Some p.

(** What the rest of the kernel does on behalf of the running process:
    its memory, files, directory, name and trap frame, and the state of
    the other components. *)
Definition private (f : proc -> proc) : Prop :=
  forall pr, pstate (f pr) = pstate pr /\ pid (f pr) = pid pr /\ parent (f pr) = parent pr /\
    priority (f pr) = priority pr /\ pticks (f pr) = pticks pr /\
    wait_ticks (f pr) = wait_ticks pr /\ length (ofile (f pr)) = length (ofile pr).

(** Every step runs to the next point where its process leaves the CPU or
    ptable.lock is free.  An exit() whose file operations sleep is a
    sequence of [ss_private] and [ss_sleep] steps ended by
    [ss_exit_zombie]. *)
Inductive sstep (s : pst E) : pst E -> Prop :=
| ss_schedule i cp c c' s' :
    cpus s !! i = Some cp -> spc cp = AtTop -> held c = [] ->
    (scheduler_top;; resume) (set_this i s) c = Ret tt s' c' -> sstep s s'
| ss_yield i p c c' s' :
    running_on s i p -> held c = [] ->
    (yield;; switch) (set_this i s) c = Ret tt s' c' -> sstep s s'
| ss_timer i p pr c c' s' :
    running_on s i p -> ptable s !! p = Some pr -> pstate pr = RUNNING -> held c = [] ->
    (timer_yield;; switch) (set_this i s) c = Ret tt s' c' -> sstep s s'
| ss_sleep i p ch lk c c1 c' s1 s' :
    running_on s i p -> held c = [lk] ->
    sleep ch lk (set_this i s) c = Sleep ch s1 c1 ->
    switch s1 c1 = Ret tt s' c' -> sstep s s'
| ss_exit i p c c' s' :
    running_on s i p -> held c = [] ->
    (exit;; switch) (set_this i s) c = Ret tt s' c' -> sstep s s'
| ss_exit_zombie i p c c' s' :
    running_on s i p -> held c = [] ->
    (exit_zombie p;; switch) (set_this i s) c = Ret tt s' c' -> sstep s s'
| ss_private i p f e :
    running_on s i p -> private f ->
    sstep s (set_env e (set_ptable (alter f p (ptable s)) (set_this i s)))
| ss_wait i p c c' s' v :
    running_on s i p -> held c = [] ->
    wait (set_this i s) c = Ret v s' c' -> sstep s s'
| ss_wait_sleep i p ch c c1 c' s1 s' :
    running_on s i p -> held c = [] ->
    wait (set_this i s) c = Sleep ch s1 c1 -> ch = C_proc p ->
    switch s1 c1 = Ret tt s' c' -> sstep s s'
| ss_fork i p c c' s' v :
    running_on s i p -> held c = [] ->
    fork (set_this i s) c = Ret v s' c' -> sstep s s'
| ss_wakeup i ch c c' s' : is_Some (cpus s !! i) ->
    Proc.wakeup ch (set_this i s) c = Ret tt s' c' -> sstep s s'
| ss_kill i target c c' s' v : is_Some (cpus s !! i) ->
    kill target (set_this i s) c = Ret v s' c' -> sstep s s'
| ss_policy i policy c c' s' v : is_Some (cpus s !! i) ->
    setSchedPolicy policy (set_this i s) c = Ret v s' c' -> sstep s s'.

Inductive sreachable (s0 : pst E) : pst E -> Prop :=
| sreach_refl : sreachable s0 s0
| sreach_step s s' : sreachable s0 s -> sstep s s' -> sreachable s0 s'.

(** ** The invariant, relative to the CPUs that are in the middle of a
    switch (the set [X]) *)

Definition owned X s (p : nat) : Prop :=
  exists j c, ~ X j /\ cpus s !! j = Some c /\ cproc c = Some p.

Definition spc_ok (c : cpu) : Prop :=
  match spc c with
  | AtTop => cproc c = None
  | InMLFQ p | InRR p => cproc c = Some p
  end.

Record ninv X s : Prop := {
  n_run : forall p pr, ptable s !! p = Some pr -> (pstate pr = RUNNING <-> owned X s p);
  n_dom : forall j c p, ~ X j -> cpus s !! j = Some c -> cproc c = Some p ->
    (p < length (ptable s))%nat;
  n_uniq : forall i j c d p, ~ X i -> ~ X j -> cpus s !! i = Some c -> cpus s !! j = Some d ->
    cproc c = Some p -> cproc d = Some p -> i = j;
  n_pc : forall j c, ~ X j -> cpus s !! j = Some c -> spc_ok c;
  n_procs : Forall proc_ok (ptable s)
}.

Definition none (j : nat) : Prop := False.
Definition inv s : Prop := ninv none s.

Lemma not_none j : ~ none j.
Proof. by intros []. Qed.
#[local] Hint Resolve not_none : core.

(** *** Frame lemmas *)

(** Updates of the table that do not start or stop a process. *)
Lemma ninv_table X s l :
  ninv X s -> length l = length (ptable s) ->
  (forall p pr pr', ptable s !! p = Some pr -> l !! p = Some pr' ->
    (pstate pr' = RUNNING <-> pstate pr = RUNNING) /\ (proc_ok pr -> proc_ok pr')) ->
  ninv X (set_ptable l s).
Proof.
  intros [Hrun Hdom Hu Hpc Hok] Hlen Hl. split; cbn; try done.
  - intros p pr' Hp. assert (p < length (ptable s))%nat as Hlt
      by (rewrite <- Hlen; by eapply lookup_lt_Some).
    apply lookup_lt_is_Some_2 in Hlt as [pr Hpr].
    destruct (Hl _ _ _ Hpr Hp) as [-> _]. by apply Hrun.
  - intros j c p. rewrite Hlen. by apply Hdom.
  - apply Forall_lookup_2. intros p pr' Hp.
    assert (p < length (ptable s))%nat as Hlt by (rewrite <- Hlen; by eapply lookup_lt_Some).
    apply lookup_lt_is_Some_2 in Hlt as [pr Hpr].
    destruct (Hl _ _ _ Hpr Hp) as [_ Himp]. apply Himp. by eapply Forall_lookup_1.
Qed.

Lemma ninv_map X s f :
  (forall pr, (pstate (f pr) = RUNNING <-> pstate pr = RUNNING) /\ (proc_ok pr -> proc_ok (f pr))) ->
  ninv X s -> ninv X (set_ptable (f <$> ptable s) s).
Proof.
  intros Hf Hi. apply ninv_table; [done|by rewrite length_fmap|].
  intros p pr pr' Hp Hp'. rewrite list_lookup_fmap, Hp in Hp'. injection Hp' as <-. apply Hf.
Qed.

Lemma ninv_alter X s f i :
  (forall pr, ptable s !! i = Some pr ->
    (pstate (f pr) = RUNNING <-> pstate pr = RUNNING) /\ (proc_ok pr -> proc_ok (f pr))) ->
  ninv X s -> ninv X (set_ptable (alter f i (ptable s)) s).
Proof.
  intros Hf Hi. apply ninv_table; [done|by rewrite length_alter|].
  intros p pr pr' Hp Hp'. destruct (decide (i = p)) as [->|Hne].
  - rewrite list_lookup_alter_eq, Hp in Hp'. injection Hp' as <-. by apply Hf.
  - rewrite list_lookup_alter_ne, Hp in Hp' by done. by injection Hp' as <-.
Qed.

Lemma ninv_ext X s s' :
  ptable s' = ptable s -> cpus s' = cpus s -> ninv X s -> ninv X s'.
Proof.
  intros Ep Ec [Hrun Hdom Hu Hpc Hok].
  assert (Ho : forall p, owned X s' p <-> owned X s p) by (unfold owned; by rewrite Ec).
  split; rewrite ?Ep, ?Ec; try done. intros p pr Hp. rewrite Ho. by apply Hrun.
Qed.

(** A CPU field other than c->proc and the loop position. *)
Lemma ninv_cpu X s i f :
  (forall c, cproc (f c) = cproc c /\ spc (f c) = spc c) ->
  ninv X s -> ninv X (set_cpus (alter f i (cpus s)) s).
Proof.
  intros Hf [Hrun Hdom Hu Hpc Hok].
  assert (Hl : forall j c', alter f i (cpus s) !! j = Some c' ->
    exists c, cpus s !! j = Some c /\ cproc c' = cproc c /\ spc c' = spc c).
  { intros j c' Hj. destruct (decide (i = j)) as [->|Hne].
    - rewrite list_lookup_alter_eq in Hj. destruct (cpus s !! j) as [c|]; [|done].
      injection Hj as <-. exists c. destruct (Hf c). done.
    - rewrite list_lookup_alter_ne in Hj by done. by exists c'. }
  split; cbn; try done.
  - intros p pr Hp. rewrite (Hrun p pr Hp). unfold owned; cbn. split.
    + intros (j & c & HX & Hj & Hc). exists j. destruct (decide (i = j)) as [->|Hne].
      * exists (f c). rewrite list_lookup_alter_eq, Hj. destruct (Hf c) as [-> _]. done.
      * exists c. rewrite list_lookup_alter_ne by done. done.
    + intros (j & c' & HX & Hj & Hc). destruct (Hl j c' Hj) as (c & Hjc & Hcc & _).
      exists j, c. rewrite <- Hcc. done.
  - intros j c' p HX Hj Hc. destruct (Hl j c' Hj) as (c & Hjc & Hcc & _).
    rewrite Hcc in Hc. by apply (Hdom j c).
  - intros i0 j c' d' p HXi HXj Hi Hj Hc Hd.
    destruct (Hl i0 c' Hi) as (c & Hic & Hcc & _). destruct (Hl j d' Hj) as (d & Hjd & Hdd & _).
    rewrite Hcc in Hc. rewrite Hdd in Hd. by apply (Hu i0 j c d p).
  - intros j c' HX Hj. destruct (Hl j c' Hj) as (c & Hjc & Hcc & Hss).
    specialize (Hpc j c HX Hjc). unfold spc_ok in *. by rewrite Hcc, Hss.
Qed.

(** *** The three transitions of a CPU *)

(** The current process of CPU [i] stops running. *)
Lemma ninv_stop s i p f :
  inv s -> running_on s i p ->
  (forall pr, pstate (f pr) <> RUNNING /\ (proc_ok pr -> proc_ok (f pr))) ->
  ninv (eq i) (set_ptable (alter f p (ptable s)) s).
Proof.
  intros [Hrun Hdom Hu Hpc Hok] (ci & Hci & Hcp) Hf. split; cbn.
  - intros q pr' Hq. destruct (decide (p = q)) as [->|Hne].
    + rewrite list_lookup_alter_eq in Hq. destruct (ptable s !! q) as [pr|] eqn:Eq; [|done].
      injection Hq as <-. split; [intros Hx; exfalso; by apply (proj1 (Hf pr))|].
      intros (j & c & HX & Hj & Hc). exfalso. apply HX. by apply (Hu i j ci c q).
    + rewrite list_lookup_alter_ne in Hq by done. rewrite (Hrun q pr' Hq). split.
      * intros (j & c & _ & Hj & Hc). exists j, c. split; [|done]. intros <-. congruence.
      * intros (j & c & _ & Hj & Hc). by exists j, c.
  - intros j c q _ Hj Hc. rewrite length_alter. by apply (Hdom j c).
  - intros a b c d q _ _. by apply Hu.
  - intros j c _. by apply Hpc.
  - apply Forall_alter; [done|]. intros pr _ Hpr. by apply Hf.
Qed.

(** CPU [i] goes back to the top of its loop. *)
Lemma ninv_idle s i f :
  ninv (eq i) s ->
  (forall c, cpus s !! i = Some c -> cproc (f c) = None /\ spc (f c) = AtTop) ->
  inv (set_cpus (alter f i (cpus s)) s).
Proof.
  intros [Hrun Hdom Hu Hpc Hok] Hf.
  assert (Hl : forall j c', alter f i (cpus s) !! j = Some c' ->
    (i <> j /\ cpus s !! j = Some c') \/ (cproc c' = None /\ spc c' = AtTop)).
  { intros j c' Hj. destruct (decide (i = j)) as [->|Hne].
    - rewrite list_lookup_alter_eq in Hj. destruct (cpus s !! j) as [c|]; [|done].
      injection Hj as <-. right. by apply Hf.
    - rewrite list_lookup_alter_ne in Hj by done. by left. }
  split; cbn.
  - intros p pr Hp. rewrite (Hrun p pr Hp). unfold owned; cbn. split.
    + intros (j & c & HX & Hj & Hc). exists j, c. split; [apply not_none|].
      rewrite list_lookup_alter_ne by done. done.
    + intros (j & c' & _ & Hj & Hc). destruct (Hl j c' Hj) as [[Hne Hj']|[Hn _]]; [|congruence].
      by exists j, c'.
  - intros j c' p _ Hj Hc. destruct (Hl j c' Hj) as [[Hne Hj']|[Hn _]]; [|congruence].
    by apply (Hdom j c').
  - intros a b c d p _ _ Ha Hb Hc Hd.
    destruct (Hl a c Ha) as [[Hna Ha']|[Hn _]]; [|congruence].
    destruct (Hl b d Hb) as [[Hnb Hb']|[Hn _]]; [|congruence]. by apply (Hu a b c d p).
  - intros j c' _ Hj. destruct (Hl j c' Hj) as [[Hne Hj']|[Hn Hs]]; [by apply (Hpc j)|].
    unfold spc_ok. by rewrite Hs.
  - done.
Qed.

(** CPU [i] starts the runnable process [p]. *)
Lemma ninv_start s i ci p pr f :
  ninv (eq i) s -> ptable s !! p = Some pr -> pstate pr = RUNNABLE ->
  cpus s !! i = Some ci -> cproc (f ci) = Some p ->
  spc (f ci) = InMLFQ p \/ spc (f ci) = InRR p ->
  inv (set_cpus (alter f i (cpus s)) (set_ptable (alter (set_pstate RUNNING) p (ptable s)) s)).
Proof.
  intros [Hrun Hdom Hu Hpc Hok] Hp Hr Hci Hf1 Hf2.
  assert (Hnp : forall j c, j <> i -> cpus s !! j = Some c -> cproc c <> Some p).
  { intros j c Hne Hj Hc. assert (pstate pr = RUNNING) as Hx; [|congruence].
    apply (Hrun p pr Hp). exists j, c. split; [congruence|done]. }
  assert (Hl : forall j c', alter f i (cpus s) !! j = Some c' ->
    (j <> i /\ cpus s !! j = Some c') \/
    (j = i /\ cproc c' = Some p /\ (spc c' = InMLFQ p \/ spc c' = InRR p))).
  { intros j c' Hj. destruct (decide (i = j)) as [->|Hne].
    - rewrite list_lookup_alter_eq, Hci in Hj. injection Hj as <-. by right.
    - rewrite list_lookup_alter_ne in Hj by done. left. by split; [congruence|]. }
  split; cbn.
  - intros q pr' Hq. destruct (decide (p = q)) as [<-|Hne].
    + rewrite list_lookup_alter_eq, Hp in Hq. injection Hq as <-. split; [|done]. intros _.
      exists i, (f ci). split; [apply not_none|]. cbn. rewrite list_lookup_alter_eq, Hci.
      by split.
    + rewrite list_lookup_alter_ne in Hq by done. rewrite (Hrun q pr' Hq).
      unfold owned; cbn. split.
      * intros (j & c & HX & Hj & Hc). exists j, c. split; [apply not_none|].
        rewrite list_lookup_alter_ne by done. done.
      * intros (j & c' & _ & Hj & Hc).
        destruct (Hl j c' Hj) as [[Hnj Hj']|(_ & Hn & _)]; [|congruence].
        exists j, c'. split; [congruence|done].
  - intros j c' q _ Hj Hc. rewrite length_alter.
    destruct (Hl j c' Hj) as [[Hnj Hj']|(_ & Hn & _)].
    + apply (Hdom j c'); [congruence|done..].
    + rewrite Hn in Hc. injection Hc as <-. by eapply lookup_lt_Some.
  - intros a b c d q _ _ Ha Hb Hc Hd.
    destruct (Hl a c Ha) as [[Hna Ha']|(-> & Hn & _)];
      destruct (Hl b d Hb) as [[Hnb Hb']|(-> & Hn' & _)]; try done.
    + apply (Hu a b c d q); (done || congruence).
    + exfalso. rewrite Hn' in Hd. injection Hd as <-. by apply (Hnp a c).
    + exfalso. rewrite Hn in Hc. injection Hc as <-. by apply (Hnp b d).
  - intros j c' _ Hj. destruct (Hl j c' Hj) as [[Hnj Hj']|(_ & Hn & Hs)].
    + apply (Hpc j); [congruence|done].
    + unfold spc_ok. by destruct Hs as [-> | ->].
  - apply Forall_alter; [done|]. intros q Hq [? ? ? ?]. done.
Qed.

(** CPU [i], idle, enters a switch. *)
Lemma ninv_enter s i ci : inv s -> cpus s !! i = Some ci -> cproc ci = None -> ninv (eq i) s.
Proof.
  intros [Hrun Hdom Hu Hpc Hok] Hci Hn. split; try done.
  - intros p pr Hp. rewrite (Hrun p pr Hp). split; intros (j & c & HX & Hj & Hc); exists j, c;
      (split; [|done]); [intros <-; congruence|done].
  - intros j c p _. by apply Hdom.
  - intros a b c d p _ _. by apply Hu.
  - intros j c _. by apply Hpc.
Qed.

(** CPU [i] is switching: its own fields do not matter. *)
Lemma ninv_switching s i f : ninv (eq i) s -> ninv (eq i) (set_cpus (alter f i (cpus s)) s).
Proof.
  intros [Hrun Hdom Hu Hpc Hok]. split; cbn; try done.
  - intros p pr Hp. rewrite (Hrun p pr Hp). unfold owned; cbn.
    split; intros (j & c & HX & Hj & Hc); exists j, c; (split; [done|]);
      rewrite list_lookup_alter_ne in * by done; done.
  - intros j c p HX Hj. rewrite list_lookup_alter_ne in Hj by done. by apply (Hdom j c).
  - intros a b c d p Ha Hb Hac Hbd. rewrite list_lookup_alter_ne in Hac, Hbd by done.
    by apply (Hu a b c d p).
  - intros j c HX Hj. rewrite list_lookup_alter_ne in Hj by done. by apply (Hpc j).
Qed.

(** *** Operations *)

(** The invariant while code runs on CPU [i], whose process is [o];
    the processes of [W] are known not to run. *)
Record sinv X (W : nat -> Prop) (i : nat) (o : option nat) s : Prop := {
  s_ninv : ninv X s;
  s_this : this s = i;
  s_cpu : exists c, cpus s !! i = Some c /\ (forall p, o = Some p -> cproc c = Some p);
  s_idle : forall p pr, W p -> ptable s !! p = Some pr -> pstate pr <> RUNNING
}.

(** Updates of a process that keep its run state and its ranges. *)
Definition quiet (f : proc -> proc) : Prop :=
  forall pr, (pstate (f pr) = RUNNING <-> pstate pr = RUNNING) /\ (proc_ok pr -> proc_ok (f pr)).

Lemma lookup_alter_cases (f : proc -> proc) (p q : nat) (l : list proc) pr :
  alter f p l !! q = Some pr ->
  (p = q /\ exists pr0, l !! q = Some pr0 /\ pr = f pr0) \/ (p <> q /\ l !! q = Some pr).
Proof.
  destruct (decide (p = q)) as [->|Hne].
  - rewrite list_lookup_alter_eq. destruct (l !! q) as [x|]; [|done]. intros [= <-]. left. eauto.
  - rewrite list_lookup_alter_ne by done. by right.
Qed.

Lemma sinv_updp X W i o p f s :
  quiet f \/ (W p /\ forall pr, pstate (f pr) <> RUNNING /\ (proc_ok pr -> proc_ok (f pr))) ->
  sinv X W i o s -> sinv X W i o (set_ptable (alter f p (ptable s)) s).
Proof.
  intros Hf [Hn Ht Hc Hw]. split; [|done..|].
  - apply ninv_alter; [|done]. intros pr Hp. destruct Hf as [Hf|[HW Hf]]; [apply Hf|].
    destruct (Hf pr) as [Hf1 Hf2]. specialize (Hw p pr HW Hp). tauto.
  - cbn. intros q pr HW Hq. apply lookup_alter_cases in Hq as [(<- & pr0 & Hq & ->)|[_ Hq]].
    + destruct Hf as [Hf|[_ Hf]]; [|apply Hf]. rewrite (proj1 (Hf pr0)). by apply (Hw p).
    + by apply (Hw q).
Qed.

Lemma preserves_updp X W i o p f : quiet f -> preserves (sinv X W i o) (updp p f).
Proof. intros Hf. apply preserves_modify. intros s. apply sinv_updp. by left. Qed.

Lemma preserves_updp_idle X (W : nat -> Prop) i o p f :
  W p -> (forall pr, pstate (f pr) <> RUNNING /\ (proc_ok pr -> proc_ok (f pr))) ->
  preserves (sinv X W i o) (updp p f).
Proof. intros HW Hf. apply preserves_modify. intros s. apply sinv_updp. by right. Qed.

Lemma sinv_map X W i o f s :
  quiet f -> sinv X W i o s -> sinv X W i o (set_ptable (f <$> ptable s) s).
Proof.
  intros Hf [Hn Ht Hc Hw]. split; [by apply ninv_map|done..|]. cbn. intros p pr HW.
  rewrite list_lookup_fmap_Some. intros (x & -> & Hx). rewrite (proj1 (Hf x)). by apply (Hw p).
Qed.

Lemma preserves_on_env {A} X W i o (m : K E A) : preserves (sinv X W i o) (on_env m).
Proof.
  apply preserves_zoom. intros s t [Hn Ht Hc Hw]. split; [|done..].
  by apply (ninv_ext X s).
Qed.

Lemma preserves_deref {A} (I : pst E -> Prop) (x : option A) : preserves I (deref x).
Proof. destruct x; [apply preserves_ret|apply preserves_panic]. Qed.

Lemma preserves_getp X W i o p : preserves (sinv X W i o) (getp p).
Proof. apply preserves_gets. Qed.

Lemma preserves_myproc X W i o : preserves (sinv X W i o) myproc.
Proof. apply preserves_gets. Qed.

Lemma quiet_wake ch : quiet (wake ch).
Proof.
  intros pr. unfold wake. destruct (is_state SLEEPING pr) eqn:Es; cbn [andb]; [|done].
  case_match; [|done]. apply is_state_true in Es. cbn. split; [split; congruence|by intros [? ? ? ?]].
Qed.

Lemma preserves_wakeup1 X W i o ch : preserves (sinv X W i o) (wakeup1 ch).
Proof. apply preserves_modify. intros s. apply sinv_map, quiet_wake. Qed.

Lemma preserves_sched X W i o : preserves (sinv X W i o) sched.
Proof.
  intros s c Hi. unfold wlp, sched. destruct (negb _); [done|]. destruct (negb _); [done|].
  destruct (mbind _ _) as [pr|]; [|done]. by destruct (is_state _ _).
Qed.

(** A setter of a field other than the state. *)
Ltac quiet :=
  intros ?; split; [done|intros [? ? ? ?]; split; cbn; rewrite ?length_replicate; (done || lia)].

Lemma quiet_ofile fd v : quiet (fun q => set_ofile (<[fd := v]> (ofile q)) q).
Proof. intros pr. split; [done|]. intros [? ? ? ?]. split; cbn; rewrite ?length_insert; done. Qed.

#[local] Hint Resolve preserves_on_env preserves_deref preserves_getp preserves_myproc preserves_wakeup1
  preserves_sched : pres.

Ltac spres := preserve; try (apply preserves_updp; quiet).

Lemma preserves_exit_files X W i o cur files fd :
  preserves (sinv X W i o) (exit_files cur fd files).
Proof.
  revert fd. induction files as [|[f|] files IH]; intros fd; cbn; [apply preserves_ret| |apply IH].
  spres. apply preserves_updp, quiet_ofile.
Qed.

Lemma preserves_fork_files X W i o cur files fd :
  preserves (sinv X W i o) (fork_files cur fd files).
Proof.
  revert fd. induction files as [|[f|] files IH]; intros fd; cbn; [apply preserves_ret| |apply IH].
  spres. apply preserves_updp, quiet_ofile.
Qed.

Lemma preserves_reparent X W i o cur ip n k : preserves (sinv X W i o) (reparent cur ip n k).
Proof.
  revert k. induction n as [|n IH]; intros k; cbn; [apply preserves_ret|].
  spres.
Qed.

(** **** The process side: it stops running and calls sched() *)

Definition stopped (i : nat) s : Prop := sinv (eq i) none i None s.

Lemma set_pstate_stops st pr :
  st <> RUNNING ->
  pstate (set_pstate st pr) <> RUNNING /\ (proc_ok pr -> proc_ok (set_pstate st pr)).
Proof. intros Hst. split; [done|]. by intros [? ? ? ?]. Qed.

Lemma sinv_stop W i p f s :
  sinv none W i (Some p) s ->
  (forall pr, pstate (f pr) <> RUNNING /\ (proc_ok pr -> proc_ok (f pr))) ->
  stopped i (set_ptable (alter f p (ptable s)) s).
Proof.
  intros [Hn Ht (c & Hc & Hp) Hw] Hf. split; [|done|by exists c|by intros ? ? []].
  apply ninv_stop; [done|exists c; split; [done|by apply Hp]|done].
Qed.

(** [myproc] on a CPU that runs [p]. *)
Lemma wlp_myproc X W i p Q R s c :
  sinv X W i (Some p) s -> Q (Some p) s c -> wlp myproc Q R s c.
Proof.
  intros [Hn Ht (cp & Hc & Hp) Hw] HQ. unfold wlp, myproc, gets. rewrite Ht, Hc. cbn.
  by rewrite (Hp p eq_refl).
Qed.

Lemma wlp_preserves {A} (I : pst E -> Prop) (m : K (pst E) A) (Q : A -> pst E -> ctx -> Prop)
    (R : pst E -> ctx -> Prop) s c :
  preserves I m -> I s -> (forall a s' c', I s' -> Q a s' c') -> (forall s' c', I s' -> R s' c') ->
  wlp m Q R s c.
Proof.
  intros Hm HI HQ HR. specialize (Hm s c HI). unfold wlp in *. destruct (m s c); eauto.
Qed.

Lemma yield_stops W i p s c :
  sinv none W i (Some p) s ->
  wlp yield (fun _ s' _ => stopped i s') (fun s' _ => stopped i s') s c.
Proof.
  intros Hi. unfold yield. lsteps. eapply wlp_myproc; [done|]. lsteps. cbn [deref]. lsteps.
  unfold updp. lsteps. apply preserves_sched. apply (sinv_stop W); [done|].
  intros pr. by apply set_pstate_stops.
Qed.

Lemma sleep_stops W i p ch lk s c :
  sinv none W i (Some p) s ->
  wlp (sleep ch lk) (fun _ _ _ => False) (fun s' _ => stopped i s') s c.
Proof.
  intros Hi. unfold sleep. lsteps. eapply wlp_myproc; [done|].
  assert (Htail : forall c', wlp (updp p (set_pchan (Some ch));; updp p (set_pstate SLEEPING);;
    sched;; block ch) (fun (_ : unit) _ _ => False) (fun s' _ => stopped i s') s c').
  { intros c'. unfold updp. lsteps. cbn [set_ptable].
    apply (wlp_preserves (stopped i)); [apply preserves_sched| |by intros; lsteps|done].
    apply (sinv_stop W _ _ _ (set_ptable _ s)); [|intros pr; by apply set_pstate_stops].
    apply sinv_updp; [left; quiet|done]. }
  destruct (decide (lk = L_ptable)); lsteps; apply Htail.
Qed.

(** One step of a walk that keeps an invariant. *)
Lemma wlp_bind_preserves {A B} (I : pst E -> Prop) (m : K (pst E) A) (f : A -> K (pst E) B)
    (Q : B -> pst E -> ctx -> Prop) (R : pst E -> ctx -> Prop) s c :
  I s -> preserves I m -> (forall a s' c', I s' -> wlp (f a) Q R s' c') ->
  (forall s' c', I s' -> R s' c') -> wlp (mbind f m) Q R s c.
Proof. intros HI Hm Hf HR. apply wlp_bind. by apply (wlp_preserves I). Qed.

Ltac lwalk I :=
  lazymatch goal with
  | |- wlp (mbind _ _) _ _ _ _ =>
      apply (wlp_bind_preserves I);
        [assumption|solve [spres; auto using preserves_exit_files, preserves_reparent,
           preserves_fork_files]|intros ? ? ? ?|try done]
  end.

Lemma exit_zombie_stops W i p s c :
  sinv none W i (Some p) s ->
  wlp (exit_zombie p) (fun _ s' _ => stopped i s') (fun _ _ => True) s c.
Proof.
  intros Hi. unfold exit_zombie. do 7 lwalk (sinv none W i (Some p)).
  unfold updp. lsteps. apply (wlp_preserves (stopped i)); [apply preserves_sched| |done..].
  apply (sinv_stop W); [done|]. intros pr; by apply set_pstate_stops.
Qed.

Lemma exit_stops W i p s c :
  sinv none W i (Some p) s ->
  wlp exit (fun _ s' _ => stopped i s') (fun _ _ => True) s c.
Proof.
  intros Hi. unfold exit. lsteps. eapply wlp_myproc; [done|]. lsteps. cbn [deref]. lsteps.
  case_bool_decide; [by lsteps|]. repeat lwalk (sinv none W i (Some p)).
  by apply (exit_zombie_stops W).
Qed.

(** **** The scheduler side *)

Lemma switchuvm_switching i p s c Q R :
  stopped i s ->
  (forall s' c', stopped i s' -> ptable s' = ptable s ->
    (forall cp, cpus s !! i = Some cp -> exists cp', cpus s' !! i = Some cp' /\ cproc cp' = cproc cp) ->
    Q tt s' c') -> wlp (switchuvm p) Q R s c.
Proof.
  intros Hs HQ. unfold switchuvm. unfold getp. lsteps. destruct (ptable s !! p) as [pr|]; [|done].
  cbn [deref]. lsteps. case_match; [done|]. case_match; [done|]. unfold updcpu. lsteps.
  destruct Hs as [Hn Ht (cp & Hc & _) _]. cbn [set_cpus cpus this]. rewrite Ht.
  apply HQ; [|done|].
  - split; [|done| |by intros ? ? []].
    + apply (ninv_switching (set_cpus _ _)). by apply ninv_switching.
    + cbn. rewrite !list_lookup_alter_eq, Hc. eexists; split; done.
  - intros cp' Hcp'. cbn. rewrite !list_lookup_alter_eq, Hcp'. eexists; split; done.
Qed.

Lemma stopped_updcpu i f s : stopped i s -> stopped i (set_cpus (alter f i (cpus s)) s).
Proof.
  intros [Hn Ht (cp & Hc & _) _]. split; [by apply ninv_switching|done| |by intros ? ? []].
  cbn. rewrite list_lookup_alter_eq, Hc. eexists; split; done.
Qed.

Lemma dispatch_inv i p pr pc s c R :
  stopped i s -> ptable s !! p = Some pr -> pstate pr = RUNNABLE -> pc = InMLFQ p \/ pc = InRR p ->
  wlp (dispatch p pc) (fun _ s' _ => inv s' /\ this s' = i) R s c.
Proof.
  intros Hs Hp Hr Hpc. unfold dispatch, updcpu. lsteps.
  pose proof Hs as [_ Ht (cp & Hc & _) _].
  apply (switchuvm_switching i).
  { rewrite Ht. by apply stopped_updcpu. }
  intros s1 c1 [Hn1 Ht1 _ _] Hp1 Hc1. unfold updp, updcpu. lsteps.
  destruct (Hc1 (set_cproc (Some p) cp)) as (c2 & Hc2 & Hcp2).
  { cbn. by rewrite Ht, list_lookup_alter_eq, Hc. }
  split; [|done]. cbn [this set_ptable]. rewrite Ht1.
  apply (ninv_start s1 i c2 p pr); [done| |done..]. rewrite Hp1. done.
Qed.

Lemma idle_inv i s :
  stopped i s -> (forall cp, cpus s !! i = Some cp -> cproc cp = None) ->
  inv (set_cpus (alter (set_spc AtTop) i (cpus s)) s).
Proof. intros [Hn Ht _ _] Hc. apply ninv_idle; [done|]. intros cp Hcp. cbn. split; [by eapply Hc|done]. Qed.

Lemma rr_from_inv i start s c R :
  stopped i s -> (forall cp, cpus s !! i = Some cp -> cproc cp = None) ->
  wlp (rr_from start) (fun _ s' _ => inv s' /\ this s' = i) R s c.
Proof.
  intros Hs Hc. unfold rr_from. lsteps. destruct (find_idx _ _) as [k|] eqn:Ef.
  - apply find_idx_Some in Ef as [(pr & Hp & Hr) _]. rewrite lookup_drop in Hp.
    apply is_state_true in Hr. by apply (dispatch_inv i _ pr); [| | |right].
  - unfold updcpu. lsteps. pose proof (s_this _ _ _ _ _ Hs) as Ht. rewrite Ht.
    split; [by apply idle_inv|done].
Qed.

Lemma scheduler_top_inv i s c R :
  inv s -> this s = i -> (exists cp, cpus s !! i = Some cp /\ spc cp = AtTop) ->
  wlp scheduler_top (fun _ s' _ => inv s' /\ this s' = i) R s c.
Proof.
  intros Hi Ht (cp & Hc & Hpc). unfold scheduler_top. lsteps. rewrite Ht, Hc. cbn [deref]. lsteps.
  assert (Hnone : cproc cp = None).
  { pose proof (n_pc _ _ Hi i cp (not_none i) Hc) as Hok. unfold spc_ok in Hok. by rewrite Hpc in Hok. }
  assert (Hs : stopped i s).
  { split; [by apply ninv_enter with cp|done|by exists cp|by intros ? ? []]. }
  case_match.
  - destruct (mlfq_select (ptable s)) as [p|] eqn:Es; [|by lsteps].
    apply mlfq_search_Some in Es as (pr & Hp & [Hr _] & _).
    by apply (dispatch_inv i _ pr); [| | |left].
  - apply rr_from_inv; [done|]. congruence.
Qed.

Lemma quiet_sched_fields f :
  (forall pr, pstate (f pr) = pstate pr) -> (forall pr, proc_ok pr -> proc_ok (f pr)) -> quiet f.
Proof. intros Hs Hok pr. rewrite Hs. auto. Qed.

Lemma quiet_demote : quiet demote.
Proof.
  apply quiet_sched_fields; [|apply demote_ok]. intros pr. unfold demote. by case_match.
Qed.

Lemma quiet_wait_tick : quiet wait_tick.
Proof.
  apply quiet_sched_fields; [|apply wait_tick_ok]. intros pr. unfold wait_tick. by repeat case_match.
Qed.

Lemma quiet_boost : quiet boost.
Proof.
  apply quiet_sched_fields; [|apply boost_ok]. intros pr. unfold boost. by repeat case_match.
Qed.

Lemma quiet_tick : quiet tick.
Proof. apply quiet_sched_fields; [done|apply tick_ok]. Qed.

Lemma stopped_wait_ticks i p s :
  stopped i s -> stopped i (set_ptable (update_wait_ticks p (ptable s)) s).
Proof.
  intros [Hn Ht Hc Hw]. split; [|done..|by intros ? ? []].
  apply ninv_table; [done|by unfold update_wait_ticks; rewrite length_imap|].
  intros q pr pr' Hq. unfold update_wait_ticks. rewrite list_lookup_imap, Hq. cbn.
  intros [= <-]. case_match; [done|]. apply quiet_wait_tick.
Qed.

Lemma scheduler_return_inv i s c R :
  stopped i s -> wlp scheduler_return (fun _ s' _ => inv s' /\ this s' = i) R s c.
Proof.
  intros Hs. pose proof Hs as [_ Ht (cp & Hc & _) _]. unfold scheduler_return, Sched.scheduler_return.
  lsteps. rewrite Ht, Hc. cbn [deref]. lsteps.
  assert (H1 : stopped i (set_cpus (alter (set_cr3 (V2P kpgdir)) i (cpus s)) s)).
  { by apply stopped_updcpu. }
  destruct (spc cp) as [|p|p]; [done|unfold switchkvm, updcpu, updp, upd_table; lsteps..];
    cbn [this set_cpus set_ptable]; rewrite Ht.
  - set (s1 := set_cpus _ s) in *.
    pose proof (sinv_updp _ _ _ _ p demote s1 (or_introl quiet_demote) H1) as H2.
    apply (stopped_wait_ticks i p) in H2. apply (sinv_map _ _ _ _ boost _ quiet_boost) in H2.
    apply (stopped_updcpu _ (set_cproc None)) in H2. split; [|done].
    apply (idle_inv i) in H2; [done|]. cbn.
    intros cp'. rewrite !list_lookup_alter_eq, Hc. by intros [= <-].
  - apply rr_from_inv.
    + by apply (stopped_updcpu _ (set_cproc None)) in H1.
    + cbn. intros cp'. rewrite !list_lookup_alter_eq, Hc. by intros [= <-].
Qed.

Lemma preserves_resume : preserves inv resume.
Proof.
  unfold resume, yield_resume, myproc, getp, updp. preserve.
  apply preserves_modify. intros s. apply ninv_alter. intros pr _. revert pr. quiet.
Qed.

Lemma switch_inv i s c :
  stopped i s -> wlp switch (fun _ s' _ => inv s') (fun _ _ => True) s c.
Proof.
  intros Hs. unfold switch. lsteps. eapply wlp_mono; [by apply (scheduler_return_inv i)|].
  intros _ s' c' [Hi _]. cbn beta. by apply (wlp_preserves inv); [apply preserves_resume|..].
Qed.

(** **** Processes are created and collected *)

Lemma sinv_idle X W i o n pr s :
  sinv X W i o s -> ptable s !! n = Some pr -> pstate pr <> RUNNING -> sinv X (eq n) i o s.
Proof. intros [Hn Ht Hc _] Hp Hr. split; [done..|]. intros p pr' <- Hp'. congruence. Qed.

Lemma sinv_weaken X W i o s : sinv X W i o s -> sinv X none i o s.
Proof. intros [Hn Ht Hc _]. split; [done..|]. by intros ? ? []. Qed.

Lemma preserves_set_pstate X n i o st :
  st <> RUNNING -> preserves (sinv X (eq n) i o) (updp n (set_pstate st)).
Proof. intros Hst. apply preserves_updp_idle; [done|]. intros pr. by apply set_pstate_stops. Qed.

Lemma preserves_nextpid X W i o v : preserves (sinv X W i o) (modify (set_nextpid v)).
Proof.
  apply preserves_modify. intros s [Hn Ht Hc Hw]. split; [|done..]. by apply (ninv_ext X s).
Qed.

Lemma preserves_initproc X W i o v : preserves (sinv X W i o) (modify (set_initproc v)).
Proof.
  apply preserves_modify. intros s [Hn Ht Hc Hw]. split; [|done..]. by apply (ninv_ext X s).
Qed.

#[local] Hint Resolve preserves_set_pstate preserves_nextpid preserves_initproc : pres.

(** The slot allocproc returns is not running. *)
Lemma allocproc_inv X W i o s c :
  sinv X W i o s ->
  wlp allocproc (fun r s' _ => match r with
                               | Some n => sinv X (eq n) i o s'
                               | None => sinv X none i o s'
                               end) (fun _ _ => True) s c.
Proof.
  intros Hs. unfold allocproc, Proc.allocproc. lsteps. destruct (find_idx _ _) as [n|] eqn:Ef.
  - apply find_idx_Some in Ef as [(pr & Hp & Hr) _]. apply is_state_true in Hr.
    assert (Hn : sinv X (eq n) i o s) by (by eapply sinv_idle; [done..|congruence]).
    repeat lwalk (sinv X (eq n) i o).
    case_match; [lwalk (sinv X (eq n) i o); by eapply sinv_weaken|].
    repeat lwalk (sinv X (eq n) i o). by lsteps.
  - lsteps. by eapply sinv_weaken.
Qed.

Lemma fork_inv X W i o s c :
  sinv X W i o s -> wlp fork (fun _ s' _ => sinv X none i o s') (fun _ _ => True) s c.
Proof.
  intros Hs. unfold fork, Proc.fork. lwalk (sinv X W i o). lsteps.
  eapply wlp_mono; [by eapply allocproc_inv|]. intros [n|] s1 c1 Hs1; [|by lsteps].
  repeat lwalk (sinv X (eq n) i o). case_match.
  - repeat lwalk (sinv X (eq n) i o). lsteps. by eapply sinv_weaken.
  - repeat lwalk (sinv X (eq n) i o). lsteps. by eapply sinv_weaken.
Qed.

Lemma userinit_inv X W i o initcode s c :
  sinv X W i o s ->
  wlp (userinit forkret_addr fresh_tf initcode) (fun _ s' _ => sinv X none i o s')
    (fun _ _ => True) s c.
Proof.
  intros Hs. unfold userinit. lsteps. eapply wlp_mono; [by eapply allocproc_inv|].
  intros [n|] s1 c1 Hs1; [|by lsteps].
  lwalk (sinv X (eq n) i o). cbn [deref]. do 2 lstep. repeat lwalk (sinv X (eq n) i o). case_match; [done|].
  repeat lwalk (sinv X (eq n) i o). eapply wlp_preserves; [apply preserves_release|done| |done].
  intros _ s2 c2 Hs2. by eapply sinv_weaken.
Qed.

Lemma wait_scan_inl cur l i k n :
  wait_scan cur i k l = inl n ->
  exists pr, l !! (n - i)%nat = Some pr /\ pstate pr = ZOMBIE /\ parent pr = Some cur /\ (i <= n)%nat.
Proof.
  revert i k. induction l as [|pr l IH]; intros i k; cbn [wait_scan]; [done|].
  assert (Hrec : forall k', wait_scan cur (S i) k' l = inl n -> exists pr',
    (pr :: l) !! (n - i)%nat = Some pr' /\ pstate pr' = ZOMBIE /\ parent pr' = Some cur /\ (i <= n)%nat).
  { intros k' Hk. destruct (IH _ _ Hk) as (pr' & Hl & Hz & Hpa & Hle).
    exists pr'. replace (n - i)%nat with (S (n - S i)) by lia. cbn. auto with lia. }
  case_bool_decide; cbn [negb]; [|apply Hrec]. destruct (is_state ZOMBIE pr) eqn:Ez; [|apply Hrec].
  intros [= <-]. exists pr. rewrite Nat.sub_diag. apply is_state_true in Ez. auto.
Qed.

Lemma wlp_on_env_no_sleep {A} (I : pst E -> Prop) (m : K E A) Q R s c :
  no_sleep m -> I s -> preserves I (on_env m) -> (forall a s' c', I s' -> Q a s' c') ->
  wlp (on_env m) Q R s c.
Proof.
  intros Hm HI Hp Hf. specialize (Hp s c HI). specialize (Hm (lget env_lens s) c).
  unfold wlp, zoom in *. destruct (m _ c) as [| |ch s0 c0]; [by apply Hf|done|].
  by destruct (Hm ch s0 c0).
Qed.

(** wait either returns with the invariant or suspends its caller. *)
Lemma wait_inv i p s c :
  sinv none none i (Some p) s ->
  wlp wait (fun _ s' _ => inv s') (fun s' _ => stopped i s') s c.
Proof.
  intros Hs. unfold wait, wait_turn. lsteps. eapply wlp_myproc; [done|]. lsteps. cbn [deref]. lsteps.
  destruct (wait_scan p 0 false (ptable s)) as [n|k] eqn:Ew.
  - apply wait_scan_inl in Ew as (pr & Hp & Hz & _ & _). rewrite Nat.sub_0_r in Hp.
    assert (Hn : sinv none (eq n) i (Some p) s) by (by eapply sinv_idle; [done..|congruence]).
    unfold getp. lsteps. rewrite Hp. cbn [deref]. lsteps.
    apply (wlp_on_env_no_sleep (sinv none (eq n) i (Some p)));
      [apply env_kfree_no_sleep|done|apply preserves_on_env|]. intros _ s1 c1 Hs1.
    unfold updp. lsteps.
    apply (wlp_on_env_no_sleep (sinv none (eq n) i (Some p)));
      [apply env_freevm_no_sleep|by apply sinv_updp; [left; quiet|]|apply preserves_on_env|].
    intros _ s2 c2 Hs2. unfold updp. lsteps. apply (s_ninv none (eq n) i (Some p)).
    apply sinv_updp; [right; split; [done|]; intros ?; by apply set_pstate_stops|].
    do 4 (apply sinv_updp; [left; quiet|]). done.
  - unfold getp. lsteps. destruct (ptable s !! p) as [pr|]; [|done]. cbn [deref]. lsteps.
    case_match; [lsteps; apply (s_ninv _ _ _ _ _ Hs)|]. lsteps.
    by eapply wlp_mono; [by eapply sleep_stops|].
Qed.

Lemma wakeup_inv W i o ch : preserves (sinv none W i o) (Proc.wakeup ch).
Proof. unfold Proc.wakeup. spres. Qed.

Lemma kill_inv W i o target : preserves (sinv none W i o) (kill target).
Proof.
  unfold kill. spres. apply preserves_updp. intros pr. case_match eqn:Es; [|done].
  apply is_state_true in Es. cbn. split; [split; congruence|by intros [? ? ? ?]].
Qed.

Lemma setSchedPolicy_inv policy : preserves inv (setSchedPolicy policy).
Proof.
  unfold setSchedPolicy. preserve. apply preserves_modify. intros s. by apply ninv_cpu.
Qed.

(** *** Every step preserves the invariant *)

Lemma sinv_this i s : inv s -> (exists c, cpus s !! i = Some c) ->
  sinv none none i None (set_this i s).
Proof.
  intros Hi [c Hc]. split; [by apply (ninv_ext none s)|done|by exists c|by intros ? ? []].
Qed.

Lemma sinv_running i p s : inv s -> running_on s i p -> sinv none none i (Some p) (set_this i s).
Proof.
  intros Hi (c & Hc & Hp). split; [by apply (ninv_ext none s)|done| |by intros ? ? []].
  exists c. split; [done|]. by intros ? [= <-].
Qed.

(** A process that stops and the switch that follows. *)
Lemma stop_switch i (m : K (pst E) unit) s c s' c' :
  wlp m (fun _ s' _ => stopped i s') (fun _ _ => True) s c ->
  (m;; switch) s c = Ret tt s' c' -> inv s'.
Proof.
  intros Hm Hr. eapply (wlp_inv _ (fun _ s' _ => inv s')); [|exact Hr]. apply wlp_bind.
  eapply wlp_mono; [exact Hm|]. intros [] s1 c1 Hs1. by apply (switch_inv i).
Qed.

Lemma timer_yield_stops i p pr s c :
  sinv none none i (Some p) s -> ptable s !! p = Some pr -> pstate pr = RUNNING ->
  wlp timer_yield (fun _ s' _ => stopped i s') (fun _ _ => True) s c.
Proof.
  intros Hs Hp Hr. unfold timer_yield. lsteps. eapply wlp_myproc; [done|]. unfold getp. lsteps.
  rewrite Hp. cbn [deref]. lsteps. rewrite (proj2 (is_state_true _ _) Hr). unfold updp. lsteps.
  eapply wlp_mono_both; [eapply (yield_stops none i p)|by intros|by intros].
  apply sinv_updp; [left; apply quiet_tick|done].
Qed.

Lemma sstep_inv s s' : inv s -> sstep s s' -> inv s'.
Proof.
  intros Hi Hstep. destruct Hstep.
  - eapply (wlp_inv _ (fun _ s' _ => inv s') (fun _ _ => True)); [|done]. lsteps.
    eapply wlp_mono; [eapply (scheduler_top_inv i); [by apply (ninv_ext none s)|done|by exists cp]|].
    intros [] s1 c1 [Hs1 _]. by apply (wlp_preserves inv); [apply preserves_resume|..].
  - eapply (stop_switch i); [|done]. eapply wlp_mono_both; [|intros ? ? ? Hx; exact Hx|by intros].
    by apply (yield_stops none i p), sinv_running.
  - eapply (stop_switch i); [|done]. by eapply timer_yield_stops; [apply sinv_running|..].
  - eapply (wlp_inv _ (fun _ s' _ => inv s')); [|done]. apply (switch_inv i).
    eapply (wlp_inv_sleep _ (fun _ _ _ => False) (fun s' _ => stopped i s')); [|done].
    by apply (sleep_stops none i p), sinv_running.
  - eapply (stop_switch i); [|done]. by apply (exit_stops none i p), sinv_running.
  - eapply (stop_switch i); [|done]. by apply (exit_zombie_stops none i p), sinv_running.
  - apply (ninv_ext none (set_ptable (alter f p (ptable s)) s)); [done..|].
    apply ninv_alter; [|done]. intros pr _.
    match goal with Hf : private f |- _ => destruct (Hf pr) as (-> & _ & _ & E1 & E2 & E3 & E4) end.
    split; [done|]. intros [? ? ? ?]. split; congruence.
  - eapply (wlp_inv _ (fun _ s' _ => inv s')); [|done]. by apply (wait_inv i p), sinv_running.
  - eapply (wlp_inv _ (fun _ s' _ => inv s')); [|done]. apply (switch_inv i).
    eapply (wlp_inv_sleep _ (fun _ s' _ => inv s') (fun s' _ => stopped i s')); [|done]. by apply (wait_inv i p), sinv_running.
  - eapply s_ninv. eapply (wlp_inv _ (fun _ s' _ => sinv none none i (Some p) s')); [|done].
    by eapply fork_inv, sinv_running.
  - eapply s_ninv. eapply (wlp_inv _ (fun _ s' _ => sinv none none i None s')); [|done].
    by apply wakeup_inv, sinv_this.
  - eapply s_ninv. eapply (wlp_inv _ (fun _ s' _ => sinv none none i None s')); [|done].
    by apply kill_inv, sinv_this.
  - eapply (wlp_inv _ (fun _ s' _ => inv s')); [|done]. apply setSchedPolicy_inv.
    by apply (ninv_ext none s).
Qed.

Lemma sreachable_inv s0 s : inv s0 -> sreachable s0 s -> inv s.
Proof. intros Hi Hr. induction Hr as [|s s' Hr IH Hs]; [done|]. by eapply sstep_inv. Qed.

(** The machine before userinit: the zeroed process table and idle CPUs. *)
Definition boot_state s : Prop :=
  (forall j c, cpus s !! j = Some c -> cproc c = None /\ spc c = AtTop) /\
  is_Some (cpus s !! this s) /\
  Forall (fun pr => pstate pr = UNUSED /\ proc_ok pr) (ptable s).

Lemma boot_inv s : boot_state s -> inv s.
Proof.
  intros (Hc & _ & Hp). split.
  - intros p pr Hl. destruct (Forall_lookup_1 _ _ _ _ Hp Hl) as [Hu _]. split; [congruence|].
    intros (j & c & _ & Hj & Hcp). destruct (Hc j c Hj). congruence.
  - intros j c p _ Hj Hcp. destruct (Hc j c Hj). congruence.
  - intros i j c d p _ _ Hi Hj Hcp. destruct (Hc i c Hi). congruence.
  - intros j c _ Hj. destruct (Hc j c Hj) as [Hn Hs]. unfold spc_ok. by rewrite Hs.
  - eapply Forall_impl; [exact Hp|]. by intros pr [_ ?].
Qed.

(** C2. In every state the kernel reaches after userinit, by any
    interleaving of the CPUs' schedulers with the processes' yields, timer
    ticks, sleeps, exits, waits, forks, kills and wakeups: a process is
    RUNNING exactly when it is the current process of a CPU, no process is
    the current process of two CPUs, the current process of a CPU is a slot
    of the table, and each process keeps a priority in 0..3. *)
Theorem running_iff_on_cpu initcode sboot cboot s0 c0 s :
  boot_state sboot ->
  userinit forkret_addr fresh_tf initcode sboot cboot = Ret tt s0 c0 ->
  sreachable s0 s ->
  (forall p pr, ptable s !! p = Some pr -> (pstate pr = RUNNING <-> exists i, running_on s i p)) /\
  (forall i j p, running_on s i p -> running_on s j p -> i = j) /\
  (forall i p, running_on s i p -> (p < length (ptable s))%nat) /\
  (forall p pr, ptable s !! p = Some pr -> 0 <= priority pr <= 3).
Proof.
  intros Hb Hu Hr.
  assert (H0' : inv s0).
  { apply (s_ninv none none (this sboot) None).
    eapply (wlp_inv _ (fun _ s' _ => sinv none none (this sboot) None s')); [|exact Hu].
    apply (userinit_inv none none). split; [by apply boot_inv|done| |by intros ? ? []].
    destruct Hb as (_ & [c Hc] & _). by exists c. }
  destruct (sreachable_inv s0 s H0' Hr) as [Hrun Hdom Huq Hpc Hok]. split; [|split; [|split]].
  - intros p pr Hp. rewrite (Hrun p pr Hp). split.
    + intros (j & c & _ & Hj & Hc). by exists j, c.
    + intros (j & c & Hj & Hc). by exists j, c.
  - intros i j p (c & Hi & Hc) (d & Hj & Hd). by apply (Huq i j c d p).
  - intros i p (c & Hi & Hc). by apply (Hdom i c).
  - intros p pr Hp. by apply (Forall_lookup_1 _ _ _ _ Hok Hp).
Qed.

End sys.

(** ** A concrete kernel

    One page of memory at a fixed address, every file and inode operation
    succeeding: enough to run the process code. *)
Module Demo.

#[global] Instance demo_env : ProcEnv unit := {
  env_kalloc := mret 2147487744;
  env_kfree _ := mret tt;
  env_setupkvm := mret 2147491840;
  env_inituvm _ _ := mret tt;
  env_allocuvm _ _ new := mret new;
  env_deallocuvm _ _ new := mret new;
  env_copyuvm _ _ := mret 2147495936;
  env_freevm _ := mret tt;
  env_filedup f := mret f;
  env_fileclose _ := mret tt;
  env_idup i := mret i;
  env_iput _ := mret tt;
  env_namei _ := mret (Some 0%nat);
  env_begin_op := mret tt;
  env_end_op := mret tt
}.

#[global] Instance demo_laws : ProcEnvLaws unit.
Proof. split; done. Qed.

Definition zero_proc : proc :=
  mkproc 0 0 0 UNUSED 0 None 0 zero_tf 0 (mkcontext 0 0 0 0 0) None false
    (replicate NOFILE None) None (replicate 16 0) 0 false 0 (replicate 4 0) (replicate 4 0).

Definition boot : pst unit :=
  mkpst (replicate 64 zero_proc) 1 None
    [mkcpu None 1 0 0 AtTop; mkcpu None 0 0 0 AtTop] 0 tt.

Definition c0 : ctx := mkctx [] [] 0.

Definition run {A} (m : K (pst unit) A) (s : pst unit) : pst unit :=
  match m s c0 with Ret _ s' _ | Sleep _ s' _ => s' | Panic _ => s end.

Definition after_init : pst unit := Eval vm_compute in run (userinit 0 zero_tf []) boot.

(** CPU 0 has dispatched the first process. *)
Definition running : pst unit :=
  Eval vm_compute in run (scheduler_top;; resume) (set_this 0 after_init).

Lemma boot_ok : boot_state boot.
Proof.
  split; [|split; [by eexists|]].
  - intros [|[|j]] c; cbn; intros Hc; simplify_eq; done.
  - by repeat constructor.
Qed.

Lemma after_init_run : userinit 0 zero_tf [] boot c0 = Ret tt after_init c0.
Proof. vm_compute. reflexivity. Qed.

Lemma running_run : (scheduler_top;; resume) (set_this 0 after_init) c0 = Ret tt running c0.
Proof. vm_compute. reflexivity. Qed.

Lemma running_reachable : sreachable 0 zero_tf 0 after_init running.
Proof.
  eapply sreach_step; [apply sreach_refl|].
  by eapply (ss_schedule _ _ _ _ 0 (mkcpu None 1 0 0 AtTop) c0 c0); [..|apply running_run].
Qed.

End Demo.

Lemma running_iff_on_cpu_witness :
  (exists pr, ptable Demo.running !! 0%nat = Some pr /\ pstate pr = RUNNING /\ priority pr = 3) /\
  (forall i, running_on Demo.running i 0 -> i = 0%nat).
Proof.
  pose proof (running_iff_on_cpu 0 zero_tf 0 [] Demo.boot Demo.c0 Demo.after_init Demo.c0
    Demo.running Demo.boot_ok Demo.after_init_run Demo.running_reachable) as (_ & Hu & _ & _).
  split; [eexists; split; [reflexivity|done]|].
  intros i Hi. apply (Hu i 0%nat 0%nat Hi). by eexists.
Defined.
