(* ===== verification/Digits.v ===== *)
(** * Numbers in a base

    The do loop that both printint functions (console.c and printf.c)
    share: the digits of a number, least significant first, and what they
    are worth. *)

From stdpp Require Import base numbers list.
From S2P Require Import Prelude.

Local Open Scope Z_scope.

(** The loop, with the table of digits as an argument; a 32-bit number has
    at most 32 digits. *)
Fixpoint digit_loop (digits : list Z) (fuel : nat) (x base : Z) : list Z :=
  match fuel with
  | O => []
  | S fuel =>
      let d := nth (Z.to_nat (x mod base)) digits 0 in
      let x := x / base in
      if x =? 0 then [d] else d :: digit_loop digits fuel x base
  end.

(** The number that digits stand for, least significant first, given the
    value of each. *)
Definition worth (val : Z -> Z) (base : Z) (ds : list Z) : Z := foldr (fun d n => val d + base * n) 0 ds.

Section digits.
Context (digits : list Z) (val : Z -> Z) (base : Z).
Hypothesis Hbase : 2 <= base.
Hypothesis Hval : forall d, 0 <= d < base -> val (nth (Z.to_nat d) digits 0) = d.

Lemma digit_loop_length k fuel x : 0 <= x < base ^ Z.of_nat k -> (0 < k)%nat ->
  (0 < fuel -> 0 < length (digit_loop digits fuel x base))%nat /\ (length (digit_loop digits fuel x base) <= k)%nat.
Proof.
  revert k x. induction fuel as [|fuel IH]; intros k x Hx Hk; cbn [digit_loop]; [cbn; lia|].
  destruct (Z.eqb_spec (x / base) 0) as [E|E]; cbn [length]; [lia|].
  destruct k as [|k]; [lia|]. rewrite Nat2Z.inj_succ, Z.pow_succ_r in Hx by lia.
  assert (Hd : 0 <= x / base < base ^ Z.of_nat k).
  { split; [apply Z.div_pos; lia|]. apply Z.div_lt_upper_bound; lia. }
  destruct k as [|k]; [cbn in Hd; lia|]. destruct (IH (S k) _ Hd) as [_ IHl]; lia.
Qed.

Lemma digit_loop_worth fuel x : 0 <= x < base ^ Z.of_nat fuel -> worth val base (digit_loop digits fuel x base) = x.
Proof.
  revert x. induction fuel as [|fuel IH]; intros x Hx; cbn [digit_loop].
  { cbn in *. lia. }
  rewrite Nat2Z.inj_succ, Z.pow_succ_r in Hx by lia. pose proof (Z.div_mod x base ltac:(lia)).
  pose proof (Z.mod_pos_bound x base ltac:(lia)). unfold worth in *.
  destruct (Z.eqb_spec (x / base) 0) as [E|E]; cbn [foldr]; rewrite Hval by done; [nia|].
  rewrite IH; [lia|]. split; [apply Z.div_pos; lia|]. apply Z.div_lt_upper_bound; lia.
Qed.

(** No leading zero, except for zero itself. *)
Lemma digit_loop_last fuel x : 0 <= x < base ^ Z.of_nat fuel -> (0 < fuel)%nat -> x <> 0 ->
  exists d, last (digit_loop digits fuel x base) = Some d /\ val d <> 0.
Proof.
  revert x. induction fuel as [|fuel IH]; intros x Hx Hf Hx0; [lia|]. cbn [digit_loop].
  rewrite Nat2Z.inj_succ, Z.pow_succ_r in Hx by lia. pose proof (Z.div_mod x base ltac:(lia)).
  pose proof (Z.mod_pos_bound x base ltac:(lia)).
  destruct (Z.eqb_spec (x / base) 0) as [E|E].
  { eexists. split; [done|]. rewrite Hval by done. nia. }
  assert (Hd : 0 <= x / base < base ^ Z.of_nat fuel) by (split; [apply Z.div_pos|apply Z.div_lt_upper_bound]; lia).
  destruct fuel as [|fuel]; [cbn in Hd; lia|]. destruct (IH (x / base) Hd ltac:(lia) E) as (d & Hl & Hv).
  exists d. split; [|done]. by rewrite last_cons, Hl.
Qed.

Lemma digit_loop_digits fuel x d : 0 <= x -> d ∈ digit_loop digits fuel x base ->
  exists i, 0 <= i < base /\ d = nth (Z.to_nat i) digits 0.
Proof.
  revert x. induction fuel as [|fuel IH]; intros x Hx; cbn [digit_loop]; [by intros ?%elem_of_nil|].
  pose proof (Z.mod_pos_bound x base ltac:(lia)).
  destruct (x / base =? 0).
  - intros ->%list_elem_of_singleton. by exists (x mod base).
  - intros [->|Hd]%elem_of_cons; [by exists (x mod base)|]. apply (IH (x / base)); [apply Z.div_pos; lia|done].
Qed.

End digits.
