(* ===== verification/Ring.v ===== *)
(** * Rings of bytes with free-running counters

    pipe.c and console.c keep a queue in an array of [N] bytes indexed by
    32-bit counters that only grow and wrap around.  [N] divides 2^32, so
    the slot of a counter does not notice the wrap. *)

From stdpp Require Import base numbers list.
From S2P Require Import Prelude.

Local Open Scope Z_scope.

Section ring.
Variable N : Z.

Definition slot (x : Z) : nat := Z.to_nat (x mod N).

(** The [n] bytes from counter [from] on. *)
Fixpoint ring (d : bytes) (from : Z) (n : nat) : bytes :=
  match n with
  | O => []
  | S n => nth_byte d (slot from) :: ring d (from + 1) n
  end.

Hypothesis HN : 0 < N.
Hypothesis Hdiv : (N | 4294967296).

Lemma slot_lt x : (slot x < Z.to_nat N)%nat.
Proof. unfold slot. pose proof (Z.mod_pos_bound x N). lia. Qed.

Lemma slot_u32 x : slot (u32 x) = slot x.
Proof. unfold slot, u32. f_equal. by apply Z.mod_mod_divide. Qed.

Lemma slot_u32_add x y : slot (u32 x + y) = slot (x + y).
Proof.
  rewrite <- (slot_u32 (x + y)), <- (slot_u32 (u32 x + y)). f_equal.
  unfold u32. by rewrite Z.add_mod_idemp_l.
Qed.

Lemma ring_ext d x y n : (forall k, slot (x + k) = slot (y + k)) -> ring d x n = ring d y n.
Proof.
  revert x y. induction n as [|n IH]; intros x y Hxy; cbn; [done|].
  pose proof (Hxy 0) as H0. rewrite !Z.add_0_r in H0. rewrite H0. f_equal. apply IH. intros k.
  specialize (Hxy (1 + k)). by rewrite !Z.add_assoc in Hxy.
Qed.

Lemma ring_u32 d x n : ring d (u32 x) n = ring d x n.
Proof. apply ring_ext. intros k. apply slot_u32_add. Qed.

Lemma ring_u32_add d x y n : ring d (u32 x + y) n = ring d (x + y) n.
Proof. apply ring_ext. intros k. rewrite <- !Z.add_assoc. apply slot_u32_add. Qed.

Lemma length_ring d x n : length (ring d x n) = n.
Proof. revert x; induction n as [|n IH]; intros x; cbn; [done|]. by rewrite IH. Qed.

Lemma ring_app d x n k : ring d x (n + k) = ring d x n ++ ring d (x + Z.of_nat n) k.
Proof.
  revert x. induction n as [|n IH]; intros x; cbn [ring app Nat.add].
  - f_equal. lia.
  - rewrite IH. do 3 f_equal. lia.
Qed.

Lemma ring_snoc d x n : ring d x (S n) = ring d x n ++ [nth_byte d (slot (x + Z.of_nat n))].
Proof. rewrite <- Nat.add_1_r, ring_app. done. Qed.

(** Writing a slot outside the used part. *)
Lemma ring_insert d x n y b :
  Z.of_nat n <= y - x < N -> ring (<[slot y := b]> d) x n = ring d x n.
Proof.
  revert x; induction n as [|n IH]; intros x Hn; cbn; [done|]. rewrite IH by lia. f_equal.
  unfold nth_byte. rewrite list_lookup_insert_ne; [done|].
  unfold slot. pose proof (Z.mod_pos_bound x N). pose proof (Z.mod_pos_bound y N).
  intros E. apply Z2Nat.inj in E; [|lia..]. assert (Hz : (y - x) mod N = 0).
  { rewrite Zminus_mod, E, Z.sub_diag. by apply Z.mod_0_l; lia. }
  rewrite Z.mod_small in Hz by lia. lia.
Qed.

End ring.
