(* ===== verification/Pipe.v ===== *)
(** * pipe.c

    A pipe is a ring of PIPESIZE bytes with free-running 32-bit counters.
    pipewrite and piperead run under the pipe's lock between two sleeps;
    each such run is a computation of the kernel monad, and a process that
    sleeps keeps its position.  [Sys] interleaves any number of readers
    and writers: the bytes come out in the order they went in, across the
    wrap-around of the counters, and a process sleeps only while it has to. *)

From stdpp Require Import base numbers strings gmap list.
From S2P Require Import Prelude Kmonad Ring.

Local Open Scope Z_scope.

Definition PIPESIZE : Z := 512.

Record pipe : Type := mkpipe {
  pdata : bytes;        (* char data[PIPESIZE] *)
  nread : Z;            (* number of bytes read *)
  nwrite : Z;           (* number of bytes written *)
  readopen : bool;
  writeopen : bool
}.

(** The fields pipealloc sets; the page's data bytes are what kalloc gave. *)
Definition pipe_init (page : bytes) : pipe := mkpipe page 0 0 true true.

Section pipe.
(** The address of the pipe names its lock and its two channels. *)
Variable pa : Z.

Definition pipeclose (writable : bool) : K pipe bool :=
  acquire (L_pipe pa);;
  (if writable then
     modify (fun p => mkpipe (pdata p) (nread p) (nwrite p) (readopen p) false);;
     wakeup (C_nread pa)
   else
     modify (fun p => mkpipe (pdata p) (nread p) (nwrite p) false (writeopen p));;
     wakeup (C_nwrite pa));;
  p ← get;
  release (L_pipe pa);;
  (* true: the caller goes on with kfree(p) *)
  mret (negb (readopen p) && negb (writeopen p)).

(** [p->data[p->nwrite++ % PIPESIZE] = b] *)
Definition put_byte (b : Z) (p : pipe) : pipe :=
  mkpipe (<[Z.to_nat (nwrite p mod PIPESIZE) := b]> (pdata p)) (nread p) (u32 (nwrite p + 1))
    (readopen p) (writeopen p).

Definition full (p : pipe) : bool := nwrite p =? u32 (nread p + PIPESIZE).

(** The loop of pipewrite with [todo] still to write, up to its end or to
    the next sleep on &p->nwrite ([inl] with what is left; sleep releases
    the lock). *)
Fixpoint pipewrite_loop (killed : bool) (n : Z) (todo : bytes) : K pipe (bytes + Z) :=
  match todo with
  | [] => wakeup (C_nread pa);; release (L_pipe pa);; mret (inr n)
  | b :: rest =>
      p ← get;
      if full p then
        if negb (readopen p) || killed then release (L_pipe pa);; mret (inr (-1))
        else wakeup (C_nread pa);; release (L_pipe pa);; mret (inl todo)
      else modify (put_byte b);; pipewrite_loop killed n rest
  end.

(** The first run of pipewrite(p, addr, n) has [todo] the n bytes at addr;
    a woken writer runs it again with what is left. *)
Definition pipewrite (killed : bool) (n : Z) (todo : bytes) : K pipe (bytes + Z) :=
  acquire (L_pipe pa);; pipewrite_loop killed n todo.

(** [p->nread++], with the byte read. *)
Definition get_byte (p : pipe) : Z * pipe :=
  (nth_byte (pdata p) (Z.to_nat (nread p mod PIPESIZE)),
   mkpipe (pdata p) (u32 (nread p + 1)) (nwrite p) (readopen p) (writeopen p)).

Fixpoint piperead_loop (n : nat) : K pipe bytes :=
  match n with
  | O => mret []
  | S n =>
      p ← get;
      if nread p =? nwrite p then mret []
      else
        let (b, p') := get_byte p in
        modify (fun _ => p');;
        rest ← piperead_loop n;
        mret (b :: rest)
  end.

(** A run of piperead: [inl tt] when it sleeps on &p->nread, else the
    return value and the bytes stored at addr. *)
Definition piperead (killed : bool) (n : Z) : K pipe (unit + Z * bytes) :=
  acquire (L_pipe pa);;
  p ← get;
  if (nread p =? nwrite p) && writeopen p then
    if killed then release (L_pipe pa);; mret (inr (-1, []))
    else release (L_pipe pa);; mret (inl tt)
  else
    bs ← piperead_loop (Z.to_nat n);
    wakeup (C_nwrite pa);;
    release (L_pipe pa);;
    mret (inr (Z.of_nat (length bs), bs)).

End pipe.

(** ** The queue a pipe holds *)

Definition count (p : pipe) : Z := u32 (nwrite p - nread p).

Notation slot := (Ring.slot PIPESIZE).
Notation ring := (Ring.ring PIPESIZE).

Definition contents (p : pipe) : bytes := ring (pdata p) (nread p) (Z.to_nat (count p)).

Record pipe_ok (p : pipe) : Prop := {
  ok_data : length (pdata p) = 512%nat;
  ok_nread : in_u32 (nread p);
  ok_nwrite : in_u32 (nwrite p);
  ok_count : count p <= PIPESIZE
}.

Lemma PIPESIZE_div : (PIPESIZE | 4294967296).
Proof. by exists 8388608. Qed.

Lemma full_iff p : pipe_ok p -> full p = true <-> count p = PIPESIZE.
Proof.
  intros [Hd Hr Hw Hc]. unfold full, count, PIPESIZE, u32, in_u32 in *. rewrite Z.eqb_eq.
  Z.div_mod_to_equations. lia.
Qed.

Lemma empty_iff p : pipe_ok p -> nread p = nwrite p <-> count p = 0.
Proof.
  intros [Hd Hr Hw Hc]. unfold count, u32, in_u32 in *. Z.div_mod_to_equations. lia.
Qed.

Lemma put_byte_ok b p : pipe_ok p -> full p = false ->
  pipe_ok (put_byte b p) /\ contents (put_byte b p) = contents p ++ [b].
Proof.
  intros Hok Hf. assert (Hlt : count p < PIPESIZE).
  { assert (count p <> PIPESIZE) by (rewrite <- (full_iff p Hok); congruence).
    pose proof (ok_count p Hok). lia. }
  destruct Hok as [Hd Hr Hw _]. assert (Hcnt : count (put_byte b p) = count p + 1).
  { unfold count, put_byte, u32, PIPESIZE, in_u32 in *. cbn. Z.div_mod_to_equations. lia. }
  split.
  - split; cbn; [by rewrite length_insert|done|apply u32_bound|lia].
  - pose proof (u32_bound (nwrite p - nread p)) as Hcb. fold (count p) in Hcb. unfold in_u32 in Hcb.
    unfold contents. rewrite Hcnt. replace (Z.to_nat (count p + 1)) with (S (Z.to_nat (count p))) by lia.
    rewrite ring_snoc. cbn [put_byte pdata nread].
    assert (Hs : slot (nwrite p) = slot (nread p + count p)).
    { unfold count. rewrite Z.add_comm, (slot_u32_add _ PIPESIZE_div). f_equal. lia. }
    rewrite Z2Nat.id by lia. fold (slot (nwrite p)). rewrite Hs.
    rewrite ring_insert by (unfold PIPESIZE in *; lia). f_equal.
    unfold nth_byte. rewrite list_lookup_insert_eq; [done|]. rewrite Hd. by apply (slot_lt PIPESIZE).
Qed.

Lemma get_byte_ok p : pipe_ok p -> nread p <> nwrite p ->
  pipe_ok (snd (get_byte p)) /\ contents p = fst (get_byte p) :: contents (snd (get_byte p)).
Proof.
  intros Hok Hne. assert (Hpos : count p <> 0) by (by rewrite <- (empty_iff p Hok)).
  destruct Hok as [Hd Hr Hw Hc]. pose proof (u32_bound (nwrite p - nread p)) as Hcb.
  fold (count p) in Hcb. unfold in_u32 in Hcb.
  assert (Hcnt : count (snd (get_byte p)) = count p - 1).
  { unfold count, get_byte, u32, PIPESIZE, in_u32 in *. cbn. Z.div_mod_to_equations. lia. }
  split.
  - split; cbn; [done|apply u32_bound|done|cbn in Hcnt; lia].
  - unfold contents at 1. replace (Z.to_nat (count p)) with (S (Z.to_nat (count p - 1))) by lia.
    cbn [Ring.ring]. unfold contents. rewrite Hcnt. cbn. by rewrite (ring_u32 _ PIPESIZE_div).
Qed.

Lemma length_contents p : length (contents p) = Z.to_nat (count p).
Proof. apply length_ring. Qed.

Lemma contents_nil p : pipe_ok p -> contents p = [] <-> nread p = nwrite p.
Proof.
  intros Hok. rewrite (empty_iff p Hok). pose proof (length_contents p) as Hl.
  pose proof (u32_bound (nwrite p - nread p)) as Hcb. fold (count p) in Hcb. unfold in_u32 in Hcb.
  split; [intros E; rewrite E in Hl; cbn in Hl; lia|]. intros E. apply nil_length_inv. rewrite Hl. lia.
Qed.

(** ** What a run of pipewrite and of piperead does *)

(** The bytes accepted are a prefix [acc] of the bytes to write; they are
    appended to the queue. *)
Definition wrote (pa : Z) (killed : bool) (n : Z) (todo : bytes) (p : pipe) (c : ctx)
    (r : bytes + Z) (p' : pipe) (c' : ctx) : Prop :=
  pipe_ok p' /\ held c' = held c /\ readopen p' = readopen p /\ writeopen p' = writeopen p /\
  exists acc rest, todo = acc ++ rest /\ contents p' = contents p ++ acc /\
  match r with
  | inl t => t = rest /\ t <> [] /\ full p' = true /\ readopen p = true /\ killed = false /\
      woken c' = woken c ++ [C_nread pa]
  | inr v =>
      (rest = [] /\ v = n /\ woken c' = woken c ++ [C_nread pa]) \/
      (rest <> [] /\ v = -1 /\ full p' = true /\ (readopen p = false \/ killed = true) /\
        woken c' = woken c)
  end.

Lemma pipewrite_loop_run pa killed n todo p h w pid :
  pipe_ok p ->
  wp (pipewrite_loop pa killed n todo) (wrote pa killed n todo p (mkctx h w pid)) p
    (mkctx (L_pipe pa :: h) w pid).
Proof.
  revert p. induction todo as [|b rest IH]; intros p Hok; cbn [pipewrite_loop].
  - ksteps. split; [done|]. split; [done|]. split; [done|]. split; [done|].
    exists [], []. rewrite !app_nil_r. split; [done|]. split; [done|]. by left.
  - ksteps. destruct (full p) eqn:Ef; [destruct (negb (readopen p) || killed) eqn:Ek|].
    + ksteps. repeat (split; [done|]). exists [], (b :: rest). rewrite app_nil_r.
      split; [done|]. split; [done|]. right. repeat (split; [done|]). split; [|done].
      apply orb_true_iff in Ek as [Ek|Ek]; [left|by right]. by apply negb_true_iff.
    + apply orb_false_iff in Ek as [Ek1 Ek2]. apply negb_false_iff in Ek1.
      ksteps. repeat (split; [done|]). exists [], (b :: rest). by rewrite app_nil_r.
    + ksteps. destruct (put_byte_ok b p Hok Ef) as [Hok' Hc].
      eapply wp_mono; [by apply IH|]. intros r p' c' (H1 & H2 & H3 & H4 & acc & rest' & E1 & E2 & Hr).
      do 4 (split; [done|]). exists (b :: acc), rest'. rewrite E1, E2, Hc, <- app_assoc. done.
Qed.

Lemma pipewrite_run pa killed n todo p c :
  pipe_ok p -> L_pipe pa ∉ held c ->
  wp (pipewrite pa killed n todo) (wrote pa killed n todo p c) p c.
Proof.
  intros Hok Hl. destruct c as [h w pid]. unfold pipewrite. kstep. kstep. by apply pipewrite_loop_run.
Qed.

Lemma piperead_loop_run n p c :
  pipe_ok p ->
  wp (piperead_loop n) (fun bs p' c' => c' = c /\ pipe_ok p' /\ contents p = bs ++ contents p' /\
    length bs = (n `min` length (contents p))%nat /\
    readopen p' = readopen p /\ writeopen p' = writeopen p) p c.
Proof.
  revert p. induction n as [|n IH]; intros p Hok; cbn [piperead_loop]; ksteps; [done|].
  destruct (Z.eqb_spec (nread p) (nwrite p)) as [E|E].
  - ksteps. rewrite (proj2 (contents_nil p Hok) E). done.
  - destruct (get_byte_ok p Hok E) as [Hok' Hc]. destruct (get_byte p) as [b p1] eqn:Eg.
    cbn [fst snd] in *. ksteps. eapply wp_mono; [by apply IH|].
    intros bs p' c' (-> & H1 & H2 & H3 & H4 & H5). ksteps. split; [done|]. split; [done|].
    rewrite Hc, H2. split; [done|]. split; [cbn; rewrite H3, H2; done|].
    injection Eg as <- <-. done.
Qed.

(** The bytes read are the oldest of the queue, [n] of them or all. *)
Definition did_read (pa : Z) (killed : bool) (n : Z) (p : pipe) (c : ctx)
    (r : unit + Z * bytes) (p' : pipe) (c' : ctx) : Prop :=
  pipe_ok p' /\ held c' = held c /\ readopen p' = readopen p /\ writeopen p' = writeopen p /\
  match r with
  | inl _ => p' = p /\ contents p = [] /\ writeopen p = true /\ killed = false /\
      woken c' = woken c
  | inr (v, bs) =>
      (v = -1 /\ bs = [] /\ p' = p /\ contents p = [] /\ writeopen p = true /\ killed = true /\
        woken c' = woken c) \/
      (v = Z.of_nat (length bs) /\ contents p = bs ++ contents p' /\
        length bs = (Z.to_nat n `min` length (contents p))%nat /\
        (contents p <> [] \/ writeopen p = false) /\
        woken c' = woken c ++ [C_nwrite pa])
  end.

Lemma piperead_run pa killed n p c :
  pipe_ok p -> L_pipe pa ∉ held c ->
  wp (piperead pa killed n) (did_read pa killed n p c) p c.
Proof.
  intros Hok Hl. destruct c as [h w pid]. unfold piperead. do 4 kstep.
  pose proof (contents_nil p Hok) as Hnil.
  destruct ((nread p =? nwrite p) && writeopen p) eqn:Ec; [apply andb_true_iff in Ec as [Ee Ew];
    apply Z.eqb_eq in Ee; destruct killed|].
  - ksteps. repeat (split; [done|]). left. by rewrite Hnil.
  - ksteps. repeat (split; [done|]). by rewrite Hnil.
  - ksteps. eapply wp_mono; [by apply piperead_loop_run|].
    intros bs p' c' (-> & H1 & H2 & H3 & H4 & H5). ksteps. repeat (split; [done|]). right.
    split; [done|]. split; [done|]. split; [done|]. split; [|done].
    apply andb_false_iff in Ec as [Ec|Ec]; [left|by right]. rewrite Hnil. by apply Z.eqb_neq.
Qed.

(** ** Readers and writers together *)

Module Sys.

(** A process with respect to the pipe: between calls, about to run with
    the lock, or asleep on a channel of the pipe. *)
Inductive thread : Type :=
| Idle
| Reading (n : Z)
| ReadSleep (n : Z)
| Writing (n : Z) (todo : bytes)
| WriteSleep (n : Z) (todo : bytes).

Definition wake_on (pa : Z) (t : thread) (ch : chan) : thread :=
  match t with
  | ReadSleep n => if decide (ch = C_nread pa) then Reading n else t
  | WriteSleep n todo => if decide (ch = C_nwrite pa) then Writing n todo else t
  | _ => t
  end.

Definition wake_all (pa : Z) (chs : list chan) (ts : list thread) : list thread :=
  (fun t => foldl (wake_on pa) t chs) <$> ts.

Record psys : Type := mkpsys {
  pp : pipe;
  threads : list thread;
  sent : bytes;         (* every byte a writer has stored, in order *)
  received : bytes      (* every byte a reader has got, in order *)
}.

Definition after_write (n : Z) (r : bytes + Z) : thread :=
  match r with inl t => WriteSleep n t | inr _ => Idle end.

Definition after_read (n : Z) (r : unit + Z * bytes) : thread :=
  match r with inl _ => ReadSleep n | inr _ => Idle end.

Definition got (r : unit + Z * bytes) : bytes :=
  match r with inl _ => [] | inr (_, bs) => bs end.

Definition is_reader (t : thread) : Prop :=
  match t with Reading _ | ReadSleep _ => True | _ => False end.
Definition is_writer (t : thread) : Prop :=
  match t with Writing _ _ | WriteSleep _ _ => True | _ => False end.

(** [k] says whether a writer may find itself killed when the pipe is
    full.  A process inside piperead or pipewrite has that end open, so
    pipeclose of an end finds nobody inside. *)
Inductive pstep (pa : Z) (k : bool) (s : psys) : psys -> Prop :=
| st_call i t :
    threads s !! i = Some Idle -> (is_reader t \/ is_writer t) ->
    (forall n, t <> ReadSleep n) -> (forall n l, t <> WriteSleep n l) ->
    (is_reader t -> readopen (pp s) = true) -> (is_writer t -> writeopen (pp s) = true) ->
    pstep pa k s (mkpsys (pp s) (<[i := t]> (threads s)) (sent s) (received s))
| st_write i killed n todo r p' c c' :
    threads s !! i = Some (Writing n todo) -> (killed = true -> k = true) ->
    held c = [] -> woken c = [] ->
    pipewrite pa killed n todo (pp s) c = Ret r p' c' ->
    pstep pa k s (mkpsys p' (wake_all pa (woken c') (<[i := after_write n r]> (threads s)))
      (sent s ++ take (Z.to_nat (u32 (nwrite p' - nwrite (pp s)))) todo) (received s))
| st_read i killed n r p' c c' :
    threads s !! i = Some (Reading n) -> held c = [] -> woken c = [] ->
    piperead pa killed n (pp s) c = Ret r p' c' ->
    pstep pa k s (mkpsys p' (wake_all pa (woken c') (<[i := after_read n r]> (threads s)))
      (sent s) (received s ++ got r))
| st_close (writable freed : bool) p' c c' :
    (forall i t, threads s !! i = Some t -> ~ (if writable then is_writer t else is_reader t)) ->
    held c = [] -> woken c = [] ->
    pipeclose pa writable (pp s) c = Ret freed p' c' ->
    pstep pa k s (mkpsys p' (wake_all pa (woken c') (threads s)) (sent s) (received s))
| st_kill i t ch :      (* kill() makes a sleeper runnable *)
    threads s !! i = Some t ->
    pstep pa k s (mkpsys (pp s) (<[i := wake_on pa t ch]> (threads s)) (sent s) (received s)).

Inductive preach (pa : Z) (k : bool) (s0 : psys) : psys -> Prop :=
| pr_refl : preach pa k s0 s0
| pr_step s s' : preach pa k s0 s -> pstep pa k s s' -> preach pa k s0 s'.

(** A new pipe and processes that have not used it. *)
Definition initial (s : psys) : Prop :=
  (exists d, length d = 512%nat /\ pp s = pipe_init d) /\
  Forall (eq Idle) (threads s) /\ sent s = [] /\ received s = [].

Definition fifo (s : psys) : Prop :=
  pipe_ok (pp s) /\ sent s = received s ++ contents (pp s).

(** A process inside a call has its end open; a reader sleeps only on an
    empty pipe that can still be written, a writer only on a full one that
    can still be read. *)
Definition thread_ok (p : pipe) (t : thread) : Prop :=
  match t with
  | Idle => True
  | Reading _ => readopen p = true
  | ReadSleep _ => readopen p = true /\ contents p = [] /\ writeopen p = true
  | Writing _ _ => writeopen p = true
  | WriteSleep _ _ => writeopen p = true /\ full p = true /\ readopen p = true
  end.

(** How far the write counter moved is how many bytes were stored. *)
Lemma stored_prefix p p' acc rest :
  pipe_ok p -> pipe_ok p' -> nread p' = nread p -> contents p' = contents p ++ acc ->
  take (Z.to_nat (u32 (nwrite p' - nwrite p))) (acc ++ rest) = acc.
Proof.
  intros [_ Hr Hw Hc] [_ Hr' Hw' Hc'] En E.
  assert (Hl : length (contents p') = (length (contents p) + length acc)%nat)
    by (rewrite E, length_app; done).
  rewrite !length_contents in Hl. replace (Z.to_nat _) with (length acc); [apply take_app_length|].
  unfold count, u32, in_u32, PIPESIZE in *. rewrite En in *. Z.div_mod_to_equations. lia.
Qed.

Lemma pipewrite_nread pa killed n todo p c r p' c' :
  pipewrite pa killed n todo p c = Ret r p' c' -> nread p' = nread p.
Proof.
  assert (Hp : preserves (fun q => nread q = nread p) (pipewrite pa killed n todo)).
  { unfold pipewrite. apply preserves_bind; [apply preserves_acquire|]. intros _.
    induction todo as [|b rest IH]; cbn [pipewrite_loop]; preserve; try done.
    by apply preserves_modify. }
  intros Hr. eapply (wlp_inv _ (fun _ q _ => nread q = nread p)); [by apply Hp|exact Hr].
Qed.

Lemma pipeclose_run pa w p c :
  L_pipe pa ∉ held c ->
  wp (pipeclose pa w) (fun _ p' c' => pdata p' = pdata p /\ nread p' = nread p /\
    nwrite p' = nwrite p /\
    (if w then writeopen p' = false /\ readopen p' = readopen p
     else readopen p' = false /\ writeopen p' = writeopen p) /\
    woken c' = woken c ++ [if w then C_nread pa else C_nwrite pa]) p c.
Proof.
  intros Hl. destruct c as [h wk pid]. unfold pipeclose. do 2 kstep. kstep. destruct w; by ksteps.
Qed.

Lemma same_queue p p' :
  pdata p' = pdata p -> nread p' = nread p -> nwrite p' = nwrite p -> pipe_ok p ->
  pipe_ok p' /\ contents p' = contents p /\ full p' = full p.
Proof.
  destruct p, p'; cbn. intros -> -> -> Hok. split; [|done]. by destruct Hok.
Qed.

Lemma pstep_fifo pa k s s' : fifo s -> pstep pa k s s' -> fifo s'.
Proof.
  intros [Hok Hq] Hstep. destruct Hstep; unfold fifo; cbn.
  - done.
  - pose proof (pipewrite_nread _ _ _ _ _ _ _ _ _ H3) as Hn.
    eapply wp_run in H3; [|apply pipewrite_run; [done|by rewrite H1; set_solver]].
    destruct H3 as (Hok' & _ & _ & _ & acc & rest & -> & Hc & _). split; [done|].
    rewrite (stored_prefix (pp s) p' acc rest) by done. by rewrite Hq, Hc, app_assoc.
  - eapply wp_run in H2; [|apply piperead_run; [done|by rewrite H0; set_solver]].
    destruct H2 as (Hok' & _ & _ & _ & Hr). split; [done|]. rewrite Hq.
    destruct r as [[]|[v bs]]; cbn.
    + destruct Hr as (-> & _). by rewrite app_nil_r.
    + destruct Hr as [(_ & -> & -> & _)|(_ & -> & _)]; by rewrite ?app_nil_r, ?app_assoc.
  - eapply wp_run in H2; [|apply pipeclose_run; by rewrite H0; set_solver].
    destruct H2 as (E1 & E2 & E3 & _). destruct (same_queue _ _ E1 E2 E3 Hok) as (H2 & -> & _). done.
  - done.
Qed.

Lemma preach_fifo pa k s0 s : initial s0 -> preach pa k s0 s -> fifo s.
Proof.
  intros ((d & Hd & Hp) & _ & Hs & Hr) Hreach. induction Hreach as [|s s' _ IH Hstep].
  - split; [rewrite Hp; by split|]. by rewrite Hs, Hr, Hp.
  - by eapply pstep_fifo.
Qed.

(** C4. A pipe is a FIFO queue: over all interleavings of readers, writers,
    closes and kills, the bytes received so far are a prefix of the bytes
    sent, in the same order, and what is missing is exactly the queue the
    ring holds, at most PIPESIZE bytes; this includes the wrap-around of
    the 32-bit counters. *)
Theorem pipe_fifo pa k s0 s :
  initial s0 -> preach pa k s0 s ->
  sent s = received s ++ contents (pp s) /\ (length (contents (pp s)) <= 512)%nat.
Proof.
  intros Hi Hr. destruct (preach_fifo pa k s0 s Hi Hr) as [[_ _ _ Hc] Hq].
  split; [done|]. rewrite length_contents. unfold PIPESIZE in Hc. lia.
Qed.

(** *** Sleepers *)

Lemma wake_on_ok pa p t ch : thread_ok p t -> thread_ok p (wake_on pa t ch).
Proof. destruct t; cbn; try done; case_decide; cbn; tauto. Qed.

Definition sleepers_ok (s : psys) : Prop := Forall (thread_ok (pp s)) (threads s).

(** A wakeup of one channel: the sleepers on it need not be all right
    before, the others stay as they are. *)
Definition woken_ok (p : pipe) (ch : chan) (pa : Z) (t : thread) : Prop :=
  thread_ok p (wake_on pa t ch).

Lemma Forall_wake_one pa ch p ts :
  Forall (woken_ok p ch pa) ts -> Forall (thread_ok p) (wake_all pa [ch] ts).
Proof. intros H. by apply Forall_fmap. Qed.

Lemma Forall_wake_none pa p ts : Forall (thread_ok p) ts -> Forall (thread_ok p) (wake_all pa [] ts).
Proof. intros H. by apply Forall_fmap. Qed.

(** A full pipe stays full while bytes are only added. *)
Lemma full_app p p' acc :
  pipe_ok p -> pipe_ok p' -> contents p' = contents p ++ acc -> full p = true -> full p' = true.
Proof.
  intros Hok Hok' E Hf. rewrite (full_iff p Hok) in Hf. rewrite (full_iff p' Hok').
  assert (Hl : length (contents p') = (length (contents p) + length acc)%nat)
    by (rewrite E, length_app; done).
  rewrite !length_contents in Hl. pose proof (ok_count p' Hok').
  pose proof (u32_bound (nwrite p' - nread p')) as Hcb. fold (count p') in Hcb.
  unfold in_u32, PIPESIZE in *. lia.
Qed.

Lemma write_sleepers pa n todo s i r p' c c' :
  fifo s -> sleepers_ok s -> held c = [] -> woken c = [] -> writeopen (pp s) = true ->
  pipewrite pa false n todo (pp s) c = Ret r p' c' ->
  Forall (thread_ok p') (wake_all pa (woken c') (<[i := after_write n r]> (threads s))).
Proof.
  intros [Hok _] Hs Hh Hw Hwo Hrun.
  eapply wp_run in Hrun; [|apply pipewrite_run; [done|by rewrite Hh; set_solver]].
  destruct Hrun as (Hok' & _ & Hro & Hwo' & acc & rest & -> & Hc & Hr).
  assert (Ht : forall t, thread_ok (pp s) t -> woken_ok p' (C_nread pa) pa t).
  { intros t. unfold woken_ok. destruct t; cbn; try (rewrite decide_True by done); cbn;
      rewrite ?Hro, ?Hwo'; try tauto.
    rewrite decide_False by done. cbn. rewrite Hro, Hwo'.
    intros (? & ? & ?). repeat split; [done| |done]. by apply (full_app (pp s) p' acc). }
  assert (Hs' : Forall (woken_ok p' (C_nread pa) pa) (threads s)).
  { eapply Forall_impl; [exact Hs|exact Ht]. }
  destruct r as [t|v].
  - destruct Hr as (-> & Hne & Hf & Hr' & _ & ->). rewrite Hw. apply Forall_wake_one.
    apply Forall_insert; [done|]. unfold woken_ok. cbn. rewrite decide_False by done. cbn.
    by rewrite Hro, Hwo'.
  - destruct Hr as [(-> & -> & ->)|(Hne & -> & Hf & [Hr'|?] & ->)]; [..|done]; rewrite Hw.
    + by apply Forall_wake_one, Forall_insert.
    + apply Forall_wake_none, Forall_insert; [|done]. eapply Forall_impl; [exact Hs|].
      intros t. destruct t; cbn; rewrite ?Hro, ?Hwo'; try done; intros (? & ? & ?); congruence.
Qed.

Lemma read_sleepers pa killed n s i r p' c c' :
  fifo s -> sleepers_ok s -> held c = [] -> woken c = [] -> readopen (pp s) = true ->
  piperead pa killed n (pp s) c = Ret r p' c' ->
  Forall (thread_ok p') (wake_all pa (woken c') (<[i := after_read n r]> (threads s))).
Proof.
  intros [Hok _] Hs Hh Hw Hro Hrun.
  eapply wp_run in Hrun; [|apply piperead_run; [done|by rewrite Hh; set_solver]].
  destruct Hrun as (Hok' & _ & Hro' & Hwo' & Hr). destruct r as [[]|[v bs]].
  - destruct Hr as (-> & He & Hwo & _ & ->). rewrite Hw. by apply Forall_wake_none, Forall_insert.
  - destruct Hr as [(-> & -> & -> & _ & _ & _ & ->)|(-> & Hc & _ & _ & ->)]; rewrite Hw.
    + by apply Forall_wake_none, Forall_insert.
    + apply Forall_wake_one, Forall_insert; [|done]. eapply Forall_impl; [exact Hs|].
      intros t. unfold woken_ok. destruct t; cbn; try (rewrite decide_True by done); cbn;
        rewrite ?Hro', ?Hwo'; try tauto.
      rewrite decide_False by done. cbn. rewrite Hro', Hwo'. intros (? & He & ?). repeat split; [done| |done]. rewrite He in Hc.
      by apply eq_sym, app_nil in Hc as [_ ?].
Qed.

Lemma close_sleepers pa (w : bool) s (freed : bool) p' c c' :
  fifo s -> sleepers_ok s -> held c = [] -> woken c = [] ->
  (forall i t, threads s !! i = Some t -> ~ (if w then is_writer t else is_reader t)) ->
  pipeclose pa w (pp s) c = Ret freed p' c' ->
  Forall (thread_ok p') (wake_all pa (woken c') (threads s)).
Proof.
  intros [Hok _] Hs Hh Hw Hno Hrun.
  eapply wp_run in Hrun; [|apply pipeclose_run; by rewrite Hh; set_solver].
  destruct Hrun as (E1 & E2 & E3 & Ho & ->). rewrite Hw.
  destruct (same_queue _ _ E1 E2 E3 Hok) as (_ & Hc & Hf).
  apply Forall_wake_one, Forall_lookup_2. intros i t Hi. specialize (Hno i t Hi).
  apply (Forall_lookup_1 _ _ _ _ Hs) in Hi. unfold woken_ok.
  destruct w, Ho as [Ho1 Ho2], t; cbn in *; try tauto;
    repeat case_decide; cbn; rewrite ?Ho1, ?Ho2, ?Hc, ?Hf; try tauto; done.
Qed.

Lemma pstep_sleepers pa s s' : fifo s -> sleepers_ok s -> pstep pa false s s' -> sleepers_ok s'.
Proof.
  intros Hq Hs Hstep. destruct Hstep; unfold sleepers_ok; cbn.
  - apply Forall_insert; [done|]. destruct t; cbn in *; try tauto; [by destruct (H1 n)|].
    by destruct (H2 n todo).
  - destruct killed; [by specialize (H0 eq_refl)|]. eapply write_sleepers; try done.
    by apply (Forall_lookup_1 _ _ _ _ Hs) in H.
  - eapply read_sleepers; try done. by apply (Forall_lookup_1 _ _ _ _ Hs) in H.
  - by eapply close_sleepers.
  - apply Forall_insert; [done|]. apply wake_on_ok. by apply (Forall_lookup_1 _ _ _ _ Hs) in H.
Qed.

(** C31. No lost wakeup: as long as no writer is killed while the pipe is
    full, a process sleeps in piperead only while the pipe is empty and its
    write end open, and in pipewrite only while the pipe is full and its
    read end open, whatever the interleaving. *)
Theorem pipe_no_lost_wakeup pa s0 s i t :
  initial s0 -> preach pa false s0 s -> threads s !! i = Some t ->
  match t with
  | ReadSleep _ => contents (pp s) = [] /\ writeopen (pp s) = true
  | WriteSleep _ _ => length (contents (pp s)) = 512%nat /\ readopen (pp s) = true
  | _ => True
  end.
Proof.
  intros Hi Hr. assert (Hs : sleepers_ok s).
  { pose proof Hi as (_ & Hidle & _). induction Hr as [|s s' Hr IH Hstep].
    - eapply Forall_impl; [exact Hidle|]. by intros x <-.
    - eapply pstep_sleepers; [by eapply preach_fifo|exact IH|done]. }
  intros Ht. destruct (preach_fifo _ _ _ _ Hi Hr) as [Hok _].
  apply (Forall_lookup_1 _ _ _ _ Hs) in Ht. destruct t; cbn in *; try done; [tauto|].
  destruct Ht as (_ & Hf & ?). split; [|done]. rewrite length_contents.
  apply (full_iff _ Hok) in Hf. rewrite Hf. done.
Qed.

(** *** Concrete runs *)

Definition c0 : ctx := mkctx [] [] 0.

Definition write_turn (killed : bool) (i : nat) (n : Z) (todo : bytes) (s : psys) : psys :=
  match pipewrite 0 killed n todo (pp s) c0 with
  | Ret r p' c' =>
      mkpsys p' (wake_all 0 (woken c') (<[i := after_write n r]> (threads s)))
        (sent s ++ take (Z.to_nat (u32 (nwrite p' - nwrite (pp s)))) todo) (received s)
  | _ => s
  end.

Definition read_turn (killed : bool) (i : nat) (n : Z) (s : psys) : psys :=
  match piperead 0 killed n (pp s) c0 with
  | Ret r p' c' =>
      mkpsys p' (wake_all 0 (woken c') (<[i := after_read n r]> (threads s)))
        (sent s) (received s ++ got r)
  | _ => s
  end.

Lemma step_write k killed i n todo s :
  threads s !! i = Some (Writing n todo) -> (killed = true -> k = true) -> pipe_ok (pp s) ->
  pstep 0 k s (write_turn killed i n todo s).
Proof.
  intros Ht Hk Hok. unfold write_turn.
  destruct (wp_inv _ _ _ _ (pipewrite_run 0 killed n todo (pp s) c0 Hok ltac:(cbn; set_solver)))
    as (r & p' & c' & E & _). rewrite E. by apply (st_write 0 k s i killed n todo r p' c0 c').
Qed.

Lemma step_read k killed i n s :
  threads s !! i = Some (Reading n) -> pipe_ok (pp s) -> pstep 0 k s (read_turn killed i n s).
Proof.
  intros Ht Hok. unfold read_turn.
  destruct (wp_inv _ _ _ _ (piperead_run 0 killed n (pp s) c0 Hok ltac:(cbn; set_solver)))
    as (r & p' & c' & E & _). rewrite E. by apply (st_read 0 k s i killed n r p' c0 c').
Qed.

Definition start (i : nat) (t : thread) (s : psys) : psys :=
  mkpsys (pp s) (<[i := t]> (threads s)) (sent s) (received s).

Definition demo0 : psys := mkpsys (pipe_init (replicate 512 0)) [Idle; Idle] [] [].
Definition demo1 : psys := read_turn false 0 5 (start 0 (Reading 5) demo0).
Definition big : bytes := replicate 513 7.

Lemma demo0_initial : initial demo0.
Proof. split; [by exists (replicate 512 0)|]. split; [by repeat constructor|done]. Qed.

Lemma demo1_reach k : preach 0 k demo0 demo1.
Proof.
  eapply pr_step; [eapply pr_step; [apply pr_refl|]|].
  - apply (st_call 0 k demo0 0 (Reading 5)); cbn; auto; by intros.
  - apply step_read; [done|]. by split.
Qed.

(** Reader 0 asks for 5 bytes and sleeps; writer 1 writes [l]; reader 0
    runs again. *)
Definition demo2 (killed : bool) (n : Z) (l : bytes) : psys :=
  write_turn killed 1 n l (start 1 (Writing n l) demo1).

Lemma demo2_reach k killed n l :
  (killed = true -> k = true) -> preach 0 k demo0 (demo2 killed n l).
Proof.
  intros Hk. eapply pr_step; [eapply pr_step; [apply demo1_reach|]|].
  - apply (st_call 0 k demo1 1 (Writing n l)); cbn; auto; by intros.
  - apply step_write; [done|done|]. by split.
Qed.

(** The hypothesis on killed writers is needed: a writer that is killed
    while it fills the pipe returns without wakeup(&p->nread), and a reader
    that slept on the empty pipe goes on sleeping although 512 bytes are
    there to read. *)
Theorem pipe_killed_writer_loses_wakeup :
  exists s, preach 0 true demo0 s /\ threads s !! 0%nat = Some (ReadSleep 5) /\
    length (contents (pp s)) = 512%nat.
Proof.
  exists (demo2 true 513 big). split; [by apply demo2_reach|]. by vm_compute.
Qed.

End Sys.

Lemma pipe_fifo_witness :
  let s := Sys.read_turn false 0 5 (Sys.demo2 false 2 [7; 8]) in
  Sys.sent s = Sys.received s ++ contents (Sys.pp s) /\ Sys.received s = [7; 8].
Proof.
  split; [|by vm_compute].
  apply (Sys.pipe_fifo 0 false Sys.demo0 _ Sys.demo0_initial).
  eapply Sys.pr_step; [by apply (Sys.demo2_reach false false 2 [7; 8])|].
  apply Sys.step_read; [by vm_compute|]. by split; vm_compute.
Defined.

Lemma pipe_no_lost_wakeup_witness :
  contents (Sys.pp Sys.demo1) = [] /\ writeopen (Sys.pp Sys.demo1) = true.
Proof.
  apply (Sys.pipe_no_lost_wakeup 0 Sys.demo0 Sys.demo1 0 (Sys.ReadSleep 5) Sys.demo0_initial
    (Sys.demo1_reach false)).
  reflexivity.
Defined.
