(* ===== verification/Block.v ===== *)
(** * The interface between the buffer cache and its clients

    [BlockOps] are the operations of bio.c that log.c and fs.c call;
    [BlockLayer] is what the buffer cache promises about them.  A state is
    seen through five observations: the disk, the sequence of writes that
    reached it, the contents of the blocks as the kernel sees them (the
    cache in front of the disk), the blocks whose buffer is locked and the
    blocks whose buffer is pinned by B_DIRTY.  Bio.v discharges the laws
    for the code of bio.c and memide.c; Log.v and the file system are
    proved against them. *)

From stdpp Require Import base numbers strings gmap list.
From S2P Require Import Prelude Kmonad Mmu.

Local Open Scope Z_scope.

Definition BSIZE : Z := 512.
Definition BSIZEn : nat := 512.

(** A block is BSIZE bytes. *)
Definition wf_block (d : bytes) : Prop := length d = BSIZEn /\ Forall is_byte d.

Abbreviation blocks := (gmap Z bytes).

(** A write of a whole block to the disk. *)
Abbreviation dwrite := (Z * bytes)%type.

Definition apply_write (d : blocks) (w : dwrite) : blocks := <[w.1 := w.2]> d.
Definition apply_writes (d : blocks) (ws : list dwrite) : blocks := foldl apply_write d ws.

Class BlockOps (S : Type) : Type := {
  bread : Z -> Z -> K S nat;                (* the index of the locked buffer *)
  bwrite : nat -> K S unit;
  brelse : nat -> K S unit;
  bget_data : nat -> S -> bytes;            (* b->data *)
  bset_data : nat -> bytes -> S -> S;
  bget_blockno : nat -> S -> Z;             (* b->blockno *)
  bset_dirty : nat -> S -> S                (* b->flags |= B_DIRTY *)
}.

(** What the calling context keeps across a buffer operation. *)
Definition same_cpu (c c' : ctx) : Prop := held c' = held c /\ mypid c' = mypid c.

#[export] Instance same_cpu_preorder : PreOrder same_cpu.
Proof.
  split.
  - by intros c.
  - intros a b c [H1 H2] [H3 H4]. split; congruence.
Qed.

Class BlockLayer (S : Type) `{BlockOps S} : Type := {
  bl_inv : S -> Prop;
  bl_disk : S -> blocks;
  bl_trace : S -> list dwrite;
  bl_view : S -> blocks;
  bl_locked : S -> gset Z;
  bl_pinned : S -> gset Z;
  bl_buf : nat -> S -> option Z;            (* the block a locked buffer holds *)

  bl_view_dom s : bl_inv s -> dom (bl_view s) = dom (bl_disk s);
  bl_view_wf s b d : bl_inv s -> bl_view s !! b = Some d -> wf_block d;
  bl_disk_wf s b d : bl_inv s -> bl_disk s !! b = Some d -> wf_block d;
  (** Unlocked and not pinned, a block is what the disk has. *)
  bl_clean s b : bl_inv s -> b ∉ bl_locked s -> b ∉ bl_pinned s ->
    bl_view s !! b = bl_disk s !! b;

  (** A buffer the caller holds. *)
  bl_buf_data s i b : bl_inv s -> bl_buf i s = Some b ->
    bl_view s !! b = Some (bget_data i s) /\ bget_blockno i s = b /\ b ∈ bl_locked s;
  bl_buf_inj s i j b : bl_inv s -> bl_buf i s = Some b -> bl_buf j s = Some b -> i = j;

  bl_bread s c b :
    bl_inv s -> held c = [] -> b ∈ dom (bl_disk s) -> b ∉ bl_locked s ->
    b ∈ bl_pinned s \/ (size (bl_locked s ∪ bl_pinned s) < NBUF)%nat ->
    wp (bread 1 b) (fun i s' c' => bl_inv s' /\ same_cpu c c' /\ bl_buf i s' = Some b /\
      bl_view s' = bl_view s /\ bl_disk s' = bl_disk s /\ bl_trace s' = bl_trace s /\
      bl_locked s' = {[b]} ∪ bl_locked s /\ bl_pinned s' = bl_pinned s /\
      (forall j x, bl_buf j s = Some x -> bl_buf j s' = Some x)) s c;

  bl_bwrite s c i b :
    bl_inv s -> held c = [] -> bl_buf i s = Some b ->
    wp (bwrite i) (fun _ s' c' => bl_inv s' /\ same_cpu c c' /\
      bl_view s' = bl_view s /\ bl_disk s' = <[b := bget_data i s]> (bl_disk s) /\
      bl_trace s' = bl_trace s ++ [(b, bget_data i s)] /\
      bl_locked s' = bl_locked s /\ bl_pinned s' = bl_pinned s ∖ {[b]} /\
      (forall j, bl_buf j s' = bl_buf j s)) s c;

  bl_brelse s c i b :
    bl_inv s -> held c = [] -> bl_buf i s = Some b ->
    b ∈ bl_pinned s \/ bl_view s !! b = bl_disk s !! b ->
    wp (brelse i) (fun _ s' c' => bl_inv s' /\ same_cpu c c' /\
      bl_view s' = bl_view s /\ bl_disk s' = bl_disk s /\ bl_trace s' = bl_trace s /\
      bl_locked s' = bl_locked s ∖ {[b]} /\ bl_pinned s' = bl_pinned s /\
      (forall j, j <> i -> bl_buf j s' = bl_buf j s)) s c;

  bl_set_data s i b d :
    bl_inv s -> bl_buf i s = Some b -> wf_block d ->
    let s' := bset_data i d s in
    bl_inv s' /\ bl_view s' = <[b := d]> (bl_view s) /\ bl_disk s' = bl_disk s /\
    bl_trace s' = bl_trace s /\ bl_locked s' = bl_locked s /\ bl_pinned s' = bl_pinned s /\
    (forall j, bl_buf j s' = bl_buf j s);

  bl_set_dirty s i b :
    bl_inv s -> bl_buf i s = Some b ->
    let s' := bset_dirty i s in
    bl_inv s' /\ bl_view s' = bl_view s /\ bl_disk s' = bl_disk s /\
    bl_trace s' = bl_trace s /\ bl_locked s' = bl_locked s /\
    bl_pinned s' = {[b]} ∪ bl_pinned s /\
    (forall j, bl_buf j s' = bl_buf j s)
}.

(** ** Using the interface *)

Section rules.
Context {S : Type} `{BlockLayer S}.
Implicit Types (s : S) (V D : blocks) (T : list dwrite) (L P : gset Z).

(** The observations of a state, by name. *)
Record blk s V D T L P : Prop := {
  blk_inv : bl_inv s;
  blk_view : bl_view s = V;
  blk_disk : bl_disk s = D;
  blk_trace : bl_trace s = T;
  blk_locked : bl_locked s = L;
  blk_pinned : bl_pinned s = P
}.

Lemma blk_intro s :
  bl_inv s -> blk s (bl_view s) (bl_disk s) (bl_trace s) (bl_locked s) (bl_pinned s).
Proof. by split. Qed.

Lemma blk_data s V D T L P i b :
  blk s V D T L P -> bl_buf i s = Some b -> V !! b = Some (bget_data i s).
Proof. intros [Hi <- _ _ _ _] Hb. by apply (bl_buf_data s i b Hi). Qed.

Lemma blk_blockno s V D T L P i b :
  blk s V D T L P -> bl_buf i s = Some b -> bget_blockno i s = b.
Proof. intros [Hi _ _ _ _ _] Hb. by apply (bl_buf_data s i b Hi). Qed.

Lemma blk_view_wf s V D T L P b d :
  blk s V D T L P -> V !! b = Some d -> wf_block d.
Proof. intros [Hi <- _ _ _ _] Hb. by apply (bl_view_wf s b d Hi). Qed.

Lemma blk_disk_wf s V D T L P b d :
  blk s V D T L P -> D !! b = Some d -> wf_block d.
Proof. intros [Hi _ <- _ _ _] Hb. by apply (bl_disk_wf s b d Hi). Qed.

Lemma blk_dom s V D T L P : blk s V D T L P -> dom V = dom D.
Proof. intros [Hi <- <- _ _ _]. by apply bl_view_dom. Qed.

Lemma blk_clean s V D T L P b :
  blk s V D T L P -> b ∉ L -> b ∉ P -> V !! b = D !! b.
Proof. intros [Hi <- <- _ <- <-]. by apply bl_clean. Qed.

Lemma wp_bread s c V D T L P b (Q : nat -> S -> ctx -> Prop) :
  blk s V D T L P -> held c = [] -> b ∈ dom D -> b ∉ L ->
  b ∈ P \/ (size (L ∪ P) < NBUF)%nat ->
  (forall i s' c', blk s' V D T ({[b]} ∪ L) P -> held c' = [] -> bl_buf i s' = Some b ->
    (forall j x, bl_buf j s = Some x -> bl_buf j s' = Some x) -> Q i s' c') ->
  wp (bread 1 b) Q s c.
Proof.
  intros [Hi <- <- <- <- <-] Hc Hb Hl Hsz HQ. eapply wp_mono; [by apply bl_bread|].
  intros i s' c' (Hi' & [Hh _] & Hbuf & ? & ? & ? & ? & ? & Hoth). apply HQ; [|congruence|done..].
  by split.
Qed.

Lemma wp_bwrite s c V D T L P i b d (Q : unit -> S -> ctx -> Prop) :
  blk s V D T L P -> held c = [] -> bl_buf i s = Some b -> V !! b = Some d ->
  (forall s' c', blk s' V (<[b := d]> D) (T ++ [(b, d)]) L (P ∖ {[b]}) -> held c' = [] ->
    (forall j, bl_buf j s' = bl_buf j s) -> Q tt s' c') ->
  wp (bwrite i) Q s c.
Proof.
  intros Hs Hc Hb Hd HQ. pose proof (blk_data _ _ _ _ _ _ _ _ Hs Hb) as Hd'.
  rewrite Hd in Hd'. injection Hd' as Hd'. destruct Hs as [Hi <- <- <- <- <-].
  eapply wp_mono; [by apply bl_bwrite|]. rewrite <- Hd'.
  intros [] s' c' (Hi' & [Hh _] & ? & ? & ? & ? & ? & Hoth). apply HQ; [by split|congruence|done].
Qed.

Lemma wp_brelse s c V D T L P i b (Q : unit -> S -> ctx -> Prop) :
  blk s V D T L P -> held c = [] -> bl_buf i s = Some b ->
  b ∈ P \/ V !! b = D !! b ->
  (forall s' c', blk s' V D T (L ∖ {[b]}) P -> held c' = [] ->
    (forall j, j <> i -> bl_buf j s' = bl_buf j s) -> Q tt s' c') ->
  wp (brelse i) Q s c.
Proof.
  intros [Hi <- <- <- <- <-] Hc Hb Hp HQ. eapply wp_mono; [by apply bl_brelse|].
  intros [] s' c' (Hi' & [Hh _] & ? & ? & ? & ? & ? & Hoth). apply HQ; [by split|congruence|done].
Qed.

Lemma blk_set_data s V D T L P i b d :
  blk s V D T L P -> bl_buf i s = Some b -> wf_block d ->
  blk (bset_data i d s) (<[b := d]> V) D T L P /\
  (forall j, bl_buf j (bset_data i d s) = bl_buf j s).
Proof.
  intros [Hi <- <- <- <- <-] Hb Hd. destruct (bl_set_data s i b d Hi Hb Hd) as (? & ? & ? & ? & ? & ? & ?).
  by split.
Qed.

Lemma blk_set_dirty s V D T L P i b :
  blk s V D T L P -> bl_buf i s = Some b ->
  blk (bset_dirty i s) V D T L ({[b]} ∪ P) /\ (forall j, bl_buf j (bset_dirty i s) = bl_buf j s).
Proof.
  intros [Hi <- <- <- <- <-] Hb. destruct (bl_set_dirty s i b Hi Hb) as (? & ? & ? & ? & ? & ? & ?).
  by split.
Qed.

End rules.

(** *** Sequences of disk writes *)

Lemma apply_writes_app D ws ws' :
  apply_writes D (ws ++ ws') = apply_writes (apply_writes D ws) ws'.
Proof. apply foldl_app. Qed.

Lemma apply_writes_notin D ws b : b ∉ ws.*1 -> apply_writes D ws !! b = D !! b.
Proof.
  revert D. induction ws as [|[x d] ws IH]; intros D Hb; cbn; [done|].
  rewrite fmap_cons in Hb. cbn in Hb. apply not_elem_of_cons in Hb as [Hne Hb].
  unfold apply_writes in IH. rewrite IH by done. unfold apply_write. cbn.
  by rewrite lookup_insert_ne.
Qed.

Lemma apply_writes_in D ws b d :
  NoDup ws.*1 -> (b, d) ∈ ws -> apply_writes D ws !! b = Some d.
Proof.
  revert D. induction ws as [|[x e] ws IH]; intros D Hnd Hin; [by apply elem_of_nil in Hin|].
  rewrite fmap_cons in Hnd. apply NoDup_cons in Hnd as [Hx Hnd].
  apply elem_of_cons in Hin as [[= -> ->]|Hin].
  - cbn. change (apply_writes (apply_write D (x, e)) ws !! x = Some e).
    rewrite apply_writes_notin by done. apply lookup_insert_eq.
  - by apply (IH (apply_write D (x, e))).
Qed.

Lemma dom_apply_writes D ws :
  Forall (fun w => w.1 ∈ dom D) ws -> dom (apply_writes D ws) = dom D.
Proof.
  revert D. induction ws as [|[x e] ws IH]; intros D Hw; cbn; [done|].
  apply Forall_cons in Hw as [Hx Hw]. cbn in Hx.
  assert (E : dom (<[x := e]> D) = dom D) by (rewrite dom_insert_L; set_solver).
  change (dom (apply_writes (<[x := e]> D) ws) = dom D). rewrite IH; [done|].
  by rewrite E.
Qed.
