(* ===== verification/Bio.v ===== *)
(** * bio.c and memide.c: the buffer cache over an in-memory disk

    The cache is the array of NBUF buffers with the list through their
    prev/next pointers kept as the list of indices from head.next on.  The
    disk is the array of blocks of memide.c; [dtrace] records the writes
    that reached it.  The instance at the end shows that the code keeps
    the promises of Block.v: a block is cached at most once, a buffer in
    use or pinned is never recycled, and what bread returns is the last
    value written. *)

From stdpp Require Import base numbers strings gmap list.
From S2P Require Import Prelude Kmonad Mmu Locks Block.

Local Open Scope Z_scope.

Definition B_VALID : Z := 2.
Definition B_DIRTY : Z := 4.

Record buf : Type := mkbuf {
  flags : Z;
  dev : Z;
  blockno : Z;
  block_lock : sleeplock;
  refcnt : Z;
  bufdata : bytes
}.

Definition set_flags (v : Z) (b : buf) : buf :=
  mkbuf v (dev b) (blockno b) (block_lock b) (refcnt b) (bufdata b).
Definition set_lock (v : sleeplock) (b : buf) : buf :=
  mkbuf (flags b) (dev b) (blockno b) v (refcnt b) (bufdata b).
Definition set_refcnt (v : Z) (b : buf) : buf :=
  mkbuf (flags b) (dev b) (blockno b) (block_lock b) v (bufdata b).
Definition set_bufdata (v : bytes) (b : buf) : buf :=
  mkbuf (flags b) (dev b) (blockno b) (block_lock b) (refcnt b) v.

Record bio : Type := mkbio {
  bufs : list buf;
  lru : list nat;           (* head.next, head.next->next, ... *)
  disksize : Z;             (* blocks of memdisk *)
  memdisk : blocks;
  dtrace : list dwrite      (* writes to memdisk so far *)
}.

Definition upd_buf (i : nat) (f : buf -> buf) : K bio unit :=
  modify (fun s => mkbio (alter f i (bufs s)) (lru s) (disksize s) (memdisk s) (dtrace s)).
Definition set_lru (l : list nat) (s : bio) : bio :=
  mkbio (bufs s) l (disksize s) (memdisk s) (dtrace s).

Definition zero_buf : buf := mkbuf 0 0 0 (mksleeplock false 0) 0 (replicate BSIZEn 0).
Definition buf_at (i : nat) (s : bio) : buf := default zero_buf (bufs s !! i).

Definition buf_lock (i : nat) : lens bio sleeplock :=
  Lens (fun s => block_lock (buf_at i s))
       (fun v s => mkbio (alter (set_lock v) i (bufs s)) (lru s) (disksize s) (memdisk s) (dtrace s)).

Abbreviation b_acquiresleep i := (acquiresleep (buf_lock i) (L_sleep_buf i) (C_bufslp i)).
Abbreviation b_releasesleep i := (releasesleep (buf_lock i) (L_sleep_buf i) (C_bufslp i)).
Abbreviation b_holdingsleep i := (holdingsleep (buf_lock i) (L_sleep_buf i)).

(** binit puts each buffer at the front of the list in turn. *)
Fixpoint binit_loop (n i : nat) : K bio unit :=
  match n with
  | O => mret tt
  | S n =>
      modify (fun s => set_lru (i :: lru s) s);;
      initsleeplock (buf_lock i);;
      binit_loop n (S i)
  end.

Definition binit : K bio unit := modify (set_lru []);; binit_loop NBUF 0.

(** A walk along the list. *)
Fixpoint scan (f : buf -> bool) (s : bio) (l : list nat) : option nat :=
  match l with
  | [] => None
  | i :: t => if f (buf_at i s) then Some i else scan f s t
  end.

Definition is_block (d b : Z) (x : buf) : bool := (dev x =? d) && (blockno x =? b).
Definition is_free (x : buf) : bool := (refcnt x =? 0) && (Z.land (flags x) B_DIRTY =? 0).

Definition bget (d b : Z) : K bio nat :=
  acquire L_bcache;;
  s ← get;
  match scan (is_block d b) s (lru s) with
  | Some i =>
      upd_buf i (fun x => set_refcnt (u32 (refcnt x + 1)) x);;
      release L_bcache;;
      b_acquiresleep i;;
      mret i
  | None =>
      match scan is_free s (rev (lru s)) with
      | Some i =>
          upd_buf i (fun x => mkbuf 0 d b (block_lock x) 1 (bufdata x));;
          release L_bcache;;
          b_acquiresleep i;;
          mret i
      | None => panic "bget: no buffers"
      end
  end.

(** memide.c *)
Definition iderw (i : nat) : K bio unit :=
  h ← b_holdingsleep i;
  if negb h then panic "iderw: buf not locked"
  else
    s ← get;
    let x := buf_at i s in
    if Z.land (flags x) (Z.lor B_VALID B_DIRTY) =? B_VALID then panic "iderw: nothing to do"
    else if negb (dev x =? 1) then panic "iderw: request not for disk 1"
    else if disksize s <=? blockno x then panic "iderw: block out of range"
    else
      (if negb (Z.land (flags x) B_DIRTY =? 0) then
         upd_buf i (fun x => set_flags (Z.land (flags x) (Z.lnot B_DIRTY)) x);;
         modify (fun s => mkbio (bufs s) (lru s) (disksize s)
           (<[blockno x := bufdata x]> (memdisk s)) (dtrace s ++ [(blockno x, bufdata x)]))
       else
         upd_buf i (set_bufdata (default [] (memdisk s !! blockno x))));;
      upd_buf i (fun x => set_flags (Z.lor (flags x) B_VALID) x).

Definition bio_bread (d b : Z) : K bio nat :=
  i ← bget d b;
  x ← gets (buf_at i);
  (if Z.land (flags x) B_VALID =? 0 then iderw i else mret tt);;
  mret i.

Definition bio_bwrite (i : nat) : K bio unit :=
  h ← b_holdingsleep i;
  if negb h then panic "bwrite"
  else
    upd_buf i (fun x => set_flags (Z.lor (flags x) B_DIRTY) x);;
    iderw i.

(** The last user moves the buffer to the front of the list. *)
Definition bio_brelse (i : nat) : K bio unit :=
  h ← b_holdingsleep i;
  if negb h then panic "brelse"
  else
    b_releasesleep i;;
    acquire L_bcache;;
    upd_buf i (fun x => set_refcnt (u32 (refcnt x - 1)) x);;
    x ← gets (buf_at i);
    (if refcnt x =? 0 then
       modify (fun s => set_lru (i :: filter (fun j => j <> i) (lru s)) s)
     else mret tt);;
    release L_bcache.

#[export] Instance bio_ops : BlockOps bio := {
  bread := bio_bread;
  bwrite := bio_bwrite;
  brelse := bio_brelse;
  bget_data i s := bufdata (buf_at i s);
  bset_data i d s :=
    mkbio (alter (set_bufdata d) i (bufs s)) (lru s) (disksize s) (memdisk s) (dtrace s);
  bget_blockno i s := blockno (buf_at i s);
  bset_dirty i s :=
    mkbio (alter (fun x => set_flags (Z.lor (flags x) B_DIRTY) x) i (bufs s)) (lru s)
      (disksize s) (memdisk s) (dtrace s)
}.

(** ** Invariant *)

Record buf_ok (d : blocks) (x : buf) : Prop := {
  bo_wf : wf_block (bufdata x);
  bo_ref : refcnt x = if slocked (block_lock x) then 1 else 0;
  bo_state :
    (dev x = 0 /\ flags x = 0 /\ slocked (block_lock x) = false) \/
    (dev x = 1 /\ is_Some (d !! blockno x) /\ (flags x = 2 \/ flags x = 6) /\
     (slocked (block_lock x) = false -> flags x = 2 -> d !! blockno x = Some (bufdata x)))
}.

Record bio_inv (s : bio) : Prop := {
  bi_len : length (bufs s) = NBUF;
  bi_lru : lru s ≡ₚ seq 0 NBUF;
  bi_bufs : forall i x, bufs s !! i = Some x -> buf_ok (memdisk s) x;
  bi_uniq : forall i j x y, bufs s !! i = Some x -> bufs s !! j = Some y ->
    dev x = 1 -> dev y = 1 -> blockno x = blockno y -> i = j;
  bi_dom : forall b, b ∈ dom (memdisk s) <-> 0 <= b < disksize s;
  bi_disk : forall b d, memdisk s !! b = Some d -> wf_block d
}.

(** The buffer of a block, and the contents the kernel sees. *)
Definition cached (l : list buf) (b : Z) : option buf :=
  i ← find_idx (is_block 1 b) l; l !! i.

Definition view (s : bio) : blocks :=
  map_imap (fun b d => Some (match cached (bufs s) b with Some x => bufdata x | None => d end))
    (memdisk s).

Definition blocks_where (f : buf -> bool) (s : bio) : gset Z :=
  list_to_set (blockno <$> filter (fun x => f x = true) (bufs s)).

Definition is_locked (x : buf) : bool := slocked (block_lock x).
Definition is_dirty (x : buf) : bool := flags x =? 6.

(** Buffer [i], locked, holds block [b]. *)
Definition holds (i : nat) (s : bio) : option Z :=
  x ← bufs s !! i; if is_locked x then Some (blockno x) else None.

Lemma is_block_spec b x : is_block 1 b x = true <-> dev x = 1 /\ blockno x = b.
Proof. unfold is_block. by rewrite andb_true_iff, !Z.eqb_eq. Qed.

Lemma cached_Some l b x :
  cached l b = Some x -> exists i, l !! i = Some x /\ dev x = 1 /\ blockno x = b.
Proof.
  unfold cached. destruct (find_idx _ l) as [i|] eqn:Ef; [|done]. cbn. intros Hi.
  apply find_idx_Some in Ef as [(y & Hy & Hf) _]. rewrite Hy in Hi. injection Hi as ->.
  apply is_block_spec in Hf. eauto.
Qed.

Lemma cached_None l b :
  cached l b = None -> forall i x, l !! i = Some x -> dev x = 1 -> blockno x <> b.
Proof.
  unfold cached. destruct (find_idx _ l) as [i|] eqn:Ef.
  - apply find_idx_Some in Ef as [(y & Hy & Hf) _]. cbn. by rewrite Hy.
  - intros _ i x Hx Hd E. rewrite find_idx_None in Ef. specialize (Ef i x Hx).
    rewrite (proj2 (is_block_spec b x)) in Ef by done. done.
Qed.

Lemma cached_buf s i x :
  bio_inv s -> bufs s !! i = Some x -> dev x = 1 -> cached (bufs s) (blockno x) = Some x.
Proof.
  intros Hi Hx Hd. destruct (cached (bufs s) (blockno x)) as [y|] eqn:Ec.
  - apply cached_Some in Ec as (j & Hj & Hdj & Hb).
    assert (j = i) as -> by (by eapply (bi_uniq s Hi)). congruence.
  - by destruct (cached_None _ _ Ec i x Hx Hd).
Qed.

Lemma lookup_view s b :
  view s !! b =
    d ← memdisk s !! b; Some (match cached (bufs s) b with Some x => bufdata x | None => d end).
Proof. unfold view. by rewrite map_lookup_imap. Qed.

Lemma view_buf s i x :
  bio_inv s -> bufs s !! i = Some x -> dev x = 1 -> view s !! blockno x = Some (bufdata x).
Proof.
  intros Hi Hx Hd. rewrite lookup_view, (cached_buf s i x) by done.
  destruct (bi_bufs s Hi i x Hx) as [_ _ [(? & _)|(_ & [d Hd'] & _)]]; [congruence|].
  by rewrite Hd'.
Qed.

Lemma view_uncached s b :
  (forall i x, bufs s !! i = Some x -> dev x = 1 -> blockno x <> b) ->
  view s !! b = memdisk s !! b.
Proof.
  intros Hno. rewrite lookup_view. destruct (cached (bufs s) b) as [x|] eqn:Ec.
  - apply cached_Some in Ec as (i & Hi & Hd & Hb). by destruct (Hno i x Hi Hd).
  - by destruct (memdisk s !! b).
Qed.

Lemma elem_of_blocks_where f s b :
  b ∈ blocks_where f s <-> exists i x, bufs s !! i = Some x /\ f x = true /\ blockno x = b.
Proof.
  unfold blocks_where. rewrite elem_of_list_to_set, list_elem_of_fmap. split.
  - intros (x & -> & Hx). apply list_elem_of_filter in Hx as [Hf Hx].
    apply list_elem_of_lookup in Hx as [i Hi]. eauto.
  - intros (i & x & Hi & Hf & <-). exists x. split; [done|].
    apply list_elem_of_filter. split; [done|]. by eapply list_elem_of_lookup_2.
Qed.

(** ** Replacing one buffer *)

Definition setb (i : nat) (y : buf) (s : bio) : bio :=
  mkbio (<[i := y]> (bufs s)) (lru s) (disksize s) (memdisk s) (dtrace s).

Lemma alter_insert {A} (f : A -> A) (l : list A) i x :
  l !! i = Some x -> alter f i l = <[i := f x]> l.
Proof.
  intros Hx. apply list_eq. intros j. destruct (decide (i = j)) as [->|Hne].
  - rewrite list_lookup_alter_eq, list_lookup_insert_eq, Hx by (by eapply lookup_lt_Some). done.
  - by rewrite list_lookup_alter_ne, list_lookup_insert_ne.
Qed.

Lemma setb_setb i x y s : setb i y (setb i x s) = setb i y s.
Proof. unfold setb; cbn. by rewrite list_insert_insert_eq. Qed.

Lemma setb_same i x s : bufs s !! i = Some x -> setb i x s = s.
Proof. intros Hx. destruct s. unfold setb; cbn in *. by rewrite list_insert_id. Qed.

Lemma bufs_setb i x y s : bufs s !! i = Some x -> bufs (setb i y s) !! i = Some y.
Proof. intros Hx. cbn. apply list_lookup_insert_eq. by eapply lookup_lt_Some. Qed.

Lemma buf_at_lookup i x s : bufs s !! i = Some x -> buf_at i s = x.
Proof. intros Hx. unfold buf_at. by rewrite Hx. Qed.

Lemma wp_upd_buf i f x (Q : unit -> bio -> ctx -> Prop) s c :
  bufs s !! i = Some x -> Q tt (setb i (f x) s) c -> wp (upd_buf i f) Q s c.
Proof.
  intros Hx HQ. unfold upd_buf. kstep. by rewrite (alter_insert f _ i x Hx).
Qed.

Lemma lset_buf_lock i v x s : bufs s !! i = Some x -> lset (buf_lock i) v s = setb i (set_lock v x) s.
Proof. intros Hx. cbn. by rewrite (alter_insert _ _ i x Hx). Qed.

(** A locked buffer whose block stays the same; the disk may change there. *)
Lemma keep_block s i x y l d t :
  bio_inv s -> bufs s !! i = Some x -> dev x = 1 -> dev y = 1 -> blockno y = blockno x ->
  l ≡ₚ seq 0 NBUF ->
  (forall b, b <> blockno x -> d !! b = memdisk s !! b) ->
  (exists e, d !! blockno x = Some e /\ wf_block e) ->
  buf_ok d y ->
  let s' := mkbio (<[i := y]> (bufs s)) l (disksize s) d t in
  bio_inv s' /\ view s' = <[blockno x := bufdata y]> (view s).
Proof.
  intros Hi Hx Hdx Hdy Hb Hl Hd (e & He & Hwe) Hy s'.
  assert (Hlk : forall j z, bufs s' !! j = Some z -> (j = i /\ z = y) \/ (j <> i /\ bufs s !! j = Some z)).
  { intros j z. cbn. destruct (decide (i = j)) as [->|Hne].
    - rewrite list_lookup_insert_eq by (by eapply lookup_lt_Some). intros [= ->]. by left.
    - rewrite list_lookup_insert_ne by done. by right. }
  assert (Hoth : forall j z, j <> i -> bufs s !! j = Some z -> dev z = 1 -> blockno z <> blockno x).
  { intros j z Hne Hj Hdz E. apply Hne. by eapply (bi_uniq s Hi). }
  assert (Hinv : bio_inv s').
  { split; cbn.
    - rewrite length_insert. apply (bi_len s Hi).
    - done.
    - intros j z Hj. destruct (Hlk j z Hj) as [[-> ->]|[Hne Hj']]; [done|].
      destruct (bi_bufs s Hi j z Hj') as [? ? Hst]. split; [done..|].
      destruct Hst as [?|(Hdz & Hz & ?)]; [by left|right].
      rewrite Hd by (by eapply Hoth). done.
    - intros j k z w Hj Hk Hdz Hdw E.
      destruct (Hlk j z Hj) as [[-> ->]|[Hnj Hj']], (Hlk k w Hk) as [[-> ->]|[Hnk Hk']]; [done|..].
      + by destruct (Hoth k w Hnk Hk' Hdw); congruence.
      + by destruct (Hoth j z Hnj Hj' Hdz); congruence.
      + by eapply (bi_uniq s Hi).
    - intros b. rewrite <- (bi_dom s Hi b), !elem_of_dom.
      destruct (decide (b = blockno x)) as [->|Hne]; [|by rewrite Hd].
      rewrite He. split; [intros _|done].
      destruct (bi_bufs s Hi i x Hx) as [_ _ [(? & _)|(_ & ? & _)]]; [congruence|done].
    - intros b w. destruct (decide (b = blockno x)) as [->|Hne]; [congruence|].
      rewrite Hd by done. apply (bi_disk s Hi). }
  split; [done|]. apply map_eq. intros b. destruct (decide (b = blockno x)) as [->|Hne].
  - rewrite lookup_insert_eq, <- Hb. apply (view_buf s' i); [done| |done]. cbn.
    apply list_lookup_insert_eq. by eapply lookup_lt_Some.
  - rewrite lookup_insert_ne by done. rewrite !lookup_view. change (memdisk s') with d. rewrite Hd by done.
    destruct (memdisk s !! b) as [w|]; [|done]. cbn [mbind option_bind]. f_equal.
    destruct (cached (bufs s) b) as [z|] eqn:Ez.
    + apply cached_Some in Ez as (j & Hj & Hdj & <-). assert (j <> i) by congruence.
      assert (E : cached (bufs s') (blockno z) = Some z); [|by rewrite E].
      apply (cached_buf s' j); [done| |done]. cbn. by rewrite list_lookup_insert_ne.
    + destruct (cached (bufs s') b) as [z|] eqn:Ez'; [|done].
      apply cached_Some in Ez' as (j & Hj & Hdj & <-). destruct (Hlk j z Hj) as [[-> ->]|[_ Hj']].
      * by destruct Hne.
      * by destruct (cached_None _ _ Ez j z Hj' Hdj).
Qed.

(** A free buffer is given to a block that is not cached. *)
Lemma recycle s i x y b e :
  bio_inv s -> bufs s !! i = Some x -> is_free x = true ->
  (forall j z, bufs s !! j = Some z -> dev z = 1 -> blockno z <> b) ->
  memdisk s !! b = Some e ->
  dev y = 1 -> blockno y = b -> bufdata y = e -> flags y = 2 ->
  refcnt y = 1 -> slocked (block_lock y) = true ->
  bio_inv (setb i y s) /\ view (setb i y s) = view s.
Proof.
  intros Hi Hx Hfree Hno He Hdy Hby Hey Hfy Hry Hly.
  set (s' := setb i y s).
  assert (Hlk : forall j z, bufs s' !! j = Some z -> (j = i /\ z = y) \/ (j <> i /\ bufs s !! j = Some z)).
  { intros j z. cbn. destruct (decide (i = j)) as [->|Hne].
    - rewrite list_lookup_insert_eq by (by eapply lookup_lt_Some). intros [= ->]. by left.
    - rewrite list_lookup_insert_ne by done. by right. }
  assert (Hinv : bio_inv s').
  { split; cbn; try apply Hi.
    - rewrite length_insert. apply (bi_len s Hi).
    - intros j z Hj. destruct (Hlk j z Hj) as [[-> ->]|[Hne Hj']]; [|by apply (bi_bufs s Hi j)].
      split; [rewrite Hey; by eapply (bi_disk s Hi)|by rewrite Hly|].
      right. rewrite Hby, He. repeat split; [done|by eexists|by left|congruence].
    - intros j k z w Hj Hk Hdz Hdw E.
      destruct (Hlk j z Hj) as [[-> ->]|[Hnj Hj']], (Hlk k w Hk) as [[-> ->]|[Hnk Hk']]; [done|..].
      + by destruct (Hno k w Hk' Hdw); congruence.
      + by destruct (Hno j z Hj' Hdz); congruence.
      + by eapply (bi_uniq s Hi). }
  split; [done|]. apply map_eq. intros b'.
  destruct (decide (b' = b)) as [->|Hne].
  { rewrite <- Hby at 1. rewrite (view_buf s' i y) by (done || by eapply bufs_setb).
    rewrite view_uncached by done. congruence. }
  assert (Hold : forall z, bufs s !! i = Some z -> dev z = 1 -> blockno z = b' ->
    memdisk s !! b' = Some (bufdata z)).
  { intros z Hz Hdz <-. assert (z = x) as -> by congruence.
    destruct (bi_bufs s Hi i x Hx) as [_ Href [(? & _)|(_ & _ & Hfl & Hcl)]]; [congruence|].
    unfold is_free in Hfree. apply andb_true_iff in Hfree as [H0 H1]. apply Z.eqb_eq in H0.
    apply Hcl; [destruct (slocked (block_lock x)); [lia|done]|].
    destruct Hfl as [->|Hf6]; [done|]. by rewrite Hf6 in H1. }
  destruct (cached (bufs s) b') as [z|] eqn:Ez.
  - apply cached_Some in Ez as (j & Hj & Hdj & <-). rewrite (view_buf s j z) by done.
    destruct (decide (j = i)) as [->|Hji].
    + rewrite view_uncached; [by apply Hold|]. intros k w Hk Hdw E.
      destruct (Hlk k w Hk) as [[-> ->]|[Hnk Hk']]; [congruence|]. apply Hnk.
      by eapply (bi_uniq s Hi).
    + apply (view_buf s' j); [done| |done]. cbn. by rewrite list_lookup_insert_ne.
  - pose proof (cached_None _ _ Ez) as Hn. rewrite !view_uncached; [done|done|].
    intros k w Hk Hdw. destruct (Hlk k w Hk) as [[-> ->]|[Hnk Hk']]; [congruence|by eapply Hn].
Qed.

(** *** The sets of blocks *)

Lemma blocks_where_setb f i x y s b :
  bufs s !! i = Some x ->
  b ∈ blocks_where f (setb i y s) <->
  (f y = true /\ blockno y = b) \/
  (exists j z, j <> i /\ bufs s !! j = Some z /\ f z = true /\ blockno z = b).
Proof.
  intros Hx. rewrite elem_of_blocks_where. cbn. split.
  - intros (j & z & Hj & Hf & Hb). destruct (decide (i = j)) as [->|Hne].
    + rewrite list_lookup_insert_eq in Hj by (by eapply lookup_lt_Some).
      injection Hj as <-. by left.
    + rewrite list_lookup_insert_ne in Hj by done. right. exists j, z. auto.
  - intros [[Hf Hb]|(j & z & Hne & Hj & Hf & Hb)].
    + exists i, y. rewrite list_lookup_insert_eq by (by eapply lookup_lt_Some). done.
    + exists j, z. rewrite list_lookup_insert_ne by done. done.
Qed.

Lemma blocks_where_same f i x y s :
  bufs s !! i = Some x -> f y = f x -> blockno y = blockno x ->
  blocks_where f (setb i y s) = blocks_where f s.
Proof.
  intros Hx Hf Hb. apply set_eq. intros b. rewrite (blocks_where_setb f i x y s b Hx).
  rewrite elem_of_blocks_where, Hf, Hb. split.
  - intros [[? ?]|(j & z & _ & ?)]; eauto.
  - intros (j & z & Hj & Hz & E). destruct (decide (j = i)) as [->|]; [|right; eauto 10].
    left. assert (z = x) as -> by congruence. done.
Qed.

Lemma blocks_where_add f i x y s :
  bufs s !! i = Some x -> f y = true -> (f x = true -> blockno x = blockno y) ->
  blocks_where f (setb i y s) = {[blockno y]} ∪ blocks_where f s.
Proof.
  intros Hx Hf Hxf. apply set_eq. intros b. rewrite (blocks_where_setb f i x y s b Hx).
  rewrite elem_of_union, elem_of_singleton, elem_of_blocks_where. split.
  - intros [[? ?]|(j & z & _ & ?)]; [by left|right; eauto].
  - intros [->|(j & z & Hj & Hz & E)]; [by left|].
    destruct (decide (j = i)) as [->|]; [|right; eauto 10].
    left. assert (z = x) as -> by congruence. rewrite <- E, Hxf; done.
Qed.

Lemma blocks_where_neither f i x y s :
  bufs s !! i = Some x -> f y = false -> f x = false ->
  blocks_where f (setb i y s) = blocks_where f s.
Proof.
  intros Hx Hf Hfx. apply set_eq. intros b. rewrite (blocks_where_setb f i x y s b Hx).
  rewrite elem_of_blocks_where, Hf. split.
  - intros [[? _]|(j & z & _ & ?)]; [done|eauto].
  - intros (j & z & Hj & Hz & E). right. exists j, z. split; [congruence|done].
Qed.

(** [f] holds only of buffers in use. *)
Definition used_only (f : buf -> bool) (s : bio) : Prop :=
  forall j z, bufs s !! j = Some z -> f z = true -> dev z = 1.

Lemma blocks_where_remove f i x y s :
  bio_inv s -> used_only f s -> bufs s !! i = Some x -> dev x = 1 -> f y = false ->
  blocks_where f (setb i y s) = blocks_where f s ∖ {[blockno x]}.
Proof.
  intros Hi Hu Hx Hd Hf. apply set_eq. intros b. rewrite (blocks_where_setb f i x y s b Hx).
  rewrite elem_of_difference, elem_of_singleton, elem_of_blocks_where, Hf. split.
  - intros [[? _]|(j & z & Hne & Hj & Hz & <-)]; [done|]. split; [eauto|]. intros E.
    apply Hne. eapply (bi_uniq s Hi); eauto.
  - intros [(j & z & Hj & Hz & <-) Hne]. right. exists j, z. split; [congruence|done].
Qed.

Lemma locked_used s : bio_inv s -> used_only is_locked s.
Proof.
  intros Hi j z Hj Hl. destruct (bi_bufs s Hi j z Hj) as [_ _ [(_ & _ & ?)|(? & _)]]; [|done].
  unfold is_locked in Hl. congruence.
Qed.

Lemma dirty_used s : bio_inv s -> used_only is_dirty s.
Proof.
  intros Hi j z Hj Hl. destruct (bi_bufs s Hi j z Hj) as [_ _ [(_ & ? & _)|(? & _)]]; [|done].
  unfold is_dirty in Hl. apply Z.eqb_eq in Hl. congruence.
Qed.

(** The observations do not depend on the list order. *)
Lemma holds_Some i s b :
  holds i s = Some b <-> exists x, bufs s !! i = Some x /\ is_locked x = true /\ blockno x = b.
Proof.
  unfold holds. destruct (bufs s !! i) as [x|]; cbn; [|split; [done|by intros (? & ? & _)]].
  split.
  - destruct (is_locked x) eqn:El; [|done]. intros [= <-]. eauto.
  - intros (y & [= ->] & -> & ->). done.
Qed.

Lemma holds_setb_ne i j y s : j <> i -> holds j (setb i y s) = holds j s.
Proof. intros Hne. unfold holds; cbn. by rewrite list_lookup_insert_ne. Qed.

Lemma holds_setb i x y s :
  bufs s !! i = Some x -> holds i (setb i y s) = if is_locked y then Some (blockno y) else None.
Proof. intros Hx. unfold holds. by rewrite (bufs_setb i x y s Hx). Qed.

(** ** The operations *)

Lemma scan_Some f s l i : scan f s l = Some i -> i ∈ l /\ f (buf_at i s) = true.
Proof.
  induction l as [|j l IH]; cbn; [done|]. destruct (f (buf_at j s)) eqn:Ef.
  - intros [= <-]. split; [left|done].
  - intros Hs. destruct (IH Hs). split; [by right|done].
Qed.

Lemma scan_None f s l i : scan f s l = None -> i ∈ l -> f (buf_at i s) = false.
Proof.
  induction l as [|j l IH]; cbn; [by rewrite elem_of_nil|]. destruct (f (buf_at j s)) eqn:Ef; [done|].
  rewrite elem_of_cons. intros Hs [->|Hi]; [done|by apply IH].
Qed.

Lemma lru_lookup s i : bio_inv s -> i ∈ lru s <-> exists x, bufs s !! i = Some x.
Proof.
  intros Hi. rewrite (bi_lru s Hi), elem_of_seq. rewrite <- (bi_len s Hi). split.
  - intros [_ Hlt]. apply lookup_lt_is_Some_2. lia.
  - intros [x Hx]. apply lookup_lt_Some in Hx. lia.
Qed.

Lemma scan_buf f s l i :
  bio_inv s -> l ≡ₚ lru s -> scan f s l = Some i -> exists x, bufs s !! i = Some x /\ f x = true.
Proof.
  intros Hi Hl Hs. apply scan_Some in Hs as [Hin Hf]. rewrite Hl in Hin.
  apply (lru_lookup s i Hi) in Hin as [x Hx]. rewrite (buf_at_lookup i x s Hx) in Hf. eauto.
Qed.

Lemma scan_no_buf f s l :
  bio_inv s -> l ≡ₚ lru s -> scan f s l = None -> forall i x, bufs s !! i = Some x -> f x = false.
Proof.
  intros Hi Hl Hs i x Hx. rewrite <- (buf_at_lookup i x s Hx). eapply scan_None; [done|].
  rewrite Hl. apply (lru_lookup s i Hi). eauto.
Qed.

(** A buffer that is not free is locked or pinned. *)
Lemma not_free_used s i x :
  bio_inv s -> bufs s !! i = Some x -> is_free x = false ->
  dev x = 1 /\ (is_locked x = true \/ is_dirty x = true).
Proof.
  intros Hi Hx Hf. destruct (bi_bufs s Hi i x Hx) as [_ Hr Hst]. unfold is_free in Hf.
  rewrite Hr in Hf. unfold is_locked, is_dirty.
  destruct (slocked (block_lock x)); destruct Hst as [(? & Hf0 & ?)|(? & _ & [Hf0|Hf0] & _)];
    rewrite Hf0 in Hf |- *; try done; auto.
Qed.

Lemma NoDup_blocknos s :
  bio_inv s -> (forall i x, bufs s !! i = Some x -> dev x = 1) -> NoDup (blockno <$> bufs s).
Proof.
  intros Hi Hd. apply NoDup_alt. intros i j b. rewrite !list_lookup_fmap_Some.
  intros (x & -> & Hx) (y & E & Hy). eapply (bi_uniq s Hi); eauto.
Qed.

Lemma free_exists s :
  bio_inv s -> (size (blocks_where is_locked s ∪ blocks_where is_dirty s) < NBUF)%nat ->
  exists i, scan is_free s (rev (lru s)) = Some i.
Proof.
  intros Hi Hsz. destruct (scan is_free s (rev (lru s))) as [i|] eqn:Es; [by exists i|exfalso].
  pose proof (scan_no_buf _ _ _ Hi (symmetry (Permutation_rev _)) Es) as Hno.
  assert (Hd : forall i x, bufs s !! i = Some x -> dev x = 1 /\ (is_locked x = true \/ is_dirty x = true)).
  { intros i x Hx. eapply not_free_used; eauto. }
  assert (Hsub : list_to_set (blockno <$> bufs s) ⊆ blocks_where is_locked s ∪ blocks_where is_dirty s).
  { intros b. rewrite elem_of_list_to_set, list_elem_of_fmap. intros (x & -> & Hx).
    apply list_elem_of_lookup in Hx as [i Hx]. rewrite elem_of_union, !elem_of_blocks_where.
    destruct (Hd i x Hx) as [_ [?|?]]; eauto 10. }
  apply subseteq_size in Hsub. rewrite size_list_to_set, length_fmap, (bi_len s Hi) in Hsub; [lia|].
  apply NoDup_blocknos; [done|]. intros i x Hx. by apply (Hd i x).
Qed.

Lemma wp_b_acquiresleep i x (Q : unit -> bio -> ctx -> Prop) s c :
  held c = [] -> bufs s !! i = Some x -> is_locked x = false ->
  Q tt (setb i (set_lock (mksleeplock true (mypid c)) x) s) c -> wp (b_acquiresleep i) Q s c.
Proof.
  intros Hc Hx Hl HQ. apply wp_acquiresleep; [rewrite Hc; set_solver| |].
  - cbn. by rewrite (buf_at_lookup i x).
  - by rewrite (lset_buf_lock i _ x).
Qed.

Lemma wp_b_holdingsleep i x (Q : bool -> bio -> ctx -> Prop) s c :
  held c = [] -> bufs s !! i = Some x -> Q (is_locked x) s c -> wp (b_holdingsleep i) Q s c.
Proof.
  intros Hc Hx HQ. apply wp_holdingsleep; [rewrite Hc; set_solver|]. cbn.
  by rewrite (buf_at_lookup i x).
Qed.

Lemma iderw_read i y e (Q : unit -> bio -> ctx -> Prop) s c :
  held c = [] -> bufs s !! i = Some y -> is_locked y = true -> flags y = 0 -> dev y = 1 ->
  blockno y < disksize s -> memdisk s !! blockno y = Some e ->
  Q tt (setb i (set_flags 2 (set_bufdata e y)) s) c -> wp (iderw i) Q s c.
Proof.
  intros Hc Hy Hl Hf Hd Hb He HQ. unfold iderw. kstep. apply (wp_b_holdingsleep i y); [done..|].
  rewrite Hl. cbn [negb]. ksteps. rewrite (buf_at_lookup i y) by done. rewrite Hf, Hd. cbn [Z.land].
  rewrite (proj2 (Z.leb_gt _ _)) by lia.
  change (Z.land 0 (Z.lor B_VALID B_DIRTY) =? B_VALID) with false.
  change (negb (Z.land 0 B_DIRTY =? 0)) with false. cbn [negb Z.eqb Pos.eqb]. kstep. rewrite He.
  cbn [default].
  eapply wp_upd_buf; [done|]. eapply wp_upd_buf; [by eapply bufs_setb|].
  rewrite setb_setb. cbn [flags set_bufdata]. rewrite Hf. exact HQ.
Qed.

Lemma iderw_write i y (Q : unit -> bio -> ctx -> Prop) s c :
  held c = [] -> bufs s !! i = Some y -> is_locked y = true -> flags y = 6 -> dev y = 1 ->
  blockno y < disksize s ->
  Q tt (mkbio (<[i := set_flags 2 y]> (bufs s)) (lru s) (disksize s)
    (<[blockno y := bufdata y]> (memdisk s)) (dtrace s ++ [(blockno y, bufdata y)])) c ->
  wp (iderw i) Q s c.
Proof.
  intros Hc Hy Hl Hf Hd Hb HQ. unfold iderw. kstep. apply (wp_b_holdingsleep i y); [done..|].
  rewrite Hl. cbn [negb]. ksteps. rewrite (buf_at_lookup i y) by done. rewrite Hf, Hd. cbn [Z.land].
  rewrite (proj2 (Z.leb_gt _ _)) by lia.
  change (Z.land 6 (Z.lor B_VALID B_DIRTY) =? B_VALID) with false.
  change (negb (Z.land 6 B_DIRTY =? 0)) with true. cbn [negb Z.eqb Pos.eqb]. ksteps.
  eapply wp_upd_buf; [done|]. rewrite Hf. ksteps.
  eapply wp_upd_buf; [by eapply bufs_setb|]. cbn [bufs setb lru disksize memdisk dtrace].
  unfold setb. cbn. rewrite list_insert_insert_eq. exact HQ.
Qed.

(** ** The promises of Block.v *)

Lemma holds_inv s i b :
  bio_inv s -> holds i s = Some b ->
  exists x, bufs s !! i = Some x /\ is_locked x = true /\ blockno x = b /\ dev x = 1 /\
    b < disksize s /\ is_Some (memdisk s !! b) /\ wf_block (bufdata x) /\ refcnt x = 1 /\
    (flags x = 2 \/ flags x = 6).
Proof.
  intros Hi Hh. apply holds_Some in Hh as (x & Hx & Hl & Hb). exists x.
  destruct (bi_bufs s Hi i x Hx) as [Hwf Hr Hst]. unfold is_locked in Hl. rewrite Hl in Hr.
  destruct Hst as [(_ & _ & ?)|(Hd & Hsm & Hf & _)]; [congruence|]. rewrite Hb in Hsm.
  pose proof (proj1 (bi_dom s Hi b) (proj2 (elem_of_dom _ _) Hsm)). repeat (split; [first [done|lia]|]). done.
Qed.

(** A change of a held buffer that keeps its block, its lock and the disk. *)
Lemma held_update s i x y :
  bio_inv s -> bufs s !! i = Some x -> dev x = 1 -> is_locked x = true -> is_locked y = true ->
  dev y = 1 -> blockno y = blockno x -> refcnt y = 1 -> flags y = 2 \/ flags y = 6 ->
  wf_block (bufdata y) ->
  bio_inv (setb i y s) /\ view (setb i y s) = <[blockno x := bufdata y]> (view s) /\
  blocks_where is_locked (setb i y s) = blocks_where is_locked s /\
  (forall j, holds j (setb i y s) = holds j s).
Proof.
  intros Hi Hx Hdx Hlx Hly Hdy Hb Hr Hf Hwf.
  destruct (bi_bufs s Hi i x Hx) as [_ _ [(? & _)|(_ & [e He] & _ & _)]]; [congruence|].
  destruct (keep_block s i x y (lru s) (memdisk s) (dtrace s)) as [Hi' Hv]; try done.
  - apply (bi_lru s Hi).
  - exists e. split; [done|by eapply (bi_disk s Hi)].
  - unfold is_locked in Hly. split; [done|by rewrite Hly|]. right.
    rewrite Hb, He. repeat (split; [first [done|by eexists]|]). congruence.
  - split; [done|]. split; [done|]. split; [apply (blocks_where_same _ _ x); [done|congruence|done]|].
    intros j. destruct (decide (j = i)) as [->|Hne]; [|by apply holds_setb_ne].
    rewrite (holds_setb i x) by done. unfold holds. by rewrite Hx, Hly; cbn; rewrite Hlx, Hb.
Qed.

Lemma view_insert_id s i x :
  bio_inv s -> bufs s !! i = Some x -> dev x = 1 -> <[blockno x := bufdata x]> (view s) = view s.
Proof. intros Hi Hx Hd. apply insert_id. by eapply view_buf. Qed.

Lemma bread_cached s c i x b Q :
  bio_inv s -> held c = [] -> b ∉ blocks_where is_locked s ->
  scan (is_block 1 b) s (lru s) = Some i -> bufs s !! i = Some x -> dev x = 1 -> blockno x = b ->
  (forall y, y = set_lock (mksleeplock true (mypid c)) (set_refcnt 1 x) -> Q i (setb i y s) c) ->
  wp (bio_bread 1 b) Q s c.
Proof.
  intros Hi Hc Hnl Hs Hx Hd Hb HQ. destruct c as [h w pid]; cbn in Hc; subst h.
  assert (Hl : is_locked x = false).
  { destruct (is_locked x) eqn:El; [|done]. destruct Hnl. apply elem_of_blocks_where. eauto. }
  destruct (bi_bufs s Hi i x Hx) as [_ Hr [(? & _)|(_ & _ & Hf & _)]]; [congruence|].
  unfold is_locked in Hl. rewrite Hl in Hr.
  unfold bio_bread, bget. do 2 kstep. apply wp_acquire; [cbn; set_solver|]. cbn [held woken mypid]. do 2 kstep. rewrite Hs. ksteps.
  eapply wp_upd_buf; [done|]. ksteps. rewrite Hr. change (u32 (0 + 1)) with 1.
  eapply wp_b_acquiresleep; [done|by eapply bufs_setb|done|]. rewrite setb_setb. ksteps.
  rewrite (buf_at_lookup i (set_lock (mksleeplock true pid) (set_refcnt 1 x)))
    by (by eapply bufs_setb).
  cbn [flags set_lock set_refcnt].
  replace (Z.land (flags x) B_VALID =? 0) with false by (by destruct Hf as [-> | ->]).
  ksteps. by apply HQ.
Qed.

Lemma bread_recycle s c i x b e Q :
  bio_inv s -> held c = [] -> memdisk s !! b = Some e -> b < disksize s ->
  scan (is_block 1 b) s (lru s) = None ->
  scan is_free s (rev (lru s)) = Some i -> bufs s !! i = Some x -> is_free x = true ->
  (forall y, y = mkbuf 2 1 b (mksleeplock true (mypid c)) 1 e -> Q i (setb i y s) c) ->
  wp (bio_bread 1 b) Q s c.
Proof.
  intros Hi Hc He Hlt Hs1 Hs2 Hx Hf HQ. destruct c as [h w pid]; cbn in Hc; subst h.
  assert (Hl : is_locked x = false).
  { destruct (bi_bufs s Hi i x Hx) as [_ Hr _]. unfold is_free in Hf. rewrite Hr in Hf.
    unfold is_locked. by destruct (slocked (block_lock x)). }
  unfold bio_bread, bget. do 2 kstep. apply wp_acquire; [cbn; set_solver|]. cbn [held woken mypid]. do 2 kstep. rewrite Hs1, Hs2. ksteps.
  eapply wp_upd_buf; [done|]. ksteps.
  eapply wp_b_acquiresleep; [done|by eapply bufs_setb|done|]. rewrite setb_setb. ksteps.
  erewrite buf_at_lookup by (by eapply bufs_setb). cbn [flags set_lock].
  change (Z.land 0 B_VALID =? 0) with true. cbv iota. ksteps.
  eapply (iderw_read i); [done|by eapply bufs_setb|done|done|done|done|done|].
  rewrite setb_setb. cbn [set_flags set_bufdata set_lock blockno dev block_lock refcnt bufdata mypid].
  ksteps. by apply HQ.
Qed.

Abbreviation locked s := (blocks_where is_locked s).
Abbreviation pinned s := (blocks_where is_dirty s).

(** The state after bread of block [b] into buffer [i]. *)
Definition after_bread (b : Z) (s : bio) (i : nat) (s' : bio) : Prop :=
  bio_inv s' /\ holds i s' = Some b /\
  view s' = view s /\ memdisk s' = memdisk s /\ dtrace s' = dtrace s /\
  locked s' = {[b]} ∪ locked s /\ pinned s' = pinned s /\
  (forall j x, holds j s = Some x -> holds j s' = Some x).

Lemma holds_setb_unlocked i x y s :
  bufs s !! i = Some x -> is_locked x = false ->
  forall j z, holds j s = Some z -> holds j (setb i y s) = Some z.
Proof.
  intros Hx Hl j z Hj. rewrite holds_setb_ne; [done|]. intros ->.
  apply holds_Some in Hj as (w & Hw & Hlw & _). congruence.
Qed.

Lemma after_bread_cached s i x y b p :
  bio_inv s -> bufs s !! i = Some x -> dev x = 1 -> blockno x = b -> is_locked x = false ->
  y = set_lock (mksleeplock true p) (set_refcnt 1 x) -> after_bread b s i (setb i y s).
Proof.
  intros Hi Hx Hd Hbx Hl Hy.
  destruct (bi_bufs s Hi i x Hx) as [Hwf Hr [(? & _)|(_ & [e He] & Hfl & _)]]; [congruence|].
  destruct (keep_block s i x y (lru s) (memdisk s) (dtrace s)) as [Hi' Hv]; subst y; try done.
  - apply (bi_lru s Hi).
  - exists e. split; [done|by eapply (bi_disk s Hi)].
  - split; [done|done|]. right. cbn. rewrite He. repeat (split; [first [done|by eexists]|]). done.
  - split; [done|]. split; [rewrite (holds_setb i x) by done; cbn; by rewrite Hbx|].
    split; [unfold setb; rewrite Hv; by apply (view_insert_id s i x)|].
    do 2 (split; [done|]). split; [|split; [by apply (blocks_where_same _ _ x)|]].
    + rewrite (blocks_where_add _ i x) by (done || congruence). cbn. by rewrite Hbx.
    + by apply (holds_setb_unlocked i x).
Qed.

Lemma after_bread_recycle s i x b e p :
  bio_inv s -> bufs s !! i = Some x -> is_free x = true ->
  (forall j z, bufs s !! j = Some z -> dev z = 1 -> blockno z <> b) -> memdisk s !! b = Some e ->
  after_bread b s i (setb i (mkbuf 2 1 b (mksleeplock true p) 1 e) s).
Proof.
  intros Hi Hx Hf Hno He.
  destruct (recycle s i x (mkbuf 2 1 b (mksleeplock true p) 1 e) b e) as [Hi' Hv]; try done.
  assert (is_locked x = false /\ is_dirty x = false) as [Hnlx Hndx].
  { destruct (bi_bufs s Hi i x Hx) as [_ Hr _]. unfold is_free in Hf. rewrite Hr in Hf.
    unfold is_locked, is_dirty. destruct (slocked (block_lock x)); [done|]. split; [done|].
    apply Z.eqb_neq. intros E6. by rewrite E6 in Hf. }
  split; [done|]. split; [by rewrite (holds_setb i x)|]. split; [done|]. do 2 (split; [done|]).
  split; [|split].
  - by rewrite (blocks_where_add _ i x) by (done || congruence).
  - by apply (blocks_where_neither _ _ x).
  - by apply (holds_setb_unlocked i x).
Qed.

Lemma bread_spec s c b :
  bio_inv s -> held c = [] -> b ∈ dom (memdisk s) -> b ∉ locked s ->
  b ∈ pinned s \/ (size (locked s ∪ pinned s) < NBUF)%nat ->
  wp (bio_bread 1 b) (fun i s' c' => same_cpu c c' /\ after_bread b s i s') s c.
Proof.
  intros Hi Hc Hb Hnl Hsz. destruct (scan (is_block 1 b) s (lru s)) as [i|] eqn:Es.
  - destruct (scan_buf _ _ _ _ Hi (reflexivity _) Es) as (x & Hx & Hf).
    apply is_block_spec in Hf as [Hd Hbx]. eapply bread_cached; try done. intros y Hy.
    split; [done|]. apply (after_bread_cached s i x y b (mypid c)); try done.
    destruct (is_locked x) eqn:El; [|done]. destruct Hnl. apply elem_of_blocks_where. eauto.
  - assert (Hn : forall j z, bufs s !! j = Some z -> is_block 1 b z = false)
      by (by apply (scan_no_buf _ _ _ Hi (reflexivity _) Es)).
    destruct Hsz as [Hp|Hsz].
    { apply elem_of_blocks_where in Hp as (j & z & Hz & Hdz & Hbz). exfalso.
      specialize (Hn j z Hz). rewrite (proj2 (is_block_spec b z)) in Hn; [done|].
      split; [by apply (dirty_used s Hi j z)|done]. }
    destruct (free_exists s Hi Hsz) as [i Es2].
    destruct (scan_buf _ _ _ _ Hi (symmetry (Permutation_rev _)) Es2) as (x & Hx & Hf).
    pose proof (proj1 (bi_dom s Hi b) Hb) as Hrange. apply elem_of_dom in Hb as [e He].
    eapply bread_recycle; try done; [lia|]. intros y ->. split; [done|].
    apply (after_bread_recycle s i x); try done. intros j z Hz Hdz E. specialize (Hn j z Hz).
    rewrite (proj2 (is_block_spec b z)) in Hn by done. done.
Qed.

Lemma bwrite_spec s c i b :
  bio_inv s -> held c = [] -> holds i s = Some b ->
  wp (bio_bwrite i) (fun _ s' c' => bio_inv s' /\ same_cpu c c' /\
    view s' = view s /\ memdisk s' = <[b := bufdata (buf_at i s)]> (memdisk s) /\
    dtrace s' = dtrace s ++ [(b, bufdata (buf_at i s))] /\
    locked s' = locked s /\ pinned s' = pinned s ∖ {[b]} /\
    (forall j, holds j s' = holds j s)) s c.
Proof.
  intros Hi Hc Hh. destruct (holds_inv s i b Hi Hh) as (x & Hx & Hl & Hb & Hd & Hlt & _ & Hwf & Hr & Hf).
  unfold bio_bwrite. kstep. apply (wp_b_holdingsleep i x); [done..|]. rewrite Hl. cbn [negb]. kstep.
  apply (wp_upd_buf i _ x); [done|]. apply (iderw_write i (set_flags 6 x)); try done.
  { replace (Z.lor (flags x) B_DIRTY) with 6 by (by destruct Hf as [-> | ->]). by eapply bufs_setb. }
  { by rewrite <- Hb in Hlt. }
  replace (Z.lor (flags x) B_DIRTY) with 6 by (by destruct Hf as [-> | ->]).
  cbn [setb bufs lru disksize memdisk dtrace]. rewrite list_insert_insert_eq.
  cbn [blockno bufdata set_flags]. rewrite Hb, (buf_at_lookup i x s Hx).
  set (y := set_flags 2 (set_flags 6 x)).
  destruct (keep_block s i x y (lru s) (<[b := bufdata x]> (memdisk s))
    (dtrace s ++ [(b, bufdata x)])) as [Hi' Hv]; try done.
  - apply (bi_lru s Hi).
  - intros b' Hne. rewrite Hb in Hne. by rewrite lookup_insert_ne.
  - exists (bufdata x). rewrite Hb, lookup_insert_eq. done.
  - split; [done|unfold y; cbn; unfold is_locked in Hl; by rewrite Hl, Hr|]. right.
    cbn. rewrite Hb, lookup_insert_eq. repeat (split; [first [done|by eexists|by left]|]). done.
  - split; [done|]. split; [done|]. split; [rewrite Hv; by apply (view_insert_id s i x)|].
    do 2 (split; [done|]).
    split; [by apply (blocks_where_same is_locked i x y s)|].
    split; [rewrite <- Hb; by apply (blocks_where_remove is_dirty i x y s Hi (dirty_used s Hi))|].
    intros j. destruct (decide (j = i)) as [->|Hne].
    + change (holds i (setb i y s) = holds i s). rewrite (holds_setb i x) by done.
      unfold y, is_locked; cbn. unfold is_locked in Hl. by rewrite Hl, Hh, Hb.
    + change (holds j (setb i y s) = holds j s). by apply holds_setb_ne.
Qed.

Lemma lru_move i l : i ∈ l -> l ≡ₚ seq 0 NBUF -> i :: filter (fun j => j <> i) l ≡ₚ seq 0 NBUF.
Proof.
  intros Hi Hl. rewrite <- Hl. assert (Hnd : NoDup l) by (rewrite Hl; apply NoDup_seq).
  apply NoDup_Permutation; [|done|].
  - constructor; [|by apply NoDup_filter]. rewrite list_elem_of_filter. by intros [? _].
  - intros j. rewrite elem_of_cons, list_elem_of_filter. split; [intros [->|[_ ?]]; done|].
    intros Hj. destruct (decide (j = i)); auto.
Qed.

Lemma brelse_run i x s c (Q : unit -> bio -> ctx -> Prop) :
  held c = [] -> bufs s !! i = Some x -> is_locked x = true -> refcnt x = 1 ->
  (forall c', same_cpu c c' ->
    Q tt (set_lru (i :: filter (fun j => j <> i) (lru s))
      (setb i (set_refcnt 0 (set_lock (mksleeplock false 0) x)) s)) c') ->
  wp (bio_brelse i) Q s c.
Proof.
  intros Hc Hx Hl Hr HQ. destruct c as [h w p]; cbn in Hc; subst h. unfold bio_brelse. kstep.
  apply (wp_b_holdingsleep i x); [done..|]. rewrite Hl. cbn [negb]. kstep.
  apply wp_releasesleep; [cbn; set_solver|]. rewrite (lset_buf_lock i _ x) by done.
  cbn [held woken mypid]. kstep. apply wp_acquire; [cbn; set_solver|]. cbn [held woken mypid].
  kstep. eapply wp_upd_buf; [by eapply bufs_setb|]. rewrite setb_setb. cbn [refcnt set_lock].
  rewrite Hr. change (u32 (1 - 1)) with 0. do 2 kstep.
  erewrite buf_at_lookup by (by eapply bufs_setb). cbn [refcnt set_refcnt Z.eqb]. ksteps.
  by apply HQ.
Qed.

Lemma brelse_spec s c i b :
  bio_inv s -> held c = [] -> holds i s = Some b ->
  b ∈ pinned s \/ view s !! b = memdisk s !! b ->
  wp (bio_brelse i) (fun _ s' c' => bio_inv s' /\ same_cpu c c' /\
    view s' = view s /\ memdisk s' = memdisk s /\ dtrace s' = dtrace s /\
    locked s' = locked s ∖ {[b]} /\ pinned s' = pinned s /\
    (forall j, j <> i -> holds j s' = holds j s)) s c.
Proof.
  intros Hi Hc Hh Hclean.
  destruct (holds_inv s i b Hi Hh) as (x & Hx & Hl & Hb & Hd & Hlt & [e He] & Hwf & Hr & Hf).
  apply (brelse_run i x); [done..|]. intros c' Hc'.
  set (y := set_refcnt 0 (set_lock (mksleeplock false 0) x)).
  destruct (keep_block s i x y (i :: filter (fun j => j <> i) (lru s)) (memdisk s) (dtrace s))
    as [Hi' Hv]; try done.
  - apply lru_move; [|apply (bi_lru s Hi)]. apply lru_lookup; eauto.
  - rewrite Hb, He. exists e. split; [done|by eapply (bi_disk s Hi)].
  - split; [done|done|]. right. cbn. rewrite Hb, He. do 2 (split; [first [done|by eexists]|]).
    split; [done|]. intros _ Hf2. destruct Hclean as [Hp|Hp].
    + apply elem_of_blocks_where in Hp as (j & z & Hj & Hz & Hbz).
      assert (j = i) as ->.
      { eapply (bi_uniq s Hi); eauto; [by apply (dirty_used s Hi j z)|congruence]. }
      assert (z = x) as -> by congruence. unfold is_dirty in Hz. by rewrite Hf2 in Hz.
    + rewrite He in Hp. rewrite <- Hp, <- Hb. by apply (view_buf s i x).
  - split; [done|]. split; [done|]. split; [unfold setb, set_lru; cbn -[view filter];
      rewrite Hv; by apply (view_insert_id s i x)|].
    do 2 (split; [done|]).
    split; [rewrite <- Hb; by apply (blocks_where_remove is_locked i x y s Hi (locked_used s Hi))|].
    split; [by apply (blocks_where_same is_dirty i x y s)|].
    intros j Hne. by apply (holds_setb_ne i j y s).
Qed.

Lemma alter_buf i f x s :
  bufs s !! i = Some x ->
  mkbio (alter f i (bufs s)) (lru s) (disksize s) (memdisk s) (dtrace s) = setb i (f x) s.
Proof. intros Hx. unfold setb. by rewrite (alter_insert f _ i x). Qed.

#[export] Program Instance bio_layer : BlockLayer bio := {
  bl_inv := bio_inv;
  bl_disk := memdisk;
  bl_trace := dtrace;
  bl_view := view;
  bl_locked s := locked s;
  bl_pinned s := pinned s;
  bl_buf := holds
}.
Next Obligation.
  intros s Hi. apply set_eq. intros b. rewrite !elem_of_dom, lookup_view.
  destruct (memdisk s !! b); cbn; split; intros [? ?]; eauto.
Qed.
Next Obligation.
  intros s b d Hi. rewrite lookup_view. destruct (memdisk s !! b) as [e|] eqn:He; [|done]. cbn.
  destruct (cached (bufs s) b) as [x|] eqn:Ec; intros [= <-]; [|by eapply (bi_disk s Hi)].
  apply cached_Some in Ec as (i & Hx & _). by apply (bi_bufs s Hi i x).
Qed.
Next Obligation. intros s b d Hi. apply (bi_disk s Hi). Qed.
Next Obligation.
  intros s b Hi Hl Hp. destruct (cached (bufs s) b) as [x|] eqn:Ec.
  - apply cached_Some in Ec as (i & Hx & Hd & <-). rewrite (view_buf s i x) by done.
    destruct (bi_bufs s Hi i x Hx) as [_ _ [(? & _)|(_ & _ & Hf & Hcl)]]; [congruence|].
    symmetry. apply Hcl.
    + destruct (slocked (block_lock x)) eqn:El; [|done]. destruct Hl.
      apply elem_of_blocks_where. eauto.
    + destruct Hf as [?|Hf6]; [done|]. destruct Hp. apply elem_of_blocks_where.
      exists i, x. unfold is_dirty. by rewrite Hf6.
  - apply view_uncached. apply (cached_None _ _ Ec).
Qed.
Next Obligation.
  intros s i b Hi Hh. destruct (holds_inv s i b Hi Hh) as (x & Hx & Hl & Hb & Hd & _). cbn.
  rewrite (buf_at_lookup i x s Hx). rewrite <- Hb. split; [by apply (view_buf s i x)|].
  split; [done|]. apply elem_of_blocks_where. eauto.
Qed.
Next Obligation.
  intros s i j b Hi Hh Hh'. destruct (holds_inv s i b Hi Hh) as (x & Hx & _ & Hb & Hd & _).
  destruct (holds_inv s j b Hi Hh') as (y & Hy & _ & Hb' & Hd' & _).
  eapply (bi_uniq s Hi); eauto. congruence.
Qed.
Next Obligation.
  intros s c b Hi Hc Hb Hl Hsz. eapply wp_mono; [by apply bread_spec|].
  intros i s' c' (? & ? & ? & ? & ? & ? & ? & ? & ?). done.
Qed.
Next Obligation. intros s c i b Hi Hc Hh. by apply bwrite_spec. Qed.
Next Obligation. intros s c i b Hi Hc Hh Hcl. by apply brelse_spec. Qed.
Next Obligation.
  intros s i b d Hi Hh Hwf. destruct (holds_inv s i b Hi Hh) as (x & Hx & Hl & Hb & Hd & _ & _ & _ & Hr & Hf).
  cbn -[blocks_where view]. rewrite (alter_buf i _ x s Hx).
  destruct (held_update s i x (set_bufdata d x)) as (H1 & H2 & H3 & H4); try done.
  split; [done|]. rewrite H2, Hb. split; [done|]. do 2 (split; [done|]).
  split; [done|].
  split; [by apply (blocks_where_same _ _ x)|done].
Qed.
Next Obligation.
  intros s i b Hi Hh. destruct (holds_inv s i b Hi Hh) as (x & Hx & Hl & Hb & Hd & _ & _ & Hwf & Hr & Hf).
  cbn -[blocks_where view]. rewrite (alter_buf i _ x s Hx).
  replace (Z.lor (flags x) B_DIRTY) with 6 by (by destruct Hf as [-> | ->]).
  destruct (held_update s i x (set_flags 6 x)) as (H1 & H2 & H3 & H4); try done; [by right|].
  split; [done|]. rewrite H2. split; [by apply (view_insert_id s i x)|].
  do 2 (split; [done|]). split; [done|]. split; [|done]. rewrite <- Hb.
  rewrite (blocks_where_add _ i x); done.
Qed.

(** ** The cache after binit *)

Definition fresh_bio (D : blocks) (n : Z) : bio :=
  mkbio (replicate NBUF zero_buf) (rev (seq 0 NBUF)) n D [].

Lemma wf_zero_block : wf_block (replicate BSIZEn 0).
Proof. split; [apply length_replicate|]. apply Forall_replicate. unfold is_byte. lia. Qed.

Lemma fresh_inv D n :
  (forall b, b ∈ dom D <-> 0 <= b < n) -> (forall b d, D !! b = Some d -> wf_block d) ->
  bio_inv (fresh_bio D n).
Proof.
  intros Hdom Hwf. split; cbn -[NBUF replicate seq rev].
  - apply length_replicate.
  - by rewrite <- Permutation_rev.
  - intros i x Hx. apply lookup_replicate in Hx as [-> _]. split; [apply wf_zero_block|done|by left].
  - intros i j x y Hx. apply lookup_replicate in Hx as [-> _]. done.
  - done.
  - done.
Qed.

Lemma fresh_none f D n : f zero_buf = false -> blocks_where f (fresh_bio D n) = ∅.
Proof.
  intros Hf. apply set_eq. intros b. rewrite elem_of_blocks_where. split; [|set_solver].
  intros (i & x & Hx & Hfx & _). cbn -[NBUF replicate] in Hx. apply lookup_replicate in Hx as [-> _].
  congruence.
Qed.

Lemma fresh_blk D n :
  (forall b, b ∈ dom D <-> 0 <= b < n) -> (forall b d, D !! b = Some d -> wf_block d) ->
  blk (fresh_bio D n) D D [] ∅ ∅.
Proof.
  intros Hdom Hwf. split; [by apply fresh_inv| |done|done|by apply fresh_none|by apply fresh_none].
  apply map_eq. intros b. apply view_uncached. intros i x Hx.
  cbn -[NBUF replicate] in Hx. apply lookup_replicate in Hx as [-> _]. done.
Qed.

(** binit gives every buffer a place in the list. *)
Lemma binit_loop_run n i s c :
  wp (binit_loop n i) (fun _ s' c' => c' = c /\ lru s' = rev (seq i n) ++ lru s /\
    disksize s' = disksize s /\ memdisk s' = memdisk s /\ dtrace s' = dtrace s /\
    (bufs s = replicate NBUF zero_buf -> bufs s' = replicate NBUF zero_buf)) s c.
Proof.
  revert i s. induction n as [|n IH]; intros i s; cbn [binit_loop]; [by ksteps|].
  unfold initsleeplock. ksteps. eapply wp_mono; [apply IH|]. cbn -[rev seq replicate NBUF].
  intros _ s' c' (-> & Hl & -> & -> & -> & Hb). split; [done|]. split; [|do 3 (split; [done|])].
  - rewrite Hl. cbn. by rewrite <- app_assoc.
  - intros E. apply Hb. rewrite E. destruct (decide (i < NBUF)%nat) as [Hi|Hi].
    + rewrite (alter_insert _ _ i zero_buf) by (by apply lookup_replicate_2).
      apply list_insert_id. by apply lookup_replicate_2.
    + apply list_eq. intros j. destruct (decide (i = j)) as [->|Hne].
      * rewrite list_lookup_alter_eq. rewrite lookup_ge_None_2; [done|]. rewrite length_replicate. lia.
      * by rewrite list_lookup_alter_ne.
Qed.

(** Booting the cache: binit, run on the zeroed array of buffers, gives
    an empty cache that satisfies the invariant of the buffer cache, for
    any well-formed disk. *)
Theorem binit_correct D n l c :
  (forall b, b ∈ dom D <-> 0 <= b < n) -> (forall b d, D !! b = Some d -> wf_block d) ->
  wp binit (fun _ s' c' => c' = c /\ s' = fresh_bio D n /\ bio_inv s' /\ view s' = D)
    (mkbio (replicate NBUF zero_buf) l n D []) c.
Proof.
  intros Hdom Hwf. unfold binit. ksteps. eapply wp_mono; [apply binit_loop_run|].
  cbn -[rev seq replicate NBUF]. rewrite app_nil_r.
  intros _ [b' l' n' D' t'] c' (-> & E1 & E2 & E3 & E4 & E5). cbn in E1, E2, E3, E4.
  specialize (E5 eq_refl). cbn -[replicate NBUF] in E5. subst. split; [done|]. split; [done|]. by destruct (fresh_blk D n Hdom Hwf).
Qed.

(** A disk of [n] blocks of zeros. *)
Definition zero_disk (n : Z) : blocks :=
  gset_to_gmap (replicate BSIZEn 0) (list_to_set (seqZ 0 n)).

Lemma zero_disk_dom n b : b ∈ dom (zero_disk n) <-> 0 <= b < n.
Proof.
  unfold zero_disk. rewrite dom_gset_to_gmap, elem_of_list_to_set, elem_of_seqZ. lia.
Qed.

Lemma zero_disk_wf n b d : zero_disk n !! b = Some d -> wf_block d.
Proof. unfold zero_disk. rewrite lookup_gset_to_gmap_Some. intros [_ <-]. apply wf_zero_block. Qed.

Lemma binit_correct_witness :
  wp binit (fun _ s' c' => c' = mkctx [] [] 0 /\ s' = fresh_bio (zero_disk 40) 40 /\ bio_inv s' /\
    view s' = zero_disk 40) (mkbio (replicate NBUF zero_buf) [] 40 (zero_disk 40) []) (mkctx [] [] 0).
Proof. apply binit_correct; [apply zero_disk_dom|apply zero_disk_wf]. Defined.

(** Reading through the cache: bread of a block of the disk that no
    buffer holds locked finds a buffer (it cannot run out while fewer than
    NBUF blocks are locked or pinned), returns it locked with the block's
    current contents, and changes neither the disk nor the contents of any
    block, although it may recycle a buffer. *)
Theorem bread_current s c b :
  bio_inv s -> held c = [] -> 0 <= b < disksize s -> b ∉ locked s ->
  (size (locked s ∪ pinned s) < NBUF)%nat ->
  wp (bio_bread 1 b) (fun i s' c' => bio_inv s' /\ held c' = [] /\ holds i s' = Some b /\
    view s !! b = Some (bufdata (buf_at i s')) /\ view s' = view s /\ memdisk s' = memdisk s /\
    pinned s' = pinned s) s c.
Proof.
  intros Hi Hc Hb Hl Hsz. rewrite <- (bi_dom s Hi) in Hb.
  eapply wp_mono; [by apply (bread_spec s c b); [..|right]|].
  intros i s' c' ([Hh _] & Hi' & Hbuf & Hv & Hm & _ & _ & Hp & _).
  split; [done|]. split; [congruence|]. split; [done|]. split; [|done]. rewrite <- Hv.
  destruct (holds_inv s' i b Hi' Hbuf) as (x & Hx & _ & <- & Hd & _).
  rewrite (buf_at_lookup i x s' Hx). by apply (view_buf s' i x).
Qed.

Lemma bread_current_witness :
  wp (bio_bread 1 33) (fun i s' c' => bio_inv s' /\ held c' = [] /\ holds i s' = Some 33 /\
    view (fresh_bio (zero_disk 40) 40) !! 33 = Some (bufdata (buf_at i s')) /\
    view s' = view (fresh_bio (zero_disk 40) 40) /\ memdisk s' = zero_disk 40 /\
    pinned s' = pinned (fresh_bio (zero_disk 40) 40)) (fresh_bio (zero_disk 40) 40) (mkctx [] [] 0).
Proof.
  apply bread_current.
  - apply fresh_inv; [apply zero_disk_dom|apply zero_disk_wf].
  - reflexivity.
  - cbn. lia.
  - rewrite fresh_none by done. apply not_elem_of_empty.
  - rewrite !fresh_none by done. rewrite union_empty_l_L, size_empty. unfold NBUF. lia.
Defined.

(** ** Runs of the cache *)

(** What a client does with the cache. *)
Inductive cop : Type :=
| ReadBlock (b : Z)
| Edit (i : nat) (d : bytes)
| Pin (i : nat)
| WriteBack (i : nat)
| Release (i : nat).

Definition do_op (o : cop) : K bio unit :=
  match o with
  | ReadBlock b => i ← bread 1 b; mret tt
  | Edit i d => modify (bset_data i d)
  | Pin i => modify (bset_dirty i)
  | WriteBack i => bwrite i
  | Release i => brelse i
  end.

(** The protocol: read what is not locked while a buffer is left, use the
    buffers one has locked, and release a changed block only when it is
    pinned or written. *)
Definition allowed (s : bio) (o : cop) : Prop :=
  match o with
  | ReadBlock b => 0 <= b < disksize s /\ b ∉ locked s /\ (b ∈ pinned s \/ (size (locked s ∪ pinned s) < NBUF)%nat)
  | Edit i d => is_Some (holds i s) /\ wf_block d
  | Pin i | WriteBack i => is_Some (holds i s)
  | Release i => exists b, holds i s = Some b /\ (b ∈ pinned s \/ view s !! b = memdisk s !! b)
  end.

Definition cstep (s s' : bio) : Prop := exists o c c', allowed s o /\ held c = [] /\ do_op o s c = Ret tt s' c'.

Lemma do_op_run s o c : bio_inv s -> held c = [] -> allowed s o -> wp (do_op o) (fun _ s' _ => bio_inv s' /\ dom (memdisk s') = dom (memdisk s)) s c.
Proof.
  intros Hi Hc Ha. destruct o as [b|i d|i|i|i]; cbn [do_op allowed] in *.
  - destruct Ha as (Hb & Hl & Hr). rewrite <- (bi_dom s Hi) in Hb. kstep. eapply wp_mono; [by apply (bl_bread s c b)|].
    intros i s' c' (Hi' & _ & _ & _ & Hd & _). cbn in Hd. ksteps. by rewrite Hd.
  - destruct Ha as [[b Hb] Hd]. destruct (@bl_set_data bio _ bio_layer s i b d Hi Hb Hd) as (Hi' & _ & Hm & _). ksteps. by split.
  - destruct Ha as [b Hb]. destruct (@bl_set_dirty bio _ bio_layer s i b Hi Hb) as (Hi' & _ & Hm & _). ksteps. by split.
  - destruct Ha as [b Hb]. eapply wp_mono; [by apply (bl_bwrite s c i b)|]. intros _ s' c' (Hi' & _ & _ & Hd & _). cbn in Hd. split; [done|].
    rewrite Hd. apply dom_insert_lookup_L. destruct (@bl_buf_data bio _ bio_layer s i b Hi Hb) as (Hv & _ & _). change (dom (memdisk s)) with (dom (@bl_disk bio _ bio_layer s)).
    apply elem_of_dom. change (b ∈ dom (@bl_disk bio _ bio_layer s)). rewrite <- (@bl_view_dom bio _ bio_layer s Hi). by eapply elem_of_dom_2.
  - destruct Ha as (b & Hb & Hr). eapply wp_mono; [by apply (bl_brelse s c i b)|]. intros _ s' c' (Hi' & _ & _ & Hd & _). cbn in Hd. by rewrite Hd.
Qed.

(** C30. The buffer cache stays well formed: in every state that clients
    following its protocol reach from binit, the list of buffers is a
    permutation of the array, every buffer is of the right size, counted
    once exactly when locked, and clean buffers agree with the disk, no
    block is in two buffers, and the disk has the same blocks as at the
    start, all well formed; and no operation of the protocol panics or runs
    out of buffers. *)
Theorem cache_runs_typed D n l c s :
  (forall b, b ∈ dom D <-> 0 <= b < n) -> (forall b d, D !! b = Some d -> wf_block d) ->
  (exists s0 c0, binit (mkbio (replicate NBUF zero_buf) l n D []) c = Ret tt s0 c0 /\ rtc cstep s0 s) ->
  bio_inv s /\ dom (memdisk s) = dom D /\ (forall b d, view s !! b = Some d -> wf_block d) /\
  forall o c', allowed s o -> held c' = [] -> exists s' c'', do_op o s c' = Ret tt s' c''.
Proof.
  intros Hdom Hwf (s0 & c0 & E0 & Hr). assert (H0 : bio_inv s0 /\ dom (memdisk s0) = dom D).
  { destruct (wp_inv _ _ _ _ (binit_correct D n l c Hdom Hwf)) as ([] & s1 & c1 & E1 & _ & -> & Hi & _). rewrite E1 in E0. by injection E0 as <- _. }
  assert (H : bio_inv s /\ dom (memdisk s) = dom D).
  { clear E0 c. induction Hr as [s0|s0 s1 s2 (o & c & c' & Ha & Hc & Es) Hr IH]; [done|]. apply IH. destruct H0 as [Hi <-].
    apply (wp_run _ _ _ _ _ _ _ (do_op_run s0 o c Hi Hc Ha) Es). }
  destruct H as [Hi Hd]. split; [done|]. split; [done|]. split; [by intros b d; apply (@bl_view_wf bio _ bio_layer s b d)|].
  intros o c' Ha Hc. destruct (wp_inv _ _ _ _ (do_op_run s o c' Hi Hc Ha)) as ([] & s' & c'' & E & _). eauto.
Qed.

(** Reading block 33 of a disk of 40 blocks, and changing it. *)
Lemma cache_runs_typed_witness : exists s, (exists s0 c0, binit (mkbio (replicate NBUF zero_buf) [] 40 (zero_disk 40) []) (mkctx [] [] 0) = Ret tt s0 c0 /\ rtc cstep s0 s) /\
  bio_inv s /\ holds 0 s = Some 33.
Proof.
  assert (Ha : allowed (fresh_bio (zero_disk 40) 40) (ReadBlock 33)).
  { cbn [allowed]. rewrite !fresh_none by done. rewrite union_empty_l_L, size_empty. cbn [fresh_bio disksize]. unfold NBUF. split; [lia|]. split; [set_solver|right; lia]. }
  assert (E : exists s1 c1, do_op (ReadBlock 33) (fresh_bio (zero_disk 40) 40) (mkctx [] [] 0) = Ret tt s1 c1 /\ holds 0 s1 = Some 33) by (eexists _, _; split; vm_compute; reflexivity).
  destruct E as (s1 & c1 & E & Hh). exists s1.
  assert (Hrun : exists s0 c0, binit (mkbio (replicate NBUF zero_buf) [] 40 (zero_disk 40) []) (mkctx [] [] 0) = Ret tt s0 c0 /\ rtc cstep s0 s1).
  { destruct (wp_inv _ _ _ _ (binit_correct (zero_disk 40) 40 [] (mkctx [] [] 0) (zero_disk_dom 40) (zero_disk_wf 40))) as ([] & s0 & c0 & E0 & _ & -> & _).
    exists (fresh_bio (zero_disk 40) 40), c0. split; [done|]. apply rtc_once. by exists (ReadBlock 33), (mkctx [] [] 0), c1. }
  split; [done|]. split; [|done]. apply (cache_runs_typed (zero_disk 40) 40 [] (mkctx [] [] 0) s1 (zero_disk_dom 40) (zero_disk_wf 40) Hrun).
Defined.
