(* ===== verification/IdeProof.v ===== *)
(** * Correctness of the disk driver ide.c

    Threads call iderw, the disk carries out its commands and interrupts,
    woken threads go on: every interleaving of these steps keeps the
    invariant of the queue, from which the properties follow. *)

From stdpp Require Import base numbers strings gmap list.
From S2P Require Import Prelude Kmonad Mmu Locks Block Bio Ide.

Local Open Scope Z_scope.

(** The request a buffer stands for. *)
Definition request (x : buf) : command :=
  if dirty x then WriteSector (Z.land (dev x) 1) (blockno x) (bufdata x) else ReadSector (Z.land (dev x) 1) (blockno x).

Definition set_disk (d : disk) (s : ide) : ide := mkide (ibufs s) (qnext s) (idequeue s) (havedisk1 s) d.

(** ** The command *)

(** The registers idestart writes for block [b] of drive [dv] name them. *)
Lemma registers_name dv b : (dv = 0 \/ dv = 1) -> 0 <= b < 1000 ->
  let hi := u8 (Z.lor (Z.lor 0xe0 (Z.shiftl dv 4)) (Z.land (Z.shiftr b 24) 0x0f)) in
  hi / 16 mod 2 = dv /\
  u8 (Z.land b 0xff) + 256 * u8 (Z.land (Z.shiftr b 8) 0xff) + 65536 * u8 (Z.land (Z.shiftr b 16) 0xff) + 16777216 * (hi mod 16) = b.
Proof.
  intros Hd Hb.
  assert (Hall : Forall (fun b => Forall (fun dv => let hi := u8 (Z.lor (Z.lor 0xe0 (Z.shiftl dv 4)) (Z.land (Z.shiftr b 24) 0x0f)) in
    hi / 16 mod 2 = dv /\
    u8 (Z.land b 0xff) + 256 * u8 (Z.land (Z.shiftr b 8) 0xff) + 65536 * u8 (Z.land (Z.shiftr b 16) 0xff) + 16777216 * (hi mod 16) = b) [0; 1]) (seqZ 0 1000)).
  { cbv zeta. apply (bool_decide_unpack _). vm_compute. exact I. }
  rewrite Forall_forall in Hall. specialize (Hall b ltac:(apply elem_of_seqZ; lia)). rewrite Forall_forall in Hall.
  apply Hall. set_solver.
Qed.

Lemma land_1 x : Z.land x 1 = 0 \/ Z.land x 1 = 1.
Proof. pose proof (Z.land_ones x 1 ltac:(lia)) as H. change (Z.ones 1) with 1 in H. change (2 ^ 1) with 2 in H. rewrite H. pose proof (Z.mod_pos_bound x 2). lia. Qed.

(** What idestart leaves: the disk busy with the request of the buffer. *)
Record started (x : buf) (d d' : disk) : Prop := {
  st_cmd : dcmd d' = Some (request x);
  st_sectors : sectors d' = sectors d;
  st_ok : overrun d' = false
}.

Lemma wp_on_disk f (Q : unit -> ide -> ctx -> Prop) s c : Q tt (set_disk (f (idisk s)) s) c -> wp (on_disk f) Q s c.
Proof. done. Qed.

Lemma wp_outb p v (Q : unit -> ide -> ctx -> Prop) d s c : Q tt (set_disk (disk_outb p v d) s) c -> wp (outb p v) Q (set_disk d s) c.
Proof. done. Qed.

Lemma wp_outsl l (Q : unit -> ide -> ctx -> Prop) d s c : Q tt (set_disk (disk_outsl l d) s) c -> wp (outsl l) Q (set_disk d s) c.
Proof. done. Qed.

Lemma wp_idewait e (Q : Z -> ide -> ctx -> Prop) s c r st : wait_ready (dstat (idisk s)) = Some (r, st) ->
  Q (if e && is_error r then -1 else 0) (set_disk (set_stat st (idisk s)) s) c -> wp (idewait e) Q s c.
Proof. intros Hw HQ. unfold idewait. kstep. kstep. rewrite Hw. kstep. by apply wp_on_disk. Qed.

(** The disk after the registers are written. *)
Definition programmed (x : buf) (d : disk) : disk :=
  disk_outb 0x1f6 (Z.lor (Z.lor 0xe0 (Z.shiftl (Z.land (dev x) 1) 4)) (Z.land (Z.shiftr (blockno x) 24) 0x0f))
    (disk_outb 0x1f5 (Z.land (Z.shiftr (blockno x) 16) 0xff) (disk_outb 0x1f4 (Z.land (Z.shiftr (blockno x) 8) 0xff)
      (disk_outb 0x1f3 (Z.land (blockno x) 0xff) (disk_outb 0x1f2 1 (disk_outb 0x3f6 0 d))))).

Lemma programmed_started x d : 0 <= blockno x < 1000 -> dcmd d = None -> overrun d = false ->
  started x d (if dirty x then disk_outsl (bufdata x) (disk_outb 0x1f7 IDE_CMD_WRITE (programmed x d)) else disk_outb 0x1f7 IDE_CMD_READ (programmed x d)).
Proof.
  intros Hb Hc Ho. destruct (registers_name (Z.land (dev x) 1) (blockno x) (land_1 _) Hb) as [H1 H2].
  cbn zeta in H1, H2. unfold programmed. destruct (dirty x) eqn:E; split; unfold request; rewrite ?E.
  all: cbn [disk_outb disk_outsl set_stat dregs dcmd sectors overrun Z.eqb Pos.eqb]; rewrite ?H1, ?H2, ?Hc, ?Ho; reflexivity.
Qed.

Lemma wp_idestart i s c : 0 <= blockno (ibuf i s) < FSSIZE -> dcmd (idisk s) = None -> overrun (idisk s) = false ->
  is_Some (wait_ready (dstat (idisk s))) ->
  wp (idestart (Some i)) (fun _ s' c' => c' = c /\ exists d', s' = set_disk d' s /\ started (ibuf i s) (idisk s) d') s c.
Proof.
  intros Hb Hc Ho [[r st] Hw]. unfold idestart. kstep. kstep. set (x := ibuf i s) in *.
  rewrite (proj2 (Z.leb_gt _ _)) by lia. change (BSIZE / SECTOR_SIZE) with 1. cbn zeta.
  rewrite Z.mul_1_r, i32_id by (unfold FSSIZE in Hb; lia). change (1 =? 1) with true. change (7 <? 1) with false. cbn iota.
  kstep. eapply wp_idewait; [exact Hw|]. do 6 (kstep; apply wp_outb).
  change (disk_outb 0x1f6 _ _) with (programmed x (set_stat st (idisk s))).
  destruct (programmed_started x (set_stat st (idisk s)) Hb Hc Ho) as [S1 S2 S3].
  destruct (dirty x); [kstep; apply wp_outb; apply wp_outsl|apply wp_outb]; (split; [done|eexists; split; [reflexivity|by split]]).
Qed.

(** ** The queue *)

(** The queue from pointer [o] on has the buffers [q]. *)
Fixpoint qchain (qn : list (option nat)) (o : option nat) (q : list nat) : Prop :=
  match q with
  | [] => o = None
  | i :: q => o = Some i /\ (i < length qn)%nat /\ qchain qn (default None (qn !! i)) q
  end.

Lemma qchain_head qn o q : qchain qn o q -> o = head q.
Proof. by destruct q; cbn; [|intros []]. Qed.

Lemma qchain_insert qn i v q : forall o, i ∉ q -> qchain qn o q -> qchain (<[i := v]> qn) o q.
Proof.
  induction q as [|j q IH]; intros o Hi; [done|]. apply not_elem_of_cons in Hi as [Hne Hi]. intros (Ho & Hj & Hq).
  split_and!; [done|by rewrite length_insert|]. rewrite list_lookup_insert_ne by congruence. by apply IH.
Qed.

(** Appending [i] at the end [k]. *)
Lemma qchain_append qn i q : forall o k, qchain qn o (q ++ [k]) -> NoDup (q ++ [k]) -> i ∉ q ++ [k] -> (i < length qn)%nat -> qn !! i = Some None ->
  qchain (<[k := Some i]> qn) o (q ++ [k; i]).
Proof.
  induction q as [|j q IH]; intros o k; cbn [app qchain].
  - intros (Ho & Hk & Hn) _ Hi Hl Hq. split; [done|]. split; [by rewrite length_insert|].
    rewrite list_lookup_insert_eq by done. cbn. split_and!; [done|by rewrite length_insert|].
    rewrite list_lookup_insert_ne by set_solver. by rewrite Hq.
  - intros (Ho & Hj & Hq) Hnd Hi Hl Hn. apply NoDup_cons in Hnd as [Hj' Hnd]. split_and!; [done|by rewrite length_insert|].
    rewrite list_lookup_insert_ne by set_solver. apply IH; set_solver.
Qed.

Lemma queue_end_last s q : forall fuel j k, qchain (qnext s) (Some j) (q ++ [k]) -> (length q < fuel)%nat -> queue_end fuel s j = Some k.
Proof.
  induction q as [|i q IH]; intros [|fuel] j k Hq Hf; try (cbn in Hf; lia); cbn [app qchain queue_end] in *.
  - destruct Hq as ([= ->] & Hk & Hn). unfold qnext_of. by rewrite Hn.
  - destruct Hq as ([= ->] & Hi & Hq). unfold qnext_of. pose proof (qchain_head _ _ _ Hq) as Hh.
    destruct (default None (qnext s !! i)) as [j'|] eqn:E.
    + apply IH; [done|cbn in Hf; lia].
    + by destruct q.
Qed.

Lemma qchain_lt qn q : forall o i, qchain qn o q -> i ∈ q -> (i < length qn)%nat.
Proof. induction q as [|j q IH]; intros o i Hq Hi; [set_solver|]. destruct Hq as (_ & Hj & Hq). apply elem_of_cons in Hi as [-> |Hi]; eauto. Qed.

Lemma NoDup_length q n : NoDup q -> (forall i, i ∈ q -> (i < n)%nat) -> (length q <= n)%nat.
Proof.
  intros Hnd Hlt. rewrite <- (length_seq n 0). apply submseteq_length, NoDup_submseteq; [done|].
  intros i Hi. apply elem_of_seq. specialize (Hlt i Hi). lia.
Qed.

(** append puts the buffer at the end of the queue. *)
Lemma wp_append i q s c (Q : unit -> ide -> ctx -> Prop) : qchain (qnext s) (idequeue s) q -> NoDup q -> i ∉ q -> (i < length (qnext s))%nat ->
  length (qnext s) = length (ibufs s) ->
  (forall qn, length qn = length (qnext s) -> qchain qn (head (q ++ [i])) (q ++ [i]) ->
     Q tt (mkide (ibufs s) qn (head (q ++ [i])) (havedisk1 s) (idisk s)) c) -> wp (append i) Q s c.
Proof.
  intros Hq Hnd Hi Hl Hlen HQ. unfold append, set_qnext, set_idequeue. ksteps. cbn [idequeue].
  assert (Hq' : qchain (<[i := None]> (qnext s)) (idequeue s) q) by (by apply qchain_insert).
  assert (Hn : <[i := None]> (qnext s) !! i = Some None) by (by apply list_lookup_insert_eq).
  pose proof (qchain_head _ _ _ Hq) as Hh.
  destruct q as [|j q].
  - cbn in Hh. rewrite Hh. ksteps. cbn [ibufs qnext havedisk1 idisk]. apply (HQ (<[i := None]> (qnext s))); [by rewrite length_insert|].
    cbn [app head qchain]. rewrite Hn. by rewrite length_insert.
  - cbn in Hh. rewrite Hh in *. destruct (exists_last (l := j :: q)) as (q1 & k & E); [done|]. rewrite E in *.
    assert (Hle : (length (q1 ++ [k]) <= length (qnext s))%nat) by (apply NoDup_length; [done|]; intros x Hx; eapply qchain_lt; eauto).
    rewrite length_app in Hle. cbn [length] in Hle.
    rewrite (queue_end_last _ q1 _ j k); [|exact Hq'|cbn [ibufs]; lia]. ksteps. cbn [ibufs qnext havedisk1 idisk].
    assert (Hj : Some j = head ((q1 ++ [k]) ++ [i])) by (rewrite <- E; done). rewrite Hj.
    apply HQ; [by rewrite !length_insert|]. rewrite <- Hj, <- app_assoc. cbn [app].
    apply qchain_append; [done|done|done|by rewrite length_insert|done].
Qed.

(** ** The system *)

(** The thread that works on a buffer (it holds the sleep lock of the
    buffer, so there is at most one): not in iderw, asleep there, woken up
    and about to go on, or back from iderw and not yet at work on the
    buffer. *)
Inductive tstate : Type := Out | Asleep | Awake | Back.

#[export] Instance tstate_eq_dec : EqDecision tstate.
Proof. solve_decision. Defined.

Record isys : Type := mkisys {
  ist : ide;
  tst : list tstate;          (* by buffer *)
  called : list command;      (* the requests of all calls of iderw, in order *)
  completed : list command    (* the commands the disk has carried out, in order *)
}.

Definition wake_bufs (w : list chan) (l : list tstate) : list tstate :=
  imap (fun j t => if decide (t = Asleep /\ C_buf j ∈ w) then Awake else t) l.

Definition after_rw (r : rw_end) : tstate := match r with RwReturns => Back | RwSleeps => Asleep end.

(** The disk gets ready when the driver waits for it, and reports no
    error. *)
Definition answers (st : list Z) : Prop :=
  exists r st', wait_ready st = Some (r, st') /\ is_error r = false /\ is_Some (wait_ready st').

Definition with_stat (st : list Z) (s : ide) : ide := set_disk (set_stat st (idisk s)) s.

(** The sector of a buffer. *)
Definition sector_of (x : buf) : Z * Z := (Z.land (dev x) 1, blockno x).

(** Not inside iderw. *)
Definition outside (t : tstate) : Prop := t = Out \/ t = Back.

Inductive istep (s : isys) : isys -> Prop :=
| i_change i t x :           (* the owner of the buffer works on it *)
    tst s !! i = Some t -> outside t ->
    istep s (mkisys (mkide (<[i := x]> (ibufs (ist s))) (qnext (ist s)) (idequeue (ist s)) (havedisk1 (ist s)) (idisk (ist s)))
      (<[i := Out]> (tst s)) (called s) (completed s))
| i_call i t st r s' c c' :
    tst s !! i = Some t -> outside t -> held c = [] -> woken c = [] -> answers st ->
    0 <= blockno (ibuf i (ist s)) < FSSIZE ->
    (forall j t, j <> i -> tst s !! j = Some t -> t <> Out -> sector_of (ibuf j (ist s)) <> sector_of (ibuf i (ist s))) ->
    iderw i (with_stat st (ist s)) c = Ret r s' c' ->
    istep s (mkisys s' (wake_bufs (woken c') (<[i := after_rw r]> (tst s))) (called s ++ [request (ibuf i (ist s))]) (completed s))
| i_interrupt st cmd s' c c' :
    dcmd (idisk (ist s)) = Some cmd -> held c = [] -> woken c = [] -> answers st ->
    ideintr (with_stat st (set_disk (disk_complete (idisk (ist s))) (ist s))) c = Ret tt s' c' ->
    istep s (mkisys s' (wake_bufs (woken c') (tst s)) (called s) (completed s ++ [cmd]))
| i_spurious st s' c c' :
    dcmd (idisk (ist s)) = None -> held c = [] -> woken c = [] ->
    ideintr (with_stat st (ist s)) c = Ret tt s' c' ->
    istep s (mkisys s' (wake_bufs (woken c') (tst s)) (called s) (completed s))
| i_kill i :                 (* kill wakes a process wherever it sleeps *)
    tst s !! i = Some Asleep ->
    istep s (mkisys (ist s) (<[i := Awake]> (tst s)) (called s) (completed s))
| i_resume i r s' c c' :
    tst s !! i = Some Awake -> held c = [] -> woken c = [] ->
    iderw_resume i (ist s) c = Ret r s' c' ->
    istep s (mkisys s' (wake_bufs (woken c') (<[i := after_rw r]> (tst s))) (called s) (completed s)).

(** The buffer and the disk have the same contents. *)
Definition agrees (x : buf) (d : disk) : Prop := bufdata x = sectors d (Z.land (dev x) 1) (blockno x).

Record iinv_q (s : isys) (q : list nat) : Prop := {
  i_chain : qchain (qnext (ist s)) (idequeue (ist s)) q;
  i_nodup : NoDup q;
  i_len : length (qnext (ist s)) = length (ibufs (ist s)) /\ length (tst s) = length (ibufs (ist s));
  i_inside : forall i, i ∈ q -> tst s !! i = Some Asleep \/ tst s !! i = Some Awake;
  i_asleep : forall i, tst s !! i = Some Asleep -> i ∈ q;
  i_overrun : overrun (idisk (ist s)) = false;
  i_cmd : dcmd (idisk (ist s)) = request ∘ (fun i => ibuf i (ist s)) <$> head q;
  i_todo : forall i, i ∈ q -> 0 <= blockno (ibuf i (ist s)) < FSSIZE /\ synced (ibuf i (ist s)) = false;
  i_done : forall i t, tst s !! i = Some t -> t <> Out -> i ∉ q -> synced (ibuf i (ist s)) = true /\ agrees (ibuf i (ist s)) (idisk (ist s));
  i_apart : forall i j ti tj, i <> j -> tst s !! i = Some ti -> tst s !! j = Some tj -> ti <> Out -> tj <> Out ->
    sector_of (ibuf i (ist s)) <> sector_of (ibuf j (ist s));
  i_order : called s = completed s ++ ((fun i => request (ibuf i (ist s))) <$> q)
}.

Lemma lookup_wake w l i : wake_bufs w l !! i = (fun t => if decide (t = Asleep /\ C_buf i ∈ w) then Awake else t) <$> l !! i.
Proof. apply list_lookup_imap. Qed.

Lemma wake_nil l : wake_bufs [] l = l.
Proof. apply list_eq. intros i. rewrite lookup_wake. destruct (l !! i) as [t|]; [|done]. cbn. rewrite decide_False; [done|]. set_solver. Qed.

Lemma ibuf_insert i j x s qn o h d : (i < length (ibufs s))%nat ->
  ibuf j (mkide (<[i := x]> (ibufs s)) qn o h d) = if decide (i = j) then x else ibuf j s.
Proof.
  intros Hi. unfold ibuf. cbn [ibufs]. destruct (decide (i = j)) as [<-|Hne]; [by rewrite list_lookup_insert_eq|].
  by rewrite list_lookup_insert_ne.
Qed.

Lemma synced_done f : Z.land (Z.land (Z.lor f B_VALID) (Z.lnot B_DIRTY)) (Z.lor B_VALID B_DIRTY) = B_VALID.
Proof.
  rewrite <- Z.land_assoc. change (Z.land (Z.lnot B_DIRTY) (Z.lor B_VALID B_DIRTY)) with 2. unfold B_VALID. apply Z.bits_inj'. intros n Hn.
  rewrite Z.land_spec, Z.lor_spec. destruct (Z.testbit f n), (Z.testbit 2 n); done.
Qed.

(** Nothing changes for the invariant when the queue and the buffers of the
    threads that are not out stay as they are. *)
Lemma inv_frame s s' q : iinv_q s q ->
  qnext (ist s') = qnext (ist s) -> idequeue (ist s') = idequeue (ist s) -> length (ibufs (ist s')) = length (ibufs (ist s)) ->
  length (tst s') = length (tst s) -> called s' = called s -> completed s' = completed s ->
  dcmd (idisk (ist s')) = dcmd (idisk (ist s)) -> overrun (idisk (ist s')) = overrun (idisk (ist s)) -> sectors (idisk (ist s')) = sectors (idisk (ist s)) ->
  (forall j, j ∈ q -> tst s' !! j = tst s !! j) ->
  (forall j t, tst s' !! j = Some t -> t <> Out -> tst s !! j = Some t /\ ibuf j (ist s') = ibuf j (ist s)) -> iinv_q s' q.
Proof.
  intros [I1 I2 I3 I4 I4' I5 I6 I7 I8 I9 I10] E1 E2 E3 E4 E5 E6 E7 E8 E9 Ht Hb.
  assert (Hq : forall j, j ∈ q -> ibuf j (ist s') = ibuf j (ist s)).
  { intros j Hj. destruct (I4 j Hj) as [Hs|Hs]; rewrite <- Ht in Hs by done; by eapply Hb. }
  split; rewrite ?E1, ?E2, ?E3, ?E4, ?E5, ?E6, ?E7, ?E8; try done.
  - intros j Hj. rewrite Ht by done. by apply I4.
  - intros j Hj. apply I4'. by eapply Hb.
  - rewrite I6. destruct q as [|j q]; [done|]. cbn. by rewrite Hq by set_solver.
  - intros j Hj. rewrite Hq by done. by apply I7.
  - intros j t Hj Nt Hjq. destruct (Hb j t Hj Nt) as [Hj' Ej]. unfold agrees. rewrite E9, Ej. by apply (I8 j t).
  - intros j k tj tk Hne Hj Hk Nj Nk. destruct (Hb j tj Hj Nj) as [? ->], (Hb k tk Hk Nk) as [? ->]. by eapply I9.
  - rewrite I10. f_equal. apply list_fmap_ext. intros k j Hj. f_equal. symmetry. apply Hq. by eapply list_elem_of_lookup_2.
Qed.

Lemma ibuf_set_disk i d s : ibuf i (set_disk d s) = ibuf i s.
Proof. done. Qed.

(** iderw panics unless the buffer is locked, has work to do, and its disk
    is there. *)
Definition admissible (i : nat) (s : ide) : Prop :=
  slocked (block_lock (ibuf i s)) = true /\ synced (ibuf i s) = false /\ (dev (ibuf i s) = 0 \/ havedisk1 s <> 0).

Lemma wlp_const {S A} (m : K S A) (P : Prop) s c : P -> wlp m (fun _ _ _ => P) (fun _ _ => True) s c.
Proof. intros HP. unfold wlp. by destruct (m s c). Qed.

Lemma iderw_checks i s c r s' c' : iderw i s c = Ret r s' c' -> held c = [] -> admissible i s.
Proof.
  intros Hrun Hh.
  assert (Hw : wlp (iderw i) (fun _ _ _ => admissible i s) (fun _ _ => True) s c); [|exact (wlp_inv _ _ _ _ _ _ _ _ Hw Hrun)].
  unfold iderw, holdingsleep, admissible. lsteps. cbn [lget ibuf_lock]. destruct (slocked _) eqn:E1; cbn [negb]; lsteps.
  destruct (synced _) eqn:E2; lsteps. destruct (negb _ && _) eqn:E3; [by lsteps|]. apply wlp_const. apply andb_false_iff in E3.
  split_and!; [done..|]. destruct E3 as [E3|E3]; [left; apply negb_false_iff, Z.eqb_eq in E3; done|right; by apply Z.eqb_neq in E3].
Qed.

(** What a call of iderw does: the request is at the end of the queue, the
    disk works on it if there was none before, and the caller sleeps. *)
Record queued (i : nat) (q : list nat) (s s' : ide) : Prop := {
  qd_bufs : ibufs s' = ibufs s;
  qd_head : idequeue s' = head (q ++ [i]);
  qd_len : length (qnext s') = length (qnext s);
  qd_chain : qchain (qnext s') (head (q ++ [i])) (q ++ [i]);
  qd_sectors : sectors (idisk s') = sectors (idisk s);
  qd_overrun : overrun (idisk s') = false;
  qd_cmd : dcmd (idisk s') = if decide (q = []) then Some (request (ibuf i s)) else dcmd (idisk s)
}.

Lemma wp_iderw i q st s c : admissible i s -> held c = [] -> answers st ->
  qchain (qnext s) (idequeue s) q -> NoDup q -> i ∉ q -> (i < length (qnext s))%nat -> length (qnext s) = length (ibufs s) ->
  0 <= blockno (ibuf i s) < FSSIZE -> overrun (idisk s) = false -> (q = [] -> dcmd (idisk s) = None) ->
  wp (iderw i) (fun r s' c' => r = RwSleeps /\ woken c' = woken c /\ queued i q s s') (with_stat st s) c.
Proof.
  intros (Hl1 & Hl2 & Hl3) Hh (r0 & st' & Hw & _ & _) Hq Hnd Hi Hl Hlen Hb Ho Hc. unfold iderw. kstep.
  apply wp_holdingsleep; [rewrite Hh; set_solver|]. cbn [lget ibuf_lock]. change (ibuf i (with_stat st s)) with (ibuf i s). rewrite Hl1. cbn [negb].
  kstep. kstep. change (ibuf i (with_stat st s)) with (ibuf i s). rewrite Hl2.
  change (havedisk1 (with_stat st s)) with (havedisk1 s).
  replace (negb (dev (ibuf i s) =? 0) && (havedisk1 s =? 0)) with false by (destruct Hl3 as [-> |Hd]; [done|rewrite (proj2 (Z.eqb_neq _ _) Hd); by rewrite andb_false_r]).
  kstep. apply wp_acquire; [rewrite Hh; set_solver|]. rewrite Hh. kstep. apply (wp_append i q); [done..|]. intros qn Hqn Hch.
  kstep. kstep. cbn [idequeue]. kstep.
  assert (Hwait : forall d', sectors d' = sectors (idisk s) -> overrun d' = false ->
    dcmd d' = (if decide (q = []) then Some (request (ibuf i s)) else dcmd (idisk s)) ->
    wp (iderw_wait i) (fun r s' c' => r = RwSleeps /\ woken c' = woken c /\ queued i q s s')
      (mkide (ibufs s) qn (head (q ++ [i])) (havedisk1 s) d') (mkctx [L_ide] (woken c) (mypid c))).
  { intros d' D1 D2 D3. unfold iderw_wait. ksteps. change (ibuf i _) with (ibuf i s). rewrite Hl2. by split_and!. }
  destruct q as [|j q]; cbn [app head] in *.
  - rewrite decide_True by done. eapply wp_mono; [apply wp_idestart|].
    + exact Hb.
    + by apply Hc.
    + done.
    + cbn. rewrite Hw. done.
    + intros [] s2 c2 (-> & d' & -> & [D1 D2 D3]). apply Hwait; try done. 
  - rewrite decide_False by (intros [= ->]; apply Hi; set_solver). kstep. by apply Hwait.
Qed.

Lemma call_inv s i t q st r s' c c' : iinv_q s q -> tst s !! i = Some t -> outside t -> held c = [] -> woken c = [] -> answers st ->
  0 <= blockno (ibuf i (ist s)) < FSSIZE ->
  (forall j t, j <> i -> tst s !! j = Some t -> t <> Out -> sector_of (ibuf j (ist s)) <> sector_of (ibuf i (ist s))) ->
  iderw i (with_stat st (ist s)) c = Ret r s' c' ->
  iinv_q (mkisys s' (wake_bufs (woken c') (<[i := after_rw r]> (tst s))) (called s ++ [request (ibuf i (ist s))]) (completed s)) (q ++ [i]).
Proof.
  intros [I1 I2 I3 I4 I4' I5 I6 I7 I8 I9 I10] Hi Ht Hh Hwk Ha Hb Hd Hrun. pose proof (iderw_checks _ _ _ _ _ _ Hrun Hh) as Hadm.
  assert (Hiq : i ∉ q) by (intros H; apply I4 in H as [H|H]; destruct Ht as [-> | ->]; congruence).
  assert (Hil : (i < length (tst s))%nat) by (by eapply lookup_lt_Some).
  destruct (wp_inv _ _ _ _ (wp_iderw i q st (ist s) c Hadm Hh Ha I1 I2 Hiq ltac:(lia) ltac:(lia) Hb I5 ltac:(intros ->; exact I6)))
    as (r2 & s2 & c2 & E & -> & Hw2 & [Q1 Q2 Q3 Q4 Q5 Q6 Q7]).
  rewrite E in Hrun. injection Hrun as <- <- <-. rewrite Hw2, Hwk, wake_nil. cbn [after_rw].
  assert (Hbuf : forall j, ibuf j s2 = ibuf j (ist s)) by (intros j; unfold ibuf; by rewrite Q1).
  split; cbn [ist tst called completed]; rewrite ?Q1, ?Q2, ?Q3, ?Q6; try done.
  - apply NoDup_app. split_and!; [done|set_solver|apply NoDup_singleton].
  - rewrite length_insert. lia.
  - intros j. rewrite elem_of_app, list_elem_of_singleton. destruct (decide (i = j)) as [<-|Hne].
    + rewrite list_lookup_insert_eq by done. by left.
    + rewrite list_lookup_insert_ne by done. intros [Hj| ->]; [by apply I4|done].
  - intros j. rewrite elem_of_app, list_elem_of_singleton. destruct (decide (i = j)) as [<-|Hne]; [by right|].
    rewrite list_lookup_insert_ne by done. left. by apply I4'.
  - rewrite Q7, I6. destruct q; cbn; by rewrite Hbuf.
  - intros j. rewrite elem_of_app, list_elem_of_singleton, Hbuf. intros [Hj| ->]; [by apply I7|]. split; [done|apply Hadm].
  - intros j tj. destruct (decide (i = j)) as [<-|Hne]; [set_solver|].
    rewrite list_lookup_insert_ne, Hbuf by done. unfold agrees. rewrite Q5. intros Hj Nj Hjq. apply (I8 j tj); [done..|set_solver].
  - intros j k tj tk Hne. rewrite !Hbuf. destruct (decide (i = j)) as [<-|Hij], (decide (i = k)) as [<-|Hik]; try done.
    + intros _ Hk _ Nk. rewrite list_lookup_insert_ne in Hk by done. intros E'. by apply (Hd k tk).
    + intros Hj _ Nj _. rewrite list_lookup_insert_ne in Hj by done. by apply (Hd j tj).
    + intros Hj Hk. rewrite list_lookup_insert_ne in Hj, Hk by done. by eapply I9.
  - rewrite I10, fmap_app, app_assoc. cbn. rewrite Hbuf. f_equal. f_equal. apply list_fmap_ext. intros k j _. by rewrite Hbuf.
Qed.

(** The buffer after its interrupt: valid, not dirty, and with the data of
    the disk if it was to be read. *)
Definition served (x : buf) (d : disk) : buf :=
  set_flags (Z.land (Z.lor (flags x) B_VALID) (Z.lnot B_DIRTY)) (if dirty x then x else set_bufdata (din d) x).

Lemma wp_upd_ibuf i f x l qn o h d (Q : unit -> ide -> ctx -> Prop) c : (i < length l)%nat ->
  Q tt (mkide (<[i := f x]> l) qn o h d) c -> wp (upd_ibuf i f) Q (mkide (<[i := x]> l) qn o h d) c.
Proof.
  intros Hi HQ. unfold upd_ibuf. kstep. cbn [ibufs qnext idequeue havedisk1 idisk].
  replace (alter f i (<[i := x]> l)) with (<[i := f x]> l); [done|].
  apply list_eq. intros j. destruct (decide (i = j)) as [<-|Hne].
  - rewrite list_lookup_alter_eq, !list_lookup_insert_eq by done. done.
  - by rewrite list_lookup_alter_ne, !list_lookup_insert_ne.
Qed.

Lemma insert_ibuf i s : (i < length (ibufs s))%nat -> <[i := ibuf i s]> (ibufs s) = ibufs s.
Proof. intros Hi. apply list_insert_id. unfold ibuf. destruct (lookup_lt_is_Some_2 _ _ Hi) as [x Hx]. by rewrite Hx. Qed.

(** The end of the interrupt handler: start the next request. *)
Lemma wp_start_next i q x s d c : i ∉ q -> (i < length (ibufs s))%nat -> dcmd d = None -> overrun d = false -> is_Some (wait_ready (dstat d)) ->
  (forall j, j ∈ q -> 0 <= blockno (ibuf j s) < FSSIZE) -> held c = [L_ide] ->
  wp (q ← gets idequeue; (match q with Some _ => idestart q | None => mret tt end);; release L_ide)
    (fun _ s' c' => woken c' = woken c /\ exists d', s' = mkide (<[i := x]> (ibufs s)) (qnext s) (head q) (havedisk1 s) d' /\
      sectors d' = sectors d /\ overrun d' = false /\ dcmd d' = request ∘ (fun j => ibuf j s) <$> head q)
    (mkide (<[i := x]> (ibufs s)) (qnext s) (head q) (havedisk1 s) d) c.
Proof.
  intros Hiq Hi Hc Ho Hw Hb Hh. destruct c as [h w p]. cbn in Hh. subst h. kstep. kstep. cbn [idequeue]. kstep.
  destruct q as [|j q]; cbn [head].
  - ksteps. split; [done|]. exists d. by rewrite Hc.
  - assert (Ej : ibuf j (mkide (<[i := x]> (ibufs s)) (qnext s) (Some j) (havedisk1 s) d) = ibuf j s).
    { rewrite ibuf_insert by done. rewrite decide_False; [done|set_solver]. }
    eapply wp_mono; [apply wp_idestart; rewrite ?Ej; try done; apply Hb; set_solver|].
    intros [] s2 c2 (-> & d' & -> & [D1 D2 D3]). rewrite Ej in D1. kstep. split; [done|]. by exists d'.
Qed.

Lemma wp_ideintr i q st s d c : held c = [] -> woken c = [] -> answers st -> qchain (qnext s) (idequeue s) (i :: q) -> NoDup (i :: q) ->
  (i < length (ibufs s))%nat -> dcmd d = None -> overrun d = false ->
  (forall j, j ∈ q -> 0 <= blockno (ibuf j s) < FSSIZE) ->
  wp ideintr (fun _ s' c' => woken c' = [C_buf i] /\ exists d', s' = mkide (<[i := served (ibuf i s) d]> (ibufs s)) (qnext s) (head q) (havedisk1 s) d' /\
    sectors d' = sectors d /\ overrun d' = false /\ dcmd d' = request ∘ (fun j => ibuf j s) <$> head q) (with_stat st (set_disk d s)) c.
Proof.
  intros Hh Hwk (r0 & st' & Hw & Her & Hw') Hq Hnd Hi Hc Ho Hb. destruct Hq as (Hq0 & _ & Hq). pose proof (qchain_head _ _ _ Hq) as Hhead.
  apply NoDup_cons in Hnd as [Hiq _].
  unfold ideintr. kstep. apply wp_acquire; [rewrite Hh; set_solver|]. rewrite Hh, Hwk. kstep. kstep. cbn [idequeue with_stat set_disk]. rewrite Hq0.
  kstep. kstep. kstep. unfold set_idequeue. kstep. cbn [ibufs qnext havedisk1 idisk with_stat set_disk].
  kstep. kstep. change (qnext_of i _) with (default None (qnext s !! i)). rewrite Hhead. change (ibuf i _) with (ibuf i s).
  assert (Htail : forall x d1, sectors d1 = sectors d -> dcmd d1 = None -> overrun d1 = false -> is_Some (wait_ready (dstat d1)) ->
    set_flags (Z.land (Z.lor (flags x) B_VALID) (Z.lnot B_DIRTY)) x = served (ibuf i s) d ->
    wp (upd_ibuf i (fun x => set_flags (Z.lor (flags x) B_VALID) x);; upd_ibuf i (fun x => set_flags (Z.land (flags x) (Z.lnot B_DIRTY)) x);;
        wakeup (C_buf i);; q ← gets idequeue; (match q with Some _ => idestart q | None => mret tt end);; release L_ide)
      (fun _ s' c' => woken c' = [C_buf i] /\ exists d', s' = mkide (<[i := served (ibuf i s) d]> (ibufs s)) (qnext s) (head q) (havedisk1 s) d' /\
        sectors d' = sectors d /\ overrun d' = false /\ dcmd d' = request ∘ (fun j => ibuf j s) <$> head q)
      (mkide (<[i := x]> (ibufs s)) (qnext s) (head q) (havedisk1 s) d1) (mkctx [L_ide] [] (mypid c))).
  { intros x d1 <- D2 D3 D4 Hx. kstep. apply wp_upd_ibuf; [done|]. kstep. apply wp_upd_ibuf; [done|]. cbn [set_flags flags].
    change (set_flags _ (set_flags _ x)) with (set_flags (Z.land (Z.lor (flags x) B_VALID) (Z.lnot B_DIRTY)) x). rewrite Hx.
    kstep. kstep. cbn [app]. by apply (wp_start_next i q _ s d1). }
  kstep. rewrite <- (insert_ibuf i s Hi) at 1. unfold served in *. destruct (dirty (ibuf i s)) eqn:E; cbn [negb].
  - kstep. by apply Htail.
  - kstep. eapply wp_idewait; [exact Hw|]. rewrite Her. cbn [andb]. change (0 <=? 0) with true. cbn iota.
    kstep. kstep. apply wp_upd_ibuf; [done|]. by apply Htail.
Qed.

(** The disk has carried out the request of [x]. *)
Lemma complete_request x d : dcmd d = Some (request x) ->
  let d' := disk_complete d in
  dcmd d' = None /\ overrun d' = overrun d /\ agrees (served x d') d' /\
  forall y, sector_of y <> sector_of x -> agrees y d -> agrees y d'.
Proof.
  intros Hc. unfold disk_complete, agrees, served. rewrite Hc. unfold request. destruct (dirty x); cbn; split_and!; try done.
  - by rewrite !Z.eqb_refl.
  - intros y Hne Hy. unfold sector_of in Hne. destruct (Z.eqb_spec (Z.land (dev y) 1) (Z.land (dev x) 1)), (Z.eqb_spec (blockno y) (blockno x)); cbn; congruence.
Qed.

Lemma lookup_wake_one i l j : l !! i = Some Asleep \/ l !! i = Some Awake -> wake_bufs [C_buf i] l !! j = if decide (i = j) then Some Awake else l !! j.
Proof.
  intros Hi. rewrite lookup_wake. destruct (decide (i = j)) as [<-|Hne].
  - destruct Hi as [-> | ->]; cbn; [|done]. rewrite decide_True; [done|]. set_solver.
  - destruct (l !! j) as [t|]; [|done]. cbn. rewrite decide_False; [done|]. intros [_ H]. apply list_elem_of_singleton in H. congruence.
Qed.

Lemma synced_served x d : synced (served x d) = true.
Proof. unfold synced, served. cbn [set_flags flags]. rewrite synced_done. done. Qed.

Lemma interrupt_inv s q st cmd s' c c' : iinv_q s q -> dcmd (idisk (ist s)) = Some cmd -> held c = [] -> woken c = [] -> answers st ->
  ideintr (with_stat st (set_disk (disk_complete (idisk (ist s))) (ist s))) c = Ret tt s' c' ->
  iinv_q (mkisys s' (wake_bufs (woken c') (tst s)) (called s) (completed s ++ [cmd])) (tail q).
Proof.
  intros [I1 I2 I3 I4 I4' I5 I6 I7 I8 I9 I10] Hcmd Hh Hwk Ha Hrun. destruct q as [|i q]; [cbn in I6; congruence|].
  rewrite I6 in Hcmd. cbn [head fmap option_fmap option_map compose] in Hcmd. injection Hcmd as <-.
  assert (Hil : (i < length (qnext (ist s)))%nat) by (by apply I1).
  destruct (complete_request (ibuf i (ist s)) (idisk (ist s)) I6) as (C1 & C2 & C3 & C4).
  destruct (wp_inv _ _ _ _ (wp_ideintr i q st (ist s) _ c Hh Hwk Ha I1 I2 ltac:(lia) C1 ltac:(by rewrite C2) ltac:(intros j Hj; apply I7; set_solver)))
    as ([] & s2 & c2 & E & Hw2 & d' & -> & D1 & D2 & D3).
  rewrite E in Hrun. injection Hrun as <- <-. rewrite Hw2. apply NoDup_cons in I2 as [Hiq Hnd].
  assert (Hbuf : forall j, i <> j -> ibuf j (mkide (<[i := served (ibuf i (ist s)) (disk_complete (idisk (ist s)))]> (ibufs (ist s))) (qnext (ist s)) (head q) (havedisk1 (ist s)) d') = ibuf j (ist s)).
  { intros j Hne. rewrite ibuf_insert by lia. by rewrite decide_False. }
  assert (Hi : ibuf i (mkide (<[i := served (ibuf i (ist s)) (disk_complete (idisk (ist s)))]> (ibufs (ist s))) (qnext (ist s)) (head q) (havedisk1 (ist s)) d') =
    served (ibuf i (ist s)) (disk_complete (idisk (ist s)))) by (rewrite ibuf_insert by lia; by rewrite decide_True).
  assert (Hai : tst s !! i = Some Asleep \/ tst s !! i = Some Awake) by (apply I4; set_solver).
  assert (Hq : forall j, j ∈ q -> i <> j) by set_solver.
  assert (Hst : forall j, sector_of (ibuf j (mkide (<[i := served (ibuf i (ist s)) (disk_complete (idisk (ist s)))]> (ibufs (ist s))) (qnext (ist s)) (head q) (havedisk1 (ist s)) d')) = sector_of (ibuf j (ist s))).
  { intros j. destruct (decide (i = j)) as [<-|Hne]; [rewrite Hi; unfold served; by destruct (dirty _)|by rewrite Hbuf]. }
  split; cbn [ist tst called completed tail qnext idequeue ibufs idisk].
  - destruct I1 as (_ & _ & H). by rewrite <- (qchain_head _ _ _ H).
  - done.
  - unfold wake_bufs. rewrite length_insert, length_imap. lia.
  - intros j Hj. rewrite lookup_wake_one by done. rewrite decide_False by (by apply Hq). apply I4. set_solver.
  - intros j. rewrite lookup_wake_one by done. destruct (decide (i = j)) as [<-|Hne]; [done|]. intros Hj. apply I4' in Hj. set_solver.
  - done.
  - rewrite D3. destruct q as [|j q]; [done|]. cbn. by rewrite Hbuf by (apply Hq; set_solver).
  - intros j Hj. rewrite Hbuf by (by apply Hq). apply I7. set_solver.
  - intros j tj. rewrite lookup_wake_one by done. unfold agrees. rewrite D1. destruct (decide (i = j)) as [<-|Hne].
    + intros _ _ _. rewrite Hi. split; [apply synced_served|exact C3].
    + intros Hj Nj Hjq. rewrite Hbuf by done. destruct (I8 j tj Hj Nj ltac:(set_solver)) as [G1 G2]. split; [done|]. apply C4; [|exact G2].
      destruct Hai as [Hai|Hai]; by eapply (I9 j i tj).
  - intros j k tj tk Hne. rewrite !lookup_wake_one, !Hst by done. intros Hj Hk Nj Nk.
    assert (Hin : forall a t, (if decide (i = a) then Some Awake else tst s !! a) = Some t -> t <> Out -> exists t', tst s !! a = Some t' /\ t' <> Out).
    { intros a t Hat Nt. destruct (decide (i = a)) as [<-|]; [destruct Hai; by eexists|by exists t]. }
    destruct (Hin j tj Hj Nj) as (t1 & ? & ?), (Hin k tk Hk Nk) as (t2 & ? & ?). by apply (I9 j k t1 t2).
  - rewrite I10. cbn [fmap list_fmap]. rewrite <- app_assoc. f_equal. cbn [app]. f_equal. apply list_fmap_ext. intros n j Hj.
    rewrite Hbuf; [done|]. apply Hq. by eapply list_elem_of_lookup_2.
Qed.

Lemma spurious_inv s q st s' c c' : iinv_q s q -> dcmd (idisk (ist s)) = None -> held c = [] -> woken c = [] ->
  ideintr (with_stat st (ist s)) c = Ret tt s' c' ->
  iinv_q (mkisys s' (wake_bufs (woken c') (tst s)) (called s) (completed s)) q.
Proof.
  intros HI Hc Hh Hwk Hrun. assert (Hq : q = []) by (destruct q; [done|]; rewrite (i_cmd _ _ HI) in Hc; done). subst q.
  assert (Hw : wp ideintr (fun _ s2 c2 => s2 = with_stat st (ist s) /\ woken c2 = []) (with_stat st (ist s)) c).
  { unfold ideintr. kstep. apply wp_acquire; [rewrite Hh; set_solver|]. rewrite Hh, Hwk. kstep. kstep. cbn [idequeue with_stat set_disk].
    rewrite (i_chain _ _ HI : idequeue (ist s) = None). by kstep. }
  destruct (wp_inv _ _ _ _ Hw) as ([] & s2 & c2 & E & -> & Hw2). rewrite E in Hrun. injection Hrun as <- <-. rewrite Hw2, wake_nil.
  by apply (inv_frame s).
Qed.

Lemma resume_inv s q i r s' c c' : iinv_q s q -> tst s !! i = Some Awake -> held c = [] -> woken c = [] ->
  iderw_resume i (ist s) c = Ret r s' c' ->
  iinv_q (mkisys s' (wake_bufs (woken c') (<[i := after_rw r]> (tst s))) (called s) (completed s)) q.
Proof.
  intros [I1 I2 I3 I4 I4' I5 I6 I7 I8 I9 I10] Hi Hh Hwk Hrun.
  assert (Hw : wp (iderw_resume i) (fun r s2 c2 => r = (if synced (ibuf i (ist s)) then RwReturns else RwSleeps) /\ s2 = ist s /\ woken c2 = []) (ist s) c).
  { unfold iderw_resume, iderw_wait. kstep. apply wp_acquire; [rewrite Hh; set_solver|]. rewrite Hh, Hwk. by ksteps. }
  destruct (wp_inv _ _ _ _ Hw) as (r2 & s2 & c2 & E & -> & -> & Hw2). rewrite E in Hrun. injection Hrun as <- <- <-. rewrite Hw2, wake_nil.
  set (t := after_rw (if synced (ibuf i (ist s)) then RwReturns else RwSleeps)).
  assert (Ht : i ∈ q /\ t = Asleep \/ i ∉ q /\ t = Back).
  { destruct (decide (i ∈ q)) as [Hq|Hq]; [left; split; [done|]; unfold t; by rewrite (proj2 (I7 i Hq))|].
    right. split; [done|]. unfold t. by rewrite (proj1 (I8 i Awake Hi ltac:(done) Hq)). }
  assert (Hil : (i < length (tst s))%nat) by (by eapply lookup_lt_Some).
  assert (Hl : forall j tj, <[i := t]> (tst s) !! j = Some tj -> (j = i /\ tj = t) \/ (j <> i /\ tst s !! j = Some tj)).
  { intros j tj. destruct (decide (i = j)) as [<-|Hne]; [rewrite list_lookup_insert_eq by done; left; split; [done|congruence]|].
    rewrite list_lookup_insert_ne by done. by right. }
  split; cbn [ist tst called completed]; try done.
  - by rewrite length_insert.
  - intros j Hj. destruct (decide (i = j)) as [<-|Hne].
    { rewrite list_lookup_insert_eq by done. destruct Ht as [[_ ->]|[Hc _]]; [by left|done]. }
   
    rewrite list_lookup_insert_ne by done. by apply I4.
  - intros j Hj. destruct (Hl j _ Hj) as [[-> E']|[_ Hj']]; [|by apply I4'].
    destruct Ht as [[Hin _]|[_ Et]]; [done|congruence].
  - intros j tj Hj Nj Hjq. destruct (Hl j _ Hj) as [[-> _]|[_ Hj']]; [by apply (I8 i Awake)|by apply (I8 j tj)].
  - intros j k tj tk Hne Hj Hk Nj Nk. destruct (Hl j _ Hj) as [[-> _]|[_ Hj']], (Hl k _ Hk) as [[-> _]|[_ Hk']]; [done|eapply I9; eauto..].
Qed.

Lemma kill_wake_inv s q i : iinv_q s q -> tst s !! i = Some Asleep -> iinv_q (mkisys (ist s) (<[i := Awake]> (tst s)) (called s) (completed s)) q.
Proof.
  intros [I1 I2 I3 I4 I4' I5 I6 I7 I8 I9 I10] Hi. assert (Hil : (i < length (tst s))%nat) by (by eapply lookup_lt_Some).
  assert (Hl : forall j tj, <[i := Awake]> (tst s) !! j = Some tj -> (j = i /\ tj = Awake) \/ (j <> i /\ tst s !! j = Some tj)).
  { intros j tj. destruct (decide (i = j)) as [<-|Hne]; [rewrite list_lookup_insert_eq by done; left; split; [done|congruence]|].
    rewrite list_lookup_insert_ne by done. by right. }
  split; cbn [ist tst called completed]; try done.
  - by rewrite length_insert.
  - intros j Hj. destruct (decide (i = j)) as [<-|Hne]; [rewrite list_lookup_insert_eq by done; by right|].
    rewrite list_lookup_insert_ne by done. by apply I4.
  - intros j Hj. destruct (Hl j _ Hj) as [[_ E']|[_ Hj']]; [done|by apply I4'].
  - intros j tj Hj Nj Hjq. destruct (Hl j _ Hj) as [[-> _]|[_ Hj']]; [by apply I4' in Hi|by apply (I8 j tj)].
  - intros j k tj tk Hne Hj Hk Nj Nk. destruct (Hl j _ Hj) as [[-> _]|[_ Hj']], (Hl k _ Hk) as [[-> _]|[_ Hk']]; [done|eapply I9; eauto..].
Qed.

Lemma change_inv s q i t x : iinv_q s q -> tst s !! i = Some t -> outside t ->
  iinv_q (mkisys (mkide (<[i := x]> (ibufs (ist s))) (qnext (ist s)) (idequeue (ist s)) (havedisk1 (ist s)) (idisk (ist s)))
      (<[i := Out]> (tst s)) (called s) (completed s)) q.
Proof.
  intros HI Hi Ht. assert (Hil : (i < length (tst s))%nat) by (by eapply lookup_lt_Some).
  apply (inv_frame s); try done; cbn [ist tst ibufs]; [by rewrite length_insert..| |].
  - intros j Hj. rewrite list_lookup_insert_ne; [done|]. intros <-. apply (i_inside _ _ HI) in Hj. destruct Hj as [Hj|Hj], Ht as [-> | ->]; congruence.
  - intros j tj. destruct (decide (i = j)) as [<-|Hne]; [rewrite list_lookup_insert_eq by done; congruence|].
    rewrite list_lookup_insert_ne by done. intros Hj Nj. split; [done|].
    rewrite ibuf_insert by (by rewrite <- (proj2 (i_len _ _ HI))). by rewrite decide_False.
Qed.

Lemma istep_inv s s' : istep s s' -> (exists q, iinv_q s q) -> exists q, iinv_q s' q.
Proof.
  intros Hs [q Hq]. destruct Hs.
  - exists q. by eapply change_inv.
  - exists (q ++ [i]). by eapply call_inv.
  - exists (tail q). by eapply interrupt_inv.
  - exists q. by eapply spurious_inv.
  - exists q. by apply kill_wake_inv.
  - exists q. by eapply resume_inv.
Qed.

(** The system after ideinit: nothing queued, nobody in iderw. *)
Record iboot (s : isys) : Prop := {
  ib_queue : idequeue (ist s) = None;
  ib_len : length (qnext (ist s)) = length (ibufs (ist s)) /\ length (tst s) = length (ibufs (ist s));
  ib_out : Forall (fun t => t = Out) (tst s);
  ib_disk : dcmd (idisk (ist s)) = None /\ overrun (idisk (ist s)) = false;
  ib_log : called s = [] /\ completed s = []
}.

Lemma ide_boot_inv s : iboot s -> iinv_q s [].
Proof.
  intros [B1 B2 B3 [B4 B5] [B6 B7]]. assert (Ho : forall i t, tst s !! i = Some t -> t = Out) by (intros i t Hi; eapply (Forall_lookup_1 _ _ _ _ B3 Hi)).
  split; try done.
  - constructor.
  - set_solver.
  - intros i Hi. by apply Ho in Hi.
  - set_solver.
  - intros i t Hi Nt. by apply Ho in Hi.
  - intros i j ti tj _ Hi _ Ni. by apply Ho in Hi.
  - by rewrite B6, B7.
Qed.

Lemma ide_reachable_inv s0 s : iboot s0 -> rtc istep s0 s -> exists q, iinv_q s q.
Proof.
  intros Hb Hr. assert (H0 : exists q, iinv_q s0 q) by (exists []; by apply ide_boot_inv). clear Hb.
  induction Hr; eauto using istep_inv.
Qed.

(** C5. The disk driver, over all interleavings of threads in iderw, kills
    that wake them too early, and interrupts of a disk without errors.  The
    disk is never given a command while it works on another; it carries out
    the requests in the order of the calls of iderw, and works on the first
    of those that are left; the request of every sleeping thread is among
    them.  When iderw returns, the buffer is valid, not dirty, and the same
    as its sector on the disk. *)
Theorem ide_requests_served s0 s : iboot s0 -> rtc istep s0 s ->
  overrun (idisk (ist s)) = false /\
  (exists pending, called s = completed s ++ pending /\ dcmd (idisk (ist s)) = head pending /\
    forall i, tst s !! i = Some Asleep -> request (ibuf i (ist s)) ∈ pending) /\
  (forall i, tst s !! i = Some Back -> synced (ibuf i (ist s)) = true /\ agrees (ibuf i (ist s)) (idisk (ist s))).
Proof.
  intros Hb Hr. destruct (ide_reachable_inv s0 s Hb Hr) as [q [I1 I2 I3 I4 I4' I5 I6 I7 I8 I9 I10]].
  split; [done|]. split.
  - eexists. split; [exact I10|]. split; [by destruct q|]. intros i Hi. apply I4' in Hi. apply list_elem_of_fmap. eauto.
  - intros i Hi. apply (I8 i Back Hi); [done|]. intros Hq. apply I4 in Hq as [Hq|Hq]; congruence.
Qed.

(** A sleeping thread is woken up in the end: the disk is at work, and when
    it is done, the interrupt handler runs to its end and completes one
    more request. *)
Theorem ide_progress s0 s i st : iboot s0 -> rtc istep s0 s -> tst s !! i = Some Asleep -> answers st ->
  exists s', istep s s' /\ length (completed s') = S (length (completed s)) /\ called s' = called s.
Proof.
  intros Hb Hr Hi Ha. destruct (ide_reachable_inv s0 s Hb Hr) as [q HI]. pose proof HI as [I1 I2 I3 I4 I4' I5 I6 I7 I8 I9 I10].
  apply I4' in Hi. destruct q as [|j q]; [set_solver|]. cbn in I6.
  destruct (complete_request _ _ I6) as (C1 & C2 & _). assert (Hj : (j < length (qnext (ist s)))%nat) by (by apply I1).
  destruct (wp_inv _ _ _ _ (wp_ideintr j q st (ist s) _ (mkctx [] [] 0) eq_refl eq_refl Ha I1 I2 ltac:(lia) C1 ltac:(by rewrite C2) ltac:(intros k Hk; apply I7; set_solver)))
    as ([] & s2 & c2 & E & _). eexists. split; [eapply (i_interrupt s st); [exact I6|..|exact E]; done|].
  cbn [completed called]. split; [rewrite length_app; cbn; lia|done].
Qed.

(** ** Runs *)

(** Two buffers, for blocks 5 and 6 of disk 0; every sector of the disk has
    its block address as first byte. *)
Definition buf5 : buf := mkbuf 0 0 5 (mksleeplock true 1) 1 [].
Definition buf6 : buf := mkbuf 0 0 6 (mksleeplock true 2) 1 [].
Definition disk0 : disk := mkdisk (fun _ => 0) None [] [] (fun _ lba => [lba]) false.
Definition ide0 : ide := mkide [buf5; buf6] [None; None] None 0 disk0.
Definition isys0 : isys := mkisys ide0 [Out; Out] [] [].

Lemma answers_ready : answers [0x40; 0x40].
Proof. exists 0x40, [0x40]. split_and!; [done..|]. by eexists. Qed.

(** The state an operation of the driver leaves. *)
Definition after {A} (m : K ide A) (s : ide) : ide := match m s (mkctx [] [] 0) with Ret _ s' _ => s' | _ => s end.

(** After a call for block 5, and its interrupt. *)
Definition ide1 : ide := after (iderw 0) (with_stat [0x40; 0x40] ide0).
Definition ide2 : ide := after ideintr (with_stat [0x40; 0x40] (set_disk (disk_complete (idisk ide1)) ide1)).

#[local] Strategy 1000 [ide1 ide2].

(** The thread is killed before the interrupt: it looks at the buffer, goes
    back to sleep, and returns after the interrupt. *)
Lemma ide_requests_served_witness : exists s, rtc istep isys0 s /\ tst s !! 0%nat = Some Back /\ bufdata (ibuf 0 (ist s)) = [5] /\
  synced (ibuf 0 (ist s)) = true /\ agrees (ibuf 0 (ist s)) (idisk (ist s)).
Proof.
  assert (H1 : istep isys0 (mkisys ide1 [Asleep; Out] [request buf5] [])).
  { apply (i_call isys0 0 Out [0x40; 0x40] RwSleeps ide1 (mkctx [] [] 0) (mkctx [] [] 0)).
    - reflexivity.
    - by left.
    - reflexivity.
    - reflexivity.
    - exact answers_ready.
    - unfold FSSIZE. cbn. lia.
    - intros [|[|j]] t Hne Hj Nt; [done|injection Hj as <-; done|discriminate Hj].
    - vm_compute. reflexivity. }
  assert (H2 : istep (mkisys ide1 [Asleep; Out] [request buf5] []) (mkisys ide1 [Awake; Out] [request buf5] [])).
  { exact (i_kill (mkisys ide1 [Asleep; Out] [request buf5] []) 0 eq_refl). }
  assert (H3 : istep (mkisys ide1 [Awake; Out] [request buf5] []) (mkisys ide1 [Asleep; Out] [request buf5] [])).
  { apply (i_resume (mkisys ide1 [Awake; Out] [request buf5] []) 0 RwSleeps ide1 (mkctx [] [] 0) (mkctx [] [] 0)); vm_compute; reflexivity. }
  assert (H4 : istep (mkisys ide1 [Asleep; Out] [request buf5] []) (mkisys ide2 [Awake; Out] [request buf5] [request buf5])).
  { apply (i_interrupt (mkisys ide1 [Asleep; Out] [request buf5] []) [0x40; 0x40] (request buf5) ide2 (mkctx [] [] 0) (mkctx [] [C_buf 0] 0)).
    - vm_compute. reflexivity.
    - reflexivity.
    - reflexivity.
    - exact answers_ready.
    - vm_compute. reflexivity. }
  assert (H5 : istep (mkisys ide2 [Awake; Out] [request buf5] [request buf5]) (mkisys ide2 [Back; Out] [request buf5] [request buf5])).
  { apply (i_resume (mkisys ide2 [Awake; Out] [request buf5] [request buf5]) 0 RwReturns ide2 (mkctx [] [] 0) (mkctx [] [] 0)); vm_compute; reflexivity. }
  assert (Hb : iboot isys0) by (split; try done; repeat constructor).
  assert (Hr : rtc istep isys0 (mkisys ide2 [Back; Out] [request buf5] [request buf5])).
  { eapply rtc_l; [exact H1|]. eapply rtc_l; [exact H2|]. eapply rtc_l; [exact H3|]. eapply rtc_l; [exact H4|]. eapply rtc_l; [exact H5|]. apply rtc_refl. }
  destruct (ide_requests_served isys0 _ Hb Hr) as (_ & _ & H6). eexists. split; [exact Hr|]. split; [reflexivity|]. split; [vm_compute; reflexivity|].
  apply (H6 0%nat). reflexivity.
Defined.

(** When the disk reports an error for a read, the handler skips the data
    but marks the buffer valid all the same: iderw returns as if the block
    had been read. *)
Lemma ide_error_ignored :
  let s := after ideintr (with_stat [Z.lor IDE_DRDY IDE_ERR; 0x40] (set_disk (disk_complete (idisk ide1)) ide1)) in
  synced (ibuf 0 s) = true /\ bufdata (ibuf 0 s) = [] /\ sectors (idisk s) 0 5 = [5].
Proof. vm_compute. auto. Qed.
