(* ===== verification/Log.v ===== *)
(** * log.c: the write-ahead log

    The code of log.c over the block interface of Block.v; its theorems are
    in LogProof.v. *)

From stdpp Require Import base numbers strings gmap list.
From S2P Require Import Prelude Kmonad Mmu Block.

Local Open Scope Z_scope.

Definition LOGSIZEn : nat := Z.to_nat LOGSIZE.

(** struct log, with the rest of the kernel below it.  struct logheader is
    [lhn] and [lhblock]. *)
Record log (S : Type) : Type := mklog {
  lstart : Z;
  lsize : Z;
  outstanding : Z;      (* how many FS sys calls are executing *)
  committing : bool;    (* in commit(), please wait *)
  ldev : Z;
  lhn : Z;
  lhblock : list Z;     (* int block[LOGSIZE] *)
  lblk : S              (* the buffer cache *)
}.
Arguments mklog {S}.
Arguments lstart {S}.
Arguments lsize {S}.
Arguments outstanding {S}.
Arguments committing {S}.
Arguments ldev {S}.
Arguments lhn {S}.
Arguments lhblock {S}.
Arguments lblk {S}.

Definition set_where {S} (dev start size : Z) (l : log S) : log S :=
  mklog start size (outstanding l) (committing l) dev (lhn l) (lhblock l) (lblk l).
Definition set_outstanding {S} (v : Z) (l : log S) : log S :=
  mklog (lstart l) (lsize l) v (committing l) (ldev l) (lhn l) (lhblock l) (lblk l).
Definition set_committing {S} (v : bool) (l : log S) : log S :=
  mklog (lstart l) (lsize l) (outstanding l) v (ldev l) (lhn l) (lhblock l) (lblk l).
Definition set_lhn {S} (v : Z) (l : log S) : log S :=
  mklog (lstart l) (lsize l) (outstanding l) (committing l) (ldev l) v (lhblock l) (lblk l).
Definition set_lhblock {S} (v : list Z) (l : log S) : log S :=
  mklog (lstart l) (lsize l) (outstanding l) (committing l) (ldev l) (lhn l) v (lblk l).
Definition set_lblk {S} (v : S) (l : log S) : log S :=
  mklog (lstart l) (lsize l) (outstanding l) (committing l) (ldev l) (lhn l) (lhblock l) v.

Definition blk_lens {S} : lens (log S) S := Lens lblk set_lblk.

(** struct superblock *)
Record superblock : Type := mksb {
  sb_size : Z; sb_nblocks : Z; sb_ninodes : Z; sb_nlog : Z;
  sb_logstart : Z; sb_inodestart : Z; sb_bmapstart : Z
}.

Definition parse_sb (d : bytes) : superblock :=
  mksb (get_u32 0 d) (get_u32 4 d) (get_u32 8 d) (get_u32 12 d)
       (get_u32 16 d) (get_u32 20 d) (get_u32 24 d).

(** struct logheader in a block: n, then block[]. *)
Definition hdr_n (d : bytes) : Z := i32 (get_u32 0 d).
Definition hdr_block (k : nat) (d : bytes) : Z := i32 (get_u32 (4 + 4 * k) d).

Definition sizeof_logheader : Z := 4 + 4 * LOGSIZE.

Section log.
Context {S : Type} `{BlockOps S}.

Abbreviation on_blk m := (zoom blk_lens m).

(** Reading b->data and writing it. *)
Definition data (i : nat) : K (log S) bytes := gets (fun l => bget_data i (lblk l)).
Definition set_data (i : nat) (d : bytes) : K (log S) unit :=
  modify (fun l => set_lblk (bset_data i d (lblk l)) l).

(** readsb (fs.c) *)
Definition readsb (dev : Z) : K (log S) superblock :=
  bp ← on_blk (bread dev 1);
  d ← data bp;
  on_blk (brelse bp);;
  mret (parse_sb d).

(** log.lh.block[i]; an index past the array is a fault. *)
Definition lh_get (i : nat) : K (log S) Z :=
  bs ← gets lhblock;
  match bs !! i with Some b => mret b | None => panic "out of bounds" end.
Definition lh_set (i : nat) (b : Z) : K (log S) unit :=
  bs ← gets lhblock;
  if Nat.ltb i (length bs) then modify (set_lhblock (<[i := b]> bs)) else panic "out of bounds".

(** The body of install_trans for one log entry. *)
Definition install_one (tail : nat) : K (log S) unit :=
  dev ← gets ldev;
  start ← gets lstart;
  lbuf ← on_blk (bread dev (start + Z.of_nat tail + 1));
  b ← lh_get tail;
  dbuf ← on_blk (bread dev b);
  d ← data lbuf;
  set_data dbuf d;;
  on_blk (bwrite dbuf);;
  on_blk (brelse lbuf);;
  on_blk (brelse dbuf).

(** [for (tail = 0; tail < log.lh.n; tail++) body(tail)] *)
Fixpoint for_tail (body : nat -> K (log S) unit) (n tail : nat) : K (log S) unit :=
  match n with
  | O => mret tt
  | Datatypes.S n => body tail;; for_tail body n (Datatypes.S tail)
  end.

Definition install_trans : K (log S) unit :=
  n ← gets lhn;
  for_tail install_one (Z.to_nat n) 0.

Fixpoint read_head_loop (d : bytes) (n i : nat) : K (log S) unit :=
  match n with
  | O => mret tt
  | Datatypes.S n => lh_set i (hdr_block i d);; read_head_loop d n (Datatypes.S i)
  end.

Definition read_head : K (log S) unit :=
  dev ← gets ldev;
  start ← gets lstart;
  buf ← on_blk (bread dev start);
  d ← data buf;
  modify (set_lhn (hdr_n d));;
  read_head_loop d (Z.to_nat (hdr_n d)) 0;;
  on_blk (brelse buf).

(** The header block as write_head leaves it. *)
Fixpoint put_blocks (i : nat) (bs : list Z) (d : bytes) : bytes :=
  match bs with
  | [] => d
  | b :: t => put_blocks (Datatypes.S i) t (put_u32 (4 + 4 * i) b d)
  end.

Definition put_hdr (n : Z) (bs : list Z) (d : bytes) : bytes := put_blocks 0 bs (put_u32 0 n d).

Definition write_head : K (log S) unit :=
  dev ← gets ldev;
  start ← gets lstart;
  buf ← on_blk (bread dev start);
  d ← data buf;
  n ← gets lhn;
  bs ← gets lhblock;
  set_data buf (put_hdr n (take (Z.to_nat n) bs) d);;
  on_blk (bwrite buf);;
  on_blk (brelse buf).

Definition recover_from_log : K (log S) unit :=
  read_head;;
  install_trans;;
  modify (set_lhn 0);;
  write_head.

Definition initlog (dev : Z) : K (log S) unit :=
  if BSIZE <=? sizeof_logheader then panic "initlog: too big logheader"
  else
    sb ← readsb dev;
    modify (set_where dev (i32 (sb_logstart sb)) (i32 (sb_nlog sb)));;
    recover_from_log.

(** begin_op sleeps on &log while a commit runs or the log could fill up,
    and starts over when woken. *)
Definition begin_op : K (log S) unit :=
  acquire L_log;;
  l ← get;
  if committing l then release L_log;; block C_log
  else if LOGSIZE <? lhn l + (outstanding l + 1) * MAXOPBLOCKS then release L_log;; block C_log
  else
    modify (set_outstanding (outstanding l + 1));;
    release L_log.

Definition write_log_one (tail : nat) : K (log S) unit :=
  dev ← gets ldev;
  start ← gets lstart;
  to ← on_blk (bread dev (start + Z.of_nat tail + 1));
  b ← lh_get tail;
  from ← on_blk (bread dev b);
  d ← data from;
  set_data to d;;
  on_blk (bwrite to);;
  on_blk (brelse from);;
  on_blk (brelse to).

Definition write_log : K (log S) unit :=
  n ← gets lhn;
  for_tail write_log_one (Z.to_nat n) 0.

Definition commit : K (log S) unit :=
  n ← gets lhn;
  if 0 <? n then
    write_log;;
    write_head;;
    install_trans;;
    modify (set_lhn 0);;
    write_head
  else mret tt.

Definition end_op : K (log S) unit :=
  acquire L_log;;
  modify (fun l => set_outstanding (outstanding l - 1) l);;
  l ← get;
  if committing l then panic "log.committing"
  else
    let do_commit := outstanding l =? 0 in
    (if do_commit then modify (set_committing true) else wakeup C_log);;
    release L_log;;
    (if do_commit then
       commit;;
       acquire L_log;;
       modify (set_committing false);;
       wakeup C_log;;
       release L_log
     else mret tt).

(** The search of log_write for a block already in the log. *)
Definition absorb (b n : Z) (bs : list Z) : nat :=
  default (Z.to_nat n) (find_idx (fun x => u32 x =? b) (take (Z.to_nat n) bs)).

Definition log_write (i : nat) : K (log S) unit :=
  l ← get;
  if (LOGSIZE <=? lhn l) || (lsize l - 1 <=? lhn l) then panic "too big a transaction"
  else if outstanding l <? 1 then panic "log_write outside of trans"
  else
    acquire L_log;;
    l ← get;
    let b := bget_blockno i (lblk l) in
    let k := absorb b (lhn l) (lhblock l) in
    lh_set k (i32 b);;
    (if Z.of_nat k =? lhn l then modify (set_lhn (lhn l + 1)) else mret tt);;
    modify (fun l => set_lblk (bset_dirty i (lblk l)) l);;
    release L_log.

End log.
