(* ===== verification/LogProof.v ===== *)
(** * log.c: runs and crash safety

    What commit and recovery do to the disk, as sequences of block writes,
    and what a disk with a log means ([recover_disk], the effect of
    recover_from_log).  Commit is atomic: after a crash at any point of it,
    and after any number of crashes during recovery, recovery leaves either
    the old or the new contents of all the blocks of the transaction. *)

From stdpp Require Import base numbers strings gmap list.
From S2P Require Import Prelude Kmonad Mmu Block Log.

Local Open Scope Z_scope.

(** ** The log on disk *)

Definition hdr_blocks (d : bytes) : list Z :=
  (fun k => hdr_block k d) <$> seq 0 (Z.to_nat (hdr_n d)).

(** The bytes of a block that is on the disk. *)
Definition at_block (D : blocks) (b : Z) : bytes := default [] (D !! b).

(** The writes of recover_from_log on disk [D]. *)
Definition install_writes (start : Z) (D : blocks) (bl : list Z) : list dwrite :=
  imap (fun k b => (b, at_block D (start + Z.of_nat k + 1))) bl.

Definition recover_writes (start : Z) (D : blocks) : list dwrite :=
  let h := at_block D start in
  install_writes start D (hdr_blocks h) ++ [(start, put_hdr 0 [] h)].

Definition recover_disk (start : Z) (D : blocks) : blocks :=
  apply_writes D (recover_writes start D).

(** The writes of commit() for the blocks [bl], whose new contents are in
    [V], on disk [D]. *)
Definition log_writes (start : Z) (V : blocks) (bl : list Z) : list dwrite :=
  imap (fun k b => (start + Z.of_nat k + 1, at_block V b)) bl.

Definition home_writes (V : blocks) (bl : list Z) : list dwrite :=
  (fun b => (b, at_block V b)) <$> bl.

Definition committed_hdr (bl : list Z) (h : bytes) : bytes :=
  put_hdr (Z.of_nat (length bl)) bl h.

Definition commit_writes (start : Z) (D V : blocks) (bl : list Z) : list dwrite :=
  let h := at_block D start in
  log_writes start V bl ++ [(start, committed_hdr bl h)] ++ home_writes V bl ++
  [(start, put_hdr 0 [] (committed_hdr bl h))].

(** A block outside the log. *)
Definition home (start size b : Z) : Prop := b < start \/ start + size <= b.

Definition same_home (start size : Z) (D D' : blocks) : Prop :=
  forall b, home start size b -> D !! b = D' !! b.

(** A transaction that fits the log. *)
Record txn_ok (start size : Z) (D : blocks) (bl : list Z) : Prop := {
  tx_fit : Z.of_nat (length bl) < size;
  tx_max : Z.of_nat (length bl) <= LOGSIZE;
  tx_nodup : NoDup bl;
  tx_home : Forall (fun b => home start size b /\ 0 <= b < 2147483648 /\ b ∈ dom D) bl;
  tx_log : forall b, start <= b < start + size -> b ∈ dom D
}.

(** *** The header block *)

Lemma length_put_blocks i bs d :
  (4 + 4 * (i + length bs) <= length d)%nat -> length (put_blocks i bs d) = length d.
Proof.
  revert i d. induction bs as [|b bs IH]; intros i d Hl; cbn [put_blocks]; [done|].
  cbn [length] in Hl. rewrite IH; rewrite length_put_u32; lia.
Qed.

Lemma Forall_put_blocks i bs d : Forall is_byte d -> Forall is_byte (put_blocks i bs d).
Proof.
  revert i d. induction bs as [|b bs IH]; intros i d Hd; cbn [put_blocks]; [done|].
  apply IH. by apply Forall_put_u32.
Qed.

Lemma get_put_blocks_lt i bs d k :
  (4 + 4 * (i + length bs) <= length d)%nat -> (k < i)%nat ->
  get_u32 (4 + 4 * k) (put_blocks i bs d) = get_u32 (4 + 4 * k) d.
Proof.
  revert i d. induction bs as [|b bs IH]; intros i d Hl Hk; cbn [put_blocks]; [done|].
  cbn [length] in Hl. rewrite IH by (rewrite ?length_put_u32; lia).
  apply get_put_u32_ne; lia.
Qed.

Lemma get_put_blocks_0 i bs d :
  (4 + 4 * (i + length bs) <= length d)%nat -> get_u32 0 (put_blocks i bs d) = get_u32 0 d.
Proof.
  revert i d. induction bs as [|b bs IH]; intros i d Hl; cbn [put_blocks]; [done|].
  cbn [length] in Hl. rewrite IH by (rewrite ?length_put_u32; lia). apply get_put_u32_ne; lia.
Qed.

Lemma get_put_blocks i bs d k b :
  (4 + 4 * (i + length bs) <= length d)%nat -> bs !! k = Some b ->
  get_u32 (4 + 4 * (i + k)) (put_blocks i bs d) = u32 b.
Proof.
  revert i d k. induction bs as [|x bs IH]; intros i d k Hl Hk; [done|].
  cbn [length] in Hl. cbn [put_blocks]. destruct k as [|k]; cbn in Hk.
  - injection Hk as ->. rewrite Nat.add_0_r.
    rewrite get_put_blocks_lt by (rewrite ?length_put_u32; lia). apply get_put_u32. lia.
  - replace (i + S k)%nat with (S i + k)%nat by lia. apply IH; [|done].
    rewrite length_put_u32; lia.
Qed.

Lemma wf_put_hdr n bs d :
  (length bs <= 30)%nat -> wf_block d -> wf_block (put_hdr n bs d).
Proof.
  intros Hb [Hl Hd]. unfold BSIZEn in Hl. unfold put_hdr. split.
  - rewrite length_put_blocks; rewrite length_put_u32; unfold BSIZEn; lia.
  - by apply Forall_put_blocks, Forall_put_u32.
Qed.

(** Reading back a header that was written. *)
Lemma hdr_put_hdr bs d :
  (length bs <= 30)%nat -> Forall (fun b => 0 <= b < 2147483648) bs -> wf_block d ->
  hdr_blocks (put_hdr (Z.of_nat (length bs)) bs d) = bs.
Proof.
  intros Hb Hr [Hl _]. unfold BSIZEn in Hl.
  assert (Hl' : (4 + 4 * (0 + length bs) <= length (put_u32 0 (Z.of_nat (length bs)) d))%nat)
    by (rewrite length_put_u32; lia).
  assert (Hn : hdr_n (put_hdr (Z.of_nat (length bs)) bs d) = Z.of_nat (length bs)).
  { unfold hdr_n, put_hdr. rewrite get_put_blocks_0 by done. rewrite get_put_u32 by lia.
    rewrite i32_u32. apply i32_id. lia. }
  unfold hdr_blocks. rewrite Hn, Nat2Z.id. apply list_eq. intros k.
  rewrite list_lookup_fmap. destruct (decide (k < length bs)%nat) as [Hk|Hk].
  - rewrite lookup_seq_lt by done. cbn [fmap option_fmap option_map].
    apply lookup_lt_is_Some_2 in Hk as [b Hk]. rewrite Hk. f_equal. cbn [Nat.add].
    unfold hdr_block, put_hdr. change (4 + 4 * k)%nat with (4 + 4 * (0 + k))%nat.
    rewrite (get_put_blocks 0 bs _ k b Hl' Hk). rewrite i32_u32.
    apply (Forall_lookup_1 _ _ _ _ Hr) in Hk. apply i32_id. lia.
  - rewrite lookup_seq_ge by lia. symmetry. cbn. apply lookup_ge_None_2. lia.
Qed.

Lemma hdr_blocks_cleared d : wf_block d -> hdr_blocks (put_hdr 0 [] d) = [].
Proof. intros Hd. apply (hdr_put_hdr []); [cbn; lia|done|done]. Qed.

(** *** What recovery does to the home blocks *)

Lemma prefix_app_cases {A} (p l k : list A) :
  p `prefix_of` l ++ k -> p `prefix_of` l \/ exists q, p = l ++ q /\ q `prefix_of` k.
Proof.
  revert l. induction p as [|x p IH]; intros l Hp; [left; apply prefix_nil|].
  destruct l as [|y l]; [right; by exists (x :: p)|].
  cbn in Hp. apply prefix_cons_inv_1 in Hp as Hxy. apply prefix_cons_inv_2 in Hp. subst y.
  destruct (IH l Hp) as [H|(q & -> & H)]; [left; by apply prefix_cons|right; by exists q].
Qed.

Lemma prefix_keys (p ws : list dwrite) b : p `prefix_of` ws -> b ∉ ws.*1 -> b ∉ p.*1.
Proof. intros [q ->]. rewrite fmap_app, elem_of_app. tauto. Qed.

Lemma install_keys start D bl : (install_writes start D bl).*1 = bl.
Proof.
  unfold install_writes. apply list_eq. intros k. rewrite list_lookup_fmap, list_lookup_imap.
  by destruct (bl !! k).
Qed.

Lemma home_keys V bl : (home_writes V bl).*1 = bl.
Proof. unfold home_writes. rewrite <- list_fmap_compose. apply list_fmap_id. Qed.

Lemma log_key start V bl b :
  b ∈ (log_writes start V bl).*1 <-> start < b <= start + Z.of_nat (length bl).
Proof.
  rewrite list_elem_of_lookup. unfold log_writes. split.
  - intros [k Hk]. rewrite list_lookup_fmap, list_lookup_imap in Hk.
    destruct (bl !! k) as [x|] eqn:Ek; [|done]. injection Hk as <-. cbn.
    apply lookup_lt_Some in Ek. lia.
  - intros Hb. exists (Z.to_nat (b - start - 1)).
    rewrite list_lookup_fmap, list_lookup_imap.
    destruct (lookup_lt_is_Some_2 bl (Z.to_nat (b - start - 1)) ltac:(lia)) as [x ->].
    cbn. f_equal. lia.
Qed.

Lemma NoDup_log_keys start V bl : NoDup (log_writes start V bl).*1.
Proof.
  apply NoDup_alt. intros i j b. unfold log_writes. rewrite !list_lookup_fmap, !list_lookup_imap.
  destruct (bl !! i), (bl !! j); try done. cbn. intros [= <-] [= E]. lia.
Qed.

Section recover.
Context (start size : Z) (D : blocks).
Let h := at_block D start.

Lemma recover_in k b :
  NoDup (hdr_blocks h) -> hdr_blocks h !! k = Some b -> b <> start ->
  recover_disk start D !! b = Some (at_block D (start + Z.of_nat k + 1)).
Proof.
  intros Hnd Hk Hne. unfold recover_disk, recover_writes. fold h. rewrite apply_writes_app. cbn.
  unfold apply_write. cbn. rewrite lookup_insert_ne by done. apply apply_writes_in.
  - by rewrite install_keys.
  - apply list_elem_of_lookup. exists k. unfold install_writes. by rewrite list_lookup_imap, Hk.
Qed.

Lemma recover_notin b :
  b ∉ hdr_blocks h -> b <> start -> recover_disk start D !! b = D !! b.
Proof.
  intros Hb Hne. unfold recover_disk, recover_writes. fold h. rewrite apply_writes_app. cbn.
  unfold apply_write. cbn. rewrite lookup_insert_ne by done. apply apply_writes_notin.
  by rewrite install_keys.
Qed.

End recover.

Lemma home_not_start start size b : 0 < size -> home start size b -> b <> start.
Proof. unfold home. lia. Qed.

Lemma recover_clean start size D :
  0 < size -> hdr_blocks (at_block D start) = [] -> same_home start size (recover_disk start D) D.
Proof.
  intros Hs Hh b Hb. apply recover_notin; [rewrite Hh; apply not_elem_of_nil|].
  by eapply home_not_start.
Qed.

Lemma at_block_eq D D' b : D !! b = D' !! b -> at_block D b = at_block D' b.
Proof. unfold at_block. by intros ->. Qed.

Lemma at_block_lookup D b : b ∈ dom D -> D !! b = Some (at_block D b).
Proof. unfold at_block. by intros [d ->]%elem_of_dom. Qed.

Lemma at_block_Some D b d : D !! b = Some d -> at_block D b = d.
Proof. unfold at_block. by intros ->. Qed.

(** The log of disk [D] holds a transaction that can be installed. *)
Record rec_ok (start size : Z) (D : blocks) : Prop := {
  ro_wf : wf_block (at_block D start);
  ro_start : start ∈ dom D;
  ro_size : 0 < size;
  ro_txn : txn_ok start size D (hdr_blocks (at_block D start))
}.

Lemma txn_ok_dom start size D D' bl :
  dom D' = dom D -> txn_ok start size D bl -> txn_ok start size D' bl.
Proof. intros E [? ? ? ? ?]. by split; rewrite ?E. Qed.

Lemma txn_ok_nil start size D bl : txn_ok start size D bl -> txn_ok start size D [].
Proof.
  intros [H1 H2 H3 H4 H5]. split; [cbn; lia|unfold LOGSIZE, MAXOPBLOCKS; cbn; lia|constructor|constructor|done].
Qed.

(** ** A crash during commit *)

Section commit.
Context (start size : Z) (D V : blocks) (bl : list Z).
Hypothesis Htx : txn_ok start size D bl.
Hypothesis HdomV : dom V = dom D.
Hypothesis Hwf : wf_block (at_block D start).
(** No transaction is in the log, and the cache differs from the disk only
    in the blocks of the new transaction. *)
Hypothesis Hidle : hdr_blocks (at_block D start) = [].
Hypothesis Hclean : forall b, home start size b -> b ∉ bl -> V !! b = D !! b.

Let h' := committed_hdr bl (at_block D start).

Lemma tx_size : 0 < size.
Proof. pose proof (tx_fit _ _ _ _ Htx). lia. Qed.

Lemma tx_in b : b ∈ bl -> home start size b /\ 0 <= b < 2147483648 /\ b ∈ dom D.
Proof. pose proof (tx_home _ _ _ _ Htx) as Hh. rewrite Forall_forall in Hh. apply Hh. Qed.

Lemma tx_len : (length bl <= 30)%nat.
Proof. pose proof (tx_max _ _ _ _ Htx) as Hm. unfold LOGSIZE, MAXOPBLOCKS in Hm. lia. Qed.

Lemma hdr_committed : hdr_blocks h' = bl.
Proof.
  apply hdr_put_hdr; [apply tx_len| |done]. apply Forall_forall. intros b Hb. by apply tx_in.
Qed.

Lemma wf_committed : wf_block h'.
Proof. apply wf_put_hdr; [apply tx_len|done]. Qed.

Lemma log_keys_not_home b : home start size b -> b ∉ (log_writes start V bl).*1.
Proof. rewrite log_key. pose proof (tx_fit _ _ _ _ Htx). unfold home. lia. Qed.

(** Before the header is written nothing has happened. *)
Lemma crash_before p :
  p `prefix_of` log_writes start V bl ->
  same_home start size (recover_disk start (apply_writes D p)) D.
Proof.
  intros Hp b Hb. assert (Hs : at_block (apply_writes D p) start = at_block D start).
  { apply at_block_eq, apply_writes_notin. eapply prefix_keys; [done|]. rewrite log_key. lia. }
  rewrite (recover_clean start size) by (done || apply tx_size || by rewrite Hs).
  apply apply_writes_notin. eapply prefix_keys; [done|]. by apply log_keys_not_home.
Qed.

(** The disk when the header and a part [q] of the installs are written. *)
Let Dq q := apply_writes D (log_writes start V bl ++ [(start, h')] ++ q).

Lemma Dq_start q : q `prefix_of` home_writes V bl -> Dq q !! start = Some h'.
Proof.
  intros Hq. unfold Dq. rewrite !apply_writes_app. rewrite apply_writes_notin.
  - cbn. apply lookup_insert_eq.
  - eapply prefix_keys; [done|]. rewrite home_keys. intros Hin. apply tx_in in Hin as [Hh _].
    by apply (home_not_start start size start tx_size Hh).
Qed.

Lemma Dq_log q k b :
  q `prefix_of` home_writes V bl -> bl !! k = Some b ->
  Dq q !! (start + Z.of_nat k + 1) = Some (at_block V b).
Proof.
  intros Hq Hk. pose proof (lookup_lt_Some _ _ _ Hk) as Hlt. pose proof (tx_fit _ _ _ _ Htx).
  unfold Dq. rewrite !apply_writes_app. rewrite apply_writes_notin.
  - cbn. unfold apply_write. cbn. rewrite lookup_insert_ne by lia. apply apply_writes_in.
    + apply NoDup_log_keys.
    + apply list_elem_of_lookup. exists k. unfold log_writes. by rewrite list_lookup_imap, Hk.
  - eapply prefix_keys; [done|]. rewrite home_keys. intros Hin. apply tx_in in Hin as [Hh _].
    unfold home in Hh. lia.
Qed.

Lemma Dq_other q b :
  q `prefix_of` home_writes V bl -> home start size b -> b ∉ bl -> Dq q !! b = D !! b.
Proof.
  intros Hq Hb Hn. unfold Dq. rewrite !apply_writes_app. rewrite apply_writes_notin.
  - cbn. unfold apply_write. cbn. rewrite lookup_insert_ne
      by (apply not_eq_sym; by eapply home_not_start, Hb; apply tx_size).
    apply apply_writes_notin. by apply log_keys_not_home.
  - eapply prefix_keys; [done|]. by rewrite home_keys.
Qed.

(** From the header on, recovery completes the transaction. *)
Lemma crash_after q :
  q `prefix_of` home_writes V bl -> same_home start size (recover_disk start (Dq q)) V.
Proof.
  intros Hq b Hb. pose proof (home_not_start start size b tx_size Hb) as Hne.
  assert (Hh : hdr_blocks (at_block (Dq q) start) = bl).
  { rewrite (at_block_Some _ _ _ (Dq_start q Hq)). apply hdr_committed. }
  destruct (decide (b ∈ bl)) as [Hin|Hn].
  - apply list_elem_of_lookup in Hin as [k Hk].
    rewrite (recover_in start (Dq q) k b); rewrite ?Hh; [|apply (tx_nodup _ _ _ _ Htx)|done|done].
    rewrite (at_block_Some _ _ _ (Dq_log q k b Hq Hk)). symmetry. apply at_block_lookup.
    rewrite HdomV. apply list_elem_of_lookup_2, tx_in in Hk. tauto.
  - rewrite (recover_notin start (Dq q) b) by (by rewrite ?Hh). rewrite (Dq_other q b) by done.
    symmetry. by apply Hclean.
Qed.

Lemma crash_done :
  same_home start size (recover_disk start (apply_writes D (commit_writes start D V bl))) V.
Proof.
  set (Dz := apply_writes D (commit_writes start D V bl)).
  assert (Ez : Dz = <[start := put_hdr 0 [] h']> (Dq (home_writes V bl))).
  { unfold Dz, commit_writes, Dq. rewrite !apply_writes_app. done. }
  intros b Hb. pose proof (home_not_start start size b tx_size Hb) as Hne.
  rewrite (recover_clean start size); [|apply tx_size| |done].
  - rewrite Ez, lookup_insert_ne by done. destruct (decide (b ∈ bl)) as [Hin|Hn].
    + unfold Dq. rewrite !apply_writes_app. rewrite (apply_writes_in _ _ b (at_block V b)).
      * symmetry. apply at_block_lookup. rewrite HdomV. by apply tx_in.
      * rewrite home_keys. apply (tx_nodup _ _ _ _ Htx).
      * unfold home_writes. apply list_elem_of_fmap. eauto.
    + rewrite (Dq_other _ b) by done. symmetry. by apply Hclean.
  - rewrite Ez. rewrite (at_block_Some _ start (put_hdr 0 [] h')) by apply lookup_insert_eq.
    apply hdr_blocks_cleared, wf_committed.
Qed.

(** The cases of a crash: before the header, while installing, at the end. *)
Lemma commit_prefix p :
  p `prefix_of` commit_writes start D V bl ->
  p `prefix_of` log_writes start V bl \/
  (exists q, q `prefix_of` home_writes V bl /\ p = log_writes start V bl ++ [(start, h')] ++ q) \/
  p = commit_writes start D V bl.
Proof.
  unfold commit_writes. fold h'. intros Hp.
  destruct (prefix_app_cases _ _ _ Hp) as [Ha|(q & -> & Hq)]; [by left|].
  destruct q as [|x q]; [left; by rewrite app_nil_r|right].
  apply prefix_cons_inv_1 in Hq as Hx. apply prefix_cons_inv_2 in Hq. subst x.
  destruct (prefix_app_cases _ _ _ Hq) as [Hi|(t & -> & Ht)]; [left; by exists q|].
  destruct t as [|x t]; [left; exists (home_writes V bl); by rewrite app_nil_r|right].
  apply prefix_cons_inv_1 in Ht as Hx. apply prefix_cons_inv_2, prefix_nil_inv in Ht. by subst t x.
Qed.

Lemma commit_writes_dom : Forall (fun w => w.1 ∈ dom D) (commit_writes start D V bl).
Proof.
  assert (Hkeys : forall ws, (forall b, b ∈ ws.*1 -> b ∈ dom D) -> Forall (fun w : dwrite => w.1 ∈ dom D) ws).
  { intros ws Hk. apply Forall_forall. intros w Hw. apply Hk, list_elem_of_fmap. eauto. }
  pose proof (tx_fit _ _ _ _ Htx). apply Hkeys. intros b. unfold commit_writes.
  rewrite !fmap_app, !elem_of_app, log_key, home_keys. cbn.
  assert (Hl : forall x, start <= x <= start + Z.of_nat (length bl) -> x ∈ dom D).
  { intros x Hx. apply (tx_log _ _ _ _ Htx). lia. }
  rewrite !list_elem_of_singleton. intros [Hb|[->|[Hb| ->]]]; try (apply Hl; lia). by apply tx_in.
Qed.

(** Every crash point of commit. *)
Lemma commit_crash p :
  p `prefix_of` commit_writes start D V bl ->
  same_home start size (recover_disk start (apply_writes D p)) D \/
  same_home start size (recover_disk start (apply_writes D p)) V.
Proof.
  intros Hp. destruct (commit_prefix p Hp) as [Ha|[(q & Hq & ->)| ->]].
  - left. by apply crash_before.
  - right. by apply (crash_after q).
  - right. apply crash_done.
Qed.

Lemma commit_done_hdr :
  apply_writes D (commit_writes start D V bl) !! start = Some (put_hdr 0 [] h').
Proof. unfold commit_writes. rewrite !apply_writes_app. cbn. apply lookup_insert_eq. Qed.

Lemma commit_crash_ok p :
  p `prefix_of` commit_writes start D V bl -> rec_ok start size (apply_writes D p).
Proof.
  intros Hp. assert (Hd : dom (apply_writes D p) = dom D).
  { apply dom_apply_writes. destruct Hp as [q Hq]. pose proof commit_writes_dom as Hw.
    rewrite Hq in Hw. by apply Forall_app in Hw as [? _]. }
  assert (Hst : start ∈ dom (apply_writes D p)).
  { rewrite Hd. apply (tx_log _ _ _ _ Htx). pose proof tx_size. lia. }
  assert (Hgen : forall h, at_block (apply_writes D p) start = h -> wf_block h ->
    (hdr_blocks h = bl \/ hdr_blocks h = []) -> rec_ok start size (apply_writes D p)).
  { intros h <- Hw Hbl. split; [done|done|apply tx_size|]. apply (txn_ok_dom _ _ D); [done|].
    destruct Hbl as [-> | ->]; [done|by eapply txn_ok_nil]. }
  destruct (commit_prefix p Hp) as [Ha|[(q & Hq & ->)| ->]].
  - apply (Hgen (at_block D start)); [|done|by right].
    apply at_block_eq, apply_writes_notin. eapply prefix_keys; [done|]. rewrite log_key. lia.
  - apply (Hgen h'); [by apply at_block_Some, Dq_start|apply wf_committed|left; apply hdr_committed].
  - apply (Hgen (put_hdr 0 [] h')); [by apply at_block_Some, commit_done_hdr| |].
    + apply wf_put_hdr; [cbn; lia|apply wf_committed].
    + right. apply hdr_blocks_cleared, wf_committed.
Qed.

End commit.

(** ** A crash during recovery *)

Section recovery.
Context (start size : Z) (D : blocks).
Hypothesis Hok : rec_ok start size D.
Let bl := hdr_blocks (at_block D start).

Lemma rec_home b : b ∈ bl -> home start size b.
Proof.
  pose proof (tx_home _ _ _ _ (ro_txn _ _ _ Hok)) as Hh. rewrite Forall_forall in Hh.
  intros Hb. by apply (Hh b).
Qed.

Lemma install_prefix_log p b :
  p `prefix_of` install_writes start D bl -> ~ home start size b ->
  apply_writes D p !! b = D !! b.
Proof.
  intros Hp Hb. apply apply_writes_notin. eapply prefix_keys; [done|]. rewrite install_keys.
  intros Hin. by apply Hb, rec_home.
Qed.

Lemma recover_crash_install p :
  p `prefix_of` install_writes start D bl ->
  same_home start size (recover_disk start (apply_writes D p)) (recover_disk start D).
Proof.
  intros Hp b Hb. pose proof (ro_size _ _ _ Hok) as Hs. pose proof (ro_txn _ _ _ Hok) as Htx.
  pose proof (home_not_start start size b Hs Hb) as Hne.
  assert (Hh : at_block (apply_writes D p) start = at_block D start).
  { apply at_block_eq, install_prefix_log; [done|]. unfold home. lia. }
  destruct (decide (b ∈ bl)) as [Hin|Hn].
  - apply list_elem_of_lookup in Hin as [k Hk]. pose proof (tx_nodup _ _ _ _ Htx) as Hnd.
    rewrite (recover_in _ _ k b) by (by rewrite ?Hh).
    rewrite (recover_in _ _ k b) by done. f_equal. apply at_block_eq, install_prefix_log; [done|].
    apply lookup_lt_Some in Hk. pose proof (tx_fit _ _ _ _ Htx) as Hf. fold bl in Hf.
    unfold home. lia.
  - rewrite !recover_notin by (by rewrite ?Hh). apply apply_writes_notin.
    eapply prefix_keys; [done|]. by rewrite install_keys.
Qed.

Lemma hdr_recover : at_block (recover_disk start D) start = put_hdr 0 [] (at_block D start).
Proof.
  unfold recover_disk, recover_writes. rewrite apply_writes_app. cbn. unfold apply_write. cbn.
  apply at_block_Some, lookup_insert_eq.
Qed.

Lemma recover_twice :
  same_home start size (recover_disk start (recover_disk start D)) (recover_disk start D).
Proof.
  apply recover_clean; [apply (ro_size _ _ _ Hok)|]. rewrite hdr_recover.
  apply hdr_blocks_cleared, (ro_wf _ _ _ Hok).
Qed.

Lemma recover_writes_dom : Forall (fun w => w.1 ∈ dom D) (recover_writes start D).
Proof.
  apply Forall_app. split; [|constructor; [apply (ro_start _ _ _ Hok)|constructor]].
  apply Forall_forall. intros w Hw. assert (Hin : w.1 ∈ (install_writes start D bl).*1)
    by (apply list_elem_of_fmap; eauto).
  rewrite install_keys in Hin. pose proof (tx_home _ _ _ _ (ro_txn _ _ _ Hok)) as Hh.
  rewrite Forall_forall in Hh. by apply (Hh w.1).
Qed.

Lemma prefix_Forall (P : dwrite -> Prop) p ws : p `prefix_of` ws -> Forall P ws -> Forall P p.
Proof. intros [q ->] [Hp _]%Forall_app. done. Qed.

(** A crash during recovery: the disk can be recovered again, to the same
    home blocks. *)
Lemma recover_crash p :
  p `prefix_of` recover_writes start D ->
  rec_ok start size (apply_writes D p) /\
  same_home start size (recover_disk start (apply_writes D p)) (recover_disk start D).
Proof.
  intros Hp. assert (Hd : dom (apply_writes D p) = dom D).
  { apply dom_apply_writes. eapply prefix_Forall; [done|apply recover_writes_dom]. }
  pose proof Hok as [Hwf Hst Hs Htx].
  assert (Hinst : p `prefix_of` install_writes start D bl -> rec_ok start size (apply_writes D p) /\
    same_home start size (recover_disk start (apply_writes D p)) (recover_disk start D)).
  { intros Hi. split; [|by apply recover_crash_install].
    assert (Hh : at_block (apply_writes D p) start = at_block D start).
    { apply at_block_eq, install_prefix_log; [done|]. unfold home. lia. }
    split; rewrite ?Hh, ?Hd; try done. by apply (txn_ok_dom _ _ D). }
  destruct (prefix_app_cases _ _ _ Hp) as [Hi|(q & -> & Hq)]; [|destruct q as [|x q]].
  - by apply Hinst.
  - apply Hinst. by rewrite app_nil_r.
  - apply prefix_cons_inv_1 in Hq as Hx. apply prefix_cons_inv_2, prefix_nil_inv in Hq. subst q x.
    fold (recover_writes start D). fold (recover_disk start D).
    fold (recover_writes start D) in Hd. fold (recover_disk start D) in Hd.
    split; [|apply recover_twice]. split; rewrite ?hdr_recover, ?Hd; [|done|done|].
    + by apply wf_put_hdr; [cbn; lia|].
    + rewrite hdr_blocks_cleared by done. apply (txn_ok_dom _ _ D); [done|]. by eapply txn_ok_nil.
Qed.

End recovery.

(** Booting until a recovery completes: any number of crashes before. *)
Inductive reboots (start : Z) : blocks -> blocks -> Prop :=
| rb_done D : reboots start D (recover_disk start D)
| rb_crash D p D' :
    p `prefix_of` recover_writes start D -> reboots start (apply_writes D p) D' ->
    reboots start D D'.

Lemma reboots_home start size D D' :
  rec_ok start size D -> reboots start D D' -> same_home start size D' (recover_disk start D).
Proof.
  intros Hok Hr. induction Hr as [D|D p D' Hp Hr IH]; [by intros b|].
  destruct (recover_crash start size D Hok p Hp) as [Hok' Hsame]. intros b Hb.
  rewrite (IH Hok' b Hb). by apply Hsame.
Qed.

(** Crash anywhere in commit, then crash anywhere in any number of
    recoveries: the transaction is there or it is not. *)
Lemma commit_crash_reboots start size D V bl p D' :
  txn_ok start size D bl -> dom V = dom D -> wf_block (at_block D start) ->
  hdr_blocks (at_block D start) = [] ->
  (forall b, home start size b -> b ∉ bl -> V !! b = D !! b) ->
  p `prefix_of` commit_writes start D V bl -> reboots start (apply_writes D p) D' ->
  same_home start size D' D \/ same_home start size D' V.
Proof.
  intros Htx Hd Hwf Hidle Hcl Hp Hr.
  assert (Hok : rec_ok start size (apply_writes D p)) by (by apply (commit_crash_ok start size D V bl)).
  pose proof (reboots_home start size _ _ Hok Hr) as Hs.
  destruct (commit_crash start size D V bl Htx Hd Hwf Hidle Hcl p Hp) as [Ho|Hn].
  - left. intros b Hb. rewrite (Hs b Hb). by apply Ho.
  - right. intros b Hb. rewrite (Hs b Hb). by apply Hn.
Qed.

(** ** Runs of the code *)

Section run.
Context {S : Type} `{BlockLayer S}.
Implicit Types (l : log S) (V D : blocks) (T : list dwrite) (P : gset Z).

Ltac blk_simpl := cbn [lget lset blk_lens lblk set_lblk ldev lstart lsize lhn lhblock set_lhn].

(** Copy a cached, pinned block to its log block. *)
Lemma write_log_one_run l c V D T P k b d :
  blk (lblk l) V D T ∅ P -> held c = [] -> ldev l = 1 -> lhblock l !! k = Some b ->
  let lb := lstart l + Z.of_nat k + 1 in
  b ∈ P -> b ∈ dom D -> lb ∈ dom D -> lb ∉ P -> (size P < NBUF)%nat -> V !! b = Some d ->
  wp (write_log_one k) (fun _ l' c' => held c' = [] /\ exists s', l' = set_lblk s' l /\
    blk s' (<[lb := d]> V) (<[lb := d]> D) (T ++ [(lb, d)]) ∅ P) l c.
Proof.
  intros Hs Hc Hdev Hk lb HbP HbD HlD HlP Hsz Hd. assert (Hne : b <> lb) by congruence.
  unfold write_log_one. ksteps. rewrite Hdev. blk_simpl. fold lb.
  eapply wp_bread; [done..|set_solver|right; by rewrite union_empty_l_L|].
  intros i1 s1 c1 Hs1 Hc1 Hb1 _. blk_simpl.
  unfold lh_get. ksteps. blk_simpl. rewrite Hk. ksteps. blk_simpl.
  eapply wp_bread; [done..|set_solver|by left|]. intros i2 s2 c2 Hs2 Hc2 Hb2 Hoth.
  apply Hoth in Hb1. unfold data, set_data. ksteps. blk_simpl.
  pose proof (blk_data _ _ _ _ _ _ _ _ Hs2 Hb2) as Hd2. rewrite Hd in Hd2. injection Hd2 as <-.
  destruct (blk_set_data _ _ _ _ _ _ _ _ d Hs2 Hb1) as [Hs3 Hb3]; [by eapply blk_view_wf|].
  eapply (wp_bwrite _ _ _ _ _ _ _ i1 lb d); [done..|by rewrite Hb3|apply lookup_insert_eq|].
  intros s4 c4 Hs4 Hc4 Hb4. ksteps. blk_simpl.
  eapply (wp_brelse _ _ _ _ _ _ _ i2 b); [done..|by rewrite Hb4, Hb3|left; set_solver|].
  intros s5 c5 Hs5 Hc5 Hb5. ksteps. blk_simpl.
  assert (Hi : i1 <> i2).
  { intros ->. congruence. }
  eapply (wp_brelse _ _ _ _ _ _ _ i1 lb); [done..|by rewrite Hb5, Hb4, Hb3|right; by rewrite !lookup_insert_eq|].
  intros s6 c6 Hs6 Hc6 _. blk_simpl. split; [done|]. exists s6. split; [done|].
  replace (P ∖ {[lb]}) with P in Hs6 by set_solver.
  by replace (({[b]} ∪ ({[lb]} ∪ ∅)) ∖ {[b]} ∖ {[lb]}) with (∅ : gset Z) in Hs6 by set_solver.
Qed.

(** Copy a log block to its home. *)
Lemma install_one_run l c V D T P k b d :
  blk (lblk l) V D T ∅ P -> held c = [] -> ldev l = 1 -> lhblock l !! k = Some b ->
  let lb := lstart l + Z.of_nat k + 1 in
  b ∈ dom D -> lb ∈ dom D -> lb ∉ P -> b <> lb ->
  b ∈ P \/ (size ({[lb]} ∪ P) < NBUF)%nat -> (size P < NBUF)%nat -> V !! lb = Some d ->
  wp (install_one k) (fun _ l' c' => held c' = [] /\ exists s', l' = set_lblk s' l /\
    blk s' (<[b := d]> V) (<[b := d]> D) (T ++ [(b, d)]) ∅ (P ∖ {[b]})) l c.
Proof.
  intros Hs Hc Hdev Hk lb HbD HlD HlP Hne Hsz2 Hsz Hd.
  unfold install_one. ksteps. rewrite Hdev. blk_simpl. fold lb.
  eapply wp_bread; [done..|set_solver|right; by rewrite union_empty_l_L|].
  intros i1 s1 c1 Hs1 Hc1 Hb1 _. blk_simpl.
  unfold lh_get. ksteps. blk_simpl. rewrite Hk. ksteps. blk_simpl.
  eapply wp_bread; [done..|set_solver|by rewrite union_empty_r_L|]. intros i2 s2 c2 Hs2 Hc2 Hb2 Hoth.
  apply Hoth in Hb1. unfold data, set_data. ksteps. blk_simpl.
  pose proof (blk_data _ _ _ _ _ _ _ _ Hs2 Hb1) as Hd1. rewrite Hd in Hd1. injection Hd1 as <-.
  destruct (blk_set_data _ _ _ _ _ _ _ _ d Hs2 Hb2) as [Hs3 Hb3]; [by eapply blk_view_wf|].
  eapply (wp_bwrite _ _ _ _ _ _ _ i2 b d); [done..|by rewrite Hb3|apply lookup_insert_eq|].
  intros s4 c4 Hs4 Hc4 Hb4. ksteps. blk_simpl.
  assert (Hcl : V !! lb = D !! lb) by (apply (blk_clean _ _ _ _ _ _ _ Hs); [apply not_elem_of_empty|done]).
  eapply (wp_brelse _ _ _ _ _ _ _ i1 lb); [done..|by rewrite Hb4, Hb3| |].
  { right. by rewrite !lookup_insert_ne. }
  intros s5 c5 Hs5 Hc5 Hb5. ksteps. blk_simpl.
  assert (Hi : i2 <> i1).
  { intros ->. congruence. }
  eapply (wp_brelse _ _ _ _ _ _ _ i2 b); [done..|by rewrite Hb5, Hb4, Hb3|right; by rewrite !lookup_insert_eq|].
  intros s6 c6 Hs6 Hc6 _. blk_simpl. split; [done|]. exists s6. split; [done|].
  by replace (({[b]} ∪ ({[lb]} ∪ ∅)) ∖ {[lb]} ∖ {[b]}) with (∅ : gset Z) in Hs6 by set_solver.
Qed.

(** Write the in-memory header to the header block. *)
Lemma write_head_run l c V D T P h :
  blk (lblk l) V D T ∅ P -> held c = [] -> ldev l = 1 ->
  lstart l ∈ dom D -> lstart l ∉ P -> (size P < NBUF)%nat -> D !! lstart l = Some h ->
  (length (take (Z.to_nat (lhn l)) (lhblock l)) <= 30)%nat ->
  let h' := put_hdr (lhn l) (take (Z.to_nat (lhn l)) (lhblock l)) h in
  wp write_head (fun _ l' c' => held c' = [] /\ exists s', l' = set_lblk s' l /\
    blk s' (<[lstart l := h']> V) (<[lstart l := h']> D) (T ++ [(lstart l, h')]) ∅ P) l c.
Proof.
  intros Hs Hc Hdev HD HP Hsz Hh Hlen h'.
  unfold write_head. ksteps. rewrite Hdev. blk_simpl.
  eapply wp_bread; [done..|set_solver|right; by rewrite union_empty_l_L|].
  intros i1 s1 c1 Hs1 Hc1 Hb1 _. unfold data, set_data. ksteps. blk_simpl.
  pose proof (blk_data _ _ _ _ _ _ _ _ Hs1 Hb1) as Hd1.
  assert (Hcl : V !! lstart l = D !! lstart l) by (apply (blk_clean _ _ _ _ _ _ _ Hs); [apply not_elem_of_empty|done]).
  rewrite Hcl, Hh in Hd1. injection Hd1 as <-. fold h'.
  destruct (blk_set_data _ _ _ _ _ _ _ _ h' Hs1 Hb1) as [Hs3 Hb3].
  { apply wf_put_hdr; [done|by eapply blk_disk_wf]. }
  eapply (wp_bwrite _ _ _ _ _ _ _ i1 _ h'); [done..|by rewrite Hb3|apply lookup_insert_eq|].
  intros s4 c4 Hs4 Hc4 Hb4. ksteps. blk_simpl.
  eapply (wp_brelse _ _ _ _ _ _ _ i1 (lstart l)); [done..|by rewrite Hb4, Hb3|right; by rewrite !lookup_insert_eq|].
  intros s6 c6 Hs6 Hc6 _. blk_simpl. split; [done|]. exists s6. split; [done|].
  replace (P ∖ {[lstart l]}) with P in Hs6 by set_solver.
  by replace (({[lstart l]} ∪ ∅) ∖ {[lstart l]}) with (∅ : gset Z) in Hs6 by set_solver.
Qed.

(** The loops, from entry [k] on. *)
Definition log_writes_from (start : Z) (k : nat) (V : blocks) (bl : list Z) : list dwrite :=
  imap (fun j b => (start + Z.of_nat (k + j) + 1, at_block V b)) bl.

Definition install_writes_from (start : Z) (k : nat) (D : blocks) (bl : list Z) : list dwrite :=
  imap (fun j b => (b, at_block D (start + Z.of_nat (k + j) + 1))) bl.

Lemma log_writes_from_cons start k V b bl :
  log_writes_from start k V (b :: bl) =
  (start + Z.of_nat k + 1, at_block V b) :: log_writes_from start (Datatypes.S k) V bl.
Proof.
  unfold log_writes_from. rewrite imap_cons, Nat.add_0_r. f_equal. apply imap_ext.
  intros j x _. cbn. by rewrite Nat.add_succ_r.
Qed.

Lemma install_writes_from_cons start k D b bl :
  install_writes_from start k D (b :: bl) =
  (b, at_block D (start + Z.of_nat k + 1)) :: install_writes_from start (Datatypes.S k) D bl.
Proof.
  unfold install_writes_from. rewrite imap_cons, Nat.add_0_r. f_equal. apply imap_ext.
  intros j x _. cbn. by rewrite Nat.add_succ_r.
Qed.

Lemma lookup_suffix {A} (l : list A) k x t :
  drop k l = x :: t -> l !! k = Some x /\ drop (Datatypes.S k) l = t.
Proof.
  intros E. split.
  - rewrite <- (Nat.add_0_r k), <- lookup_drop, E. done.
  - rewrite <- (Nat.add_1_r k), <- drop_drop, E. done.
Qed.

Lemma write_log_loop bl rest l c V D T P V0 k :
  blk (lblk l) V D T ∅ P -> held c = [] -> ldev l = 1 ->
  drop k (lhblock l) = bl ++ rest -> (size P < NBUF)%nat ->
  (forall b, b ∈ bl -> b ∈ P /\ b ∈ dom D /\ V !! b = Some (at_block V0 b)) ->
  (forall j, (j < length bl)%nat ->
    let lb := lstart l + Z.of_nat (k + j) + 1 in lb ∈ dom D /\ lb ∉ P) ->
  let ws := log_writes_from (lstart l) k V0 bl in
  wp (for_tail write_log_one (length bl) k) (fun _ l' c' => held c' = [] /\
    exists s', l' = set_lblk s' l /\
    blk s' (apply_writes V ws) (apply_writes D ws) (T ++ ws) ∅ P) l c.
Proof.
  revert l c V D T k. induction bl as [|b bl IH];
    intros l c V D T k Hs Hc Hdev Hd Hsz Hbl Hlb; cbn [for_tail length].
  - ksteps. split; [done|]. exists (lblk l). rewrite app_nil_r. by destruct l.
  - destruct (Hbl b ltac:(left)) as (HbP & HbD & HbV).
    destruct (Hlb 0%nat ltac:(cbn; lia)) as [HlD HlP]. rewrite Nat.add_0_r in HlD, HlP.
    destruct (lookup_suffix _ _ _ _ Hd) as [Hk Hd'].
    kstep. eapply wp_mono; [by apply (write_log_one_run l c V D T P k b)|].
    intros _ l1 c1 (Hc1 & s1 & -> & Hs1). cbv beta.
    set (lb := lstart l + Z.of_nat k + 1) in *.
    eapply wp_mono; [apply (IH (set_lblk s1 l) c1 _ _ _ (Datatypes.S k) Hs1 Hc1 Hdev Hd' Hsz)|].
    + intros x Hx. destruct (Hbl x ltac:(by right)) as (? & ? & ?). split; [done|].
      split; [rewrite dom_insert; set_solver|]. rewrite lookup_insert_ne; [done|]. by intros <-.
    + intros j Hj. cbn [lstart set_lblk]. destruct (Hlb (Datatypes.S j) ltac:(cbn; lia)) as [? ?].
      rewrite <- Nat.add_succ_comm in *. split; [rewrite dom_insert; set_solver|done].
    + intros _ l2 c2 (Hc2 & s2 & -> & Hs2). split; [done|]. exists s2. split; [done|].
      rewrite log_writes_from_cons. fold lb. cbn [lstart set_lblk] in Hs2.
      rewrite <- app_assoc in Hs2. exact Hs2.
Qed.

Lemma install_loop bl rest l c V D T P D0 k :
  blk (lblk l) V D T ∅ P -> held c = [] -> ldev l = 1 ->
  drop k (lhblock l) = bl ++ rest -> (size P < NBUF)%nat -> NoDup bl ->
  (forall b, b ∈ bl -> b ∈ P) \/ P = ∅ ->
  (forall b, b ∈ bl -> b ∈ dom D /\
    forall j, (j < length bl)%nat -> b <> lstart l + Z.of_nat (k + j) + 1) ->
  (forall j, (j < length bl)%nat -> let lb := lstart l + Z.of_nat (k + j) + 1 in
    lb ∈ dom D /\ lb ∉ P /\ V !! lb = Some (at_block D0 lb)) ->
  let ws := install_writes_from (lstart l) k D0 bl in
  wp (for_tail install_one (length bl) k) (fun _ l' c' => held c' = [] /\
    exists s', l' = set_lblk s' l /\
    blk s' (apply_writes V ws) (apply_writes D ws) (T ++ ws) ∅ (P ∖ list_to_set bl)) l c.
Proof.
  revert l c V D T P k. induction bl as [|b bl IH];
    intros l c V D T P k Hs Hc Hdev Hd Hsz Hnd HP Hbl Hlb; cbn [for_tail length].
  - ksteps. split; [done|]. exists (lblk l). rewrite app_nil_r. cbn [list_to_set].
    rewrite difference_empty_L. by destruct l.
  - destruct (Hbl b ltac:(left)) as (HbD & Hne). specialize (Hne 0%nat ltac:(cbn; lia)) as Hne0.
    destruct (Hlb 0%nat ltac:(cbn; lia)) as (HlD & HlP & HlV).
    rewrite Nat.add_0_r in HlD, HlP, HlV, Hne0. apply NoDup_cons in Hnd as [Hnin Hnd].
    destruct (lookup_suffix _ _ _ _ Hd) as [Hk Hd']. set (lb := lstart l + Z.of_nat k + 1) in *.
    kstep. eapply wp_mono; [apply (install_one_run l c V D T P k b (at_block D0 lb)); try done|].
    { destruct HP as [HP| ->]; [left; apply HP; left|right].
      rewrite union_empty_r_L, size_singleton. unfold NBUF. lia. }
    intros _ l1 c1 (Hc1 & s1 & -> & Hs1). cbv beta.
    eapply wp_mono; [apply (IH (set_lblk s1 l) c1 _ _ _ _ (Datatypes.S k) Hs1 Hc1 Hdev Hd')|].
    + eapply Nat.le_lt_trans; [|exact Hsz]. apply subseteq_size. set_solver.
    + done.
    + destruct HP as [HP| ->]; [left|right; set_solver]. intros x Hx.
      apply elem_of_difference. split; [apply HP; by right|]. apply not_elem_of_singleton. by intros ->.
    + intros x Hx. destruct (Hbl x ltac:(by right)) as [? Hx']. split; [rewrite dom_insert; set_solver|].
      intros j Hj. cbn [lstart set_lblk]. rewrite Nat.add_succ_comm. apply Hx'. cbn; lia.
    + intros j Hj. cbn [lstart set_lblk]. rewrite Nat.add_succ_comm.
      destruct (Hlb (Datatypes.S j) ltac:(cbn; lia)) as (? & ? & ?).
      split; [rewrite dom_insert; set_solver|]. split; [set_solver|].
      rewrite lookup_insert_ne; [done|]. apply Hne. cbn; lia.
    + intros _ l2 c2 (Hc2 & s2 & -> & Hs2). split; [done|]. exists s2. split; [done|].
      rewrite install_writes_from_cons. fold lb. cbn [lstart set_lblk] in Hs2.
      rewrite <- app_assoc in Hs2. cbn [list_to_set].
      by replace (P ∖ ({[b]} ∪ list_to_set bl)) with (P ∖ {[b]} ∖ list_to_set bl) by set_solver.
Qed.

(** The log during a transaction: its blocks [bl] are pinned in the cache,
    the log on disk is empty; [L] are the blocks of the locked buffers. *)
Record log_ok l V D T (L : gset Z) (bl : list Z) : Prop := {
  lk_blk : blk (lblk l) V D T L (list_to_set bl);
  lk_dev : ldev l = 1;
  lk_n : lhn l = Z.of_nat (length bl);
  lk_blocks : exists rest, lhblock l = bl ++ rest;
  lk_len : length (lhblock l) = LOGSIZEn;
  lk_size : lsize l <= LOGSIZE;
  lk_txn : txn_ok (lstart l) (lsize l) D bl;
  lk_idle : hdr_blocks (at_block D (lstart l)) = []
}.

Lemma log_ok_header l V D T L bl : log_ok l V D T L bl -> D !! lstart l = Some (at_block D (lstart l)).
Proof.
  intros Hl. apply at_block_lookup, (tx_log _ _ _ _ (lk_txn _ _ _ _ _ _ Hl)).
  pose proof (tx_size _ _ _ _ (lk_txn _ _ _ _ _ _ Hl)). lia.
Qed.

Lemma log_ok_clean l V D T L bl b :
  log_ok l V D T L bl -> b ∉ L -> b ∉ bl -> V !! b = D !! b.
Proof.
  intros Hl HL Hb. apply (blk_clean _ _ _ _ _ _ b (lk_blk _ _ _ _ _ _ Hl)); [done|].
  by rewrite elem_of_list_to_set.
Qed.

Lemma log_ok_room l V D T L bl :
  log_ok l V D T L bl -> (size (list_to_set bl : gset Z) < NBUF)%nat.
Proof.
  intros Hl. rewrite size_list_to_set by apply (tx_nodup _ _ _ _ (lk_txn _ _ _ _ _ _ Hl)).
  pose proof (tx_fit _ _ _ _ (lk_txn _ _ _ _ _ _ Hl)). pose proof (lk_size _ _ _ _ _ _ Hl).
  unfold LOGSIZE, MAXOPBLOCKS, NBUF in *. lia.
Qed.

Lemma log_ok_not_log l V D T L bl b :
  log_ok l V D T L bl -> lstart l <= b < lstart l + lsize l -> b ∉ bl.
Proof.
  intros Hl Hb Hin. apply (tx_in _ _ _ _ (lk_txn _ _ _ _ _ _ Hl)) in Hin as [Hh _].
  unfold home in Hh. lia.
Qed.

Lemma install_writes_home start D V bl :
  (forall k b, bl !! k = Some b -> at_block D (start + Z.of_nat k + 1) = at_block V b) ->
  install_writes_from start 0 D bl = home_writes V bl.
Proof.
  intros Hk. unfold install_writes_from, home_writes. apply list_eq. intros k.
  rewrite list_lookup_imap, list_lookup_fmap. destruct (bl !! k) as [b|] eqn:Eb; [|done].
  cbn. by rewrite (Hk k b Eb).
Qed.

Lemma log_ok_region l V D T L bl b :
  log_ok l V D T L bl -> lstart l <= b < lstart l + lsize l ->
  b ∈ dom D /\ b ∉ (list_to_set bl : gset Z).
Proof.
  intros Hl Hb. split; [by apply (tx_log _ _ _ _ (lk_txn _ _ _ _ _ _ Hl))|].
  rewrite elem_of_list_to_set. by eapply log_ok_not_log.
Qed.

Lemma write_log_run l c V D T bl :
  log_ok l V D T ∅ bl -> held c = [] ->
  let ws := log_writes (lstart l) V bl in
  wp write_log (fun _ l' c' => held c' = [] /\ exists s', l' = set_lblk s' l /\
    blk s' (apply_writes V ws) (apply_writes D ws) (T ++ ws) ∅ (list_to_set bl)) l c.
Proof.
  intros Hl Hc ws. pose proof Hl as [Hs Hdev Hn [rest Hbs] Hll Hsize Htx Hidle].
  pose proof (tx_fit _ _ _ _ Htx) as Hfit. unfold write_log. do 2 kstep. rewrite Hn, Nat2Z.id.
  apply (write_log_loop bl rest l c V D T (list_to_set bl) V 0); try done.
  - by eapply log_ok_room.
  - intros b Hb. pose proof (tx_in _ _ _ _ Htx b Hb) as (_ & _ & HbD).
    split; [by rewrite elem_of_list_to_set|]. split; [done|]. apply at_block_lookup.
    by rewrite (blk_dom _ _ _ _ _ _ Hs).
  - intros j Hj. apply (log_ok_region _ _ _ _ _ _ _ Hl). lia.
Qed.

(** The blocks of the log after write_log. *)
Lemma log_writes_lookup start V0 V bl k b :
  bl !! k = Some b -> apply_writes V0 (log_writes start V bl) !! (start + Z.of_nat k + 1) = Some (at_block V b).
Proof.
  intros Hk. apply apply_writes_in; [apply NoDup_log_keys|].
  apply list_elem_of_lookup. exists k. unfold log_writes. by rewrite list_lookup_imap, Hk.
Qed.

Lemma install_run l c V D T bl h :
  txn_ok (lstart l) (lsize l) D bl -> lsize l <= LOGSIZE -> ldev l = 1 -> held c = [] ->
  lhn l = Z.of_nat (length bl) -> (exists rest, lhblock l = bl ++ rest) ->
  let w1 := log_writes (lstart l) V bl in
  let V2 := <[lstart l := h]> (apply_writes V w1) in
  let D2 := <[lstart l := h]> (apply_writes D w1) in
  blk (lblk l) V2 D2 T ∅ (list_to_set bl) -> dom D2 = dom D ->
  let w3 := home_writes V bl in
  wp install_trans (fun _ l' c' => held c' = [] /\ exists s', l' = set_lblk s' l /\
    blk s' (apply_writes V2 w3) (apply_writes D2 w3) (T ++ w3) ∅ ∅) l c.
Proof.
  intros Htx Hsize Hdev Hc Hn [rest Hbs] w1 V2 D2 Hs Hdom w3.
  pose proof (tx_fit _ _ _ _ Htx) as Hfit.
  assert (HV2 : forall k b, bl !! k = Some b -> V2 !! (lstart l + Z.of_nat k + 1) = Some (at_block V b)).
  { intros k b Hk. unfold V2. rewrite lookup_insert_ne by lia. by apply log_writes_lookup. }
  assert (Hreg : forall b, lstart l <= b < lstart l + lsize l -> b ∈ dom D2 /\ b ∉ bl).
  { intros b Hb. rewrite Hdom. split; [by apply (tx_log _ _ _ _ Htx)|].
    intros Hin. apply (tx_in _ _ _ _ Htx) in Hin as [Hh _]. unfold home in Hh. lia. }
  assert (Hw : install_writes_from (lstart l) 0 V2 bl = w3).
  { apply install_writes_home. intros k b Hk. by apply at_block_Some, HV2. }
  unfold install_trans. do 2 kstep. rewrite Hn, Nat2Z.id.
  eapply wp_mono; [apply (install_loop bl rest l c V2 D2 T (list_to_set bl) V2 0); try done|].
  - rewrite size_list_to_set by apply (tx_nodup _ _ _ _ Htx).
    unfold LOGSIZE, MAXOPBLOCKS, NBUF in *. lia.
  - apply (tx_nodup _ _ _ _ Htx).
  - left. intros b Hb. by rewrite elem_of_list_to_set.
  - intros b Hb. rewrite Hdom. pose proof (tx_in _ _ _ _ Htx b Hb) as (Hh & _ & HbD).
    split; [done|]. intros j Hj. unfold home in Hh. lia.
  - intros j Hj. destruct (Hreg (lstart l + Z.of_nat (0 + j) + 1)) as [? ?]; [lia|].
    split; [done|]. split; [by rewrite elem_of_list_to_set|].
    destruct (lookup_lt_is_Some_2 bl j Hj) as [b Hb]. cbn [Nat.add]. rewrite (HV2 j b Hb).
    by rewrite (at_block_Some _ _ _ (HV2 j b Hb)).
  - rewrite Hw. intros _ l' c' (Hc' & s' & -> & Hs'). split; [done|]. exists s'. split; [done|].
    by rewrite difference_diag_L in Hs'.
Qed.

Lemma dom_insert_same D b d : b ∈ dom D -> dom (<[b := d]> D) = dom D.
Proof. intros Hb. rewrite dom_insert_L. set_solver. Qed.

Lemma log_writes_dom start size D V bl :
  txn_ok start size D bl -> dom (apply_writes D (log_writes start V bl)) = dom D.
Proof.
  intros Htx. apply dom_apply_writes, Forall_forall. intros w Hw.
  assert (Hin : w.1 ∈ (log_writes start V bl).*1) by (apply list_elem_of_fmap; eauto).
  rewrite log_key in Hin. apply (tx_log _ _ _ _ Htx). pose proof (tx_fit _ _ _ _ Htx). lia.
Qed.

Lemma home_writes_dom start size D D' V bl :
  txn_ok start size D bl -> dom D' = dom D -> dom (apply_writes D' (home_writes V bl)) = dom D.
Proof.
  intros Htx E. rewrite <- E. apply dom_apply_writes, Forall_forall. intros w Hw.
  assert (Hin : w.1 ∈ (home_writes V bl).*1) by (apply list_elem_of_fmap; eauto).
  rewrite home_keys in Hin. rewrite E. by apply (tx_in _ _ _ _ Htx).
Qed.

(** commit() with a transaction: what it writes, and what it leaves. *)
Lemma commit_run l c V D T bl :
  log_ok l V D T ∅ bl -> held c = [] -> bl <> [] ->
  let ws := commit_writes (lstart l) D V bl in
  wp commit (fun _ l' c' => held c' = [] /\ exists s', l' = set_lblk s' (set_lhn 0 l) /\
    blk s' (apply_writes V ws) (apply_writes D ws) (T ++ ws) ∅ ∅) l c.
Proof.
  intros Hl Hc Hne ws. pose proof Hl as [Hs Hdev Hn [rest Hbs] Hll Hsize Htx Hidle].
  pose proof (log_ok_header _ _ _ _ _ _ Hl) as Hh. pose proof (tx_size _ _ _ _ Htx) as Hpos.
  destruct (log_ok_region _ _ _ _ _ _ (lstart l) Hl) as [HsD HsP]; [lia|].
  unfold commit. do 2 kstep. rewrite (proj2 (Z.ltb_lt _ _)) by (destruct bl; [done|]; rewrite Hn; cbn; lia).
  kstep. eapply wp_mono; [by apply (write_log_run l c V D T bl)|].
  intros _ l1 c1 (Hc1 & s1 & -> & Hs1). cbv beta. kstep.
  assert (Hd1 := log_writes_dom _ _ _ V _ Htx). set (w1 := log_writes (lstart l) V bl) in *.
  eapply wp_mono; [apply (write_head_run (set_lblk s1 l) _ _ _ _ _ (at_block D (lstart l)) Hs1); blk_simpl; try done|].
  { by rewrite Hd1. }
  { by eapply log_ok_room. }
  { rewrite apply_writes_notin; [done|]. unfold w1. rewrite log_key. lia. }
  { rewrite Hn, Nat2Z.id, Hbs, take_app_length. by eapply tx_len. }
  blk_simpl. rewrite Hn, Nat2Z.id, Hbs, take_app_length.
  intros _ l2 c2 (Hc2 & s2 & -> & Hs2). cbv beta. kstep.
  fold (committed_hdr bl (at_block D (lstart l))) in Hs2. set (h' := committed_hdr _ _) in *.
  assert (Hd2 : dom (<[lstart l := h']> (apply_writes D w1)) = dom D)
    by (rewrite dom_insert_same; by rewrite ?Hd1).
  eapply wp_mono; [apply (install_run (set_lblk s2 (set_lblk s1 l)) c2 V D ((T ++ w1) ++ [(lstart l, h')]) bl h'); blk_simpl; try done; by exists rest|].
  blk_simpl. intros _ l3 c3 (Hc3 & s3 & -> & Hs3). cbv beta. do 2 kstep.
  fold w1 in Hs3. assert (Hd3 := home_writes_dom _ _ _ _ V _ Htx Hd2). set (w3 := home_writes V bl) in *.
  eapply wp_mono; [apply (write_head_run (set_lhn 0 (set_lblk s3 (set_lblk s2 (set_lblk s1 l)))) _ _ _ _ _ h' Hs3); blk_simpl; try done|].
  { by rewrite Hd3. }
  { rewrite size_empty. unfold NBUF. lia. }
  { rewrite apply_writes_notin; [apply lookup_insert_eq|]. unfold w3. rewrite home_keys.
    by rewrite elem_of_list_to_set in HsP. }
  { change (Z.to_nat 0) with 0%nat. rewrite take_0. cbn. lia. }
  blk_simpl. change (Z.to_nat 0) with 0%nat. rewrite take_0. intros _ l4 c4 (Hc4 & s4 & -> & Hs4). split; [done|].
  exists s4. split; [done|]. unfold ws, commit_writes. fold h' w1 w3.
  rewrite !apply_writes_app. rewrite <- !app_assoc in Hs4. exact Hs4.
Qed.

(** *** Recovery *)

Lemma read_head_loop_run d n i l c :
  (i + n <= length (lhblock l))%nat ->
  wp (read_head_loop d n i) (fun _ l' c' => c' = c /\
    l' = set_lhblock (take i (lhblock l) ++ ((fun k => hdr_block k d) <$> seq i n) ++
      drop (i + n) (lhblock l)) l) l c.
Proof.
  revert i l. induction n as [|n IH]; intros i l Hl; cbn [read_head_loop].
  - ksteps. split; [done|]. cbn. rewrite Nat.add_0_r, take_drop. by destruct l.
  - unfold lh_set. ksteps. rewrite (proj2 (Nat.ltb_lt _ _)) by lia. ksteps.
    set (bs := lhblock l) in *. set (x := hdr_block i d).
    eapply wp_mono; [apply IH; cbn; rewrite length_insert; fold bs; lia|].
    intros _ l' c' [-> ->]. split; [done|]. cbn [lhblock set_lhblock seq fmap list_fmap].
    destruct l; cbn in *. unfold set_lhblock; cbn. f_equal. fold x.
    rewrite drop_insert_lt by lia. replace (i + Datatypes.S n)%nat with (Datatypes.S i + n)%nat by lia.
    change (list_fmap _ _ (fun k => hdr_block k d)) with (fmap (M := list) (fun k => hdr_block k d)).
    rewrite (take_S_r _ i x) by (apply list_lookup_insert_eq; lia).
    rewrite take_insert_ge by lia. by rewrite <- app_assoc.
Qed.

Lemma read_head_run l c D T h :
  blk (lblk l) D D T ∅ ∅ -> held c = [] -> ldev l = 1 -> D !! lstart l = Some h ->
  (length (hdr_blocks h) <= length (lhblock l))%nat ->
  wp read_head (fun _ l' c' => held c' = [] /\ exists s',
    l' = set_lblk s' (set_lhblock (hdr_blocks h ++ drop (length (hdr_blocks h)) (lhblock l))
      (set_lhn (hdr_n h) l)) /\ blk s' D D T ∅ ∅) l c.
Proof.
  intros Hs Hc Hdev Hh Hlen. unfold read_head. ksteps. rewrite Hdev. blk_simpl.
  eapply wp_bread; [done..|apply elem_of_dom; eauto|set_solver| |].
  { right. rewrite union_empty_l_L, size_empty. unfold NBUF. lia. }
  intros i1 s1 c1 Hs1 Hc1 Hb1 _. unfold data. ksteps. blk_simpl.
  pose proof (blk_data _ _ _ _ _ _ _ _ Hs1 Hb1) as Hd1. rewrite Hh in Hd1. injection Hd1 as <-.
  assert (En : length (hdr_blocks h) = Z.to_nat (hdr_n h))
    by (unfold hdr_blocks; by rewrite length_fmap, length_seq).
  eapply wp_mono; [apply read_head_loop_run; cbn; lia|].
  intros _ l2 c2 [-> ->]. cbv beta. ksteps. cbn [lget lset blk_lens lblk set_lblk set_lhblock set_lhn].
  eapply (wp_brelse _ _ _ _ _ _ _ i1 (lstart l)); [done..|by right|].
  intros s3 c3 Hs3 Hc3 _. split; [done|]. exists s3. cbn. split.
  - rewrite En. done.
  - by replace (({[lstart l]} ∪ ∅) ∖ {[lstart l]}) with (∅ : gset Z) in Hs3 by set_solver.
Qed.

(** recover_from_log on a freshly booted machine performs exactly the
    writes of [recover_writes]. *)
Lemma recover_run l c D T :
  blk (lblk l) D D T ∅ ∅ -> held c = [] -> ldev l = 1 -> length (lhblock l) = LOGSIZEn ->
  rec_ok (lstart l) (lsize l) D ->
  let ws := recover_writes (lstart l) D in
  wp recover_from_log (fun _ l' c' => held c' = [] /\ lhn l' = 0 /\ lstart l' = lstart l /\
    lsize l' = lsize l /\ ldev l' = 1 /\ outstanding l' = outstanding l /\
    committing l' = committing l /\ length (lhblock l') = LOGSIZEn /\
    blk (lblk l') (recover_disk (lstart l) D) (recover_disk (lstart l) D) (T ++ ws) ∅ ∅) l c.
Proof.
  intros Hs Hc Hdev Hlen Hok ws. pose proof Hok as [Hwf Hst Hpos Htx].
  set (h := at_block D (lstart l)) in *. set (bl := hdr_blocks h) in *.
  pose proof (tx_len _ _ _ _ Htx) as Hbl. pose proof (tx_fit _ _ _ _ Htx) as Hfit.
  assert (En : length bl = Z.to_nat (hdr_n h))
    by (unfold bl, hdr_blocks; by rewrite length_fmap, length_seq).
  assert (Hreg : forall b, lstart l <= b < lstart l + lsize l -> b ∈ dom D /\ b ∉ bl).
  { intros b Hb. split; [by apply (tx_log _ _ _ _ Htx)|]. intros Hin.
    apply (tx_in _ _ _ _ Htx) in Hin as [Hh _]. unfold home in Hh. lia. }
  assert (H30 : LOGSIZEn = 30%nat) by done.
  unfold recover_from_log. kstep. eapply wp_mono; [apply (read_head_run l c D T h); try done|].
  { by apply at_block_lookup. }
  { fold bl. lia. }
  intros _ l1 c1 (Hc1 & s1 & -> & Hs1). fold bl. cbv beta. kstep.
  unfold install_trans. do 2 kstep. cbn [lhn set_lblk set_lhblock set_lhn]. rewrite <- En.
  eapply wp_mono.
  { apply (install_loop bl (drop (length bl) (lhblock l)) _ c1 D D T ∅ D 0); cbn; try done.
    - rewrite size_empty. unfold NBUF. lia.
    - apply (tx_nodup _ _ _ _ Htx).
    - by right.
    - intros b Hb. pose proof (tx_in _ _ _ _ Htx b Hb) as (Hh & _ & HbD). split; [done|].
      intros j Hj. unfold home in Hh. lia.
    - intros j Hj. destruct (Hreg (lstart l + Z.of_nat j + 1)) as [Hin _]; [lia|].
      split; [done|]. split; [apply not_elem_of_empty|]. by apply at_block_lookup. }
  cbn [lstart set_lblk set_lhblock set_lhn].
  replace ((∅ : gset Z) ∖ list_to_set bl) with (∅ : gset Z) by set_solver.
  change (install_writes_from (lstart l) 0 D bl) with (install_writes (lstart l) D bl).
  set (w1 := install_writes (lstart l) D bl). intros _ l2 c2 (Hc2 & s2 & -> & Hs2). cbv beta.
  assert (Hd1 : D !! lstart l = apply_writes D w1 !! lstart l).
  { symmetry. apply apply_writes_notin. unfold w1. rewrite install_keys. apply (Hreg (lstart l)). lia. }
  do 2 kstep. eapply wp_mono.
  { apply (write_head_run _ c2 (apply_writes D w1) (apply_writes D w1) (T ++ w1) ∅ h); cbn; try done.
    - apply elem_of_dom. rewrite <- Hd1. by apply elem_of_dom.
    - rewrite size_empty. unfold NBUF. lia.
    - rewrite <- Hd1. by apply at_block_lookup.
    - rewrite take_0. cbn. lia. }
  cbn [lstart lhn lhblock lblk set_lblk set_lhblock set_lhn]. change (Z.to_nat 0) with 0%nat.
  rewrite take_0. intros _ l3 c3 (Hc3 & s3 & -> & Hs3). split; [done|]. cbn.
  do 6 (split; [done|]). split; [rewrite length_app, length_drop; lia|].
  unfold recover_disk, ws, recover_writes. fold h bl w1. rewrite apply_writes_app.
  rewrite <- app_assoc in Hs3. exact Hs3.
Qed.

(** *** Transactions *)

(** What end_op promises when it commits: the log is empty again, the home
    blocks on disk are the kernel's, and every crash on the way is atomic. *)
Definition committed l V D T l' : Prop :=
  exists ws V', let D' := apply_writes D ws in
  outstanding l' = 0 /\ committing l' = false /\ lstart l' = lstart l /\ lsize l' = lsize l /\
  log_ok l' V' D' (T ++ ws) ∅ [] /\
  same_home (lstart l) (lsize l) V' V /\ same_home (lstart l) (lsize l) D' V /\
  forall p D'', p `prefix_of` ws -> reboots (lstart l) (apply_writes D p) D'' ->
    same_home (lstart l) (lsize l) D'' D \/ same_home (lstart l) (lsize l) D'' V.

Lemma same_home_refl start size D : same_home start size D D.
Proof. by intros b. Qed.

Lemma commit_nothing l V D T l' :
  log_ok l V D T ∅ [] -> l' = set_committing false (set_committing true (set_outstanding 0 l)) ->
  committed l V D T l'.
Proof.
  intros Hl ->. pose proof Hl as [Hs Hdev Hn [rest Hbs] Hll Hsize Htx Hidle].
  assert (HVD : forall b, V !! b = D !! b).
  { intros b. apply (log_ok_clean _ _ _ _ _ _ b Hl); [apply not_elem_of_empty|apply not_elem_of_nil]. }
  exists [], V. cbn. rewrite app_nil_r. do 4 (split; [done|]). split; [split; try done; by exists rest|].
  split; [apply same_home_refl|]. split; [intros b _; by rewrite HVD|].
  intros p D'' Hp Hr. apply prefix_nil_inv in Hp. subst p. cbn in Hr. left.
  assert (Hok : rec_ok (lstart l) (lsize l) D).
  { pose proof (log_ok_header _ _ _ _ _ _ Hl) as Hh. split.
    - by eapply blk_disk_wf.
    - apply elem_of_dom. eauto.
    - by eapply tx_size.
    - by rewrite Hidle. }
  intros b Hb. rewrite (reboots_home _ _ _ _ Hok Hr b Hb). apply (recover_clean (lstart l) (lsize l)); try done.
  by eapply tx_size.
Qed.

Lemma commit_something l V D T bl s' l' :
  log_ok l V D T ∅ bl -> bl <> [] ->
  let ws := commit_writes (lstart l) D V bl in
  blk s' (apply_writes V ws) (apply_writes D ws) (T ++ ws) ∅ ∅ ->
  l' = set_committing false (set_lblk s' (set_lhn 0 (set_committing true (set_outstanding 0 l)))) ->
  committed l V D T l'.
Proof.
  intros Hl Hne ws Hs' ->. pose proof Hl as [Hs Hdev Hn [rest Hbs] Hll Hsize Htx Hidle].
  pose proof (log_ok_header _ _ _ _ _ _ Hl) as Hh. pose proof (tx_size _ _ _ _ Htx) as Hpos.
  assert (Hwf : wf_block (at_block D (lstart l))) by (by eapply blk_disk_wf).
  assert (HdV : dom V = dom D) by (by eapply blk_dom).
  assert (Hcl : forall b, home (lstart l) (lsize l) b -> b ∉ bl -> V !! b = D !! b).
  { intros b _ Hb. apply (log_ok_clean _ _ _ _ _ _ b Hl); [apply not_elem_of_empty|done]. }
  assert (Hdom : dom (apply_writes D ws) = dom D) by (by apply dom_apply_writes, (commit_writes_dom _ (lsize l))).
  assert (Hnew : hdr_blocks (at_block (apply_writes D ws) (lstart l)) = []).
  { unfold ws. rewrite (at_block_Some _ _ _ (commit_done_hdr (lstart l) D V bl)).
    apply hdr_blocks_cleared. by eapply wf_committed. }
  assert (HD : same_home (lstart l) (lsize l) (apply_writes D ws) V).
  { intros b Hb. rewrite <- (crash_done (lstart l) (lsize l) D V bl Htx HdV Hwf Hcl b Hb).
    symmetry. by apply (recover_clean (lstart l) (lsize l)). }
  exists ws, (apply_writes V ws). do 4 (split; [done|]). split; [|split; [|split]].
  - split; cbn; try done; [by exists (lhblock l)|]. apply (txn_ok_dom _ _ D); [done|by eapply txn_ok_nil].
  - intros b Hb. rewrite <- (HD b Hb). apply (blk_clean _ _ _ _ _ _ b Hs'); apply not_elem_of_empty.
  - done.
  - intros p D'' Hp Hr. by apply (commit_crash_reboots (lstart l) (lsize l) D V bl p D'').
Qed.

(** C1. Crash safety of the log: when the last operation of a transaction
    calls end_op, the blocks it logged reach their home locations, the
    kernel's view of the home blocks does not change, and after a crash
    before any of the disk writes, followed by any number of crashes during
    recovery, the recovered disk has either none or all of the
    transaction's updates. *)
Theorem end_op_atomic l c V D T bl :
  log_ok l V D T ∅ bl -> held c = [] -> outstanding l = 1 -> committing l = false ->
  wp end_op (fun _ l' c' => held c' = [] /\ committed l V D T l') l c.
Proof.
  intros Hl Hc Hout Hcom. destruct c as [hd w pid]; cbn in Hc; subst hd.
  unfold end_op. kstep. apply wp_acquire; [cbn; set_solver|]. cbn [held woken mypid]. do 4 kstep.
  cbn [committing outstanding set_outstanding]. rewrite Hcom, Hout. cbn [Z.eqb Z.sub Z.add Z.opp Pos.eqb].
  change (1 - 1 =? 0) with true. change (1 - 1) with 0. cbv iota. ksteps.
  set (l1 := set_committing true (set_outstanding 0 l)).
  assert (Hl1 : log_ok l1 V D T ∅ bl) by (destruct Hl; by split).
  destruct (decide (bl = [])) as [->|Hne].
  - unfold commit. ksteps. cbn [lhn l1 set_committing set_outstanding].
    rewrite (lk_n _ _ _ _ _ _ Hl). cbn [length Z.of_nat Z.ltb Z.compare]. ksteps.
    split; [done|]. by apply commit_nothing.
  - eapply wp_mono; [by apply (commit_run l1 _ V D T bl Hl1)|].
    intros _ l2 c2 (Hc2 & s2 & -> & Hs2). cbv beta. destruct c2 as [hd2 w2 pid2]; cbn in Hc2; subst hd2.
    ksteps; [cbn; set_solver|].
    split; [done|]. by apply (commit_something l V D T bl s2).
Qed.

(** The machine at boot: nothing cached or locked, the log's fields zero. *)
Record booted l D T : Prop := {
  bt_blk : blk (lblk l) D D T ∅ ∅;
  bt_idle : outstanding l = 0 /\ committing l = false;
  bt_len : length (lhblock l) = LOGSIZEn
}.

Lemma readsb_run l c D T b1 :
  blk (lblk l) D D T ∅ ∅ -> held c = [] -> D !! 1 = Some b1 ->
  wp (readsb 1) (fun sb l' c' => sb = parse_sb b1 /\ held c' = [] /\
    exists s', l' = set_lblk s' l /\ blk s' D D T ∅ ∅) l c.
Proof.
  intros Hs Hc Hb1. unfold readsb. ksteps. blk_simpl.
  eapply wp_bread; [done..|apply elem_of_dom; eauto|set_solver| |].
  { right. rewrite union_empty_l_L, size_empty. unfold NBUF. lia. }
  intros i1 s1 c1 Hs1 Hc1 Hi1 _. unfold data. ksteps. blk_simpl.
  pose proof (blk_data _ _ _ _ _ _ _ _ Hs1 Hi1) as Hd1. rewrite Hb1 in Hd1. injection Hd1 as Hd1.
  eapply (wp_brelse _ _ _ _ _ _ _ i1 1); [done..|by right|].
  intros s3 c3 Hs3 Hc3 _. ksteps. rewrite <- Hd1. split; [done|]. split; [done|].
  exists s3. split; [done|].
  by replace (({[1]} ∪ ∅) ∖ {[1]}) with (∅ : gset Z) in Hs3 by set_solver.
Qed.

Lemma recovered_log_ok l D T :
  rec_ok (lstart l) (lsize l) D -> lsize l <= LOGSIZE -> ldev l = 1 -> lhn l = 0 ->
  length (lhblock l) = LOGSIZEn ->
  blk (lblk l) (recover_disk (lstart l) D) (recover_disk (lstart l) D) T ∅ ∅ ->
  log_ok l (recover_disk (lstart l) D) (recover_disk (lstart l) D) T ∅ [].
Proof.
  intros Hok Hsz Hdev Hn Hlen Hs. split; try done; [by exists (lhblock l)| |].
  - apply (txn_ok_dom _ _ D).
    + apply dom_apply_writes. by eapply recover_writes_dom.
    + by eapply txn_ok_nil, ro_txn.
  - rewrite hdr_recover. apply hdr_blocks_cleared, (ro_wf _ _ _ Hok).
Qed.

(** C25. Booting: initlog, run on a disk left by a crash, takes the place
    and size of the log from the superblock in block 1, installs the
    committed transaction, if the header names one, and clears the log.
    The disk is then exactly the recovered disk; it agrees outside the log
    with what any number of crashes during recovery and a last complete
    recovery leave; and the log is ready for the first transaction. *)
Theorem recovery_correct l c D T D' b1 :
  let start := sb_logstart (parse_sb b1) in
  let size := sb_nlog (parse_sb b1) in
  booted l D T -> held c = [] -> D !! 1 = Some b1 ->
  start < 2 ^ 31 -> size <= LOGSIZE -> rec_ok start size D -> reboots start D D' ->
  wp (initlog 1) (fun _ l' c' => held c' = [] /\
    lstart l' = start /\ lsize l' = size /\
    bl_disk (lblk l') = recover_disk start D /\
    same_home start size D' (bl_disk (lblk l')) /\
    outstanding l' = 0 /\ committing l' = false /\
    log_ok l' (recover_disk start D) (recover_disk start D) (T ++ recover_writes start D) ∅ []) l c.
Proof.
  intros start size [Hs [Ho Hcm] Hlen] Hc Hb1 Hst Hsz Hok Hr.
  assert (Hge : 0 <= start) by (by apply get_u32_bound, (blk_disk_wf _ _ _ _ _ _ 1 _ Hs)).
  pose proof (ro_size _ _ _ Hok) as Hpos.
  unfold initlog. change (BSIZE <=? sizeof_logheader) with false. cbv iota. kstep.
  eapply wp_mono; [by apply (readsb_run l c D T b1)|].
  intros sb l1 c1 (-> & Hc1 & s1 & -> & Hs1). cbv beta. ksteps. fold start size.
  rewrite !i32_id by (unfold LOGSIZE, MAXOPBLOCKS in *; lia).
  eapply wp_mono; [by apply (recover_run _ c1 D T)|].
  cbn [lstart lsize set_where set_lblk outstanding committing].
  intros _ l' c' (Hc' & Hn & Els & Elz & Hdev & Ho' & Hcm' & Hlen' & Hs').
  rewrite (blk_disk _ _ _ _ _ _ Hs'). do 4 (split; [done|]). split; [by apply reboots_home|].
  split; [congruence|]. split; [congruence|].
  rewrite <- Els in *. rewrite <- Elz in Hok, Hsz. by apply recovered_log_ok.
Qed.

(** *** log_write and begin_op *)

Lemma absorb_spec b bl rest :
  Forall (fun x => 0 <= x < 2147483648) bl -> 0 <= b < 2147483648 ->
  let k := absorb b (Z.of_nat (length bl)) (bl ++ rest) in
  (b ∈ bl /\ bl !! k = Some b) \/ (b ∉ bl /\ k = length bl).
Proof.
  intros Hbl Hb k. unfold k, absorb. rewrite Nat2Z.id, take_app_length.
  assert (Hu : forall x, x ∈ bl -> u32 x = x).
  { intros x Hx. rewrite Forall_forall in Hbl. apply u32_id. unfold in_u32. specialize (Hbl x Hx). lia. }
  destruct (find_idx _ bl) as [i|] eqn:Ef; cbn [default].
  - left. apply find_idx_Some in Ef as [(x & Hx & Hf) _]. apply Z.eqb_eq in Hf.
    assert (x ∈ bl) as Hin by (by eapply list_elem_of_lookup_2). rewrite Hu in Hf by done. by subst x.
  - right. split; [|done]. intros Hin. apply list_elem_of_lookup in Hin as [i Hi].
    rewrite find_idx_None in Ef. specialize (Ef i b Hi). apply Z.eqb_neq in Ef.
    by rewrite Hu in Ef by (by eapply list_elem_of_lookup_2).
Qed.

(** The blocks of the transaction after logging block [b]. *)
Definition with_block (b : Z) (bl : list Z) : list Z := if decide (b ∈ bl) then bl else bl ++ [b].

Lemma with_block_txn start size D bl b :
  txn_ok start size D bl -> home start size b -> 0 <= b < 2147483648 -> b ∈ dom D ->
  Z.of_nat (length bl) < size - 1 -> Z.of_nat (length bl) < LOGSIZE ->
  txn_ok start size D (with_block b bl).
Proof.
  intros [H1 H2 H3 H4 H5] Hh Hr Hd Hs Hm. unfold with_block. case_decide as Hin; [done|].
  split; [rewrite length_app; cbn; lia|rewrite length_app; cbn; lia| | |done].
  - apply NoDup_app. split; [done|]. split; [|apply NoDup_singleton].
    intros x Hx Hx'. apply list_elem_of_singleton in Hx'. congruence.
  - apply Forall_app. split; [done|]. constructor; [done|constructor].
Qed.

Lemma log_write_run l c V D T L bl i b :
  log_ok l V D T L bl -> held c = [] -> bl_buf i (lblk l) = Some b ->
  home (lstart l) (lsize l) b -> 0 <= b < 2147483648 ->
  1 <= outstanding l -> lhn l < lsize l - 1 -> lhn l < LOGSIZE ->
  wp (log_write i) (fun _ l' c' => held c' = [] /\ log_ok l' V D T L (with_block b bl) /\
    outstanding l' = outstanding l /\ lstart l' = lstart l /\ lsize l' = lsize l /\
    (forall j, bl_buf j (lblk l') = bl_buf j (lblk l))) l c.
Proof.
  intros Hl Hc Hi Hh Hr Hout Hn1 Hn2. pose proof Hl as [Hs Hdev Hn [rest Hbs] Hll Hsize Htx Hidle].
  destruct c as [hd w pid]; cbn in Hc; subst hd. unfold log_write. do 2 kstep.
  rewrite (proj2 (Z.leb_gt LOGSIZE _)), (proj2 (Z.leb_gt (lsize l - 1) _)) by lia.
  rewrite (proj2 (Z.ltb_ge _ _)) by lia. cbn [orb]. kstep.
  apply wp_acquire; [cbn; set_solver|]. cbn [held woken mypid]. do 2 kstep.
  assert (HbD : b ∈ dom D).
  { rewrite <- (blk_dom _ _ _ _ _ _ Hs). apply elem_of_dom. rewrite (blk_data _ _ _ _ _ _ _ _ Hs Hi). eauto. }
  rewrite (blk_blockno _ _ _ _ _ _ _ _ Hs Hi), (i32_id b) by lia. rewrite Hn, Hbs.
  assert (Hrange : Forall (fun x => 0 <= x < 2147483648) bl).
  { apply Forall_forall. intros x Hx. by apply (tx_in _ _ _ _ Htx). }
  set (k := absorb b _ _). pose proof (absorb_spec b bl rest Hrange Hr) as Hk. fold k in Hk.
  assert (Hlen : (length (bl ++ rest) = 30)%nat) by (rewrite <- Hbs, Hll; done).
  assert (Hbl30 : (length bl < 30)%nat) by (unfold LOGSIZE, MAXOPBLOCKS in Hn2; lia).
  assert (Hklt : (k < 30)%nat) by (destruct Hk as [[_ Hk]|[_ ->]]; [apply lookup_lt_Some in Hk|]; lia).
  destruct (blk_set_dirty _ _ _ _ _ _ _ _ Hs Hi) as [Hs2 Hb2].
  unfold lh_set. ksteps. rewrite Hbs, Hlen, (proj2 (Nat.ltb_lt _ _)) by done. ksteps.
  pose proof (with_block_txn _ _ _ _ _ Htx Hh Hr HbD ltac:(lia) ltac:(lia)) as Htx'.
  unfold with_block in *. destruct Hk as [[Hin Hk]|[Hin Hk]].
  - rewrite decide_True in * by done. apply lookup_lt_Some in Hk as Hkl.
    rewrite (proj2 (Z.eqb_neq _ _)) by lia. ksteps. split; [done|]. split; [|done].
    split; cbn; try done; [|exists rest; by rewrite list_insert_id by (by rewrite lookup_app_l)|by rewrite length_insert].
    replace ({[b]} ∪ list_to_set bl) with (list_to_set bl : gset Z) in Hs2; [done|set_solver].
  - rewrite decide_False in * by done. rewrite (proj2 (Z.eqb_eq _ _)) by lia. ksteps.
    split; [done|]. split; [|done]. rewrite Hk. destruct rest as [|r rest]; [rewrite app_nil_r in Hlen; lia|].
    split; cbn; try done.
    + replace (list_to_set (bl ++ [b])) with ({[b]} ∪ list_to_set bl : gset Z); [done|].
      rewrite list_to_set_app_L. cbn. set_solver.
    + rewrite length_app. cbn. lia.
    + exists rest. rewrite insert_app_r_alt, Nat.sub_diag by lia. cbn. by rewrite <- app_assoc.
    + rewrite length_insert. by rewrite Hlen.
Qed.

(** log_write records a block of the transaction once (a block already
    logged is absorbed), pins its buffer, and keeps the invariant of the
    log; it changes neither the disk nor any block's contents. *)
Theorem log_write_records l c V D T L bl i b :
  log_ok l V D T L bl -> held c = [] -> bl_buf i (lblk l) = Some b ->
  home (lstart l) (lsize l) b -> 0 <= b < 2147483648 ->
  1 <= outstanding l -> lhn l < lsize l - 1 -> lhn l < LOGSIZE ->
  wp (log_write i) (fun _ l' c' => held c' = [] /\ log_ok l' V D T L (with_block b bl) /\
    outstanding l' = outstanding l /\ lstart l' = lstart l /\ lsize l' = lsize l /\
    (forall j, bl_buf j (lblk l') = bl_buf j (lblk l))) l c.
Proof. apply log_write_run. Qed.

(** begin_op admits an operation exactly when no commit is running and
    the log could still hold MAXOPBLOCKS blocks for it and for each
    operation in progress; otherwise it sleeps on &log with no lock held
    and nothing changed. *)
Theorem begin_op_admits l c :
  held c = [] ->
  begin_op l c =
    if committing l || (LOGSIZE <? lhn l + (outstanding l + 1) * MAXOPBLOCKS)
    then Sleep C_log l c else Ret tt (set_outstanding (outstanding l + 1) l) c.
Proof.
  destruct c as [hd w pid]; cbn. intros ->. unfold begin_op, mbind, K_bind.
  rewrite acquire_run by set_solver. unfold get, modify, block. cbn [committing].
  destruct (committing l); cbn [orb]; [by rewrite release_run|].
  by destruct (LOGSIZE <? _); rewrite release_run.
Qed.

End run.
