(* ===== verification/LogRuns.v ===== *)
(** * log.c on the buffer cache: concrete runs

    The theorems of LogProof.v at a concrete machine, a disk of 64 blocks
    with the log in blocks 2 to 31, and what happens when three operations
    use all the log space begin_op promised them. *)

From stdpp Require Import base numbers strings gmap list.
From S2P Require Import Prelude Kmonad Mmu Block Bio Log LogProof.

Local Open Scope Z_scope.

Definition c0 : ctx := mkctx [] [] 0.

Definition log0 : log bio :=
  mklog 2 30 1 false 1 0 (replicate LOGSIZEn 0) (fresh_bio (zero_disk 64) 64).

Lemma log0_blk : blk (lblk log0) (zero_disk 64) (zero_disk 64) [] ∅ ∅.
Proof. apply fresh_blk; [apply zero_disk_dom|apply zero_disk_wf]. Qed.

Lemma zero_disk_at n b : 0 <= b < n -> at_block (zero_disk n) b = replicate BSIZEn 0.
Proof.
  intros Hb. unfold at_block, zero_disk. rewrite lookup_gset_to_gmap, option_guard_True; [done|].
  apply elem_of_list_to_set, elem_of_seqZ. lia.
Qed.

Lemma txn0 bl :
  NoDup bl -> (length bl < 30)%nat -> Forall (fun b => 32 <= b < 64) bl ->
  txn_ok 2 30 (zero_disk 64) bl.
Proof.
  intros Hnd Hl Hb. split; [lia|unfold LOGSIZE, MAXOPBLOCKS; lia|done| |].
  - eapply Forall_impl; [exact Hb|]. intros b Hr. cbv beta in *. rewrite zero_disk_dom. unfold home. lia.
  - intros b Hr. rewrite zero_disk_dom. lia.
Qed.

Lemma log0_ok : log_ok log0 (zero_disk 64) (zero_disk 64) [] ∅ [].
Proof.
  split; try done.
  - apply log0_blk.
  - by exists (replicate LOGSIZEn 0).
  - apply txn0; [constructor|cbn; lia|constructor].
Qed.

(** Write [d] to block 40 inside the transaction. *)
Definition ones : bytes := replicate BSIZEn 1.

Definition held40 : log bio :=
  match zoom blk_lens (bread 1 40) log0 c0 with Ret _ l _ => l | _ => log0 end.
Definition idx40 : nat :=
  match zoom blk_lens (bread 1 40) log0 c0 with Ret i _ _ => i | _ => 0%nat end.
Definition written40 : log bio := set_lblk (bset_data idx40 ones (lblk held40)) held40.

Lemma held40_ok :
  blk (lblk held40) (zero_disk 64) (zero_disk 64) [] {[40]} ∅ /\ bl_buf idx40 (lblk held40) = Some 40.
Proof.
  assert (Hw : wp (bread 1 40) (fun i s' c' => blk s' (zero_disk 64) (zero_disk 64) [] {[40]} ∅ /\
    bl_buf i s' = Some 40) (lblk log0) c0).
  { eapply wp_bread; [apply log0_blk|done|apply zero_disk_dom; lia|apply not_elem_of_empty| |].
    - right. rewrite union_empty_l_L, size_empty. unfold NBUF. lia.
    - intros i s' c' Hs _ Hb _. by rewrite union_empty_r_L in Hs. }
  apply wp_inv in Hw as (i & s' & c' & E & Hs & Hb).
  unfold held40, idx40, zoom. change (lget blk_lens log0) with (lblk log0). rewrite E. done.
Qed.

Lemma wf_ones : wf_block ones.
Proof. split; [apply length_replicate|]. apply Forall_replicate. unfold is_byte. lia. Qed.

Lemma written40_ok :
  log_ok written40 (<[40 := ones]> (zero_disk 64)) (zero_disk 64) [] {[40]} [] /\
  bl_buf idx40 (lblk written40) = Some 40.
Proof.
  destruct held40_ok as [Hs Hb].
  destruct (blk_set_data _ _ _ _ _ _ _ _ ones Hs Hb wf_ones) as [Hs' Hb'].
  split; [|by cbn; rewrite Hb'].
  assert (Ef : forall f : log bio -> Prop, f (set_lblk (lblk held40) log0) -> f held40).
  { unfold held40, zoom. intros f. by destruct (bread 1 40 _ c0). }
  assert (E : written40 = set_lblk (lblk written40) log0).
  { unfold written40. apply (Ef (fun l => set_lblk (bset_data idx40 ones (lblk held40)) l =
      set_lblk (lblk (set_lblk (bset_data idx40 ones (lblk held40)) l)) log0)). done. }
  rewrite E. destruct log0_ok. by split.
Qed.

Lemma log_write_records_witness :
  wp (log_write idx40) (fun _ l' c' => held c' = [] /\
    log_ok l' (<[40 := ones]> (zero_disk 64)) (zero_disk 64) [] {[40]} [40] /\
    outstanding l' = outstanding written40 /\ lstart l' = lstart written40 /\
    lsize l' = lsize written40 /\
    (forall j, bl_buf j (lblk l') = bl_buf j (lblk written40))) written40 c0.
Proof.
  destruct written40_ok as [Hl Hb].
  apply (log_write_records written40 c0 _ _ _ _ [] idx40 40 Hl eq_refl Hb);
    vm_compute; first [done | (right; done)].
Defined.

(** The transaction that holds block 40, ready to commit. *)
Definition logged40 : log bio :=
  match (log_write idx40;; zoom blk_lens (brelse idx40)) written40 c0 with
  | Ret _ l _ => l
  | _ => written40
  end.

Lemma logged40_ok :
  log_ok logged40 (<[40 := ones]> (zero_disk 64)) (zero_disk 64) [] ∅ [40] /\
  outstanding logged40 = 1 /\ committing logged40 = false.
Proof.
  destruct written40_ok as [Hl Hb].
  assert (Hw : wp (log_write idx40;; zoom blk_lens (brelse idx40)) (fun _ l' c' =>
    log_ok l' (<[40 := ones]> (zero_disk 64)) (zero_disk 64) [] ∅ [40]) written40 c0).
  { kstep. eapply wp_mono; [apply (log_write_run written40 c0 _ _ _ _ [] idx40 40 Hl eq_refl Hb);
      vm_compute; first [done | (right; done)]|].
    intros _ l' c' (Hc & Hl' & _ & _ & _ & Hbuf). cbv beta. kstep.
    eapply (wp_brelse _ _ _ _ _ _ _ idx40 40); [apply (lk_blk _ _ _ _ _ _ Hl')|done| | |].
    - cbn [lget blk_lens]. by rewrite Hbuf.
    - left. rewrite elem_of_list_to_set. left.
    - intros s' c2 Hs' _ _. cbn [lset blk_lens]. destruct Hl'. by split. }
  split; [|by vm_compute].
  apply wp_inv in Hw as (u & l' & c' & E & Hl'). unfold logged40. by rewrite E.
Qed.

Lemma end_op_atomic_witness :
  wp end_op (fun _ l' c' => held c' = [] /\
    committed logged40 (<[40 := ones]> (zero_disk 64)) (zero_disk 64) [] l') logged40 c0.
Proof.
  destruct logged40_ok as (Hl & Ho & Hc). by apply (end_op_atomic logged40 c0 _ _ _ [40]).
Defined.

(** A disk left by a crash after the commit point: the superblock puts a
    log of 30 blocks at block 2, the header names block 40, whose new
    contents are in the first log block. *)
Definition sb_block : bytes := put_u32 16 2 (put_u32 12 30 (replicate BSIZEn 0)).
Definition crashed : blocks :=
  <[1 := sb_block]>
    (<[2 := put_hdr 1 [40] (replicate BSIZEn 0)]> (<[3 := ones]> (zero_disk 64))).

Lemma wf_sb_block : wf_block sb_block.
Proof.
  split; [by vm_compute|]. apply Forall_forall. intros x Hx.
  assert (Hall : forallb (fun y => (0 <=? y) && (y <? 256)) sb_block = true) by (by vm_compute).
  rewrite forallb_forall in Hall. specialize (Hall x).
  rewrite andb_true_iff, Z.leb_le, Z.ltb_lt in Hall. apply Hall. by apply list_elem_of_In.
Qed.

Lemma crashed_dom b : b ∈ dom crashed <-> 0 <= b < 64.
Proof.
  unfold crashed. rewrite !dom_insert, !elem_of_union, !elem_of_singleton, zero_disk_dom. lia.
Qed.

Lemma crashed_wf b d : crashed !! b = Some d -> wf_block d.
Proof.
  unfold crashed. rewrite !lookup_insert_Some. intros [[_ <-]|[_ [[_ <-]|[_ Hb]]]].
  - apply wf_sb_block.
  - apply wf_put_hdr; [cbn; lia|apply wf_zero_block].
  - destruct Hb as [[_ <-]|[_ Hb]]; [apply wf_ones|].
    by eapply zero_disk_wf.
Qed.

Lemma crashed_ok : rec_ok 2 30 crashed.
Proof.
  assert (E : at_block crashed 2 = put_hdr 1 [40] (replicate BSIZEn 0)).
  { apply at_block_Some. unfold crashed. rewrite lookup_insert_ne by done. apply lookup_insert_eq. }
  split; rewrite ?E.
  - apply wf_put_hdr; [cbn; lia|apply wf_zero_block].
  - apply crashed_dom. lia.
  - lia.
  - replace (hdr_blocks _) with [40] by (by vm_compute).
    apply (txn_ok_dom _ _ (zero_disk 64)).
    + apply set_eq. intros b. by rewrite crashed_dom, zero_disk_dom.
    + apply txn0; [apply NoDup_singleton|cbn; lia|constructor; [lia|constructor]].
Qed.

Definition log_boot : log bio :=
  mklog 0 0 0 false 0 0 (replicate LOGSIZEn 0) (fresh_bio crashed 64).

Lemma recovery_correct_witness :
  wp (initlog 1) (fun _ l' c' => lstart l' = 2 /\ lsize l' = 30 /\
    bl_disk (lblk l') = recover_disk 2 crashed /\
    same_home 2 30 (recover_disk 2 (apply_writes crashed [(40, ones)])) (bl_disk (lblk l')))
    log_boot c0.
Proof.
  eapply wp_mono.
  - apply (recovery_correct log_boot c0 crashed []
      (recover_disk 2 (apply_writes crashed [(40, ones)])) sb_block); try done.
    + split; [|done..]. apply fresh_blk; [apply crashed_dom|apply crashed_wf].
    + apply crashed_ok.
    + eapply rb_crash; [|apply rb_done]. vm_compute. by eexists.
  - intros _ l' c' (_ & H1 & H2 & H3 & H4 & _). done.
Defined.

Lemma begin_op_admits_witness :
  begin_op log0 c0 = Ret tt (set_outstanding 2 log0) c0.
Proof. by rewrite begin_op_admits. Defined.

(** One operation of a file system call: modify block [b]. *)
Definition log_block (b : Z) : K (log bio) unit :=
  i ← zoom blk_lens (bread 1 b);
  log_write i;;
  zoom blk_lens (brelse i).

Fixpoint log_blocks (b : Z) (n : nat) : K (log bio) unit :=
  match n with
  | O => mret tt
  | S n => log_block b;; log_blocks (b + 1) n
  end.

Definition empty_log : log bio :=
  mklog 2 30 0 false 1 0 (replicate LOGSIZEn 0) (fresh_bio (zero_disk 64) 64).

(** The space begin_op promises is not there: with the log mkfs makes
    (nlog = LOGSIZE), three concurrent operations are admitted, each may
    log MAXOPBLOCKS blocks, and the kernel panics when the last of their 30
    blocks is logged, because log_write keeps one block for the header and
    begin_op does not count it. *)
Theorem log_admission_gap :
  exists l c, (begin_op;; begin_op;; begin_op) empty_log c0 = Ret tt l c /\
    (exists l' c', log_blocks 32 29 l c = Ret tt l' c' /\ lhn l' = 29) /\
    log_blocks 32 30 l c = Panic "too big a transaction".
Proof.
  exists (set_outstanding 3 empty_log), c0. split; [by vm_compute|]. split; [|by vm_compute].
  assert (Hw : wp (log_blocks 32 29) (fun _ l' _ => lhn l' = 29) (set_outstanding 3 empty_log) c0)
    by (by vm_compute).
  apply wp_inv in Hw as ([] & l' & c' & E & Hn). eauto.
Qed.
