(* ===== verification/Fs.v ===== *)
(** * fs.c

    The file system below the system calls: block allocator, inodes, file
    contents, directories and path names, over the log of Log.v.  A
    [struct inode *] is an index of the inode cache; a function that may
    return a null pointer returns an option. *)

From stdpp Require Import base numbers strings gmap list.
From S2P Require Import Prelude Kmonad Kstring Mmu Locks Block Log.

Local Open Scope Z_scope.

(** fs.h, stat.h *)
Definition ROOTINO : Z := 1.
Definition NDIRECT : nat := 12.
Definition NINDIRECT : nat := 128.
Definition MAXFILE : Z := 140.
Definition sizeof_dinode : nat := 64.
Definition IPB : Z := 8.
Definition BPB : Z := 4096.
Definition DIRSIZ : nat := 14.
Definition sizeof_dirent : Z := 16.
Definition T_DIR : Z := 1.
Definition T_FILE : Z := 2.
Definition T_DEV : Z := 3.

Definition IBLOCK (i : Z) (sb : superblock) : Z := u32 (i / IPB + sb_inodestart sb).
Definition BBLOCK (b : Z) (sb : superblock) : Z := u32 (b / BPB + sb_bmapstart sb).

(** struct inode *)
Record inode : Type := mkinode {
  idev : Z; inum : Z; iref : Z; ilk : sleeplock; ivalid : bool;
  itype : Z; major : Z; minor : Z; nlink : Z; isize : Z; addrs : list Z
}.

Definition set_iref (v : Z) (x : inode) : inode :=
  mkinode (idev x) (inum x) v (ilk x) (ivalid x) (itype x) (major x) (minor x) (nlink x) (isize x) (addrs x).
Definition set_ilk (v : sleeplock) (x : inode) : inode :=
  mkinode (idev x) (inum x) (iref x) v (ivalid x) (itype x) (major x) (minor x) (nlink x) (isize x) (addrs x).
Definition set_ivalid (v : bool) (x : inode) : inode :=
  mkinode (idev x) (inum x) (iref x) (ilk x) v (itype x) (major x) (minor x) (nlink x) (isize x) (addrs x).
Definition set_itype (v : Z) (x : inode) : inode :=
  mkinode (idev x) (inum x) (iref x) (ilk x) (ivalid x) v (major x) (minor x) (nlink x) (isize x) (addrs x).
Definition set_nlink (v : Z) (x : inode) : inode :=
  mkinode (idev x) (inum x) (iref x) (ilk x) (ivalid x) (itype x) (major x) (minor x) v (isize x) (addrs x).
Definition set_isize (v : Z) (x : inode) : inode :=
  mkinode (idev x) (inum x) (iref x) (ilk x) (ivalid x) (itype x) (major x) (minor x) (nlink x) v (addrs x).
Definition set_addrs (v : list Z) (x : inode) : inode :=
  mkinode (idev x) (inum x) (iref x) (ilk x) (ivalid x) (itype x) (major x) (minor x) (nlink x) (isize x) v.
Definition set_dev_inum (d n : Z) (x : inode) : inode :=
  mkinode d n (iref x) (ilk x) (ivalid x) (itype x) (major x) (minor x) (nlink x) (isize x) (addrs x).

Definition zero_inode : inode :=
  mkinode 0 0 0 (mksleeplock false 0) false 0 0 0 0 0 (replicate 13 0).

(** struct dinode in a block: the inode's fields at [off]. *)
Definition get_i16 (off : nat) (d : bytes) : Z := i16 (get_u16 off d).

Fixpoint get_words (off n : nat) (d : bytes) : list Z :=
  match n with
  | O => []
  | S n => get_u32 off d :: get_words (off + 4) n d
  end.

Fixpoint put_words (off : nat) (ws : list Z) (d : bytes) : bytes :=
  match ws with
  | [] => d
  | w :: t => put_words (off + 4) t (put_u32 off w d)
  end.

(** The copies of ilock and of iupdate. *)
Definition load_dinode (off : nat) (d : bytes) (x : inode) : inode :=
  mkinode (idev x) (inum x) (iref x) (ilk x) (ivalid x)
    (get_i16 off d) (get_i16 (off + 2) d) (get_i16 (off + 4) d) (get_i16 (off + 6) d)
    (get_u32 (off + 8) d) (get_words (off + 12) 13 d).

Definition store_dinode (off : nat) (x : inode) (d : bytes) : bytes :=
  put_words (off + 12) (addrs x)
    (put_u32 (off + 8) (isize x)
      (put_u16 (off + 6) (nlink x) (put_u16 (off + 4) (minor x)
        (put_u16 (off + 2) (major x) (put_u16 off (itype x) d))))).

(** (struct dinode * )bp->data + inum % IPB *)
Definition dinode_off (n : Z) : nat := Z.to_nat (n mod IPB) * sizeof_dinode.

(** struct stat *)
Record stat : Type := mkstat {
  st_type : Z; st_dev : Z; st_ino : Z; st_nlink : Z; st_size : Z
}.

Record fs (S : Type) : Type := mkfs {
  flog : log S;
  fsb : superblock;          (* the global sb *)
  icache : list inode        (* icache.inode[NINODE] *)
}.
Arguments mkfs {S}.
Arguments flog {S}.
Arguments fsb {S}.
Arguments icache {S}.

Definition set_flog {S} (l : log S) (f : fs S) : fs S := mkfs l (fsb f) (icache f).
Definition set_fsb {S} (sb : superblock) (f : fs S) : fs S := mkfs (flog f) sb (icache f).
Definition set_icache {S} (c : list inode) (f : fs S) : fs S := mkfs (flog f) (fsb f) c.

Definition log_lens {S} : lens (fs S) (log S) := Lens flog set_flog.

#[export] Instance log_lens_ok {S} : LensOk (@log_lens S).
Proof. split; [done|by intros []|done]. Qed.

(** struct dirent *)
Definition de_inum (d : bytes) : Z := get_u16 0 d.
Definition de_name (d : bytes) : bytes := drop 2 d.

Section fs.
Context {S : Type} `{BlockOps S}.

Abbreviation on_log m := (zoom log_lens m).
Abbreviation on_blk m := (zoom log_lens (zoom blk_lens m)).

Definition fdata (i : nat) : K (fs S) bytes := on_log (data i).
Definition set_fdata (i : nat) (d : bytes) : K (fs S) unit := on_log (set_data i d).

(** *** Blocks *)

Definition fs_readsb (dev : Z) : K (fs S) unit :=
  sb ← on_log (readsb dev);
  modify (set_fsb sb).

Definition bzero (dev bno : Z) : K (fs S) unit :=
  bp ← on_blk (bread dev bno);
  set_fdata bp (replicate BSIZEn 0);;
  on_log (log_write bp);;
  on_blk (brelse bp).

(** [bp->data[bi/8] & (1 << (bi % 8))] *)
Definition bit_clear (bi : Z) (d : bytes) : bool :=
  Z.land (nth_byte d (Z.to_nat (bi / 8))) (Z.shiftl 1 (bi mod 8)) =? 0.

Definition set_bit (bi : Z) (d : bytes) : bytes :=
  alter (fun x => Z.lor x (Z.shiftl 1 (bi mod 8))) (Z.to_nat (bi / 8)) d.
Definition clear_bit (bi : Z) (d : bytes) : bytes :=
  alter (fun x => Z.land x (Z.lnot (Z.shiftl 1 (bi mod 8)))) (Z.to_nat (bi / 8)) d.

(** The inner loop of balloc: the first clear bit from [bi] on. *)
Fixpoint free_bit (fuel : nat) (bi b size : Z) (d : bytes) : option Z :=
  match fuel with
  | O => None
  | Datatypes.S fuel =>
      if (bi <? BPB) && (b + bi <? size) then
        if bit_clear bi d then Some bi else free_bit fuel (bi + 1) b size d
      else None
  end.

(** The outer loop, from block [b]; each turn covers BPB blocks. *)
Fixpoint balloc_from (fuel : nat) (dev b : Z) : K (fs S) Z :=
  match fuel with
  | O => panic "balloc: out of blocks"
  | Datatypes.S fuel =>
      sb ← gets fsb;
      if b <? sb_size sb then
        bp ← on_blk (bread dev (BBLOCK b sb));
        d ← fdata bp;
        match free_bit (Z.to_nat BPB) 0 b (sb_size sb) d with
        | Some bi =>
            set_fdata bp (set_bit bi d);;
            on_log (log_write bp);;
            on_blk (brelse bp);;
            bzero dev (b + bi);;
            mret (b + bi)
        | None => on_blk (brelse bp);; balloc_from fuel dev (b + BPB)
        end
      else panic "balloc: out of blocks"
  end.

Definition balloc (dev : Z) : K (fs S) Z :=
  sb ← gets fsb;
  balloc_from (Z.to_nat (sb_size sb / BPB) + 2) dev 0.

Definition bfree (dev b : Z) : K (fs S) unit :=
  fs_readsb dev;;
  sb ← gets fsb;
  bp ← on_blk (bread dev (BBLOCK b sb));
  d ← fdata bp;
  let bi := b mod BPB in
  if bit_clear bi d then panic "freeing free block"
  else
    set_fdata bp (clear_bit bi d);;
    on_log (log_write bp);;
    on_blk (brelse bp).

(** *** The inode cache *)

Definition get_ip (i : nat) : K (fs S) inode :=
  c ← gets icache;
  match c !! i with Some x => mret x | None => panic "trap" end.
Definition upd_ip (i : nat) (f : inode -> inode) : K (fs S) unit :=
  modify (fun s => set_icache (alter f i (icache s)) s).

Definition ip_lens (i : nat) : lens (fs S) sleeplock :=
  Lens (fun s => ilk (default zero_inode (icache s !! i)))
       (fun v s => set_icache (alter (set_ilk v) i (icache s)) s).

Abbreviation i_acquiresleep i := (acquiresleep (ip_lens i) (L_sleep_inode i) (C_inodeslp i)).
Abbreviation i_releasesleep i := (releasesleep (ip_lens i) (L_sleep_inode i) (C_inodeslp i)).
Abbreviation i_holdingsleep i := (holdingsleep (ip_lens i) (L_sleep_inode i)).

Fixpoint iinit_locks (n i : nat) : K (fs S) unit :=
  match n with
  | O => mret tt
  | Datatypes.S n => initsleeplock (ip_lens i);; iinit_locks n (Datatypes.S i)
  end.

Definition iinit (dev : Z) : K (fs S) unit := iinit_locks NINODE 0;; fs_readsb dev.

(** iget finds the cached inode or takes the first free slot. *)
Definition cached_inode (dev n : Z) (x : inode) : bool :=
  (0 <? iref x) && (idev x =? dev) && (inum x =? n).

Definition iget (dev n : Z) : K (fs S) nat :=
  acquire L_icache;;
  c ← gets icache;
  match find_idx (cached_inode dev n) c with
  | Some i =>
      upd_ip i (fun x => set_iref (iref x + 1) x);;
      release L_icache;;
      mret i
  | None =>
      match find_idx (fun x => iref x =? 0) c with
      | None => panic "iget: no inodes"
      | Some i =>
          upd_ip i (set_dev_inum dev n);;
          upd_ip i (set_iref 1);;
          upd_ip i (set_ivalid false);;
          release L_icache;;
          mret i
      end
  end.

Definition idup (i : nat) : K (fs S) nat :=
  acquire L_icache;;
  upd_ip i (fun x => set_iref (iref x + 1) x);;
  release L_icache;;
  mret i.

(** ialloc: the first inode on disk whose type is 0, from [n] on. *)
Fixpoint ialloc_from (fuel : nat) (dev n type : Z) : K (fs S) nat :=
  match fuel with
  | O => panic "ialloc: no inodes"
  | Datatypes.S fuel =>
      sb ← gets fsb;
      if n <? sb_ninodes sb then
        bp ← on_blk (bread dev (IBLOCK n sb));
        d ← fdata bp;
        let off := dinode_off n in
        if get_i16 off d =? 0 then
          set_fdata bp (put_u16 off type (bput off (replicate sizeof_dinode 0) d));;
          on_log (log_write bp);;
          on_blk (brelse bp);;
          iget dev n
        else
          on_blk (brelse bp);;
          ialloc_from fuel dev (n + 1) type
      else panic "ialloc: no inodes"
  end.

Definition ialloc (dev type : Z) : K (fs S) nat :=
  sb ← gets fsb;
  ialloc_from (Z.to_nat (sb_ninodes sb)) dev 1 type.

Definition iupdate (i : nat) : K (fs S) unit :=
  ip ← get_ip i;
  sb ← gets fsb;
  bp ← on_blk (bread (idev ip) (IBLOCK (inum ip) sb));
  d ← fdata bp;
  set_fdata bp (store_dinode (dinode_off (inum ip)) ip d);;
  on_log (log_write bp);;
  on_blk (brelse bp).

Definition ilock (i : nat) : K (fs S) unit :=
  ip ← get_ip i;
  if iref ip <? 1 then panic "ilock"
  else
    i_acquiresleep i;;
    ip ← get_ip i;
    if ivalid ip then mret tt
    else
      sb ← gets fsb;
      bp ← on_blk (bread (idev ip) (IBLOCK (inum ip) sb));
      d ← fdata bp;
      upd_ip i (load_dinode (dinode_off (inum ip)) d);;
      on_blk (brelse bp);;
      upd_ip i (set_ivalid true);;
      ip ← get_ip i;
      if itype ip =? 0 then panic "ilock: no type" else mret tt.

Definition iunlock (i : nat) : K (fs S) unit :=
  h ← i_holdingsleep i;
  ip ← get_ip i;
  if negb h || (iref ip <? 1) then panic "iunlock"
  else i_releasesleep i.

(** *** Inode contents *)

(** bmap allocates the block when there is none. *)
Definition bmap (i : nat) (bn : nat) : K (fs S) Z :=
  ip ← get_ip i;
  if Nat.ltb bn NDIRECT then
    let addr := default 0 (addrs ip !! bn) in
    if addr =? 0 then
      a ← balloc (idev ip);
      upd_ip i (fun x => set_addrs (<[bn := a]> (addrs x)) x);;
      mret a
    else mret addr
  else if Nat.ltb (bn - NDIRECT) NINDIRECT then
    let ind := default 0 (addrs ip !! NDIRECT) in
    ind ← (if ind =? 0 then
             a ← balloc (idev ip);
             upd_ip i (fun x => set_addrs (<[NDIRECT := a]> (addrs x)) x);;
             mret a
           else mret ind);
    bp ← on_blk (bread (idev ip) ind);
    d ← fdata bp;
    let addr := get_u32 (4 * (bn - NDIRECT)) d in
    addr ← (if addr =? 0 then
              a ← balloc (idev ip);
              d ← fdata bp;
              set_fdata bp (put_u32 (4 * (bn - NDIRECT)) a d);;
              on_log (log_write bp);;
              mret a
            else mret addr);
    on_blk (brelse bp);;
    mret addr
  else panic "bmap: out of range".

Fixpoint itrunc_direct (n i k : nat) : K (fs S) unit :=
  match n with
  | O => mret tt
  | Datatypes.S n =>
      ip ← get_ip i;
      let a := default 0 (addrs ip !! k) in
      (if a =? 0 then mret tt
       else
         bfree (idev ip) a;;
         upd_ip i (fun x => set_addrs (<[k := 0]> (addrs x)) x));;
      itrunc_direct n i (Datatypes.S k)
  end.

Fixpoint itrunc_indirect (n : nat) (dev : Z) (bp j : nat) : K (fs S) unit :=
  match n with
  | O => mret tt
  | Datatypes.S n =>
      d ← fdata bp;
      let a := get_u32 (4 * j) d in
      (if a =? 0 then mret tt else bfree dev a);;
      itrunc_indirect n dev bp (Datatypes.S j)
  end.

Definition itrunc (i : nat) : K (fs S) unit :=
  itrunc_direct NDIRECT i 0;;
  ip ← get_ip i;
  let a := default 0 (addrs ip !! NDIRECT) in
  (if a =? 0 then mret tt
   else
     bp ← on_blk (bread (idev ip) a);
     itrunc_indirect NINDIRECT (idev ip) bp 0;;
     on_blk (brelse bp);;
     bfree (idev ip) a;;
     upd_ip i (fun x => set_addrs (<[NDIRECT := 0]> (addrs x)) x));;
  upd_ip i (set_isize 0);;
  iupdate i.

(** iput frees the inode with the last reference to the last link. *)
Definition iput (i : nat) : K (fs S) unit :=
  i_acquiresleep i;;
  ip ← get_ip i;
  (if ivalid ip && (nlink ip =? 0) then
     acquire L_icache;;
     ip ← get_ip i;
     release L_icache;;
     if iref ip =? 1 then
       itrunc i;;
       upd_ip i (set_itype 0);;
       iupdate i;;
       upd_ip i (set_ivalid false)
     else mret tt
   else mret tt);;
  i_releasesleep i;;
  acquire L_icache;;
  upd_ip i (fun x => set_iref (iref x - 1) x);;
  release L_icache.

Definition iunlockput (i : nat) : K (fs S) unit := iunlock i;; iput i.

Definition stati (i : nat) : K (fs S) stat :=
  ip ← get_ip i;
  mret (mkstat (itype ip) (idev ip) (inum ip) (nlink ip) (isize ip)).

(** Device inodes go through devsw (set by consoleinit). *)
Variable devsw_read : Z -> option (nat -> Z -> K (fs S) (Z * bytes)).
Variable devsw_write : Z -> option (nat -> bytes -> Z -> K (fs S) Z).

(** The copy loop of readi: [n] bytes from offset [off]. *)
Fixpoint readi_loop (fuel i : nat) (off n : Z) : K (fs S) bytes :=
  match fuel with
  | O => mret []
  | Datatypes.S fuel =>
      if 0 <? n then
        ip ← get_ip i;
        b ← bmap i (Z.to_nat (off / BSIZE));
        bp ← on_blk (bread (idev ip) b);
        let m := Z.min n (BSIZE - off mod BSIZE) in
        d ← fdata bp;
        on_blk (brelse bp);;
        rest ← readi_loop fuel i (u32 (off + m)) (n - m);
        mret (bsub (Z.to_nat (off mod BSIZE)) (Z.to_nat m) d ++ rest)
      else mret []
  end.

(** The return value and the bytes stored at dst. *)
Definition readi (i : nat) (off n : Z) : K (fs S) (Z * bytes) :=
  ip ← get_ip i;
  if itype ip =? T_DEV then
    if (major ip <? 0) || (NDEV <=? major ip) then mret (-1, [])
    else match devsw_read (major ip) with
         | None => mret (-1, [])
         | Some f => f i n
         end
  else if (isize ip <? off) || (u32 (off + n) <? off) then mret (-1, [])
  else
    let n := if isize ip <? u32 (off + n) then u32 (isize ip - off) else n in
    bs ← readi_loop (Z.to_nat n) i off n;
    mret (i32 n, bs).

(** The copy loop of writei; it returns the final offset. *)
Fixpoint writei_loop (fuel i : nat) (src : bytes) (off n : Z) : K (fs S) Z :=
  match fuel with
  | O => mret off
  | Datatypes.S fuel =>
      if 0 <? n then
        ip ← get_ip i;
        b ← bmap i (Z.to_nat (off / BSIZE));
        bp ← on_blk (bread (idev ip) b);
        let m := Z.min n (BSIZE - off mod BSIZE) in
        d ← fdata bp;
        set_fdata bp (bput (Z.to_nat (off mod BSIZE)) (take (Z.to_nat m) src) d);;
        on_log (log_write bp);;
        on_blk (brelse bp);;
        writei_loop fuel i (drop (Z.to_nat m) src) (u32 (off + m)) (n - m)
      else mret off
  end.

Definition writei (i : nat) (src : bytes) (off n : Z) : K (fs S) Z :=
  ip ← get_ip i;
  if itype ip =? T_DEV then
    if (major ip <? 0) || (NDEV <=? major ip) then mret (-1)
    else match devsw_write (major ip) with
         | None => mret (-1)
         | Some f => f i src n
         end
  else if (isize ip <? off) || (u32 (off + n) <? off) then mret (-1)
  else if MAXFILE * BSIZE <? u32 (off + n) then mret (-1)
  else
    off' ← writei_loop (Z.to_nat n) i src off n;
    ip ← get_ip i;
    (if (0 <? n) && (isize ip <? off') then
       upd_ip i (set_isize off');;
       iupdate i
     else mret tt);;
    mret (i32 n).

(** *** Directories *)

Definition namecmp (s t : bytes) : Z :=
  strncmp (fun k => nth_byte s (Z.to_nat k)) (fun k => nth_byte t (Z.to_nat k)) DIRSIZ.

(** dirlookup from entry offset [off] on: the inode and the offset. *)
Fixpoint dirlookup_from (fuel dp : nat) (name : bytes) (off : Z) : K (fs S) (option (nat * Z)) :=
  match fuel with
  | O => mret None
  | Datatypes.S fuel =>
      ip ← get_ip dp;
      if off <? isize ip then
        r ← readi dp off sizeof_dirent;
        let '(k, de) := r in
        if negb (k =? sizeof_dirent) then panic "dirlookup read"
        else if de_inum de =? 0 then dirlookup_from fuel dp name (u32 (off + sizeof_dirent))
        else if namecmp name (de_name de) =? 0 then
          i ← iget (idev ip) (de_inum de);
          mret (Some (i, off))
        else dirlookup_from fuel dp name (u32 (off + sizeof_dirent))
      else mret None
  end.

Definition dirlookup (dp : nat) (name : bytes) : K (fs S) (option (nat * Z)) :=
  ip ← get_ip dp;
  if negb (itype ip =? T_DIR) then panic "dirlookup not DIR"
  else dirlookup_from (Z.to_nat (isize ip / sizeof_dirent) + 1) dp name 0.

(** dirlink's search for an empty entry: the offset to write at. *)
Fixpoint dir_slot (fuel dp : nat) (off : Z) : K (fs S) Z :=
  match fuel with
  | O => mret off
  | Datatypes.S fuel =>
      ip ← get_ip dp;
      if off <? isize ip then
        r ← readi dp off sizeof_dirent;
        let '(k, de) := r in
        if negb (k =? sizeof_dirent) then panic "dirlink read"
        else if de_inum de =? 0 then mret off
        else dir_slot fuel dp (off + sizeof_dirent)
      else mret off
  end.

(** strncpy(de.name, name, DIRSIZ); de.inum = inum (a ushort). *)
Definition make_dirent (name : bytes) (n : Z) : bytes :=
  le_bytes 2 n ++ strncpy_ref (fun k => nth_byte name (Z.to_nat k)) DIRSIZ.

Definition dirlink (dp : nat) (name : bytes) (n : Z) : K (fs S) Z :=
  r ← dirlookup dp name;
  match r with
  | Some (i, _) => iput i;; mret (-1)
  | None =>
      ip ← get_ip dp;
      off ← dir_slot (Z.to_nat (isize ip / sizeof_dirent) + 1) dp 0;
      w ← writei dp (make_dirent name n) off sizeof_dirent;
      if negb (w =? sizeof_dirent) then panic "dirlink" else mret 0
  end.

End fs.

(** *** Paths *)

Definition slash : Z := 47.

Fixpoint skip_slashes (p : bytes) : bytes :=
  match p with
  | b :: t => if b =? slash then skip_slashes t else p
  | [] => []
  end.

(** The element at the start of the path, up to a slash or the NUL. *)
Fixpoint elem (p : bytes) : bytes :=
  match p with
  | b :: t => if (b =? slash) || (b =? 0) then [] else b :: elem t
  | [] => []
  end.

Definition at_end (p : bytes) : bool := nth_byte p 0 =? 0.

(** skipelem(path, name): the rest of the path and the name buffer. *)
Definition skipelem (path name : bytes) : option (bytes * bytes) :=
  let path := skip_slashes path in
  if at_end path then None
  else
    let s := elem path in
    let len := length s in
    let path := drop len path in
    let name :=
      if Nat.leb DIRSIZ len then take DIRSIZ s
      else bput len [0] (bput 0 s name) in
    Some (skip_slashes path, name).

Section path.
Context {S : Type} `{BlockOps S}.
Variable devsw_read : Z -> option (nat -> Z -> K (fs S) (Z * bytes)).

(** The loop of namex; each turn consumes at least one byte of the path.
    The result is the inode and the name buffer. *)
Fixpoint namex_loop (fuel ip : nat) (nameiparent : bool) (path name : bytes)
    : K (fs S) (option (nat * bytes)) :=
  match fuel with
  | O => panic "namex"
  | Datatypes.S fuel =>
      match skipelem path name with
      | None =>
          if nameiparent then iput ip;; mret None
          else mret (Some (ip, name))
      | Some (path, name) =>
          ilock ip;;
          x ← get_ip ip;
          if negb (itype x =? T_DIR) then iunlockput ip;; mret None
          else if nameiparent && at_end path then iunlock ip;; mret (Some (ip, name))
          else
            r ← dirlookup devsw_read ip name;
            match r with
            | None => iunlockput ip;; mret None
            | Some (next, _) =>
                iunlockput ip;;
                namex_loop fuel next nameiparent path name
            end
      end
  end.

(** [cwd] is myproc()->cwd. *)
Definition namex (cwd : nat) (path : bytes) (nameiparent : bool) (name : bytes)
    : K (fs S) (option (nat * bytes)) :=
  ip ← (if nth_byte path 0 =? slash then iget ROOTDEV ROOTINO else idup cwd);
  namex_loop (length path + 1) ip nameiparent path name.

Definition namei (cwd : nat) (path : bytes) : K (fs S) (option nat) :=
  r ← namex cwd path false (replicate DIRSIZ 0);
  mret (fst <$> r).

Definition nameiparent (cwd : nat) (path name : bytes) : K (fs S) (option (nat * bytes)) :=
  namex cwd path true name.

End path.
