(* ===== verification/FsTx.v ===== *)
(** * Transactions of the file system, and the block allocator

    [tx] describes the kernel inside begin_op/end_op: the contents of the
    blocks as fs.c sees them, the locked buffers and the blocks of the
    transaction.  The rules below are those of the buffer cache and the log
    in that form.  On top of them, balloc and bfree are shown to keep the
    free map: balloc returns the first free block, zeroed and marked;
    bfree unmarks a used one; neither touches any other block. *)

From stdpp Require Import base numbers strings gmap list.
From S2P Require Import Prelude Kmonad Kstring Mmu Locks Block Log LogProof Fs.

Local Open Scope Z_scope.

(** The disk layout (mkfs.c): boot block, super block, log, inodes, free
    map, data.  Blocks below [data_start] hold no file data. *)
Definition data_start (sb : superblock) : Z := sb_bmapstart sb + sb_size sb / BPB + 1.

Record geom (sb : superblock) (D : blocks) : Prop := {
  geo_size : 0 < sb_size sb < 2147483648 - 8192;
  geo_logstart : 2 <= sb_logstart sb;
  geo_nlog : sb_nlog sb = LOGSIZE;
  geo_inodes : sb_logstart sb + sb_nlog sb <= sb_inodestart sb;
  geo_ninodes : 0 < sb_ninodes sb;
  geo_bmap : sb_inodestart sb + sb_ninodes sb / IPB + 1 <= sb_bmapstart sb;
  geo_data : data_start sb <= sb_size sb;
  geo_dom : forall b, 0 <= b < sb_size sb -> b ∈ dom D
}.

(** *** Single bits of a byte *)

Lemma land_bit x k : 0 <= k -> (Z.land x (Z.shiftl 1 k) =? 0) = negb (Z.testbit x k).
Proof.
  intros Hk. assert (E : forall j, Z.testbit (Z.shiftl 1 k) j = (k =? j)).
  { intros j. rewrite Z.shiftl_1_l. by apply Z.pow2_bits_eqb. }
  destruct (Z.testbit x k) eqn:Hx; cbn.
  - apply Z.eqb_neq. intros H0. assert (Hb : Z.testbit (Z.land x (Z.shiftl 1 k)) k = true).
    { by rewrite Z.land_spec, Hx, E, Z.eqb_refl. }
    by rewrite H0, Z.bits_0 in Hb.
  - apply Z.eqb_eq, Z.bits_inj. intros j. rewrite Z.land_spec, E, Z.bits_0.
    destruct (Z.eqb_spec k j) as [<-|]; [by rewrite Hx|by rewrite andb_false_r].
Qed.

Lemma byte_bits x : is_byte x <-> 0 <= x /\ forall j, 8 <= j -> Z.testbit x j = false.
Proof.
  unfold is_byte. split.
  - intros Hx. split; [lia|]. intros j Hj. destruct (decide (x = 0)) as [->|]; [apply Z.bits_0|].
    apply Z.bits_above_log2; [lia|]. apply Z.lt_le_trans with 8; [|lia].
    apply Z.log2_lt_pow2; lia.
  - intros [H0 Hj]. split; [done|]. destruct (decide (x = 0)) as [->|]; [lia|].
    change 256 with (2 ^ 8). apply Z.log2_lt_pow2; [lia|].
    destruct (Z.lt_ge_cases (Z.log2 x) 8) as [|Hge]; [done|].
    specialize (Hj _ Hge). rewrite Z.bit_log2 in Hj by lia. done.
Qed.

Lemma is_byte_setbit x k : is_byte x -> 0 <= k < 8 -> is_byte (Z.lor x (Z.shiftl 1 k)).
Proof.
  rewrite !byte_bits. intros [H0 Hx] Hk. split.
  - apply Z.lor_nonneg. split; [done|]. apply Z.shiftl_nonneg. lia.
  - intros j Hj. rewrite Z.lor_spec, Hx, Z.shiftl_1_l, Z.pow2_bits_eqb by lia. cbn.
    apply Z.eqb_neq. lia.
Qed.

Lemma is_byte_clearbit x k : is_byte x -> is_byte (Z.land x (Z.lnot (Z.shiftl 1 k))).
Proof.
  rewrite !byte_bits. intros [H0 Hx]. split; [apply Z.land_nonneg; by left|].
  intros j Hj. by rewrite Z.land_spec, Hx.
Qed.

(** *** The free map in a block *)

Definition bit (bi : Z) (d : bytes) : bool := negb (bit_clear bi d).

Lemma bit_spec bi d : bit bi d = Z.testbit (nth_byte d (Z.to_nat (bi / 8))) (bi mod 8).
Proof.
  unfold bit, bit_clear. rewrite land_bit, negb_involutive; [done|].
  apply Z.mod_pos_bound. lia.
Qed.

Lemma nth_byte_alter f i j (d : bytes) : (i < length d)%nat ->
  nth_byte (alter f i d) j = if decide (i = j) then f (nth_byte d i) else nth_byte d j.
Proof.
  intros Hi. unfold nth_byte. case_decide as E; [subst j|by rewrite list_lookup_alter_ne].
  rewrite list_lookup_alter_eq. by destruct (lookup_lt_is_Some_2 d i Hi) as [x ->].
Qed.

Section bits.
Context (d : bytes) (bi : Z).
Hypothesis Hwf : wf_block d.
Hypothesis Hbi : 0 <= bi < BPB.

Lemma bit_index : (Z.to_nat (bi / 8) < length d)%nat.
Proof. destruct Hwf as [-> _]. unfold BPB in *. pose proof (Z.div_lt_upper_bound bi 8 512). unfold BSIZEn. lia. Qed.

Lemma bit_slot bj : 0 <= bj -> Z.to_nat (bi / 8) = Z.to_nat (bj / 8) -> bi mod 8 = bj mod 8 -> bi = bj.
Proof.
  intros Hj E1 E2. pose proof (Z.div_mod bi 8). pose proof (Z.div_mod bj 8).
  pose proof (Z.div_pos bi 8). pose proof (Z.div_pos bj 8). lia.
Qed.

Lemma bit_set_bit bj : 0 <= bj -> bit bj (set_bit bi d) = (bj =? bi) || bit bj d.
Proof.
  intros Hj. rewrite !bit_spec. unfold set_bit. rewrite nth_byte_alter by apply bit_index.
  pose proof (Z.mod_pos_bound bi 8). pose proof (Z.mod_pos_bound bj 8).
  case_decide as E.
  - rewrite Z.lor_spec, Z.shiftl_1_l, Z.pow2_bits_eqb by lia. rewrite E.
    destruct (Z.eqb_spec (bi mod 8) (bj mod 8)) as [E2|Hne].
    + rewrite (proj2 (Z.eqb_eq bj bi)); [by rewrite orb_true_r|]. symmetry. by apply bit_slot.
    + rewrite (proj2 (Z.eqb_neq bj bi)); [by rewrite orb_false_r|]. intros ->. done.
  - rewrite (proj2 (Z.eqb_neq bj bi)); [done|]. intros ->. done.
Qed.

Lemma bit_clear_bit bj : 0 <= bj -> bit bj (clear_bit bi d) = negb (bj =? bi) && bit bj d.
Proof.
  intros Hj. rewrite !bit_spec. unfold clear_bit. rewrite nth_byte_alter by apply bit_index.
  pose proof (Z.mod_pos_bound bi 8). pose proof (Z.mod_pos_bound bj 8).
  case_decide as E.
  - rewrite Z.land_spec, Z.lnot_spec, Z.shiftl_1_l, Z.pow2_bits_eqb by lia. rewrite E.
    destruct (Z.eqb_spec (bi mod 8) (bj mod 8)) as [E2|Hne].
    + rewrite (proj2 (Z.eqb_eq bj bi)); [by rewrite andb_false_r|]. symmetry. by apply bit_slot.
    + rewrite (proj2 (Z.eqb_neq bj bi)); [by rewrite andb_true_r|]. intros ->. done.
  - rewrite (proj2 (Z.eqb_neq bj bi)); [done|]. intros ->. done.
Qed.

Lemma wf_alter f : (forall x, is_byte x -> is_byte (f x)) -> wf_block (alter f (Z.to_nat (bi / 8)) d).
Proof.
  intros Hf. destruct Hwf as [Hl Hb]. split; [by rewrite length_alter|].
  apply Forall_alter; [done|]. intros x _ Hx. by apply Hf.
Qed.

Lemma wf_set_bit : wf_block (set_bit bi d).
Proof. apply wf_alter. intros x Hx. apply is_byte_setbit; [done|]. apply Z.mod_pos_bound. lia. Qed.

Lemma wf_clear_bit : wf_block (clear_bit bi d).
Proof. apply wf_alter. intros x Hx. by apply is_byte_clearbit. Qed.

End bits.

(** The scan of balloc within one block of the map. *)
Lemma free_bit_Some fuel bi b size d k :
  free_bit fuel bi b size d = Some k ->
  bi <= k < BPB /\ b + k < size /\ bit k d = false /\ forall j, bi <= j < k -> bit j d = true.
Proof.
  revert bi. induction fuel as [|fuel IH]; intros bi; cbn; [done|].
  destruct (_ && _) eqn:Hc; [|done]. apply andb_true_iff in Hc as [H1 H2].
  apply Z.ltb_lt in H1, H2. destruct (bit_clear bi d) eqn:Hb.
  - intros [= <-]. repeat split; [lia..| |lia]. unfold bit. by rewrite Hb.
  - intros Hk. apply IH in Hk as (? & ? & ? & Hj). repeat split; [lia..|done|].
    intros j Hj'. destruct (decide (j = bi)) as [->|]; [unfold bit; by rewrite Hb|]. apply Hj. lia.
Qed.

Lemma free_bit_None fuel bi b size d :
  free_bit fuel bi b size d = None ->
  forall j, bi <= j < bi + Z.of_nat fuel -> j < BPB -> b + j < size -> bit j d = true.
Proof.
  revert bi. induction fuel as [|fuel IH]; intros bi; cbn; [lia|].
  destruct (_ && _) eqn:Hc.
  - destruct (bit_clear bi d) eqn:Hb; [done|]. intros Hk j Hj1 Hj2 Hj3.
    destruct (decide (j = bi)) as [->|]; [unfold bit; by rewrite Hb|]. apply (IH _ Hk); lia.
  - intros _ j Hj1 Hj2 Hj3. apply andb_false_iff in Hc as [Hc|Hc]; apply Z.ltb_ge in Hc; lia.
Qed.

(** ** Rules for a transaction *)
Section tx.
Context {S : Type} `{BlockLayer S}.
Context (D : blocks) (T : list dwrite) (sb : superblock).
Implicit Types (f : fs S) (V : blocks) (L : gset Z) (bl : list Z) (c : ctx).

(** Inside a transaction: [V] is what the blocks hold for the kernel, [L]
    the blocks whose buffers this thread has locked, [bl] those it logged. *)
Record tx f V L bl : Prop := {
  tx_logged : log_ok (flog f) V D T L bl;
  tx_out : 1 <= outstanding (flog f);
  tx_start : lstart (flog f) = sb_logstart sb;
  tx_lsize : lsize (flog f) = sb_nlog sb;
  tx_sb : fsb f = sb
}.

Definition fbuf (i : nat) f : option Z := bl_buf i (lblk (flog f)).

Abbreviation on_blk m := (zoom log_lens (zoom blk_lens m)).

Lemma tx_dom f V L bl : tx f V L bl -> dom V = dom D.
Proof. intros [Hl _ _ _ _]. by eapply blk_dom, lk_blk. Qed.

Lemma tx_wf f V L bl b d : tx f V L bl -> V !! b = Some d -> wf_block d.
Proof. intros [Hl _ _ _ _]. eapply blk_view_wf, lk_blk, Hl. Qed.

Lemma tx_at f V L bl b : tx f V L bl -> b ∈ dom D -> V !! b = Some (at_block V b) /\ wf_block (at_block V b).
Proof.
  intros Ht Hb. rewrite <- (tx_dom _ _ _ _ Ht) in Hb. apply at_block_lookup in Hb as E.
  split; [done|]. by eapply tx_wf.
Qed.

Lemma tx_clean f V L bl b : tx f V L bl -> b ∉ L -> b ∈ bl \/ V !! b = D !! b.
Proof.
  intros [Hl _ _ _ _] HL. destruct (decide (b ∈ bl)); [by left|]. right. by eapply log_ok_clean.
Qed.

(** What an operation on blocks keeps: the inode cache, and the buffers the
    thread holds. *)
Definition kept f f' : Prop :=
  icache f' = icache f /\ forall j x, fbuf j f = Some x -> fbuf j f' = Some x.

#[export] Instance kept_preorder : PreOrder kept.
Proof.
  split; [by intros f|]. intros f g h [E1 B1] [E2 B2]. split; [congruence|]. eauto.
Qed.

Lemma tx_held f V L bl i b : tx f V L bl -> fbuf i f = Some b -> b ∈ L.
Proof.
  intros [[[Hi _ _ _ <- _] _ _ _ _ _ _ _] _ _ _ _] Hb. by apply (bl_buf_data _ i b Hi).
Qed.

Lemma tx_buf_inj f V L bl i j b : tx f V L bl -> fbuf i f = Some b -> fbuf j f = Some b -> i = j.
Proof. intros [[[Hi _ _ _ _ _] _ _ _ _ _ _ _] _ _ _ _]. by apply bl_buf_inj. Qed.

(** The room that is left for [k] more blocks. *)
Definition room (k : nat) L bl : Prop := (size L + length bl + k < NBUF)%nat.

(** Take the buffer of block [b] and look at it. *)
Lemma wp_open f c V L bl b (Q : nat -> fs S -> ctx -> Prop) :
  tx f V L bl -> held c = [] -> b ∈ dom D -> b ∉ L -> room 0 L bl ->
  (forall i f' c', tx f' V ({[b]} ∪ L) bl -> held c' = [] -> fbuf i f' = Some b -> kept f f' -> Q i f' c') ->
  wp (on_blk (bread 1 b)) Q f c.
Proof.
  intros [[Hs Hdev Hn Hbs Hll Hsize Htx Hidle] Hout Hst Hls Hsb] Hc Hb HL Hroom HQ. do 2 kstep.
  eapply wp_bread; [exact Hs|done..| |].
  - right. rewrite size_union_alt. pose proof (subseteq_size (list_to_set bl ∖ L) (list_to_set bl : gset Z)).
    rewrite size_list_to_set in * by apply (tx_nodup _ _ _ _ Htx). unfold room in *. set_solver by lia.
  - intros i s' c' Hs' Hc' Hi Hoth. apply HQ; [|done..]. by split; [split|..].
Qed.

Lemma wp_fdata f c V L bl i b (Q : bytes -> fs S -> ctx -> Prop) :
  tx f V L bl -> fbuf i f = Some b ->
  (V !! b = Some (at_block V b) -> wf_block (at_block V b) -> Q (at_block V b) f c) ->
  wp (fdata i) Q f c.
Proof.
  intros Ht Hi HQ. pose proof (blk_data _ _ _ _ _ _ _ _ (lk_blk _ _ _ _ _ _ (tx_logged _ _ _ _ Ht)) Hi) as Hd.
  unfold fdata, data. do 2 kstep. cbn. pose proof (at_block_Some _ _ _ Hd) as E. rewrite <- E in Hd |- *.
  assert (f = set_flog (flog f) f) as <- by by destruct f.
  apply HQ; [done|]. by eapply tx_wf.
Qed.

Lemma wp_set_fdata f c V L bl i b d (Q : unit -> fs S -> ctx -> Prop) :
  tx f V L bl -> fbuf i f = Some b -> wf_block d ->
  (forall f', tx f' (<[b := d]> V) L bl -> (forall j, fbuf j f' = fbuf j f) -> icache f' = icache f -> Q tt f' c) ->
  wp (set_fdata i d) Q f c.
Proof.
  intros [[Hs Hdev Hn Hbs Hll Hsize Htx Hidle] Hout Hst Hls Hsb] Hi Hd HQ.
  destruct (blk_set_data _ _ _ _ _ _ _ _ _ Hs Hi Hd) as [Hs' Hoth].
  unfold set_fdata, set_data. do 2 kstep. cbn. apply HQ; [|done..]. by split; [split|..].
Qed.

(** Blocks that log_write accepts, outside the log. *)
Definition loggable (b : Z) : Prop := home (sb_logstart sb) (sb_nlog sb) b /\ 0 <= b < sb_size sb.

Context (Hgeo : geom sb D).

Lemma wp_flog_write f c V L bl i b (Q : unit -> fs S -> ctx -> Prop) :
  tx f V L bl -> held c = [] -> fbuf i f = Some b -> loggable b -> room 0 L bl ->
  (forall f' c', tx f' V L (with_block b bl) -> held c' = [] ->
    (forall j, fbuf j f' = fbuf j f) -> icache f' = icache f -> Q tt f' c') ->
  wp (zoom log_lens (log_write i)) Q f c.
Proof.
  intros Ht Hc Hi [Hh Hr] Hroom HQ. pose proof (tx_held _ _ _ _ _ _ Ht Hi) as HbL.
  destruct Ht as [Hl Hout Hst Hls Hsb]. kstep. pose proof (lk_n _ _ _ _ _ _ Hl) as Hn.
  assert (0 < size L)%nat.
  { destruct (size L) eqn:E; [|lia]. apply size_empty_inv in E. set_solver. }
  pose proof (geo_nlog _ _ Hgeo) as En. pose proof (geo_size _ _ Hgeo).
  unfold room, NBUF, LOGSIZE, MAXOPBLOCKS in *.
  rewrite <- Hst, <- Hls in Hh. eapply wp_mono.
  { apply (log_write_run _ _ _ _ _ _ _ _ _ Hl Hc Hi Hh); cbn; unfold LOGSIZE, MAXOPBLOCKS; lia. }
  intros [] l' c' (Hc' & Hl' & Ho & Hs' & Hz & Hoth). cbn in *. apply HQ; [|done..].
  split; cbn; congruence || lia.
Qed.

(** Release the buffer of [b]; unless the block is logged it is unchanged. *)
Lemma wp_close f0 f c V L bl i b (Q : unit -> fs S -> ctx -> Prop) :
  tx f V ({[b]} ∪ L) bl -> held c = [] -> fbuf i f = Some b -> b ∉ L ->
  b ∈ bl \/ V !! b = D !! b -> kept f0 f -> (forall j x, fbuf j f0 = Some x -> x ∈ L) ->
  (forall f' c', tx f' V L bl -> held c' = [] -> kept f0 f' -> Q tt f' c') ->
  wp (on_blk (brelse i)) Q f c.
Proof.
  intros [[Hs Hdev Hn Hbs Hll Hsize Htx Hidle] Hout Hst Hls Hsb] Hc Hi HL Hb [Hk1 Hk2] HfL HQ. do 2 kstep.
  eapply wp_brelse; [exact Hs|done|exact Hi|by rewrite elem_of_list_to_set|].
  intros s' c' Hs' Hc' Hoth. replace (({[b]} ∪ L) ∖ {[b]}) with L in Hs' by set_solver.
  apply HQ; [|done|].
  - by split; [split|..].
  - split; [done|]. intros j x Hj. unfold fbuf. cbn. rewrite Hoth; [by apply Hk2|].
    intros ->. apply Hk2 in Hj as Hj'. apply HfL in Hj. assert (x = b) as -> by congruence. done.
Qed.

(** Change the buffer of [b], log it and release it. *)
Lemma wp_update f0 f c V L bl i b d (Q : unit -> fs S -> ctx -> Prop) :
  tx f V ({[b]} ∪ L) bl -> held c = [] -> fbuf i f = Some b -> b ∉ L -> wf_block d ->
  loggable b -> room 1 L bl -> kept f0 f -> (forall j x, fbuf j f0 = Some x -> x ∈ L) ->
  (forall f' c', tx f' (<[b := d]> V) L (with_block b bl) -> held c' = [] -> kept f0 f' -> Q tt f' c') ->
  wp (set_fdata i d;; zoom log_lens (log_write i);; on_blk (brelse i)) Q f c.
Proof.
  intros Ht Hc Hi HL Hd Hlog Hroom [Hk1 Hk2] HfL HQ. kstep.
  eapply wp_set_fdata; [done..|]. intros f1 Ht1 Hb1 Hk3. kstep.
  eapply wp_flog_write; [exact Ht1|done|by rewrite Hb1|done| |].
  { unfold room in *. rewrite size_union, size_singleton by set_solver. lia. }
  intros f2 c2 Ht2 Hc2 Hb2 Hk4. eapply (wp_close f0); [exact Ht2|done|by rewrite Hb2, Hb1|done| |..|done|done].
  - left. unfold with_block. case_decide; [done|]. apply elem_of_app. right. by apply list_elem_of_singleton.
  - split; [congruence|]. intros j x Hj. rewrite Hb2, Hb1. by apply Hk2.
Qed.

Lemma wp_seq3 {A} (m1 m2 m3 : K (fs S) unit) (k : K (fs S) A) (Q : A -> fs S -> ctx -> Prop) f c :
  wp (m1;; m2;; m3) (fun _ f' c' => wp k Q f' c') f c -> wp (m1;; m2;; m3;; k) Q f c.
Proof.
  unfold wp, mbind, K_bind. destruct (m1 f c) as [? ? ?| |]; [|done..].
  destruct (m2 _ _); [|done..]. by destruct (m3 _ _).
Qed.

(** ** The block allocator *)

(** The free map: block [b] is marked in use. *)
Definition used V (b : Z) : bool := bit (b mod BPB) (at_block V (BBLOCK b sb)).

(** The map, the inodes and the log are never handed out. *)
Definition meta_used V : Prop := forall b, 0 <= b < data_start sb -> used V b = true.

Definition is_bitmap (b : Z) : Prop := sb_bmapstart sb <= b < data_start sb.

Lemma BBLOCK_eq b : 0 <= b < sb_size sb -> BBLOCK b sb = b / BPB + sb_bmapstart sb.
Proof.
  intros Hb. destruct Hgeo. unfold BBLOCK. apply u32_id. unfold in_u32, data_start in *.
  pose proof (Z.div_pos b BPB). pose proof (Z.div_pos (sb_ninodes sb) IPB).
  assert (b / BPB <= sb_size sb / BPB) by (apply Z.div_le_mono; unfold BPB; lia).
  unfold BPB, IPB, LOGSIZE, MAXOPBLOCKS in *. lia.
Qed.

Lemma BBLOCK_bitmap b : 0 <= b < sb_size sb -> is_bitmap (BBLOCK b sb).
Proof.
  intros Hb. rewrite BBLOCK_eq by done. unfold is_bitmap, data_start. pose proof (Z.div_pos b BPB).
  assert (b / BPB <= sb_size sb / BPB) by (apply Z.div_le_mono; unfold BPB; lia).
  unfold BPB in *. lia.
Qed.

Lemma loggable_above b : sb_inodestart sb <= b < sb_size sb -> loggable b.
Proof. destruct Hgeo. unfold loggable, home, LOGSIZE, MAXOPBLOCKS in *. lia. Qed.

Lemma bitmap_above b : is_bitmap b -> sb_inodestart sb <= b < sb_size sb.
Proof.
  destruct Hgeo. unfold is_bitmap, data_start in *. pose proof (Z.div_pos (sb_ninodes sb) IPB).
  unfold IPB in *. lia.
Qed.

Lemma data_above b : data_start sb <= b < sb_size sb -> sb_inodestart sb <= b < sb_size sb.
Proof.
  destruct Hgeo. unfold data_start in *. pose proof (Z.div_pos (sb_ninodes sb) IPB).
  pose proof (Z.div_pos (sb_size sb) BPB). unfold IPB, BPB in *. lia.
Qed.

Lemma above_dom b : sb_inodestart sb <= b < sb_size sb -> b ∈ dom D.
Proof. intros Hb. apply (geo_dom _ _ Hgeo). destruct Hgeo. unfold LOGSIZE, MAXOPBLOCKS in *. lia. Qed.

(** The buffers the thread may hold around an allocation: used data blocks. *)
Definition data_locked V L : Prop := forall x, x ∈ L -> data_start sb <= x < sb_size sb /\ used V x = true.

Lemma data_locked_bitmap V L b : data_locked V L -> is_bitmap b -> b ∉ L.
Proof. intros HL Hb Hin. destruct (HL b Hin) as [Hr _]. unfold is_bitmap in *. lia. Qed.

(** Marking a block in the map. *)
Definition mark V (b : Z) : blocks :=
  <[BBLOCK b sb := set_bit (b mod BPB) (at_block V (BBLOCK b sb))]> V.
Definition unmark V (b : Z) : blocks :=
  <[BBLOCK b sb := clear_bit (b mod BPB) (at_block V (BBLOCK b sb))]> V.

Lemma at_block_insert V b d x : at_block (<[b := d]> V) x = if decide (x = b) then d else at_block V x.
Proof.
  unfold at_block. case_decide; [subst; by rewrite lookup_insert_eq|by rewrite lookup_insert_ne].
Qed.

(** What a block of the map holds, seen as the states of the blocks. *)
Definition map_wf V : Prop := forall b, is_bitmap b -> wf_block (at_block V b).

Lemma tx_map_wf f V L bl : tx f V L bl -> map_wf V.
Proof. intros Ht b Hb. eapply tx_at; [done|]. by apply above_dom, bitmap_above. Qed.

Lemma same_map_block b x : 0 <= b < sb_size sb -> 0 <= x < sb_size sb ->
  BBLOCK x sb = BBLOCK b sb -> x mod BPB = b mod BPB -> x = b.
Proof.
  intros Hb Hx. rewrite !BBLOCK_eq by done. intros E1 E2.
  rewrite (Z.div_mod x BPB), (Z.div_mod b BPB) by done. lia.
Qed.

Lemma bpb_mod b : 0 <= b mod BPB < BPB.
Proof. by apply Z.mod_pos_bound. Qed.

Lemma used_mark V b x : map_wf V -> 0 <= b < sb_size sb -> 0 <= x < sb_size sb ->
  used (mark V b) x = (x =? b) || used V x.
Proof.
  intros Hm Hb Hx. unfold used, mark. rewrite at_block_insert. pose proof (bpb_mod x). pose proof (bpb_mod b).
  case_decide as E.
  - rewrite bit_set_bit, E; [|by apply Hm, BBLOCK_bitmap|lia..].
    destruct (Z.eqb_spec (x mod BPB) (b mod BPB)) as [E2|Hne].
    + by rewrite (proj2 (Z.eqb_eq x b)) by by apply same_map_block.
    + rewrite (proj2 (Z.eqb_neq x b)); [done|congruence].
  - rewrite (proj2 (Z.eqb_neq x b)); [done|congruence].
Qed.

Lemma used_unmark V b x : map_wf V -> 0 <= b < sb_size sb -> 0 <= x < sb_size sb ->
  used (unmark V b) x = negb (x =? b) && used V x.
Proof.
  intros Hm Hb Hx. unfold used, unmark. rewrite at_block_insert. pose proof (bpb_mod x). pose proof (bpb_mod b).
  case_decide as E.
  - rewrite bit_clear_bit, E; [|by apply Hm, BBLOCK_bitmap|lia..].
    destruct (Z.eqb_spec (x mod BPB) (b mod BPB)) as [E2|Hne].
    + by rewrite (proj2 (Z.eqb_eq x b)) by by apply same_map_block.
    + rewrite (proj2 (Z.eqb_neq x b)); [done|congruence].
  - rewrite (proj2 (Z.eqb_neq x b)); [done|congruence].
Qed.

(** The free map does not depend on the blocks outside it. *)
Lemma used_insert V b d x : ~ is_bitmap b -> 0 <= x < sb_size sb -> used (<[b := d]> V) x = used V x.
Proof.
  intros Hb Hx. unfold used. rewrite at_block_insert, decide_False; [done|].
  intros <-. by apply Hb, BBLOCK_bitmap.
Qed.

Lemma room_with k L b bl : room (Datatypes.S k) L bl -> room k L (with_block b bl).
Proof. unfold room, with_block. case_decide; [lia|]. rewrite length_app. cbn. lia. Qed.

Lemma room_le j k L bl : (j <= k)%nat -> room k L bl -> room j L bl.
Proof. unfold room. lia. Qed.

Lemma wf_zeros : wf_block (replicate BSIZEn 0).
Proof. split; [apply length_replicate|]. by apply Forall_replicate. Qed.

Lemma bzero_run f c V L bl b (Q : unit -> fs S -> ctx -> Prop) :
  tx f V L bl -> held c = [] -> sb_inodestart sb <= b < sb_size sb -> b ∉ L -> room 1 L bl ->
  (forall f' c', tx f' (<[b := replicate BSIZEn 0]> V) L (with_block b bl) -> held c' = [] -> kept f f' ->
    Q tt f' c') ->
  wp (bzero 1 b) Q f c.
Proof.
  intros Ht Hc Hb HL Hroom HQ. unfold bzero. kstep.
  eapply wp_open; try done; [by apply above_dom|by eapply room_le, Hroom; lia|].
  intros i f1 c1 Ht1 Hc1 Hi Hk. eapply (wp_update f); try done; [apply wf_zeros|by apply loggable_above|].
  intros j x. by eapply tx_held.
Qed.

(** The contents and the log after an allocation of [b]. *)
Definition alloc_view V (b : Z) : blocks := <[b := replicate BSIZEn 0]> (mark V b).
Definition alloc_log (b : Z) bl : list Z := with_block b (with_block (BBLOCK b sb) bl).

Lemma map_slot b0 bi : 0 <= bi < BPB -> b0 mod BPB = 0 ->
  (b0 + bi) mod BPB = bi /\ (b0 + bi) / BPB = b0 / BPB.
Proof.
  intros Hbi Hm. apply Z.div_exact in Hm; [|done]. rewrite Hm.
  replace (BPB * (b0 / BPB) + bi) with (bi + b0 / BPB * BPB) by lia.
  rewrite Z.mod_add, Z.div_add by done. rewrite Z.mod_small, Z.div_small by done.
  split; [done|]. rewrite (Z.mul_comm BPB), Z.div_mul by done. lia.
Qed.

Lemma used_slot V b0 bi : 0 <= b0 -> 0 <= bi < BPB -> b0 mod BPB = 0 -> b0 + bi < sb_size sb ->
  used V (b0 + bi) = bit bi (at_block V (BBLOCK b0 sb)).
Proof.
  intros Hb0 Hbi Hm Hs. destruct (map_slot b0 bi Hbi Hm) as [E1 E2].
  unfold used. rewrite !BBLOCK_eq by lia. by rewrite E1, E2.
Qed.

(** The lowest free block. *)
Definition first_free V (b : Z) : Prop :=
  data_start sb <= b < sb_size sb /\ used V b = false /\ forall x, 0 <= x < b -> used V x = true.

Lemma scan_first_free V b0 bi :
  meta_used V -> 0 <= b0 -> b0 mod BPB = 0 ->
  (forall x, 0 <= x < b0 -> x < sb_size sb -> used V x = true) ->
  0 <= bi < BPB -> b0 + bi < sb_size sb -> bit bi (at_block V (BBLOCK b0 sb)) = false ->
  (forall j, 0 <= j < bi -> bit j (at_block V (BBLOCK b0 sb)) = true) -> first_free V (b0 + bi).
Proof.
  intros Hmeta Hpos Hm Hlow Hbi Hlt Hbit Hless.
  assert (used V (b0 + bi) = false) as Hu by by rewrite used_slot.
  split; [|split; [done|]].
  - split; [|done]. destruct (Z.le_gt_cases (data_start sb) (b0 + bi)) as [|Hlt']; [done|].
    rewrite Hmeta in Hu by lia. done.
  - intros y Hy. destruct (Z.lt_ge_cases y b0); [apply Hlow; lia|].
    replace y with (b0 + (y - b0)) by lia. rewrite used_slot by lia. apply Hless. lia.
Qed.

Lemma balloc_from_run fuel f c V L bl b0 (Q : Z -> fs S -> ctx -> Prop) :
  tx f V L bl -> held c = [] -> meta_used V -> data_locked V L -> room 2 L bl ->
  0 <= b0 -> b0 mod BPB = 0 -> (forall x, 0 <= x < b0 -> x < sb_size sb -> used V x = true) ->
  (exists x, 0 <= x < sb_size sb /\ used V x = false) -> sb_size sb <= b0 + Z.of_nat fuel * BPB ->
  (forall b f' c', tx f' (alloc_view V b) L (alloc_log b bl) -> held c' = [] -> first_free V b ->
    kept f f' -> Q b f' c') ->
  wp (balloc_from fuel 1 b0) Q f c.
Proof.
  intros Ht Hc Hmeta HL Hroom. revert f c b0 Ht Hc.
  induction fuel as [|fuel IH]; intros f c b0 Ht Hc Hpos Hm Hlow (x & Hx & Hfree) Hfuel HQ; cbn [balloc_from].
  { specialize (Hlow x). rewrite Hfree in Hlow. exfalso. cbn in Hfuel. by apply diff_true_false; symmetry; apply Hlow; lia. }
  assert (Hb0 : b0 <= x).
  { destruct (Z.le_gt_cases b0 x) as [|Hlt]; [done|]. rewrite Hlow in Hfree by lia. done. }
  do 2 kstep. rewrite (tx_sb _ _ _ _ Ht), (proj2 (Z.ltb_lt _ _)) by lia. kstep.
  assert (Hbm : is_bitmap (BBLOCK b0 sb)) by (apply BBLOCK_bitmap; lia).
  pose proof (data_locked_bitmap _ _ _ HL Hbm) as HnL. pose proof (bitmap_above _ Hbm) as Hab.
  eapply wp_open; try done; [by apply above_dom|by eapply room_le, Hroom; lia|].
  intros i f1 c1 Ht1 Hc1 Hi Hk. kstep. eapply wp_fdata; [done..|]. intros HV Hwf.
  destruct (free_bit _ _ _ _ _) as [bi|] eqn:Hfb.
  - apply free_bit_Some in Hfb as (Hbi & Hlt & Hbit & Hless).
    destruct (map_slot b0 bi Hbi Hm) as [Em Ed].
    assert (EB : BBLOCK (b0 + bi) sb = BBLOCK b0 sb) by (rewrite !BBLOCK_eq by lia; by rewrite Ed).
    pose proof (scan_first_free _ _ _ Hmeta Hpos Hm Hlow Hbi Hlt Hbit Hless) as Hff.
    assert (HbL : b0 + bi ∉ L).
    { intros Hin. apply HL in Hin as [_ Hu]. destruct Hff as (_ & Hu' & _). congruence. }
    apply wp_seq3. eapply (wp_update f); try done.
    + by apply wf_set_bit.
    + by apply loggable_above.
    + by eapply room_le, Hroom; lia.
    + intros j y. by eapply tx_held.
    + intros f2 c2 Ht2 Hc2 Hk2. kstep. eapply bzero_run; try done; [by apply data_above, Hff| |].
      { by apply room_with. }
      intros f3 c3 Ht3 Hc3 Hk3. kstep. apply HQ; try done; [|by etrans].
      unfold alloc_view, alloc_log, mark. by rewrite EB, Em.
  - kstep. eapply (wp_close f); try done.
    + exact (tx_clean _ _ _ _ _ Ht HnL).
    + intros j y. by eapply tx_held.
    + intros f2 c2 Ht2 Hc2 Hk2. apply IH; try done; [unfold BPB in *; lia| | |by exists x|unfold BPB in *; lia|].
      * by rewrite <- Z.add_mod_idemp_l, Hm.
      * intros y Hy Hys. destruct (Z.lt_ge_cases y b0); [apply Hlow; lia|].
        replace y with (b0 + (y - b0)) by lia. rewrite used_slot by lia.
        eapply free_bit_None; [exact Hfb|unfold BPB in *; lia..].
      * intros b f3 c3 Ht3 Hc3 Hff Hk3. apply HQ; try done; by etrans.
Qed.

Lemma balloc_run f c V L bl (Q : Z -> fs S -> ctx -> Prop) :
  tx f V L bl -> held c = [] -> meta_used V -> data_locked V L -> room 2 L bl ->
  (exists x, 0 <= x < sb_size sb /\ used V x = false) ->
  (forall b f' c', tx f' (alloc_view V b) L (alloc_log b bl) -> held c' = [] -> first_free V b ->
    kept f f' -> Q b f' c') ->
  wp (balloc 1) Q f c.
Proof.
  intros Ht Hc Hmeta HL Hroom Hex HQ. unfold balloc. do 2 kstep. rewrite (tx_sb _ _ _ _ Ht).
  eapply balloc_from_run; try done; [lia|].
  pose proof (Z.div_mod (sb_size sb) BPB). pose proof (bpb_mod (sb_size sb)).
  pose proof (Z.div_pos (sb_size sb) BPB). pose proof (geo_size _ _ Hgeo).
  unfold BPB in *. lia.
Qed.

(** bfree re-reads the superblock, block 1. *)
Definition super_ok V : Prop := parse_sb (at_block V 1) = sb.

Lemma wp_zoom_bind {A B X Y} (l : lens X Y) `{!LensOk l} (m : K Y A) (k : A -> K Y B) (Q : B -> X -> ctx -> Prop) s c :
  wp (x ← zoom l m; zoom l (k x)) Q s c -> wp (zoom l (x ← m; k x)) Q s c.
Proof.
  unfold wp, zoom, mbind, K_bind. destruct (m (lget l s) c) as [a t c'| |]; [|done..].
  rewrite lget_lset. destruct (k a t c') as [b u c''| |]; [|done..]. by rewrite lset_lset.
Qed.

Lemma fs_readsb_run f c V L bl (Q : unit -> fs S -> ctx -> Prop) :
  tx f V L bl -> held c = [] -> super_ok V -> 1 ∉ L -> room 0 L bl ->
  (forall f' c', tx f' V L bl -> held c' = [] -> kept f f' -> Q tt f' c') ->
  wp (fs_readsb 1) Q f c.
Proof.
  intros Ht Hc Hs H1 Hroom HQ. unfold fs_readsb, readsb. kstep. apply wp_zoom_bind; [apply _|]. kstep.
  eapply wp_open; try done.
  { apply (geo_dom _ _ Hgeo). pose proof (geo_data _ _ Hgeo). pose proof (bitmap_above (sb_bmapstart sb)).
    destruct Hgeo. unfold is_bitmap, data_start in *. pose proof (Z.div_pos (sb_ninodes sb) IPB).
    pose proof (Z.div_pos (sb_size sb) BPB). unfold IPB, BPB, LOGSIZE, MAXOPBLOCKS in *. lia. }
  intros i f1 c1 Ht1 Hc1 Hi Hk. apply wp_zoom_bind; [apply _|]. kstep.
  change (zoom log_lens (data i)) with (fdata (S := S) i). eapply wp_fdata; [done..|]. intros HV Hwf.
  apply wp_zoom_bind; [apply _|]. kstep. eapply (wp_close f); try done.
  - exact (tx_clean _ _ _ _ _ Ht H1).
  - intros j y. by eapply tx_held.
  - intros f2 c2 Ht2 Hc2 Hk2. do 3 kstep. rewrite Hs.
    assert (set_fsb sb (lset log_lens (lget log_lens f2) f2) = f2) as ->.
    { rewrite <- (tx_sb _ _ _ _ Ht2). by destruct f2. }
    by apply HQ.
Qed.

Lemma bfree_run f c V L bl b (Q : unit -> fs S -> ctx -> Prop) :
  tx f V L bl -> held c = [] -> super_ok V -> data_locked V L -> room 1 L bl ->
  data_start sb <= b < sb_size sb -> used V b = true ->
  (forall f' c', tx f' (unmark V b) L (with_block (BBLOCK b sb) bl) -> held c' = [] -> kept f f' ->
    Q tt f' c') ->
  wp (bfree 1 b) Q f c.
Proof.
  intros Ht Hc Hs HL Hroom Hb Hu HQ. unfold bfree. kstep.
  assert (Hb0 : 0 <= b < sb_size sb).
  { pose proof (data_above _ Hb). destruct Hgeo. unfold LOGSIZE, MAXOPBLOCKS in *. lia. }
  pose proof (BBLOCK_bitmap _ Hb0) as Hbm. pose proof (bitmap_above _ Hbm) as Hab.
  eapply fs_readsb_run; try done.
  { intros Hin. apply HL in Hin as [Hr _]. pose proof (data_above _ Hr). destruct Hgeo.
    unfold LOGSIZE, MAXOPBLOCKS in *. lia. }
  { by eapply room_le, Hroom; lia. }
  intros f1 c1 Ht1 Hc1 Hk1. do 3 kstep. rewrite (tx_sb _ _ _ _ Ht1).
  eapply wp_open; try done; [by apply above_dom|by eapply data_locked_bitmap|by eapply room_le, Hroom; lia|].
  intros i f2 c2 Ht2 Hc2 Hi Hk2. kstep. eapply wp_fdata; [done..|]. intros HV Hwf.
  unfold used, bit in Hu. rewrite (proj1 (negb_true_iff _) Hu).
  eapply (wp_update f1); try done.
  - by eapply data_locked_bitmap.
  - by apply wf_clear_bit.
  - by apply loggable_above.
  - intros j y. by eapply tx_held.
  - intros f3 c3 Ht3 Hc3 Hk3. apply HQ; try done. by etrans.
Qed.

(** C28. balloc returns the lowest free block of the disk, which is a data
    block; afterwards it is zeroed and marked in the free map, no other
    block is marked or unmarked, every other block outside the free map is
    unchanged, and the changed blocks are in the transaction's log.  It
    returns for every transaction with room for two blocks and every free
    map with a clear bit. *)
Theorem balloc_correct f c V L bl :
  tx f V L bl -> held c = [] -> meta_used V -> data_locked V L -> room 2 L bl ->
  (exists x, 0 <= x < sb_size sb /\ used V x = false) ->
  wp (balloc 1) (fun b f' _ => exists V', tx f' V' L (alloc_log b bl) /\ kept f f' /\
    first_free V b /\ at_block V' b = replicate BSIZEn 0 /\
    (forall x, 0 <= x < sb_size sb -> used V' x = (x =? b) || used V x) /\
    (forall x, x <> b -> ~ is_bitmap x -> at_block V' x = at_block V x)) f c.
Proof.
  intros Ht Hc Hmeta HL Hroom Hex. eapply balloc_run; try done.
  intros b f' c' Ht' Hc' Hff Hk. exists (alloc_view V b). split; [done|]. split; [done|]. split; [done|].
  destruct Hff as (Hb & _). pose proof (data_above _ Hb) as Hab.
  assert (Hb0 : 0 <= b < sb_size sb) by (destruct Hgeo; unfold LOGSIZE, MAXOPBLOCKS in *; lia).
  unfold alloc_view. split; [by rewrite at_block_insert, decide_True|]. split.
  - intros x Hx. rewrite used_insert by (unfold is_bitmap; lia). apply used_mark; [by eapply tx_map_wf|done..].
  - intros x Hx Hnb. rewrite at_block_insert, decide_False by done. unfold mark.
    rewrite at_block_insert, decide_False; [done|]. intros ->. by apply Hnb, BBLOCK_bitmap.
Qed.

(** bfree of a used data block clears exactly its bit in the free map
    and changes no block outside the map. *)
Theorem bfree_correct f c V L bl b :
  tx f V L bl -> held c = [] -> super_ok V -> data_locked V L -> room 1 L bl ->
  data_start sb <= b < sb_size sb -> used V b = true ->
  wp (bfree 1 b) (fun _ f' _ => exists V', tx f' V' L (with_block (BBLOCK b sb) bl) /\ kept f f' /\
    (forall x, 0 <= x < sb_size sb -> used V' x = negb (x =? b) && used V x) /\
    (forall x, ~ is_bitmap x -> at_block V' x = at_block V x)) f c.
Proof.
  intros Ht Hc Hs HL Hroom Hb Hu. eapply bfree_run; try done.
  intros f' c' Ht' Hc' Hk. exists (unmark V b). split; [done|]. split; [done|].
  assert (Hb0 : 0 <= b < sb_size sb).
  { pose proof (data_above _ Hb). destruct Hgeo. unfold LOGSIZE, MAXOPBLOCKS in *. lia. }
  split; [intros x Hx; apply used_unmark; [by eapply tx_map_wf|done..]|].
  intros x Hnb. unfold unmark. rewrite at_block_insert, decide_False; [done|].
  intros ->. by apply Hnb, BBLOCK_bitmap.
Qed.

End tx.
