(* ===== verification/FsInode.v ===== *)
(** * Inodes on disk and their blocks

    The round trip between an inode and its 64 bytes of an inode block, the
    map from the blocks of a file to disk blocks, the invariant of an inode
    ([inode_ok]), and what bmap does to them. *)

From stdpp Require Import base numbers strings gmap list.
From S2P Require Import Prelude Kmonad Kstring Mmu Locks Block Log LogProof Fs FsTx.

Local Open Scope Z_scope.

(** ** struct dinode *)

Lemma length_get_words off n d : length (get_words off n d) = n.
Proof. revert off. induction n as [|n IH]; intros off; cbn; [done|]. by rewrite IH. Qed.

Lemma lookup_get_words off n d k :
  (k < n)%nat -> get_words off n d !! k = Some (get_u32 (off + 4 * k) d).
Proof.
  revert off k. induction n as [|n IH]; intros off k Hk; [lia|]. destruct k as [|k]; cbn.
  - do 2 f_equal. lia.
  - rewrite IH by lia. do 2 f_equal. lia.
Qed.

Lemma length_put_words off ws d :
  (off + 4 * length ws <= length d)%nat -> length (put_words off ws d) = length d.
Proof.
  revert off d. induction ws as [|w ws IH]; intros off d Hl; cbn in *; [done|].
  rewrite IH; rewrite length_put_u32; lia.
Qed.

Lemma Forall_put_words off ws d : Forall is_byte d -> Forall is_byte (put_words off ws d).
Proof.
  revert off d. induction ws as [|w ws IH]; intros off d Hd; cbn; [done|].
  by apply IH, Forall_put_u32.
Qed.

(** put_words changes only its own words. *)
Lemma bsub_put_words off ws d o n :
  (off + 4 * length ws <= length d)%nat -> (o + n <= off \/ off + 4 * length ws <= o)%nat ->
  bsub o n (put_words off ws d) = bsub o n d.
Proof.
  revert off d. induction ws as [|w ws IH]; intros off d Hl Ho; cbn in *; [done|].
  rewrite IH; [|rewrite length_put_u32; lia|lia].
  unfold put_u32. rewrite bsub_bput_disjoint; rewrite ?length_le_bytes; [done|lia..].
Qed.

Lemma bsub_put_u16 o n off v d :
  (off + 2 <= length d)%nat -> (o + n <= off \/ off + 2 <= o)%nat ->
  bsub o n (put_u16 off v d) = bsub o n d.
Proof. intros Hl Ho. unfold put_u16. rewrite bsub_bput_disjoint; rewrite ?length_le_bytes; [done|lia..]. Qed.

Lemma bsub_put_u32 o n off v d :
  (off + 4 <= length d)%nat -> (o + n <= off \/ off + 4 <= o)%nat ->
  bsub o n (put_u32 off v d) = bsub o n d.
Proof. intros Hl Ho. unfold put_u32. rewrite bsub_bput_disjoint; rewrite ?length_le_bytes; [done|lia..]. Qed.

Lemma get_words_put_words off ws d :
  (off + 4 * length ws <= length d)%nat -> Forall in_u32 ws ->
  get_words off (length ws) (put_words off ws d) = ws.
Proof.
  revert off d. induction ws as [|w ws IH]; intros off d Hl Hw; cbn in *; [done|].
  apply Forall_cons in Hw as [Hw Hws]. f_equal; [|apply IH; [rewrite length_put_u32; lia|done]].
  unfold get_u32. rewrite bsub_put_words by (rewrite ?length_put_u32; lia).
  change (get_u32 off (put_u32 off w d) = w). rewrite get_put_u32 by lia. by apply u32_id.
Qed.

Lemma i16_id x : -32768 <= x < 32768 -> i16 (u16 x) = x.
Proof.
  intros Hx. unfold i16, u16. rewrite Zmod_mod. destruct (Z.lt_ge_cases x 0).
  - replace (x mod 65536) with (x + 65536) by (symmetry; rewrite <- (Z.mod_add x 1), Z.mod_small by lia; lia).
    destruct (_ <? _) eqn:E; [apply Z.ltb_lt in E|]; lia.
  - rewrite Z.mod_small by lia. destruct (_ <? _) eqn:E; [|apply Z.ltb_ge in E]; lia.
Qed.

(** Side conditions on the lengths of updated byte lists. *)
Ltac solve_len :=
  repeat first [ rewrite length_put_u32 by solve_len | rewrite length_put_u16 by solve_len
               | rewrite length_put_words by solve_len ]; lia.

(** The fields fit their types. *)
Record inode_typed (x : inode) : Prop := {
  ty_type : -32768 <= itype x < 32768;
  ty_major : -32768 <= major x < 32768;
  ty_minor : -32768 <= minor x < 32768;
  ty_nlink : -32768 <= nlink x < 32768;
  ty_size : in_u32 (isize x);
  ty_len : length (addrs x) = 13%nat;
  ty_addrs : Forall in_u32 (addrs x)
}.

(** The bytes a dinode occupies are all that store_dinode changes. *)
Lemma bsub_store_dinode off x d o n :
  (off + sizeof_dinode <= length d)%nat -> length (addrs x) = 13%nat ->
  (o + n <= off \/ off + sizeof_dinode <= o)%nat ->
  bsub o n (store_dinode off x d) = bsub o n d.
Proof.
  unfold sizeof_dinode, store_dinode. intros Hl Ha Ho.
  rewrite bsub_put_words, bsub_put_u32, !bsub_put_u16 by solve_len. done.
Qed.

Lemma length_store_dinode off x d :
  (off + sizeof_dinode <= length d)%nat -> length (addrs x) = 13%nat ->
  length (store_dinode off x d) = length d.
Proof.
  unfold sizeof_dinode, store_dinode. intros Hl Ha.
  by rewrite length_put_words, length_put_u32, !length_put_u16 by solve_len.
Qed.

Lemma Forall_put_u16 off v l : Forall is_byte l -> Forall is_byte (put_u16 off v l).
Proof. apply Forall_bput, le_bytes_is_byte. Qed.

Lemma wf_store_dinode off x d :
  (off + sizeof_dinode <= BSIZEn)%nat -> length (addrs x) = 13%nat ->
  wf_block d -> wf_block (store_dinode off x d).
Proof.
  intros Hl Ha [Hd Hb]. split; [rewrite length_store_dinode; [done|by rewrite Hd|done]|].
  unfold store_dinode. by apply Forall_put_words, Forall_put_u32; repeat apply Forall_put_u16.
Qed.

Lemma get_i16_eq off d v : -32768 <= v < 32768 -> bsub off 2 d = le_bytes 2 v -> get_i16 off d = v.
Proof.
  intros Hv E. unfold get_i16, get_u16. rewrite E, le_val_bytes.
  change (256 ^ Z.of_nat 2) with 65536. by apply i16_id.
Qed.

Lemma bsub_put_u16_same off v d : (off + 2 <= length d)%nat -> bsub off 2 (put_u16 off v d) = le_bytes 2 v.
Proof.
  intros Hl. unfold put_u16. rewrite <- (length_le_bytes 2 v) at 1. apply bsub_bput_same.
  by rewrite length_le_bytes.
Qed.

(** ilock reads back what iupdate wrote. *)
Lemma load_store_dinode off x y d :
  (off + sizeof_dinode <= length d)%nat -> inode_typed x ->
  load_dinode off (store_dinode off x d) y =
    mkinode (idev y) (inum y) (iref y) (ilk y) (ivalid y) (itype x) (major x) (minor x) (nlink x)
      (isize x) (addrs x).
Proof.
  unfold sizeof_dinode. intros Hl [Ht Hmj Hmn Hn Hs Ha Hw]. unfold load_dinode, store_dinode.
  f_equal; [apply get_i16_eq; [done|]..| |].
  1-4: rewrite bsub_put_words, bsub_put_u32 by solve_len.
  - do 3 rewrite bsub_put_u16 by solve_len. apply bsub_put_u16_same. lia.
  - do 2 rewrite bsub_put_u16 by solve_len. apply bsub_put_u16_same. solve_len.
  - rewrite bsub_put_u16 by solve_len. apply bsub_put_u16_same. solve_len.
  - apply bsub_put_u16_same. solve_len.
  - unfold get_u32. rewrite bsub_put_words by solve_len. fold (get_u32 (off + 8) (put_u32 (off + 8) (isize x)
      (put_u16 (off + 6) (nlink x) (put_u16 (off + 4) (minor x)
        (put_u16 (off + 2) (major x) (put_u16 off (itype x) d)))))).
    rewrite get_put_u32 by solve_len. by apply u32_id.
  - rewrite <- Ha at 1. apply get_words_put_words; [solve_len|done].
Qed.

(** An update of one dinode leaves the others of the block alone. *)
Lemma get_words_bsub off n d d' :
  (forall o, (off <= o)%nat -> (o + 4 <= off + 4 * n)%nat -> bsub o 4 d = bsub o 4 d') ->
  get_words off n d = get_words off n d'.
Proof.
  revert off. induction n as [|n IH]; intros off He; cbn; [done|].
  f_equal; [unfold get_u32; by rewrite He by lia|]. apply IH. intros o H1 H2. apply He; lia.
Qed.

Lemma load_store_other off off' x y d :
  (off + sizeof_dinode <= length d)%nat -> length (addrs x) = 13%nat ->
  (off' + sizeof_dinode <= off \/ off + sizeof_dinode <= off')%nat ->
  load_dinode off' (store_dinode off x d) y = load_dinode off' d y.
Proof.
  intros Hl Ha Ho. unfold load_dinode, get_i16, get_u16, get_u32.
  assert (E : forall o n, (off' <= o)%nat -> (o + n <= off' + sizeof_dinode)%nat ->
    bsub o n (store_dinode off x d) = bsub o n d).
  { intros o n H1 H2. apply bsub_store_dinode; [done..|lia]. }
  unfold sizeof_dinode in *. rewrite !E by lia. f_equal. apply get_words_bsub. intros o H1 H2. apply E; lia.
Qed.

(** Different inodes of a block are at different places. *)
Lemma dinode_off_bound n : (dinode_off n + sizeof_dinode <= BSIZEn)%nat.
Proof.
  unfold dinode_off, sizeof_dinode, BSIZEn, IPB. pose proof (Z.mod_pos_bound n 8). lia.
Qed.

Lemma dinode_off_disjoint n m : n mod IPB <> m mod IPB ->
  (dinode_off m + sizeof_dinode <= dinode_off n \/ dinode_off n + sizeof_dinode <= dinode_off m)%nat.
Proof.
  unfold dinode_off, sizeof_dinode, IPB. pose proof (Z.mod_pos_bound n 8). pose proof (Z.mod_pos_bound m 8). lia.
Qed.

(** ** The blocks of a file *)

Definition NSLOT : nat := 140.   (* the slot of the indirect block itself *)

Definition ind_of (x : inode) : Z := default 0 (addrs x !! NDIRECT).

(** Slot [k] of a file: its block [k] for k < MAXFILE, and the indirect
    block at NSLOT; 0 when there is none. *)
Definition faddr (V : blocks) (x : inode) (k : nat) : Z :=
  if Nat.ltb k NDIRECT then default 0 (addrs x !! k)
  else if Nat.ltb k NSLOT then
    if ind_of x =? 0 then 0 else get_u32 (4 * (k - NDIRECT)) (at_block V (ind_of x))
  else ind_of x.

(** Byte [o] of a file. *)
Definition fbyte (V : blocks) (x : inode) (o : Z) : Z :=
  nth_byte (at_block V (faddr V x (Z.to_nat (o / BSIZE)))) (Z.to_nat (o mod BSIZE)).

Section inodes.
Context {S : Type} `{BlockLayer S}.
Context (D : blocks) (T : list dwrite) (sb : superblock) (Hgeo : geom sb D).
Implicit Types (f : fs S) (V : blocks) (L : gset Z) (bl : list Z) (c : ctx) (x : inode).

Abbreviation tx := (tx D T sb).
Abbreviation used := (used sb).
Abbreviation first_free := (first_free sb).
Abbreviation is_bitmap := (is_bitmap sb).
Abbreviation alloc_view := (alloc_view sb).
Abbreviation alloc_log := (alloc_log sb).
Abbreviation meta_used := (meta_used sb).

(** The blocks of an inode are distinct data blocks marked in use, and the
    file has a block for each byte below its size. *)
Record inode_ok V x : Prop := {
  io_dev : idev x = 1;
  io_len : length (addrs x) = 13%nat;
  io_size : 0 <= isize x <= MAXFILE * BSIZE;
  io_range : forall k, (k <= NSLOT)%nat -> faddr V x k <> 0 ->
    data_start sb <= faddr V x k < sb_size sb /\ used V (faddr V x k) = true;
  io_inj : forall j k, (j <= NSLOT)%nat -> (k <= NSLOT)%nat -> faddr V x j <> 0 ->
    faddr V x j = faddr V x k -> j = k;
  io_mapped : forall k, Z.of_nat k * BSIZE < isize x -> faddr V x k <> 0
}.

Lemma data_pos b : data_start sb <= b -> 0 < b.
Proof.
  intros Hb. destruct Hgeo. unfold data_start in *. pose proof (Z.div_pos (sb_ninodes sb) IPB).
  pose proof (Z.div_pos (sb_size sb) BPB). unfold IPB, BPB, LOGSIZE, MAXOPBLOCKS in *. lia.
Qed.

Lemma data_not_bitmap b : data_start sb <= b -> ~ is_bitmap b.
Proof. unfold FsTx.is_bitmap. lia. Qed.

Lemma ind_slot V x : faddr V x NSLOT = ind_of x.
Proof. done. Qed.

(** Blocks of the file after the allocation of [b]. *)
Lemma at_alloc_view V b y : data_start sb <= b < sb_size sb -> y <> b -> ~ is_bitmap y ->
  at_block (alloc_view V b) y = at_block V y.
Proof.
  intros Hb Hy Hn. unfold FsTx.alloc_view, mark. rewrite !at_block_insert, !decide_False; [done| |done].
  intros ->. pose proof (data_pos b). apply Hn, (BBLOCK_bitmap D); [done|lia].
Qed.

Lemma used_alloc_view f V L bl b y : tx f V L bl -> data_start sb <= b < sb_size sb -> 0 <= y < sb_size sb ->
  used (alloc_view V b) y = (y =? b) || used V y.
Proof.
  intros Ht Hb Hy. pose proof (data_pos b). unfold FsTx.alloc_view.
  rewrite (used_insert D) by (done || (apply data_not_bitmap; lia)).
  apply (used_mark D); [done| |lia|done]. by eapply tx_map_wf.
Qed.

Lemma alloc_ind f V L bl x b : tx f V L bl -> inode_ok V x -> first_free V b -> ind_of x <> 0 ->
  at_block (alloc_view V b) (ind_of x) = at_block V (ind_of x) /\ b <> ind_of x.
Proof.
  intros Ht Hx (Hb & Hu & _) Hi. destruct (io_range _ _ Hx NSLOT) as [Hr Hui]; [done|by rewrite ind_slot|].
  rewrite ind_slot in *. assert (b <> ind_of x) by congruence. split; [|done].
  apply at_alloc_view; [done|congruence|]. apply data_not_bitmap. lia.
Qed.

(** A file whose slot [k] becomes a newly allocated block. *)
Lemma inode_ok_extend V V' x x' k b :
  inode_ok V x -> (k <= NSLOT)%nat -> faddr V x k = 0 -> first_free V b ->
  idev x' = idev x -> isize x' = isize x -> length (addrs x') = length (addrs x) ->
  (forall j, (j <= NSLOT)%nat -> faddr V' x' j = if decide (j = k) then b else faddr V x j) ->
  (forall y, 0 <= y < sb_size sb -> used V y = true -> used V' y = true) -> used V' b = true ->
  inode_ok V' x'.
Proof.
  intros [Hdev Hlen Hsz Hrng Hinj Hmap] Hk Hk0 (Hb & Hbu & _) Ed Es El Hf Hmono Hb'.
  assert (Hnew : forall j, (j <= NSLOT)%nat -> faddr V x j <> b).
  { intros j Hj E. destruct (Hrng j Hj) as [_ Hu]; [pose proof (data_pos b); lia|congruence]. }
  split; [congruence..| | |].
  - intros j Hj. rewrite Hf by done. case_decide; [done|]. intros Hn. destruct (Hrng j Hj Hn) as [Hr Hu].
    split; [done|]. apply Hmono; [|done]. pose proof (data_pos (faddr V x j)). lia.
  - intros j m Hj Hm. rewrite !Hf by done. do 2 case_decide; subst; try done.
    + intros _ E. by destruct (Hnew m Hm).
    + intros _ E. by destruct (Hnew j Hj).
    + by apply Hinj.
  - intros j Hj. rewrite Es in Hj. assert (j <= NSLOT)%nat.
    { unfold NSLOT. unfold MAXFILE, BSIZE in *. lia. }
    rewrite Hf by done. case_decide; [pose proof (data_pos b); lia|]. by apply Hmap.
Qed.

(** The three places a new block can go to. *)
Lemma faddr_direct f V L bl x b k j :
  tx f V L bl -> inode_ok V x -> first_free V b -> (k < NDIRECT)%nat ->
  faddr (alloc_view V b) (set_addrs (<[k := b]> (addrs x)) x) j = if decide (j = k) then b else faddr V x j.
Proof.
  intros Ht Hx Hb Hk. pose proof (io_len _ _ Hx) as Hlen. unfold NDIRECT in Hk.
  assert (Ei : ind_of (set_addrs (<[k := b]> (addrs x)) x) = ind_of x).
  { unfold ind_of. cbn [addrs set_addrs]. rewrite list_lookup_insert_ne; [done|unfold NDIRECT; lia]. }
  unfold faddr. rewrite Ei. destruct (Nat.ltb_spec j NDIRECT) as [Hj|Hj].
  - cbn [addrs set_addrs]. case_decide; [subst; by rewrite list_lookup_insert_eq by lia|].
    by rewrite list_lookup_insert_ne by done.
  - rewrite decide_False by (unfold NDIRECT in Hj; lia). destruct (Nat.ltb j NSLOT); [|done].
    destruct (Z.eqb_spec (ind_of x) 0) as [|Hi]; [done|].
    by rewrite (proj1 (alloc_ind _ _ _ _ _ _ Ht Hx Hb Hi)).
Qed.

Lemma get_u32_zeros k : (k < 128)%nat -> get_u32 (4 * k) (replicate BSIZEn 0) = 0.
Proof.
  intros Hk. unfold get_u32, bsub. rewrite drop_replicate, take_replicate.
  replace (4 `min` (BSIZEn - 4 * k))%nat with 4%nat by (unfold BSIZEn; lia). done.
Qed.

Lemma faddr_indirect V x b j :
  inode_ok V x -> ind_of x = 0 -> b <> 0 -> (j <= NSLOT)%nat ->
  faddr (alloc_view V b) (set_addrs (<[NDIRECT := b]> (addrs x)) x) j =
    if decide (j = NSLOT) then b else faddr V x j.
Proof.
  intros Hx Hi Hb Hj. pose proof (io_len _ _ Hx) as Hlen.
  assert (Ei : ind_of (set_addrs (<[NDIRECT := b]> (addrs x)) x) = b).
  { unfold ind_of. cbn [addrs set_addrs]. rewrite list_lookup_insert_eq; [done|unfold NDIRECT; lia]. }
  unfold faddr. rewrite Ei, Hi. destruct (Nat.ltb_spec j NDIRECT) as [Hd|Hd].
  - rewrite decide_False by (unfold NDIRECT, NSLOT in *; lia). cbn [addrs set_addrs].
    by rewrite list_lookup_insert_ne by (unfold NDIRECT in *; lia).
  - destruct (Nat.ltb_spec j NSLOT) as [Hs|Hs]; [|by rewrite decide_True by lia].
    rewrite decide_False by lia. rewrite (proj2 (Z.eqb_neq _ _)) by done. cbn.
    unfold FsTx.alloc_view. rewrite at_block_insert, decide_True by done.
    apply get_u32_zeros. unfold NSLOT, NDIRECT in *. lia.
Qed.

Lemma faddr_entry f V L bl x b k j :
  tx f V L bl -> inode_ok V x -> first_free V b -> ind_of x <> 0 -> (NDIRECT <= k < NSLOT)%nat ->
  (j <= NSLOT)%nat ->
  faddr (<[ind_of x := put_u32 (4 * (k - NDIRECT)) b (at_block V (ind_of x))]> (alloc_view V b)) x j =
    if decide (j = k) then b else faddr V x j.
Proof.
  intros Ht Hx Hb Hi Hk Hj. destruct (io_range _ _ Hx NSLOT) as [Hr _]; [done|by rewrite ind_slot|].
  rewrite ind_slot in Hr. destruct (tx_at _ _ _ _ _ _ _ (ind_of x) Ht) as [_ [Hl _]].
  { by apply (above_dom D sb), (data_above D). }
  unfold faddr. destruct (Nat.ltb_spec j NDIRECT) as [Hd|Hd]; [by rewrite decide_False by lia|].
  destruct (Nat.ltb_spec j NSLOT) as [Hs|Hs]; [|by rewrite decide_False by lia].
  rewrite (proj2 (Z.eqb_neq _ _)) by done. rewrite at_block_insert, decide_True by done.
  unfold NDIRECT, NSLOT in *. case_decide as E.
  - subst j. rewrite get_put_u32 by (rewrite Hl; unfold BSIZEn; lia). apply u32_id. unfold in_u32.
    destruct Hb as [Hb _]. pose proof (data_pos b). destruct Hgeo. lia.
  - apply get_put_u32_ne; [rewrite Hl; unfold BSIZEn; lia|lia].
Qed.

(** [n] more blocks can be allocated. *)
Definition avail V (n : nat) : Prop :=
  exists l, NoDup l /\ length l = n /\ Forall (fun y => 0 <= y < sb_size sb /\ used V y = false) l.

Lemma avail_le V m n : (m <= n)%nat -> avail V n -> avail V m.
Proof.
  intros Hm (l & Hnd & Hl & Hf). exists (take m l).
  split; [by rewrite <- (take_drop m l), NoDup_app in Hnd; destruct Hnd|].
  split; [rewrite length_take; lia|]. by apply Forall_take.
Qed.

Lemma length_remove (l : list Z) b : NoDup l -> (length l <= Datatypes.S (length (filter (fun y => y <> b) l)))%nat.
Proof.
  induction l as [|y l IH]; intros Hnd; [cbn; lia|]. apply NoDup_cons in Hnd as [Hy Hnd].
  destruct (decide (y = b)) as [->|Hne].
  - rewrite filter_cons_False by tauto. assert (filter (fun y => y <> b) l = l) as ->; [|done].
    clear IH Hnd. induction l as [|z l IH]; [done|]. apply not_elem_of_cons in Hy as [Hz Hy].
    rewrite filter_cons_True by done. by rewrite IH.
  - rewrite filter_cons_True by done. cbn [length]. specialize (IH Hnd). lia.
Qed.

Lemma avail_alloc f V L bl b n : tx f V L bl -> first_free V b ->
  avail V (Datatypes.S n) -> avail (alloc_view V b) n.
Proof.
  intros Ht [Hb _] (l & Hnd & Hl & Hf). apply (avail_le _ n (length (filter (fun y => y <> b) l))).
  { pose proof (length_remove l b Hnd). lia. }
  exists (filter (fun y => y <> b) l). split; [by apply NoDup_filter|]. split; [done|].
  apply Forall_forall. intros y Hy. apply list_elem_of_filter in Hy as [Hne Hy].
  destruct (proj1 (Forall_forall _ _) Hf y Hy) as [Hr Hu]. split; [done|].
  rewrite (used_alloc_view _ _ _ _ _ _ Ht) by done. by rewrite Hu, (proj2 (Z.eqb_neq _ _)).
Qed.

(** What an operation on one file may do: it keeps the file's blocks, adds
    free ones, and changes no used block outside the file and the map. *)
Record grow V x V' x' : Prop := {
  gr_x : x' = set_addrs (addrs x') x;
  gr_keep : forall j, (j <= NSLOT)%nat -> faddr V x j <> 0 -> faddr V' x' j = faddr V x j;
  gr_new : forall j, (j <= NSLOT)%nat -> faddr V x j = 0 -> faddr V' x' j <> 0 ->
    used V (faddr V' x' j) = false;
  gr_used : forall y, 0 <= y < sb_size sb -> used V y = true -> used V' y = true;
  gr_frame : forall y, 0 <= y < sb_size sb -> used V y = true -> ~ is_bitmap y ->
    (forall j, (j <= NSLOT)%nat -> faddr V x j <> y) -> at_block V' y = at_block V y
}.

Lemma grow_refl V x : grow V x V x.
Proof. split; try done. by destruct x. Qed.

Lemma grow_trans V x V1 x1 V2 x2 :
  inode_ok V x -> inode_ok V1 x1 -> inode_ok V2 x2 -> grow V x V1 x1 -> grow V1 x1 V2 x2 -> grow V x V2 x2.
Proof.
  intros Hx Hx1 Hx2 [A1 B1 C1 U1 F1] [A2 B2 C2 U2 F2]. split.
  - rewrite A2, A1. by destruct x.
  - intros j Hj Hn. rewrite B2; [by apply B1|done|by rewrite B1].
  - intros j Hj H0' Hn. destruct (decide (faddr V1 x1 j = 0)) as [E|E].
    + specialize (C2 j Hj E Hn). destruct (used V (faddr V2 x2 j)) eqn:Hu; [|done].
      apply U1 in Hu; [congruence|]. destruct (io_range _ _ Hx2 j Hj Hn) as [Hr _].
      pose proof (data_pos (faddr V2 x2 j)). lia.
    + rewrite B2 by done. by apply C1.
  - auto.
  - intros y Hy Hu Hb Hf. rewrite F2; [by apply F1|done|by apply U1|done|].
    intros j Hj E. destruct (decide (faddr V x j = 0)) as [E0|E0].
    + specialize (C1 j Hj E0). rewrite E, Hu in C1. destruct (decide (y = 0)) as [->|Hn]; [by apply (Hf j)|].
      by discriminate C1.
    + rewrite (B1 j Hj E0) in E. by apply (Hf j Hj).
Qed.

Lemma grow_alloc V x V' x' k b :
  inode_ok V x -> first_free V b -> (k <= NSLOT)%nat -> faddr V x k = 0 ->
  x' = set_addrs (addrs x') x -> length (addrs x') = length (addrs x) ->
  (forall j, (j <= NSLOT)%nat -> faddr V' x' j = if decide (j = k) then b else faddr V x j) ->
  (forall y, 0 <= y < sb_size sb -> used V' y = (y =? b) || used V y) ->
  (forall y, 0 <= y < sb_size sb -> used V y = true -> ~ is_bitmap y -> y <> ind_of x ->
    at_block V' y = at_block V y) ->
  inode_ok V' x' /\ grow V x V' x' /\
  (forall j, (j < NSLOT)%nat -> faddr V x j <> 0 -> at_block V' (faddr V x j) = at_block V (faddr V x j)).
Proof.
  intros Hx Hb Hk Hk0 Ex El Hf Hu Hfr. pose proof Hb as (Hr & Hbu & _). pose proof (data_pos b) as Hpos.
  assert (Hmono : forall y, 0 <= y < sb_size sb -> used V y = true -> used V' y = true).
  { intros y Hy E. by rewrite Hu, E, orb_true_r. }
  split; [|split].
  - eapply inode_ok_extend; try done; [by rewrite Ex..|]. by rewrite Hu, Z.eqb_refl by lia.
  - split; [done| | |done|].
    + intros j Hj Hn. rewrite Hf by done. case_decide; [congruence|done].
    + intros j Hj H0'. rewrite Hf by done. case_decide; [done|congruence].
    + intros y Hy Huy Hnb Hfy. apply Hfr; try done. intros ->. by apply (Hfy NSLOT).
  - intros j Hj Hn. destruct (io_range _ _ Hx j) as [Hrj Huj]; [lia|done|].
    pose proof (data_pos (faddr V x j)). apply Hfr; [lia|done|apply data_not_bitmap; lia|].
    rewrite <- (ind_slot V). intros E. apply (io_inj _ _ Hx) in E; [lia|lia|done..].
Qed.

Lemma tx_set_icache f V L bl l : tx f V L bl -> tx (set_icache l f) V L bl.
Proof. intros [H1 H2 H3 H4 H5]. by split. Qed.

Lemma wp_get_ip f c i x (Q : inode -> fs S -> ctx -> Prop) :
  icache f !! i = Some x -> Q x f c -> wp (get_ip i) Q f c.
Proof. intros Hi HQ. unfold get_ip. do 2 kstep. rewrite Hi. by kstep. Qed.

Lemma alter_at (l : list inode) i x g : l !! i = Some x -> alter g i l = <[i := g x]> l.
Proof.
  intros Hi. apply list_eq. intros j. destruct (decide (i = j)) as [<-|Hne].
  - rewrite list_lookup_alter_eq, Hi, list_lookup_insert_eq by by eapply lookup_lt_Some. done.
  - by rewrite list_lookup_alter_ne, list_lookup_insert_ne.
Qed.

Lemma wp_upd_ip f c i x g (Q : unit -> fs S -> ctx -> Prop) :
  icache f !! i = Some x ->
  Q tt (set_icache (<[i := g x]> (icache f)) f) c -> wp (upd_ip i g) Q f c.
Proof. intros Hi HQ. unfold upd_ip. kstep. by rewrite (alter_at _ _ _ _ Hi). Qed.

(** The blocks an operation may still have to add to the log: the map (one
    block, for a disk of up to BPB blocks) and the indirect block. *)
Definition unlogged (b : Z) bl : nat := if decide (b ∈ bl) then 0%nat else 1%nat.
Definition ind_cost x bl : nat := if decide (ind_of x <> 0 /\ ind_of x ∈ bl) then 0%nat else 1%nat.
Definition cost x bl : nat := (unlogged (sb_bmapstart sb) bl + ind_cost x bl)%nat.

Lemma with_block_in b bl : b ∈ with_block b bl.
Proof. unfold with_block. case_decide; [done|]. apply elem_of_app. right. by apply list_elem_of_singleton. Qed.

Lemma with_block_sub b bl y : y ∈ bl -> y ∈ with_block b bl.
Proof. unfold with_block. case_decide; [done|]. rewrite elem_of_app. by left. Qed.

Lemma length_with_block b bl : length (with_block b bl) = (length bl + unlogged b bl)%nat.
Proof. unfold with_block, unlogged. case_decide; [lia|]. rewrite length_app. cbn. lia. Qed.

Lemma unlogged_in b bl : b ∈ bl -> unlogged b bl = 0%nat.
Proof. intros Hb. unfold unlogged. by rewrite decide_True. Qed.

Lemma unlogged_le b bl : (unlogged b bl <= 1)%nat.
Proof. unfold unlogged. case_decide; lia. Qed.

Lemma unlogged_mono b bl bl' : (forall y, y ∈ bl -> y ∈ bl') -> (unlogged b bl' <= unlogged b bl)%nat.
Proof. intros Hs. unfold unlogged. do 2 case_decide; try lia. naive_solver. Qed.

Lemma ind_cost_mono x bl bl' : (forall y, y ∈ bl -> y ∈ bl') -> (ind_cost x bl' <= ind_cost x bl)%nat.
Proof. intros Hs. unfold ind_cost. do 2 case_decide; try lia. naive_solver. Qed.

Lemma ind_cost_in x bl : ind_of x <> 0 -> ind_of x ∈ bl -> ind_cost x bl = 0%nat.
Proof. intros H1 H2. unfold ind_cost. by rewrite decide_True. Qed.

End inodes.
