(* ===== verification/FsFile.v ===== *)
(** * File contents: bmap, readi and writei

    bmap finds or allocates the disk block of a file block; readi returns
    the bytes of the file, writei changes exactly the bytes it is given,
    extends the file, keeps the inode invariant and the copy of the inode
    on disk, and stays within a fixed number of log blocks. *)

From stdpp Require Import base numbers strings gmap list.
From S2P Require Import Prelude Kmonad Kstring Mmu Locks Block Log LogProof Fs FsTx FsInode.

Local Open Scope Z_scope.

Section files.
Context {S : Type} `{BlockLayer S}.
Context (D : blocks) (T : list dwrite) (sb : superblock) (Hgeo : geom sb D).
(** One block of free map, as mkfs makes it (FSSIZE = 1000). *)
Context (Hsmall : sb_size sb <= BPB).
Implicit Types (f : fs S) (V : blocks) (L : gset Z) (bl : list Z) (c : ctx) (x : inode).

Abbreviation tx := (tx D T sb).
Abbreviation used := (used sb).
Abbreviation first_free := (first_free sb).
Abbreviation is_bitmap := (is_bitmap sb).
Abbreviation alloc_view := (alloc_view sb).
Abbreviation alloc_log := (alloc_log sb).
Abbreviation meta_used := (meta_used sb).
Abbreviation inode_ok := (inode_ok sb).
Abbreviation grow := (grow sb).
Abbreviation avail := (avail sb).
Abbreviation cost := (cost sb).

Lemma BBLOCK_small b : 0 <= b < sb_size sb -> BBLOCK b sb = sb_bmapstart sb.
Proof. intros Hb. rewrite (BBLOCK_eq D sb Hgeo) by done. rewrite Z.div_small; unfold BPB in *; lia. Qed.

Lemma alloc_log_eq b bl : 0 <= b < sb_size sb ->
  alloc_log b bl = with_block b (with_block (sb_bmapstart sb) bl).
Proof. intros Hb. unfold FsTx.alloc_log. by rewrite BBLOCK_small. Qed.

Lemma alloc_log_length b bl : 0 <= b < sb_size sb ->
  (length (alloc_log b bl) <= length bl + unlogged (sb_bmapstart sb) bl + 1)%nat.
Proof.
  intros Hb. rewrite alloc_log_eq by done. rewrite !length_with_block.
  pose proof (unlogged_le b (with_block (sb_bmapstart sb) bl)). lia.
Qed.

Lemma alloc_log_sub b bl y : y ∈ bl -> y ∈ alloc_log b bl.
Proof. intros Hy. unfold FsTx.alloc_log. by do 2 apply with_block_sub. Qed.

Lemma alloc_log_map b bl : 0 <= b < sb_size sb -> sb_bmapstart sb ∈ alloc_log b bl.
Proof. intros Hb. rewrite alloc_log_eq by done. apply with_block_sub, with_block_in. Qed.

Lemma grow_meta V x V' x' : grow V x V' x' -> meta_used V -> meta_used V'.
Proof.
  intros Hg Hm b Hb. apply (gr_used _ _ _ _ _ Hg); [|by apply Hm]. pose proof (geo_data _ _ Hgeo). lia.
Qed.

(** What bmap does for block [k] of file [x], allocating at most [m] blocks. *)
Record bmap_post (m : nat) V x bl V' x' bl' (k : nat) (a : Z) : Prop := {
  bm_ok : inode_ok V' x';
  bm_grow : grow V x V' x';
  bm_addr : faddr V' x' k = a;
  bm_nz : a <> 0;
  bm_data : forall j, (j < NSLOT)%nat -> faddr V x j <> 0 ->
    at_block V' (faddr V x j) = at_block V (faddr V x j);
  bm_old : faddr V x k <> 0 -> V' = V /\ x' = x /\ bl' = bl;
  bm_avail : forall n, avail V (m + n) -> avail V' n;
  bm_cost : (length bl' + cost x' bl' + unlogged a bl' <= length bl + cost x bl + 1)%nat
}.

Lemma bmap_post_old m V x bl k : inode_ok V x -> faddr V x k <> 0 -> bmap_post m V x bl V x bl k (faddr V x k).
Proof.
  intros Hx Hk. split; try done; [apply grow_refl|intros n; apply avail_le; lia|].
  pose proof (unlogged_le (faddr V x k) bl). lia.
Qed.

(** An allocation of the block or of the indirect block for it. *)
Lemma direct_post f V L bl x k b :
  tx f V L bl -> inode_ok V x -> first_free V b -> (k < NDIRECT)%nat -> faddr V x k = 0 ->
  let x' := set_addrs (<[k := b]> (addrs x)) x in
  bmap_post 1 V x bl (alloc_view V b) x' (alloc_log b bl) k b.
Proof.
  intros Ht Hx Hb Hk Hk0 x'. pose proof Hb as (Hr & Hbu & _). pose proof (data_pos D sb Hgeo b) as Hpos.
  assert (Hb0 : 0 <= b < sb_size sb) by lia. assert (Hks : (k < NSLOT)%nat) by (unfold NDIRECT, NSLOT in *; lia).
  destruct (grow_alloc D sb Hgeo V x (alloc_view V b) x' k b) as (Hok & Hg & Hd); try done; [lia|..].
  - unfold x'. cbn. by rewrite length_insert.
  - intros j Hj. by eapply faddr_direct.
  - intros y Hy. by eapply used_alloc_view.
  - intros y Hy Hu Hn _. apply (at_alloc_view D); try done. congruence.
  - split; try done.
    + unfold x'. rewrite (faddr_direct D T sb Hgeo f V L bl) by done. by rewrite decide_True.
    + lia.
    + intros n Ha. by eapply avail_alloc.
    + pose proof (alloc_log_length b bl Hb0). unfold FsInode.cost.
      rewrite (unlogged_in b) by apply with_block_in. rewrite (unlogged_in (sb_bmapstart sb)) by by apply alloc_log_map.
      pose proof (ind_cost_mono x bl (alloc_log b bl) (alloc_log_sub b bl)).
      assert (ind_cost x' (alloc_log b bl) = ind_cost x (alloc_log b bl)) as ->; [|lia].
      unfold ind_cost, ind_of, x'. cbn [addrs set_addrs]. by rewrite list_lookup_insert_ne by lia.
Qed.

(** After the indirect block was found or allocated. *)
Record ind_post V x bl V' x' bl' : Prop := {
  ip_ok : inode_ok V' x';
  ip_grow : grow V x V' x';
  ip_nz : ind_of x' <> 0;
  ip_addr : forall j, (j < NSLOT)%nat -> faddr V' x' j = faddr V x j;
  ip_data : forall j, (j < NSLOT)%nat -> faddr V x j <> 0 ->
    at_block V' (faddr V x j) = at_block V (faddr V x j);
  ip_avail : forall n, avail V (1 + n) -> avail V' n;
  ip_old : ind_of x <> 0 -> V' = V /\ x' = x /\ bl' = bl;
  ip_cost : (length bl' + cost x' bl' <= length bl + cost x bl)%nat
}.

Lemma ind_post_old V x bl : inode_ok V x -> ind_of x <> 0 -> ind_post V x bl V x bl.
Proof. intros Hx Hi. split; try done; [apply grow_refl|intros n; apply avail_le; lia]. Qed.

Lemma ind_post_new f V L bl x b :
  tx f V L bl -> inode_ok V x -> first_free V b -> ind_of x = 0 ->
  let x' := set_addrs (<[NDIRECT := b]> (addrs x)) x in
  ind_post V x bl (alloc_view V b) x' (alloc_log b bl).
Proof.
  intros Ht Hx Hb Hi x'. pose proof Hb as (Hr & Hbu & _). pose proof (data_pos D sb Hgeo b) as Hpos.
  assert (Hb0 : 0 <= b < sb_size sb) by lia. assert (Hbz : b <> 0) by lia.
  pose proof (faddr_indirect sb V x b) as Hf.
  assert (Ei : ind_of x' = b).
  { unfold ind_of, x'. cbn. rewrite list_lookup_insert_eq; [done|]. rewrite (io_len _ _ _ Hx). unfold NDIRECT. lia. }
  destruct (grow_alloc D sb Hgeo V x (alloc_view V b) x' NSLOT b) as (Hok & Hg & Hd); try done.
  - unfold x'. cbn. by rewrite length_insert.
  - intros j Hj. by apply Hf.
  - intros y Hy. by eapply used_alloc_view.
  - intros y Hy Hu Hn _. apply (at_alloc_view D); try done. congruence.
  - split; try done; [by rewrite Ei|..].
    + intros j Hj. unfold x'. rewrite Hf by (done || lia). by rewrite decide_False by lia.
    + intros n Ha. by eapply avail_alloc.
    + pose proof (alloc_log_length b bl Hb0). unfold FsInode.cost.
      rewrite (unlogged_in (sb_bmapstart sb) (alloc_log b bl)) by by apply alloc_log_map.
      rewrite ind_cost_in by (rewrite Ei; (done || apply with_block_in)).
      assert (ind_cost x bl = 1%nat) as ->; [|lia]. unfold ind_cost. rewrite decide_False; [done|tauto].
Qed.

Lemma entry_post f V L bl x k b :
  tx f V L bl -> inode_ok V x -> first_free V b -> ind_of x <> 0 -> (NDIRECT <= k < NSLOT)%nat ->
  faddr V x k = 0 ->
  bmap_post 1 V x bl (<[ind_of x := put_u32 (4 * (k - NDIRECT)) b (at_block V (ind_of x))]> (alloc_view V b)) x
    (with_block (ind_of x) (alloc_log b bl)) k b.
Proof.
  intros Ht Hx Hb Hi Hk Hk0. pose proof Hb as (Hr & Hbu & _). pose proof (data_pos D sb Hgeo b) as Hpos.
  assert (Hb0 : 0 <= b < sb_size sb) by lia.
  destruct (io_range _ _ _ Hx NSLOT) as [Hir _]; [done|by rewrite ind_slot|]. rewrite ind_slot in Hir.
  assert (Hib : ~ is_bitmap (ind_of x)) by (apply data_not_bitmap; lia).
  destruct (alloc_ind D T sb Hgeo f V L bl x b Ht Hx Hb Hi) as [_ Hbi].
  set (V' := <[ind_of x := _]> _). pose proof (faddr_entry D T sb Hgeo f V L bl x b k) as Hf.
  assert (Hu : forall y, 0 <= y < sb_size sb -> used V' y = (y =? b) || used V y).
  { intros y Hy. unfold V'. rewrite (used_insert D) by done. by eapply used_alloc_view. }
  destruct (grow_alloc D sb Hgeo V x V' x k b) as (Hok & Hg & Hd); try done; [lia|by destruct x| | |].
  - intros j Hj. by apply Hf.
  - intros y Hy Huy Hn Hni. unfold V'. rewrite at_block_insert, decide_False by done.
    apply (at_alloc_view D); try done. congruence.
  - split; try done.
    + unfold V'. rewrite Hf by (done || lia). by rewrite decide_True.
    + lia.
    + intros n Ha. destruct (avail_alloc D T sb Hgeo _ _ _ _ b n Ht Hb Ha) as (l & H1 & H2 & H3).
      exists l. split; [done|]. split; [done|]. eapply Forall_impl; [exact H3|]. cbv beta.
      intros y [Hy Huy]. split; [done|]. unfold V'. by rewrite (used_insert D).
    + pose proof (alloc_log_length b bl Hb0). rewrite length_with_block. unfold FsInode.cost.
      rewrite (unlogged_in b) by apply with_block_sub, with_block_in.
      rewrite (unlogged_in (sb_bmapstart sb) (with_block _ _)) by by apply with_block_sub, alloc_log_map.
      rewrite ind_cost_in by (done || apply with_block_in).
      pose proof (unlogged_mono (ind_of x) _ _ (alloc_log_sub b bl)).
      assert (ind_cost x bl = unlogged (ind_of x) bl) as ->; [|lia].
      unfold ind_cost, unlogged. do 2 case_decide; naive_solver.
Qed.

Lemma compose_post V x bl V1 x1 bl1 V2 x2 bl2 k a :
  inode_ok V x -> (k < NSLOT)%nat -> ind_post V x bl V1 x1 bl1 -> bmap_post 1 V1 x1 bl1 V2 x2 bl2 k a ->
  (faddr V x k <> 0 -> ind_of x <> 0) -> bmap_post 2 V x bl V2 x2 bl2 k a.
Proof.
  intros Hx Hk [Io Ig In Ia Id Iv Iold Ic] [Bo Bg Ba Bn Bd Bold Bv Bc] Hind. split; try done.
  - by apply (grow_trans D sb Hgeo V x V1 x1).
  - intros j Hj Hn. rewrite <- Id by done. rewrite <- (Ia j Hj). apply Bd; [done|by rewrite Ia].
  - intros Hn. destruct (Iold (Hind Hn)) as (-> & -> & ->). by apply Bold.
  - intros n Ha. by apply Bv, Iv.
  - lia.
Qed.

(** The cached copy of the file [i] is [x]. *)
Definition cached f (i : nat) x : Prop := icache f !! i = Some x.

Definition caches f f' (i : nat) x' : Prop := icache f' = <[i := x']> (icache f).

Lemma caches_cached f f' i x x' : cached f i x -> caches f f' i x' -> cached f' i x'.
Proof.
  unfold cached, caches. intros Hi ->. apply list_lookup_insert_eq. by eapply lookup_lt_Some.
Qed.

Lemma caches_trans f f1 f2 i x x1 x2 : cached f i x -> caches f f1 i x1 -> caches f1 f2 i x2 -> caches f f2 i x2.
Proof. unfold caches. intros _ -> ->. by rewrite list_insert_insert_eq. Qed.

Lemma kept_cached f f' i x : cached f i x -> kept f f' -> caches f f' i x.
Proof. unfold cached, caches. intros Hi [-> _]. by rewrite list_insert_id. Qed.

Lemma avail_free V n : avail V (Datatypes.S n) -> exists y, 0 <= y < sb_size sb /\ used V y = false.
Proof.
  intros (l & _ & Hl & Hf). destruct l as [|y l]; [done|]. apply Forall_cons in Hf as [Hy _]. by exists y.
Qed.

Lemma no_locks V : data_locked sb V ∅.
Proof. intros y Hy. set_solver. Qed.

Abbreviation on_blk m := (zoom log_lens (zoom blk_lens m)).

(** A balloc whose result is stored in slot [s] of ip->addrs. *)
Lemma balloc_slot_run f c V bl i x s (Q : Z -> fs S -> ctx -> Prop) :
  tx f V ∅ bl -> held c = [] -> cached f i x -> inode_ok V x -> meta_used V -> avail V 1 -> room 2 ∅ bl ->
  (forall b f' c', tx f' (alloc_view V b) ∅ (alloc_log b bl) -> held c' = [] -> first_free V b ->
    caches f f' i (set_addrs (<[s := b]> (addrs x)) x) -> Q b f' c') ->
  wp (a ← balloc (idev x); upd_ip i (fun x => set_addrs (<[s := a]> (addrs x)) x);; mret a) Q f c.
Proof.
  intros Ht Hc Hi Hx Hm Ha Hr HQ. rewrite (io_dev _ _ _ Hx). kstep.
  eapply (balloc_run D T sb Hgeo); [done..|apply no_locks|done|by eapply avail_free|].
  intros b f1 c1 Ht1 Hc1 Hb Hk. kstep. apply (kept_cached _ _ _ _ Hi) in Hk.
  eapply wp_upd_ip; [by eapply caches_cached|]. kstep. apply HQ; try done; [by apply tx_set_icache|].
  unfold caches in *. cbn. rewrite Hk. by rewrite list_insert_insert_eq.
Qed.

(** The entry of the indirect block, allocated when there is none. *)
Lemma entry_run f c V bl i x k (Q : Z -> fs S -> ctx -> Prop) :
  tx f V ∅ bl -> held c = [] -> cached f i x -> inode_ok V x -> meta_used V -> avail V 1 ->
  room (cost x bl + 3) ∅ bl -> ind_of x <> 0 -> (NDIRECT <= k < NSLOT)%nat ->
  (forall a V' bl' f' c', tx f' V' ∅ bl' -> held c' = [] -> caches f f' i x ->
    bmap_post 1 V x bl V' x bl' k a -> Q a f' c') ->
  wp (bp ← on_blk (bread (idev x) (ind_of x));
      d ← fdata bp;
      let addr := get_u32 (4 * (k - NDIRECT)) d in
      addr ← (if addr =? 0 then
                a ← balloc (idev x);
                d ← fdata bp;
                set_fdata bp (put_u32 (4 * (k - NDIRECT)) a d);;
                zoom log_lens (log_write bp);;
                mret a
              else mret addr);
      on_blk (brelse bp);;
      mret addr) Q f c.
Proof.
  intros Ht Hc Hi Hx Hm Ha Hr Hnz Hk HQ. rewrite (io_dev _ _ _ Hx).
  destruct (io_range _ _ _ Hx NSLOT) as [Hir Hiu]; [done|by rewrite ind_slot|]. rewrite ind_slot in Hir, Hiu.
  pose proof (data_above _ _ Hgeo _ Hir) as Hiab.
  assert (Ek : faddr V x k = get_u32 (4 * (k - NDIRECT)) (at_block V (ind_of x))).
  { unfold faddr. rewrite (proj2 (Nat.ltb_ge _ _)), (proj2 (Nat.ltb_lt _ _)) by lia.
    by rewrite (proj2 (Z.eqb_neq _ _)). }
  kstep. eapply wp_open; try done; [by apply (above_dom D sb)|by eapply room_le, Hr; lia|].
  intros bp f1 c1 Ht1 Hc1 Hbp Hk1. kstep. eapply wp_fdata; [done..|]. intros HV Hwf. cbn zeta. rewrite <- Ek. kstep.
  assert (Hno : forall j y, fbuf j f = Some y -> y ∈ (∅ : gset Z)) by (intros j y; by eapply tx_held).
  destruct (Z.eqb_spec (faddr V x k) 0) as [Hz|Hz].
  - kstep. eapply (balloc_run D T sb Hgeo); try done.
    { intros y Hy. assert (y = ind_of x) as -> by set_solver. done. }
    { unfold room in *. rewrite size_union, size_singleton by set_solver. lia. }
    { by eapply avail_free. }
    intros b f2 c2 Ht2 Hc2 Hb Hk2. destruct (alloc_ind D T sb Hgeo f V ∅ bl x b Ht Hx Hb Hnz) as [Eb _].
    pose proof (proj2 Hk2 _ _ Hbp) as Hbp2. kstep. eapply wp_fdata; [done..|]. intros _ Hwf2. rewrite Eb in *.
    kstep. eapply wp_set_fdata; [done..| |].
    { destruct Hwf2 as [Hl Hby]. split; [|by apply Forall_put_u32].
      rewrite length_put_u32; [done|]. rewrite Hl. unfold BSIZEn, NDIRECT, NSLOT in *. lia. }
    intros f3 Ht3 Hb3 Hk3. kstep. eapply (wp_flog_write D T sb Hgeo); [done..|by rewrite Hb3|by apply (loggable_above D)| |].
    { destruct Hb as (Hbr & _). pose proof (data_pos D sb Hgeo b).
      pose proof (alloc_log_length b bl ltac:(lia)). unfold room, FsInode.cost in *. rewrite size_union, size_singleton, size_empty in * by set_solver. lia. }
    intros f4 c4 Ht4 Hc4 Hb4 Hk4. do 2 kstep.
    eapply (wp_close D T sb Hgeo f); try done; [by rewrite Hb4, Hb3|left; apply with_block_in| |].
    { destruct Hk1 as [Hk1 Hk1']. destruct Hk2 as [Hk2 Hk2']. split; [congruence|].
      intros j y Hj. rewrite Hb4, Hb3. by apply Hk2', Hk1'. }
    intros f5 c5 Ht5 Hc5 Hk5. kstep. eapply HQ; [done..|by apply kept_cached|by eapply entry_post].
  - do 2 kstep. eapply (wp_close D T sb Hgeo f); try done; [|].
    { eapply tx_clean; [exact Ht|set_solver]. }
    intros f5 c5 Ht5 Hc5 Hk5. kstep. eapply HQ; [done..|by apply kept_cached|by apply bmap_post_old].
Qed.

Lemma bmap_post_le m m' V x bl V' x' bl' k a :
  (m <= m')%nat -> bmap_post m V x bl V' x' bl' k a -> bmap_post m' V x bl V' x' bl' k a.
Proof. intros Hm [Bo Bg Ba Bn Bd Bold Bv Bc]. split; try done. intros n Ha. apply Bv. by eapply avail_le, Ha; lia. Qed.

Lemma bmap_run f c V bl i x k (Q : Z -> fs S -> ctx -> Prop) :
  tx f V ∅ bl -> held c = [] -> cached f i x -> inode_ok V x -> meta_used V -> avail V 2 ->
  room (cost x bl + 3) ∅ bl -> (k < NSLOT)%nat ->
  (forall a V' x' bl' f' c', tx f' V' ∅ bl' -> held c' = [] -> caches f f' i x' ->
    bmap_post 2 V x bl V' x' bl' k a -> Q a f' c') ->
  wp (bmap i k) Q f c.
Proof.
  intros Ht Hc Hi Hx Hm Ha Hr Hk HQ. unfold bmap. kstep. eapply wp_get_ip; [done|].
  assert (Ha1 : avail V 1) by by eapply avail_le, Ha; lia.
  destruct (Nat.ltb_spec k NDIRECT) as [Hd|Hd].
  - assert (Ek : default 0 (addrs x !! k) = faddr V x k) by (unfold faddr; by rewrite (proj2 (Nat.ltb_lt _ _))).
    cbn zeta. rewrite Ek. destruct (Z.eqb_spec (faddr V x k) 0) as [Hz|Hz].
    + eapply balloc_slot_run; try done; [by eapply room_le, Hr; lia|]. intros b f1 c1 Ht1 Hc1 Hb Hk1.
      eapply HQ; try done. eapply (bmap_post_le 1); [lia|]. by eapply direct_post.
    + kstep. eapply HQ; [done..| |by apply bmap_post_old]. by apply kept_cached.
  - rewrite (proj2 (Nat.ltb_lt _ _)) by (unfold NDIRECT, NINDIRECT, NSLOT in *; lia). cbn zeta. kstep.
    change (default 0 (addrs x !! NDIRECT)) with (ind_of x).
    assert (Hi0 : faddr V x k <> 0 -> ind_of x <> 0).
    { unfold faddr. rewrite (proj2 (Nat.ltb_ge _ _)), (proj2 (Nat.ltb_lt k NSLOT)) by lia.
      by destruct (Z.eqb_spec (ind_of x) 0). }
    destruct (Z.eqb_spec (ind_of x) 0) as [Hz|Hz].
    + eapply balloc_slot_run; try done; [by eapply room_le, Hr; lia|]. intros b f1 c1 Ht1 Hc1 Hb Hk1.
      pose proof (ind_post_new _ _ _ _ _ _ Ht Hx Hb Hz) as Hip. set (x1 := set_addrs _ x) in *.
      assert (Ei : b = ind_of x1).
      { unfold ind_of, x1. cbn. rewrite list_lookup_insert_eq; [done|]. rewrite (io_len _ _ _ Hx). unfold NDIRECT. lia. }
      change (idev x) with (idev x1). rewrite Ei at 1. eapply (entry_run f1); try done.
      * by eapply caches_cached.
      * apply Hip.
      * eapply grow_meta; [apply Hip|done].
      * by apply (ip_avail _ _ _ _ _ _ Hip).
      * pose proof (ip_cost _ _ _ _ _ _ Hip). unfold room in *. lia.
      * apply Hip.
      * intros a V' bl' f' c' Ht' Hc' Hk' Hp. eapply HQ; [done..| |by eapply compose_post].
        by eapply caches_trans.
    + kstep. eapply (entry_run f); try done.
      intros a V' bl' f' c' Ht' Hc' Hk' Hp. eapply HQ; [done..|].
      eapply compose_post; [done..|by apply ind_post_old|done|done].
Qed.

(** A mapped block is found without any change. *)
Lemma bmap_mapped f c V bl i x k (Q : Z -> fs S -> ctx -> Prop) :
  tx f V ∅ bl -> held c = [] -> cached f i x -> inode_ok V x -> room 0 ∅ bl -> (k < NSLOT)%nat -> faddr V x k <> 0 ->
  (forall f' c', tx f' V ∅ bl -> held c' = [] -> kept f f' -> Q (faddr V x k) f' c') ->
  wp (bmap i k) Q f c.
Proof.
  intros Ht Hc Hi Hx Hr Hk Hn HQ. unfold bmap. kstep. eapply wp_get_ip; [done|].
  unfold faddr in *. destruct (Nat.ltb_spec k NDIRECT) as [Hd|Hd].
  - cbn zeta. rewrite (proj2 (Z.eqb_neq _ _)) by done. kstep. by apply HQ.
  - rewrite (proj2 (Nat.ltb_lt k NSLOT)) in * by done.
    rewrite (proj2 (Nat.ltb_lt _ NINDIRECT)) by (unfold NDIRECT, NINDIRECT, NSLOT in *; lia). cbn zeta.
    change (default 0 (addrs x !! NDIRECT)) with (ind_of x).
    destruct (Z.eqb_spec (ind_of x) 0) as [|Hz]; [done|].
    destruct (io_range _ _ _ Hx NSLOT) as [Hir _]; [done|by rewrite ind_slot|]. rewrite ind_slot in Hir.
    rewrite (io_dev _ _ _ Hx). do 3 kstep.
    eapply wp_open; try done; [by apply (above_dom D sb), (data_above D)|].
    intros bp f1 c1 Ht1 Hc1 Hbp Hk1. kstep. eapply wp_fdata; [done..|]. intros HV Hwf. cbn zeta.
    rewrite (proj2 (Z.eqb_neq _ _)) by done. do 3 kstep. eapply (wp_close D T sb Hgeo f); try done.
    + eapply tx_clean; [exact Ht|set_solver].
    + intros j y. by eapply tx_held.
Qed.

(** *** Reading *)

Definition file_bytes V x (off : Z) (n : nat) : bytes :=
  (fun k => fbyte V x (off + Z.of_nat k)) <$> seq 0 n.

Lemma file_bytes_app V x off m n :
  file_bytes V x off (m + n) = file_bytes V x off m ++ file_bytes V x (off + Z.of_nat m) n.
Proof.
  unfold file_bytes. rewrite seq_app, fmap_app. f_equal.
  replace (0 + m)%nat with (m + 0)%nat by lia. rewrite <- (fmap_add_seq m 0 n), <- list_fmap_compose.
  apply list_fmap_ext. intros i k _. unfold compose. f_equal. lia.
Qed.

Lemma block_pos off k : 0 <= k < BSIZE - off mod BSIZE ->
  (off + k) / BSIZE = off / BSIZE /\ (off + k) mod BSIZE = off mod BSIZE + k.
Proof.
  intros Hk. pose proof (Z.div_mod off BSIZE ltac:(done)). pose proof (Z.mod_pos_bound off BSIZE ltac:(done)).
  split; symmetry; [apply (Z.div_unique _ _ _ (off mod BSIZE + k))|apply (Z.mod_unique _ _ (off / BSIZE))]; lia.
Qed.

Lemma block_chunk V x off m :
  0 <= off -> (Z.of_nat m <= BSIZE - off mod BSIZE) -> wf_block (at_block V (faddr V x (Z.to_nat (off / BSIZE)))) ->
  bsub (Z.to_nat (off mod BSIZE)) m (at_block V (faddr V x (Z.to_nat (off / BSIZE)))) = file_bytes V x off m.
Proof.
  intros Ho Hm [Hl _]. pose proof (Z.mod_pos_bound off BSIZE ltac:(done)) as Hmod.
  apply list_eq. intros k. rewrite lookup_bsub. unfold file_bytes. rewrite list_lookup_fmap.
  case_decide as Hk; [|by rewrite lookup_seq_ge by lia]. rewrite lookup_seq_lt by done. cbn.
  unfold fbyte. destruct (block_pos off (Z.of_nat k)) as [-> ->]; [lia|]. unfold nth_byte.
  replace (Z.to_nat (off mod BSIZE + Z.of_nat k)) with (Z.to_nat (off mod BSIZE) + k)%nat by lia.
  destruct (lookup_lt_is_Some_2 (at_block V (faddr V x (Z.to_nat (off / BSIZE))))
    (Z.to_nat (off mod BSIZE) + k)) as [v ->]; [|done].
  rewrite Hl. unfold BSIZE, BSIZEn in *. lia.
Qed.

Lemma slot_of off sz : 0 <= off < sz -> sz <= MAXFILE * BSIZE ->
  (Z.to_nat (off / BSIZE) < NSLOT)%nat /\ Z.of_nat (Z.to_nat (off / BSIZE)) * BSIZE <= off.
Proof.
  unfold MAXFILE, BSIZE, NSLOT. intros Ho Hs. pose proof (Z.div_mod off 512 ltac:(lia)).
  pose proof (Z.mod_pos_bound off 512 ltac:(lia)). pose proof (Z.div_pos off 512). lia.
Qed.

(** The part of a transfer that falls in one block. *)
Lemma chunk_bounds off n : 0 <= off -> 0 < n ->
  let m := Z.min n (BSIZE - off mod BSIZE) in 0 < m <= n /\ m <= BSIZE - off mod BSIZE.
Proof. intros Ho Hn m. pose proof (Z.mod_pos_bound off BSIZE ltac:(done)). unfold m. lia. Qed.

Lemma readi_loop_run fuel f c V bl i x off n (Q : bytes -> fs S -> ctx -> Prop) :
  tx f V ∅ bl -> held c = [] -> cached f i x -> inode_ok V x -> room 0 ∅ bl ->
  0 <= off -> 0 <= n <= Z.of_nat fuel -> off + n <= isize x ->
  (forall f' c', tx f' V ∅ bl -> held c' = [] -> kept f f' -> Q (file_bytes V x off (Z.to_nat n)) f' c') ->
  wp (readi_loop fuel i off n) Q f c.
Proof.
  revert f c off n Q. induction fuel as [|fuel IH]; intros f c off n Q Ht Hc Hi Hx Hr Ho Hn Hs HQ; cbn [readi_loop].
  { replace n with 0 in * by lia. kstep. by apply HQ. }
  destruct (Z.ltb_spec 0 n) as [Hpos|Hz]; [|replace n with 0 in * by lia; kstep; by apply HQ].
  pose proof (io_size _ _ _ Hx) as Hsz. destruct (slot_of off (isize x)) as [Hk Hkb]; [lia..|].
  assert (Hmap : faddr V x (Z.to_nat (off / BSIZE)) <> 0) by (apply (io_mapped _ _ _ Hx); lia).
  destruct (io_range _ _ _ Hx _ (Nat.lt_le_incl _ _ Hk) Hmap) as [Hbr _].
  kstep. eapply wp_get_ip; [done|]. kstep. eapply bmap_mapped; try done.
  intros f1 c1 Ht1 Hc1 Hk1. kstep. rewrite (io_dev _ _ _ Hx).
  eapply wp_open; try done; [by apply (above_dom D sb), (data_above D)|].
  intros bp f2 c2 Ht2 Hc2 Hbp Hk2. cbn zeta. kstep. eapply wp_fdata; [done..|]. intros HV Hwf. kstep.
  eapply (wp_close D T sb Hgeo f); try done; [eapply tx_clean; [exact Ht|set_solver]|by etrans| |].
  { intros j y. by eapply tx_held. }
  intros f3 c3 Ht3 Hc3 Hk3. pose proof (chunk_bounds off n Ho Hpos) as [Hm1 Hm2]. set (m := Z.min _ _) in *.
  assert (E32 : u32 (off + m) = off + m) by (apply u32_id; unfold in_u32, MAXFILE, BSIZE in *; lia).
  kstep. rewrite E32. eapply IH; try done; [|lia..|].
  { eapply caches_cached; [done|]. by apply kept_cached. }
  intros f4 c4 Ht4 Hc4 Hk4. kstep. rewrite block_chunk; [|done|lia|done].
  replace (off + m) with (off + Z.of_nat (Z.to_nat m)) by lia. rewrite <- file_bytes_app.
  replace (Z.to_nat m + Z.to_nat (n - m))%nat with (Z.to_nat n) by lia. apply HQ; try done. by etrans.
Qed.

Variable devsw_read : Z -> option (nat -> Z -> K (fs S) (Z * bytes)).
Variable devsw_write : Z -> option (nat -> bytes -> Z -> K (fs S) Z).

(** The bytes readi transfers: up to the end of the file, or none and -1
    when the offset is past it or offset + count wraps around. *)
Definition read_result V x (off n : Z) : Z * bytes :=
  if (isize x <? off) || (4294967296 <=? off + n) then (-1, [])
  else let n := Z.min n (isize x - off) in (n, file_bytes V x off (Z.to_nat n)).

Lemma readi_run f c V bl i x off n (Q : Z * bytes -> fs S -> ctx -> Prop) :
  tx f V ∅ bl -> held c = [] -> cached f i x -> inode_ok V x -> room 0 ∅ bl ->
  itype x <> T_DEV -> in_u32 off -> in_u32 n ->
  (forall f' c', tx f' V ∅ bl -> held c' = [] -> kept f f' -> Q (read_result V x off n) f' c') ->
  wp (readi devsw_read i off n) Q f c.
Proof.
  intros Ht Hc Hi Hx Hr Hty Ho Hn HQ. pose proof (io_size _ _ _ Hx) as Hsz. unfold in_u32 in *.
  unfold readi. kstep. eapply wp_get_ip; [done|]. rewrite (proj2 (Z.eqb_neq _ _)) by done.
  unfold read_result in HQ. destruct (Z.ltb_spec (isize x) off) as [Hoff|Hoff]; cbn [orb] in *; [kstep; by apply HQ|].
  unfold MAXFILE, BSIZE in Hsz. destruct (Z.leb_spec 4294967296 (off + n)) as [Hw|Hw].
  - assert (Hu : u32 (off + n) = off + n - 4294967296).
    { unfold u32. rewrite <- (Z.mod_add _ (-1)) by done. apply Z.mod_small. lia. }
    rewrite Hu, (proj2 (Z.ltb_lt _ off)) by lia. kstep. by apply HQ.
  - rewrite (u32_id (off + n)) by (unfold in_u32; lia). rewrite (proj2 (Z.ltb_ge _ off)) by lia.
    assert (E : (if isize x <? off + n then u32 (isize x - off) else n) = Z.min n (isize x - off)).
    { destruct (Z.ltb_spec (isize x) (off + n)); [rewrite u32_id by (unfold in_u32; lia)|]; lia. }
    rewrite E. kstep. eapply readi_loop_run; try done; [lia..|].
    intros f1 c1 Ht1 Hc1 Hk1. kstep. rewrite i32_id by lia. by apply HQ.
Qed.

(** C26. readi on a regular file or directory returns min(n, size - off)
    and exactly those bytes of the file, or -1 when off is past the end or
    off + n overflows 32 bits; no block, no inode and no log entry changes. *)
Theorem readi_correct f c V bl i x off n :
  tx f V ∅ bl -> held c = [] -> icache f !! i = Some x -> inode_ok V x -> room 0 ∅ bl ->
  itype x <> T_DEV -> in_u32 off -> in_u32 n ->
  wp (readi devsw_read i off n) (fun r f' c' => r = read_result V x off n /\
    tx f' V ∅ bl /\ held c' = [] /\ icache f' = icache f) f c.
Proof.
  intros Ht Hc Hi Hx Hr Hty Ho Hn. eapply readi_run; try done. intros f' c' Ht' Hc' [Hk _]. done.
Qed.

(** *** Writing *)

(** The blocks a write of [n] bytes at [off] touches. *)
Definition nblk (off n : Z) : nat := if 0 <? n then Z.to_nat ((off + n - 1) / BSIZE - off / BSIZE + 1) else 0%nat.

Record write_post V x bl V' x' bl' (off n : Z) (src : bytes) : Prop := {
  wr_ok : inode_ok V' x';
  wr_grow : grow V x V' x';
  wr_bytes : forall o, off <= o < off + n -> fbyte V' x' o = nth_byte src (Z.to_nat (o - off));
  wr_mapped : forall o, off <= o < off + n -> faddr V' x' (Z.to_nat (o / BSIZE)) <> 0;
  wr_rest : forall o, 0 <= o < MAXFILE * BSIZE -> o < off \/ off + n <= o ->
    faddr V x (Z.to_nat (o / BSIZE)) <> 0 -> fbyte V' x' o = fbyte V x o;
  wr_still : (forall o, off <= o < off + n -> faddr V x (Z.to_nat (o / BSIZE)) <> 0) -> x' = x;
  wr_avail : forall k, avail V (2 * nblk off n + k) -> avail V' k;
  wr_cost : (length bl' + cost x' bl' <= length bl + cost x bl + nblk off n)%nat
}.

(** Overwriting a block of the file. *)
Section overwrite.
Context (V : blocks) (x : inode) (k : nat) (d : bytes).
Hypothesis Hx : inode_ok V x.
Hypothesis Hk : (k < NSLOT)%nat.
Hypothesis Hnz : faddr V x k <> 0.
Let V' : blocks := <[faddr V x k := d]> V.

Lemma overwrite_not_ind : faddr V x k <> ind_of x.
Proof. intros E. rewrite <- (ind_slot V) in E. apply (io_inj _ _ _ Hx) in E; [lia|lia|done..]. Qed.

Lemma overwrite_faddr j : faddr V' x j = faddr V x j.
Proof.
  pose proof overwrite_not_ind as Hni. unfold V'. set (a := faddr V x k) in *. unfold faddr.
  by rewrite at_block_insert, decide_False by congruence.
Qed.

Lemma overwrite_used y : 0 <= y < sb_size sb -> used V' y = used V y.
Proof.
  intros Hy. apply (used_insert D); [done| |done]. apply data_not_bitmap.
  destruct (io_range _ _ _ Hx k) as [Hr _]; [lia|done|lia].
Qed.

Lemma overwrite_ok : inode_ok V' x.
Proof.
  destruct Hx as [Hdev Hlen Hsz Hrng Hinj Hmap]. split; try done.
  - intros j Hj. rewrite overwrite_faddr. intros Hn. destruct (Hrng j Hj Hn) as [Hr Hu]. split; [done|].
    rewrite overwrite_used; [done|]. pose proof (data_pos D sb Hgeo (faddr V x j)). lia.
  - intros i j Hi Hj. rewrite !overwrite_faddr. by apply Hinj.
  - intros j Hj. rewrite overwrite_faddr. by apply Hmap.
Qed.

Lemma overwrite_grow : grow V x V' x.
Proof.
  split; [by destruct x|..].
  - intros j Hj _. apply overwrite_faddr.
  - intros j Hj E. by rewrite overwrite_faddr.
  - intros y Hy. by rewrite overwrite_used.
  - intros y Hy Hu Hb Hf. unfold V'. rewrite at_block_insert, decide_False; [done|]. intros ->.
    by apply (Hf k); [lia|].
Qed.

Lemma overwrite_fbyte o : 0 <= o < MAXFILE * BSIZE ->
  fbyte V' x o = if decide (Z.to_nat (o / BSIZE) = k) then nth_byte d (Z.to_nat (o mod BSIZE)) else fbyte V x o.
Proof.
  intros Ho. destruct (slot_of o (MAXFILE * BSIZE)) as [Hs _]; [done..|].
  unfold fbyte. rewrite overwrite_faddr. unfold V'. rewrite at_block_insert.
  case_decide as E; case_decide as E2; try done.
  - exfalso. apply E2, (io_inj _ _ _ Hx); [lia|lia|by rewrite E|done].
  - by destruct E; rewrite E2.
Qed.

End overwrite.

Lemma avail_used V V' n : (forall y, 0 <= y < sb_size sb -> used V' y = used V y) -> avail V n -> avail V' n.
Proof.
  intros Hu (l & H1 & H2 & H3). exists l. split; [done|]. split; [done|].
  eapply Forall_impl; [exact H3|]. cbv beta. intros y [Hy Huy]. split; [done|]. by rewrite Hu.
Qed.

Lemma cost_with x a bl :
  (length (with_block a bl) + cost x (with_block a bl) <= length bl + cost x bl + unlogged a bl)%nat.
Proof.
  rewrite length_with_block. unfold FsInode.cost.
  pose proof (unlogged_mono (sb_bmapstart sb) bl _ (with_block_sub a bl)).
  pose proof (ind_cost_mono x bl _ (with_block_sub a bl)). lia.
Qed.

Lemma nblk_chunk off n m : 0 <= off -> 0 < n -> m = Z.min n (BSIZE - off mod BSIZE) ->
  nblk off m = 1%nat /\ nblk off n = Datatypes.S (nblk (off + m) (n - m)).
Proof.
  intros Ho Hn Hm. pose proof (Z.mod_pos_bound off BSIZE ltac:(done)). pose proof (Z.div_mod off BSIZE ltac:(done)).
  pose proof (Z.div_pos off BSIZE Ho ltac:(done)).
  assert (E1 : nblk off m = 1%nat).
  { unfold nblk. rewrite (proj2 (Z.ltb_lt _ _)) by lia.
    destruct (block_pos off (m - 1)) as [E _]; [lia|]. replace (off + m - 1) with (off + (m - 1)) by lia.
    rewrite E. lia. }
  split; [done|]. unfold nblk in *. rewrite (proj2 (Z.ltb_lt 0 n)) by lia. rewrite (proj2 (Z.ltb_lt 0 m)) in E1 by lia.
  destruct (Z.ltb_spec 0 (n - m)) as [Hlt|Hge].
  - assert (m = BSIZE - off mod BSIZE) by lia.
    assert (E : (off + m) / BSIZE = off / BSIZE + 1).
    { symmetry. apply (Z.div_unique _ _ _ 0); lia. }
    rewrite E. replace (off + m + (n - m) - 1) with (off + n - 1) by lia.
    assert (off / BSIZE + 1 <= (off + n - 1) / BSIZE).
    { rewrite <- E. apply Z.div_le_mono; [done|lia]. }
    lia.
  - replace n with m by lia. lia.
Qed.

Lemma nth_byte_bput off bs l i : (off + length bs <= length l)%nat ->
  nth_byte (bput off bs l) i =
    if decide (off <= i < off + length bs)%nat then nth_byte bs (i - off) else nth_byte l i.
Proof. intros Hl. unfold nth_byte. rewrite lookup_bput by done. by case_decide. Qed.

Lemma write_step V x bl V1 x1 bl1 a off m cs :
  inode_ok V x -> 0 <= off -> 0 < m <= BSIZE - off mod BSIZE -> off + m <= MAXFILE * BSIZE ->
  length cs = Z.to_nat m -> wf_block (at_block V1 a) ->
  bmap_post 2 V x bl V1 x1 bl1 (Z.to_nat (off / BSIZE)) a ->
  write_post V x bl (<[a := bput (Z.to_nat (off mod BSIZE)) cs (at_block V1 a)]> V1) x1 (with_block a bl1) off m cs.
Proof.
  intros Hx Ho Hm Hmax Hcs [Hl _] [Bo Bg Ba Bn Bd Bold Bv Bc]. set (k := Z.to_nat (off / BSIZE)) in *.
  destruct (slot_of off (MAXFILE * BSIZE)) as [Hk _]; [lia|done|]. fold k in Hk.
  pose proof (Z.mod_pos_bound off BSIZE ltac:(done)) as Hmod. subst a.
  assert (Hfit : (Z.to_nat (off mod BSIZE) + length cs <= length (at_block V1 (faddr V1 x1 k)))%nat).
  { rewrite Hl, Hcs. unfold BSIZEn, BSIZE in *. lia. }
  set (d := bput _ _ _). pose proof (fun j => overwrite_faddr V1 x1 k d Bo Hk Bn j) as Hfa.
  pose proof (fun o => overwrite_fbyte V1 x1 k d Bo Hk Bn o) as Hfb.
  pose proof (overwrite_ok V1 x1 k d Bo Hk Bn) as Hok. set (V2 := <[_ := d]> V1) in *.
  assert (Hpos : forall o, off <= o < off + m -> Z.to_nat (o / BSIZE) = k /\ o mod BSIZE = off mod BSIZE + (o - off)).
  { intros o Hoo. destruct (block_pos off (o - off)) as [E1 E2]; [lia|].
    replace (off + (o - off)) with o in * by lia. unfold k. by rewrite E1. }
  split; try done.
  - apply (grow_trans D sb Hgeo V x V1 x1); try done. by apply overwrite_grow.
  - intros o Hoo. destruct (Hpos o Hoo) as [E1 E2]. rewrite Hfb, decide_True by (done || lia).
    unfold d. rewrite nth_byte_bput by done. rewrite E2, decide_True by lia. f_equal. lia.
  - intros o Hoo. destruct (Hpos o Hoo) as [-> _]. by rewrite Hfa.
  - intros o Hoo Hout Hold. rewrite Hfb by done. case_decide as E.
    + rewrite E in Hold. destruct (Bold Hold) as (-> & -> & ->). unfold d, fbyte. rewrite nth_byte_bput, E by done.
      rewrite decide_False; [done|]. rewrite Hcs. intros Hin. unfold k in E.
      pose proof (Z.div_mod off BSIZE ltac:(done)). pose proof (Z.div_mod o BSIZE ltac:(done)).
      pose proof (Z.div_pos off BSIZE Ho ltac:(done)). pose proof (Z.div_pos o BSIZE ltac:(lia) ltac:(done)).
      pose proof (Z.mod_pos_bound o BSIZE ltac:(done)). unfold BSIZE in *. lia.
    + destruct (slot_of o (MAXFILE * BSIZE)) as [Hj _]; [done..|]. unfold fbyte.
      rewrite (gr_keep _ _ _ _ _ Bg) by (done || lia). by rewrite Bd.
  - intros Hall. specialize (Hall off ltac:(lia)). by apply Bold.
  - intros n Ha. eapply avail_used; [|apply Bv].
    + intros y Hy. by apply overwrite_used.
    + destruct (nblk_chunk off m m) as [E _]; [done|lia|lia|]. by rewrite E in Ha.
  - destruct (nblk_chunk off m m) as [E _]; [done|lia|lia|]. rewrite E.
    pose proof (cost_with x1 (faddr V1 x1 k) bl1). lia.
Qed.

Lemma write_post_nil V x bl off src : inode_ok V x -> write_post V x bl V x bl off 0 src.
Proof.
  intros Hx. split; try done; [apply grow_refl|lia|lia|].
  unfold nblk. cbn. lia.
Qed.

Lemma write_post_trans V x bl V1 x1 bl1 V2 x2 bl2 off m n src :
  inode_ok V x -> 0 <= off -> 0 < n -> m = Z.min n (BSIZE - off mod BSIZE) -> off + n <= MAXFILE * BSIZE ->
  n <= Z.of_nat (length src) ->
  write_post V x bl V1 x1 bl1 off m (take (Z.to_nat m) src) ->
  write_post V1 x1 bl1 V2 x2 bl2 (off + m) (n - m) (drop (Z.to_nat m) src) ->
  write_post V x bl V2 x2 bl2 off n src.
Proof.
  intros Hx Ho Hn Hm Hmax Hsrc [Ak Ag Ab Am Ar As Av Ac] [Bk Bg Bb Bm Br Bs Bv Bc].
  destruct (chunk_bounds off n Ho Hn) as [Hmn _]. rewrite <- Hm in Hmn.
  destruct (nblk_chunk off n m Ho Hn Hm) as [E1 E2].
  assert (Hslot : forall o, 0 <= o < MAXFILE * BSIZE -> (Z.to_nat (o / BSIZE) <= NSLOT)%nat).
  { intros o Hoo. destruct (slot_of o (MAXFILE * BSIZE)); [done..|lia]. }
  assert (Hkeep : forall o, 0 <= o < MAXFILE * BSIZE -> faddr V x (Z.to_nat (o / BSIZE)) <> 0 ->
    faddr V1 x1 (Z.to_nat (o / BSIZE)) <> 0).
  { intros o Hoo Hne. by rewrite (gr_keep _ _ _ _ _ Ag) by (by try apply Hslot). }
  split; try done.
  - by apply (grow_trans D sb Hgeo V x V1 x1).
  - intros o Hoo. destruct (Z.lt_ge_cases o (off + m)) as [Hlt|Hge].
    + rewrite Br by (lia || (apply Am; lia)). rewrite Ab by lia. unfold nth_byte. by rewrite lookup_take_lt by lia.
    + rewrite Bb by lia. unfold nth_byte. rewrite lookup_drop. do 2 f_equal. lia.
  - intros o Hoo. destruct (Z.lt_ge_cases o (off + m)) as [Hlt|Hge]; [|apply Bm; lia].
    rewrite (gr_keep _ _ _ _ _ Bg); [apply Am; lia|apply Hslot; lia|apply Am; lia].
  - intros o Hoo Hout Hne. rewrite Br; [apply Ar; lia || done|done|lia|by apply Hkeep].
  - intros Hall. rewrite Bs; [apply As|]; intros o Hoo; [|apply Hkeep; [lia|]]; apply Hall; lia.
  - intros k Ha. apply Bv, Av. rewrite E1. eapply avail_le, Ha. rewrite E2. lia.
  - lia.
Qed.

Lemma writei_loop_run fuel f c V bl i x src off n (Q : Z -> fs S -> ctx -> Prop) :
  tx f V ∅ bl -> held c = [] -> cached f i x -> inode_ok V x -> meta_used V ->
  avail V (2 * nblk off n) -> room (cost x bl + nblk off n + 2) ∅ bl ->
  0 <= off -> 0 <= n <= Z.of_nat fuel -> off + n <= MAXFILE * BSIZE ->
  n <= Z.of_nat (length src) -> Forall is_byte src ->
  (forall V' x' bl' f' c', tx f' V' ∅ bl' -> held c' = [] -> caches f f' i x' ->
    write_post V x bl V' x' bl' off n src -> Q (off + n) f' c') ->
  wp (writei_loop fuel i src off n) Q f c.
Proof.
  revert f c V bl x src off n Q.
  induction fuel as [|fuel IH]; intros f c V bl x src off n Q Ht Hc Hi Hx Hm Ha Hr Ho Hn Hmax Hsrc Hby HQ;
    cbn [writei_loop].
  { replace n with 0 in * by lia. kstep. replace off with (off + 0) at 1 by lia.
    eapply HQ; [done..| |by apply write_post_nil]. by apply kept_cached. }
  destruct (Z.ltb_spec 0 n) as [Hpos|Hz].
  2:{ replace n with 0 in * by lia. kstep. replace off with (off + 0) at 1 by lia.
      eapply HQ; [done..| |by apply write_post_nil]. by apply kept_cached. }
  destruct (slot_of off (MAXFILE * BSIZE)) as [Hk _]; [lia|done|].
  pose proof (chunk_bounds off n Ho Hpos) as [Hm1 Hm2]. set (m := Z.min _ _) in *.
  destruct (nblk_chunk off n m Ho Hpos eq_refl) as [E1 E2].
  kstep. eapply wp_get_ip; [done|]. kstep. rewrite (io_dev _ _ _ Hx).
  eapply bmap_run; try done; [by eapply avail_le, Ha; lia|by eapply room_le, Hr; lia|].
  intros a V1 x1 bl1 f1 c1 Ht1 Hc1 Hk1 Hp. pose proof Hp as [Bo Bg Ba Bn Bd Bold Bv Bc].
  destruct (io_range _ _ _ Bo _ (Nat.lt_le_incl _ _ Hk)) as [Hbr _]; [by rewrite Ba|]. rewrite Ba in Hbr.
  pose proof (data_above _ _ Hgeo _ Hbr) as Hab. unfold room in Hr. rewrite size_empty in Hr.
  kstep. eapply wp_open; try done; [by apply (above_dom D sb)|unfold room; rewrite size_empty; lia|].
  intros bp f2 c2 Ht2 Hc2 Hbp Hk2. fold m. cbn zeta. kstep. eapply wp_fdata; [done..|]. intros HV Hwf.
  apply wp_seq3. assert (Hcs : length (take (Z.to_nat m) src) = Z.to_nat m) by (rewrite length_take; lia).
  eapply (wp_update D T sb Hgeo f1); try done; [| |unfold room; rewrite size_empty; lia| |].
  { destruct Hwf as [Hl Hb]. split; [|by apply Forall_bput; [apply Forall_take|]].
    rewrite length_bput; [done|]. rewrite Hl, Hcs. pose proof (Z.mod_pos_bound off BSIZE ltac:(done)). unfold BSIZEn, BSIZE in *. lia. }
  { by apply (loggable_above D). }
  { intros j y. by eapply tx_held. }
  intros f3 c3 Ht3 Hc3 Hk3. assert (E32 : u32 (off + m) = off + m).
  { apply u32_id. unfold in_u32, MAXFILE, BSIZE in *. lia. }
  rewrite E32. pose proof (write_step _ _ _ _ _ _ _ off m _ Hx Ho ltac:(lia) ltac:(lia) Hcs Hwf Hp) as Hw.
  pose proof Hw as [Wok Wg _ _ _ _ Wv Wc].
  assert (Hi1 : cached f1 i x1) by by eapply caches_cached.
  pose proof (caches_cached _ _ _ _ _ Hi1 (kept_cached _ _ _ _ Hi1 Hk3)) as Hi3.
  eapply (IH f3); [done..|by eapply grow_meta| | |lia|lia|lia|rewrite length_drop; lia|by apply Forall_drop|].
  - apply Wv. rewrite E1. eapply avail_le, Ha. lia.
  - unfold room. rewrite size_empty. lia.
  - intros V' x' bl' f' c' Ht' Hc' Hk' Hw'. replace (off + m + (n - m)) with (off + n) by lia.
    eapply HQ; [done..| |by eapply write_post_trans].
    unfold caches in *. rewrite Hk', (proj1 Hk3), Hk1. by rewrite list_insert_insert_eq.
Qed.

End files.
