(* ===== verification/FsWrite.v ===== *)
(** * writei and iupdate

    iupdate makes the inode on disk equal to the cached one and touches no
    other inode; writei changes the contents of one file. *)

From stdpp Require Import base numbers strings gmap list.
From S2P Require Import Prelude Kmonad Kstring Mmu Locks Block Log LogProof Fs FsTx FsInode FsFile.

Local Open Scope Z_scope.

Section write.
Context {S : Type} `{BlockLayer S}.
Context (D : blocks) (T : list dwrite) (sb : superblock) (Hgeo : geom sb D).
Context (Hsmall : sb_size sb <= BPB).
Implicit Types (f : fs S) (V : blocks) (L : gset Z) (bl : list Z) (c : ctx) (x : inode).

Abbreviation tx := (tx D T sb).
Abbreviation used := (used sb).
Abbreviation is_bitmap := (is_bitmap sb).
Abbreviation meta_used := (meta_used sb).
Abbreviation inode_ok := (inode_ok sb).
Abbreviation grow := (grow sb).
Abbreviation avail := (avail sb).
Abbreviation cost := (cost sb).

(** The inode with number [n] on disk, read over [y] as ilock does. *)
Definition disk_inode V (n : Z) (y : inode) : inode :=
  load_dinode (dinode_off n) (at_block V (IBLOCK n sb)) y.

(** The disk has the cached inode. *)
Definition synced V x : Prop := disk_inode V (inum x) x = x.

Definition inum_ok (n : Z) : Prop := 0 <= n < sb_ninodes sb.

Lemma IBLOCK_eq n : inum_ok n -> IBLOCK n sb = n / IPB + sb_inodestart sb.
Proof.
  intros Hn. destruct Hgeo. unfold inum_ok, IBLOCK in *. apply u32_id. unfold in_u32, data_start in *.
  pose proof (Z.div_pos n IPB). assert (n / IPB <= sb_ninodes sb / IPB) by (apply Z.div_le_mono; unfold IPB; lia).
  pose proof (Z.div_pos (sb_size sb) BPB). unfold BPB, IPB, LOGSIZE, MAXOPBLOCKS in *. lia.
Qed.

Lemma IBLOCK_range n : inum_ok n -> sb_inodestart sb <= IBLOCK n sb < sb_bmapstart sb.
Proof.
  intros Hn. rewrite IBLOCK_eq by done. destruct Hgeo. unfold inum_ok in *.
  pose proof (Z.div_pos n IPB). assert (n / IPB <= sb_ninodes sb / IPB) by (apply Z.div_le_mono; unfold IPB; lia).
  unfold IPB in *. lia.
Qed.

Lemma IBLOCK_above n : inum_ok n -> sb_inodestart sb <= IBLOCK n sb < sb_size sb.
Proof.
  intros Hn. pose proof (IBLOCK_range n Hn). destruct Hgeo. unfold data_start in *.
  pose proof (Z.div_pos (sb_size sb) BPB). unfold BPB in *. lia.
Qed.

Lemma same_slot n m : inum_ok n -> inum_ok m -> IBLOCK n sb = IBLOCK m sb -> n mod IPB = m mod IPB -> n = m.
Proof.
  intros Hn Hm. rewrite !IBLOCK_eq by done. intros E1 E2.
  rewrite (Z.div_mod n IPB), (Z.div_mod m IPB) by done. lia.
Qed.

(** The view after iupdate of [x]. *)
Definition store_view V x : blocks :=
  <[IBLOCK (inum x) sb := store_dinode (dinode_off (inum x)) x (at_block V (IBLOCK (inum x) sb))]> V.

Lemma iupdate_run f c V bl i x (Q : unit -> fs S -> ctx -> Prop) :
  tx f V ∅ bl -> held c = [] -> cached f i x -> idev x = 1 -> inum_ok (inum x) -> length (addrs x) = 13%nat ->
  room 1 ∅ bl ->
  (forall f' c', tx f' (store_view V x) ∅ (with_block (IBLOCK (inum x) sb) bl) -> held c' = [] -> kept f f' ->
    Q tt f' c') ->
  wp (iupdate i) Q f c.
Proof.
  intros Ht Hc Hi Hdev Hn Hlen Hr HQ. unfold iupdate. kstep. eapply wp_get_ip; [done|]. do 3 kstep.
  rewrite (tx_sb _ _ _ _ _ _ _ Ht), Hdev. pose proof (IBLOCK_above _ Hn) as Hab.
  eapply wp_open; try done; [by apply (above_dom D sb)|by eapply room_le, Hr; lia|].
  intros bp f1 c1 Ht1 Hc1 Hbp Hk1. kstep. eapply wp_fdata; [done..|]. intros HV Hwf.
  eapply (wp_update D T sb Hgeo f); try done.
  - apply wf_store_dinode; [apply dinode_off_bound|done..].
  - by apply (loggable_above D).
  - intros j y. by eapply tx_held.
Qed.

Lemma store_view_same f V L bl x y : tx f V L bl -> inum_ok (inum x) -> inode_typed x ->
  disk_inode (store_view V x) (inum x) y =
    mkinode (idev y) (inum y) (iref y) (ilk y) (ivalid y) (itype x) (major x) (minor x) (nlink x) (isize x) (addrs x).
Proof.
  intros Ht Hn Hty. unfold disk_inode, store_view. rewrite at_block_insert, decide_True by done.
  apply load_store_dinode; [|done]. destruct (tx_at _ _ _ _ _ _ _ (IBLOCK (inum x) sb) Ht) as [_ [-> _]].
  - by apply (above_dom D sb), IBLOCK_above.
  - apply dinode_off_bound.
Qed.

Lemma store_view_other f V L bl x n y : tx f V L bl -> inum_ok (inum x) -> inum_ok n -> n <> inum x ->
  length (addrs x) = 13%nat -> disk_inode (store_view V x) n y = disk_inode V n y.
Proof.
  intros Ht Hx Hn Hne Hlen. unfold disk_inode, store_view. rewrite at_block_insert. case_decide as E; [|done].
  rewrite E. apply load_store_other; [|done|].
  - destruct (tx_at _ _ _ _ _ _ _ (IBLOCK (inum x) sb) Ht) as [_ [-> _]]; [|apply dinode_off_bound].
    by apply (above_dom D sb), IBLOCK_above.
  - apply dinode_off_disjoint. intros E2. by apply Hne, same_slot.
Qed.

(** iupdate writes the inode through: afterwards the inode on disk has
    the fields of the cached one, every other inode on disk and every block
    outside the inode's block are unchanged, and the block is logged. *)
Theorem iupdate_correct f c V bl i x :
  tx f V ∅ bl -> held c = [] -> icache f !! i = Some x -> idev x = 1 -> inum_ok (inum x) -> inode_typed x ->
  room 1 ∅ bl ->
  wp (iupdate i) (fun _ f' c' => exists V', tx f' V' ∅ (with_block (IBLOCK (inum x) sb) bl) /\
    held c' = [] /\ icache f' = icache f /\ synced V' x /\
    (forall n y, inum_ok n -> n <> inum x -> disk_inode V' n y = disk_inode V n y) /\
    (forall b, b <> IBLOCK (inum x) sb -> at_block V' b = at_block V b)) f c.
Proof.
  intros Ht Hc Hi Hdev Hn Hty Hr. eapply iupdate_run; try done; [by apply ty_len|].
  intros f' c' Ht' Hc' [Hk _]. exists (store_view V x). repeat (split; [done|]). split; [|split].
  - unfold synced. rewrite (store_view_same f V ∅ bl) by done. by destruct x.
  - intros n y Hn' Hne. apply (store_view_other f V ∅ bl); [done..|by apply ty_len].
  - intros b Hb. unfold store_view. by rewrite at_block_insert, decide_False.
Qed.

(** Changing an inode block changes no file. *)
Section meta.
Context (V : blocks) (b : Z) (d : bytes).
Hypothesis Hb : b < sb_bmapstart sb.
Let V' : blocks := <[b := d]> V.

Lemma meta_used_eq y : 0 <= y < sb_size sb -> used V' y = used V y.
Proof. intros Hy. apply (used_insert D); [done| |done]. unfold FsTx.is_bitmap. lia. Qed.

Lemma meta_not_data : b < data_start sb.
Proof.
  destruct Hgeo. unfold data_start. pose proof (Z.div_pos (sb_size sb) BPB). unfold BPB in *. lia.
Qed.

Context (x : inode).
Hypothesis Hx : inode_ok V x.

Lemma meta_at j : (j <= NSLOT)%nat -> faddr V x j <> 0 -> at_block V' (faddr V x j) = at_block V (faddr V x j).
Proof.
  intros Hj Hn. destruct (io_range _ _ _ Hx j Hj Hn) as [Hr _]. pose proof meta_not_data.
  unfold V'. rewrite at_block_insert, decide_False; [done|lia].
Qed.

Lemma meta_faddr j : faddr V' x j = faddr V x j.
Proof.
  unfold faddr. destruct (Nat.ltb j NDIRECT), (Nat.ltb j NSLOT); try done.
  destruct (Z.eqb_spec (ind_of x) 0) as [|Hz]; [done|]. rewrite <- (ind_slot V) in *. by rewrite meta_at.
Qed.

Lemma meta_ok : inode_ok V' x.
Proof.
  destruct Hx as [Hdev Hlen Hsz Hrng Hinj Hmap]. split; try done.
  - intros j Hj. rewrite meta_faddr. intros Hn. destruct (Hrng j Hj Hn) as [Hr Hu]. split; [done|].
    rewrite meta_used_eq; [done|]. pose proof (data_pos D sb Hgeo (faddr V x j)). lia.
  - intros i j Hi Hj. rewrite !meta_faddr. by apply Hinj.
  - intros j Hj. rewrite meta_faddr. by apply Hmap.
Qed.

Lemma meta_fbyte o : 0 <= o < MAXFILE * BSIZE -> faddr V x (Z.to_nat (o / BSIZE)) <> 0 -> fbyte V' x o = fbyte V x o.
Proof.
  intros Ho Hn. destruct (slot_of o (MAXFILE * BSIZE)) as [Hs _]; [done..|].
  unfold fbyte. rewrite meta_faddr, meta_at; [done|lia|done].
Qed.

End meta.

(** The contents of a file. *)
Definition content V x : bytes := file_bytes V x 0 (Z.to_nat (isize x)).

(** The contents after writing the first [n] bytes of [src] at [off]. *)
Definition overwrite (old : bytes) (off n : Z) (src : bytes) : bytes :=
  take (Z.to_nat off) old ++ take (Z.to_nat n) src ++ drop (Z.to_nat (off + n)) old.

Lemma lookup_file_bytes V x off n k :
  file_bytes V x off n !! k = if decide (k < n)%nat then Some (fbyte V x (off + Z.of_nat k)) else None.
Proof.
  unfold file_bytes. rewrite list_lookup_fmap. case_decide; [by rewrite lookup_seq_lt|].
  by rewrite lookup_seq_ge by lia.
Qed.

Lemma length_file_bytes V x off n : length (file_bytes V x off n) = n.
Proof. unfold file_bytes. by rewrite length_fmap, length_seq. Qed.

Lemma overwrite_content V x V' x' off n src :
  0 <= off <= isize x -> 0 <= n <= Z.of_nat (length src) -> isize x' = Z.max (isize x) (off + n) ->
  (forall o, off <= o < off + n -> fbyte V' x' o = nth_byte src (Z.to_nat (o - off))) ->
  (forall o, 0 <= o < isize x -> o < off \/ off + n <= o -> fbyte V' x' o = fbyte V x o) ->
  content V' x' = overwrite (content V x) off n src.
Proof.
  intros Ho Hn Hs Hin Hout. apply list_eq. intros k. unfold content, overwrite. rewrite lookup_file_bytes.
  rewrite lookup_app, lookup_take, lookup_file_bytes.
  destruct (decide (k < Z.to_nat off)%nat) as [Hk|Hk].
  - rewrite !decide_True by lia. cbn. f_equal. apply Hout; lia.
  - cbn. rewrite length_take, length_file_bytes, lookup_app, lookup_take.
    replace (k - Z.to_nat off `min` Z.to_nat (isize x))%nat with (k - Z.to_nat off)%nat by lia.
    destruct (decide (k - Z.to_nat off < Z.to_nat n)%nat) as [Hkn|Hkn].
    + rewrite decide_True by lia. destruct (lookup_lt_is_Some_2 src (k - Z.to_nat off)) as [v Hv]; [lia|].
      rewrite Hv. f_equal. rewrite Hin by lia. unfold nth_byte.
      replace (Z.to_nat (0 + Z.of_nat k - off)) with (k - Z.to_nat off)%nat by lia. by rewrite Hv.
    + rewrite length_take. rewrite lookup_drop, lookup_file_bytes.
      replace (Z.to_nat (off + n) + (k - Z.to_nat off - Z.to_nat n `min` length src))%nat with k by lia.
      case_decide as H1; case_decide as H2; try lia; [|done]. f_equal. apply Hout; lia.
Qed.

Lemma set_isize_faddr V x v j : faddr V (set_isize v x) j = faddr V x j.
Proof. done. Qed.

Lemma set_isize_ok V x v :
  inode_ok V x -> 0 <= v <= MAXFILE * BSIZE -> (forall k, Z.of_nat k * BSIZE < v -> faddr V x k <> 0) ->
  inode_ok V (set_isize v x).
Proof. intros [Hdev Hlen Hsz Hrng Hinj Hmap] Hv Hk. by split. Qed.

(** What writei did: [V'], [x'] and [bl'] from [V], [x] and [bl]. *)
Record writei_post V x bl V' x' bl' (off n : Z) (src : bytes) : Prop := {
  wi_ok : inode_ok V' x';
  wi_x : x' = set_isize (isize x') (set_addrs (addrs x') x);
  wi_size : isize x' = Z.max (isize x) (off + n);
  wi_content : content V' x' = overwrite (content V x) off n src;
  wi_synced : synced V x -> synced V' x';
  wi_inodes : forall m y, inum_ok m -> m <> inum x -> disk_inode V' m y = disk_inode V m y;
  wi_used : forall y, 0 <= y < sb_size sb -> used V y = true -> used V' y = true;
  wi_frame : forall y, data_start sb <= y < sb_size sb -> used V y = true ->
    (forall j, (j <= NSLOT)%nat -> faddr V x j <> y) -> at_block V' y = at_block V y;
  wi_log : (length bl' <= length bl + nblk off n + 3)%nat
}.

Lemma typed_addrs V x : inode_ok V x -> Forall in_u32 (addrs x).
Proof.
  intros Hx. apply Forall_lookup. intros k a Hk. pose proof (lookup_lt_Some _ _ _ Hk) as Hlt.
  rewrite (io_len _ _ _ Hx) in Hlt. unfold in_u32. destruct (decide (a = 0)) as [->|Hn]; [lia|].
  assert (exists j, (j <= NSLOT)%nat /\ faddr V x j = a) as (j & Hj & E).
  { destruct (decide (k = 12%nat)) as [->|Hk'].
    - exists NSLOT. split; [done|]. rewrite ind_slot. unfold ind_of, NDIRECT. by rewrite Hk.
    - exists k. unfold NSLOT. split; [lia|]. unfold faddr. rewrite (proj2 (Nat.ltb_lt _ _)) by (unfold NDIRECT; lia).
      by rewrite Hk. }
  destruct (io_range _ _ _ Hx j Hj) as [Hr _]; [congruence|]. rewrite E in Hr.
  pose proof (data_pos D sb Hgeo a). destruct Hgeo. lia.
Qed.

Lemma cost_le x bl : (cost x bl <= 2)%nat.
Proof. unfold FsInode.cost, unlogged, ind_cost. do 2 case_decide; lia. Qed.

Section post.
Context (V : blocks) (x : inode) (bl : list Z) (V1 : blocks) (x1 : inode) (bl1 : list Z).
Context (off n : Z) (src : bytes).
Hypothesis Hx : inode_ok V x.
Hypothesis Hmeta : meta_used V.
Hypothesis Hnum : inum_ok (inum x).
Hypothesis Hoff : 0 <= off <= isize x.
Hypothesis Hn : 0 <= n <= Z.of_nat (length src).
Hypothesis Hmax : off + n <= MAXFILE * BSIZE.
Hypothesis Hw : write_post sb V x bl V1 x1 bl1 off n src.

(** The loop of writei leaves the blocks of the inodes alone. *)
Lemma loop_inodes m y : inum_ok m -> disk_inode V1 m y = disk_inode V m y.
Proof.
  intros Hm. unfold disk_inode. f_equal. pose proof (IBLOCK_range m Hm) as Hr.
  pose proof (meta_not_data (IBLOCK m sb) ltac:(lia)) as Hd. pose proof (geo_data _ _ Hgeo).
  pose proof (geo_inodes _ _ Hgeo). pose proof (geo_logstart _ _ Hgeo).
  pose proof (geo_nlog _ _ Hgeo). unfold LOGSIZE, MAXOPBLOCKS in *.
  apply (gr_frame _ _ _ _ _ (wr_grow _ _ _ _ _ _ _ _ _ _ Hw)); [lia|apply Hmeta; lia|unfold FsTx.is_bitmap; lia|].
  intros j Hj E. destruct (io_range _ _ _ Hx j Hj) as [Hrj _]; lia.
Qed.

Lemma old_mapped o : 0 <= o < isize x -> faddr V x (Z.to_nat (o / BSIZE)) <> 0.
Proof.
  intros Ho. apply (io_mapped _ _ _ Hx). pose proof (io_size _ _ _ Hx).
  destruct (slot_of o (isize x)); [done|lia|lia].
Qed.

Lemma loop_frame y : data_start sb <= y < sb_size sb -> used V y = true ->
  (forall j, (j <= NSLOT)%nat -> faddr V x j <> y) -> at_block V1 y = at_block V y.
Proof.
  intros Hy Hu Hf. pose proof (data_pos D sb Hgeo y).
  apply (gr_frame _ _ _ _ _ (wr_grow _ _ _ _ _ _ _ _ _ _ Hw)); [lia|done|apply data_not_bitmap; lia|done].
Qed.

Lemma loop_log : (length bl1 <= length bl + nblk off n + 2)%nat.
Proof. pose proof (wr_cost _ _ _ _ _ _ _ _ _ _ Hw). pose proof (cost_le x bl). lia. Qed.

Lemma post_still : off + n <= isize x -> writei_post V x bl V1 x1 bl1 off n src.
Proof.
  intros Hle. pose proof Hw as [Wok Wg Wb Wm Wr Ws Wv Wc].
  assert (x1 = x) as E by (apply Ws; intros o Ho; apply old_mapped; lia).
  pose proof (io_size _ _ _ Hx). split; try done.
  - rewrite E. by destruct x.
  - rewrite E. lia.
  - apply overwrite_content; try done; [rewrite E; lia|]. intros o Ho Hout. apply Wr; [lia|done|by apply old_mapped].
  - unfold synced. rewrite E. intros Hs. by rewrite loop_inodes.
  - intros m y Hm _. by apply loop_inodes.
  - apply Wg.
  - apply loop_frame.
  - pose proof loop_log. lia.
Qed.

Hypothesis Hty : inode_typed x.
Hypothesis Hgrow : isize x < off + n.
Let x2 : inode := set_isize (off + n) x1.

Lemma grown_x : x1 = set_addrs (addrs x1) x.
Proof. apply Hw. Qed.

Lemma grown_ok : inode_ok V1 x2.
Proof.
  pose proof Hw as [Wok Wg Wb Wm Wr Ws Wv Wc]. apply set_isize_ok; [done|lia|].
  intros k Hk. destruct (Z.lt_ge_cases (Z.of_nat k * BSIZE) (isize x)) as [Hlt|Hge].
  - rewrite (gr_keep _ _ _ _ _ Wg); [|unfold NSLOT, MAXFILE, BSIZE in *; lia|]; by apply (io_mapped _ _ _ Hx).
  - specialize (Wm (Z.of_nat k * BSIZE) ltac:(lia)). rewrite Z.div_mul, Nat2Z.id in Wm by done. done.
Qed.

Lemma grown_typed : inode_typed x2.
Proof.
  pose proof (typed_addrs _ _ grown_ok) as Ha. pose proof (io_len _ _ _ grown_ok) as Hl.
  destruct Hty as [H1 H2 H3 H4 H5 H6 H7]. split; try done; [unfold x2; rewrite grown_x; done..|].
  cbn. unfold in_u32, MAXFILE, BSIZE in *. lia.
Qed.

Lemma post_grow f : tx f V1 ∅ bl1 ->
  writei_post V x bl (store_view V1 x2) x2 (with_block (IBLOCK (inum x) sb) bl1) off n src.
Proof.
  intros Ht. pose proof Hw as [Wok Wg Wb Wm Wr Ws Wv Wc]. pose proof grown_x as E1.
  assert (En : inum x2 = inum x) by (unfold x2; by rewrite E1).
  pose proof (IBLOCK_range _ Hnum) as Hib. pose proof (io_size _ _ _ Hx).
  assert (Hfb : forall o, 0 <= o < MAXFILE * BSIZE -> faddr V1 x1 (Z.to_nat (o / BSIZE)) <> 0 ->
    fbyte (store_view V1 x2) x2 o = fbyte V1 x1 o).
  { intros o Ho Hf. unfold store_view. rewrite En. apply (meta_fbyte V1 (IBLOCK (inum x) sb) _ ltac:(lia) x2 grown_ok); done. }
  assert (Hks : forall o, 0 <= o < MAXFILE * BSIZE -> (Z.to_nat (o / BSIZE) <= NSLOT)%nat).
  { intros o Ho. destruct (slot_of o (MAXFILE * BSIZE)); [done..|lia]. }
  split.
  - unfold store_view. rewrite En. apply meta_ok; [lia|apply grown_ok].
  - unfold x2. rewrite E1. by destruct x.
  - cbn. lia.
  - apply overwrite_content; try done; [cbn; lia| |].
    + intros o Ho. rewrite Hfb; [by apply Wb|lia|by apply Wm].
    + intros o Ho Hout. rewrite Hfb; [|lia|].
      * apply Wr; [lia|done|by apply old_mapped].
      * rewrite (gr_keep _ _ _ _ _ Wg); [|apply Hks; lia|]; by apply old_mapped.
  - intros _. unfold synced. rewrite (store_view_same f V1 ∅ bl1); [by destruct x2|done|by rewrite En|apply grown_typed].
  - intros m y Hm Hne. rewrite (store_view_other f V1 ∅ bl1); [by apply loop_inodes|done|by rewrite En|done|by rewrite En|].
    apply (io_len _ _ _ grown_ok).
  - intros y Hy Hu. unfold store_view. rewrite En, meta_used_eq by (done || lia). by apply Wg.
  - intros y Hy Hu Hf. unfold store_view. pose proof (meta_not_data (IBLOCK (inum x) sb) ltac:(lia)).
    rewrite En, at_block_insert, decide_False by lia. by apply loop_frame.
  - rewrite length_with_block. pose proof (unlogged_le (IBLOCK (inum x) sb) bl1). pose proof loop_log. lia.
Qed.

End post.

Variable devsw_write : Z -> option (nat -> bytes -> Z -> K (fs S) Z).

Lemma writei_run f c V bl i x src off n (Q : Z -> fs S -> ctx -> Prop) :
  tx f V ∅ bl -> held c = [] -> cached f i x -> inode_ok V x -> inode_typed x -> inum_ok (inum x) ->
  meta_used V -> itype x <> T_DEV -> avail V (2 * nblk off n) -> (length bl + nblk off n + 4 < NBUF)%nat ->
  0 <= off <= isize x -> 0 <= n <= Z.of_nat (length src) -> off + n <= MAXFILE * BSIZE -> Forall is_byte src ->
  (forall V' x' bl' f' c', tx f' V' ∅ bl' -> held c' = [] -> caches f f' i x' ->
    writei_post V x bl V' x' bl' off n src -> Q n f' c') ->
  wp (writei devsw_write i src off n) Q f c.
Proof.
  intros Ht Hc Hi Hx Hty Hnum Hm Hdev Ha Hr Ho Hn Hmax Hby HQ. pose proof (io_size _ _ _ Hx) as Hsz.
  assert (Eu : u32 (off + n) = off + n) by (apply u32_id; unfold in_u32, MAXFILE, BSIZE in *; lia).
  assert (E32 : i32 n = n) by (apply i32_id; unfold MAXFILE, BSIZE in *; lia).
  unfold writei. kstep. eapply wp_get_ip; [done|]. rewrite (proj2 (Z.eqb_neq _ _)) by done.
  rewrite Eu, !(proj2 (Z.ltb_ge _ _)) by lia. cbn [orb]. kstep. pose proof (cost_le x bl).
  eapply (writei_loop_run D T sb Hgeo Hsmall); try done; [unfold room; rewrite size_empty; lia|lia|lia|lia|].
  intros V1 x1 bl1 f1 c1 Ht1 Hc1 Hk1 Hw. pose proof (caches_cached _ _ _ _ _ Hi Hk1) as Hi1.
  pose proof (wr_grow _ _ _ _ _ _ _ _ _ _ Hw) as Wg. pose proof (gr_x _ _ _ _ _ Wg) as Ex.
  kstep. eapply wp_get_ip; [done|]. assert (Es : isize x1 = isize x) by (by rewrite Ex). rewrite Es.
  destruct (Z.ltb_spec (isize x) (off + n)) as [Hlt|Hge].
  - rewrite (proj2 (Z.ltb_lt _ _)) by lia. cbn [andb]. do 2 kstep. eapply wp_upd_ip; [done|].
    set (x2 := set_isize (off + n) x1). set (f2 := set_icache _ f1).
    assert (En : inum x2 = inum x) by (unfold x2; by rewrite Ex).
    pose proof (grown_ok V x bl V1 x1 bl1 off n src Hx Ho Hmax Hw Hlt) as Hok2.
    assert (Hi2 : cached f2 i x2).
    { unfold cached, f2. cbn. apply list_lookup_insert_eq. by eapply lookup_lt_Some. }
    eapply (iupdate_run f2); [by apply tx_set_icache|done|done|apply (io_dev _ _ _ Hok2)|by rewrite En|apply (io_len _ _ _ Hok2)| |].
    + pose proof (wr_cost _ _ _ _ _ _ _ _ _ _ Hw). unfold room. rewrite size_empty. lia.
    + intros f3 c3 Ht3 Hc3 Hk3. kstep. rewrite E32, En in *. eapply HQ; [done..| |].
      * unfold caches in *. rewrite (proj1 Hk3). unfold f2. cbn. rewrite Hk1. by rewrite list_insert_insert_eq.
      * by apply (post_grow V x bl V1 x1 bl1 off n src Hx Hm Hnum Ho Hn Hmax Hw Hty Hlt f1).
  - rewrite andb_false_r. do 2 kstep. rewrite E32. eapply HQ; [done..|]. by apply post_still.
Qed.

(** C8. writei of n bytes at off (within the file or at its end, and within
    the largest file) returns n; the file's contents become the old ones
    with these bytes in place, the size grows as needed, the inode keeps
    its invariant and stays equal to its copy on disk, every other inode and
    every used block outside the file is unchanged, and the transaction
    grows by at most the blocks touched plus three. *)
Theorem writei_correct f c V bl i x src off n :
  tx f V ∅ bl -> held c = [] -> icache f !! i = Some x -> inode_ok V x -> inode_typed x -> inum_ok (inum x) ->
  meta_used V -> itype x <> T_DEV -> avail V (2 * nblk off n) -> (length bl + nblk off n + 4 < NBUF)%nat ->
  0 <= off <= isize x -> 0 <= n <= Z.of_nat (length src) -> off + n <= MAXFILE * BSIZE -> Forall is_byte src ->
  wp (writei devsw_write i src off n) (fun r f' c' => r = n /\ held c' = [] /\ exists V' x' bl',
    tx f' V' ∅ bl' /\ icache f' = <[i := x']> (icache f) /\ writei_post V x bl V' x' bl' off n src) f c.
Proof.
  intros. eapply writei_run; try done. intros V' x' bl' f' c' Ht' Hc' Hk' Hw'. split; [done|]. split; [done|].
  by exists V', x', bl'.
Qed.

(** A write that starts past the end of the file, or would end past the
    largest file, or overflows 32 bits, returns -1 and changes nothing. *)
Theorem writei_rejects f c i x src off n :
  icache f !! i = Some x -> itype x <> T_DEV -> in_u32 off -> in_u32 n -> isize x <= MAXFILE * BSIZE ->
  isize x < off \/ MAXFILE * BSIZE < off + n ->
  writei devsw_write i src off n f c = Ret (-1) f c.
Proof.
  intros Hi Hdev Ho Hn Hsz Hbad.
  assert (E : get_ip i f c = Ret x f c) by (unfold get_ip, mbind, K_bind, gets; by rewrite Hi).
  unfold writei, mbind, K_bind. rewrite E, (proj2 (Z.eqb_neq _ _)) by done. unfold in_u32, MAXFILE, BSIZE in *.
  destruct (Z.ltb_spec (isize x) off) as [|Hoff]; [done|]. cbn.
  destruct (Z.lt_ge_cases (off + n) 4294967296) as [Hlt|Hge].
  - rewrite u32_id by (unfold in_u32; lia). rewrite (proj2 (Z.ltb_ge _ off)) by lia.
    by rewrite (proj2 (Z.ltb_lt _ (off + n))) by lia.
  - assert (Hu : u32 (off + n) = off + n - 4294967296).
    { unfold u32. rewrite <- (Z.mod_add _ (-1)) by done. apply Z.mod_small. lia. }
    by rewrite Hu, (proj2 (Z.ltb_lt _ off)) by lia.
Qed.

End write.
