(* ===== verification/FsDir.v ===== *)
(** * Directories

    A directory is a file of 16-byte entries.  dirlookup finds the first
    entry in use with the name; dirlink adds a name to the map from names to
    inode numbers that a directory stands for and leaves the other names. *)

From stdpp Require Import base numbers strings gmap list.
From S2P Require Import Prelude Kmonad Kstring Mmu Locks Block Log LogProof Fs FsTx FsInode FsFile FsWrite.

Local Open Scope Z_scope.

(** ** The entries of a directory *)

(** The name a buffer of DIRSIZ bytes stands for. *)
Definition fname (s : bytes) : bytes := cstring (fun k => nth_byte s (Z.to_nat k)) DIRSIZ.

Definition dents (bs : bytes) : list bytes := (fun k => bsub (16 * k) 16 bs) <$> seq 0 (length bs / 16).

(** The entry is in use and has the name. *)
Definition names_ent (name d : bytes) : bool := negb (de_inum d =? 0) && (namecmp name (de_name d) =? 0).

Definition dir_find (name : bytes) (es : list bytes) : option nat := find_idx (names_ent name) es.

(** The directory as a map from names to inode numbers. *)
Definition dir_get (es : list bytes) (name : bytes) : option Z := k ← dir_find name es; de_inum <$> es !! k.

(** The first unused entry, or the end. *)
Definition dir_free (es : list bytes) : nat := default (length es) (find_idx (fun d => de_inum d =? 0) es).

Definition put_ent (k : nat) (d : bytes) (es : list bytes) : list bytes := take k es ++ d :: drop (S k) es.

Lemma lookup_dents bs k : dents bs !! k = if decide (k < length bs / 16)%nat then Some (bsub (16 * k) 16 bs) else None.
Proof.
  unfold dents. rewrite list_lookup_fmap. case_decide; [by rewrite lookup_seq_lt|by rewrite lookup_seq_ge by lia].
Qed.

Lemma length_dents bs : length (dents bs) = (length bs / 16)%nat.
Proof. unfold dents. by rewrite length_fmap, length_seq. Qed.

Lemma byte_fun s : Forall is_byte s -> byte_memory (fun k => nth_byte s (Z.to_nat k)).
Proof.
  intros Hs x. unfold nth_byte. destruct (s !! Z.to_nat x) as [b|] eqn:E; cbn; [by eapply Forall_lookup_1 in E|unfold is_byte; lia].
Qed.

Lemma namecmp_zero s t : Forall is_byte s -> Forall is_byte t -> namecmp s t = 0 <-> fname s = fname t.
Proof. intros Hs Ht. unfold namecmp, fname. apply strncmp_zero; by apply byte_fun. Qed.

Lemma find_idx_app {A} (f : A -> bool) l1 l2 : find_idx f (l1 ++ l2) =
  match find_idx f l1 with Some i => Some i | None => (fun i => (length l1 + i)%nat) <$> find_idx f l2 end.
Proof.
  induction l1 as [|x l1 IH]; cbn; [by destruct (find_idx f l2)|]. destruct (f x); [done|]. rewrite IH.
  destruct (find_idx f l1); [done|]. by destruct (find_idx f l2).
Qed.

(** ** The entry dirlink writes *)

Lemma cstring_strncpy t n : cstring (fun k => nth_byte (strncpy_ref t n) (Z.to_nat k)) n = cstring t n.
Proof.
  revert t. induction n as [|n IH]; intros t; [done|]. cbn [cstring strncpy_ref]. destruct (Z.eqb_spec (t 0) 0) as [E|E].
  - reflexivity.
  - cbn [Z.to_nat nth_byte lookup list_lookup]. change (nth_byte (t 0 :: strncpy_ref (fun i => t (i + 1)) n) 0) with (t 0).
    rewrite (proj2 (Z.eqb_neq _ _)) by done. f_equal. rewrite <- (IH (fun i => t (i + 1))). apply cstring_ext. intros i Hi.
    replace (Z.to_nat (i + 1)) with (S (Z.to_nat i)) by lia. done.
Qed.

Lemma make_dirent_name name n : fname (de_name (make_dirent name n)) = fname name.
Proof. unfold make_dirent, de_name, fname. change (drop 2 (le_bytes 2 n ++ ?l)) with l. apply cstring_strncpy. Qed.

Lemma make_dirent_inum name n : de_inum (make_dirent name n) = u16 n.
Proof. unfold de_inum, get_u16, make_dirent. change (bsub 0 2 (le_bytes 2 n ++ ?l)) with (le_bytes 2 n). by rewrite le_val_bytes. Qed.

Lemma length_make_dirent name n : length (make_dirent name n) = 16%nat.
Proof. unfold make_dirent. rewrite length_app, length_strncpy_ref. done. Qed.

Lemma make_dirent_bytes name n : Forall is_byte name -> Forall is_byte (make_dirent name n).
Proof.
  intros Hb. apply Forall_app. split; [apply le_bytes_is_byte|]. apply byte_fun in Hb. revert Hb.
  generalize (fun k => nth_byte name (Z.to_nat k)). generalize DIRSIZ. intros m. induction m as [|m IH]; intros t Ht; cbn [strncpy_ref]; [constructor|].
  destruct (_ =? _); [apply Forall_replicate; unfold is_byte; lia|]. constructor; [apply Ht|]. apply IH. intros x. apply Ht.
Qed.

(** ** Putting an entry *)

Lemma names_ent_eq name other d : Forall is_byte name -> Forall is_byte other -> Forall is_byte d -> fname name = fname other ->
  names_ent name d = names_ent other d.
Proof.
  intros Hn Ho Hd E. unfold names_ent. f_equal. assert (Hd2 : Forall is_byte (de_name d)) by (by apply Forall_drop).
  destruct (Z.eqb_spec (namecmp name (de_name d)) 0) as [E1|E1], (Z.eqb_spec (namecmp other (de_name d)) 0) as [E2|E2]; try done; exfalso.
  - apply E2. rewrite namecmp_zero in E1 |- * by done. congruence.
  - apply E1. rewrite namecmp_zero in E2 |- * by done. congruence.
Qed.

Lemma names_made name n other : Forall is_byte name -> Forall is_byte other -> u16 n <> 0 ->
  names_ent other (make_dirent name n) = bool_decide (fname other = fname name).
Proof.
  intros Hn Ho Hz. unfold names_ent. rewrite make_dirent_inum, (proj2 (Z.eqb_neq _ _)) by done. cbn [negb andb].
  assert (Hd : Forall is_byte (de_name (make_dirent name n))) by (by apply Forall_drop, make_dirent_bytes).
  rewrite <- (make_dirent_name name n). apply eq_true_iff_eq. rewrite Z.eqb_eq, bool_decide_eq_true. by apply namecmp_zero.
Qed.

Lemma find_idx_all {A} (f : A -> bool) l : (forall x, x ∈ l -> f x = false) -> find_idx f l = None.
Proof. intros H. apply find_idx_None. intros i x Hx. apply H. by eapply list_elem_of_lookup_2. Qed.

Lemma dir_free_cons d es : dir_free (d :: es) = if de_inum d =? 0 then 0%nat else S (dir_free es).
Proof. unfold dir_free. cbn [find_idx]. destruct (_ =? _); [done|]. by destruct (find_idx _ es). Qed.

Lemma dir_free_le es : (dir_free es <= length es)%nat.
Proof. unfold dir_free. destruct (find_idx _ es) eqn:E; [apply find_idx_lt in E; change (n <= length es)%nat; lia|done]. Qed.

(** The entry replaced by dirlink, if any, is unused. *)
Lemma dir_free_unused es d : es !! dir_free es = Some d -> de_inum d = 0.
Proof.
  unfold dir_free. destruct (find_idx _ es) as [k|] eqn:E; cbn.
  - intros Hk. apply find_idx_Some in E as [(x & Hx & Hf) _]. rewrite Hk in Hx. injection Hx as <-. by apply Z.eqb_eq.
  - intros Hk%lookup_lt_Some. lia.
Qed.

Lemma dir_get_cons d es name : dir_get (d :: es) name = if names_ent name d then Some (de_inum d) else dir_get es name.
Proof. unfold dir_get, dir_find. cbn [find_idx]. destruct (names_ent name d); [done|]. by destruct (find_idx _ es). Qed.

Lemma dir_get_app es1 es2 name : dir_get (es1 ++ es2) name =
  match dir_get es1 name with Some n => Some n | None => dir_get es2 name end.
Proof. induction es1 as [|d es1 IH]; [done|]. cbn [app]. rewrite !dir_get_cons. by destruct (names_ent name d). Qed.

Lemma dir_get_put es name n other : Forall (Forall is_byte) es -> Forall is_byte name -> Forall is_byte other -> u16 n <> 0 ->
  dir_find name es = None ->
  dir_get (put_ent (dir_free es) (make_dirent name n) es) other =
    if decide (fname other = fname name) then Some (u16 n) else dir_get es other.
Proof.
  intros Hes Hn Ho Hz Hf. unfold put_ent. rewrite dir_get_app, dir_get_cons, names_made, make_dirent_inum by done.
  assert (Hrest : dir_get es other = match dir_get (take (dir_free es) es) other with Some m => Some m | None => dir_get (drop (S (dir_free es)) es) other end).
  { rewrite <- (take_drop (dir_free es) es) at 1. rewrite dir_get_app. destruct (dir_get (take _ es) other); [done|].
    destruct (es !! dir_free es) as [d|] eqn:E.
    - rewrite (drop_S es d (dir_free es) E), dir_get_cons. unfold names_ent. by rewrite (dir_free_unused es d E).
    - apply lookup_ge_None in E. by rewrite !drop_ge by lia. }
  destruct (decide (fname other = fname name)) as [E|E].
  - rewrite bool_decide_eq_true_2 by done. replace (dir_get (take (dir_free es) es) other) with (@None Z); [done|]. symmetry.
    unfold dir_get, dir_find. rewrite find_idx_all; [done|]. intros d Hd. assert (Hin : d ∈ es) by (eapply elem_of_take in Hd as (i & Hi & _); by eapply list_elem_of_lookup_2).
    rewrite (names_ent_eq other name d) by (done || by eapply Forall_forall in Hes).
    apply list_elem_of_lookup in Hin as [i Hi]. apply (proj1 (find_idx_None _ _) Hf i d Hi).
  - rewrite bool_decide_eq_false_2 by done. by rewrite Hrest.
Qed.

Lemma dents_overwrite bs k d : (length bs mod 16 = 0)%nat -> (k <= length bs / 16)%nat -> length d = 16%nat ->
  dents (overwrite bs (16 * Z.of_nat k) 16 d) = put_ent k d (dents bs).
Proof.
  intros Hm Hk Hd. pose proof (Nat.div_mod_eq (length bs) 16) as Hlen. rewrite Hm, Nat.add_0_r in Hlen. set (N := (length bs / 16)%nat) in *.
  assert (Ho : overwrite bs (16 * Z.of_nat k) 16 d = take (16 * k) bs ++ d ++ drop (16 * k + 16) bs).
  { unfold overwrite. replace (Z.to_nat (16 * Z.of_nat k)) with (16 * k)%nat by lia. replace (Z.to_nat (16 * Z.of_nat k + 16)) with (16 * k + 16)%nat by lia.
    by rewrite (take_ge d) by (rewrite Hd; done). }
  assert (Hl : length (overwrite bs (16 * Z.of_nat k) 16 d) = (16 * Nat.max N (S k))%nat).
  { rewrite Ho, !length_app, length_take, length_drop. lia. }
  apply list_eq. intros j. rewrite lookup_dents, Hl. rewrite (Nat.mul_comm 16), Nat.div_mul by lia. unfold put_ent.
  assert (Hlk : forall o, overwrite bs (16 * Z.of_nat k) 16 d !! o =
    if decide (16 * k <= o < 16 * k + 16)%nat then d !! (o - 16 * k)%nat else bs !! o).
  { intros o. rewrite Ho. destruct (decide (o < 16 * k)%nat).
    - rewrite decide_False, lookup_app_l, lookup_take, decide_True by (rewrite ?length_take; lia). done.
    - rewrite lookup_app_r, length_take, Nat.min_l by (rewrite ?length_take; lia). case_decide.
      + by rewrite lookup_app_l by lia.
      + rewrite lookup_app_r, lookup_drop by lia. f_equal. lia. }
  assert (Hsub : forall j, j <> k -> bsub (16 * j) 16 (overwrite bs (16 * Z.of_nat k) 16 d) = bsub (16 * j) 16 bs).
  { intros j' Hj. apply list_eq. intros i. rewrite !lookup_bsub, Hlk. case_decide; [|done]. by rewrite decide_False by lia. }
  assert (Ht : length (take k (dents bs)) = k) by (rewrite length_take, length_dents; fold N; lia).
  destruct (decide (j < k)%nat) as [Hjk|Hjk].
  - rewrite decide_True by lia. rewrite lookup_app_l by lia. rewrite lookup_take, decide_True, lookup_dents, decide_True by (fold N; lia).
    by rewrite Hsub by lia.
  - rewrite lookup_app_r, Ht by lia. destruct (decide (j = k)) as [->|Hne].
    + rewrite Nat.sub_diag, decide_True by lia. change (Some ?a = (?b :: _) !! 0%nat) with (Some a = Some b). f_equal. apply list_eq. intros i. rewrite lookup_bsub, Hlk. case_decide.
      * rewrite decide_True by lia. f_equal. lia.
      * symmetry. apply lookup_ge_None. lia.
    + replace (j - k)%nat with (S (j - S k)) by lia. rewrite lookup_cons_ne_0 by done. cbn [Nat.pred]. rewrite lookup_drop, lookup_dents.
      replace (S k + (j - S k))%nat with j by lia. fold N. rewrite Hsub by done. case_decide; case_decide; try lia; done.
Qed.

Section dir.
Context {S : Type} `{BlockLayer S}.
Context (D : blocks) (T : list dwrite) (sb : superblock) (Hgeo : geom sb D).
Context (Hsmall : sb_size sb <= BPB).
Context (devsw_read : Z -> option (nat -> Z -> K (fs S) (Z * bytes))) (devsw_write : Z -> option (nat -> bytes -> Z -> K (fs S) Z)).
Implicit Types (f : fs S) (V : blocks) (L : gset Z) (bl : list Z) (c : ctx) (x : inode).

Abbreviation tx := (tx D T sb).
Abbreviation inode_ok := (inode_ok sb).

(** The entries of the directory [x]. *)
Definition entries V x : list bytes := dents (content V x).

Definition is_dir V x : Prop := inode_ok V x /\ itype x = T_DIR /\ isize x mod 16 = 0.

Lemma entries_bytes f V L bl x : tx f V L bl -> Forall (Forall is_byte) (entries V x).
Proof.
  intros Ht. unfold entries, dents. apply Forall_fmap, Forall_true. intros k. apply Forall_bsub. unfold content, file_bytes.
  apply Forall_fmap, Forall_true. intros j. unfold fbyte. apply byte_fun. unfold at_block.
  destruct (V !! _) as [d|] eqn:E; cbn [default]; [|constructor]. by apply (tx_wf D T sb f V L bl) in E as [_ Hb].
Qed.

Lemma length_entries V x : is_dir V x -> 16 * Z.of_nat (length (entries V x)) = isize x.
Proof.
  intros (Hx & _ & Hm). unfold entries. rewrite length_dents. unfold content. rewrite length_file_bytes.
  pose proof (io_size _ _ _ Hx). rewrite Nat2Z.inj_div, Z2Nat.id by lia. change (Z.of_nat 16) with 16. Z.div_mod_to_equations; lia.
Qed.

Lemma read_entry V x k d : is_dir V x -> entries V x !! k = Some d -> read_result V x (16 * Z.of_nat k) 16 = (16, d).
Proof.
  intros Hd Hk. pose proof (length_entries V x Hd) as Hl. destruct Hd as (Hx & _ & Hm). pose proof (io_size _ _ _ Hx) as Hs.
  pose proof (lookup_lt_Some _ _ _ Hk) as Hlt. unfold MAXFILE, BSIZE in Hs. unfold read_result.
  rewrite (proj2 (Z.ltb_ge _ _)), (proj2 (Z.leb_gt _ _)) by lia. cbn [orb]. rewrite Z.min_l by lia. f_equal.
  unfold entries in Hk. rewrite lookup_dents in Hk. case_decide; [|done]. injection Hk as <-. apply list_eq. intros i.
  rewrite lookup_bsub. unfold content. rewrite !lookup_file_bytes. change (Z.to_nat 16) with 16%nat. case_decide; [|done].
  rewrite decide_True by lia. f_equal. f_equal. lia.
Qed.

Lemma dirlookup_from_run V bl x dp name fuel : is_dir V x -> room 0 ∅ bl -> forall k f c,
  (length (entries V x) < k + fuel)%nat -> (k <= length (entries V x))%nat ->
  tx f V ∅ bl -> held c = [] -> cached f dp x ->
  exists f' c', tx f' V ∅ bl /\ held c' = [] /\ kept f f' /\
    dirlookup_from devsw_read fuel dp name (16 * Z.of_nat k) f c =
    match dir_find name (drop k (entries V x)) with
    | None => Ret None f' c'
    | Some j => (i ← iget (idev x) (default 0 (de_inum <$> entries V x !! (k + j)%nat)); mret (Some (i, 16 * Z.of_nat (k + j)))) f' c'
    end.
Proof.
  intros Hd Hr. pose proof (length_entries V x Hd) as Hl. pose proof (io_size _ _ _ (proj1 Hd)) as Hs. unfold MAXFILE, BSIZE in Hs.
  induction fuel as [|fuel IH]; intros k f c Hf Hk Ht Hc Hi; [lia|]. cbn [dirlookup_from].
  assert (Eg : get_ip dp f c = Ret x f c) by (unfold get_ip, mbind, K_bind, gets; by rewrite Hi).
  unfold mbind at 1, K_bind at 1. rewrite Eg. destruct (Z.ltb_spec (16 * Z.of_nat k) (isize x)) as [Hlt|Hge].
  - destruct (lookup_lt_is_Some_2 (entries V x) k) as [d Hd']; [lia|].
    assert (Hrd : wp (readi devsw_read dp (16 * Z.of_nat k) sizeof_dirent) (fun r f' c' => r = (16, d) /\ tx f' V ∅ bl /\ held c' = [] /\ kept f f') f c).
    { eapply (readi_run D T sb Hgeo); try done; [apply Hd|by destruct Hd as (_ & -> & _)|unfold in_u32; lia|].
      intros f' c' Ht' Hc' Hk'. split_and!; try done. by apply read_entry. }
    apply wp_inv in Hrd as ([? ?] & f1 & c1 & Er & [= -> ->] & Ht1 & Hc1 & Hk1). unfold mbind at 1, K_bind at 1. rewrite Er. cbn [negb].
    change (negb (16 =? sizeof_dirent)) with false. cbn iota. rewrite (drop_S _ _ _ Hd'). unfold dir_find. cbn [find_idx]. fold (dir_find name).
    assert (Hnext : names_ent name d = false -> exists f' c', tx f' V ∅ bl /\ held c' = [] /\ kept f f' /\
      dirlookup_from devsw_read fuel dp name (u32 (16 * Z.of_nat k + sizeof_dirent)) f1 c1 =
      match Datatypes.S <$> dir_find name (drop (Datatypes.S k) (entries V x)) with
      | None => Ret None f' c'
      | Some j => (i ← iget (idev x) (default 0 (de_inum <$> entries V x !! (k + j)%nat)); mret (Some (i, 16 * Z.of_nat (k + j)))) f' c'
      end).
    { intros _. destruct (IH (Datatypes.S k) f1 c1) as (f' & c' & H1 & H2 & H3 & H4); try done; [lia|lia|unfold cached; by rewrite (proj1 Hk1)|].
      exists f', c'. split_and!; [done|done|by etrans|]. rewrite u32_id by (unfold in_u32, sizeof_dirent; lia).
      replace (16 * Z.of_nat k + sizeof_dirent) with (16 * Z.of_nat (Datatypes.S k)) by (unfold sizeof_dirent; lia). rewrite H4.
      destruct (dir_find name _) as [j|]; [|done]. cbn [fmap option_fmap option_map]. by replace (Datatypes.S k + j)%nat with (k + Datatypes.S j)%nat by lia. }
    unfold names_ent in Hnext |- *. destruct (Z.eqb_spec (de_inum d) 0) as [E0|E0]; cbn [negb andb] in *; [by apply Hnext|].
    destruct (Z.eqb_spec (namecmp name (de_name d)) 0) as [E1|E1]; [|by apply Hnext].
    exists f1, c1. rewrite Nat.add_0_r, Hd'. done.
  - rewrite drop_ge by lia. exists f, c. done.
Qed.

Lemma dir_slot_run V bl x dp fuel (Q : Z -> fs S -> ctx -> Prop) : is_dir V x -> room 0 ∅ bl -> forall k f c,
  (length (entries V x) < k + fuel)%nat -> (k <= length (entries V x))%nat ->
  tx f V ∅ bl -> held c = [] -> cached f dp x ->
  (forall f' c', tx f' V ∅ bl -> held c' = [] -> kept f f' -> Q (16 * Z.of_nat (k + dir_free (drop k (entries V x)))) f' c') ->
  wp (dir_slot devsw_read fuel dp (16 * Z.of_nat k)) Q f c.
Proof.
  intros Hd Hr. pose proof (length_entries V x Hd) as Hl. pose proof (io_size _ _ _ (proj1 Hd)) as Hs. unfold MAXFILE, BSIZE in Hs.
  induction fuel as [|fuel IH]; intros k f c Hf Hk Ht Hc Hi HQ; [lia|]. cbn [dir_slot].
  kstep. eapply wp_get_ip; [done|]. destruct (Z.ltb_spec (16 * Z.of_nat k) (isize x)) as [Hlt|Hge].
  - destruct (lookup_lt_is_Some_2 (entries V x) k) as [d Hd']; [lia|]. rewrite (drop_S _ _ _ Hd') in HQ.
    kstep. eapply (readi_run D T sb Hgeo); try done; [apply Hd|by destruct Hd as (_ & -> & _)|unfold in_u32; lia|].
    intros f1 c1 Ht1 Hc1 Hk1. change sizeof_dirent with 16. rewrite (read_entry V x k d Hd Hd'). cbn [negb]. change (16 =? 16) with true. cbn [negb].
    rewrite dir_free_cons in HQ. destruct (Z.eqb_spec (de_inum d) 0) as [E0|E0].
    + kstep. specialize (HQ f1 c1 Ht1 Hc1 Hk1). by rewrite Nat.add_0_r in HQ.
    + replace (16 * Z.of_nat k + 16) with (16 * Z.of_nat (Datatypes.S k)) by lia. apply IH; try done; [lia|lia|unfold cached; by rewrite (proj1 Hk1)|].
      intros f' c' Ht' Hc' Hk'. specialize (HQ f' c' Ht' Hc' ltac:(by etrans)). by rewrite Nat.add_succ_r in HQ.
  - kstep. rewrite drop_ge in HQ by lia. specialize (HQ f c Ht Hc ltac:(done)). cbn in HQ. by rewrite Nat.add_0_r in HQ.
Qed.

Lemma dir_fuel V x : is_dir V x -> (length (entries V x) < Z.to_nat (isize x / sizeof_dirent) + 1)%nat.
Proof.
  intros Hd. pose proof (length_entries V x Hd) as Hl. unfold sizeof_dirent. rewrite <- Hl, Z.mul_comm, Z.div_mul by done. lia.
Qed.

Lemma dirlookup_run V bl x dp name f c : is_dir V x -> room 0 ∅ bl -> tx f V ∅ bl -> held c = [] -> cached f dp x ->
  exists f' c', tx f' V ∅ bl /\ held c' = [] /\ kept f f' /\
    dirlookup devsw_read dp name f c =
    match dir_find name (entries V x) with
    | None => Ret None f' c'
    | Some j => (i ← iget (idev x) (default 0 (de_inum <$> entries V x !! j)); mret (Some (i, 16 * Z.of_nat j))) f' c'
    end.
Proof.
  intros Hd Hr Ht Hc Hi. unfold dirlookup. assert (Eg : get_ip dp f c = Ret x f c) by (unfold get_ip, mbind, K_bind, gets; by rewrite Hi).
  unfold mbind at 1, K_bind at 1. rewrite Eg. destruct Hd as (Hx & Hty & Hm). rewrite Hty. cbn [Z.eqb negb].
  apply (dirlookup_from_run V bl x dp name _ ltac:(done) Hr 0 f c); [by apply dir_fuel|lia|done..].
Qed.

(** dirlink of a new name. *)
Lemma dirlink_run V bl x dp name n f c : is_dir V x -> tx f V ∅ bl -> held c = [] -> cached f dp x ->
  inode_typed x -> inum_ok sb (inum x) -> meta_used sb V -> avail sb V 2 -> (length bl + 5 < NBUF)%nat ->
  isize x + 16 <= MAXFILE * BSIZE -> Forall is_byte name -> dir_find name (entries V x) = None ->
  wp (dirlink devsw_read devsw_write dp name n) (fun r f' c' => r = 0 /\ held c' = [] /\ exists V' x' bl',
    tx f' V' ∅ bl' /\ icache f' = <[dp := x']> (icache f) /\
    writei_post sb V x bl V' x' bl' (16 * Z.of_nat (dir_free (entries V x))) 16 (make_dirent name n)) f c.
Proof.
  intros Hd Ht Hc Hi Hty Hnum Hmeta Hav Hbl Hmax Hnb Hnone. pose proof (length_entries V x Hd) as Hl.
  assert (Hr : room 0 ∅ bl) by (unfold room; rewrite size_empty; lia).
  destruct (dirlookup_run V bl x dp name f c Hd Hr Ht Hc Hi) as (f1 & c1 & Ht1 & Hc1 & Hk1 & E1). rewrite Hnone in E1.
  unfold dirlink. apply wp_bind. unfold wp at 1. rewrite E1. pose proof Hi as Hi1. unfold cached in Hi1. rewrite <- (proj1 Hk1) in Hi1.
  kstep. eapply wp_get_ip; [done|]. kstep. apply (dir_slot_run V bl x dp _ _ Hd Hr 0 f1 c1); [by apply dir_fuel|lia|done..|].
  intros f2 c2 Ht2 Hc2 Hk2. rewrite drop_0. cbn [Nat.add]. set (k := dir_free (entries V x)) in *.
  pose proof (dir_free_le (entries V x)) as Hk. fold k in Hk.
  assert (Hnb1 : nblk (16 * Z.of_nat k) 16 = 1%nat).
  { unfold nblk, BSIZE. cbn [Z.ltb Z.compare]. Z.div_mod_to_equations; lia. }
  kstep. change sizeof_dirent with 16. destruct Hd as (Hx & Htd & Hm).
  eapply (writei_run D T sb Hgeo Hsmall _ f2 c2 V bl dp x); try done; try (rewrite Hnb1; done || lia); try (rewrite ?length_make_dirent; lia).
  - unfold cached. by rewrite (proj1 Hk2).
  - by rewrite Htd.
  - by apply make_dirent_bytes.
  - intros V' x' bl' f' c' Ht' Hc' Hk' Hw. ksteps. split_and!; [done|done|]. exists V', x', bl'. split_and!; [done| |done].
    rewrite Hk', (proj1 Hk2), (proj1 Hk1). done.
Qed.

(** C23. dirlink of a name that a directory does not have, with room for it:
    it returns 0, and afterwards the directory stands for the same map from
    names to inode numbers with the new name added: looking up the new name
    gives the new number, and every other name what it gave before.  The
    directory stays a directory, of at most one more entry, and every other
    inode on disk is unchanged. *)
Theorem dirlink_correct V bl x dp name n f c :
  tx f V ∅ bl -> held c = [] -> icache f !! dp = Some x -> is_dir V x ->
  inode_typed x -> inum_ok sb (inum x) -> meta_used sb V -> avail sb V 2 -> (length bl + 5 < NBUF)%nat ->
  isize x + 16 <= MAXFILE * BSIZE -> Forall is_byte name -> 0 < n < 65536 -> dir_get (entries V x) name = None ->
  wp (dirlink devsw_read devsw_write dp name n) (fun r f' c' => r = 0 /\ held c' = [] /\ exists V' x' bl',
    tx f' V' ∅ bl' /\ icache f' = <[dp := x']> (icache f) /\ is_dir V' x' /\ isize x <= isize x' <= isize x + 16 /\
    (forall other, Forall is_byte other ->
      dir_get (entries V' x') other = if decide (fname other = fname name) then Some n else dir_get (entries V x) other) /\
    (forall m y, inum_ok sb m -> m <> inum x -> disk_inode sb V' m y = disk_inode sb V m y)) f c.
Proof.
  intros Ht Hc Hi Hd Hty Hnum Hmeta Hav Hbl Hmax Hnb Hn Hnone.
  assert (Hfind : dir_find name (entries V x) = None).
  { unfold dir_get in Hnone. destruct (dir_find name _) as [k|] eqn:E; [|done]. cbn [mbind option_bind] in Hnone.
    apply find_idx_lt in E. apply fmap_None, lookup_ge_None in Hnone. lia. }
  eapply wp_mono; [by apply (dirlink_run V bl x)|]. intros r f' c' (-> & Hc' & V' & x' & bl' & Ht' & Hic & Hw).
  split_and!; [done|done|]. exists V', x', bl'. pose proof (length_entries V x Hd) as Hl. pose proof (dir_free_le (entries V x)) as Hfree.
  pose proof (wi_size _ _ _ _ _ _ _ _ _ _ Hw) as Hsz. pose proof Hd as (Hx & Htd & Hm).
  split_and!; [done|done| |lia|lia| |by apply (wi_inodes _ _ _ _ _ _ _ _ _ _ Hw)].
  - split_and!; [apply (wi_ok _ _ _ _ _ _ _ _ _ _ Hw)|by rewrite (wi_x _ _ _ _ _ _ _ _ _ _ Hw)|]. rewrite Hsz, <- Hl.
    destruct (Z.max_spec (16 * Z.of_nat (length (entries V x))) (16 * Z.of_nat (dir_free (entries V x)) + 16)) as [[_ ->]|[_ ->]]; Z.div_mod_to_equations; lia.
  - intros other Hoth. unfold entries at 1. rewrite (wi_content _ _ _ _ _ _ _ _ _ _ Hw).
    rewrite dents_overwrite; [| |by unfold entries in Hfree; rewrite length_dents in Hfree|apply length_make_dirent].
    + rewrite dir_get_put; try done; [|by eapply entries_bytes|]; rewrite ?(Z.mod_small n) by lia; unfold u16; rewrite Z.mod_small by lia; [done|lia].
    + unfold content. rewrite length_file_bytes. pose proof (io_size _ _ _ Hx). apply Nat2Z.inj. rewrite Nat2Z.inj_mod, Z2Nat.id by lia. done.
Qed.
End dir.
