(* ===== verification/FsTrunc.v ===== *)
(** * itrunc

    Truncation gives back every block of a file, and nothing else. *)

From stdpp Require Import base numbers strings gmap list.
From S2P Require Import Prelude Kmonad Kstring Mmu Locks Block Log LogProof Fs FsTx FsInode FsFile FsWrite.

Local Open Scope Z_scope.

Section trunc.
Context {S : Type} `{BlockLayer S}.
Context (D : blocks) (T : list dwrite) (sb : superblock) (Hgeo : geom sb D).
Context (Hsmall : sb_size sb <= BPB).
Implicit Types (f : fs S) (V : blocks) (L : gset Z) (bl : list Z) (c : ctx) (x : inode) (X : gset Z).

Abbreviation tx := (tx D T sb).
Abbreviation used := (used sb).
Abbreviation is_bitmap := (is_bitmap sb).
Abbreviation inode_ok := (inode_ok sb).

(** [V'] is [V] with the blocks of [X] free; only the map changed. *)
Definition freed V V' X : Prop :=
  (forall y, 0 <= y < sb_size sb -> used V' y = used V y && bool_decide (y ∉ X)) /\
  (forall y, ~ is_bitmap y -> at_block V' y = at_block V y).

Lemma freed_refl V : freed V V ∅.
Proof. split; [|done]. intros y Hy. rewrite bool_decide_true by set_solver. by rewrite andb_true_r. Qed.

Lemma freed_trans V V1 V2 X Y : freed V V1 X -> freed V1 V2 Y -> freed V V2 (X ∪ Y).
Proof.
  intros [U1 A1] [U2 A2]. split.
  - intros y Hy. rewrite U2, U1 by done. rewrite <- andb_assoc. f_equal.
    destruct (decide (y ∈ X)); [rewrite (bool_decide_false (y ∉ X)), (bool_decide_false (y ∉ X ∪ Y)) by set_solver; done|].
    rewrite (bool_decide_true (y ∉ X)) by done. cbn. apply bool_decide_ext. set_solver.
  - intros y Hy. by rewrite A2, A1.
Qed.

(** Freeing logs the block of the map, once. *)
Abbreviation map_log bl := (with_block (sb_bmapstart sb) bl).

Lemma map_log_idem bl : map_log (map_log bl) = map_log bl.
Proof. unfold with_block at 1. by rewrite decide_True by apply with_block_in. Qed.

(** No change of the log, or the block of the map. *)
Definition map_logged bl bl' : Prop := bl' = bl \/ bl' = map_log bl.

Lemma map_logged_trans bl bl1 bl2 : map_logged bl bl1 -> map_logged bl1 bl2 -> map_logged bl bl2.
Proof. unfold map_logged. intros [->| ->] [->| ->]; rewrite ?map_log_idem; tauto. Qed.

Lemma map_logged_room k L bl bl' : map_logged bl bl' -> room (Datatypes.S k) L bl -> room k L bl'.
Proof. intros [->| ->]; [by apply room_le; lia|by apply room_with]. Qed.

Lemma bfree_freed f c V L bl b (Q : unit -> fs S -> ctx -> Prop) :
  tx f V L bl -> held c = [] -> super_ok sb V -> data_locked sb V L -> room 1 L bl ->
  data_start sb <= b < sb_size sb -> used V b = true ->
  (forall V' f' c', tx f' V' L (map_log bl) -> held c' = [] -> kept f f' -> freed V V' {[b]} ->
    Q tt f' c') ->
  wp (bfree 1 b) Q f c.
Proof.
  intros Ht Hc Hs HL Hr Hb Hu HQ. pose proof (data_pos D sb Hgeo b) as Hpos.
  assert (Hb0 : 0 <= b < sb_size sb) by lia.
  eapply (bfree_run D T sb Hgeo); try done. intros f' c' Ht' Hc' Hk.
  rewrite (BBLOCK_small D sb Hgeo Hsmall) in Ht' by done. eapply HQ; try done. split.
  - intros y Hy. rewrite (used_unmark D) by (done || by eapply tx_map_wf). rewrite andb_comm. f_equal.
    destruct (Z.eqb_spec y b); cbn; symmetry; [apply bool_decide_eq_false|apply bool_decide_eq_true]; set_solver.
  - intros y Hy. unfold unmark. rewrite at_block_insert, decide_False; [done|]. intros ->.
    by apply Hy, (BBLOCK_bitmap D).
Qed.

Lemma freed_super V V' X : freed V V' X -> super_ok sb V -> super_ok sb V'.
Proof.
  intros [_ A] Hs. unfold super_ok. rewrite A; [done|]. unfold FsTx.is_bitmap.
  destruct Hgeo. pose proof (Z.div_pos (sb_ninodes sb) IPB). unfold LOGSIZE, MAXOPBLOCKS, IPB in *. lia.
Qed.

(** The file blocks in slots [a, b). *)
Definition slots V x (a n : nat) : gset Z := list_to_set (filter (fun y => y <> 0) (faddr V x <$> seq a n)).

Lemma slots_cons V x a n :
  slots V x a (Datatypes.S n) = (if decide (faddr V x a = 0) then ∅ else {[faddr V x a]}) ∪ slots V x (Datatypes.S a) n.
Proof.
  unfold slots. cbn [seq fmap list_fmap]. case_decide.
  - rewrite filter_cons_False by tauto. set_solver.
  - rewrite filter_cons_True by done. cbn. done.
Qed.

Lemma slots_app V x a m n : slots V x a (m + n) = slots V x a m ∪ slots V x (a + m) n.
Proof. unfold slots. rewrite seq_app, fmap_app, filter_app. apply list_to_set_app_L. Qed.

Lemma elem_of_slots V x a n y :
  y ∈ slots V x a n <-> y <> 0 /\ exists j, (a <= j < a + n)%nat /\ faddr V x j = y.
Proof.
  unfold slots. rewrite elem_of_list_to_set, list_elem_of_filter, list_elem_of_fmap.
  setoid_rewrite elem_of_seq. naive_solver.
Qed.

(** Truncating [x] in [V0]. *)
Section run.
Context (V0 : blocks) (bl0 : list Z) (x : inode) (i : nat).
Hypothesis Hx : inode_ok V0 x.
Hypothesis Hs0 : super_ok sb V0.
Hypothesis Hroom : room 4 ∅ bl0.

Definition cleared (k : nat) : inode := set_addrs (replicate k 0 ++ drop k (addrs x)) x.

Lemma cleared_0 : cleared 0 = x.
Proof. unfold cleared. rewrite drop_0. by destruct x. Qed.

Lemma cleared_lookup k : addrs (cleared k) !! k = addrs x !! k.
Proof.
  unfold cleared. cbn. rewrite lookup_app_r; rewrite length_replicate; [|done].
  by rewrite Nat.sub_diag, lookup_drop, Nat.add_0_r.
Qed.

Lemma cleared_S k : (k < 13)%nat -> <[k := 0]> (addrs (cleared k)) = addrs (cleared (Datatypes.S k)).
Proof.
  intros Hk. rewrite <- (io_len _ _ _ Hx) in Hk. unfold cleared. cbn [addrs set_addrs].
  destruct (lookup_lt_is_Some_2 (addrs x) k Hk) as [v Hv]. rewrite (drop_S _ _ _ Hv).
  rewrite insert_app_r_alt; rewrite length_replicate; [|done]. rewrite Nat.sub_diag. cbn [insert list_insert].
  rewrite replicate_S_end, <- app_assoc. done.
Qed.

Lemma cleared_zero k : addrs x !! k = Some 0 -> cleared k = cleared (Datatypes.S k).
Proof.
  intros Hk. unfold cleared. rewrite replicate_S_end, (drop_S _ _ _ Hk), <- app_assoc. done.
Qed.

Lemma cleared_insert k : (k < 13)%nat ->
  set_addrs (<[k := 0]> (addrs (cleared k))) (cleared k) = cleared (Datatypes.S k).
Proof. intros Hk. by rewrite cleared_S. Qed.

(** A block of the file that was not freed yet is still in use. *)
Lemma slot_used V X k : freed V0 V X -> (k <= NSLOT)%nat -> faddr V0 x k <> 0 -> faddr V0 x k ∉ X ->
  data_start sb <= faddr V0 x k < sb_size sb /\ used V (faddr V0 x k) = true.
Proof.
  intros [U _] Hk Hn HX. destruct (io_range _ _ _ Hx k Hk Hn) as [Hr Hu]. split; [done|].
  pose proof (data_pos D sb Hgeo (faddr V0 x k)). rewrite U, Hu, bool_decide_true; [done..|lia].
Qed.

Lemma slot_fresh a n k : (a + n <= Datatypes.S NSLOT)%nat -> (k <= NSLOT)%nat -> faddr V0 x k <> 0 ->
  (k < a \/ a + n <= k)%nat -> faddr V0 x k ∉ slots V0 x a n.
Proof.
  intros Ha Hk Hn Hout Hin. apply elem_of_slots in Hin as (_ & j & Hj & E).
  apply (io_inj _ _ _ Hx) in E; [lia|lia|done|congruence].
Qed.

Lemma slots_snoc a n : slots V0 x a (Datatypes.S n) =
  slots V0 x a n ∪ (if decide (faddr V0 x (a + n) = 0) then ∅ else {[faddr V0 x (a + n)]}).
Proof.
  replace (Datatypes.S n) with (n + 1)%nat by lia. rewrite slots_app, slots_cons. f_equal. set_solver.
Qed.

Lemma itrunc_direct_run n k f c V bl (Q : unit -> fs S -> ctx -> Prop) :
  (k + n = NDIRECT)%nat -> tx f V ∅ bl -> held c = [] -> cached f i (cleared k) ->
  freed V0 V (slots V0 x 0 k) -> map_logged bl0 bl ->
  (forall V' bl' f' c', tx f' V' ∅ bl' -> held c' = [] -> caches f f' i (cleared NDIRECT) ->
    freed V0 V' (slots V0 x 0 NDIRECT) -> map_logged bl0 bl' -> Q tt f' c') ->
  wp (itrunc_direct n i k) Q f c.
Proof.
  revert k f c V bl Q. induction n as [|n IH]; intros k f c V bl Q Hkn Ht Hc Hi Hfr Hlog HQ; cbn [itrunc_direct].
  { replace k with NDIRECT in * by lia. kstep. eapply HQ; try done. by apply kept_cached. }
  unfold NDIRECT in Hkn. kstep. eapply wp_get_ip; [done|]. cbn zeta. rewrite cleared_lookup.
  assert (Ek : default 0 (addrs x !! k) = faddr V0 x k).
  { unfold faddr. by rewrite (proj2 (Nat.ltb_lt _ _)) by (unfold NDIRECT; lia). }
  rewrite Ek. kstep. pose proof (slots_snoc 0 k) as Esn. cbn [Nat.add] in Esn.
  destruct (Z.eqb_spec (faddr V0 x k) 0) as [Hz|Hz].
  - kstep. rewrite decide_True in Esn by done. eapply IH; try done; [unfold NDIRECT; lia| |].
    + rewrite <- cleared_zero; [done|]. destruct (addrs x !! k) eqn:E; cbn in Ek; [congruence|].
      apply lookup_ge_None in E. rewrite (io_len _ _ _ Hx) in E. lia.
    + rewrite Esn. by replace (slots V0 x 0 k ∪ ∅) with (slots V0 x 0 k) by set_solver.
  - rewrite decide_False in Esn by done. kstep.
    destruct (slot_used V (slots V0 x 0 k) k Hfr) as [Hr Hu]; [unfold NSLOT; lia|done|apply slot_fresh; unfold NSLOT; lia || done|].
    rewrite (io_dev _ _ _ Hx : idev (cleared k) = 1).
    eapply bfree_freed; [done..|by eapply freed_super|intros y Hy; set_solver| |done|done|].
    { eapply map_logged_room; [done|]. by eapply room_le, Hroom; lia. }
    intros V' f1 c1 Ht1 Hc1 Hk1 Hfr1. pose proof (kept_cached _ _ _ _ Hi Hk1) as Hc1'.
    eapply wp_upd_ip; [by eapply caches_cached|]. rewrite cleared_insert by lia.
    eapply IH; [unfold NDIRECT; lia|by apply tx_set_icache|done| | |by eapply map_logged_trans; [done|right]|].
    + unfold cached. cbn. apply list_lookup_insert_eq. rewrite Hc1'. rewrite length_insert. by eapply lookup_lt_Some.
    + rewrite Esn. by eapply freed_trans.
    + intros V2 bl2 f2 c2 Ht2 Hc2 Hk2. apply HQ; try done. unfold caches in *. cbn in Hk2. rewrite Hk2, Hc1'.
      by rewrite !list_insert_insert_eq.
Qed.

(** The entries of the indirect block, with its buffer [bp] held. *)
Lemma itrunc_indirect_run n j f c V bl1 bl bp X (Q : unit -> fs S -> ctx -> Prop) :
  (j + n = NINDIRECT)%nat -> ind_of x <> 0 -> X = slots V0 x 0 NDIRECT ->
  tx f V ({[ind_of x]} ∪ ∅) bl -> held c = [] -> fbuf bp f = Some (ind_of x) ->
  freed V0 V (X ∪ slots V0 x NDIRECT j) -> room 3 ∅ bl1 -> map_logged bl1 bl ->
  (forall V' bl' f' c', tx f' V' ({[ind_of x]} ∪ ∅) bl' -> held c' = [] -> fbuf bp f' = Some (ind_of x) ->
    kept f f' -> freed V0 V' (X ∪ slots V0 x NDIRECT NINDIRECT) -> map_logged bl1 bl' -> Q tt f' c') ->
  wp (itrunc_indirect n 1 bp j) Q f c.
Proof.
  revert j f c V bl Q. induction n as [|n IH]; intros j f c V bl Q Hjn Hnz HX Ht Hc Hbp Hfr Hrm Hlog HQ; cbn [itrunc_indirect].
  { replace j with NINDIRECT in * by lia. kstep. by eapply HQ. }
  unfold NINDIRECT in Hjn. kstep. eapply wp_fdata; [done..|]. intros HV Hwf. cbn zeta. kstep.
  destruct (io_range _ _ _ Hx NSLOT) as [Hir _]; [done|by rewrite ind_slot|]. rewrite ind_slot in Hir.
  rewrite (proj2 Hfr) by (apply data_not_bitmap; lia).
  assert (Ej : get_u32 (4 * j) (at_block V0 (ind_of x)) = faddr V0 x (NDIRECT + j)).
  { unfold faddr, NDIRECT, NSLOT. rewrite (proj2 (Nat.ltb_ge _ _)), (proj2 (Nat.ltb_lt _ _)) by lia.
    rewrite (proj2 (Z.eqb_neq _ _)) by done. do 2 f_equal. lia. }
  rewrite Ej. pose proof (slots_snoc NDIRECT j) as Esn.
  destruct (Z.eqb_spec (faddr V0 x (NDIRECT + j)) 0) as [Hz|Hz].
  - kstep. rewrite decide_True in Esn by done. eapply IH; try done; [unfold NINDIRECT; lia|].
    rewrite Esn. by replace (X ∪ (slots V0 x NDIRECT j ∪ ∅)) with (X ∪ slots V0 x NDIRECT j) by set_solver.
  - rewrite decide_False in Esn by done.
    assert (Hns : (NDIRECT + j <= NSLOT)%nat) by (unfold NDIRECT, NSLOT; lia).
    assert (Hfresh : faddr V0 x (NDIRECT + j) ∉ X ∪ slots V0 x NDIRECT j).
    { rewrite HX. apply not_elem_of_union. unfold NSLOT, NDIRECT in *. split; apply slot_fresh; unfold NSLOT; (lia || done). }
    destruct (slot_used V _ _ Hfr Hns Hz Hfresh) as [Hr Hu].
    eapply bfree_freed; [done..|by eapply freed_super| | |done|done|].
    + intros y Hy. assert (y = ind_of x) as -> by set_solver. rewrite <- (ind_slot V0 x).
      eapply slot_used; [done..|]. rewrite HX. apply not_elem_of_union. unfold NSLOT, NDIRECT.
      split; apply slot_fresh; unfold NSLOT; (lia || done).
    + eapply map_logged_room; [done|]. clear Hroom. unfold room in *. rewrite size_union, size_singleton, size_empty in * by set_solver. lia.
    + intros V1 f1 c1 Ht1 Hc1 Hk1 Hfr1. eapply IH; try done; [unfold NINDIRECT; lia|by apply Hk1| | |].
      * rewrite Esn, assoc_L by apply _. by eapply freed_trans.
      * by eapply map_logged_trans; [done|right].
      * intros V2 bl2 f2 c2 Ht2 Hc2 Hbp2 Hk2. apply HQ; try done. by etrans.
Qed.

(** The file and its blocks after itrunc. *)
Definition truncated : inode := set_isize 0 (set_addrs (replicate 13 0) x).

Lemma all_slots : slots V0 x 0 (Datatypes.S NSLOT) =
  slots V0 x 0 NDIRECT ∪ slots V0 x NDIRECT NINDIRECT ∪ (if decide (ind_of x = 0) then ∅ else {[ind_of x]}).
Proof.
  change (Datatypes.S NSLOT) with (NDIRECT + NINDIRECT + 1)%nat. rewrite !slots_app. f_equal.
  rewrite slots_cons. set_solver.
Qed.

Lemma no_indirect : ind_of x = 0 -> slots V0 x NDIRECT NINDIRECT = ∅.
Proof.
  intros Hz. apply set_eq. intros y. rewrite elem_of_slots. split; [|set_solver].
  intros (Hy & j & Hj & E). exfalso. apply Hy. rewrite <- E. unfold faddr, NDIRECT, NINDIRECT, NSLOT in *.
  rewrite (proj2 (Nat.ltb_ge _ _)), (proj2 (Nat.ltb_lt _ _)) by lia. by rewrite Hz.
Qed.

Lemma map_logged_sub bl bl' y : map_logged bl bl' -> y ∈ bl -> y ∈ bl'.
Proof. intros [->| ->] Hy; [done|by apply with_block_sub]. Qed.

Abbreviation on_blk m := (zoom log_lens (zoom blk_lens m)).

(** The second half of itrunc: the indirect block and its entries. *)
Lemma itrunc_tail_run f c V bl (Q : unit -> fs S -> ctx -> Prop) :
  ind_of x <> 0 -> tx f V ∅ bl -> held c = [] -> cached f i (cleared NDIRECT) ->
  freed V0 V (slots V0 x 0 NDIRECT) -> map_logged bl0 bl ->
  (forall V' bl' f' c', tx f' V' ∅ bl' -> held c' = [] -> caches f f' i (cleared 13) ->
    freed V0 V' (slots V0 x 0 (Datatypes.S NSLOT)) -> map_logged bl0 bl' -> Q tt f' c') ->
  wp (bp ← on_blk (bread 1 (ind_of x));
      itrunc_indirect NINDIRECT 1 bp 0;;
      on_blk (brelse bp);;
      bfree 1 (ind_of x);;
      upd_ip i (fun y => set_addrs (<[NDIRECT := 0]> (addrs y)) y)) Q f c.
Proof.
  intros Hnz Ht Hc Hi Hfr Hlog HQ. pose proof all_slots as Eall. rewrite decide_False in Eall by done.
  assert (Hfresh : forall a n, (a + n <= NSLOT)%nat -> faddr V0 x NSLOT ∉ slots V0 x a n).
  { intros a n Han. apply slot_fresh; [lia|lia|by rewrite ind_slot|lia]. }
  destruct (io_range _ _ _ Hx NSLOT) as [Hir _]; [done|by rewrite ind_slot|]. rewrite ind_slot in Hir.
  assert (HindD : ind_of x ∈ dom D) by by apply (above_dom D sb), (data_above D).
  assert (HnL : forall j y, fbuf j f = Some y -> y ∈ (∅ : gset Z)) by (intros j y; by eapply tx_held).
  kstep. eapply wp_open; try done; [by eapply map_logged_room, room_le, Hroom; [done|lia]|].
  intros bp f1 c1 Ht1 Hc1 Hbp Hk1. kstep.
  eapply (itrunc_indirect_run NINDIRECT 0 f1 c1 V bl bl bp); try done.
  { change (slots V0 x NDIRECT 0) with (∅ : gset Z). by rewrite union_empty_r_L. }
  { by eapply map_logged_room, Hroom. }
  { by left. }
  intros V2 bl2 f2 c2 Ht2 Hc2 Hbp2 Hk2 Hfr2 Hlog2. kstep.
  eapply (wp_close D T sb Hgeo f); try done; [|by etrans|].
  { destruct (tx_clean _ _ _ _ _ _ _ (ind_of x) Ht (not_elem_of_empty _)) as [Hin|E].
    - left. by eapply map_logged_sub.
    - right. destruct (tx_at _ _ _ _ _ _ _ (ind_of x) Ht HindD) as [E1 _].
      destruct (tx_at _ _ _ _ _ _ _ (ind_of x) Ht2 HindD) as [E2 _]. rewrite <- E, E1, E2.
      assert (Hnb : ~ is_bitmap (ind_of x)) by (apply data_not_bitmap; lia).
      by rewrite (proj2 Hfr2), (proj2 Hfr). }
  intros f3 c3 Ht3 Hc3 Hk3. kstep. pose proof (map_logged_trans _ _ _ Hlog Hlog2) as Hlog3.
  destruct (slot_used V2 _ NSLOT Hfr2) as [Hr Hu]; [done|by rewrite ind_slot| |].
  { apply not_elem_of_union. split; apply Hfresh; unfold NSLOT, NDIRECT, NINDIRECT; lia. }
  rewrite ind_slot in Hr, Hu. eapply bfree_freed; [done..|by eapply freed_super|intros y Hy; set_solver| |done|done|].
  { eapply map_logged_room; [done|]. by eapply room_le, Hroom; lia. }
  intros V4 f4 c4 Ht4 Hc4 Hk4 Hfr4. assert (Hc4' : caches f f4 i (cleared NDIRECT)).
  { apply kept_cached; [done|]. by etrans. }
  eapply wp_upd_ip; [by eapply caches_cached|]. rewrite cleared_insert by (unfold NDIRECT; lia).
  eapply HQ; [by apply tx_set_icache|done| | |by eapply map_logged_trans; [done|right]].
  - unfold caches in *. cbn. rewrite Hc4'. by rewrite list_insert_insert_eq.
  - rewrite Eall. by eapply freed_trans.
Qed.

Hypothesis Hnum : inum_ok sb (inum x).

Lemma itrunc_run f c (Q : unit -> fs S -> ctx -> Prop) :
  tx f V0 ∅ bl0 -> held c = [] -> cached f i x ->
  (forall V bl' f' c', freed V0 V (slots V0 x 0 (Datatypes.S NSLOT)) -> map_logged bl0 bl' ->
    tx f' (store_view sb V truncated) ∅ (with_block (IBLOCK (inum x) sb) bl') -> held c' = [] ->
    caches f f' i truncated -> (exists f1, tx f1 V ∅ bl') -> Q tt f' c') ->
  wp (itrunc i) Q f c.
Proof.
  intros Ht Hc Hi HQ. unfold itrunc. kstep. eapply (itrunc_direct_run NDIRECT 0); try done.
  { by rewrite cleared_0. }
  { apply freed_refl. }
  { by left. }
  intros V1 bl1 f1 c1 Ht1 Hc1 Hk1 Hfr1 Hlog1. pose proof (caches_cached _ _ _ _ _ Hi Hk1) as Hi1.
  kstep. eapply wp_get_ip; [done|]. cbn zeta. rewrite cleared_lookup. fold (ind_of x).
  assert (Hfin : forall V bl' f2 c2, tx f2 V ∅ bl' -> held c2 = [] -> caches f f2 i (cleared 13) ->
    freed V0 V (slots V0 x 0 (Datatypes.S NSLOT)) -> map_logged bl0 bl' ->
    wp (upd_ip i (set_isize 0);; iupdate i) Q f2 c2).
  { intros V bl' f2 c2 Ht2 Hc2 Hk2 Hfr2 Hlog2. kstep.
    assert (E13 : set_isize 0 (cleared 13) = truncated).
    { unfold cleared, truncated. by rewrite drop_ge by (rewrite (io_len _ _ _ Hx); lia). }
    eapply wp_upd_ip; [exact (caches_cached _ _ _ _ _ Hi Hk2)|]. rewrite E13.
    eapply (iupdate_run D T sb Hgeo Hsmall _ _ V bl' i truncated); [by apply tx_set_icache|done| |exact (io_dev _ _ _ Hx)|exact Hnum|reflexivity| |].
    - unfold cached. cbn. apply list_lookup_insert_eq. rewrite Hk2, length_insert. by eapply lookup_lt_Some.
    - by eapply map_logged_room, room_le, Hroom; [done|lia].
    - intros f3 c3 Ht3 Hc3 Hk3. eapply HQ; [done..| |by exists f2]. unfold caches in *. rewrite (proj1 Hk3). cbn.
      rewrite Hk2. by rewrite list_insert_insert_eq. }
  kstep. destruct (Z.eqb_spec (ind_of x) 0) as [Hz|Hz].
  - kstep. eapply Hfin; try done.
    + unfold caches. rewrite <- cleared_zero; [done|]. unfold ind_of in Hz.
      destruct (addrs x !! NDIRECT) eqn:E; [rewrite <- Hz; exact E|].
      apply lookup_ge_None in E. rewrite (io_len _ _ _ Hx) in E. unfold NDIRECT in E. lia.
    + rewrite all_slots, no_indirect, decide_True by done. by rewrite !union_empty_r_L.
  - rewrite (io_dev _ _ _ Hx : idev (cleared NDIRECT) = 1). eapply itrunc_tail_run; try done.
    intros V2 bl2 f2 c2 Ht2 Hc2 Hk2 Hfr2 Hlog2. eapply Hfin; try done. by eapply caches_trans.
Qed.

End run.

(** C27. itrunc gives back exactly the blocks of the file: afterwards each of
    them is free, every other block of the disk is marked as before, the
    data blocks are unchanged, the inode has size 0 and no blocks in the
    cache and on disk, the other inodes on disk are unchanged, and at most
    two blocks were added to the transaction. *)
Theorem itrunc_correct f c V bl i x :
  tx f V ∅ bl -> held c = [] -> icache f !! i = Some x -> inode_ok V x -> inode_typed x ->
  inum_ok sb (inum x) -> super_ok sb V -> room 4 ∅ bl ->
  wp (itrunc i) (fun _ f' c' => held c' = [] /\ exists V' bl',
    tx f' V' ∅ bl' /\ icache f' = <[i := truncated x]> (icache f) /\
    (forall y, 0 <= y < sb_size sb -> used V' y = used V y && bool_decide (y ∉ slots V x 0 (Datatypes.S NSLOT))) /\
    (forall y, data_start sb <= y -> at_block V' y = at_block V y) /\
    synced sb V' (truncated x) /\
    (forall n z, inum_ok sb n -> n <> inum x -> disk_inode sb V' n z = disk_inode sb V n z) /\
    (length bl' <= length bl + 2)%nat) f c.
Proof.
  intros Ht Hc Hi Hx Hty Hnum Hs Hr. eapply itrunc_run; try done.
  intros V1 bl1 f1 c1 [U A] Hlog Ht1 Hc1 Hk1 [f0 Ht0]. split; [done|].
  assert (Htt : inode_typed (truncated x)).
  { destruct Hty. split; try done. by apply Forall_replicate. }
  assert (En : inum (truncated x) = inum x) by done.
  pose proof (IBLOCK_range D sb Hgeo Hsmall _ Hnum) as Hib.
  exists (store_view sb V1 (truncated x)), (with_block (IBLOCK (inum x) sb) bl1).
  split; [done|]. split; [done|]. split; [|split; [|split; [|split]]].
  - intros y Hy. unfold store_view. rewrite (meta_used_eq D sb Hgeo) by (done || (rewrite En; lia)). by apply U.
  - intros y Hy. unfold store_view. pose proof (meta_not_data D sb Hgeo (IBLOCK (inum x) sb) ltac:(lia)).
    rewrite at_block_insert, decide_False by (rewrite En; lia). apply A. unfold FsTx.is_bitmap. lia.
  - unfold synced. rewrite (store_view_same D T sb Hgeo Hsmall f0 V1 ∅ bl1) by done. done.
  - intros n z Hn Hne. rewrite (store_view_other D T sb Hgeo Hsmall f0 V1 ∅ bl1) by done.
    unfold disk_inode. rewrite A; [done|]. pose proof (IBLOCK_range D sb Hgeo Hsmall _ Hn). unfold FsTx.is_bitmap. lia.
  - rewrite length_with_block. pose proof (unlogged_le (IBLOCK (inum x) sb) bl1).
    destruct Hlog as [->| ->]; [lia|]. rewrite length_with_block. pose proof (unlogged_le (sb_bmapstart sb) bl). lia.
Qed.

End trunc.
