(* ===== verification/FsRuns.v ===== *)
(** * fs.c on a concrete disk

    A disk of 64 blocks with one file (inode 1, 600 bytes in blocks 35 and
    36), at the start of a transaction, and the theorems about the block
    allocator, the inodes and the file contents there. *)

From stdpp Require Import base numbers strings gmap list.
From S2P Require Import Prelude Kmonad Kstring Mmu Locks Block Bio Log LogProof LogRuns Fs FsTx FsInode FsFile FsWrite FsDir FsTrunc.

Local Open Scope Z_scope.

Definition sb0 : superblock := mksb 64 29 8 30 2 32 34.

(** The superblock's fields, as mkfs writes them. *)
Definition sb_block : bytes := put_words 0 [64; 29; 8; 30; 2; 32; 34] (replicate BSIZEn 0).

(** The map: blocks 0 to 36 are in use. *)
Definition map_block : bytes := bput 0 [255; 255; 255; 255; 31] (replicate BSIZEn 0).

Definition file1 : inode :=
  mkinode 1 1 1 (mksleeplock true 7) true T_FILE 0 0 1 600 ([35; 36] ++ replicate 11 0).

Definition inode_block : bytes := store_dinode (dinode_off 1) file1 (replicate BSIZEn 0).

Definition D0 : blocks :=
  <[1 := sb_block]> (<[32 := inode_block]> (<[34 := map_block]> (<[35 := ones]> (zero_disk 64)))).

Definition fs0 : fs bio :=
  mkfs (mklog 2 30 1 false 1 0 (replicate LOGSIZEn 0) (fresh_bio D0 64)) sb0
       (file1 :: replicate 49 zero_inode).

Lemma D0_dom b : b ∈ dom D0 <-> 0 <= b < 64.
Proof. unfold D0. rewrite !dom_insert, !elem_of_union, !elem_of_singleton, zero_disk_dom. lia. Qed.

Lemma D0_wf b d : D0 !! b = Some d -> wf_block d.
Proof.
  unfold D0. rewrite !lookup_insert_Some.
  intros [[_ <-]|[_ [[_ <-]|[_ [[_ <-]|[_ [[_ <-]|[_ Hb]]]]]]]].
  - split; [by vm_compute|]. apply Forall_put_words, wf_zero_block.
  - apply wf_store_dinode; [apply dinode_off_bound|done|apply wf_zero_block].
  - split; [by vm_compute|]. apply Forall_bput; [|apply wf_zero_block]. repeat constructor; vm_compute; done.
  - apply wf_ones.
  - by eapply zero_disk_wf.
Qed.

Lemma geom0 : geom sb0 D0.
Proof. split; try done. intros b Hb. by apply D0_dom. Qed.

Lemma small0 : sb_size sb0 <= BPB.
Proof. done. Qed.

Lemma hdr0 : at_block D0 2 = replicate BSIZEn 0.
Proof. unfold D0. rewrite !at_block_insert. by apply zero_disk_at. Qed.

Lemma tx0 : tx D0 [] sb0 fs0 D0 ∅ [].
Proof.
  split; [|done..]. split; [|done|done| |done|done| |by vm_compute].
  - apply fresh_blk; [apply D0_dom|apply D0_wf].
  - by exists (replicate LOGSIZEn 0).
  - split; try done; try constructor. cbn. intros b Hb. apply D0_dom. lia.
Qed.

(** Finite checks. *)
Lemma check_range (P : Z -> bool) n : forallb P (seqZ 0 n) = true -> forall b, 0 <= b < n -> P b = true.
Proof. rewrite forallb_forall. intros Hf b Hb. apply Hf, list_elem_of_In, elem_of_seqZ. lia. Qed.

Lemma meta0 : meta_used sb0 D0.
Proof. intros b Hb. apply (check_range (used sb0 D0) 35); [vm_compute; reflexivity|exact Hb]. Qed.

Lemma super0 : super_ok sb0 D0.
Proof. vm_compute. reflexivity. Qed.

Definition addrs0 : list Z := faddr D0 file1 <$> seq 0 141.

Lemma addrs0_eq : addrs0 = [35; 36] ++ replicate 139 0.
Proof. vm_compute. reflexivity. Qed.

Lemma faddr0 k : (k <= NSLOT)%nat -> faddr D0 file1 k = if Nat.ltb k 2 then 35 + Z.of_nat k else 0.
Proof.
  intros Hk. unfold NSLOT in Hk. assert (E : addrs0 !! k = Some (faddr D0 file1 k)).
  { unfold addrs0. rewrite list_lookup_fmap, lookup_seq_lt by lia. done. }
  rewrite addrs0_eq in E. destruct k as [|[|k]]; [vm_compute; reflexivity..|].
  change (replicate 139 0 !! k = Some (faddr D0 file1 (Datatypes.S (Datatypes.S k)))) in E.
  apply lookup_replicate in E as [-> _]. done.
Qed.

Lemma inode0 : inode_ok sb0 D0 file1.
Proof.
  split; try done.
  - intros k Hk. rewrite faddr0 by done. destruct (Nat.ltb_spec k 2) as [Hlt|]; [|done]. intros _.
    destruct k as [|[|k]]; [vm_compute; done..|lia].
  - intros j k Hj Hk. rewrite !faddr0 by done. destruct (Nat.ltb_spec j 2), (Nat.ltb_spec k 2); lia.
  - intros k Hk. cbn in Hk. unfold BSIZE in Hk. rewrite faddr0 by (unfold NSLOT; lia).
    destruct (Nat.ltb_spec k 2); lia.
Qed.

Lemma typed0 : inode_typed file1.
Proof. split; try done. repeat (apply Forall_cons; split; [done|]). constructor. Qed.

Lemma avail0 : avail sb0 D0 6.
Proof.
  exists (seqZ 40 6). split; [apply NoDup_seqZ|]. split; [done|].
  repeat (apply Forall_cons; split; [vm_compute; done|]). constructor.
Qed.

Lemma room0 k : (k <= 20)%nat -> room k ∅ [].
Proof. intros Hk. unfold room, NBUF. rewrite size_empty. cbn. lia. Qed.

Lemma balloc_correct_witness :
  wp (balloc 1) (fun b f' _ => exists V', tx D0 [] sb0 f' V' ∅ (alloc_log sb0 b []) /\ kept fs0 f' /\
    first_free sb0 D0 b /\ at_block V' b = replicate BSIZEn 0 /\
    (forall x, 0 <= x < sb_size sb0 -> used sb0 V' x = (x =? b) || used sb0 D0 x) /\
    (forall x, x <> b -> ~ is_bitmap sb0 x -> at_block V' x = at_block D0 x)) fs0 c0.
Proof.
  apply (balloc_correct D0 [] sb0 geom0 fs0 c0 D0 ∅ [] tx0 eq_refl meta0).
  - intros x Hx. by apply not_elem_of_empty in Hx.
  - apply room0. lia.
  - exists 40. vm_compute. done.
Defined.

Lemma bfree_correct_witness :
  wp (bfree 1 36) (fun _ f' _ => exists V', tx D0 [] sb0 f' V' ∅ (with_block 34 []) /\ kept fs0 f' /\
    (forall x, 0 <= x < sb_size sb0 -> used sb0 V' x = negb (x =? 36) && used sb0 D0 x) /\
    (forall x, ~ is_bitmap sb0 x -> at_block V' x = at_block D0 x)) fs0 c0.
Proof.
  apply (bfree_correct D0 [] sb0 geom0 fs0 c0 D0 ∅ [] 36 tx0 eq_refl super0).
  - intros x Hx. by apply not_elem_of_empty in Hx.
  - apply room0. lia.
  - vm_compute. done.
  - vm_compute. done.
Defined.

(** No device drivers are needed for files. *)
Definition no_read : Z -> option (nat -> Z -> K (fs bio) (Z * bytes)) := fun _ => None.
Definition no_write : Z -> option (nat -> bytes -> Z -> K (fs bio) Z) := fun _ => None.

Lemma readi_correct_witness :
  wp (readi no_read 0 500 200) (fun r f' c' => r = (100, replicate 12 1 ++ replicate 88 0) /\
    tx D0 [] sb0 f' D0 ∅ [] /\ held c' = [] /\ icache f' = icache fs0) fs0 c0.
Proof.
  assert (E : read_result D0 file1 500 200 = (100, replicate 12 1 ++ replicate 88 0)) by (vm_compute; reflexivity).
  rewrite <- E. apply (readi_correct D0 [] sb0 geom0 small0 no_read fs0 c0 D0 [] 0 file1 500 200 tx0 eq_refl eq_refl inode0
    (room0 0 ltac:(lia))); [done|unfold in_u32; lia..].
Defined.

Lemma writei_correct_witness :
  wp (writei no_write 0 (replicate 500 7) 600 500) (fun r f' c' => r = 500 /\ held c' = [] /\ exists V' x' bl',
    tx D0 [] sb0 f' V' ∅ bl' /\ icache f' = <[0%nat := x']> (icache fs0) /\
    writei_post sb0 D0 file1 [] V' x' bl' 600 500 (replicate 500 7)) fs0 c0.
Proof.
  apply (writei_correct D0 [] sb0 geom0 small0 no_write fs0 c0 D0 [] 0 file1 (replicate 500 7) 600 500 tx0
    eq_refl eq_refl inode0 typed0).
  - vm_compute. done.
  - apply meta0.
  - done.
  - apply (avail_le sb0 D0 _ 6); [vm_compute; lia|apply avail0].
  - vm_compute. lia.
  - done.
  - vm_compute. done.
  - done.
  - apply Forall_replicate. done.
Defined.

Lemma writei_rejects_witness :
  writei no_write 0 [] 601 1 fs0 c0 = Ret (-1) fs0 c0.
Proof. apply (writei_rejects no_write fs0 c0 0 file1); try (vm_compute; done). left. done. Defined.

Lemma iupdate_correct_witness :
  wp (iupdate 0) (fun _ f' c' => exists V', tx D0 [] sb0 f' V' ∅ (with_block 32 []) /\
    held c' = [] /\ icache f' = icache fs0 /\ synced sb0 V' file1 /\
    (forall n y, inum_ok sb0 n -> n <> 1 -> disk_inode sb0 V' n y = disk_inode sb0 D0 n y) /\
    (forall b, b <> 32 -> at_block V' b = at_block D0 b)) fs0 c0.
Proof.
  apply (iupdate_correct D0 [] sb0 geom0 small0 fs0 c0 D0 [] 0 file1 tx0 eq_refl eq_refl eq_refl);
    [vm_compute; done|apply typed0|apply room0; lia].
Defined.

Lemma itrunc_correct_witness :
  wp (itrunc 0) (fun _ f' c' => held c' = [] /\ exists V' bl',
    tx D0 [] sb0 f' V' ∅ bl' /\ icache f' = <[0%nat := truncated file1]> (icache fs0) /\
    (forall y, 0 <= y < sb_size sb0 ->
      used sb0 V' y = used sb0 D0 y && bool_decide (y ∉ slots D0 file1 0 (S NSLOT))) /\
    (forall y, data_start sb0 <= y -> at_block V' y = at_block D0 y) /\
    synced sb0 V' (truncated file1) /\
    (forall n z, inum_ok sb0 n -> n <> 1 -> disk_inode sb0 V' n z = disk_inode sb0 D0 n z) /\
    (length bl' <= 0 + 2)%nat) fs0 c0.
Proof.
  apply (itrunc_correct D0 [] sb0 geom0 small0 fs0 c0 D0 [] 0 file1 tx0 eq_refl eq_refl inode0 typed0);
    [vm_compute; done|apply super0|apply room0; lia].
Defined.

(** The blocks of the file as a directory of 32 bytes, and a name it does not
    have. *)
Definition dir1 : inode := set_isize 32 (set_itype T_DIR file1).
Definition fs1 : fs bio := set_icache (dir1 :: replicate 49 zero_inode) fs0.
Definition name1 : bytes := [108; 115; 0].

Lemma dir1_ok : is_dir sb0 D0 dir1.
Proof.
  split_and!; [|done|done]. pose proof inode0 as Hx. split; try done.
  - apply (io_range _ _ _ Hx).
  - apply (io_inj _ _ _ Hx).
  - intros k Hk. apply (io_mapped _ _ _ Hx). cbn in *. unfold BSIZE in *. lia.
Qed.

Lemma dirlink_correct_witness :
  wp (dirlink no_read no_write 0 name1 5) (fun r f' _ => r = 0 /\ exists V' x' bl', tx D0 [] sb0 f' V' ∅ bl' /\
    is_dir sb0 V' x' /\ dir_get (entries V' x') name1 = Some 5) fs1 c0.
Proof.
  eapply wp_mono; [apply (dirlink_correct D0 [] sb0 geom0 small0 no_read no_write D0 [] dir1 0 name1 5 fs1 c0)|].
  - exact (tx_set_icache D0 [] sb0 fs0 D0 ∅ [] (dir1 :: replicate 49 zero_inode) tx0).
  - reflexivity.
  - reflexivity.
  - exact dir1_ok.
  - destruct typed0 as [H1 H2 H3 H4 H5 H6 H7]. split; try done.
  - vm_compute. done.
  - apply meta0.
  - apply (avail_le sb0 D0 _ 6); [lia|apply avail0].
  - vm_compute. lia.
  - done.
  - repeat constructor; unfold is_byte; lia.
  - lia.
  - vm_compute. reflexivity.
  - intros r f' c' (Hr & _ & V' & x' & bl' & Ht & _ & Hd & _ & Hg & _). split; [exact Hr|]. exists V', x', bl'. split_and!; [exact Ht|exact Hd|].
    rewrite (Hg name1) by (repeat constructor; unfold is_byte; lia). rewrite decide_True by reflexivity. reflexivity.
Defined.
