(* ===== verification/FsAcct.v ===== *)
(** * fs.c and log.c: what an operation holds

    The inode references, inode locks and log reservations of the file
    system, and what each operation does to them: those that only read or
    write contents keep all three, ilock and iunlock, iget, idup and iput,
    begin_op and end_op change exactly one.  A caller that is shown to end
    with the account it began with leaks none of them on any path. *)

From stdpp Require Import base numbers strings gmap list.
From S2P Require Import Prelude Kmonad Locks Block Log Fs.

Local Open Scope Z_scope.

(** The references to a cached inode and whether it is locked. *)
Definition slot_of (x : inode) : Z * bool := (iref x, slocked (ilk x)).

(** The slots of the inode cache, and the operations in the log. *)
Definition account : Type := list (Z * bool) * Z.

(** States that hold a file system. *)
Class Accounted (T : Type) : Type := acct : T -> account.

#[export] Instance fs_acct {S} : Accounted (fs S) := fun f => (slot_of <$> icache f, outstanding (flog f)).

Definition add_ref (n : Z) (x : Z * bool) : Z * bool := (fst x + n, snd x).
Definition set_lock (b : bool) (x : Z * bool) : Z * bool := (fst x, b).

Definition refer (n : Z) (i : nat) (a : account) : account := (alter (add_ref n) i (fst a), snd a).
Definition relock (b : bool) (i : nat) (a : account) : account := (alter (set_lock b) i (fst a), snd a).
Definition reserve (n : Z) (a : account) : account := (fst a, snd a + n).

(** The slot is there and not locked. *)
Definition unlocked (i : nat) (a : account) : Prop := snd <$> fst a !! i = Some false.

Lemma alter_back {A} (g h : A -> A) i (l : list A) :
  (forall x, l !! i = Some x -> h (g x) = x) -> alter h i (alter g i l) = l.
Proof.
  intros Hb. rewrite list_alter_alter_eq. apply list_eq. intros j.
  destruct (decide (i = j)) as [->|Hne]; [|by rewrite list_lookup_alter_ne].
  rewrite list_lookup_alter_eq. destruct (l !! j) as [x|] eqn:E; [|done]. cbn. by rewrite Hb.
Qed.

Lemma refer_back i a : refer (-1) i (refer 1 i a) = a.
Proof.
  destruct a as [l n]. unfold refer. cbn. f_equal. apply alter_back. intros [r b] _.
  unfold add_ref. cbn. f_equal. lia.
Qed.

Lemma relock_back i a : unlocked i a -> relock false i (relock true i a) = a.
Proof.
  destruct a as [l n]. unfold unlocked, relock. cbn. intros Hu. f_equal. apply alter_back.
  intros [r b] E. rewrite E in Hu. cbn in Hu. by injection Hu as ->.
Qed.

Lemma reserve_back a : reserve (-1) (reserve 1 a) = a.
Proof. destruct a as [l n]. unfold reserve. cbn. f_equal. lia. Qed.

Lemma relock_refer b n i j a : relock b i (refer n j a) = refer n j (relock b i a).
Proof.
  destruct a as [l o]. unfold refer, relock. cbn. f_equal. destruct (decide (i = j)) as [->|Hne].
  - rewrite !list_alter_alter_eq. by apply list_alter_ext.
  - by rewrite list_alter_alter_ne.
Qed.

Lemma refer_comm m n i j a : refer m i (refer n j a) = refer n j (refer m i a).
Proof.
  destruct a as [l o]. unfold refer. cbn. f_equal. destruct (decide (i = j)) as [->|Hne].
  - rewrite !list_alter_alter_eq. apply list_alter_ext; [|done]. intros [r b] _. unfold add_ref. cbn. f_equal. lia.
  - by rewrite list_alter_alter_ne.
Qed.

Lemma unlocked_refer i j n a : unlocked i a -> unlocked i (refer n j a).
Proof.
  destruct a as [l o]. unfold unlocked, refer. cbn. intros Hu.
  destruct (decide (j = i)) as [->|Hne]; [|by rewrite list_lookup_alter_ne].
  rewrite list_lookup_alter_eq. destruct (l !! i); done.
Qed.

Section acct.
Context {T : Type} `{Accounted T}.
Implicit Types (t : T) (a : account).

(** Runs of [m] from account [a] that return have an account in [Q]. *)
Definition from {A} a (m : K T A) (Q : A -> account -> Prop) : Prop :=
  forall t c, acct t = a -> wlp m (fun r t' _ => Q r (acct t')) (fun _ _ => True) t c.

Definition keeps {A} (m : K T A) : Prop := forall a, from a m (fun _ a' => a' = a).

Lemma from_ret {A} a (x : A) (Q : A -> account -> Prop) : Q x a -> from a (mret x) Q.
Proof. intros HQ t c <-. by lsteps. Qed.

Lemma from_bind {A B} a (m : K T A) (k : A -> K T B) (P : A -> account -> Prop) Q :
  from a m P -> (forall x a', P x a' -> from a' (k x) Q) -> from a (mbind k m) Q.
Proof.
  intros Hm Hk t c Ht. apply wlp_bind. eapply wlp_mono; [by apply Hm|].
  intros x t' c' HP. by apply (Hk x (acct t')).
Qed.

Lemma from_mono {A} a (m : K T A) (P Q : A -> account -> Prop) :
  from a m P -> (forall x a', P x a' -> Q x a') -> from a m Q.
Proof. intros Hm HPQ t c Ht. eapply wlp_mono; [by apply Hm|]. intros x t' c' HP. by apply HPQ. Qed.

Lemma from_then {A B} a (m : K T A) (k : A -> K T B) Q :
  keeps m -> (forall x, from a (k x) Q) -> from a (mbind k m) Q.
Proof. intros Hm Hk. eapply from_bind; [apply Hm|]. intros x a' ->. apply Hk. Qed.

Lemma from_panic {A} a msg (Q : A -> account -> Prop) : from a (panic msg) Q.
Proof. intros t c _. by lsteps. Qed.

Lemma keeps_ret {A} (x : A) : keeps (mret x).
Proof. intros a. by apply from_ret. Qed.
Lemma keeps_bind {A B} (m : K T A) (k : A -> K T B) : keeps m -> (forall x, keeps (k x)) -> keeps (mbind k m).
Proof. intros Hm Hk a. apply from_then; [done|]. intros x. apply Hk. Qed.
Lemma keeps_panic {A} msg : keeps (panic msg : K T A).
Proof. intros a t c Ht. by lsteps. Qed.
Lemma keeps_gets {A} (g : T -> A) : keeps (gets g).
Proof. intros a t c Ht. by lsteps. Qed.
Lemma keeps_acquire l : keeps (acquire l : K T unit).
Proof. intros a t c Ht. by lsteps. Qed.
Lemma keeps_release l : keeps (release l : K T unit).
Proof. intros a t c Ht. by lsteps. Qed.
End acct.

(** *** What keeps the account *)

Section keep.
Context {S : Type} `{BlockOps S}.
Implicit Types (f : fs S) (a : account).

Lemma keeps_blk {A} (m : K S A) : keeps (zoom log_lens (zoom blk_lens m)).
Proof. intros a f c Hf. unfold wlp, zoom. cbn. by destruct (m _ _). Qed.

Lemma keeps_log {A} (m : K (log S) A) : (forall n, preserves (fun l => outstanding l = n) m) -> keeps (zoom log_lens m).
Proof.
  intros Hm a f c Hf. specialize (Hm (outstanding (flog f)) (flog f) c eq_refl). unfold wlp, zoom in *. cbn.
  subst a. unfold acct, fs_acct in *. destruct (m _ _); cbn; [by f_equal|done..].
Qed.

Lemma fmap_alter_same (g : inode -> inode) i (l : list inode) :
  (forall x, slot_of (g x) = slot_of x) -> slot_of <$> alter g i l = slot_of <$> l.
Proof.
  intros Hg. apply list_eq. intros j. rewrite !list_lookup_fmap.
  destruct (decide (i = j)) as [->|Hne]; [|by rewrite list_lookup_alter_ne].
  rewrite list_lookup_alter_eq. destruct (l !! j); cbn; by rewrite ?Hg.
Qed.

Lemma keeps_upd_ip i g : (forall x, slot_of (g x) = slot_of x) -> keeps (upd_ip i g : K (fs S) unit).
Proof. intros Hg a f c <-. unfold upd_ip. lsteps. unfold acct, fs_acct. cbn. by rewrite fmap_alter_same. Qed.

Lemma keeps_get_ip i : keeps (get_ip i : K (fs S) inode).
Proof. apply keeps_bind; [apply keeps_gets|]. intros x. destruct (x !! i); [apply keeps_ret|apply keeps_panic]. Qed.

Lemma keeps_fsb sb : keeps (modify (set_fsb sb) : K (fs S) unit).
Proof. intros a f c <-. by lsteps. Qed.
End keep.

Create HintDb keeps.
#[export] Hint Resolve keeps_ret keeps_panic keeps_gets keeps_acquire keeps_release keeps_blk keeps_get_ip keeps_fsb : keeps.
#[export] Hint Extern 1 (keeps (upd_ip _ _)) => (apply keeps_upd_ip; intros ?; reflexivity) : keeps.

(** Walks down an operation that keeps the account. *)
Ltac keep :=
  repeat lazymatch goal with
  | |- keeps (mbind _ _) => apply keeps_bind; [|intros ?]
  | |- keeps (match ?x with _ => _ end) => destruct x eqn:?
  | |- _ => fail
  end; auto with keeps.

(** *** The log *)

Section log.
Context {S : Type} `{BlockOps S}.
Implicit Types a : account.

Lemma out_blk {A} n (m : K S A) : preserves (fun l : log S => outstanding l = n) (zoom blk_lens m).
Proof. intros l c Hl. unfold wlp, zoom. cbn. by destruct (m _ _). Qed.

Lemma out_lh_set n i b : preserves (fun l : log S => outstanding l = n) (lh_set i b).
Proof. unfold lh_set. preserve. by apply preserves_modify. Qed.

Lemma out_lh_get n i : preserves (fun l : log S => outstanding l = n) (lh_get i).
Proof. unfold lh_get. preserve. Qed.

Lemma out_data n i : preserves (fun l : log S => outstanding l = n) (data i).
Proof. unfold data. preserve. Qed.

Lemma out_set_data n i d : preserves (fun l : log S => outstanding l = n) (set_data i d).
Proof. unfold set_data. by apply preserves_modify. Qed.

Lemma out_for_tail n (body : nat -> K (log S) unit) k i :
  (forall j, preserves (fun l : log S => outstanding l = n) (body j)) ->
  preserves (fun l : log S => outstanding l = n) (for_tail body k i).
Proof. intros Hb. revert i. induction k as [|k IH]; intros i; cbn [for_tail]; preserve. Qed.

Hint Resolve out_blk out_lh_set out_lh_get out_data out_set_data out_for_tail : pres.

Lemma out_log_write n i : preserves (fun l : log S => outstanding l = n) (log_write i).
Proof. unfold log_write. preserve; by apply preserves_modify. Qed.

Lemma out_readsb n dev : preserves (fun l : log S => outstanding l = n) (readsb dev).
Proof. unfold readsb. preserve. Qed.

Lemma out_write_head n : preserves (fun l : log S => outstanding l = n) write_head.
Proof. unfold write_head. preserve. Qed.

Lemma out_install_trans n : preserves (fun l : log S => outstanding l = n) install_trans.
Proof. unfold install_trans. preserve. apply out_for_tail. intros j. unfold install_one. preserve. Qed.

Lemma out_write_log n : preserves (fun l : log S => outstanding l = n) write_log.
Proof. unfold write_log. preserve. apply out_for_tail. intros j. unfold write_log_one. preserve. Qed.

Hint Resolve out_log_write out_write_head out_install_trans out_write_log : pres.

Lemma out_commit n : preserves (fun l : log S => outstanding l = n) commit.
Proof. unfold commit. preserve; by apply preserves_modify. Qed.

Lemma from_log {A} a k (m : K (log S) A) :
  (forall l c, wlp m (fun _ l' _ => outstanding l' = outstanding l + k) (fun _ _ => True) l c) ->
  from a (zoom log_lens m : K (fs S) A) (fun _ a' => a' = reserve k a).
Proof.
  intros Hm f c <-. specialize (Hm (flog f) c). unfold wlp, zoom in *. cbn.
  destruct (m _ _); [|done..]. unfold acct, fs_acct, reserve. cbn. by rewrite Hm.
Qed.

Lemma begin_op_reserves a : from a (zoom log_lens begin_op : K (fs S) unit) (fun _ a' => a' = reserve 1 a).
Proof.
  apply from_log. intros l c. unfold begin_op. lsteps. case_match; [by lsteps|]. case_match; by lsteps.
Qed.

Lemma end_op_releases a : from a (zoom log_lens end_op : K (fs S) unit) (fun _ a' => a' = reserve (-1) a).
Proof.
  apply from_log. intros l c. unfold end_op. lsteps. case_match; [by lsteps|].
  cbn [outstanding set_outstanding]. destruct (outstanding l - 1 =? 0); lsteps; [|done].
  eapply wlp_mono_both; [by apply (out_commit (outstanding l - 1))| |done]. intros [] l' c' Hl'. by lsteps.
Qed.
End log.

#[export] Hint Resolve out_log_write out_data out_set_data out_readsb : pres.
#[export] Hint Extern 1 (keeps (zoom log_lens (log_write _))) => (apply keeps_log; intros ?; apply out_log_write) : keeps.
#[export] Hint Extern 1 (keeps (zoom log_lens (readsb _))) => (apply keeps_log; intros ?; apply out_readsb) : keeps.
#[export] Hint Extern 1 (keeps (fdata _)) => (apply keeps_log; intros ?; apply out_data) : keeps.
#[export] Hint Extern 1 (keeps (set_fdata _ _)) => (apply keeps_log; intros ?; apply out_set_data) : keeps.

(** *** Blocks and inode contents *)

Section contents.
Context {S : Type} `{BlockOps S}.
Implicit Types a : account.

Lemma keeps_fs_readsb dev : keeps (fs_readsb dev : K (fs S) unit).
Proof. unfold fs_readsb. keep. Qed.

Lemma keeps_bzero dev b : keeps (bzero dev b : K (fs S) unit).
Proof. unfold bzero. keep. Qed.

Hint Resolve keeps_fs_readsb keeps_bzero : keeps.

Lemma keeps_balloc dev : keeps (balloc dev : K (fs S) Z).
Proof.
  unfold balloc. keep. generalize (Z.to_nat (sb_size x / BPB) + 2)%nat, 0. intros fuel.
  induction fuel as [|fuel IH]; intros b; cbn [balloc_from]; keep.
Qed.

Lemma keeps_bfree dev b : keeps (bfree dev b : K (fs S) unit).
Proof. unfold bfree. keep. Qed.

Lemma keeps_iupdate i : keeps (iupdate i : K (fs S) unit).
Proof. unfold iupdate. keep. Qed.

Hint Resolve keeps_balloc keeps_bfree keeps_iupdate : keeps.

Lemma keeps_bmap i bn : keeps (bmap i bn : K (fs S) Z).
Proof. unfold bmap. keep. Qed.

Hint Resolve keeps_bmap : keeps.

Lemma keeps_itrunc i : keeps (itrunc i : K (fs S) unit).
Proof.
  assert (Hd : forall n k, keeps (itrunc_direct n i k : K (fs S) unit)).
  { intros n. induction n as [|n IH]; intros k; cbn [itrunc_direct]; keep. }
  assert (Hi : forall n dev bp j, keeps (itrunc_indirect n dev bp j : K (fs S) unit)).
  { intros n dev bp. induction n as [|n IH]; intros j; cbn [itrunc_indirect]; keep. }
  unfold itrunc. keep.
Qed.

Lemma keeps_readi_loop fuel i : forall off n, keeps (readi_loop fuel i off n : K (fs S) bytes).
Proof. induction fuel as [|fuel IH]; intros off n; cbn [readi_loop]; keep. Qed.
End contents.
#[export] Hint Resolve keeps_itrunc keeps_iupdate keeps_readi_loop : keeps.

(** *** References and locks *)

Section refs.
Context {S : Type} `{BlockOps S}.
Implicit Types (f : fs S) (a : account).

Lemma fmap_alter_slot (g : inode -> inode) h i (l : list inode) :
  (forall x, l !! i = Some x -> slot_of (g x) = h (slot_of x)) -> slot_of <$> alter g i l = alter h i (slot_of <$> l).
Proof.
  intros Hg. apply list_eq. intros j. rewrite !list_lookup_fmap.
  destruct (decide (i = j)) as [->|Hne]; [|by rewrite !list_lookup_alter_ne, list_lookup_fmap].
  rewrite !list_lookup_alter_eq, list_lookup_fmap. destruct (l !! j) as [x|]; [|done]. cbn. f_equal. by apply Hg.
Qed.

Lemma get_ip_slot a i : from a (get_ip i : K (fs S) inode) (fun x a' => a' = a /\ fst a !! i = Some (slot_of x)).
Proof.
  intros f c <-. unfold get_ip. lsteps. destruct (icache f !! i) as [x|] eqn:E; lsteps.
  split; [done|]. unfold acct, fs_acct. cbn. by rewrite list_lookup_fmap, E.
Qed.

Lemma iget_refers a dev n : from a (iget dev n : K (fs S) nat) (fun i a' => a' = refer 1 i a).
Proof.
  intros f c <-. unfold iget, upd_ip. lsteps. destruct (find_idx _ (icache f)) as [i|].
  - lsteps. unfold acct, fs_acct, refer. cbn. f_equal. by apply fmap_alter_slot.
  - destruct (find_idx _ (icache f)) as [i|] eqn:Ei; [|by lsteps]. apply find_idx_Some in Ei as [(x & Hx & H0) _].
    lsteps. unfold acct, fs_acct, refer. cbn. f_equal. rewrite !list_alter_alter_eq. apply fmap_alter_slot.
    intros y Hy. rewrite Hx in Hy. injection Hy as <-. apply Z.eqb_eq in H0. unfold slot_of, add_ref. cbn. by rewrite H0.
Qed.

Lemma idup_refers a i : from a (idup i : K (fs S) nat) (fun j a' => j = i /\ a' = refer 1 i a).
Proof.
  intros f c <-. unfold idup, upd_ip. lsteps. split; [done|]. unfold acct, fs_acct, refer. cbn. f_equal. by apply fmap_alter_slot.
Qed.

Lemma acquire_relocks a i : from a (acquiresleep (ip_lens i) (L_sleep_inode i) (C_inodeslp i) : K (fs S) unit)
  (fun _ a' => a' = relock true i a /\ (is_Some (fst a !! i) -> unlocked i a)).
Proof.
  intros f c <-. unfold acquiresleep. lsteps. case_match eqn:El; lsteps; [done|]. split.
  - unfold acct, fs_acct, relock. cbn. f_equal. by apply fmap_alter_slot.
  - unfold unlocked, acct, fs_acct. cbn in *. rewrite list_lookup_fmap. destruct (icache f !! i); cbn in *; [by rewrite El|by intros [? ?]].
Qed.

Lemma release_relocks a i : from a (releasesleep (ip_lens i) (L_sleep_inode i) (C_inodeslp i) : K (fs S) unit)
  (fun _ a' => a' = relock false i a).
Proof.
  intros f c <-. unfold releasesleep. lsteps. unfold acct, fs_acct, relock. cbn. f_equal. by apply fmap_alter_slot.
Qed.

Lemma relock_is_Some b i a : is_Some (fst (relock b i a) !! i) <-> is_Some (fst a !! i).
Proof. unfold relock. cbn. by rewrite list_lookup_alter_eq, fmap_is_Some. Qed.

Lemma ilock_locks a i : from a (ilock i : K (fs S) unit) (fun _ a' => unlocked i a /\ a' = relock true i a).
Proof.
  unfold ilock. eapply from_bind; [apply get_ip_slot|]. intros x _ [-> Hx].
  case_match; [apply from_panic|]. eapply from_bind; [apply acquire_relocks|].
  intros [] a' [-> Hu]. specialize (Hu (ltac:(by rewrite Hx))).
  apply (from_mono _ _ (fun _ a' => a' = relock true i a)); [|done].
  match goal with |- from _ ?m _ => assert (Hk : keeps m) by keep end. apply Hk.
Qed.

Lemma iunlock_unlocks a i : from a (iunlock i : K (fs S) unit) (fun _ a' => a' = relock false i a).
Proof.
  unfold iunlock. apply from_then; [unfold holdingsleep; keep|]. intros h. apply from_then; [apply keeps_get_ip|].
  intros x. case_match; [apply from_panic|apply release_relocks].
Qed.

Lemma iput_unrefers a i : from a (iput i : K (fs S) unit) (fun _ a' => unlocked i a /\ a' = refer (-1) i a).
Proof.
  unfold iput. eapply from_bind; [apply acquire_relocks|]. intros [] a' [-> Hu].
  eapply from_bind; [apply get_ip_slot|]. intros x a' [-> Hx].
  specialize (Hu (proj1 (relock_is_Some true i a) (ltac:(by rewrite Hx)))).
  apply from_then; [keep|]. intros []. eapply from_bind; [apply release_relocks|]. intros [] a' ->.
  rewrite relock_back by done. apply from_then; [apply keeps_acquire|]. intros [].
  apply (from_bind _ _ _ (fun _ a' => a' = refer (-1) i a)).
  - intros f c <-. unfold upd_ip. lsteps. unfold acct, fs_acct, refer. cbn. f_equal. by apply fmap_alter_slot.
  - intros [] a' ->. eapply from_mono; [apply keeps_release|]. by intros [] a' ->.
Qed.

(** Unlocking and dropping an inode that was locked in account [a]. *)
Lemma iunlockput_drops a i : unlocked i a -> from (relock true i a) (iunlockput i : K (fs S) unit) (fun _ a' => a' = refer (-1) i a).
Proof.
  intros Hu. unfold iunlockput. eapply from_bind; [apply iunlock_unlocks|]. intros [] a' ->.
  rewrite relock_back by done. eapply from_mono; [apply iput_unrefers|]. by intros [] a' [_ ->].
Qed.
End refs.

(** *** Directories and paths *)

Section paths.
Context {S : Type} `{BlockOps S}.
Variable devsw_read : Z -> option (nat -> Z -> K (fs S) (Z * bytes)).

(** A device's read function gives back what it takes: consoleread unlocks
    the inode while it waits and locks it again. *)
Hypothesis devices_keep : forall n g, devsw_read n = Some g -> forall i k, keeps (g i k).

Lemma keeps_readi i off n : keeps (readi devsw_read i off n).
Proof. unfold readi. keep. by eapply devices_keep. Qed.

Hint Resolve keeps_readi : keeps.

(** The account of a search that found inode [fst r], or nothing. *)
Definition found {A} (a : account) (r : option (nat * A)) (a' : account) : Prop :=
  match r with Some (i, _) => a' = refer 1 i a | None => a' = a end.

Lemma dirlookup_finds a dp name : from a (dirlookup devsw_read dp name) (found a).
Proof.
  unfold dirlookup. apply from_then; [apply keeps_get_ip|]. intros x. case_match; [apply from_panic|].
  generalize (Z.to_nat (isize x / sizeof_dirent) + 1)%nat, 0. intros fuel.
  induction fuel as [|fuel IH]; intros off; cbn [dirlookup_from]; [by apply from_ret|].
  apply from_then; [apply keeps_get_ip|]. intros y. case_match; [|by apply from_ret].
  apply from_then; [apply keeps_readi|]. intros [k de]. case_match; [apply from_panic|]. case_match; [apply IH|].
  case_match; [|apply IH]. eapply from_bind; [apply iget_refers|]. intros i a' ->. by apply from_ret.
Qed.

Lemma namex_loop_finds fuel parent : forall a ip path name,
  from (refer 1 ip a) (namex_loop devsw_read fuel ip parent path name) (found a).
Proof.
  induction fuel as [|fuel IH]; intros a ip path name; cbn [namex_loop]; [apply from_panic|].
  assert (Hdrop : forall r : option (nat * bytes), r = None -> unlocked ip (refer 1 ip a) ->
    from (relock true ip (refer 1 ip a)) (iunlockput ip;; mret r) (found a)).
  { intros r -> Hu. eapply from_bind; [by apply iunlockput_drops|]. intros [] a' ->. apply from_ret, refer_back. }
  destruct (skipelem path name) as [[path' name']|].
  - eapply from_bind; [apply ilock_locks|]. intros [] a' [Hu ->].
    apply from_then; [apply keeps_get_ip|]. intros x. case_match; [by apply Hdrop|]. case_match.
    { eapply from_bind; [apply iunlock_unlocks|]. intros [] a' ->. apply from_ret. cbn. by apply relock_back. }
    eapply from_bind; [apply dirlookup_finds|]. intros [[next off]|] a' Ha'; cbn in Ha'; subst a'; [|by apply Hdrop].
    rewrite <- relock_refer. eapply from_bind; [by apply iunlockput_drops, unlocked_refer|]. intros [] a' ->.
    rewrite (refer_comm (-1) 1 ip next), refer_back. apply IH.
  - destruct parent; [|by apply from_ret]. eapply from_bind; [apply iput_unrefers|]. intros [] a' [_ ->].
    apply from_ret. cbn. apply refer_back.
Qed.

Lemma namei_finds a cwd path : from a (namei devsw_read cwd path)
  (fun r a' => match r with Some i => a' = refer 1 i a | None => a' = a end).
Proof.
  unfold namei, namex. apply (from_bind _ _ _ (found a)).
  - apply (from_bind _ _ _ (fun i a' => a' = refer 1 i a)).
    + case_match; [apply iget_refers|]. eapply from_mono; [apply idup_refers|]. by intros i a' [-> ->].
    + intros ip a' ->. apply namex_loop_finds.
  - intros [[i nm]|] a' Ha'; by apply from_ret.
Qed.
End paths.
