(* ===== verification/Mkfs.v ===== *)
(** * mkfs.c: building the file system image

    The image is a file of FSSIZE blocks; a call that fails ends the program
    ([None]).  The program runs on a little-endian machine, where xint and
    xshort change nothing.  The names and the contents of the files, as the
    calls of read return them, are arguments. *)

From stdpp Require Import base numbers strings gmap list.
From S2P Require Import Prelude Kmonad Kstring Mmu Block Log LogProof Fs.

Local Open Scope Z_scope.

Definition NINODES : Z := 200.
Definition nbitmap : Z := FSSIZE / (BSIZE * 8) + 1.
Definition ninodeblocks : Z := NINODES / IPB + 1.
Definition nlog : Z := LOGSIZE.
Definition nmeta : Z := 2 + nlog + ninodeblocks + nbitmap.
Definition nblocks : Z := FSSIZE - nmeta.

(** The bytes of a number, lowest first, read back as a number. *)
Definition xshort (x : Z) : Z := le_val (le_bytes 2 x).
Definition xint (x : Z) : Z := le_val (le_bytes 4 x).

Definition sb : superblock :=
  mksb (xint FSSIZE) (xint nblocks) (xint NINODES) (xint nlog) (xint 2) (xint (2 + nlog)) (xint (2 + nlog + ninodeblocks)).

(** The image and the two counters. *)
Record mk : Type := mkmk {
  img : blocks;
  freeinode : Z;
  freeblock : Z
}.

Definition M (A : Type) : Type := mk -> option (A * mk).
#[export] Instance M_ret : MRet M := fun A a s => Some (a, s).
#[export] Instance M_bind : MBind M := fun A B f m s => match m s with Some (a, s) => f a s | None => None end.

(** exit(1) and a failed assert *)
Definition fail {A} : M A := fun _ => None.
Definition assert (b : bool) : M unit := if b then mret tt else fail.
Definition fetch : M mk := fun s => Some (s, s).

Definition wsect (sec : Z) (buf : bytes) : M unit := fun s => Some (tt, mkmk (<[sec := buf]> (img s)) (freeinode s) (freeblock s)).
Definition rsect (sec : Z) : M bytes := fun s => match img s !! sec with Some d => Some (d, s) | None => None end.

(** freeblock++ and freeinode++ *)
Definition next_block : M Z := fun s => Some (freeblock s, mkmk (img s) (freeinode s) (u32 (freeblock s + 1))).
Definition next_inode : M Z := fun s => Some (freeinode s, mkmk (img s) (u32 (freeinode s + 1)) (freeblock s)).

Definition winode (inum : Z) (ip : inode) : M unit :=
  let bn := IBLOCK inum sb in
  buf ← rsect bn;
  wsect bn (store_dinode (dinode_off inum) ip buf).

Definition rinode (inum : Z) : M inode :=
  buf ← rsect (IBLOCK inum sb);
  mret (load_dinode (dinode_off inum) buf zero_inode).

Definition ialloc (type : Z) : M Z :=
  inum ← next_inode;
  winode inum (set_isize (xint 0) (set_nlink (xshort 1) (set_itype (xshort type) zero_inode)));;
  mret inum.

(** The loop of balloc. *)
Fixpoint mark_used (n : nat) (buf : bytes) : bytes :=
  match n with
  | O => buf
  | S n =>
      let buf := mark_used n buf in
      let k := (n / 8)%nat in
      bput k [Z.lor (nth_byte buf k) (Z.shiftl 1 (Z.of_nat n mod 8))] buf
  end.

Definition balloc (used : Z) : M unit :=
  assert (used <? BSIZE * 8);;
  wsect (sb_bmapstart sb) (mark_used (Z.to_nat used) (replicate BSIZEn 0)).

(** The block of the file block [fbn], which is allocated if there is none. *)
Definition file_block (din : inode) (fbn : nat) : M (Z * inode) :=
  if Nat.ltb fbn NDIRECT then
    din ← (if xint (default 0 (addrs din !! fbn)) =? 0 then b ← next_block; mret (set_addrs (<[fbn := xint b]> (addrs din)) din) else mret din);
    mret (xint (default 0 (addrs din !! fbn)), din)
  else
    din ← (if xint (default 0 (addrs din !! NDIRECT)) =? 0 then b ← next_block; mret (set_addrs (<[NDIRECT := xint b]> (addrs din)) din) else mret din);
    let ib := xint (default 0 (addrs din !! NDIRECT)) in
    indirect ← rsect ib;
    let k := (4 * (fbn - NDIRECT))%nat in
    indirect ← (if get_u32 k indirect =? 0 then b ← next_block; let indirect := put_u32 k (xint b) indirect in wsect ib indirect;; mret indirect
                else mret indirect);
    mret (xint (get_u32 k indirect), din).

(** The loop of iappend: the bytes [p] at offset [off]. *)
Fixpoint iappend_loop (fuel : nat) (din : inode) (off : Z) (p : bytes) : M (inode * Z) :=
  match fuel, p with
  | _, [] => mret (din, off)
  | O, _ => fail
  | S fuel, _ =>
      let n := Z.of_nat (length p) in
      let fbn := off / BSIZE in
      assert (fbn <? MAXFILE);;
      '(x, din) ← file_block din (Z.to_nat fbn);
      let n1 := Z.min n ((fbn + 1) * BSIZE - off) in
      buf ← rsect x;
      wsect x (bput (Z.to_nat (off - fbn * BSIZE)) (take (Z.to_nat n1) p) buf);;
      iappend_loop fuel din (u32 (off + n1)) (drop (Z.to_nat n1) p)
  end.

Definition iappend (inum : Z) (p : bytes) : M unit :=
  din ← rinode inum;
  r ← iappend_loop (length p) din (xint (isize din)) p;
  let '(din, off) := r in
  winode inum (set_isize (xint off) din).

(** The directory entry: a zeroed struct with the number and the name. *)
Definition dirent (inum : Z) (name : bytes) : bytes := make_dirent name (xshort inum).

(** A file: its name on the command line, and what the calls of read give. *)
Notation file := (bytes * list bytes)%type.

Fixpoint append_all (inum : Z) (chunks : list bytes) : M unit :=
  match chunks with
  | [] => mret tt
  | c :: chunks => iappend inum c;; append_all inum chunks
  end.

(** Skip a leading underscore. *)
Definition file_name (arg : bytes) : bytes := match arg with 95 :: name => name | _ => arg end.

Definition add_file (rootino : Z) (f : file) : M unit :=
  let '(arg, chunks) := f in
  assert (negb (existsb (Z.eqb 47) arg));;
  inum ← ialloc T_FILE;
  iappend rootino (dirent inum (file_name arg));;
  append_all inum chunks.

Fixpoint add_files (rootino : Z) (fs : list file) : M unit :=
  match fs with
  | [] => mret tt
  | f :: fs => add_file rootino f;; add_files rootino fs
  end.

Fixpoint zero_blocks (n : nat) : M unit :=
  match n with
  | O => mret tt
  | S n => zero_blocks n;; wsect (Z.of_nat n) (replicate BSIZEn 0)
  end.

(** The superblock, in a block of zeros. *)
Definition sb_buf : bytes :=
  bput 0 (flat_map (le_bytes 4) [sb_size sb; sb_nblocks sb; sb_ninodes sb; sb_nlog sb; sb_logstart sb; sb_inodestart sb; sb_bmapstart sb])
    (replicate BSIZEn 0).

(** The size of the root directory is rounded up. *)
Definition fix_root (rootino : Z) : M unit :=
  din ← rinode rootino;
  let off := xint (isize din) in
  let off := u32 ((off / BSIZE + 1) * BSIZE) in
  winode rootino (set_isize (xint off) din).

Definition main (files : list file) : M unit :=
  zero_blocks (Z.to_nat FSSIZE);;
  wsect 1 sb_buf;;
  rootino ← ialloc T_DIR;
  assert (rootino =? ROOTINO);;
  iappend rootino (dirent rootino [46]);;
  iappend rootino (dirent rootino [46; 46]);;
  add_files rootino files;;
  fix_root rootino;;
  s ← fetch;
  balloc (freeblock s).

(** The empty image file and the counters before main. *)
Definition mk0 : mk := mkmk ∅ 1 nmeta.

Definition mkfs_image (files : list file) : option blocks := (fun r => img (snd r)) <$> main files mk0.
