(* ===== verification/MkfsProof.v ===== *)
(** * mkfs.c builds the image it is asked for

    The image is read back with the kernel's own definitions: [faddr] and
    [fbyte] of FsInode.v for the blocks and bytes of a file.  [holds] relates
    the state of mkfs to the list of the files made so far; ialloc and
    iappend are shown to implement adding a file and appending to one. *)

From stdpp Require Import base numbers strings gmap list.
From S2P Require Import Prelude Kmonad Kstring Mmu Block Log LogProof Fs FsTx FsInode FsFile FsWrite FsDir Mkfs.

Local Open Scope Z_scope.

(** [m] succeeds with a result that satisfies [Q]. *)
Definition does {A} (m : M A) (Q : A -> mk -> Prop) (s : mk) : Prop := exists a s', m s = Some (a, s') /\ Q a s'.

Lemma does_ret {A} (a : A) Q s : Q a s -> does (mret a) Q s.
Proof. intros HQ. by exists a, s. Qed.

Lemma does_bind {A B} (m : M A) (f : A -> M B) Q s : does m (fun a s' => does (f a) Q s') s -> does (mbind f m) Q s.
Proof. intros (a & s1 & E1 & b & s2 & E2 & HQ). exists b, s2. split; [|done]. unfold mbind, M_bind. by rewrite E1. Qed.

Lemma does_mono {A} (m : M A) (P Q : A -> mk -> Prop) s : does m P s -> (forall a s', P a s' -> Q a s') -> does m Q s.
Proof. intros (a & s' & E & HP) H. exists a, s'. auto. Qed.

Lemma does_assert b Q s : b = true -> Q tt s -> does (assert b) Q s.
Proof. intros -> HQ. by apply does_ret. Qed.

Lemma does_rsect b d Q s : img s !! b = Some d -> Q d s -> does (rsect b) Q s.
Proof. intros Hb HQ. exists d, s. split; [|done]. unfold rsect. by rewrite Hb. Qed.

Lemma does_wsect b d (Q : unit -> mk -> Prop) s : Q tt (mkmk (<[b := d]> (img s)) (freeinode s) (freeblock s)) -> does (wsect b d) Q s.
Proof. intros HQ. by eexists _, _. Qed.

Lemma does_next_block (Q : Z -> mk -> Prop) s : 0 <= freeblock s < 4294967295 -> Q (freeblock s) (mkmk (img s) (freeinode s) (freeblock s + 1)) -> does next_block Q s.
Proof. intros Hb HQ. exists (freeblock s), (mkmk (img s) (freeinode s) (freeblock s + 1)). split; [|done]. unfold next_block. by rewrite u32_id by (unfold in_u32; lia). Qed.

Lemma xint_id x : in_u32 x -> xint x = x.
Proof. intros Hx. unfold xint. rewrite le_val_bytes. by apply u32_id. Qed.

Lemma xshort_id x : in_u16 x -> xshort x = x.
Proof. intros Hx. unfold xshort. rewrite le_val_bytes. by apply u16_id. Qed.

(** ** Blocks of a file under construction *)

(** Every block is there. *)
Definition full (V : blocks) : Prop := forall b, 0 <= b < FSSIZE -> exists d, V !! b = Some d /\ wf_block d.

(** The blocks from [fb] on are still zero. *)
Definition fresh (V : blocks) (fb : Z) : Prop := forall b, fb <= b < FSSIZE -> at_block V b = replicate BSIZEn 0.

(** The slots of inode [x] that are in use name different blocks below
    [fb]. *)
Record slots_ok (V : blocks) (x : inode) (fb : Z) : Prop := {
  so_len : length (addrs x) = 13%nat;
  so_range : forall k, (k <= NSLOT)%nat -> faddr V x k <> 0 -> nmeta <= faddr V x k < fb;
  so_inj : forall j k, (j <= NSLOT)%nat -> (k <= NSLOT)%nat -> faddr V x j <> 0 -> faddr V x j = faddr V x k -> j = k
}.

Lemma nmeta_eq : nmeta = 59.
Proof. reflexivity. Qed.

Lemma full_at V b : full V -> 0 <= b < FSSIZE -> V !! b = Some (at_block V b) /\ wf_block (at_block V b).
Proof. intros Hf Hb. destruct (Hf b Hb) as (d & Hd & Hw). unfold at_block. by rewrite Hd. Qed.

Lemma full_insert V b d : full V -> wf_block d -> full (<[b := d]> V).
Proof.
  intros Hf Hd c Hc. destruct (decide (b = c)) as [<-|Hne]; [exists d; by rewrite lookup_insert_eq|].
  rewrite lookup_insert_ne by done. by apply Hf.
Qed.

Lemma at_insert V b d : at_block (<[b := d]> V) b = d.
Proof. unfold at_block. by rewrite lookup_insert_eq. Qed.

Lemma at_insert_ne V b d c : b <> c -> at_block (<[b := d]> V) c = at_block V c.
Proof. intros Hne. unfold at_block. by rewrite lookup_insert_ne. Qed.

(** One more slot, with the next free block. *)
Lemma slots_extend V x fb V' x' s : slots_ok V x fb -> nmeta <= fb -> faddr V x s = 0 -> length (addrs x') = 13%nat ->
  (forall j, (j <= NSLOT)%nat -> faddr V' x' j = if decide (j = s) then fb else faddr V x j) -> slots_ok V' x' (fb + 1).
Proof.
  intros [S1 S2 S3] Hfb Hs Hl Hf. pose proof nmeta_eq as Hn. split; [done| |].
  - intros k Hk. rewrite Hf by done. case_decide; [lia|]. intros Hk'. specialize (S2 k Hk Hk'). lia.
  - intros j k Hj Hk. rewrite !Hf by done. repeat case_decide; subst; try done.
    + intros _ E. assert (faddr V x k <> 0) as Hk' by lia. specialize (S2 k Hk Hk'). lia.
    + intros Hj' E. specialize (S2 j Hj Hj'). lia.
    + intros Hj'. by apply S3.
Qed.

(** A direct block. *)
Lemma faddr_new_direct V x b k j : length (addrs x) = 13%nat -> (k < NDIRECT)%nat ->
  faddr V (set_addrs (<[k := b]> (addrs x)) x) j = if decide (j = k) then b else faddr V x j.
Proof.
  intros Hl Hk. unfold faddr, ind_of. cbn [set_addrs addrs]. rewrite (list_lookup_insert_ne _ k NDIRECT) by lia.
  destruct (Nat.ltb_spec j NDIRECT) as [Hj|Hj].
  - case_decide as E; [subst; by rewrite list_lookup_insert_eq by (unfold NDIRECT in *; lia)|]. by rewrite list_lookup_insert_ne by done.
  - rewrite decide_False by lia. done.
Qed.

(** The indirect block, which is zero. *)
Lemma faddr_new_ind V x b j : length (addrs x) = 13%nat -> ind_of x = 0 -> b <> 0 -> at_block V b = replicate BSIZEn 0 -> (j <= NSLOT)%nat ->
  faddr V (set_addrs (<[NDIRECT := b]> (addrs x)) x) j = if decide (j = NSLOT) then b else faddr V x j.
Proof.
  intros Hl H0 Hb Hz Hj. unfold faddr. replace (ind_of (set_addrs _ _)) with b by (unfold ind_of; cbn [set_addrs addrs]; by rewrite list_lookup_insert_eq by (unfold NDIRECT; lia)).
  destruct (Nat.ltb_spec j NDIRECT) as [Hj'|Hj'].
  - cbn [set_addrs addrs]. rewrite list_lookup_insert_ne by lia. rewrite decide_False by (unfold NDIRECT, NSLOT in *; lia). done.
  - destruct (Nat.ltb_spec j NSLOT); [|by rewrite decide_True by lia]. rewrite decide_False by lia.
    rewrite (proj2 (Z.eqb_neq _ _) Hb), H0, Hz. apply get_u32_zeros. unfold NDIRECT, NSLOT in *. lia.
Qed.

(** An entry of the indirect block. *)
Lemma faddr_new_entry V x b k j : ind_of x <> 0 -> wf_block (at_block V (ind_of x)) -> in_u32 b -> (NDIRECT <= k < NSLOT)%nat -> (j <= NSLOT)%nat ->
  faddr (<[ind_of x := put_u32 (4 * (k - NDIRECT)) b (at_block V (ind_of x))]> V) x j = if decide (j = k) then b else faddr V x j.
Proof.
  intros Hi [Hl _] Hb Hk Hj. unfold faddr. destruct (Nat.ltb_spec j NDIRECT) as [Hj'|Hj']; [by rewrite decide_False by lia|].
  destruct (Nat.ltb_spec j NSLOT); [|by rewrite decide_False by lia]. rewrite (proj2 (Z.eqb_neq _ _) Hi), at_insert.
  unfold NDIRECT, NSLOT, BSIZEn in *. case_decide as E.
  - subst. rewrite get_put_u32 by lia. by apply u32_id.
  - apply get_put_u32_ne; lia.
Qed.

(** The file block [k] has been given a block where it had none, and so has
    the indirect block: [V'] and [x'] have the new slots, at or above the
    old free block [fb], and nothing else has changed. *)
Record grown (V : blocks) (x : inode) (fb : Z) (k : nat) (V' : blocks) (x' : inode) (fb' : Z) : Prop := {
  gr_slots : slots_ok V' x' fb';
  gr_full : full V';
  gr_fresh : fresh V' fb';
  gr_other : forall j, (j < NSLOT)%nat -> j <> k -> faddr V' x' j = faddr V x j;
  gr_at : faddr V' x' k <> 0 /\ (faddr V' x' k = faddr V x k \/ faddr V x k = 0 /\ fb <= faddr V' x' k);
  gr_ind : (ind_of x' = ind_of x \/ ind_of x = 0 /\ fb <= ind_of x') /\ (ind_of x' <> 0 <-> ind_of x <> 0 \/ (NDIRECT <= k)%nat);
  gr_mem : forall b, (b = ind_of x' -> b <= 0) -> V' !! b = V !! b;
  gr_same : x' = set_addrs (addrs x') x
}.

(** The blocks that it takes. *)
Definition new_blocks (V : blocks) (x : inode) (k : nat) : Z :=
  (if faddr V x k =? 0 then 1 else 0) + (if Nat.leb NDIRECT k && (ind_of x =? 0) then 1 else 0).

Section grow.
Context (V : blocks) (x : inode) (fb : Z) (k : nat).
Hypothesis Hfull : full V.
Hypothesis Hslots : slots_ok V x fb.
Hypothesis Hfresh : fresh V fb.
Hypothesis Hfb : nmeta <= fb.
Hypothesis Hk : (k < NSLOT)%nat.

Lemma set_addrs_id : x = set_addrs (addrs x) x.
Proof. clear. by destruct x. Qed.

Lemma grown_none : faddr V x k <> 0 -> ((NDIRECT <= k)%nat -> ind_of x <> 0) -> grown V x fb k V x fb.
Proof. intros Ha Hi. split; try done; [tauto|split; [by left|tauto]|apply set_addrs_id]. Qed.

Lemma fresh_le fb' V' : fb <= fb' -> (forall b, fb' <= b < FSSIZE -> V' !! b = V !! b) -> fresh V' fb'.
Proof. intros Hle He b Hb. unfold at_block. rewrite He by done. apply Hfresh. lia. Qed.

Lemma ind_direct b : (k < NDIRECT)%nat -> ind_of (set_addrs (<[k := b]> (addrs x)) x) = ind_of x.
Proof. clear - V. intros H. unfold ind_of. cbn [set_addrs addrs]. by rewrite list_lookup_insert_ne by lia. Qed.

Lemma grown_direct : (k < NDIRECT)%nat -> faddr V x k = 0 -> fb < FSSIZE -> grown V x fb k V (set_addrs (<[k := fb]> (addrs x)) x) (fb + 1).
Proof.
  intros Hd H0 Hlt. pose proof nmeta_eq as Hn. pose proof (so_len _ _ _ Hslots) as Hl.
  assert (Hf : forall j, faddr V (set_addrs (<[k := fb]> (addrs x)) x) j = if decide (j = k) then fb else faddr V x j) by (intros j; by apply faddr_new_direct).
  split; try done.
  - apply (slots_extend V x fb _ _ k); auto. cbn [set_addrs addrs]. by rewrite length_insert.
  - apply fresh_le; [lia|done].
  - intros j Hj Hne. rewrite Hf. by rewrite decide_False.
  - rewrite Hf, decide_True by done. split; [lia|right; lia].
  - rewrite ind_direct by done. split; [by left|]. split; [by left|]. intros [H|H]; [done|lia].
Qed.

Lemma grown_entry : (NDIRECT <= k)%nat -> ind_of x <> 0 -> faddr V x k = 0 -> fb < FSSIZE ->
  grown V x fb k (<[ind_of x := put_u32 (4 * (k - NDIRECT)) fb (at_block V (ind_of x))]> V) x (fb + 1).
Proof.
  intros Hd Hi H0 Hlt. pose proof nmeta_eq as Hn.
  assert (Hir : nmeta <= ind_of x < fb) by (apply (so_range _ _ _ Hslots NSLOT); [lia|by rewrite ind_slot]).
  destruct (full_at V (ind_of x) Hfull) as [_ Hw]; [lia|].
  assert (Hf : forall j, (j <= NSLOT)%nat -> faddr (<[ind_of x := put_u32 (4 * (k - NDIRECT)) fb (at_block V (ind_of x))]> V) x j = if decide (j = k) then fb else faddr V x j).
  { intros j Hj. apply faddr_new_entry; try done. unfold in_u32, FSSIZE in *. lia. }
  split.
  - apply (slots_extend V x fb _ _ k); auto. apply Hslots.
  - apply full_insert; [done|]. destruct Hw as [Hl Hb]. split; [|by apply Forall_put_u32]. rewrite length_put_u32; [done|unfold NDIRECT, NSLOT, BSIZEn in *; lia].
  - apply fresh_le; [lia|]. intros b Hb. rewrite lookup_insert_ne by lia. done.
  - intros j Hj Hne. rewrite Hf by lia. by rewrite decide_False.
  - rewrite Hf, decide_True by lia. split; [lia|right; lia].
  - split; [by left|tauto].
  - intros b Hb. rewrite lookup_insert_ne; [done|lia].
  - apply set_addrs_id.
Qed.

Lemma grown_both : (NDIRECT <= k)%nat -> ind_of x = 0 -> fb + 1 < FSSIZE ->
  let x' := set_addrs (<[NDIRECT := fb]> (addrs x)) x in
  ind_of x' = fb /\ grown V x fb k (<[fb := put_u32 (4 * (k - NDIRECT)) (fb + 1) (at_block V fb)]> V) x' (fb + 2).
Proof.
  intros Hd Hi Hlt x'. pose proof nmeta_eq as Hn. pose proof (so_len _ _ _ Hslots) as Hl.
  assert (Hi' : ind_of x' = fb) by (unfold ind_of, x'; cbn [set_addrs addrs]; by rewrite list_lookup_insert_eq by (unfold NDIRECT; lia)).
  split; [done|]. assert (H0 : faddr V x k = 0).
  { unfold faddr. rewrite (proj2 (Nat.ltb_ge _ _) Hd), (proj2 (Nat.ltb_lt _ _) Hk), Hi. done. }
  assert (Hz : at_block V fb = replicate BSIZEn 0) by (apply Hfresh; lia).
  assert (Hw : wf_block (at_block V fb)) by (apply (full_at V fb Hfull); lia).
  assert (Hf1 : forall j, (j <= NSLOT)%nat -> faddr V x' j = if decide (j = NSLOT) then fb else faddr V x j).
  { intros j Hj. apply faddr_new_ind; auto. lia. }
  assert (Hf : forall j, (j <= NSLOT)%nat -> faddr (<[fb := put_u32 (4 * (k - NDIRECT)) (fb + 1) (at_block V fb)]> V) x' j =
    if decide (j = k) then fb + 1 else faddr V x' j).
  { intros j Hj. pose proof (faddr_new_entry V x' (fb + 1) k j) as H. rewrite Hi' in H. apply H; try done; [lia|unfold in_u32, FSSIZE in *; lia]. }
  assert (Hlen : length (addrs x') = 13%nat) by (unfold x'; cbn [set_addrs addrs]; by rewrite length_insert).
  split.
  - replace (fb + 2) with (fb + 1 + 1) by lia. apply (slots_extend V x' (fb + 1) _ _ k); auto; [|lia|].
    + by apply (slots_extend V x fb _ _ NSLOT).
    + rewrite Hf1 by lia. rewrite decide_False by lia. done.
  - apply full_insert; [done|]. destruct Hw as [Hwl Hwb]. split; [|by apply Forall_put_u32]. rewrite length_put_u32; [done|unfold NDIRECT, NSLOT, BSIZEn in *; lia].
  - apply fresh_le; [lia|]. intros b Hb. by rewrite lookup_insert_ne by lia.
  - intros j Hj Hne. rewrite Hf, Hf1 by lia. rewrite !decide_False by lia. done.
  - rewrite Hf, decide_True by lia. split; [lia|right; lia].
  - rewrite Hi'. split; [right; lia|]. split; [by right|]. intros _. lia.
  - intros b. rewrite Hi'. intros Hb. rewrite lookup_insert_ne; [done|lia].
  - done.
Qed.
End grow.

Lemma new_blocks_bound V x k : 0 <= new_blocks V x k.
Proof. unfold new_blocks. repeat case_match; lia. Qed.

Section block_run.
Context (s : mk) (x : inode) (k : nat).
Let V := img s.
Let fb := freeblock s.
Hypothesis Hfull : full V.
Hypothesis Hslots : slots_ok V x fb.
Hypothesis Hfresh : fresh V fb.
Hypothesis Hfb : nmeta <= fb.
Hypothesis Hk : (k < NSLOT)%nat.
Hypothesis Hroom : fb + new_blocks V x k <= FSSIZE.

(** What file_block has to establish. *)
Let post (r : Z * inode) (s' : mk) : Prop :=
  freeinode s' = freeinode s /\ freeblock s' = fb + new_blocks V x k /\
  fst r = faddr (img s') (snd r) k /\ grown V x fb k (img s') (snd r) (freeblock s').

Lemma slot_xint j : (j <= NSLOT)%nat -> xint (faddr V x j) = faddr V x j.
Proof.
  intros Hj. pose proof nmeta_eq. pose proof (new_blocks_bound V x k). apply xint_id. unfold in_u32, FSSIZE in *.
  destruct (decide (faddr V x j = 0)) as [-> |Hne]; [lia|]. pose proof (so_range _ _ _ Hslots j Hj Hne). lia.
Qed.

Lemma direct_run : (k < NDIRECT)%nat -> does (file_block x k) post s.
Proof.
  intros Hd. pose proof nmeta_eq as Hn. pose proof Hroom as Hr. unfold file_block. rewrite (proj2 (Nat.ltb_lt _ _) Hd).
  assert (Ea : default 0 (addrs x !! k) = faddr V x k) by (unfold faddr; by rewrite (proj2 (Nat.ltb_lt _ _) Hd)).
  assert (En : new_blocks V x k = if faddr V x k =? 0 then 1 else 0) by (unfold new_blocks; rewrite (proj2 (Nat.leb_gt _ _) Hd); cbn; lia).
  apply does_bind. rewrite Ea, slot_xint by lia. unfold post. rewrite En in Hr |- *. destruct (Z.eqb_spec (faddr V x k) 0) as [E|E].
  - unfold FSSIZE in Hr. apply does_bind, does_next_block; [fold fb; lia|]. apply does_ret, does_ret. fold fb V. cbn [fst snd freeinode freeblock img set_addrs addrs].
    rewrite (xint_id fb) by (unfold in_u32; lia). rewrite list_lookup_insert_eq by (rewrite (so_len _ _ _ Hslots); unfold NDIRECT in Hd; lia). cbn [default from_option id].
    rewrite xint_id by (unfold in_u32; lia).
    rewrite faddr_new_direct by (try apply (so_len _ _ _ Hslots); done). rewrite decide_True by done. split_and!; try done.
    apply grown_direct; try done. unfold FSSIZE. lia.
  - apply does_ret, does_ret. cbn [fst snd]. rewrite Ea, slot_xint by lia. split_and!; try done; [fold fb; lia|]. apply grown_none; try done. lia.
Qed.

Lemma indirect_run : (NDIRECT <= k)%nat -> does (file_block x k) post s.
Proof.
  intros Hd. pose proof nmeta_eq as Hn. pose proof Hroom as Hr. unfold FSSIZE in Hr. unfold file_block. rewrite (proj2 (Nat.ltb_ge _ _) Hd).
  assert (Ei : xint (default 0 (addrs x !! NDIRECT)) = ind_of x) by (fold (ind_of x); rewrite <- (ind_slot V); apply slot_xint; lia).
  assert (En : new_blocks V x k = (if faddr V x k =? 0 then 1 else 0) + (if ind_of x =? 0 then 1 else 0)) by (unfold new_blocks; by rewrite (proj2 (Nat.leb_le _ _) Hd)).
  assert (Ef : faddr V x k = if ind_of x =? 0 then 0 else get_u32 (4 * (k - NDIRECT)) (at_block V (ind_of x))).
  { unfold faddr. by rewrite (proj2 (Nat.ltb_ge _ _) Hd), (proj2 (Nat.ltb_lt _ _) Hk). }
  pose proof (slot_xint k ltac:(lia)) as Hx. unfold post. apply does_bind. rewrite Ei. rewrite En in Hr |- *.
  destruct (Z.eqb_spec (ind_of x) 0) as [Hi|Hi].
  - rewrite Ef in Hr |- *. cbn [Z.eqb] in Hr |- *. apply does_bind, does_next_block; [fold fb; lia|]. apply does_ret. fold fb V. cbn [img freeinode freeblock].
    rewrite (xint_id fb) by (unfold in_u32; lia). cbn [set_addrs addrs]. rewrite list_lookup_insert_eq by (rewrite (so_len _ _ _ Hslots); unfold NDIRECT; lia). cbn [default from_option id].
    rewrite (xint_id fb) by (unfold in_u32; lia).
    destruct (grown_both V x fb k Hfull Hslots Hfresh Hfb Hk Hd Hi) as [Hi' Hg]; [unfold FSSIZE; lia|].
    destruct (full_at V fb Hfull) as [Hb Hwf]; [unfold FSSIZE; lia|]. apply does_bind. apply (does_rsect _ (at_block V fb)); [done|].
    assert (Hz : get_u32 (4 * (k - NDIRECT)) (at_block V fb) = 0) by (rewrite Hfresh by (unfold FSSIZE; lia); apply get_u32_zeros; unfold NDIRECT, NSLOT in *; lia).
    rewrite Hz. cbn [Z.eqb]. apply does_bind, does_bind, does_next_block; [cbn; lia|]. cbn [img freeinode freeblock].
    apply does_bind, does_wsect, does_ret, does_ret. cbn [img freeinode freeblock fst snd].
    rewrite (xint_id (fb + 1)) by (unfold in_u32; lia). rewrite get_put_u32 by (destruct Hwf as [Hl _]; rewrite Hl; unfold NDIRECT, NSLOT, BSIZEn in *; lia).
    rewrite (u32_id (fb + 1)), (xint_id (fb + 1)) by (unfold in_u32; lia). replace (fb + 1 + 1) with (fb + 2) by lia.
    split_and!; try done.
    pose proof (faddr_new_entry V (set_addrs (<[NDIRECT := fb]> (addrs x)) x) (fb + 1) k k) as H. rewrite Hi', decide_True in H by done.
    symmetry. apply H; [lia|done|unfold in_u32; lia|lia|lia].
  - assert (Hir : nmeta <= ind_of x < fb) by (apply (so_range _ _ _ Hslots NSLOT); [lia|by rewrite ind_slot]).
    assert (Hle : fb <= 1000) by (destruct (faddr V x k =? 0); lia).
    destruct (full_at V (ind_of x) Hfull) as [Hb Hwf]; [unfold FSSIZE; lia|].
    apply does_ret, does_bind. rewrite Ei. apply (does_rsect _ (at_block V (ind_of x))); [done|]. rewrite <- Ef. apply does_bind.
    destruct (Z.eqb_spec (faddr V x k) 0) as [E|E].
    + apply does_bind, does_next_block; [fold fb; lia|]. fold fb V. apply does_bind, does_wsect, does_ret, does_ret. cbn [img freeinode freeblock fst snd].
      rewrite (xint_id fb) by (unfold in_u32; lia). rewrite get_put_u32 by (destruct Hwf as [Hl _]; rewrite Hl; unfold NDIRECT, NSLOT, BSIZEn in *; lia).
      rewrite (u32_id fb), (xint_id fb) by (unfold in_u32; lia). fold V. split_and!; try done.
      * rewrite (faddr_new_entry V x fb k k) by (done || lia || unfold in_u32; lia). by rewrite decide_True.
      * apply grown_entry; try done. unfold FSSIZE. lia.
    + apply does_ret, does_ret. cbn [fst snd]. rewrite <- Ef, Hx. split_and!; try done; [fold fb; lia|]. by apply grown_none.
Qed.

Lemma file_block_run : does (file_block x k) (fun r s' => freeinode s' = freeinode s /\ freeblock s' = freeblock s + new_blocks V x k /\
  fst r = faddr (img s') (snd r) k /\ grown V x fb k (img s') (snd r) (freeblock s')) s.
Proof. destruct (le_lt_dec NDIRECT k); [by apply indirect_run|by apply direct_run]. Qed.
End block_run.

(** ** Appending *)

(** A file of [off] bytes: its blocks are there up to the last byte, and the
    rest of the last block is zero. *)
Record building (V : blocks) (x : inode) (off fb : Z) : Prop := {
  bu_full : full V;
  bu_slots : slots_ok V x fb;
  bu_fresh : fresh V fb;
  bu_fb : nmeta <= fb <= FSSIZE;
  bu_off : 0 <= off <= MAXFILE * BSIZE;
  bu_mapped : forall k, (k < NSLOT)%nat -> faddr V x k <> 0 <-> 512 * Z.of_nat k < off;
  bu_ind : ind_of x <> 0 <-> 6144 < off;
  bu_tail : forall o, off <= o < MAXFILE * BSIZE -> faddr V x (Z.to_nat (o / BSIZE)) <> 0 -> fbyte V x o = 0
}.

(** The number of blocks of a file. *)
Definition nblk (off : Z) : Z := (off + 511) / 512 + (if 6144 <? off then 1 else 0).

(** [p] has been appended. *)
Record extended (V : blocks) (x : inode) (off fb : Z) (p : bytes) (V' : blocks) (x' : inode) (fb' : Z) : Prop := {
  ex_building : building V' x' (off + Z.of_nat (length p)) fb';
  ex_fb : fb' = fb + nblk (off + Z.of_nat (length p)) - nblk off;
  ex_old : forall o, 0 <= o < off -> fbyte V' x' o = fbyte V x o;
  ex_new : forall i, (i < length p)%nat -> fbyte V' x' (off + Z.of_nat i) = nth_byte p i;
  ex_slot : forall j, (j <= NSLOT)%nat -> faddr V' x' j = faddr V x j \/ faddr V x j = 0 /\ fb <= faddr V' x' j;
  ex_mem : forall b, b < fb -> (forall j, (j <= NSLOT)%nat -> faddr V x j = b -> b <= 0) -> V' !! b = V !! b;
  ex_same : x' = set_addrs (addrs x') x
}.

Lemma extended_nil V x off fb : building V x off fb -> extended V x off fb [] V x fb.
Proof.
  intros Hb. split; cbn [length]; rewrite ?Z.add_0_r; try done; try lia. apply set_addrs_id.
Qed.

Lemma nblk_mono a b : a <= b -> nblk a <= nblk b.
Proof.
  intros Hab. unfold nblk. assert ((a + 511) / 512 <= (b + 511) / 512) by (apply Z.div_le_mono; lia).
  destruct (Z.ltb_spec 6144 a), (Z.ltb_spec 6144 b); lia.
Qed.

Lemma nth_byte_app p q i : nth_byte (p ++ q) i = if decide (i < length p)%nat then nth_byte p i else nth_byte q (i - length p).
Proof. unfold nth_byte. case_decide; [by rewrite lookup_app_l|by rewrite lookup_app_r by lia]. Qed.

Lemma extended_app V x off fb p V1 x1 fb1 q V2 x2 fb2 : 0 <= off -> extended V x off fb p V1 x1 fb1 ->
  extended V1 x1 (off + Z.of_nat (length p)) fb1 q V2 x2 fb2 -> extended V x off fb (p ++ q) V2 x2 fb2.
Proof.
  intros Hoff [A1 A2 A3 A4 A5 A6 A7] [B1 B2 B3 B4 B5 B6 B7]. pose proof (nblk_mono off (off + Z.of_nat (length p))) as Hm.
  rewrite <- Z.add_assoc, <- Nat2Z.inj_add, <- length_app in B1, B2. split; try done.
  - lia.
  - intros o Ho. rewrite B3 by lia. by apply A3.
  - intros i Hi. rewrite length_app in Hi. rewrite nth_byte_app. case_decide as Hd.
    + rewrite B3 by lia. by apply A4.
    + rewrite <- (B4 (i - length p)%nat) by lia. f_equal. lia.
  - intros j Hj. destruct (B5 j Hj) as [-> |[H1 H2]]; [by apply A5|]. right. destruct (A5 j Hj) as [E|[E _]]; [split; [congruence|lia]|split; [done|lia]].
  - intros b Hb Hn. rewrite B6; [by apply A6|lia|]. intros j Hj E. destruct (A5 j Hj) as [E'|[_ E']]; [apply (Hn j); congruence|lia].
  - rewrite B7, A7. by destruct x.
Qed.

Lemma faddr_data V x a d j : a <> ind_of x -> faddr (<[a := d]> V) x j = faddr V x j.
Proof. intros Ha. unfold faddr. by rewrite at_insert_ne. Qed.

Lemma nth_byte_zeros i : nth_byte (replicate BSIZEn 0) i = 0.
Proof.
  unfold nth_byte. destruct (decide (i < BSIZEn)%nat); [by rewrite lookup_replicate_2|].
  rewrite lookup_ge_None_2; [done|rewrite length_replicate; lia].
Qed.

Section chunk.
Context (V : blocks) (x : inode) (off fb : Z) (cs : bytes) (V1 : blocks) (x1 : inode) (fb1 : Z).
Hypothesis Hb : building V x off fb.
Let k := Z.to_nat (off / BSIZE).
Hypothesis Hg : grown V x fb k V1 x1 fb1.
Hypothesis Hfb1 : fb1 = fb + new_blocks V x k.
Hypothesis Hroom : fb1 <= FSSIZE.
Hypothesis Hlen : (0 < length cs)%nat /\ Z.of_nat (length cs) <= BSIZE - off mod BSIZE.
Hypothesis Hmax : off < MAXFILE * BSIZE.
Hypothesis Hbytes : Forall is_byte cs.
Let a := faddr V1 x1 k.
Let V2 := <[a := bput (Z.to_nat (off mod BSIZE)) cs (at_block V1 a)]> V1.

Lemma k_facts : (k < NSLOT)%nat /\ 512 * Z.of_nat k + off mod 512 = off /\ 0 <= off mod 512 < 512 /\ 0 <= off < 71680 /\ off + Z.of_nat (length cs) <= 512 * Z.of_nat k + 512.
Proof.
  clear - Hb Hlen Hmax. pose proof (bu_off _ _ _ _ Hb) as Ho. unfold MAXFILE, BSIZE, NSLOT in *. subst k.
  pose proof (Z.div_mod off 512 ltac:(lia)). pose proof (Z.mod_pos_bound off 512 ltac:(lia)). pose proof (Z.div_pos off 512). lia.
Qed.

Lemma slot_nat j : (j < NSLOT)%nat -> j <> k -> faddr V1 x1 j = faddr V x j.
Proof. apply (gr_other _ _ _ _ _ _ _ Hg). Qed.

Lemma a_facts : a <> 0 /\ nmeta <= a < fb1 /\ a <> ind_of x1 /\ (a = faddr V x k \/ faddr V x k = 0 /\ fb <= a).
Proof.
  destruct k_facts as (Hk & _). destruct (gr_at _ _ _ _ _ _ _ Hg) as [Ha Hor]. fold a in Ha, Hor.
  split_and!; [done|..|by destruct Hor as [->|]; auto].
  - apply (so_range _ _ _ (gr_slots _ _ _ _ _ _ _ Hg) k); [lia|done].
  - apply (so_range _ _ _ (gr_slots _ _ _ _ _ _ _ Hg) k); [lia|done].
  - rewrite <- (ind_slot V1). intros E. apply (so_inj _ _ _ (gr_slots _ _ _ _ _ _ _ Hg)) in E; [lia|lia|lia|done].
Qed.

Lemma slot_not_ind j : (j < NSLOT)%nat -> faddr V1 x1 j <> 0 -> faddr V1 x1 j <> ind_of x1.
Proof.
  intros Hj Hn E. rewrite <- (ind_slot V1) in E. apply (so_inj _ _ _ (gr_slots _ _ _ _ _ _ _ Hg)) in E; [lia|lia|lia|done].
Qed.

Lemma grown_block c : (c = 0 \/ c <> ind_of x1) -> at_block V1 c = at_block V c.
Proof. intros Hc. unfold at_block. rewrite (gr_mem _ _ _ _ _ _ _ Hg); [done|]. destruct Hc; [lia|done]. Qed.

Lemma byte_slot o : 0 <= o < 71680 -> (Z.to_nat (o / BSIZE) < NSLOT)%nat /\ 512 * Z.of_nat (Z.to_nat (o / BSIZE)) + o mod 512 = o /\ 0 <= o mod 512 < 512.
Proof.
  clear. intros Ho. unfold BSIZE, NSLOT. pose proof (Z.div_mod o 512 ltac:(lia)). pose proof (Z.mod_pos_bound o 512 ltac:(lia)). pose proof (Z.div_pos o 512). lia.
Qed.

(** Allocating the block leaves the bytes of the file as they were. *)
Lemma grown_old o : 0 <= o < off -> fbyte V1 x1 o = fbyte V x o.
Proof.
  intros Ho. destruct k_facts as (Hk & Hk2 & Hk3 & Hk4 & _). destruct (byte_slot o) as (Hj & Hj2 & Hj3); [lia|].
  set (j := Z.to_nat (o / BSIZE)) in *. assert (Hm : faddr V x j <> 0) by (apply (bu_mapped _ _ _ _ Hb); lia).
  assert (E : faddr V1 x1 j = faddr V x j).
  { destruct (decide (j = k)) as [Ejk|Hne]; [|by apply slot_nat]. rewrite Ejk in *. destruct (gr_at _ _ _ _ _ _ _ Hg) as [_ [E|[E _]]]; [done|by rewrite E in Hm]. }
  unfold fbyte. fold j. rewrite E. rewrite grown_block; [done|]. right. rewrite <- E. apply slot_not_ind; [lia|congruence].
Qed.

(** The rest of the block is zero. *)
Lemma grown_rest o : off <= o < 512 * Z.of_nat k + 512 -> fbyte V1 x1 o = 0.
Proof.
  intros Ho. destruct k_facts as (Hk & Hk2 & Hk3 & Hk4 & _). unfold NSLOT in Hk. destruct (byte_slot o) as (Hj & Hj2 & Hj3); [lia|].
  assert (Ej : Z.to_nat (o / BSIZE) = k) by lia. destruct a_facts as (Ha & Har & Hai & Hor).
  unfold fbyte. rewrite Ej. fold a. rewrite grown_block by auto. destruct Hor as [E|[E Hfb]].
  - rewrite E. pose proof (bu_tail _ _ _ _ Hb o) as Ht. unfold fbyte in Ht. rewrite Ej in Ht. apply Ht; [unfold MAXFILE, BSIZE; lia|congruence].
  - rewrite (bu_fresh _ _ _ _ Hb) by lia. apply nth_byte_zeros.
Qed.

Lemma V2_slot j : faddr V2 x1 j = faddr V1 x1 j.
Proof. apply faddr_data. apply a_facts. Qed.

Lemma a_block : wf_block (at_block V1 a).
Proof. destruct a_facts as (_ & Har & _). pose proof nmeta_eq. apply (full_at _ _ (gr_full _ _ _ _ _ _ _ Hg)). lia. Qed.

Lemma chunk_fits : (Z.to_nat (off mod BSIZE) + length cs <= length (at_block V1 a))%nat.
Proof. destruct a_block as [-> _]. destruct k_facts as (_ & _ & Hk3 & _). unfold BSIZE, BSIZEn in *. lia. Qed.

Lemma V2_byte o : 0 <= o < 71680 -> fbyte V2 x1 o =
  if decide (off <= o < off + Z.of_nat (length cs)) then nth_byte cs (Z.to_nat (o - off)) else fbyte V1 x1 o.
Proof.
  intros Ho. destruct k_facts as (Hk & Hk2 & Hk3 & Hk4 & Hk5). destruct (byte_slot o Ho) as (Hj & Hj2 & Hj3).
  set (j := Z.to_nat (o / BSIZE)) in *. unfold fbyte. fold j. rewrite V2_slot. destruct (decide (j = k)) as [Ejk|Hne].
  - rewrite Ejk in *. fold a. unfold V2. rewrite at_insert, nth_byte_bput by apply chunk_fits.
    change BSIZE with 512. repeat case_decide; try lia; try done; f_equal; lia.
  - rewrite decide_False by lia. unfold V2. rewrite at_insert_ne; [done|]. destruct a_facts as (Ha & _). intros E.
    apply (so_inj _ _ _ (gr_slots _ _ _ _ _ _ _ Hg)) in E; [lia|lia|lia|done].
Qed.

Lemma chunk_blocks : new_blocks V x k = nblk (off + Z.of_nat (length cs)) - nblk off.
Proof.
  clear - Hb Hlen Hmax. destruct k_facts as (Hk & Hk2 & Hk3 & Hk4 & Hk5). unfold new_blocks, nblk.
  pose proof (bu_mapped _ _ _ _ Hb k Hk) as Hm. pose proof (bu_ind _ _ _ _ Hb) as Hi.
  assert (E1 : (off + Z.of_nat (length cs) + 511) / 512 = Z.of_nat k + 1) by (symmetry; apply (Z.div_unique _ _ _ (off + Z.of_nat (length cs) - 512 * Z.of_nat k - 1)); lia).
  assert (E2 : (off + 511) / 512 = Z.of_nat k + (if faddr V x k =? 0 then 0 else 1)).
  { destruct (Z.eqb_spec (faddr V x k) 0); symmetry; [apply (Z.div_unique _ _ _ 511)|apply (Z.div_unique _ _ _ (off - 512 * Z.of_nat k - 1))]; lia. }
  rewrite E1, E2. unfold NDIRECT. destruct (Nat.leb_spec 12 k), (Z.eqb_spec (ind_of x) 0), (Z.eqb_spec (faddr V x k) 0),
    (Z.ltb_spec 6144 (off + Z.of_nat (length cs))), (Z.ltb_spec 6144 off); cbn [andb]; lia.
Qed.

Lemma chunk_building : building V2 x1 (off + Z.of_nat (length cs)) fb1.
Proof.
  destruct k_facts as (Hk & Hk2 & Hk3 & Hk4 & Hk5). destruct a_facts as (Ha & Har & Hai & Hor). destruct Hg as [G1 G2 G3 G4 G5 G6 G7 G8].
  pose proof (bu_fb _ _ _ _ Hb). pose proof (new_blocks_bound V x k). unfold NSLOT in Hk. split.
  - apply full_insert; [done|]. destruct a_block as [Hl Hw]. split; [rewrite length_bput; [done|by apply chunk_fits]|by apply Forall_bput].
  - destruct G1 as [S1 S2 S3]. split; [done|intros j Hj; rewrite V2_slot; by apply S2|intros i j Hi Hj; rewrite !V2_slot; by apply S3].
  - intros b Hb'. unfold V2. rewrite at_insert_ne by lia. by apply G3.
  - lia.
  - unfold MAXFILE, BSIZE. lia.
  - intros j Hj. rewrite V2_slot. destruct (decide (j = k)) as [-> |Hne]; [split; [lia|done]|]. rewrite G4 by done. rewrite (bu_mapped _ _ _ _ Hb j Hj). lia.
  - rewrite (proj2 G6), (bu_ind _ _ _ _ Hb). unfold NDIRECT. lia.
  - intros o Ho. unfold MAXFILE, BSIZE in Ho. destruct (byte_slot o) as (Hj & Hj2 & Hj3); [lia|]. rewrite V2_slot. intros Hn.
    rewrite V2_byte by lia. rewrite decide_False by lia. apply grown_rest. split; [lia|].
    destruct (decide (Z.to_nat (o / BSIZE) = k)) as [E|Hne]; [lia|]. rewrite G4 in Hn by done. apply (bu_mapped _ _ _ _ Hb) in Hn; lia.
Qed.

Lemma chunk_extended : extended V x off fb cs V2 x1 fb1.
Proof.
  destruct k_facts as (Hk & Hk2 & Hk3 & Hk4 & Hk5). destruct a_facts as (Ha & Har & Hai & Hor). pose proof nmeta_eq as Hn. split.
  - apply chunk_building.
  - rewrite Hfb1, chunk_blocks. lia.
  - intros o Ho. rewrite V2_byte by lia. rewrite decide_False by lia. by apply grown_old.
  - intros i Hi. unfold NSLOT in Hk. rewrite V2_byte by lia. rewrite decide_True by lia. f_equal. lia.
  - intros j Hj. rewrite V2_slot. destruct (decide (j = k)) as [-> |Hne]; [apply (gr_at _ _ _ _ _ _ _ Hg)|].
    destruct (decide (j = NSLOT)) as [-> |Hne2]; [rewrite !ind_slot; apply (gr_ind _ _ _ _ _ _ _ Hg)|]. left. apply slot_nat; [lia|done].
  - intros b Hlt Hno. unfold V2. rewrite lookup_insert_ne.
    + apply (gr_mem _ _ _ _ _ _ _ Hg). intros ->. destruct (gr_ind _ _ _ _ _ _ _ Hg) as [[E|[_ E]] _]; [|lia]. apply (Hno NSLOT); [lia|]. by rewrite ind_slot.
    + intros <-. destruct Hor as [E|[_ E]]; [|lia]. specialize (Hno k ltac:(lia) (eq_sym E)). lia.
  - apply Hg.
Qed.
End chunk.

(** One turn of the loop, with the chunk [cs] at offset [off]. *)
Lemma chunk_run s x off cs (k : inode -> M (inode * Z)) Q : building (img s) x off (freeblock s) -> Forall is_byte cs ->
  (0 < length cs)%nat -> Z.of_nat (length cs) <= BSIZE - off mod BSIZE -> off < MAXFILE * BSIZE ->
  freeblock s + nblk (off + Z.of_nat (length cs)) - nblk off <= FSSIZE ->
  (forall x1 s1, freeinode s1 = freeinode s -> extended (img s) x off (freeblock s) cs (img s1) x1 (freeblock s1) -> does (k x1) Q s1) ->
  does ('(a, din) ← file_block x (Z.to_nat (off / BSIZE)); buf ← rsect a; wsect a (bput (Z.to_nat (off - off / BSIZE * BSIZE)) cs buf);; k din) Q s.
Proof.
  intros Hb Hcs Hl1 Hl2 Hmax Hroom Hk. pose proof (conj Hl1 Hl2) as Hlen.
  pose proof (chunk_blocks (img s) x off (freeblock s) cs Hb Hlen Hmax) as Hblk.
  destruct (k_facts (img s) x off (freeblock s) cs Hb Hlen Hmax) as (Hkn & Hkd & Hkm & _).
  pose proof Hb as [B1 B2 B3 [B4 _] _ _ _ _].
  apply does_bind. eapply does_mono; [apply (file_block_run s x (Z.to_nat (off / BSIZE)) B1 B2 B3 B4 Hkn); rewrite Hblk; lia|].
  intros [a x1] s1 (Hfi & Hfb & Ha & Hg). cbn [fst snd] in Ha, Hg. subst a.
  assert (Hfb1 : freeblock s1 <= FSSIZE) by lia. pose proof nmeta_eq as Hn.
  destruct (a_facts (img s) x off (freeblock s) cs (img s1) x1 (freeblock s1) Hb Hg Hlen Hmax) as (_ & Har & _).
  destruct (full_at (img s1) (faddr (img s1) x1 (Z.to_nat (off / BSIZE))) (gr_full _ _ _ _ _ _ _ Hg) ltac:(lia)) as [Ea _].
  apply does_bind. eapply does_rsect; [exact Ea|]. apply does_bind, does_wsect. apply Hk; [done|]. cbn [img freeblock].
  replace (off - off / BSIZE * BSIZE) with (off mod BSIZE) by (rewrite Z.mod_eq by done; lia).
  by apply chunk_extended.
Qed.

Lemma iappend_loop_run fuel : forall s x off p, building (img s) x off (freeblock s) -> Forall is_byte p -> (length p <= fuel)%nat ->
  off + Z.of_nat (length p) <= MAXFILE * BSIZE -> freeblock s + nblk (off + Z.of_nat (length p)) - nblk off <= FSSIZE ->
  does (iappend_loop fuel x off p) (fun r s' => exists x', r = (x', off + Z.of_nat (length p)) /\ freeinode s' = freeinode s /\
    extended (img s) x off (freeblock s) p (img s') x' (freeblock s')) s.
Proof.
  induction fuel as [|fuel IH]; intros s x off p Hb Hp Hf Hmax Hroom.
  { destruct p; [|cbn in Hf; lia]. apply does_ret. exists x. cbn [length]. rewrite Z.add_0_r. split_and!; [done..|by apply extended_nil]. }
  destruct p as [|b p]; [apply does_ret; exists x; cbn [length]; rewrite Z.add_0_r; split_and!; [done..|by apply extended_nil]|].
  cbn [iappend_loop]. set (q := b :: p) in *. assert (Hq : (0 < length q)%nat) by (cbn; lia). clearbody q.
  pose proof (bu_off _ _ _ _ Hb) as Hoff. pose proof (Z.div_mod off BSIZE ltac:(done)) as Hdm. pose proof (Z.mod_pos_bound off BSIZE ltac:(done)) as Hmb.
  set (n1 := Z.min (Z.of_nat (length q)) ((off / BSIZE + 1) * BSIZE - off)).
  assert (Hn1 : 0 < n1 <= Z.of_nat (length q) /\ n1 <= BSIZE - off mod BSIZE) by (unfold n1; lia). clearbody n1.
  assert (Hlt : Z.of_nat (length (take (Z.to_nat n1) q)) = n1) by (rewrite length_take; lia).
  assert (Hls : Z.of_nat (length (drop (Z.to_nat n1) q)) = Z.of_nat (length q) - n1) by (rewrite length_drop; lia).
  pose proof (nblk_mono (off + n1) (off + Z.of_nat (length q)) ltac:(lia)) as Hmono.
  apply does_bind, does_assert. { apply Z.ltb_lt. unfold MAXFILE, BSIZE in *. lia. }
  apply chunk_run; rewrite ?Hlt; [done|by apply Forall_take|lia|lia|unfold MAXFILE, BSIZE in *; lia|lia|].
  intros x1 s1 Hfi Hex. pose proof (ex_building _ _ _ _ _ _ _ _ Hex) as Hb1. pose proof (ex_fb _ _ _ _ _ _ _ _ Hex) as Hfb. rewrite Hlt in *.
  rewrite u32_id by (unfold in_u32, MAXFILE, BSIZE in *; lia).
  eapply does_mono; [apply IH; [exact Hb1|by apply Forall_drop|lia|lia|]|].
  - rewrite Hls. replace (off + n1 + (Z.of_nat (length q) - n1)) with (off + Z.of_nat (length q)) by lia. lia.
  - intros r s2 (x2 & -> & Hfi2 & Hex2). exists x2. rewrite Hls. split_and!; [f_equal; lia|congruence|].
    rewrite <- (take_drop (Z.to_nat n1) q). eapply extended_app; [lia|exact Hex|]. by rewrite Hlt.
Qed.
