(* ===== verification/MkfsFiles.v ===== *)
(** * mkfs.c: the files of the image

    [holds] relates the state of mkfs to the list of the files made so far,
    read with the kernel's definitions.  ialloc adds an empty file to the
    list and iappend appends to a file of it; from this follows what main
    leaves in the image. *)

From stdpp Require Import base numbers strings gmap list.
From S2P Require Import Prelude Kmonad Kstring Mmu Block Log LogProof Fs FsTx FsInode FsFile FsWrite FsDir Mkfs MkfsProof.

Local Open Scope Z_scope.

(** The inode [n] of the image, as the kernel reads it. *)
Definition inode_of (V : blocks) (n : Z) : inode := load_dinode (dinode_off n) (at_block V (IBLOCK n sb)) zero_inode.

(** The file with number [n] has type [ty] and contents [c]. *)
Record has_file (V : blocks) (fb n ty : Z) (c : bytes) : Prop := {
  hf_type : itype (inode_of V n) = ty;
  hf_fields : nlink (inode_of V n) = 1 /\ major (inode_of V n) = 0 /\ minor (inode_of V n) = 0;
  hf_size : isize (inode_of V n) = Z.of_nat (length c);
  hf_blocks : building V (inode_of V n) (Z.of_nat (length c)) fb;
  hf_bytes : forall i, (i < length c)%nat -> fbyte V (inode_of V n) (Z.of_nat i) = nth_byte c i
}.

(** The image holds the files [fs], numbered from 1; their blocks are
    apart. *)
Record holds (s : mk) (fs : list (Z * bytes)) : Prop := {
  h_inodes : freeinode s = 1 + Z.of_nat (length fs) /\ freeinode s <= NINODES;
  h_blocks : freeblock s = nmeta + zsum (fun f => nblk (Z.of_nat (length (snd f)))) fs /\ freeblock s <= FSSIZE;
  h_full : full (img s);
  h_fresh : fresh (img s) (freeblock s);
  h_types : Forall (fun f => 1 <= fst f <= 3) fs;
  h_file : forall i f, fs !! i = Some f -> has_file (img s) (freeblock s) (1 + Z.of_nat i) (fst f) (snd f);
  h_apart : forall i j a b, (i < length fs)%nat -> (j < length fs)%nat -> i <> j -> (a <= NSLOT)%nat -> (b <= NSLOT)%nat ->
    faddr (img s) (inode_of (img s) (1 + Z.of_nat i)) a <> 0 ->
    faddr (img s) (inode_of (img s) (1 + Z.of_nat i)) a <> faddr (img s) (inode_of (img s) (1 + Z.of_nat j)) b;
  h_low : forall b, 0 <= b < 32 -> at_block (img s) b = if decide (b = 1) then sb_buf else replicate BSIZEn 0
}.

(** The blocks of a file do not change when other blocks do. *)
Lemma faddr_frame V V' x : (forall k, (k <= NSLOT)%nat -> faddr V x k <> 0 -> at_block V' (faddr V x k) = at_block V (faddr V x k)) ->
  forall k, faddr V' x k = faddr V x k.
Proof.
  intros He k. unfold faddr. destruct (Nat.ltb k NDIRECT); [done|]. destruct (Nat.ltb k NSLOT); [|done].
  destruct (Z.eqb_spec (ind_of x) 0) as [|Hi]; [done|]. specialize (He NSLOT ltac:(lia)). rewrite ind_slot in He. by rewrite He.
Qed.

Lemma fbyte_frame V V' x o : (forall k, (k <= NSLOT)%nat -> faddr V x k <> 0 -> at_block V' (faddr V x k) = at_block V (faddr V x k)) ->
  0 <= o < 71680 -> faddr V x (Z.to_nat (o / BSIZE)) <> 0 -> fbyte V' x o = fbyte V x o.
Proof.
  intros He Ho Hn. unfold fbyte. rewrite (faddr_frame V V' x He). rewrite He; [done| |done]. destruct (byte_slot o Ho). lia.
Qed.

Lemma building_frame V V' x off fb fb' : building V x off fb -> full V' -> fresh V' fb' -> fb <= fb' <= FSSIZE ->
  (forall k, (k <= NSLOT)%nat -> faddr V x k <> 0 -> at_block V' (faddr V x k) = at_block V (faddr V x k)) -> building V' x off fb'.
Proof.
  intros [B1 B2 B3 B4 B5 B6 B7 B8] Hf Hz Hfb He. pose proof (faddr_frame V V' x He) as Hs. destruct B2 as [S1 S2 S3]. split; try done.
  - split; [done|intros k Hk; rewrite Hs; intros Hn; specialize (S2 k Hk Hn); lia|intros j k Hj Hk; rewrite !Hs; by apply S3].
  - lia.
  - intros k Hk. rewrite Hs. by apply B6.
  - intros o Ho. rewrite Hs. intros Hn. rewrite (fbyte_frame V V'); [by apply B8|done|unfold MAXFILE, BSIZE in *; lia|done].
Qed.

Lemma has_file_frame V V' fb fb' n ty c : has_file V fb n ty c -> full V' -> fresh V' fb' -> fb <= fb' <= FSSIZE -> inode_of V' n = inode_of V n ->
  (forall k, (k <= NSLOT)%nat -> faddr V (inode_of V n) k <> 0 -> at_block V' (faddr V (inode_of V n) k) = at_block V (faddr V (inode_of V n) k)) ->
  has_file V' fb' n ty c.
Proof.
  intros [F1 F2 F3 F4 F5] Hf Hz Hfb Hi He. split; rewrite ?Hi; try done.
  - by eapply building_frame.
  - intros i Hl. pose proof (bu_off _ _ _ _ F4) as Ho. unfold MAXFILE, BSIZE in Ho. destruct (byte_slot (Z.of_nat i)) as (Hj & Hj2 & Hj3); [lia|].
    rewrite (fbyte_frame V V'); [by apply F5|done|lia|]. apply (bu_mapped _ _ _ _ F4); [done|]. lia.
Qed.

(** ** Writing an inode *)

Lemma IBLOCK_bound n : 0 <= n < 208 -> IBLOCK n sb = n / 8 + 32 /\ 32 <= IBLOCK n sb < 58.
Proof.
  intros Hn. assert (0 <= n / 8 < 26) by (split; [apply Z.div_pos; lia|apply Z.div_lt_upper_bound; lia]).
  change (IBLOCK n sb) with (u32 (n / 8 + 32)). rewrite u32_id by (unfold in_u32; lia). lia.
Qed.

Lemma IBLOCK_same n m : 0 <= n < 208 -> 0 <= m < 208 -> IBLOCK n sb = IBLOCK m sb -> n <> m -> n mod IPB <> m mod IPB.
Proof.
  intros Hn Hm. destruct (IBLOCK_bound n Hn) as [-> _], (IBLOCK_bound m Hm) as [-> _]. unfold IPB.
  pose proof (Z.div_mod n 8 ltac:(lia)). pose proof (Z.div_mod m 8 ltac:(lia)). lia.
Qed.

(** The image with inode [x] written as number [n]. *)
Definition with_inode (V : blocks) (n : Z) (x : inode) : blocks :=
  <[IBLOCK n sb := store_dinode (dinode_off n) x (at_block V (IBLOCK n sb))]> V.

Section winode.
Context (V : blocks) (n : Z) (x : inode).
Hypothesis Hfull : full V.
Hypothesis Hn : 0 <= n < 208.
Hypothesis Hx : inode_typed x.

Lemma inode_block : wf_block (at_block V (IBLOCK n sb)).
Proof. destruct (IBLOCK_bound n Hn). apply (full_at V _ Hfull). unfold FSSIZE. lia. Qed.

Lemma with_inode_full : full (with_inode V n x).
Proof. apply full_insert; [done|]. apply wf_store_dinode; [apply dinode_off_bound|apply Hx|apply inode_block]. Qed.

Lemma with_inode_at b : ~ (32 <= b < 58) -> at_block (with_inode V n x) b = at_block V b.
Proof. intros Hb. destruct (IBLOCK_bound n Hn). apply at_insert_ne. lia. Qed.

Lemma with_inode_same : inode_of (with_inode V n x) n =
  mkinode 0 0 0 (ilk zero_inode) false (itype x) (major x) (minor x) (nlink x) (isize x) (addrs x).
Proof.
  unfold inode_of, with_inode. rewrite at_insert. apply load_store_dinode; [|done]. destruct inode_block as [-> _]. apply dinode_off_bound.
Qed.

Lemma with_inode_other m : 0 <= m < 208 -> m <> n -> inode_of (with_inode V n x) m = inode_of V m.
Proof.
  intros Hm Hne. unfold inode_of, with_inode. destruct (decide (IBLOCK n sb = IBLOCK m sb)) as [E|E]; [|by rewrite at_insert_ne].
  rewrite <- E, at_insert. apply load_store_other; [destruct inode_block as [-> _]; apply dinode_off_bound|apply Hx|].
  apply dinode_off_disjoint. apply IBLOCK_same; [done..|congruence].
Qed.

Lemma winode_run s (Q : unit -> mk -> Prop) : img s = V -> Q tt (mkmk (with_inode V n x) (freeinode s) (freeblock s)) -> does (winode n x) Q s.
Proof.
  intros Hs HQ. unfold winode. apply does_bind. destruct (IBLOCK_bound n Hn).
  destruct (full_at V (IBLOCK n sb) Hfull) as [E _]; [unfold FSSIZE; lia|]. eapply does_rsect; [by rewrite Hs|].
  apply does_wsect. by rewrite Hs.
Qed.
End winode.

(** ** ialloc *)

Lemma has_file_range V fb n ty c k : has_file V fb n ty c -> (k <= NSLOT)%nat -> faddr V (inode_of V n) k <> 0 -> 59 <= faddr V (inode_of V n) k < fb.
Proof. intros Hf. rewrite <- nmeta_eq. apply (bu_slots _ _ _ _ (hf_blocks _ _ _ _ _ Hf)). Qed.

(** A file whose inode is not the one written. *)
Lemma with_inode_file V fb n x m ty c : full V -> fresh V fb -> 59 <= fb <= FSSIZE -> 0 <= n < 208 -> 0 <= m < 208 -> inode_typed x -> m <> n ->
  has_file V fb m ty c -> has_file (with_inode V n x) fb m ty c.
Proof.
  intros Hf Hz Hfb Hn Hm Hx Hne Hfile. eapply has_file_frame; [exact Hfile|by apply with_inode_full| |lia|by apply with_inode_other|].
  - intros b Hb. rewrite with_inode_at by (done || lia). by apply Hz.
  - intros k Hk Hk0. pose proof (has_file_range _ _ _ _ _ k Hfile Hk Hk0). apply with_inode_at; [done|lia].
Qed.

Lemma with_inode_slots V n x m k : 0 <= n < 208 -> (forall k, (k <= NSLOT)%nat -> faddr V m k <> 0 -> 59 <= faddr V m k) ->
  faddr (with_inode V n x) m k = faddr V m k.
Proof. intros Hn Hm. apply faddr_frame. intros j Hj Hj0. specialize (Hm j Hj Hj0). apply with_inode_at; [done|lia]. Qed.

Lemma zsum_app {A} (f : A -> Z) l1 l2 : zsum f (l1 ++ l2) = zsum f l1 + zsum f l2.
Proof. unfold zsum. induction l1; cbn; lia. Qed.

Lemma nblk_nonneg n : 0 <= nblk (Z.of_nat n).
Proof. unfold nblk. assert (0 <= (Z.of_nat n + 511) / 512) by (apply Z.div_pos; lia). destruct (_ <? _); lia. Qed.

(** An empty file. *)
Definition empty_inode (ty : Z) : inode := mkinode 0 0 0 (ilk zero_inode) false ty 0 0 1 0 (replicate 13 0).

Lemma empty_slot V ty k : faddr V (empty_inode ty) k = 0.
Proof.
  assert (Hi : ind_of (empty_inode ty) = 0) by done. unfold faddr. rewrite Hi.
  destruct (Nat.ltb k NDIRECT) eqn:E; [|by destruct (Nat.ltb k NSLOT)]. apply Nat.ltb_lt in E. unfold NDIRECT in E.
  cbn [addrs empty_inode]. by rewrite lookup_replicate_2 by lia.
Qed.

Lemma empty_building V ty fb : full V -> fresh V fb -> nmeta <= fb <= FSSIZE -> building V (empty_inode ty) 0 fb.
Proof.
  intros Hf Hz Hfb. split; try done.
  - split; [done|intros k _; by rewrite empty_slot|intros j k _ _; by rewrite empty_slot].
  - intros k _. rewrite empty_slot. lia.
  - intros o _. by rewrite empty_slot.
Qed.

Lemma ialloc_run s fs ty : holds s fs -> 1 + Z.of_nat (length fs) < NINODES -> 1 <= ty <= 3 ->
  does (ialloc ty) (fun n s' => n = 1 + Z.of_nat (length fs) /\ holds s' (fs ++ [(ty, [])])) s.
Proof.
  intros [[H1 _] [H2 H2'] H3 H4 H5 H6 H7 H8] Hlen Hty. unfold NINODES in Hlen. pose proof nmeta_eq as Hnm.
  assert (Hn : 0 <= freeinode s < 208) by lia. unfold ialloc. apply does_bind.
  eexists _, _. split; [reflexivity|]. apply does_bind.
  change (xint 0) with 0. change (xshort 1) with 1. rewrite xshort_id by (unfold in_u16; lia).
  set (x := set_isize 0 (set_nlink 1 (set_itype ty zero_inode))).
  assert (Hx : inode_typed x) by (split; try apply Forall_replicate; unfold in_u32; cbn; done || lia).
  assert (Hfb : 59 <= freeblock s <= FSSIZE).
  { pose proof (zsum_nonneg (fun f : Z * bytes => nblk (Z.of_nat (length (snd f)))) fs (fun f => nblk_nonneg _)). lia. }
  apply (winode_run (img s) (freeinode s) x H3 Hn); [done|]. apply does_ret. cbn [img freeinode freeblock]. rewrite u32_id by (unfold in_u32; lia).
  split; [lia|]. assert (Hsame : inode_of (with_inode (img s) (freeinode s) x) (freeinode s) = empty_inode ty) by (by apply with_inode_same).
  assert (Hz : fresh (with_inode (img s) (freeinode s) x) (freeblock s)) by (intros b Hb; rewrite with_inode_at by (done || lia); by apply H4).
  assert (Hf : full (with_inode (img s) (freeinode s) x)) by (by apply with_inode_full).
  assert (Hother : forall i, (i < length fs)%nat -> inode_of (with_inode (img s) (freeinode s) x) (1 + Z.of_nat i) = inode_of (img s) (1 + Z.of_nat i) /\
    forall k, faddr (with_inode (img s) (freeinode s) x) (inode_of (img s) (1 + Z.of_nat i)) k = faddr (img s) (inode_of (img s) (1 + Z.of_nat i)) k).
  { intros i Hi. split; [apply with_inode_other; done || lia|]. intros k. apply with_inode_slots; [done|]. intros j Hj Hj0.
    destruct (lookup_lt_is_Some_2 fs i Hi) as [f Hfi]. apply (has_file_range _ _ _ _ _ j (H6 i f Hfi) Hj Hj0). }
  split; cbn [img freeinode freeblock]; try done.
  - rewrite length_app. cbn. unfold NINODES. lia.
  - rewrite zsum_app. change (zsum _ [(ty, [])]) with 0. lia.
  - apply Forall_app. split; [done|]. by apply Forall_singleton.
  - intros i f Hi. apply lookup_app_Some in Hi as [Hi|[Hge Hi]].
    + pose proof (lookup_lt_Some _ _ _ Hi). apply with_inode_file; auto; lia.
    + apply list_lookup_singleton_Some in Hi as [Hi0 <-]. replace (1 + Z.of_nat i) with (freeinode s) by lia.
      split; rewrite ?Hsame; try done; [|cbn; lia]. apply empty_building; [done..|lia].
  - intros i j a b Hi Hj Hne Ha Hb. rewrite length_app in Hi, Hj. cbn in Hi, Hj.
    destruct (decide (i = length fs)) as [-> |Hi'].
    { rewrite <- H1, Hsame, empty_slot. done. }
    destruct (Hother i ltac:(lia)) as [-> ->]. destruct (decide (j = length fs)) as [-> |Hj'].
    { rewrite <- H1, Hsame, empty_slot. done. }
    destruct (Hother j ltac:(lia)) as [-> ->]. apply H7; lia.
  - intros b Hb. rewrite with_inode_at by (done || lia). by apply H8.
Qed.

(** ** iappend *)

Lemma faddr_addrs V x x' k : addrs x' = addrs x -> faddr V x' k = faddr V x k.
Proof. intros E. unfold faddr, ind_of. by rewrite E. Qed.

Lemma fbyte_addrs V x x' o : addrs x' = addrs x -> fbyte V x' o = fbyte V x o.
Proof. intros E. unfold fbyte. by rewrite (faddr_addrs V x x'). Qed.

Lemma building_addrs V x x' off fb : addrs x' = addrs x -> building V x off fb -> building V x' off fb.
Proof.
  intros E [B1 [S1 S2 S3] B3 B4 B5 B6 B7 B8]. pose proof (faddr_addrs V x x') as Hs. split; try done.
  - split; [by rewrite E|intros k; rewrite Hs by done; apply S2|intros j k; rewrite !Hs by done; apply S3].
  - intros k. rewrite Hs by done. apply B6.
  - unfold ind_of in *. by rewrite E.
  - intros o. rewrite Hs, (fbyte_addrs V x x') by done. apply B8.
Qed.

Lemma slots_u32 V x fb : slots_ok V x fb -> fb <= FSSIZE -> Forall in_u32 (addrs x).
Proof.
  intros [S1 S2 _] Hfb. apply Forall_lookup. intros k a Hk. pose proof (lookup_lt_Some _ _ _ Hk) as Hl. rewrite S1 in Hl.
  assert (E : exists j, (j <= NSLOT)%nat /\ faddr V x j = a).
  { destruct (decide (k = NDIRECT)) as [-> |Hne]; [exists NSLOT; split; [lia|]; rewrite ind_slot; unfold ind_of; by rewrite Hk|].
    exists k. unfold faddr, NDIRECT, NSLOT in *. rewrite (proj2 (Nat.ltb_lt _ _)) by lia. rewrite Hk. split; [lia|done]. }
  destruct E as (j & Hj & <-). unfold in_u32, FSSIZE in *. pose proof nmeta_eq. destruct (decide (faddr V x j = 0)) as [-> |Hne]; [lia|].
  specialize (S2 j Hj Hne). lia.
Qed.

(** The file system after the loop of iappend and the write of the inode. *)
Section append.
Context (s : mk) (fs : list (Z * bytes)) (i : nat) (ty : Z) (c p : bytes).
Hypothesis Hh : holds s fs.
Hypothesis Hi : fs !! i = Some (ty, c).
Let V := img s.
Let fb := freeblock s.
Let n := 1 + Z.of_nat i.
Let x := inode_of V n.
Context (V1 : blocks) (x1 : inode) (fb1 : Z).
Hypothesis Hex : extended V x (Z.of_nat (length c)) fb p V1 x1 fb1.
Let x2 := set_isize (Z.of_nat (length c) + Z.of_nat (length p)) x1.
Let V2 := with_inode V1 n x2.

Lemma app_range : (i < length fs)%nat /\ Z.of_nat (length fs) < 200 /\ 0 <= n < 208.
Proof.
  clear - Hh Hi. pose proof (lookup_lt_Some _ _ _ Hi). destruct (h_inodes _ _ Hh) as [H1 H2]. unfold NINODES in H2. unfold n. lia.
Qed.

Lemma file_at j : (j < length fs)%nat -> exists ty' c', has_file V fb (1 + Z.of_nat j) ty' c'.
Proof. clear - Hh. intros Hj. destruct (lookup_lt_is_Some_2 fs j Hj) as [f Hf]. exists (fst f), (snd f). by apply (h_file _ _ Hh). Qed.

Lemma app_fb : 59 <= fb <= fb1 /\ fb1 <= FSSIZE.
Proof.
  pose proof (h_file _ _ Hh i _ Hi) as Hf. pose proof (bu_fb _ _ _ _ (hf_blocks _ _ _ _ _ Hf)) as H1. fold fb in H1.
  pose proof (bu_fb _ _ _ _ (ex_building _ _ _ _ _ _ _ _ Hex)). pose proof (ex_fb _ _ _ _ _ _ _ _ Hex).
  pose proof (nblk_mono (Z.of_nat (length c)) (Z.of_nat (length c) + Z.of_nat (length p))). rewrite nmeta_eq in *. lia.
Qed.

(** The metadata blocks and the blocks of the other files stay. *)
Lemma app_meta b : 0 <= b < 59 -> at_block V1 b = at_block V b.
Proof.
  intros Hb. unfold at_block. rewrite (ex_mem _ _ _ _ _ _ _ _ Hex); [done|pose proof app_fb; lia|]. intros j Hj E.
  destruct (decide (b = 0)) as [-> |Hne]; [done|]. pose proof (has_file_range V fb n ty c j (h_file _ _ Hh i _ Hi) Hj) as Hr. fold x in Hr. rewrite E in Hr. lia.
Qed.

Lemma app_inode m : 0 <= m < 208 -> inode_of V1 m = inode_of V m.
Proof. intros Hm. destruct (IBLOCK_bound m Hm). unfold inode_of. by rewrite app_meta by lia. Qed.

Lemma app_block j k : (j < length fs)%nat -> j <> i -> (k <= NSLOT)%nat -> faddr V (inode_of V (1 + Z.of_nat j)) k <> 0 ->
  at_block V1 (faddr V (inode_of V (1 + Z.of_nat j)) k) = at_block V (faddr V (inode_of V (1 + Z.of_nat j)) k).
Proof.
  intros Hj Hne Hk H0. destruct (file_at j Hj) as (ty' & c' & Hf). pose proof (has_file_range _ _ _ _ _ k Hf Hk H0) as Hr.
  unfold at_block. rewrite (ex_mem _ _ _ _ _ _ _ _ Hex); [done|lia|]. intros l Hl E. exfalso.
  destruct app_range as [Hi' _]. by apply (h_apart _ _ Hh j i k l).
Qed.

Lemma x2_fields : itype x2 = ty /\ major x2 = 0 /\ minor x2 = 0 /\ nlink x2 = 1 /\
  x2 = mkinode 0 0 0 (ilk zero_inode) false (itype x2) (major x2) (minor x2) (nlink x2) (isize x2) (addrs x2).
Proof.
  pose proof (h_file _ _ Hh i _ Hi) as [F1 (F2 & F3 & F4) _ _ _]. fold V n x in F1, F2, F3, F4. cbn [fst] in F1.
  unfold x2. rewrite (ex_same _ _ _ _ _ _ _ _ Hex). cbn [set_isize set_addrs itype major minor nlink isize addrs]. rewrite F1, F2, F3, F4.
  split_and!; [done..|]. unfold set_isize, set_addrs. cbn [itype major minor nlink]. rewrite F1, F2, F3, F4. reflexivity.
Qed.

Lemma x2_typed : inode_typed x2.
Proof.
  destruct x2_fields as (F1 & F2 & F3 & F4 & _). pose proof (ex_building _ _ _ _ _ _ _ _ Hex) as Hb1.
  pose proof (Forall_lookup_1 _ _ _ _ (h_types _ _ Hh) Hi) as Ht. cbn in Ht. pose proof (bu_off _ _ _ _ Hb1) as Ho. unfold MAXFILE, BSIZE in Ho.
  split; rewrite ?F1, ?F2, ?F3, ?F4; try lia.
  - unfold in_u32. cbn [x2 set_isize isize]. lia.
  - apply (bu_slots _ _ _ _ Hb1).
  - change (addrs x2) with (addrs x1). eapply slots_u32; [apply (bu_slots _ _ _ _ Hb1)|apply app_fb].
Qed.

Lemma x2_inode : inode_of V2 n = x2.
Proof.
  unfold V2. rewrite with_inode_same; [|apply (bu_full _ _ _ _ (ex_building _ _ _ _ _ _ _ _ Hex))|apply app_range|apply x2_typed].
  symmetry. apply x2_fields.
Qed.

Lemma app_full : full V2.
Proof. apply with_inode_full; [apply (bu_full _ _ _ _ (ex_building _ _ _ _ _ _ _ _ Hex))|apply app_range|apply x2_typed]. Qed.

Lemma app_fresh : fresh V2 fb1.
Proof.
  intros b Hb. unfold V2. rewrite with_inode_at; [apply (bu_fresh _ _ _ _ (ex_building _ _ _ _ _ _ _ _ Hex)); done|apply app_range|].
  pose proof app_fb. lia.
Qed.

Lemma own_frame k : (k <= NSLOT)%nat -> faddr V1 x2 k <> 0 -> at_block V2 (faddr V1 x2 k) = at_block V1 (faddr V1 x2 k).
Proof.
  intros Hk H0. apply with_inode_at; [apply app_range|].
  pose proof (so_range _ _ _ (bu_slots _ _ _ _ (ex_building _ _ _ _ _ _ _ _ Hex)) k Hk H0) as Hr.
  rewrite nmeta_eq in Hr. change (faddr V1 x1 k) with (faddr V1 x2 k) in Hr. lia.
Qed.

Lemma own_slot k : faddr V2 x2 k = faddr V1 x1 k.
Proof. apply (faddr_frame V1 V2 x2). apply own_frame. Qed.

Lemma own_byte o : 0 <= o < Z.of_nat (length c) + Z.of_nat (length p) -> fbyte V2 x2 o = fbyte V1 x1 o.
Proof.
  intros Ho. pose proof (ex_building _ _ _ _ _ _ _ _ Hex) as Hb. pose proof (bu_off _ _ _ _ Hb) as Hm. unfold MAXFILE, BSIZE in Hm.
  apply (fbyte_frame V1 V2 x2 o own_frame); [lia|]. destruct (byte_slot o) as (Hj & Hj2 & Hj3); [lia|].
  apply (bu_mapped _ _ _ _ Hb); [done|]. lia.
Qed.

Lemma own_file : has_file V2 fb1 n ty (c ++ p).
Proof.
  pose proof (ex_building _ _ _ _ _ _ _ _ Hex) as Hb. pose proof app_fb as Hfb. destruct x2_fields as (F1 & F2 & F3 & F4 & _).
  split; rewrite x2_inode; try done.
  - rewrite length_app. cbn [x2 set_isize isize]. lia.
  - rewrite length_app, Nat2Z.inj_add. eapply building_frame; [apply (building_addrs V1 x1 x2); [done|exact Hb]|apply app_full|apply app_fresh|lia|apply own_frame].
  - intros o Ho. rewrite length_app in Ho. rewrite own_byte by lia. rewrite nth_byte_app. case_decide as Hc.
    + rewrite (ex_old _ _ _ _ _ _ _ _ Hex) by lia. by apply (hf_bytes _ _ _ _ _ (h_file _ _ Hh i _ Hi)).
    + rewrite <- (ex_new _ _ _ _ _ _ _ _ Hex) by lia. f_equal. lia.
Qed.

Lemma other_file j f : fs !! j = Some f -> j <> i -> has_file V2 fb1 (1 + Z.of_nat j) (fst f) (snd f).
Proof.
  intros Hj Hne. pose proof (lookup_lt_Some _ _ _ Hj) as Hl. destruct app_range as (_ & Hfs & Hn). pose proof app_fb as Hfb.
  pose proof (ex_building _ _ _ _ _ _ _ _ Hex) as Hb.
  apply with_inode_file; [apply Hb|apply Hb|lia|done|lia|apply x2_typed|unfold n; lia|].
  eapply has_file_frame; [by apply (h_file _ _ Hh)|apply Hb|apply Hb|fold fb; lia|apply app_inode; lia|]. intros k. by apply app_block.
Qed.

Lemma other_slot j k : (j < length fs)%nat -> j <> i ->
  faddr V2 (inode_of V2 (1 + Z.of_nat j)) k = faddr V (inode_of V (1 + Z.of_nat j)) k.
Proof.
  intros Hl Hne. destruct app_range as (_ & Hfs & Hn). destruct (file_at j Hl) as (ty' & c' & Hf).
  pose proof (ex_building _ _ _ _ _ _ _ _ Hex) as Hb. unfold V2.
  rewrite with_inode_other, app_inode; [|lia|apply Hb|done|apply x2_typed|lia|unfold n; lia].
  assert (Hs : forall k, faddr V1 (inode_of V (1 + Z.of_nat j)) k = faddr V (inode_of V (1 + Z.of_nat j)) k).
  { apply faddr_frame. intros k'. by apply app_block. }
  rewrite with_inode_slots; [apply Hs|done|]. intros k' Hk'. rewrite Hs. intros H0. apply (has_file_range _ _ _ _ _ k' Hf Hk' H0).
Qed.

(** A block of the file is one it had, or one above all the blocks used before. *)
Lemma own_apart j a b : (j < length fs)%nat -> j <> i -> (a <= NSLOT)%nat -> (b <= NSLOT)%nat ->
  faddr V2 (inode_of V2 (1 + Z.of_nat j)) a <> 0 -> faddr V2 (inode_of V2 (1 + Z.of_nat j)) a <> faddr V2 (inode_of V2 n) b.
Proof.
  intros Hl Hne Ha Hb. rewrite (other_slot j a Hl Hne), x2_inode, own_slot. intros H0. destruct (file_at j Hl) as (ty' & c' & Hf).
  pose proof (has_file_range _ _ _ _ _ a Hf Ha H0) as Hr. destruct (ex_slot _ _ _ _ _ _ _ _ Hex b Hb) as [-> |[_ Hge]]; [|lia].
  destruct app_range as [Hi' _]. by apply (h_apart _ _ Hh j i a b).
Qed.

Lemma append_holds : holds (mkmk V2 (freeinode s) fb1) (<[i := (ty, c ++ p)]> fs).
Proof.
  destruct app_range as (Hi' & Hfs & Hn). pose proof app_fb as Hfb. split; cbn [img freeinode freeblock].
  - rewrite length_insert. apply Hh.
  - rewrite (zsum_insert _ _ _ _ _ Hi). destruct (h_blocks _ _ Hh) as [Hs _]. rewrite (ex_fb _ _ _ _ _ _ _ _ Hex) in *. cbn [snd].
    rewrite length_app, Nat2Z.inj_add. fold fb in Hs. lia.
  - apply app_full.
  - apply app_fresh.
  - apply Forall_insert; [apply Hh|]. apply (Forall_lookup_1 _ _ _ _ (h_types _ _ Hh) Hi).
  - intros j f Hj. destruct (decide (j = i)) as [-> |Hne].
    + rewrite list_lookup_insert_eq in Hj by done. injection Hj as <-. apply own_file.
    + rewrite list_lookup_insert_ne in Hj by done. by apply other_file.
  - rewrite length_insert. intros j1 j2 a b H1 H2 Hne Ha Hb H0. destruct (decide (j2 = i)) as [-> |Hn2]; [by apply own_apart|].
    destruct (decide (j1 = i)) as [-> |Hn1]; [|revert H0; rewrite !other_slot by done; by apply (h_apart _ _ Hh)].
    intros E. apply (own_apart j2 b a); [done..|congruence|done].
  - intros b Hb. unfold V2. rewrite with_inode_at; [rewrite app_meta by lia; by apply Hh|done|lia].
Qed.
End append.

Lemma iappend_run s fs i ty c p : holds s fs -> fs !! i = Some (ty, c) -> Forall is_byte p ->
  Z.of_nat (length c) + Z.of_nat (length p) <= MAXFILE * BSIZE ->
  freeblock s + nblk (Z.of_nat (length c) + Z.of_nat (length p)) - nblk (Z.of_nat (length c)) <= FSSIZE ->
  does (iappend (1 + Z.of_nat i) p) (fun _ s' => holds s' (<[i := (ty, c ++ p)]> fs)) s.
Proof.
  intros Hh Hi Hp Hsz Hroom. destruct (app_range s fs i ty c Hh Hi) as (Hl & Hfs & Hn). unfold iappend, rinode.
  destruct (IBLOCK_bound (1 + Z.of_nat i) Hn). apply does_bind, does_bind.
  destruct (full_at (img s) (IBLOCK (1 + Z.of_nat i) sb) (h_full _ _ Hh)) as [E _]; [unfold FSSIZE; lia|].
  eapply does_rsect; [exact E|]. apply does_ret. change (load_dinode _ _ _) with (inode_of (img s) (1 + Z.of_nat i)).
  pose proof (h_file _ _ Hh i _ Hi) as Hf. rewrite (hf_size _ _ _ _ _ Hf). cbn [snd].
  pose proof (bu_off _ _ _ _ (hf_blocks _ _ _ _ _ Hf)) as Ho. cbn [snd] in Ho. unfold MAXFILE, BSIZE in *.
  rewrite xint_id by (unfold in_u32; lia). apply does_bind. eapply does_mono; [apply iappend_loop_run; [apply Hf|done..]|].
  intros [din off] s1 (x1 & [= -> ->] & Hs1 & Hex). rewrite xint_id by (unfold in_u32; lia).
  apply (winode_run (img s1)); [apply (bu_full _ _ _ _ (ex_building _ _ _ _ _ _ _ _ Hex))|done|done|].
  rewrite Hs1. by apply append_holds.
Qed.
