(* ===== verification/MkfsMain.v ===== *)
(** * mkfs.c: main

    The image that main leaves, in the terms of the kernel's file system:
    the superblock, the free map, the root directory and the files. *)

From stdpp Require Import base numbers strings gmap list.
From S2P Require Import Prelude Kmonad Kstring Mmu Block Bio Log LogProof Fs FsTx FsInode FsFile FsWrite FsDir Mkfs MkfsProof MkfsFiles.

Local Open Scope Z_scope.

(** ** Adding files *)

(** The first block that the files [fs] leave free. *)
Definition blocks_of (fs : list (Z * bytes)) : Z := nmeta + zsum (fun f => nblk (Z.of_nat (length (snd f)))) fs.

Lemma iappend_fits s fs i ty c p : holds s fs -> fs !! i = Some (ty, c) -> Forall is_byte p ->
  Z.of_nat (length (c ++ p)) <= MAXFILE * BSIZE -> blocks_of (<[i := (ty, c ++ p)]> fs) <= FSSIZE ->
  does (iappend (1 + Z.of_nat i) p) (fun _ s' => holds s' (<[i := (ty, c ++ p)]> fs)) s.
Proof.
  intros Hh Hi Hp Hsz Hroom. unfold blocks_of in Hroom. rewrite (zsum_insert _ _ _ _ _ Hi) in Hroom. cbn [snd] in Hroom.
  rewrite length_app, Nat2Z.inj_add in Hroom, Hsz. destruct (h_blocks _ _ Hh) as [Hb _]. apply iappend_run; [done..|lia].
Qed.

Lemma append_all_run chunks : forall s fs i ty c, holds s fs -> fs !! i = Some (ty, c) -> Forall (Forall is_byte) chunks ->
  Z.of_nat (length (c ++ concat chunks)) <= MAXFILE * BSIZE -> blocks_of (<[i := (ty, c ++ concat chunks)]> fs) <= FSSIZE ->
  does (append_all (1 + Z.of_nat i) chunks) (fun _ s' => holds s' (<[i := (ty, c ++ concat chunks)]> fs)) s.
Proof.
  induction chunks as [|p chunks IH]; intros s fs i ty c Hh Hi Hp Hsz Hroom; cbn [append_all concat] in *.
  - apply does_ret. rewrite app_nil_r. by rewrite list_insert_id.
  - apply Forall_cons in Hp as [Hp Hps]. rewrite (assoc_L (++)) in *. apply does_bind. pose proof (lookup_lt_Some _ _ _ Hi) as Hl.
    eapply does_mono; [apply (iappend_fits s fs i ty c p Hh Hi Hp)|].
    + rewrite length_app in Hsz. lia.
    + etrans; [|exact Hroom]. unfold blocks_of. rewrite !(zsum_insert _ _ _ _ _ Hi). cbn [snd].
      enough (nblk (Z.of_nat (length (c ++ p))) <= nblk (Z.of_nat (length ((c ++ p) ++ concat chunks)))) by lia.
      apply nblk_mono. rewrite (length_app (c ++ p)). lia.
    + intros ? s1 H1. cbn beta in *. eapply does_mono; [apply (IH s1 (<[i := (ty, c ++ p)]> fs) i ty (c ++ p)); try done|].
      * by apply list_lookup_insert_eq.
      * by rewrite list_insert_insert_eq.
      * intros ? s2. cbn beta. by rewrite list_insert_insert_eq.
Qed.

(** What the files of the command line must satisfy: names without a slash,
    and contents that fit in a file. *)
Definition file_ok (f : file) : Prop :=
  Forall is_byte (fst f) /\ existsb (Z.eqb 47) (fst f) = false /\ Forall (Forall is_byte) (snd f) /\
  Z.of_nat (length (concat (snd f))) <= MAXFILE * BSIZE.

Definition made (f : file) : Z * bytes := (T_FILE, concat (snd f)).

(** The entries of the files, which have the numbers from [n] on. *)
Fixpoint ents (n : Z) (fs : list file) : list (bytes * Z) :=
  match fs with
  | [] => []
  | f :: fs => (file_name (fst f), n) :: ents (n + 1) fs
  end.

Definition ent_bytes (es : list (bytes * Z)) : bytes := flat_map (fun e => make_dirent (fst e) (snd e)) es.

Lemma ent_bytes_app es1 es2 : ent_bytes (es1 ++ es2) = ent_bytes es1 ++ ent_bytes es2.
Proof. apply flat_map_app. Qed.

Lemma length_ent_bytes es : length (ent_bytes es) = (16 * length es)%nat.
Proof. unfold ent_bytes. induction es; [done|]. cbn [flat_map length]. rewrite length_app, length_make_dirent, IHes. lia. Qed.

Lemma length_ents fs : forall n, length (ents n fs) = length fs.
Proof. induction fs as [|f fs IH]; intros n; cbn; [done|]. by rewrite IH. Qed.

Lemma file_name_bytes arg : Forall is_byte arg -> Forall is_byte (file_name arg).
Proof.
  intros Ha. unfold file_name. repeat match goal with |- context [match ?x with _ => _ end] => destruct x; try done end.
  by apply Forall_cons in Ha as [_ Ha].
Qed.

Lemma dirent_eq n name : 0 <= n < 32768 -> dirent n name = make_dirent name n.
Proof. intros Hn. unfold dirent. by rewrite xshort_id by (unfold in_u16; lia). Qed.

Lemma blocks_of_cons f l : blocks_of (f :: l) = nblk (Z.of_nat (length (snd f))) + blocks_of l.
Proof. unfold blocks_of, zsum. cbn. lia. Qed.

Lemma blocks_of_app l1 l2 : blocks_of (l1 ++ l2) = blocks_of l1 + blocks_of l2 - nmeta.
Proof. unfold blocks_of. rewrite zsum_app. lia. Qed.

Lemma blocks_of_ge l : nmeta <= blocks_of l.
Proof. unfold blocks_of. pose proof (zsum_nonneg (fun f : Z * bytes => nblk (Z.of_nat (length (snd f)))) l (fun f => nblk_nonneg _)). lia. Qed.

Lemma add_file_run s d l f : holds s ((T_DIR, d) :: l) -> file_ok f -> 2 + Z.of_nat (length l) < NINODES ->
  Z.of_nat (length d) + 16 <= MAXFILE * BSIZE ->
  blocks_of ((T_DIR, d ++ ent_bytes (ents (2 + Z.of_nat (length l)) [f])) :: l ++ [made f]) <= FSSIZE ->
  does (add_file 1 f) (fun _ s' => holds s' ((T_DIR, d ++ ent_bytes (ents (2 + Z.of_nat (length l)) [f])) :: l ++ [made f])) s.
Proof.
  intros Hh (Hb & Hs & Hcs & Hsz) Hn Hd Hroom. destruct f as [arg chunks]. cbn [fst snd] in *. unfold made in *. cbn [snd] in *. unfold add_file.
  apply does_bind, does_assert; [by rewrite Hs|]. apply does_bind. unfold NINODES in Hn.
  eapply does_mono; [apply (ialloc_run s _ T_FILE Hh); unfold NINODES, T_FILE; cbn [length]; lia|]. intros n s1 [-> H1]. cbn [length] in *.
  rewrite dirent_eq by lia. replace (1 + Z.of_nat (S (length l))) with (2 + Z.of_nat (length l)) by lia.
  assert (E : ent_bytes (ents (2 + Z.of_nat (length l)) [(arg, chunks)]) = make_dirent (file_name arg) (2 + Z.of_nat (length l))) by apply app_nil_r.
  rewrite E in *. apply does_bind. set (e := make_dirent (file_name arg) (2 + Z.of_nat (length l))) in *.
  assert (He : length e = 16%nat) by apply length_make_dirent.
  rewrite blocks_of_cons, blocks_of_app in Hroom. pose proof (blocks_of_ge [(T_FILE, concat chunks)]).
  assert (Hz : blocks_of [(T_FILE, [])] = nmeta) by done. cbn [snd] in Hroom.
  eapply does_mono; [apply (iappend_fits s1 _ 0 T_DIR d e H1); [done|by apply make_dirent_bytes, file_name_bytes|rewrite length_app; lia|]|].
  { cbn [app insert list_insert]. rewrite blocks_of_cons, blocks_of_app. cbn [snd]. lia. }
  intros ? s2 H2. cbn [app insert list_insert] in H2. replace (2 + Z.of_nat (length l)) with (1 + Z.of_nat (S (length l))) by lia.
  assert (Hi : forall v, <[S (length l) := v]> ((T_DIR, d ++ e) :: l ++ [(T_FILE, [])]) = (T_DIR, d ++ e) :: l ++ [v]).
  { intros v. change ((T_DIR, d ++ e) :: <[length l := v]> (l ++ [(T_FILE, [])]) = (T_DIR, d ++ e) :: l ++ [v]). f_equal. rewrite insert_app_r_alt by lia. by rewrite Nat.sub_diag. }
  eapply does_mono; [apply (append_all_run chunks s2 _ (S (length l)) T_FILE [] H2); [|done..|]|].
  - change ((l ++ [(T_FILE, [])]) !! length l = Some (T_FILE, [])). by rewrite lookup_app_r, Nat.sub_diag by lia.
  - rewrite Hi, blocks_of_cons, blocks_of_app. cbn [app snd] in *. lia.
  - intros ? s3. by rewrite Hi.
Qed.

Lemma add_files_run fs : forall s d l, holds s ((T_DIR, d) :: l) -> Forall file_ok fs -> 1 + Z.of_nat (length l + length fs) < NINODES ->
  Z.of_nat (length d + 16 * length fs) <= MAXFILE * BSIZE ->
  blocks_of ((T_DIR, d ++ ent_bytes (ents (2 + Z.of_nat (length l)) fs)) :: l ++ (made <$> fs)) <= FSSIZE ->
  does (add_files 1 fs) (fun _ s' => holds s' ((T_DIR, d ++ ent_bytes (ents (2 + Z.of_nat (length l)) fs)) :: l ++ (made <$> fs))) s.
Proof.
  induction fs as [|f fs IH]; intros s d l Hh Hok Hn Hd Hroom; cbn [add_files].
  - apply does_ret. cbn. by rewrite !app_nil_r.
  - apply Forall_cons in Hok as [Hf Hfs]. cbn [length] in Hn, Hd. apply does_bind. set (n := 2 + Z.of_nat (length l)) in *.
    assert (E : d ++ ent_bytes (ents n (f :: fs)) = (d ++ ent_bytes (ents n [f])) ++ ent_bytes (ents (n + 1) fs)).
    { rewrite <- (assoc_L (++)), <- ent_bytes_app. done. }
    assert (El : l ++ (made <$> f :: fs) = (l ++ [made f]) ++ (made <$> fs)) by (by rewrite <- (assoc_L (++))).
    rewrite E, El in *.
    assert (Hlen : length (d ++ ent_bytes (ents n [f])) = (length d + 16)%nat) by (rewrite length_app, length_ent_bytes, length_ents; cbn; lia).
    eapply does_mono; [apply (add_file_run s d l f Hh Hf); [unfold n in *; lia|lia|]|].
    + fold n. etrans; [|exact Hroom]. rewrite !blocks_of_cons, (blocks_of_app (l ++ [made f])). cbn [snd]. pose proof (blocks_of_ge (made <$> fs)).
      enough (nblk (Z.of_nat (length (d ++ ent_bytes (ents n [f])))) <= nblk (Z.of_nat (length ((d ++ ent_bytes (ents n [f])) ++ ent_bytes (ents (n + 1) fs))))) by lia.
      apply nblk_mono. rewrite (length_app (d ++ _)). lia.
    + fold n. intros ? s1 H1. cbn beta in H1. assert (El2 : n + 1 = 2 + Z.of_nat (length (l ++ [made f]))) by (rewrite length_app; cbn; lia).
      rewrite El2 in *. apply IH; try done; rewrite ?length_app in *; cbn [length] in *; lia.
Qed.

(** ** The start and the end of main *)

Lemma zero_blocks_run n : forall s, does (zero_blocks n) (fun _ s' => freeinode s' = freeinode s /\ freeblock s' = freeblock s /\
  forall b, 0 <= b < Z.of_nat n -> img s' !! b = Some (replicate BSIZEn 0)) s.
Proof.
  induction n as [|n IH]; intros s; cbn [zero_blocks]; [by apply does_ret; split_and!; [..|lia]|].
  apply does_bind. eapply does_mono; [apply IH|]. intros ? s1 (H1 & H2 & H3). apply does_wsect. cbn [img freeinode freeblock].
  split_and!; [done..|]. intros b Hb. destruct (decide (b = Z.of_nat n)) as [-> |Hne]; [by rewrite lookup_insert_eq|].
  rewrite lookup_insert_ne by done. apply H3. lia.
Qed.

Lemma sb_buf_wf : wf_block sb_buf.
Proof. split; [reflexivity|]. change (Forall (fun x => 0 <= x < 256) sb_buf). apply (bool_decide_unpack _). vm_compute. done. Qed.

Lemma start_holds V : (forall b, 0 <= b < FSSIZE -> V !! b = Some (replicate BSIZEn 0)) -> holds (mkmk (<[1 := sb_buf]> V) 1 nmeta) [].
Proof.
  intros Hz. assert (Hv : full V) by (intros b Hb; rewrite Hz by done; eexists; split; [done|apply wf_zero_block]).
  split; cbn [img freeinode freeblock length]; try (done || lia).
  - by apply full_insert, sb_buf_wf.
  - intros b Hb. rewrite nmeta_eq in Hb. rewrite at_insert_ne by lia. unfold at_block. by rewrite Hz by lia.
  - intros b Hb. case_decide as E; [subst b; apply at_insert|]. rewrite at_insert_ne by done. unfold at_block. by rewrite Hz by (unfold FSSIZE; lia).
Qed.

Lemma bput_set_bit n d : wf_block d -> (n < 4096)%nat ->
  bput (n / 8) [Z.lor (nth_byte d (n / 8)) (Z.shiftl 1 (Z.of_nat n mod 8))] d = set_bit (Z.of_nat n) d.
Proof.
  intros [Hl _] Hn. assert (Hk : (n / 8 < 512)%nat) by (apply Nat.Div0.div_lt_upper_bound; lia). unfold BSIZEn in Hl. unfold set_bit.
  assert (E : Z.to_nat (Z.of_nat n / 8) = (n / 8)%nat) by (change 8 with (Z.of_nat 8); rewrite <- Nat2Z.inj_div; lia). rewrite E. destruct (lookup_lt_is_Some_2 d (n / 8)) as [x Hx]; [lia|].
  apply list_eq. intros i. rewrite lookup_bput by (cbn [length]; lia). cbn [length]. unfold nth_byte. rewrite Hx. cbn [default].
  destruct (decide (i = n / 8)%nat) as [-> |Hne].
  - rewrite list_lookup_alter_eq, Hx. rewrite decide_True by lia. by rewrite Nat.sub_diag.
  - rewrite list_lookup_alter_ne by done. rewrite decide_False; [done|lia].
Qed.

Lemma mark_used_bits n : (n <= 4096)%nat -> wf_block (mark_used n (replicate BSIZEn 0)) /\
  forall j, 0 <= j < 4096 -> bit j (mark_used n (replicate BSIZEn 0)) = (j <? Z.of_nat n).
Proof.
  induction n as [|n IH]; intros Hn; cbn [mark_used].
  - split; [apply wf_zero_block|]. intros j Hj. rewrite bit_spec. unfold nth_byte.
    rewrite (proj2 (Z.ltb_ge _ _)) by lia. destruct (replicate BSIZEn 0 !! _) as [x|] eqn:E; cbn [default]; [|apply Z.bits_0].
    apply lookup_replicate in E as [-> _]. apply Z.bits_0.
  - destruct IH as [Hw Hb]; [lia|]. rewrite bput_set_bit by (done || lia). split; [by apply wf_set_bit|].
    intros j Hj. rewrite bit_set_bit by (done || unfold BPB; lia). rewrite Hb by done.
    destruct (Z.eqb_spec j (Z.of_nat n)), (Z.ltb_spec j (Z.of_nat n)), (Z.ltb_spec j (Z.of_nat (S n))); try done; lia.
Qed.

Section final.
Context (s : mk) (d : bytes) (l : list (Z * bytes)).
Hypothesis Hh : holds s ((T_DIR, d) :: l).
Hypothesis Hd : Z.of_nat (length d) < MAXFILE * BSIZE.
Let V := img s.
Let fb := freeblock s.
Let root := inode_of V 1.
Let size := (Z.of_nat (length d) / BSIZE + 1) * BSIZE.
Let root' := set_isize size root.
Let V2 := with_inode V 1 root'.
Let V3 := <[58 := mark_used (Z.to_nat fb) (replicate BSIZEn 0)]> V2.

Lemma root_file : has_file V fb 1 T_DIR d.
Proof. apply (h_file _ _ Hh 0 (T_DIR, d)). done. Qed.

Lemma size_bound : Z.of_nat (length d) < size <= 71680 /\ size <= Z.of_nat (length d) + 512.
Proof.
  unfold size. unfold MAXFILE, BSIZE in *. pose proof (Z.div_mod (Z.of_nat (length d)) 512 ltac:(lia)).
  pose proof (Z.mod_pos_bound (Z.of_nat (length d)) 512 ltac:(lia)). lia.
Qed.

Lemma fb_bound : 59 <= fb <= 1000.
Proof. destruct (h_blocks _ _ Hh) as [_ H2]. pose proof (bu_fb _ _ _ _ (hf_blocks _ _ _ _ _ root_file)). rewrite nmeta_eq in *. unfold FSSIZE in *. lia. Qed.

Lemma root_typed : inode_typed root'.
Proof.
  destruct root_file as [F1 (F2 & F3 & F4) F5 F6 _]. fold root in F1, F2, F3, F4, F5, F6. pose proof size_bound.
  split; cbn [root' set_isize itype major minor nlink isize addrs]; rewrite ?F1, ?F2, ?F3, ?F4; try (unfold T_DIR; lia).
  - unfold in_u32. lia.
  - apply (bu_slots _ _ _ _ F6).
  - eapply slots_u32; [apply (bu_slots _ _ _ _ F6)|pose proof fb_bound; unfold FSSIZE; lia].
Qed.

Lemma finish_run : does (fix_root 1;; s ← fetch; balloc (freeblock s)) (fun _ s' => img s' = V3) s.
Proof.
  pose proof size_bound. pose proof fb_bound. unfold fix_root, rinode. apply does_bind, does_bind, does_bind.
  destruct (full_at V (IBLOCK 1 sb) (h_full _ _ Hh)) as [E _]; [destruct (IBLOCK_bound 1); unfold FSSIZE; lia|].
  eapply does_rsect; [exact E|]. apply does_ret. change (load_dinode _ _ _) with (inode_of V 1). rewrite (hf_size _ _ _ _ _ root_file).
  unfold MAXFILE, BSIZE in *. rewrite (xint_id (Z.of_nat _)) by (unfold in_u32; lia). fold size.
  rewrite u32_id by (unfold in_u32; lia). rewrite xint_id by (unfold in_u32; lia).
  apply (winode_run V); [apply Hh|lia|done|]. apply does_bind. eexists _, _. split; [reflexivity|]. cbn [freeblock]. fold fb.
  unfold balloc. apply does_bind, does_assert; [apply Z.ltb_lt; unfold BSIZE; lia|]. apply does_wsect. done.
Qed.

(** The bits of the free map are the blocks below [fb]. *)
Lemma final_used b : 0 <= b < 1000 -> used sb V3 b = (b <? fb).
Proof.
  intros Hb. pose proof fb_bound. unfold used. assert (E : BBLOCK b sb = 58).
  { unfold BBLOCK, BPB. change (sb_bmapstart sb) with 58. rewrite (Z.div_small b) by lia. done. }
  rewrite E. unfold V3. rewrite at_insert. unfold BPB. rewrite Z.mod_small by lia.
  rewrite (proj2 (mark_used_bits (Z.to_nat fb) ltac:(lia))) by lia. by rewrite Z2Nat.id by lia.
Qed.

Lemma final_at b : ~ (32 <= b < 59) -> at_block V3 b = at_block V b.
Proof. intros Hb. unfold V3. rewrite at_insert_ne by lia. apply with_inode_at; lia. Qed.

Lemma final_full : full V3.
Proof.
  apply full_insert; [apply with_inode_full; [apply Hh|lia|apply root_typed]|]. pose proof fb_bound. apply mark_used_bits. lia.
Qed.

Lemma final_inode m : 0 <= m < 208 -> inode_of V3 m = if decide (m = 1) then root' else inode_of V m.
Proof.
  intros Hm. transitivity (inode_of V2 m).
  { unfold inode_of, V3. rewrite at_insert_ne; [done|]. destruct (IBLOCK_bound m Hm). lia. }
  case_decide as E; [subst m|apply with_inode_other; [apply Hh|lia|apply root_typed|done|done]].
  unfold V2. rewrite with_inode_same by (apply Hh || lia || apply root_typed). done.
Qed.

Lemma final_frame x off : building V x off fb -> forall k, (k <= NSLOT)%nat -> faddr V x k <> 0 -> at_block V3 (faddr V x k) = at_block V (faddr V x k).
Proof.
  intros Hb k Hk H0. pose proof (so_range _ _ _ (bu_slots _ _ _ _ Hb) k Hk H0) as Hr. rewrite nmeta_eq in Hr. apply final_at. lia.
Qed.

Lemma final_slot x off y k : building V x off fb -> addrs y = addrs x -> faddr V3 y k = faddr V x k.
Proof. intros Hb Ha. rewrite (faddr_addrs V3 x y) by done. eapply faddr_frame, final_frame, Hb. Qed.

(** The blocks of a file are marked in use and its bytes can be read. *)
Lemma final_blocks x off y : building V x off fb -> addrs y = addrs x -> idev y = 1 -> 0 <= isize y <= MAXFILE * BSIZE ->
  (forall k, 512 * k < isize y -> 512 * k < off) ->
  inode_ok sb V3 y /\ forall o, 0 <= o < isize y -> fbyte V3 y o = fbyte V x o.
Proof.
  intros Hb Ha Hdev Hsz Hk. pose proof fb_bound. destruct (bu_slots _ _ _ _ Hb) as [S1 S2 S3]. rewrite nmeta_eq in S2.
  assert (Hs : forall k, faddr V3 y k = faddr V x k) by (intros k; by eapply final_slot).
  unfold MAXFILE, BSIZE in Hsz. split.
  - split; try done.
    + by rewrite Ha.
    + intros k Hk'. rewrite Hs. intros H0. specialize (S2 k Hk' H0). change (data_start sb) with 59. change (sb_size sb) with 1000.
      rewrite final_used by lia. split; [lia|]. apply Z.ltb_lt. lia.
    + intros j k Hj Hk'. rewrite !Hs. by apply S3.
    + intros k Hlt. rewrite Hs. unfold BSIZE in Hlt. apply (bu_mapped _ _ _ _ Hb); [unfold NSLOT; lia|]. apply Hk. lia.
  - intros o Ho. rewrite (fbyte_addrs V3 x y) by done. apply fbyte_frame; [by eapply final_frame|lia|].
    destruct (byte_slot o) as (Hj & Hj2 & Hj3); [lia|]. apply (bu_mapped _ _ _ _ Hb); [done|]. apply Hk. lia.
Qed.

Lemma final_file i ty c y : l !! i = Some (ty, c) -> idev y = 1 -> let x := disk_inode sb V3 (2 + Z.of_nat i) y in
  inode_ok sb V3 x /\ itype x = ty /\ nlink x = 1 /\ content V3 x = c.
Proof.
  intros Hi Hy x. pose proof (lookup_lt_Some _ _ _ Hi) as Hl. destruct (h_inodes _ _ Hh) as [Hn1 Hn2]. unfold NINODES in Hn2. cbn [length] in Hn1.
  pose proof (h_file _ _ Hh (S i) (ty, c) Hi) as [F1 (F2 & _) F3 F4 F5]. replace (1 + Z.of_nat (S i)) with (2 + Z.of_nat i) in * by lia. cbn [fst snd] in *.
  pose proof (final_inode (2 + Z.of_nat i) ltac:(lia)) as E. rewrite decide_False in E by lia. fold V fb in F1, F2, F3, F4, F5.
  assert (Ea : addrs x = addrs (inode_of V (2 + Z.of_nat i))) by (rewrite <- E; done).
  assert (Es : isize x = Z.of_nat (length c)) by (rewrite <- F3, <- E; done).
  destruct (final_blocks _ _ x F4 Ea Hy) as [Hok Hb]; [rewrite Es; apply F4|rewrite Es; done|]. split; [done|].
  split; [rewrite <- F1, <- E; done|]. split; [rewrite <- F2, <- E; done|]. apply list_eq. intros o.
  unfold content. rewrite lookup_file_bytes, Es, Nat2Z.id. case_decide as Ho; [|by rewrite lookup_ge_None_2 by lia].
  rewrite Z.add_0_l, Hb, F5 by lia. unfold nth_byte. by destruct (lookup_lt_is_Some_2 c o Ho) as [v ->].
Qed.

Lemma final_apart i j a b y y' : (i < S (length l))%nat -> (j < S (length l))%nat -> i <> j -> (a <= NSLOT)%nat -> (b <= NSLOT)%nat ->
  faddr V3 (disk_inode sb V3 (1 + Z.of_nat i) y) a <> 0 ->
  faddr V3 (disk_inode sb V3 (1 + Z.of_nat i) y) a <> faddr V3 (disk_inode sb V3 (1 + Z.of_nat j) y') b.
Proof.
  assert (H : forall i y k, (i < S (length l))%nat -> faddr V3 (disk_inode sb V3 (1 + Z.of_nat i) y) k = faddr V (inode_of V (1 + Z.of_nat i)) k).
  { clear i j a b y y'. intros i y k Hi. destruct (h_inodes _ _ Hh) as [Hn1 Hn2]. unfold NINODES in Hn2. cbn [length] in Hn1.
    destruct (lookup_lt_is_Some_2 ((T_DIR, d) :: l) i Hi) as [f Hf]. pose proof (hf_blocks _ _ _ _ _ (h_file _ _ Hh i f Hf)) as Hb.
    eapply final_slot; [exact Hb|]. change (addrs (inode_of V3 (1 + Z.of_nat i)) = addrs (inode_of V (1 + Z.of_nat i))).
    rewrite final_inode by lia. case_decide as E; [|done]. rewrite E. done. }
  intros Hi Hj. rewrite !H by done. by apply (h_apart _ _ Hh).
Qed.

Lemma final_root y : Z.of_nat (length d) mod 512 <> 0 -> idev y = 1 -> let x := disk_inode sb V3 1 y in
  is_dir sb V3 x /\ content V3 x = d ++ replicate (Z.to_nat size - length d) 0.
Proof.
  intros Hm Hy x. pose proof (final_inode 1 ltac:(lia)) as E. rewrite decide_True in E by lia. pose proof size_bound as Hs.
  pose proof root_file as [F1 _ _ F4 F5]. fold root in F1, F4, F5.
  assert (Ea : addrs x = addrs root) by (change (addrs root) with (addrs root'); rewrite <- E; done).
  assert (Es : isize x = size) by (change size with (isize root'); rewrite <- E; done).
  assert (Hdiv : size = 512 * (Z.of_nat (length d) / 512 + 1)) by (unfold size, BSIZE; lia).
  pose proof (Z.div_mod (Z.of_nat (length d)) 512 ltac:(lia)) as Hdm. pose proof (Z.mod_pos_bound (Z.of_nat (length d)) 512 ltac:(lia)) as Hmb.
  destruct (final_blocks _ _ x F4 Ea Hy) as [Hok Hb]; [rewrite Es; unfold MAXFILE, BSIZE; lia|rewrite Es; intros k Hk; lia|].
  split; [split; [done|]; split|].
  - rewrite <- F1. change (itype root) with (itype root'). rewrite <- E. done.
  - rewrite Es, Hdiv. replace (512 * (Z.of_nat (length d) / 512 + 1)) with ((32 * (Z.of_nat (length d) / 512 + 1)) * 16) by lia. apply Z_mod_mult.
  - apply list_eq. intros o. unfold content. rewrite lookup_file_bytes, Es. case_decide as Ho; [|by rewrite lookup_ge_None_2 by (rewrite length_app, length_replicate; lia)].
    rewrite Z.add_0_l, Hb by lia. destruct (decide (o < length d)%nat) as [Hlt|Hge].
    + rewrite lookup_app_l by done. rewrite F5 by done. unfold nth_byte. by destruct (lookup_lt_is_Some_2 d o Hlt) as [v ->].
    + rewrite lookup_app_r, lookup_replicate_2 by lia. f_equal. destruct (byte_slot (Z.of_nat o)) as (Hj & Hj2 & Hj3); [lia|].
      apply (bu_tail _ _ _ _ F4); [unfold MAXFILE, BSIZE; lia|]. apply (bu_mapped _ _ _ _ F4); [done|]. lia.
Qed.
End final.

(** ** The root directory *)

Lemma dents_cons e bs : length e = 16%nat -> dents (e ++ bs) = e :: dents bs.
Proof.
  intros He. apply list_eq. intros k. rewrite lookup_dents, length_app, He.
  replace ((16 + length bs) / 16)%nat with (S (length bs / 16)) by (change (16 + length bs)%nat with (1 * 16 + length bs)%nat; by rewrite Nat.div_add_l).
  destruct k as [|k]; [rewrite decide_True by lia; cbn [lookup list_lookup]; f_equal; unfold bsub; rewrite drop_0; rewrite <- He; apply take_app_length|].
  change ((e :: dents bs) !! S k) with (dents bs !! k). rewrite lookup_dents. destruct (decide (k < length bs / 16)%nat) as [Hk|Hk]; [|by rewrite decide_False by lia].
  rewrite decide_True by lia. f_equal. unfold bsub. rewrite drop_app_ge by lia. do 2 f_equal. lia.
Qed.

Lemma le_val_zeros n : le_val (replicate n 0) = 0.
Proof. induction n as [|n IH]; [done|]. cbn [replicate le_val]. by rewrite IH. Qed.

Lemma dir_get_zeros n name : dir_get (dents (replicate n 0)) name = None.
Proof.
  unfold dir_get, dir_find. rewrite find_idx_all; [done|]. intros e He. apply list_elem_of_lookup in He as [k Hk].
  rewrite lookup_dents in Hk. case_decide; [|done]. injection Hk as <-. unfold names_ent, de_inum, get_u16, bsub.
  rewrite drop_replicate, !take_replicate, drop_replicate, take_replicate, le_val_zeros. done.
Qed.

(** Looking up a name among the entries that mkfs writes. *)
Definition named (other : bytes) (es : list (bytes * Z)) : option Z := snd <$> List.find (fun e => bool_decide (fname other = fname (fst e))) es.

Lemma dir_get_ents es n other : Forall (fun e => Forall is_byte (fst e) /\ 0 < snd e < 65536) es -> Forall is_byte other ->
  dir_get (dents (ent_bytes es ++ replicate n 0)) other = named other es.
Proof.
  intros He Ho. induction He as [|[name m] es [Hb Hm] _ IH]; [apply dir_get_zeros|]. cbn [fst snd] in *.
  change (ent_bytes ((name, m) :: es)) with (make_dirent name m ++ ent_bytes es). rewrite <- (assoc_L (++)).
  assert (Em : u16 m = m) by (apply u16_id; unfold in_u16; lia).
  rewrite dents_cons, dir_get_cons by apply length_make_dirent. rewrite names_made, make_dirent_inum, Em by (done || lia).
  rewrite IH. unfold named. cbn [List.find fst snd]. by case_bool_decide.
Qed.

Definition root_entries (files : list file) : list (bytes * Z) := ([46], 1) :: ([46; 46], 1) :: ents 2 files.

Lemma ents_ok files : Forall file_ok files -> forall n, 0 < n -> n + Z.of_nat (length files) < 65536 ->
  Forall (fun e => Forall is_byte (fst e) /\ 0 < snd e < 65536) (ents n files).
Proof.
  induction 1 as [|f files Hf _ IH]; intros n Hn Hl; [constructor|]. cbn [ents length] in *. constructor; [|apply IH; lia].
  split; [apply file_name_bytes, Hf|cbn; lia].
Qed.

Lemma root_entries_ok files : Forall file_ok files -> Z.of_nat (length files) < 199 ->
  Forall (fun e => Forall is_byte (fst e) /\ 0 < snd e < 65536) (root_entries files).
Proof.
  intros Hf Hl. repeat (apply Forall_cons; split; [split; [repeat constructor; lia|cbn; lia]|]). apply ents_ok; [done|lia..].
Qed.

(** What main needs: at most 198 files, with room for their contents; the
    directory must not fill its last block, see [fix_root]. *)
Definition image_ok (files : list file) : Prop :=
  Forall file_ok files /\ Z.of_nat (length files) < 199 /\ (2 + Z.of_nat (length files)) mod 32 <> 0 /\
  blocks_of ((T_DIR, ent_bytes (root_entries files)) :: (made <$> files)) <= FSSIZE.

(** The image that main leaves when the files are [l] and the entries of the
    root directory are [d]. *)
Definition finished (s : mk) (d : bytes) : blocks :=
  <[58 := mark_used (Z.to_nat (freeblock s)) (replicate BSIZEn 0)]>
    (with_inode (img s) 1 (set_isize ((Z.of_nat (length d) / BSIZE + 1) * BSIZE) (inode_of (img s) 1))).

Lemma dot_run s c e : holds s [(T_DIR, c)] -> (length (c ++ e) <= 32)%nat -> Forall is_byte e -> does (iappend 1 e) (fun _ s' => holds s' [(T_DIR, c ++ e)]) s.
Proof.
  intros Hh Hl He. apply (iappend_fits s _ 0 T_DIR c e Hh); [done..|unfold MAXFILE, BSIZE; lia|]. cbn [insert list_insert]. rewrite blocks_of_cons. cbn [snd].
  pose proof (nblk_mono (Z.of_nat (length (c ++ e))) 32 ltac:(lia)) as Hm. change (nblk 32) with 1 in Hm. change (blocks_of []) with 59. unfold FSSIZE. lia.
Qed.

Lemma main_run files : image_ok files -> does (main files) (fun _ s' => exists s,
  holds s ((T_DIR, ent_bytes (root_entries files)) :: (made <$> files)) /\ img s' = finished s (ent_bytes (root_entries files))) mk0.
Proof.
  intros (Hf & Hl & Hm & Hroom). unfold main. apply does_bind. eapply does_mono; [apply zero_blocks_run|]. intros ? s1 (E1 & E2 & Hz).
  apply does_bind, does_wsect. rewrite E1, E2. rewrite Z2Nat.id in Hz by (unfold FSSIZE; lia). apply does_bind.
  eapply does_mono; [apply (ialloc_run _ [] T_DIR (start_holds _ Hz)); [done|unfold T_DIR; lia]|]. intros n s2 [-> H2]. cbn [app length] in H2.
  change (1 + Z.of_nat (length [])) with 1. apply does_bind, does_assert; [done|].
  change (dirent 1 [46]) with (make_dirent [46] 1). change (dirent 1 [46; 46]) with (make_dirent [46; 46] 1).
  apply does_bind. eapply does_mono; [apply (dot_run s2 [] _ H2); [rewrite !length_app, !length_make_dirent; cbn; lia| apply make_dirent_bytes; repeat constructor; lia]|]. intros ? s3 H3.
  apply does_bind. eapply does_mono; [apply (dot_run s3 _ _ H3); [rewrite !length_app, !length_make_dirent; cbn; lia| apply make_dirent_bytes; repeat constructor; lia]|]. intros ? s4 H4.
  assert (Hlen : length (ent_bytes (root_entries files)) = (32 + 16 * length files)%nat) by (rewrite length_ent_bytes; unfold root_entries; cbn [length]; rewrite length_ents; lia).
  assert (E : ([] ++ make_dirent [46] 1) ++ make_dirent [46; 46] 1 ++ ent_bytes (ents 2 files) = ent_bytes (root_entries files)) by done.
  rewrite (assoc_L (++)) in E. apply does_bind. eapply does_mono; [apply (add_files_run files s4 _ [] H4 Hf)|].
  - unfold NINODES. cbn [length]. lia.
  - rewrite !length_app, !length_make_dirent. unfold MAXFILE, BSIZE. cbn [length]. lia.
  - cbn [length app]. change (2 + Z.of_nat 0) with 2. cbn [app] in E. by rewrite E.
  - intros ? s5 H5. cbn [length app] in H5, E. change (2 + Z.of_nat 0) with 2 in H5. rewrite E in H5.
    eapply does_mono; [apply (finish_run s5 _ _ H5); rewrite Hlen; unfold MAXFILE, BSIZE; lia|]. intros ? s6 H6. by exists s5.
Qed.

(** C15. mkfs makes a file system that the kernel can use.  When the files
    fit (fewer than 199 of them, each at most 140 blocks with a name without
    a slash, all blocks within the image) and the entries of the root
    directory do not fill its last block (the number of files plus 2 is not
    a multiple of 32: otherwise mkfs rounds the size of the directory up to
    a block that it does not have), main ends without a failure, and the
    image has, in the terms of the kernel's definitions: the layout the allocators rely on; the
    superblock that readsb expects; an empty log; a free map that marks
    exactly the blocks below the last one used; a root directory in which
    the names ".", ".." and the names of the files lead to their numbers
    and no other name is found; for every file an inode that is well formed
    and of type T_FILE, whose contents are the bytes read; and no block that
    belongs to two inodes. *)
Theorem mkfs_correct files : image_ok files -> exists V, mkfs_image files = Some V /\
  geom sb V /\ super_ok sb V /\ at_block V (sb_logstart sb) = replicate BSIZEn 0 /\
  (forall b, 0 <= b < FSSIZE -> wf_block (at_block V b) /\
    used sb V b = (b <? blocks_of ((T_DIR, ent_bytes (root_entries files)) :: (made <$> files)))) /\
  (forall y, idev y = 1 -> is_dir sb V (disk_inode sb V 1 y) /\
    forall other, Forall is_byte other -> dir_get (entries V (disk_inode sb V 1 y)) other = named other (root_entries files)) /\
  (forall i f y, files !! i = Some f -> idev y = 1 -> let x := disk_inode sb V (2 + Z.of_nat i) y in
    inode_ok sb V x /\ itype x = T_FILE /\ nlink x = 1 /\ content V x = concat (snd f)) /\
  (forall i j a b y y', (i <= length files)%nat -> (j <= length files)%nat -> i <> j -> (a <= NSLOT)%nat -> (b <= NSLOT)%nat ->
    faddr V (disk_inode sb V (1 + Z.of_nat i) y) a <> 0 ->
    faddr V (disk_inode sb V (1 + Z.of_nat i) y) a <> faddr V (disk_inode sb V (1 + Z.of_nat j) y') b).
Proof.
  intros Hok. destruct (main_run files Hok) as ([] & s' & E & s & Hh & HV). destruct Hok as (Hf & Hl & Hm & Hroom).
  assert (Hlen : length (ent_bytes (root_entries files)) = (32 + 16 * length files)%nat) by (rewrite length_ent_bytes; unfold root_entries; cbn [length]; rewrite length_ents; lia).
  assert (Hd : Z.of_nat (length (ent_bytes (root_entries files))) < MAXFILE * BSIZE) by (rewrite Hlen; unfold MAXFILE, BSIZE; lia).
  assert (Hlow : forall b, 0 <= b < 32 -> at_block (finished s (ent_bytes (root_entries files))) b = at_block (img s) b) by (intros b Hb; apply final_at; lia).
  pose proof (final_full s _ _ Hh Hd) as Hfull. fold (finished s (ent_bytes (root_entries files))) in Hfull.
  exists (img s'). split; [unfold mkfs_image; by rewrite E|]. rewrite HV. split; [|split; [|split; [|split; [|split; [|split]]]]].
  - split; [split; vm_compute; done|vm_compute; done..|]. intros b Hb. destruct (Hfull b Hb) as (v & Hv & _). apply elem_of_dom. eauto.
  - unfold super_ok. rewrite Hlow, (h_low _ _ Hh) by lia. reflexivity.
  - change (sb_logstart sb) with 2. by rewrite Hlow, (h_low _ _ Hh) by lia.
  - intros b Hb. split; [by apply full_at|]. unfold blocks_of. rewrite <- (proj1 (h_blocks _ _ Hh)). by apply (final_used s _ _ Hh).
  - intros y Hy. destruct (final_root s _ _ Hh Hd y) as [Hr Hc]; [rewrite Hlen; Z.div_mod_to_equations; lia|done|]. split; [done|].
    intros other Ho. unfold entries. fold (finished s (ent_bytes (root_entries files))) in Hc. rewrite Hc. apply dir_get_ents; [by apply root_entries_ok|done].
  - intros i f y Hi Hy. apply (final_file s _ _ Hh Hd); [|done]. by rewrite list_lookup_fmap, Hi.
  - intros i j a b y y' Hi Hj. apply (final_apart s _ _ Hh Hd); rewrite length_fmap; lia.
Qed.

(** A program of 600 bytes read in two pieces, and a text. *)
Definition demo_files : list file := [([95; 99; 97; 116], [replicate 512 7; replicate 88 9]); ([82; 69; 65; 68; 77; 69], [[104; 105; 10]])].

Definition demo_inode : inode := mkinode 1 0 1 (ilk zero_inode) false 0 0 0 0 0 (replicate 13 0).

Lemma demo_ok : image_ok demo_files.
Proof.
  unfold image_ok. split_and!; [|vm_compute; done..]. repeat (apply Forall_cons; split); [..|constructor];
    (split; [repeat constructor; lia|]; split; [done|]; split; [|vm_compute; done]).
  - do 2 (apply Forall_cons; split; [apply Forall_replicate; unfold is_byte; lia|]). constructor.
  - repeat constructor; lia.
Qed.

Lemma mkfs_correct_witness : exists V, mkfs_image demo_files = Some V /\ used sb V 62 = true /\ used sb V 63 = false /\
  dir_get (entries V (disk_inode sb V 1 demo_inode)) [99; 97; 116] = Some 2 /\
  content V (disk_inode sb V 2 demo_inode) = replicate 512 7 ++ replicate 88 9.
Proof.
  destruct (mkfs_correct demo_files demo_ok) as (V & E & _ & _ & _ & Hu & Hr & Hf & _). exists V. split; [exact E|].
  split; [by rewrite (proj2 (Hu 62 ltac:(unfold FSSIZE; lia)))|]. split; [by rewrite (proj2 (Hu 63 ltac:(unfold FSSIZE; lia)))|].
  split; [rewrite (proj2 (Hr demo_inode eq_refl)); [reflexivity|repeat constructor; lia]|].
  destruct (Hf 0%nat _ demo_inode eq_refl eq_refl) as (_ & _ & _ & Hc). exact Hc.
Defined.

(** With 30 files the directory fills its block, and its size is rounded up
    to two blocks, the second of which it does not have. *)
Lemma root_size_without_block :
  (V ← mkfs_image (replicate 30 ([97], [])); Some (isize (inode_of V 1), faddr V (inode_of V 1) 1)) = Some (1024, 0).
Proof. vm_compute. reflexivity. Qed.
