(* ===== verification/Vm.v ===== *)
(** * vm.c: page tables

    The code of vm.c on the memory of Kalloc.v: a page directory and its
    page tables are words in pages of that memory, reached by the kernel
    addresses the code computes, and pages come from kalloc.  [pgdir] is
    the kernel address of a page directory, 0 for the null pointer.

    The theorems are in VmProof.v and VmUser.v. *)

From stdpp Require Import base numbers strings gmap list.
From S2P Require Import Prelude Kmonad Kstring Mmu Kalloc.

Local Open Scope Z_scope.

Section vm.
(** [end] and [data] of kernel.ld, and the frame buffer gpu found by the
    graphics code. *)
Variable kend : Z.
Variable kdata : Z.
Variables vram_size pvram_addr : Z.

(** Words of memory. *)
Definition ld (a : Z) : K kmem Z := gets (fun k => load32 a (kmemory k)).
Definition st (a v : Z) : K kmem unit := modify (fun k => set_kmemory (store32 a v (kmemory k)) k).
Definition set_bytes (dst c n : Z) : K kmem unit :=
  modify (fun k => set_kmemory (memset dst c n (kmemory k)) k).

Definition flag (v f : Z) : bool := negb (Z.land v f =? 0).

Definition walkpgdir (pgdir va : Z) (alloc : bool) : K kmem Z :=
  let pde := u32 (pgdir + 4 * PDX va) in
  v ← ld pde;
  if flag v PTE_P then
    mret (u32 (P2V (PTE_ADDR v) + 4 * PTX va))
  else if negb alloc then mret 0
  else
    pgtab ← kalloc;
    if pgtab =? 0 then mret 0
    else
      set_bytes pgtab 0 PGSIZE;;
      st pde (Z.lor (Z.lor (Z.lor (V2P pgtab) PTE_P) PTE_W) PTE_U);;
      mret (u32 (pgtab + 4 * PTX va)).

(** The loop of mappages from page [a] to page [last]; [fuel] bounds the
    number of pages. *)
Fixpoint mappages_loop (fuel : nat) (pgdir a last pa perm : Z) : K kmem Z :=
  match fuel with
  | O => panic "mappages"
  | S fuel =>
      pte ← walkpgdir pgdir a true;
      if pte =? 0 then mret (-1)
      else
        v ← ld pte;
        if flag v PTE_P then panic "remap"
        else
          st pte (Z.lor (Z.lor pa perm) PTE_P);;
          if a =? last then mret 0
          else mappages_loop fuel pgdir (u32 (a + PGSIZE)) last (u32 (pa + PGSIZE)) perm
  end.

Definition mappages (pgdir va size pa perm : Z) : K kmem Z :=
  let a := PGROUNDDOWN va in
  let last := PGROUNDDOWN (u32 (va + size - 1)) in
  mappages_loop (Z.to_nat (u32 (last - a) / PGSIZE) + 1) pgdir a last pa perm.

(** struct kmap: virt, phys_start, phys_end, perm.  Row 3 is filled in by
    setupkvm. *)
Definition kmap : list (Z * Z * Z * Z) :=
  [ (KERNBASE, 0, EXTMEM, PTE_W);
    (KERNLINK, V2P KERNLINK, V2P kdata, 0);
    (kdata, V2P kdata, PHYSTOP, PTE_W);
    (u32 (DEVSPACE - vram_size), pvram_addr, u32 (pvram_addr + vram_size), PTE_W);
    (u32 (PCI_BAR_BASE + PCI_VP_OFFSET), PCI_BAR_BASE, u32 (0x10000000 + PCI_BAR_BASE), PTE_W);
    (DEVSPACE, DEVSPACE, 0, PTE_W) ].

(** deallocuvm's loop; a missing page table skips to the next directory
    entry. *)
Fixpoint deallocuvm_loop (fuel : nat) (pgdir a oldsz : Z) : K kmem unit :=
  match fuel with
  | O => mret tt
  | S fuel =>
      if a <? oldsz then
        pte ← walkpgdir pgdir a false;
        if pte =? 0 then
          deallocuvm_loop fuel pgdir (u32 (u32 (PGADDR (PDX a + 1) 0 0 - PGSIZE) + PGSIZE)) oldsz
        else
          v ← ld pte;
          (if flag v PTE_P then
             let pa := PTE_ADDR v in
             if pa =? 0 then panic "kfree"
             else
               kfree kend (P2V pa);;
               st pte 0
           else mret tt);;
          deallocuvm_loop fuel pgdir (u32 (a + PGSIZE)) oldsz
      else mret tt
  end.

Definition deallocuvm (pgdir oldsz newsz : Z) : K kmem Z :=
  if oldsz <=? newsz then mret oldsz
  else
    deallocuvm_loop (Z.to_nat (oldsz / PGSIZE) + 1) pgdir (PGROUNDUP newsz) oldsz;;
    mret newsz.

Fixpoint freevm_tables (n : nat) (pgdir i : Z) : K kmem unit :=
  match n with
  | O => mret tt
  | S n =>
      v ← ld (u32 (pgdir + 4 * i));
      (if flag v PTE_P then kfree kend (P2V (PTE_ADDR v)) else mret tt);;
      freevm_tables n pgdir (i + 1)
  end.

Definition freevm (pgdir : Z) : K kmem unit :=
  if pgdir =? 0 then panic "freevm: no pgdir"
  else
    deallocuvm pgdir KERNBASE 0;;
    freevm_tables (Z.to_nat NPDENTRIES) pgdir 0;;
    kfree kend pgdir.

Fixpoint setupkvm_loop (pgdir : Z) (ks : list (Z * Z * Z * Z)) : K kmem Z :=
  match ks with
  | [] => mret pgdir
  | (virt, p0, p1, perm) :: ks =>
      r ← mappages pgdir virt (u32 (p1 - p0)) p0 perm;
      if r <? 0 then freevm pgdir;; mret 0
      else setupkvm_loop pgdir ks
  end.

Definition setupkvm : K kmem Z :=
  pgdir ← kalloc;
  if pgdir =? 0 then mret 0
  else
    set_bytes pgdir 0 PGSIZE;;
    if DEVSPACE <? P2V PHYSTOP then panic "PHYSTOP too high"
    else setupkvm_loop pgdir kmap.

(** [init] are the sz bytes of initcode. *)
Fixpoint put_bytes (a : Z) (bs : bytes) (m : memory) : memory :=
  match bs with
  | [] => m
  | b :: bs => put_bytes (u32 (a + 1)) bs (store8 a b m)
  end.

Definition inituvm (pgdir : Z) (init : bytes) : K kmem unit :=
  if PGSIZE <=? Z.of_nat (length init) then panic "inituvm: more than a page"
  else
    mem ← kalloc;
    set_bytes mem 0 PGSIZE;;
    mappages pgdir 0 PGSIZE (V2P mem) (Z.lor PTE_W PTE_U);;
    modify (fun k => set_kmemory (put_bytes mem init (kmemory k)) k).

Fixpoint allocuvm_loop (fuel : nat) (pgdir a oldsz newsz : Z) : K kmem Z :=
  match fuel with
  | O => panic "allocuvm"
  | S fuel =>
      if a <? newsz then
        mem ← kalloc;
        if mem =? 0 then
          deallocuvm pgdir newsz oldsz;;
          mret 0
        else
          set_bytes mem 0 PGSIZE;;
          r ← mappages pgdir a PGSIZE (V2P mem) (Z.lor PTE_W PTE_U);
          if r <? 0 then
            deallocuvm pgdir newsz oldsz;;
            kfree kend mem;;
            mret 0
          else allocuvm_loop fuel pgdir (u32 (a + PGSIZE)) oldsz newsz
      else mret newsz
  end.

Definition allocuvm (pgdir oldsz newsz : Z) : K kmem Z :=
  if KERNBASE <=? newsz then mret 0
  else if newsz <? oldsz then mret oldsz
  else allocuvm_loop (Z.to_nat (newsz / PGSIZE) + 2) pgdir (PGROUNDUP oldsz) oldsz newsz.

Definition clearpteu (pgdir uva : Z) : K kmem unit :=
  pte ← walkpgdir pgdir uva false;
  if pte =? 0 then panic "clearpteu"
  else
    v ← ld pte;
    st pte (Z.land v (u32 (Z.lnot PTE_U))).

Fixpoint copyuvm_loop (fuel : nat) (pgdir d i sz : Z) : K kmem Z :=
  match fuel with
  | O => panic "copyuvm"
  | S fuel =>
      if i <? sz then
        pte ← walkpgdir pgdir i false;
        if pte =? 0 then panic "copyuvm: pte should exist"
        else
          v ← ld pte;
          if negb (flag v PTE_P) then panic "copyuvm: page not present"
          else
            let pa := PTE_ADDR v in
            let flags := PTE_FLAGS v in
            mem ← kalloc;
            if mem =? 0 then freevm d;; mret 0
            else
              modify (fun k => set_kmemory (memmove mem (P2V pa) PGSIZE (kmemory k)) k);;
              r ← mappages d i PGSIZE (V2P mem) flags;
              if r <? 0 then freevm d;; mret 0
              else copyuvm_loop fuel pgdir d (u32 (i + PGSIZE)) sz
      else mret d
  end.

Definition copyuvm (pgdir sz : Z) : K kmem Z :=
  d ← setupkvm;
  if d =? 0 then mret 0
  else copyuvm_loop (Z.to_nat (sz / PGSIZE) + 2) pgdir d 0 sz.

(** uva2ka reads through the entry it was given without testing it: for an
    address with no page table it reads the word at address 0. *)
Definition uva2ka (pgdir uva : Z) : K kmem Z :=
  pte ← walkpgdir pgdir uva false;
  v ← ld pte;
  if Z.land v PTE_P =? 0 then mret 0
  else if Z.land v PTE_U =? 0 then mret 0
  else mret (P2V (PTE_ADDR v)).

(** copyout of the bytes [buf]; each turn copies up to the end of a page. *)
Fixpoint copyout_loop (fuel : nat) (pgdir va : Z) (buf : bytes) : K kmem Z :=
  match fuel with
  | O => mret 0
  | S fuel =>
      if 0 <? Z.of_nat (length buf) then
        let va0 := PGROUNDDOWN va in
        pa0 ← uva2ka pgdir va0;
        if pa0 =? 0 then mret (-1)
        else
          let n := Z.min (PGSIZE - (va - va0)) (Z.of_nat (length buf)) in
          modify (fun k => set_kmemory
            (put_bytes (u32 (pa0 + (va - va0))) (take (Z.to_nat n) buf) (kmemory k)) k);;
          copyout_loop fuel pgdir (u32 (va0 + PGSIZE)) (drop (Z.to_nat n) buf)
      else mret 0
  end.

Definition copyout (pgdir va : Z) (buf : bytes) : K kmem Z :=
  copyout_loop (length buf + 1) pgdir va buf.

End vm.
