(* ===== verification/VmProof.v ===== *)
(** * Page tables as maps

    The meaning of the page tables that vm.c builds in memory: the function
    from virtual addresses to entries ([pte]), with the invariant that the
    pages of a page table are different pages that are not free.  mappages
    adds exactly the entries of its range, also when memory runs out in the
    middle. *)

From stdpp Require Import base numbers strings gmap list.
From S2P Require Import Prelude Kmonad Kstring Mmu Kalloc Vm.

Local Open Scope Z_scope.

(** Arithmetic on page addresses. *)
Ltac page := unfold PGSIZE in *; lia.

Definition in_page (p x : Z) : Prop := p <= x < p + PGSIZE.

Definition pde (m : memory) (pgdir i : Z) : Z := load32 (pgdir + 4 * i) m.

(** The page table a present directory entry points to. *)
Definition table (m : memory) (pgdir i : Z) : Z := P2V (PTE_ADDR (pde m pgdir i)).

Definition has_table (m : memory) (pgdir i : Z) : bool := flag (pde m pgdir i) PTE_P.

(** The entry for [va], 0 when there is no page table for it. *)
Definition pte (m : memory) (pgdir va : Z) : Z :=
  if has_table m pgdir (PDX va) then load32 (table m pgdir (PDX va) + 4 * PTX va) m else 0.

Definition same_page (va va' : Z) : Prop := va / PGSIZE = va' / PGSIZE.

#[export] Instance same_page_dec va va' : Decision (same_page va va').
Proof. unfold same_page. apply _. Defined.

Lemma PDX_range va : 0 <= PDX va < 1024.
Proof. unfold PDX. change 0x3FF with (Z.ones 10). rewrite Z.land_ones by lia. apply Z.mod_pos_bound. lia. Qed.

Lemma PTX_range va : 0 <= PTX va < 1024.
Proof. unfold PTX. change 0x3FF with (Z.ones 10). rewrite Z.land_ones by lia. apply Z.mod_pos_bound. lia. Qed.

Lemma page_index va va' : in_u32 va -> in_u32 va' ->
  PDX va = PDX va' /\ PTX va = PTX va' <-> same_page va va'.
Proof.
  intros H1 H2. rewrite !PDX_eq, !PTX_eq by done. unfold same_page, PGSIZE.
  assert (E : forall x, x / 4194304 = x / 4096 / 1024) by (intros x; rewrite Z.div_div by lia; done).
  rewrite !E. split.
  - intros [Ea Eb]. rewrite (Z.div_mod (va / 4096) 1024), (Z.div_mod (va' / 4096) 1024) by lia. lia.
  - intros ->. done.
Qed.

Section pt.
Variable kend : Z.
Implicit Types (m : memory) (pgdir va : Z) (l : list Z) (k : kmem) (c : ctx).

(** The directory and its tables are different pages of the allocator's
    memory, none of them free. *)
Record pt_ok m pgdir l : Prop := {
  pt_bytes : byte_memory m;
  pt_dir : page_ok kend pgdir;
  pt_dir_used : pgdir ∉ l;
  pt_tab : forall i, 0 <= i < 1024 -> has_table m pgdir i = true ->
    page_ok kend (table m pgdir i) /\ table m pgdir i ∉ l /\ table m pgdir i <> pgdir;
  pt_inj : forall i j, 0 <= i < 1024 -> 0 <= j < 1024 -> has_table m pgdir i = true ->
    has_table m pgdir j = true -> table m pgdir i = table m pgdir j -> i = j
}.

(** Memory outside the page table. *)
Definition outside m pgdir (x : Z) : Prop :=
  ~ in_page pgdir x /\
  forall i, 0 <= i < 1024 -> has_table m pgdir i = true -> ~ in_page (table m pgdir i) x.

Lemma page_word p i : page_ok kend p -> 0 <= i < 1024 -> no_wrap (p + 4 * i) 4 /\ u32 (p + 4 * i) = p + 4 * i.
Proof.
  intros (_ & _ & Hk & Ht) Hi. unfold KERNBASE, PHYSTOP, no_wrap in *. split; [lia|].
  apply u32_id. unfold in_u32. lia.
Qed.

Lemma page_pos p : page_ok kend p -> p <> 0.
Proof. intros (_ & _ & Hk & _). unfold KERNBASE in Hk. lia. Qed.

Lemma pages_apart p q x : page_ok kend p -> page_ok kend q -> p <> q -> in_page p x -> ~ in_page q x.
Proof. intros (Hp & _) (Hq & _) Hne Hx. by apply (pages_disjoint p q x). Qed.

Lemma word_in_page p i x : 0 <= i < 1024 -> p + 4 * i <= x < p + 4 * i + 4 -> in_page p x.
Proof. unfold in_page, PGSIZE. lia. Qed.

(** A word keeps its value when its page is not written. *)
Lemma load32_page m m' p i : page_ok kend p -> 0 <= i < 1024 ->
  (forall x, in_page p x -> m' x = m x) -> load32 (p + 4 * i) m' = load32 (p + 4 * i) m.
Proof.
  intros Hp Hi Hx. apply load32_ext; [by apply page_word|]. intros x Hr. apply Hx. by apply (word_in_page p i).
Qed.

(** Storing a word in a page. *)
Lemma store_word m p i v x : page_ok kend p -> 0 <= i < 1024 ->
  ~ (p + 4 * i <= x < p + 4 * i + 4) -> store32 (p + 4 * i) v m x = m x.
Proof.
  intros Hp Hi Hx. rewrite store32_spec by by apply page_word. bool_cases.
Qed.

Lemma load_store_same m p i v : page_ok kend p -> 0 <= i < 1024 -> in_u32 v ->
  load32 (p + 4 * i) (store32 (p + 4 * i) v m) = v.
Proof. intros Hp Hi Hv. apply load32_store32; [by apply page_word|done]. Qed.

Lemma load_store_ne m p i q j v : page_ok kend p -> page_ok kend q -> 0 <= i < 1024 -> 0 <= j < 1024 ->
  p <> q \/ i <> j -> load32 (p + 4 * i) (store32 (q + 4 * j) v m) = load32 (p + 4 * i) m.
Proof.
  intros Hp Hq Hi Hj Hne. apply load32_ext; [by apply page_word|]. intros x Hx. apply store_word; [done..|].
  intros Hx'. destruct (decide (p = q)) as [->|Hpq].
  - destruct Hne as [|Hne]; [done|]. lia.
  - by apply (pages_apart p q x Hp Hq Hpq); [apply (word_in_page p i)|apply (word_in_page q j)].
Qed.

Lemma byte_store32 m a v : byte_memory m -> byte_memory (store32 a v m).
Proof.
  intros Hb x. unfold store32, store8. repeat case_match; try apply Hb; unfold is_byte, u8; apply Z.mod_pos_bound; lia.
Qed.

Lemma load32_u32 m a : byte_memory m -> in_u32 (load32 a m).
Proof.
  intros Hb. unfold load32, in_u32. pose proof (Hb a). pose proof (Hb (u32 (a + 1))).
  pose proof (Hb (u32 (a + 2))). pose proof (Hb (u32 (a + 3))). unfold is_byte in *. lia.
Qed.

(** *** Reading a page table *)

(** The address of the entry for [va]. *)
Definition slot m pgdir va : Z := table m pgdir (PDX va) + 4 * PTX va.

Lemma pte_slot m pgdir va : has_table m pgdir (PDX va) = true -> pte m pgdir va = load32 (slot m pgdir va) m.
Proof. intros E. unfold pte. by rewrite E. Qed.

Lemma pte_u32 m pgdir va : byte_memory m -> in_u32 (pte m pgdir va).
Proof. intros Hb. unfold pte. case_match; [by apply load32_u32|unfold in_u32; lia]. Qed.

(** Writing one entry of a table. *)
Section store.
Context m pgdir va (v : Z) l.
Hypothesis Hok : pt_ok m pgdir l.
Hypothesis Hva : in_u32 va.
Hypothesis Hv : in_u32 v.
Hypothesis Htab : has_table m pgdir (PDX va) = true.
Let m' := store32 (slot m pgdir va) v m.

Lemma store_tab_ok : page_ok kend (table m pgdir (PDX va)) /\ table m pgdir (PDX va) <> pgdir.
Proof. destruct (pt_tab _ _ _ Hok (PDX va) (PDX_range va) Htab) as (? & _ & ?). done. Qed.

Lemma store_pde i : 0 <= i < 1024 -> pde m' pgdir i = pde m pgdir i.
Proof.
  intros Hi. destruct store_tab_ok as [Ht Hne]. unfold pde, m', slot.
  apply load_store_ne; [apply Hok|done|done|apply PTX_range|by left].
Qed.

Lemma store_has_table i : 0 <= i < 1024 -> has_table m' pgdir i = has_table m pgdir i.
Proof. intros Hi. unfold has_table. by rewrite store_pde. Qed.

Lemma store_table i : 0 <= i < 1024 -> table m' pgdir i = table m pgdir i.
Proof. intros Hi. unfold table. by rewrite store_pde. Qed.

Lemma store_pt_ok : pt_ok m' pgdir l.
Proof.
  destruct Hok as [Hb Hd Hdu Ht Hinj]. split; [by apply byte_store32|done|done| |].
  - intros i Hi. rewrite store_has_table, store_table by done. by apply Ht.
  - intros i j Hi Hj. rewrite !store_has_table, !store_table by done. by apply Hinj.
Qed.

Lemma store_pte va' : in_u32 va' -> pte m' pgdir va' = if decide (same_page va va') then v else pte m pgdir va'.
Proof.
  intros Hva'. destruct store_tab_ok as [Ht Hne]. unfold pte at 1.
  rewrite store_has_table, store_table by apply PDX_range. case_decide as Hs.
  - apply page_index in Hs as [E1 E2]; [|done..]. rewrite <- E1, <- E2, Htab. unfold m', slot.
    apply load_store_same; [done|apply PTX_range|done].
  - unfold pte. destruct (has_table m pgdir (PDX va')) eqn:E'; [|done]. unfold m', slot.
    destruct (pt_tab _ _ _ Hok (PDX va') (PDX_range va') E') as (Ht' & _ & _).
    apply load_store_ne; [done..|apply PTX_range|apply PTX_range|].
    destruct (decide (PTX va' = PTX va)) as [Ex|]; [|by right]. left. intros E.
    apply Hs, page_index; [done..|]. split; [|done].
    by apply (pt_inj _ _ _ Hok); [apply PDX_range|apply PDX_range|..].
Qed.

Lemma store_outside x : outside m pgdir x -> m' x = m x.
Proof.
  intros [_ Ho]. destruct store_tab_ok as [Ht Hne]. unfold m', slot. apply (store_word); [done|apply PTX_range|].
  intros Hx. apply (Ho (PDX va)); [apply PDX_range|done|]. by apply (word_in_page _ (PTX va)); [apply PTX_range|].
Qed.

Lemma store_outside_iff x : outside m' pgdir x <-> outside m pgdir x.
Proof.
  unfold outside. split; intros [Hd Ho]; (split; [done|]); intros i Hi;
    specialize (Ho i Hi); rewrite ?store_has_table, ?store_table in * by done; done.
Qed.

(** The free pages keep their links. *)
Lemma store_kmem ul fl : kmem_inv kend l (mkkmem ul fl m) -> kmem_inv kend l (mkkmem ul fl m').
Proof.
  intros (Hrep & Hnd & Hp). split; [|done]. cbn in *.
  destruct (pt_tab _ _ _ Hok (PDX va) (PDX_range va) Htab) as (Ht & Hnl & _).
  eapply (freelist_rep_frame kend m m'); [apply Ht|exact Hnl|done| |done].
  intros x Hx. apply store_word; [done|apply PTX_range|]. intros Hr. apply Hx.
  by apply (word_in_page _ (PTX va)); [apply PTX_range|].
Qed.

End store.

(** *** walkpgdir *)

Lemma flag_P v : flag v PTE_P = Z.odd v.
Proof.
  unfold flag, PTE_P. change 1 with (Z.ones 1). rewrite Z.land_ones by lia. change (2 ^ 1) with 2.
  rewrite Zmod_odd. by destruct (Z.odd v).
Qed.

Lemma wp_ld a k c (Q : Z -> kmem -> ctx -> Prop) : Q (load32 a (kmemory k)) k c -> wp (ld a) Q k c.
Proof. intros HQ. unfold ld. by kstep. Qed.

Lemma wp_st a v k c (Q : unit -> kmem -> ctx -> Prop) :
  Q tt (set_kmemory (store32 a v (kmemory k)) k) c -> wp (st a v) Q k c.
Proof. intros HQ. unfold st. by kstep. Qed.

(** The table is there: only the address is computed. *)
Lemma walk_present m pgdir va b l k c (Q : Z -> kmem -> ctx -> Prop) :
  kmemory k = m -> pt_ok m pgdir l -> has_table m pgdir (PDX va) = true ->
  (slot m pgdir va <> 0 -> Q (slot m pgdir va) k c) -> wp (walkpgdir pgdir va b) Q k c.
Proof.
  intros <- Hok Ht HQ. unfold walkpgdir. cbn zeta. kstep. apply wp_ld. cbn beta.
  destruct (page_word pgdir (PDX va) (pt_dir _ _ _ Hok) (PDX_range va)) as [_ ->].
  fold (pde (kmemory k) pgdir (PDX va)). unfold has_table in Ht. rewrite Ht. kstep.
  destruct (pt_tab _ _ _ Hok (PDX va) (PDX_range va) Ht) as (Hp & _ & _).
  fold (table (kmemory k) pgdir (PDX va)). destruct (page_word _ (PTX va) Hp (PTX_range va)) as [_ ->].
  apply HQ. unfold slot. destruct Hp as (_ & _ & Hk & _). pose proof (PTX_range va). unfold KERNBASE in Hk. lia.
Qed.

Lemma walk_none m pgdir va l k c (Q : Z -> kmem -> ctx -> Prop) :
  kmemory k = m -> pt_ok m pgdir l -> has_table m pgdir (PDX va) = false ->
  Q 0 k c -> wp (walkpgdir pgdir va false) Q k c.
Proof.
  intros <- Hok Ht HQ. unfold walkpgdir. cbn zeta. kstep. apply wp_ld. cbn beta.
  destruct (page_word pgdir (PDX va) (pt_dir _ _ _ Hok) (PDX_range va)) as [_ ->].
  fold (pde (kmemory k) pgdir (PDX va)). unfold has_table in Ht. rewrite Ht. cbn [negb]. by kstep.
Qed.

(** Adding an empty table for directory entry [i] in the page [a]. *)
Section new_table.
Context m pgdir (i a : Z) l.
Hypothesis Hok : pt_ok m pgdir (a :: l).
Hypothesis Hi : 0 <= i < 1024.
Hypothesis Ha : page_ok kend a.
Hypothesis Hal : a ∉ l.
Hypothesis Hno : has_table m pgdir i = false.
Let v := Z.lor (Z.lor (Z.lor (V2P a) PTE_P) PTE_W) PTE_U.
Let m1 := memset a 0 PGSIZE m.
Let m' := store32 (pgdir + 4 * i) v m1.

Lemma new_entry : v = V2P a + 7 /\ V2P a = a - KERNBASE /\ in_u32 v.
Proof.
  destruct Ha as (Hm & _ & Hk & Ht). assert (E : V2P a = a - KERNBASE) by (apply V2P_eq; unfold KERNBASE, PHYSTOP in *; lia).
  assert (Hmod : V2P a mod 4096 = 0).
  { rewrite E. unfold KERNBASE, PGSIZE in *. rewrite <- Zminus_mod_idemp_r. change (0x80000000 mod 4096) with 0. by rewrite Z.sub_0_r. }
  assert (Ev : v = V2P a + 7).
  { unfold v. rewrite <- !Z.lor_assoc. rewrite lor_page by (done || (vm_compute; done)). done. }
  split; [done|]. split; [done|]. rewrite Ev, E. unfold in_u32, KERNBASE, PHYSTOP in *. lia.
Qed.

Lemma new_m1 x : m1 x = if decide (in_page a x) then 0 else m x.
Proof.
  unfold m1. rewrite memset_spec by by apply (page_ok_no_wrap kend). unfold in_page.
  case_decide as E; [by rewrite (proj2 (in_range_spec _ _ _) E)|by rewrite (proj2 (in_range_false _ _ _) E)].
Qed.

Lemma new_dir_ne : pgdir <> a.
Proof. intros ->. apply (pt_dir_used _ _ _ Hok). by left. Qed.

Lemma new_word p j : page_ok kend p -> 0 <= j < 1024 -> p <> a -> p <> pgdir \/ i <> j ->
  load32 (p + 4 * j) m' = load32 (p + 4 * j) m.
Proof.
  intros Hp Hj Hpa Hne. unfold m'. rewrite load_store_ne; [|done|apply Hok|done|done|naive_solver].
  apply load32_page; [done..|]. intros x Hx. rewrite new_m1, decide_False; [done|].
  by apply (pages_apart p a x).
Qed.

Lemma new_pde j : 0 <= j < 1024 -> pde m' pgdir j = if decide (j = i) then v else pde m pgdir j.
Proof.
  intros Hj. unfold pde. case_decide as E.
  - subst j. unfold m'. apply load_store_same; [apply Hok|done|apply new_entry].
  - apply new_word; [apply Hok|done|apply new_dir_ne|by right].
Qed.

Lemma new_has_table j : 0 <= j < 1024 -> has_table m' pgdir j = bool_decide (j = i) || has_table m pgdir j.
Proof.
  intros Hj. unfold has_table. rewrite new_pde by done. case_decide as E; [rewrite bool_decide_true|rewrite bool_decide_false]; try done.
  pose proof new_entry as (Ev & E2 & _). rewrite flag_P, Ev, E2, Z.odd_add. cbn [orb].
  destruct Ha as (Hm & _).
  assert (Z.odd (a - KERNBASE) = false) as ->; [|done].
  unfold PGSIZE, KERNBASE in *. apply Z.div_exact in Hm; [|lia]. rewrite Hm, Z.odd_sub, Z.odd_mul. done.
Qed.

Lemma new_table_eq j : 0 <= j < 1024 -> table m' pgdir j = if decide (j = i) then a else table m pgdir j.
Proof.
  intros Hj. unfold table. rewrite new_pde by done. case_decide as E; [|done].
  pose proof new_entry as (Ev & E2 & Hu). destruct Ha as (Hm & _ & Hk & Ht). rewrite Ev in Hu |- *.
  rewrite PTE_ADDR_page; [|done| |lia].
  - rewrite E2. rewrite P2V_eq; unfold KERNBASE, PHYSTOP in *; lia.
  - rewrite E2. unfold KERNBASE, PGSIZE in *. rewrite <- Zminus_mod_idemp_r. change (0x80000000 mod 4096) with 0. by rewrite Z.sub_0_r.
Qed.

Lemma new_bytes : byte_memory m'.
Proof.
  apply byte_store32. intros x. rewrite new_m1. case_decide; [unfold is_byte; lia|]. apply Hok.
Qed.

Lemma new_pt_ok : pt_ok m' pgdir l.
Proof.
  pose proof Hok as [Hb Hd Hdu Ht Hinj]. apply not_elem_of_cons in Hdu as [_ Hdu].
  assert (Htl : forall j, 0 <= j < 1024 -> has_table m pgdir j = true -> table m pgdir j <> a /\ table m pgdir j ∉ l).
  { intros j Hj E. destruct (Ht j Hj E) as (_ & Hn & _). by apply not_elem_of_cons in Hn. }
  split; [apply new_bytes|done|done| |].
  - intros j Hj. rewrite new_has_table, new_table_eq by done. case_decide as E.
    + intros _. split; [done|]. split; [done|]. apply not_eq_sym, new_dir_ne.
    + rewrite bool_decide_false by done. intros E'. destruct (Ht j Hj E') as (? & _ & ?). by split_and!; [|apply Htl|].
  - intros j j' Hj Hj'. rewrite !new_has_table, !new_table_eq by done.
    case_decide as E; case_decide as E'; [by subst|..];
      rewrite ?(bool_decide_false (j = i)), ?(bool_decide_false (j' = i)) by done; cbn.
    + intros _ Hj2 Ea. by destruct (Htl j' Hj' Hj2).
    + intros Hj2 _ Ea. by destruct (Htl j Hj Hj2).
    + by apply Hinj.
Qed.

(** The new table is empty, so no address changed its entry. *)
Lemma new_pte va : in_u32 va -> pte m' pgdir va = pte m pgdir va.
Proof.
  intros Hva. unfold pte. rewrite new_has_table, new_table_eq by apply PDX_range. case_decide as E.
  - rewrite bool_decide_true by done. rewrite E, Hno. cbn. unfold m'.
    rewrite load_store_ne; [|done|apply Hok|apply PTX_range|done|left; apply not_eq_sym, new_dir_ne].
    destruct (page_word a (PTX va) Ha (PTX_range va)) as [(Hw0 & _ & Hw1) _]. pose proof (PTX_range va).
    unfold load32. rewrite !u32_id by (unfold in_u32; lia). rewrite !new_m1, !decide_True by (unfold in_page, PGSIZE; lia). done.
  - rewrite bool_decide_false by done. cbn. destruct (has_table m pgdir (PDX va)) eqn:E'; [|done].
    destruct (pt_tab _ _ _ Hok (PDX va) (PDX_range va) E') as (Hp & Hn & Hd). apply not_elem_of_cons in Hn as [Hn _].
    apply new_word; [done|apply PTX_range|done|by left].
Qed.

Lemma new_outside x : outside m' pgdir x -> m' x = m x /\ outside m pgdir x.
Proof.
  intros [Hd Ho]. assert (Hxa : ~ in_page a x).
  { specialize (Ho i Hi). rewrite new_has_table, new_table_eq, bool_decide_true, decide_True in Ho by done. by apply Ho. }
  split.
  - unfold m'. rewrite (store_word m1); [by rewrite new_m1, decide_False|apply Hok|done|]. intros Hx. apply Hd.
    by apply (word_in_page _ i).
  - split; [done|]. intros j Hj Ej. specialize (Ho j Hj). rewrite new_has_table, new_table_eq in Ho by done.
    destruct (decide (j = i)) as [->|]; [congruence|]. apply Ho. by rewrite Ej, orb_true_r.
Qed.

Lemma new_kmem ul fl : kmem_inv kend l (mkkmem ul fl m) -> kmem_inv kend l (mkkmem ul fl m').
Proof.
  intros (Hrep & Hnd & Hp). split; [|done]. cbn in *.
  pose proof (pt_dir_used _ _ _ Hok) as Hdu. apply not_elem_of_cons in Hdu as [_ Hdu].
  eapply (freelist_rep_frame kend m1 m'); [apply Hok|exact Hdu|done| |].
  - intros x Hx. unfold m'. apply (store_word m1); [apply Hok|done|]. intros Hr. apply Hx. by apply (word_in_page _ i).
  - eapply (freelist_rep_frame kend m m1); [apply Ha|exact Hal|done| |done].
    intros x Hx. rewrite new_m1, decide_False; [done|]. exact Hx.
Qed.

End new_table.

(** What an operation that only adds tables does. *)
Record extends m pgdir l m' l' : Prop := {
  ex_ok : pt_ok m' pgdir l';
  ex_pte : forall va, in_u32 va -> pte m' pgdir va = pte m pgdir va;
  ex_outside : forall x, outside m' pgdir x -> m' x = m x /\ outside m pgdir x;
  ex_suffix : l' `suffix_of` l
}.

Lemma walk_alloc pgdir va l k c (Q : Z -> kmem -> ctx -> Prop) :
  kmem_inv kend l k -> pt_ok (kmemory k) pgdir l -> L_kmem ∉ held c -> in_u32 va ->
  (forall k', l = [] -> kmem_inv kend [] k' -> kmemory k' = kmemory k -> use_lock k' = use_lock k -> Q 0 k' c) ->
  (forall k' l', kmem_inv kend l' k' -> extends (kmemory k) pgdir l (kmemory k') l' ->
    has_table (kmemory k') pgdir (PDX va) = true -> slot (kmemory k') pgdir va <> 0 ->
    use_lock k' = use_lock k -> Q (slot (kmemory k') pgdir va) k' c) ->
  wp (walkpgdir pgdir va true) Q k c.
Proof.
  intros Hinv Hok Hlk Hva Hfail HQ. destruct (has_table (kmemory k) pgdir (PDX va)) eqn:Ht.
  { eapply walk_present; [done..|]. intros Hs. eapply HQ; [done| |done..]. by split. }
  unfold walkpgdir. cbn zeta. kstep. apply wp_ld. cbn beta.
  destruct (page_word pgdir (PDX va) (pt_dir _ _ _ Hok) (PDX_range va)) as [_ ->].
  fold (pde (kmemory k) pgdir (PDX va)). pose proof Ht as Ht'. unfold has_table in Ht'. rewrite Ht'. cbn [negb]. kstep.
  eapply wp_mono; [by apply (kalloc_run kend l)|]. intros r k1 c1 (-> & -> & Hinv1 & Hul & Hmem). cbn beta.
  destruct l as [|a l]; cbn [head tail default] in *.
  { rewrite Z.eqb_refl. kstep. by apply Hfail. }
  destruct Hinv as (_ & Hnd & Hpo). apply NoDup_cons in Hnd as [Hal _]. apply Forall_cons in Hpo as [Ha _].
  change (id a) with a. rewrite (proj2 (Z.eqb_neq _ _)) by by apply page_pos. kstep. unfold set_bytes. kstep. kstep. apply wp_st. kstep.
  destruct (page_word a (PTX va) Ha (PTX_range va)) as [_ ->]. cbn [kmemory set_kmemory].
  set (i := PDX va) in *. set (m := kmemory k) in *. rewrite Hmem.
  pose proof (PDX_range va) as Hi. fold i in Hi.
  set (k2 := set_kmemory _ _). assert (Es : slot (kmemory k2) pgdir va = a + 4 * PTX va).
  { unfold slot. fold i. cbn [k2 kmemory set_kmemory].
    by rewrite (new_table_eq m pgdir i a l), decide_True by done. }
  rewrite <- Es. apply (HQ k2 l).
  - apply (new_kmem m pgdir i a l); [done..|]. rewrite <- Hmem. by destruct k1.
  - split.
    + by apply new_pt_ok.
    + intros va' Hva'. by apply (new_pte m pgdir i a l).
    + intros x. by apply (new_outside m pgdir i a l).
    + by apply suffix_cons_r.
  - cbn [k2 kmemory set_kmemory]. fold i. rewrite (new_has_table m pgdir i a l) by done. by rewrite bool_decide_true.
  - rewrite Es. pose proof (page_pos a Ha). destruct Ha as (_ & _ & Hk & _). pose proof (PTX_range va).
    unfold KERNBASE in Hk. lia.
  - done.
Qed.

(** *** mappages *)

Definition entry (pa perm : Z) : Z := Z.lor (Z.lor pa perm) PTE_P.

(** [n] pages from [a] are mapped to those from [pa]; nothing else changed. *)
Record maps m pgdir l m' l' (a pa perm : Z) (n : nat) : Prop := {
  mp_ok : pt_ok m' pgdir l';
  mp_pte : forall va, in_u32 va -> pte m' pgdir va =
    if decide (a <= va < a + Z.of_nat n * PGSIZE) then entry (pa + (va / PGSIZE * PGSIZE - a)) perm
    else pte m pgdir va;
  mp_outside : forall x, outside m' pgdir x -> m' x = m x /\ outside m pgdir x;
  mp_suffix : l' `suffix_of` l
}.

Lemma maps_nil m pgdir l m' l' a pa perm : extends m pgdir l m' l' -> maps m pgdir l m' l' a pa perm 0.
Proof. intros [H1 H2 H3 H4]. split; [done| |done|done]. intros va Hva. rewrite decide_False by lia. by apply H2. Qed.

(** Mapping one page after making sure of its table. *)
Lemma maps_one m pgdir l m1 l1 a pa perm :
  in_u32 a -> a mod PGSIZE = 0 -> in_u32 (entry pa perm) -> extends m pgdir l m1 l1 ->
  has_table m1 pgdir (PDX a) = true ->
  maps m pgdir l (store32 (slot m1 pgdir a) (entry pa perm) m1) l1 a pa perm 1.
Proof.
  intros Ha Hal He [H1 H2 H3 H4] Ht. split; [by apply store_pt_ok| | |done].
  - intros va Hva. rewrite (store_pte m1 pgdir a (entry pa perm) l1) by done.
    assert (Hs : same_page a va <-> a <= va < a + Z.of_nat 1 * PGSIZE).
    { unfold same_page, PGSIZE in *. Z.div_mod_to_equations. lia. }
    case_decide as E1; case_decide as E2; try tauto; [|by apply H2].
    assert (va / PGSIZE * PGSIZE - a = 0) as ->; [|by rewrite Z.add_0_r].
    unfold PGSIZE in *. Z.div_mod_to_equations. lia.
  - intros x Hx. rewrite (store_outside_iff m1 pgdir a (entry pa perm) l1) in Hx by done.
    rewrite (store_outside m1 pgdir a (entry pa perm) l1) by done. by apply H3.
Qed.

Lemma maps_cons m pgdir l m1 l1 m2 l2 a pa perm n :
  a mod PGSIZE = 0 -> maps m pgdir l m1 l1 a pa perm 1 ->
  maps m1 pgdir l1 m2 l2 (a + PGSIZE) (pa + PGSIZE) perm n ->
  maps m pgdir l m2 l2 a pa perm (S n).
Proof.
  intros Ha [A1 A2 A3 A4] [B1 B2 B3 B4]. split; [done| | |by etrans].
  - intros va Hva. rewrite B2, A2 by done. unfold PGSIZE in *.
    repeat case_decide; try lia; [f_equal; lia|done..].
  - intros x Hx. destruct (B3 x Hx) as [E1 Ho]. destruct (A3 x Ho) as [E2 Ho']. split; [congruence|done].
Qed.

Lemma mappages_loop_run n pgdir a last pa perm l k c (Q : Z -> kmem -> ctx -> Prop) :
  kmem_inv kend l k -> pt_ok (kmemory k) pgdir l -> L_kmem ∉ held c ->
  0 <= a -> a mod PGSIZE = 0 -> a + Z.of_nat (S n) * PGSIZE <= 4294967296 -> last = a + Z.of_nat n * PGSIZE ->
  0 <= pa -> pa + Z.of_nat (S n) * PGSIZE <= 4294967296 -> in_u32 perm ->
  (forall va, a <= va <= last -> flag (pte (kmemory k) pgdir va) PTE_P = false) ->
  (forall k' l', kmem_inv kend l' k' -> maps (kmemory k) pgdir l (kmemory k') l' a pa perm (S n) ->
    use_lock k' = use_lock k -> Q 0 k' c) ->
  (forall k' j, kmem_inv kend [] k' -> (j < S n)%nat -> maps (kmemory k) pgdir l (kmemory k') [] a pa perm j ->
    use_lock k' = use_lock k -> Q (-1) k' c) ->
  wp (mappages_loop (S n) pgdir a last pa perm) Q k c.
Proof.
  revert a pa l k Q. induction n as [|n IH];
    intros a pa l k Q Hinv Hok Hlk Ha Hal Hmax Hlast Hpa Hpmax Hperm Hfree HQ HF.
  all: assert (Hau : in_u32 a) by (unfold in_u32, PGSIZE in *; lia).
  all: assert (He : in_u32 (entry pa perm))
    by (unfold entry, PTE_P; repeat apply in_u32_lor; unfold in_u32, PGSIZE in *; lia).
  all: cbn [mappages_loop]; kstep; eapply walk_alloc; [done..| |].
  1,3: intros k' -> Hinv' Hm' Hul'; cbn beta; rewrite Z.eqb_refl; kstep; apply (HF k' 0%nat); [done|lia| |done];
    rewrite Hm'; by apply maps_nil; split.
  all: intros k1 l1 Hinv1 Hex Ht Hs Hul1; cbn beta; rewrite (proj2 (Z.eqb_neq _ _)) by done; kstep; apply wp_ld; cbn beta;
    rewrite <- pte_slot, (ex_pte _ _ _ _ _ Hex) by done; rewrite Hfree by (unfold PGSIZE in *; lia);
    kstep; apply wp_st; fold (entry pa perm);
    pose proof (maps_one _ _ _ _ _ a pa perm Hau Hal He Hex Ht) as Hone;
    pose proof (store_kmem (kmemory k1) pgdir a (entry pa perm) l1 (ex_ok _ _ _ _ _ Hex) Ht (use_lock k1) (freelist k1)
      ltac:(by destruct k1)) as Hinv2; fold (set_kmemory (store32 (slot (kmemory k1) pgdir a) (entry pa perm) (kmemory k1)) k1) in Hinv2.
  - rewrite (proj2 (Z.eqb_eq _ _)) by (unfold PGSIZE in *; lia). kstep. by eapply HQ.
  - rewrite (proj2 (Z.eqb_neq _ _)) by (unfold PGSIZE in *; lia).
    rewrite (u32_id (a + PGSIZE)), (u32_id (pa + PGSIZE)) by (unfold in_u32, PGSIZE in *; lia).
    eapply IH; [exact Hinv2|apply Hone|done|page| |page|page|page|page|done| | |].
    + unfold PGSIZE in *. rewrite <- Zplus_mod_idemp_r. by rewrite Z.add_0_r.
    + intros va Hva. cbn [kmemory set_kmemory]. rewrite (mp_pte _ _ _ _ _ _ _ _ _ Hone) by (unfold in_u32, PGSIZE in *; lia).
      rewrite decide_False by (unfold PGSIZE in *; lia). apply Hfree. unfold PGSIZE in *. lia.
    + intros k' l' Hinv' Hm' Hul'. eapply HQ; [done| |by rewrite Hul']. by eapply maps_cons.
    + intros k' j Hinv' Hj Hm' Hul'. apply (HF k' (S j)); [done|lia| |by rewrite Hul']. by eapply maps_cons.
Qed.

(** The number of pages a range touches. *)
Definition npages (va size : Z) : nat := Z.to_nat ((va + size - 1) / PGSIZE - va / PGSIZE + 1).

Lemma mappages_run pgdir va size pa perm l k c (Q : Z -> kmem -> ctx -> Prop) :
  let a := va / PGSIZE * PGSIZE in
  kmem_inv kend l k -> pt_ok (kmemory k) pgdir l -> L_kmem ∉ held c ->
  0 <= va -> 0 < size -> va + size <= 4294967296 ->
  0 <= pa -> pa + Z.of_nat (npages va size) * PGSIZE <= 4294967296 -> in_u32 perm ->
  (forall x, a <= x < a + Z.of_nat (npages va size) * PGSIZE -> flag (pte (kmemory k) pgdir x) PTE_P = false) ->
  (forall k' l', kmem_inv kend l' k' -> maps (kmemory k) pgdir l (kmemory k') l' a pa perm (npages va size) ->
    use_lock k' = use_lock k -> Q 0 k' c) ->
  (forall k' j, kmem_inv kend [] k' -> (j < npages va size)%nat ->
    maps (kmemory k) pgdir l (kmemory k') [] a pa perm j -> use_lock k' = use_lock k -> Q (-1) k' c) ->
  wp (mappages pgdir va size pa perm) Q k c.
Proof.
  intros a Hinv Hok Hlk Hva Hsz Hmax Hpa Hpmax Hperm Hfree HQ HF. unfold mappages. cbn zeta.
  assert (Hq : va / PGSIZE <= (va + size - 1) / PGSIZE) by (apply Z.div_le_mono; page).
  set (n := Z.to_nat ((va + size - 1) / PGSIZE - va / PGSIZE)).
  assert (En : npages va size = S n) by (unfold npages, n; lia). rewrite En in *.
  set (last := (va + size - 1) / PGSIZE * PGSIZE).
  assert (E1 : PGROUNDDOWN va = a) by (apply PGROUNDDOWN_eq; unfold in_u32; lia).
  assert (E2 : PGROUNDDOWN (u32 (va + size - 1)) = last).
  { rewrite (u32_id (va + size - 1)) by (unfold in_u32; lia). apply PGROUNDDOWN_eq. unfold in_u32. lia. }
  assert (El : last = a + Z.of_nat n * PGSIZE) by (unfold last, a, n; page).
  assert (Ha : 0 <= a) by (unfold a; pose proof (Z.div_pos va PGSIZE); page).
  assert (Hlast : last + PGSIZE <= 4294967296).
  { unfold last, PGSIZE. Z.div_mod_to_equations. lia. }
  rewrite E1, E2. replace (Z.to_nat (u32 (last - a) / PGSIZE) + 1)%nat with (S n).
  2:{ rewrite u32_id by (unfold in_u32; page). rewrite El.
      replace (a + Z.of_nat n * PGSIZE - a) with (Z.of_nat n * PGSIZE) by lia. rewrite Z.div_mul by done. lia. }
  apply (mappages_loop_run n pgdir a last pa perm l); try done.
  - unfold a. by rewrite Z.mod_mul.
  - page.
  - intros x Hx. apply Hfree. page.
Qed.

(** C13. mappages maps exactly the pages that [va, va + size) touches: page
    by page the entry becomes the physical address or'ed with the
    permissions and PTE_P, every other entry and all memory outside the
    page table and the pages it took from the free list is unchanged.  It
    fails, with -1 and only a prefix of the range mapped, only when the
    free list is exhausted. *)
Theorem mappages_correct pgdir va size pa perm l k c :
  let a := va / PGSIZE * PGSIZE in
  kmem_inv kend l k -> pt_ok (kmemory k) pgdir l -> L_kmem ∉ held c ->
  0 <= va -> 0 < size -> va + size <= 4294967296 ->
  0 <= pa -> pa + Z.of_nat (npages va size) * PGSIZE <= 4294967296 -> in_u32 perm ->
  (forall x, a <= x < a + Z.of_nat (npages va size) * PGSIZE -> flag (pte (kmemory k) pgdir x) PTE_P = false) ->
  wp (mappages pgdir va size pa perm) (fun r k' c' => c' = c /\ exists l' n, kmem_inv kend l' k' /\
    maps (kmemory k) pgdir l (kmemory k') l' a pa perm n /\
    (r = 0 /\ n = npages va size \/ r = -1 /\ l' = [] /\ (n < npages va size)%nat)) k c.
Proof.
  intros a Hinv Hok Hlk Hva Hsz Hmax Hpa Hpmax Hperm Hfree. eapply mappages_run; try done.
  - intros k' l' Hinv' Hm' _. split; [done|]. exists l', (npages va size). split; [done|]. split; [done|]. by left.
  - intros k' j Hinv' Hj Hm' _. split; [done|]. exists [], j. split; [done|]. split; [done|]. by right.
Qed.

End pt.
