(* ===== verification/VmUser.v ===== *)
(** * User address spaces

    An address space maps the user pages of a page table to pages of
    memory that nothing else uses; [umem] is the memory a user program
    sees.  copyout is shown to write exactly the given bytes there. *)

From stdpp Require Import base numbers strings gmap list.
From S2P Require Import Prelude Kmonad Kstring Mmu Kalloc Vm VmProof.

Local Open Scope Z_scope.

(** The page of memory that holds the user page of [va]. *)
Definition frame (m : memory) (pgdir va : Z) : Z := P2V (PTE_ADDR (pte m pgdir va)).

Definition user_page (m : memory) (pgdir va : Z) : bool :=
  flag (pte m pgdir va) PTE_P && flag (pte m pgdir va) PTE_U.

(** The byte a program sees at [va]. *)
Definition umem (m : memory) (pgdir va : Z) : Z := m (frame m pgdir va + va mod PGSIZE).

Section user.
Variable kend : Z.
Implicit Types (m : memory) (pgdir va : Z) (l : list Z) (k : kmem) (c : ctx).

Record as_ok m pgdir l : Prop := {
  as_pt : pt_ok kend m pgdir l;
  as_frame : forall va, in_u32 va -> user_page m pgdir va = true ->
    page_ok kend (frame m pgdir va) /\ frame m pgdir va ∉ l /\ frame m pgdir va <> pgdir /\
    (forall i, 0 <= i < 1024 -> has_table m pgdir i = true -> frame m pgdir va <> table m pgdir i);
  as_inj : forall va va', in_u32 va -> in_u32 va' -> user_page m pgdir va = true -> user_page m pgdir va' = true ->
    frame m pgdir va = frame m pgdir va' -> same_page va va'
}.

(** Writing into a page that holds no table. *)
Section data_write.
Context m m' pgdir l (p : Z).
Hypothesis Hok : pt_ok kend m pgdir l.
Hypothesis Hp : page_ok kend p.
Hypothesis Hd : p <> pgdir.
Hypothesis Ht : forall i, 0 <= i < 1024 -> has_table m pgdir i = true -> p <> table m pgdir i.
Hypothesis Hm : forall x, ~ in_page p x -> m' x = m x.
Hypothesis Hb : byte_memory m'.

Lemma data_word q j : page_ok kend q -> 0 <= j < 1024 -> q <> p -> load32 (q + 4 * j) m' = load32 (q + 4 * j) m.
Proof.
  intros Hq Hj Hne. apply (load32_page kend); [done..|]. intros x Hx. apply Hm. by apply (pages_apart kend q p x).
Qed.

Lemma data_pde i : 0 <= i < 1024 -> pde m' pgdir i = pde m pgdir i.
Proof. intros Hi. apply data_word; [apply Hok|done|congruence]. Qed.

Lemma data_has_table i : 0 <= i < 1024 -> has_table m' pgdir i = has_table m pgdir i.
Proof. intros Hi. unfold has_table. by rewrite data_pde. Qed.

Lemma data_table i : 0 <= i < 1024 -> table m' pgdir i = table m pgdir i.
Proof. intros Hi. unfold table. by rewrite data_pde. Qed.

Lemma data_pte va : pte m' pgdir va = pte m pgdir va.
Proof.
  pose proof (PDX_range va) as Hi. unfold pte. rewrite data_has_table, data_table by done.
  destruct (has_table m pgdir (PDX va)) eqn:E; [|done]. destruct (pt_tab _ _ _ _ Hok _ Hi E) as (Hq & _ & _).
  apply data_word; [done|apply PTX_range|]. apply not_eq_sym. by apply Ht.
Qed.

Lemma data_pt_ok : pt_ok kend m' pgdir l.
Proof.
  pose proof Hok as [_ H2 H3 H4 H5]. split; [done|done|done| |].
  - intros i Hi. rewrite data_has_table, data_table by done. by apply H4.
  - intros i j Hi Hj. rewrite !data_has_table, !data_table by done. by apply H5.
Qed.

Lemma data_frame va : frame m' pgdir va = frame m pgdir va.
Proof. unfold frame. by rewrite data_pte. Qed.

Lemma data_user_page va : user_page m' pgdir va = user_page m pgdir va.
Proof. unfold user_page. by rewrite data_pte. Qed.

Lemma data_as_ok : as_ok m pgdir l -> as_ok m' pgdir l.
Proof.
  intros [_ Hf Hi]. split; [apply data_pt_ok| |].
  - intros va Hva. rewrite data_user_page, data_frame. intros Hu. destruct (Hf va Hva Hu) as (A & B & C & E).
    split_and!; try done. intros i Hr. rewrite data_has_table, data_table by done. by apply E.
  - intros va va' Hva Hva'. rewrite !data_user_page, !data_frame. by apply Hi.
Qed.

Lemma data_kmem ul fl : p ∉ l -> kmem_inv kend l (mkkmem ul fl m) -> kmem_inv kend l (mkkmem ul fl m').
Proof.
  intros Hl (Hrep & Hnd & Hpo). split; [|done]. cbn in *.
  eapply (freelist_rep_frame kend m m'); [apply Hp|exact Hl|done| |done]. intros x Hx. by apply Hm.
Qed.

End data_write.

(** *** Runs of bytes *)

Lemma put_bytes_spec a bs m x : no_wrap a (Z.of_nat (length bs)) -> Forall is_byte bs ->
  put_bytes a bs m x = if in_range a (Z.of_nat (length bs)) x then nth_byte bs (Z.to_nat (x - a)) else m x.
Proof.
  revert a m. induction bs as [|b bs IH]; intros a m (H0 & _ & H1) Hb; cbn [put_bytes].
  - rewrite (proj2 (in_range_false a _ x)); [done|cbn; lia].
  - apply Forall_cons in Hb as [Hb Hbs]. cbn [length] in *. rewrite u32_id by (unfold in_u32; lia).
    rewrite IH by (done || unfold no_wrap; lia). unfold in_range, store8, nth_byte. unfold is_byte in Hb.
    destruct (Z.eqb_spec x a) as [->|Hne].
    + rewrite (proj2 (Z.leb_gt (a + 1) a)), Z.leb_refl by lia.
      rewrite (proj2 (Z.ltb_lt a (a + Z.of_nat (S (length bs))))) by lia. cbn [andb].
      rewrite Z.sub_diag. change (u8 b = b). apply u8_id. exact Hb.
    + destruct (Z.leb_spec (a + 1) x), (Z.leb_spec a x), (Z.ltb_spec x (a + 1 + Z.of_nat (length bs))),
        (Z.ltb_spec x (a + Z.of_nat (S (length bs)))); cbn [andb]; try lia; try done.
      replace (Z.to_nat (x - a)) with (S (Z.to_nat (x - (a + 1)))) by lia. done.
Qed.

(** Writing [bs] at user address [va], within one page. *)
Section chunk.
Context m pgdir l va (bs : bytes).
Hypothesis Has : as_ok m pgdir l.
Hypothesis Hva : in_u32 va.
Hypothesis Hup : user_page m pgdir va = true.
Hypothesis Hbs : Forall is_byte bs.
Hypothesis Hfit : va mod PGSIZE + Z.of_nat (length bs) <= PGSIZE.
Let m' := put_bytes (frame m pgdir va + va mod PGSIZE) bs m.

Lemma chunk_frame : page_ok kend (frame m pgdir va).
Proof. by destruct (as_frame _ _ _ Has va Hva Hup). Qed.

Lemma chunk_spec x : m' x =
  if in_range (frame m pgdir va + va mod PGSIZE) (Z.of_nat (length bs)) x
  then nth_byte bs (Z.to_nat (x - (frame m pgdir va + va mod PGSIZE))) else m x.
Proof.
  apply put_bytes_spec; [|done]. destruct (page_ok_no_wrap kend _ chunk_frame) as (H0 & _ & H1).
  pose proof (Z.mod_pos_bound va PGSIZE ltac:(done)). unfold no_wrap. lia.
Qed.

Lemma chunk_out x : ~ in_page (frame m pgdir va) x -> m' x = m x.
Proof.
  intros Hx. rewrite chunk_spec. pose proof (Z.mod_pos_bound va PGSIZE ltac:(done)).
  rewrite (proj2 (in_range_false _ _ _)); [done|]. unfold in_page in Hx. lia.
Qed.

Lemma chunk_bytes : byte_memory m'.
Proof.
  intros x. rewrite chunk_spec. case_match; [|apply (pt_bytes _ _ _ _ (as_pt _ _ _ Has))].
  unfold nth_byte. destruct (bs !! _) as [b|] eqn:E; cbn; [|unfold is_byte; lia].
  by eapply Forall_lookup_1 in E.
Qed.

Lemma chunk_keeps : as_ok m' pgdir l /\ (forall x, pte m' pgdir x = pte m pgdir x) /\
  (forall i, 0 <= i < 1024 -> has_table m' pgdir i = has_table m pgdir i) /\
  (forall ul fl, kmem_inv kend l (mkkmem ul fl m) -> kmem_inv kend l (mkkmem ul fl m')).
Proof.
  destruct (as_frame _ _ _ Has va Hva Hup) as (Hp & Hl & Hd & Ht). pose proof (as_pt _ _ _ Has) as Hpt.
  split_and!.
  - eapply (data_as_ok m m' pgdir l (frame m pgdir va)); try done; [apply chunk_out|apply chunk_bytes].
  - intros x. eapply (data_pte m m' pgdir l (frame m pgdir va)); try done; apply chunk_out.
  - intros i Hi. eapply (data_has_table m m' pgdir l (frame m pgdir va)); try done; apply chunk_out.
  - intros ul fl. eapply (data_kmem m m' l (frame m pgdir va)); try done; apply chunk_out.
Qed.

Lemma chunk_umem x : in_u32 x -> user_page m pgdir x = true -> umem m' pgdir x =
  if decide (va <= x < va + Z.of_nat (length bs)) then nth_byte bs (Z.to_nat (x - va)) else umem m pgdir x.
Proof.
  intros Hx Hux. unfold umem. unfold frame at 1. rewrite (proj1 (proj2 chunk_keeps)). fold (frame m pgdir x).
  rewrite chunk_spec. pose proof (Z.mod_pos_bound va PGSIZE ltac:(done)). pose proof (Z.mod_pos_bound x PGSIZE ltac:(done)).
  pose proof (Z.div_mod va PGSIZE ltac:(done)). pose proof (Z.div_mod x PGSIZE ltac:(done)).
  destruct (decide (same_page va x)) as [Hs|Hs].
  - assert (frame m pgdir x = frame m pgdir va) as ->.
    { unfold frame, pte. apply page_index in Hs as [-> ->]; done. }
    unfold same_page in Hs. case_decide as E.
    + rewrite (proj2 (in_range_spec _ _ _)) by lia. do 2 f_equal. lia.
    + by rewrite (proj2 (in_range_false _ _ _)) by lia.
  - rewrite decide_False.
    2:{ intros Hr. apply Hs. unfold same_page. unfold PGSIZE in *. Z.div_mod_to_equations. lia. }
    rewrite (proj2 (in_range_false _ _ _)); [done|]. intros Hr.
    destruct (as_frame _ _ _ Has x Hx Hux) as (Hpx & _).
    assert (Hne : frame m pgdir x <> frame m pgdir va) by (intros E; by apply Hs, (as_inj _ _ _ Has)).
    apply (pages_apart kend _ _ (frame m pgdir x + x mod PGSIZE) Hpx chunk_frame Hne); unfold in_page; lia.
Qed.

End chunk.

(** *** copyout *)

(** [m'] shows the bytes [bs] at user addresses from [va], and is as [m]
    elsewhere. *)
Definition copied m m' pgdir va (bs : bytes) : Prop :=
  (forall x, pte m' pgdir x = pte m pgdir x) /\
  (forall x, in_u32 x -> user_page m pgdir x = true -> umem m' pgdir x =
    if decide (va <= x < va + Z.of_nat (length bs)) then nth_byte bs (Z.to_nat (x - va)) else umem m pgdir x).

Lemma user_page_pte m m' pgdir x : pte m' pgdir x = pte m pgdir x -> user_page m' pgdir x = user_page m pgdir x.
Proof. unfold user_page. by intros ->. Qed.

Lemma copied_nil m pgdir va : copied m m pgdir va [].
Proof. split; [done|]. intros x _ _. rewrite decide_False; [done|cbn; lia]. Qed.

Lemma copied_nil_any m m' pgdir va va' : copied m m' pgdir va [] -> copied m m' pgdir va' [].
Proof.
  intros [H1 H2]. split; [done|]. intros x Hx Hu. rewrite (H2 x Hx Hu). cbn. by rewrite !decide_False by lia.
Qed.

Lemma copied_app m m1 m2 pgdir va b1 b2 :
  copied m m1 pgdir va b1 -> copied m1 m2 pgdir (va + Z.of_nat (length b1)) b2 -> copied m m2 pgdir va (b1 ++ b2).
Proof.
  intros [Ha1 Ha2] [Hb1 Hb2]. split; [intros x; by rewrite Hb1, Ha1|]. intros x Hx Hu.
  rewrite Hb2, Ha2, length_app by (done || by rewrite (user_page_pte m)). unfold nth_byte.
  repeat case_decide; try lia; try done.
  - rewrite lookup_app_r by lia. do 2 f_equal. lia.
  - by rewrite lookup_app_l by lia.
Qed.

Lemma round_mod va : in_u32 va -> PGROUNDDOWN va = va - va mod PGSIZE.
Proof. intros H. rewrite PGROUNDDOWN_eq by done. unfold PGSIZE. Z.div_mod_to_equations. lia. Qed.

Lemma round_pte m pgdir va : in_u32 va -> PDX (PGROUNDDOWN va) = PDX va /\ pte m pgdir (PGROUNDDOWN va) = pte m pgdir va.
Proof.
  intros H. assert (in_u32 (PGROUNDDOWN va) /\ same_page (PGROUNDDOWN va) va) as [H0 Hs].
  { rewrite round_mod by done. unfold in_u32, same_page, PGSIZE in *. Z.div_mod_to_equations. lia. }
  destruct (proj2 (page_index _ _ H0 H) Hs) as [E1 E2]. split; [done|]. unfold pte. by rewrite E1, E2.
Qed.

Lemma uva2ka_run m pgdir va l k c (Q : Z -> kmem -> ctx -> Prop) :
  kmemory k = m -> pt_ok kend m pgdir l -> has_table m pgdir (PDX va) = true ->
  Q (if user_page m pgdir va then frame m pgdir va else 0) k c -> wp (uva2ka pgdir va) Q k c.
Proof.
  intros Hk Hok Ht HQ. unfold uva2ka. kstep. eapply walk_present; [done..|]. intros _.
  kstep. apply wp_ld. cbn beta. rewrite Hk.
  rewrite <- pte_slot by done.
  unfold user_page, flag, frame in HQ. destruct (Z.land _ PTE_P =? 0); [by kstep|].
  destruct (Z.land _ PTE_U =? 0); by kstep.
Qed.

Definition copyout_post m pgdir va (buf : bytes) l (c0 : ctx) (r : Z) k c : Prop :=
  c = c0 /\ kmem_inv kend l k /\ as_ok (kmemory k) pgdir l /\
  exists n, copied m (kmemory k) pgdir va (take n buf) /\
    (r = 0 /\ n = length buf \/ r = -1 /\ (n < length buf)%nat /\ user_page m pgdir (va + Z.of_nat n) = false).

Lemma copyout_post_cons m m1 pgdir va va1 (n : nat) buf l c0 r k c :
  copied m m1 pgdir va (take n buf) -> (n <= length buf)%nat -> va1 = va + Z.of_nat n \/ n = length buf ->
  copyout_post m1 pgdir va1 (drop n buf) l c0 r k c -> copyout_post m pgdir va buf l c0 r k c.
Proof.
  intros Hc Hn Hva (H1 & H2 & H3 & n1 & Hc1 & Hr). split_and!; try done. exists (n + n1)%nat.
  rewrite length_drop in Hr. split.
  - rewrite <- take_take_drop. eapply copied_app; [exact Hc|]. rewrite length_take, Nat.min_l by done.
    destruct Hva as [<-| ->]; [done|]. rewrite drop_all, take_nil in *. by eapply copied_nil_any.
  - destruct Hr as [[-> ->]|(-> & Hl & Hu)]; [left; split; [done|lia]|right]. split_and!; [done|lia|].
    destruct Hva as [->| ->]; [|lia]. rewrite <- (user_page_pte _ _ _ _ (proj1 Hc _)). rewrite <- Hu. f_equal. lia.
Qed.

Lemma copyout_loop_run fuel m pgdir va buf l k c :
  kmemory k = m -> kmem_inv kend l k -> as_ok m pgdir l -> Forall is_byte buf -> (length buf < fuel)%nat ->
  in_u32 va -> va + Z.of_nat (length buf) <= 4294967296 ->
  (forall x, va <= x < va + Z.of_nat (length buf) -> has_table m pgdir (PDX x) = true) ->
  wp (copyout_loop fuel pgdir va buf) (copyout_post m pgdir va buf l c) k c.
Proof.
  revert m va buf k. induction fuel as [|fuel IH]; intros m va buf k Hk Hinv Has Hb Hf Hva Hlen Ht; [lia|].
  cbn [copyout_loop]. destruct (Z.ltb_spec 0 (Z.of_nat (length buf))) as [Hpos|Hz].
  2:{ kstep. split_and!; try done; [by subst|]. exists (length buf). split; [|by left].
      destruct buf; [|cbn in Hz; lia]. subst. apply copied_nil. }
  destruct (round_pte m pgdir va Hva) as [Ex Ep]. cbn zeta. kstep.
  eapply uva2ka_run; [done|apply Has|rewrite Ex; apply Ht; lia|]. unfold frame, user_page. rewrite Ep.
  fold (user_page m pgdir va) (frame m pgdir va). destruct (user_page m pgdir va) eqn:Eu.
  2:{ rewrite Z.eqb_refl. kstep. split_and!; try done; [by subst|]. exists O. rewrite take_0. subst m.
      split; [apply copied_nil|]. right. split_and!; [done|lia|]. by rewrite Z.add_0_r. }
  destruct (as_frame _ _ _ Has va Hva Eu) as (Hp & _). pose proof (page_ok_no_wrap kend _ Hp) as (Hp0 & _ & Hp1).
  rewrite (proj2 (Z.eqb_neq _ _)) by (unfold page_ok, KERNBASE in Hp; lia). kstep.
  pose proof (Z.mod_pos_bound va PGSIZE ltac:(done)) as Hm. rewrite round_mod by done.
  replace (va - (va - va mod PGSIZE)) with (va mod PGSIZE) by lia. rewrite (u32_id (_ + _)) by (unfold in_u32; lia).
  set (n := Z.to_nat (Z.min (PGSIZE - va mod PGSIZE) (Z.of_nat (length buf)))).
  assert (Hfit : va mod PGSIZE + Z.of_nat (length (take n buf)) <= PGSIZE) by (rewrite length_take; lia).
  assert (Hbn : Forall is_byte (take n buf)) by (by apply Forall_take).
  destruct (chunk_keeps m pgdir l va (take n buf) Has Hva Eu Hbn Hfit) as (Has' & Hp' & Ht' & Hinv').
  pose proof (chunk_umem m pgdir l va (take n buf) Has Hva Eu Hbn Hfit) as Hu'.
  assert (Hend : u32 (va - va mod PGSIZE + PGSIZE) = va + Z.of_nat n \/ n = length buf).
  { destruct (Z.le_gt_cases (Z.of_nat (length buf)) (PGSIZE - va mod PGSIZE)); [right; lia|left].
    rewrite u32_id by (unfold in_u32 in *; lia). lia. }
  kstep. cbn beta. eapply wp_mono; [apply (IH (put_bytes (frame m pgdir va + va mod PGSIZE) (take n buf) m)
    (u32 (va - va mod PGSIZE + PGSIZE)) (drop n buf))|].
  9:{ intros r k' c' Hpost. eapply copyout_post_cons; [split; [exact Hp'|exact Hu']|lia|exact Hend|exact Hpost]. }
  - cbn. by rewrite Hk.
  - cbn. destruct k as [ul fl mm]. cbn in Hk. subst. by apply Hinv'.
  - done.
  - by apply Forall_drop.
  - rewrite length_drop. lia.
  - apply u32_bound.
  - rewrite length_drop. pose proof (u32_bound (va - va mod PGSIZE + PGSIZE)). unfold in_u32 in *. destruct Hend; lia.
  - intros x. rewrite length_drop. intros Hx. rewrite (Ht' _ (PDX_range x)). apply Ht. destruct Hend; lia.
Qed.


(** For an address whose page table is absent, uva2ka returns what the word
    at address 0 says instead of 0. *)
Theorem uva2ka_null_pte pgdir va l k c :
  pt_ok kend (kmemory k) pgdir l -> has_table (kmemory k) pgdir (PDX va) = false ->
  flag (load32 0 (kmemory k)) PTE_P = true -> flag (load32 0 (kmemory k)) PTE_U = true ->
  wp (uva2ka pgdir va) (fun r k' c' => r = P2V (PTE_ADDR (load32 0 (kmemory k))) /\ k' = k /\ c' = c) k c.
Proof.
  intros Hok Ht Hp Hu. unfold uva2ka. kstep. eapply walk_none; [done..|]. kstep. apply wp_ld. cbn beta.
  unfold flag in *. apply negb_true_iff in Hp, Hu. rewrite Hp, Hu. by kstep.
Qed.

End user.
