(* ===== verification/VmRuns.v ===== *)
(** * Concrete page tables

    A small memory with a page directory, one page table and one user
    page, on which the theorems of the virtual memory code are run. *)

From stdpp Require Import base numbers strings gmap list.
From S2P Require Import Prelude Kmonad Kstring Mmu Kalloc Vm VmProof VmUser.

Local Open Scope Z_scope.

(** The pages from [E0] on: a directory, two free pages, a table, a user
    page. *)
Definition E0 : Z := 2151677952.
Definition dir0 : Z := E0.
Definition free1 : Z := E0 + 4096.
Definition free2 : Z := E0 + 8192.
Definition tab0 : Z := E0 + 12288.
Definition user0 : Z := E0 + 16384.

Definition m0 : memory := store32 free2 free1 (store32 free1 0 (fun _ => 0)).
Definition k0 : kmem := {| use_lock := true; freelist := free2; kmemory := m0 |}.

Definition de0 : Z := Z.lor (V2P tab0) 7.
Definition te0 : Z := Z.lor (V2P user0) 7.
Definition m1 : memory := store32 (tab0 + 4 * 1) te0 (store32 (dir0 + 4 * 0) de0 m0).
Definition k1 : kmem := {| use_lock := true; freelist := free2; kmemory := m1 |}.

Lemma pages_ok : Forall (page_ok E0) [dir0; free1; free2; tab0; user0].
Proof. repeat constructor; by vm_compute. Qed.

Ltac page_ok := solve [repeat constructor; by vm_compute].

Lemma m0_bytes : byte_memory m0.
Proof. unfold m0. do 2 apply byte_store32. intros x. unfold is_byte. lia. Qed.

Lemma m0_word p i : page_ok E0 p -> p <> free1 -> p <> free2 -> 0 <= i < 1024 -> load32 (p + 4 * i) m0 = 0.
Proof.
  intros Hp H1 H2 Hi. unfold m0. replace free2 with (free2 + 4 * 0) at 1 by lia.
  replace free1 with (free1 + 4 * 0) at 2 by lia.
  do 2 (rewrite (load_store_ne E0); [|done|page_ok|done|lia|by left]). by vm_compute.
Qed.

Lemma m0_kmem ul : kmem_inv E0 [free2; free1] {| use_lock := ul; freelist := free2; kmemory := m0 |}.
Proof.
  split; [by vm_compute|]. split; [|repeat constructor; by vm_compute].
  repeat constructor; [|set_solver]. intros H%list_elem_of_singleton. by vm_compute in H.
Qed.

Lemma m0_pde i : 0 <= i < 1024 -> pde m0 dir0 i = 0.
Proof. intros Hi. unfold pde. apply m0_word; [page_ok|done|done|done]. Qed.

Lemma m0_has_table i : 0 <= i < 1024 -> has_table m0 dir0 i = false.
Proof. intros Hi. unfold has_table. by rewrite m0_pde. Qed.

Lemma m0_pt_ok : pt_ok E0 m0 dir0 [free2; free1].
Proof.
  split; [apply m0_bytes|page_ok|by vm_compute; set_solver| |]; intros i.
  - intros Hi. by rewrite m0_has_table.
  - intros j Hi Hj. by rewrite m0_has_table.
Qed.

Lemma mappages_correct_witness :
  wp (mappages dir0 4096 4096 65536 6) (fun r k' c' => c' = mkctx [] [] 0 /\ exists l' n, kmem_inv E0 l' k' /\
    maps E0 m0 dir0 [free2; free1] (kmemory k') l' 4096 65536 6 n /\
    (r = 0 /\ n = 1%nat \/ r = -1 /\ l' = [] /\ (n < 1)%nat)) k0 (mkctx [] [] 0).
Proof.
  apply (mappages_correct E0 dir0 4096 4096 65536 6 [free2; free1] k0 (mkctx [] [] 0)).
  - apply m0_kmem.
  - apply m0_pt_ok.
  - cbn. set_solver.
  - lia.
  - lia.
  - lia.
  - lia.
  - by vm_compute.
  - unfold in_u32. lia.
  - intros x _. unfold pte. cbn [kmemory k0]. by rewrite m0_has_table by apply PDX_range.
Defined.

(** *** One user page *)

Lemma m1_bytes : byte_memory m1.
Proof. unfold m1. do 2 apply byte_store32. apply m0_bytes. Qed.

Lemma m1_pde i : 0 <= i < 1024 -> pde m1 dir0 i = if decide (i = 0) then de0 else 0.
Proof.
  intros Hi. unfold pde, m1. rewrite (load_store_ne E0); [|page_ok|page_ok|lia|lia|by left].
  case_decide as E; [subst; apply (load_store_same E0); [page_ok|lia|by vm_compute]|].
  rewrite (load_store_ne E0); [|page_ok|page_ok|lia|lia|by right]. by apply m0_pde.
Qed.

Lemma m1_has_table i : 0 <= i < 1024 -> has_table m1 dir0 i = true -> i = 0.
Proof. intros Hi. unfold has_table. rewrite m1_pde by done. by case_decide. Qed.

Lemma m1_table : has_table m1 dir0 0 = true /\ table m1 dir0 0 = tab0.
Proof. by vm_compute. Qed.

Lemma m1_pt_ok : pt_ok E0 m1 dir0 [free2; free1].
Proof.
  split; [apply m1_bytes|page_ok|by vm_compute; set_solver| |].
  - intros i Hi ->%m1_has_table; [|done]. rewrite (proj2 m1_table).
    split_and!; [page_ok|by vm_compute; set_solver|done].
  - intros i j Hi Hj Ht%m1_has_table Hj'%m1_has_table; [|done..]. by subst.
Qed.

Lemma m1_kmem : kmem_inv E0 [free2; free1] k1.
Proof.
  split; [by vm_compute|]. apply (m0_kmem true).
Qed.

Lemma m1_user va : user_page m1 dir0 va = true -> PDX va = 0 /\ PTX va = 1.
Proof.
  unfold user_page, pte. destruct (has_table m1 dir0 (PDX va)) eqn:Et; [|done].
  apply m1_has_table in Et as ->; [|apply PDX_range]. rewrite (proj2 m1_table).
  destruct (decide (PTX va = 1)) as [|Hne]; [done|]. unfold m1.
  rewrite (load_store_ne E0); [|page_ok|page_ok|apply PTX_range|lia|by right].
  rewrite (load_store_ne E0); [|page_ok|page_ok|apply PTX_range|lia|by left].
  rewrite m0_word; [done|page_ok|done|done|apply PTX_range].
Qed.

Lemma m1_frame va : user_page m1 dir0 va = true -> frame m1 dir0 va = user0.
Proof. intros [E1 E2]%m1_user. unfold frame, pte. rewrite E1, E2. by vm_compute. Qed.

Lemma m1_as_ok : as_ok E0 m1 dir0 [free2; free1].
Proof.
  split; [apply m1_pt_ok| |].
  - intros va _ Hu. rewrite (m1_frame va Hu). split_and!; [page_ok|by vm_compute; set_solver|done|].
    intros i Hi ->%m1_has_table; [|done]. by rewrite (proj2 m1_table).
  - intros va va' H1 H2 [E1 E2]%m1_user [E1' E2']%m1_user _. apply page_index; [done..|]. by rewrite E1, E2, E1', E2'.
Qed.

