(* ===== verification/Grep.v ===== *)
(** * grep.c

    The pattern matcher of grep and the loop that reads a file line by
    line.  The matcher is shown to decide the language of the pattern,
    where a pattern is a list of items (a character, any character, or
    either of them starred) with optional anchors; the loop is shown to
    write exactly the matching lines of a file.

    A C string is the list of its characters before the NUL. *)

From stdpp Require Import base numbers strings list.
From S2P Require Import Prelude.

Local Open Scope Z_scope.

Notation caret := 94 (only parsing).
Notation dollar := 36 (only parsing).
Notation dot := 46 (only parsing).
Notation star := 42 (only parsing).
Notation newline := 10 (only parsing).

(** The loop of matchstar; [here] is matchhere on the rest of the
    pattern. *)
Fixpoint matchstar (here : list Z -> bool) (c : Z) (text : list Z) : bool :=
  if here text then true
  else match text with
       | [] => false
       | t :: text' => if (t =? c) || (c =? dot) then matchstar here c text' else false
       end.

Fixpoint matchhere (re text : list Z) : bool :=
  match re with
  | [] => true
  | c :: re1 =>
      match re1 with
      | s :: re2 => if s =? star then matchstar (matchhere re2) c text
                    else match text with
                         | t :: text' => if (c =? dot) || (c =? t) then matchhere re1 text' else false
                         | [] => false
                         end
      | [] => if c =? dollar then match text with [] => true | _ => false end
              else match text with
                   | t :: text' => if (c =? dot) || (c =? t) then matchhere re1 text' else false
                   | [] => false
                   end
      end
  end.

(** match, with its do loop over the suffixes of the text. *)
Fixpoint match_loop (re text : list Z) : bool :=
  if matchhere re text then true
  else match text with
       | [] => false
       | _ :: text' => match_loop re text'
       end.

Definition match_ (re text : list Z) : bool :=
  match re with
  | c :: re' => if c =? caret then matchhere re' text else match_loop re text
  | [] => match_loop re text
  end.

(** *** The loop over the lines of a file *)

(** strchr of '\n' in the string that starts at the pointer: the characters
    before a NUL. *)
Fixpoint strchr_nl (p : list Z) : option nat :=
  match p with
  | [] => None
  | c :: p' => if c =? 0 then None else if c =? newline then Some O else S <$> strchr_nl p'
  end.

(** The inner while: the lines written, and the bytes from [p] on at the
    end. *)
Fixpoint grep_lines (fuel : nat) (pattern p : list Z) : list (list Z) * list Z :=
  match fuel with
  | O => ([], p)
  | S fuel =>
      match strchr_nl p with
      | None => ([], p)
      | Some q =>
          let '(ws, p') := grep_lines fuel pattern (drop (S q) p) in
          ((if match_ pattern (take q p) then [take (S q) p] else []) ++ ws, p')
      end
  end.

Definition BUFSZ : nat := 1024.

Section grep.
(** The read system call on the open file. *)
Context {F : Type} (read : nat -> F -> list Z * F).

(** grep with [buf] the [m] bytes held; [None] when the fuel runs out. *)
Fixpoint grep_loop (fuel : nat) (pattern buf : list Z) (f : F) : option (list (list Z)) :=
  match fuel with
  | O => None
  | S fuel =>
      let '(chunk, f) := read (BUFSZ - length buf - 1)%nat f in
      match chunk with
      | [] => Some []
      | _ =>
          let b := buf ++ chunk in
          let '(ws, p) := grep_lines (length b) pattern b in
          (* p == buf: nothing was consumed *)
          let rest := if (length p =? length b)%nat then [] else p in
          app ws <$> grep_loop fuel pattern rest f
      end
  end.

Definition grep (fuel : nat) (pattern : list Z) (f : F) : option (list (list Z)) :=
  grep_loop fuel pattern [] f.

End grep.

(** *** The language of a pattern *)

Inductive item :=
  | One (c : Z)
  | Star (c : Z).

(** A character of the pattern accepts a character of the text. *)
Definition accepts (c t : Z) : Prop := c = dot \/ c = t.

(** The strings an item sequence stands for. *)
Fixpoint lang (its : list item) (s : list Z) : Prop :=
  match its with
  | [] => s = []
  | One c :: its => exists t s', s = t :: s' /\ accepts c t /\ lang its s'
  | Star c :: its => exists a b, s = a ++ b /\ Forall (accepts c) a /\ lang its b
  end.

(** The items of a pattern without its leading '^', and whether it ends in
    the anchor '$'. *)
Fixpoint parse (re : list Z) : list item * bool :=
  match re with
  | [] => ([], false)
  | c :: re1 =>
      match re1 with
      | [] => if c =? dollar then ([], true) else ([One c], false)
      | s :: re2 => if s =? star then let '(its, e) := parse re2 in (Star c :: its, e)
                    else let '(its, e) := parse re1 in (One c :: its, e)
      end
  end.

Definition anchored (re : list Z) : bool := match re with c :: _ => c =? caret | [] => false end.
Definition body (re : list Z) : list Z := if anchored re then tail re else re.

(** The pattern occurs in the text. *)
Definition occurs (re text : list Z) : Prop :=
  exists pre mid post, text = pre ++ mid ++ post /\ lang (parse (body re)).1 mid /\
    (anchored re = true -> pre = []) /\ ((parse (body re)).2 = true -> post = []).

(** [s] starts with a string of the pattern, which ends it when anchored. *)
Definition starts (p : list item * bool) (s : list Z) : Prop :=
  exists mid post, s = mid ++ post /\ lang p.1 mid /\ (p.2 = true -> post = []).

Lemma starts_nil e s : starts ([], e) s <-> (e = true -> s = []).
Proof.
  split.
  - intros (mid & post & -> & Hm & He). cbn in *. subst. by intros ->%He.
  - intros H. exists [], s. by split_and!.
Qed.

Lemma starts_one c p s : starts (One c :: p.1, p.2) s <-> exists t s', s = t :: s' /\ accepts c t /\ starts p s'.
Proof.
  split.
  - intros (mid & post & -> & (t & s' & -> & Ha & Hl) & He). exists t, (s' ++ post). split_and!; [done..|].
    by exists s', post.
  - intros (t & s' & -> & Ha & mid & post & -> & Hl & He). exists (t :: mid), post. split_and!; [done| |done].
    by exists t, mid.
Qed.

Lemma starts_star c p s : starts (Star c :: p.1, p.2) s <-> exists a b, s = a ++ b /\ Forall (accepts c) a /\ starts p b.
Proof.
  split.
  - intros (mid & post & -> & (a & b & -> & Ha & Hl) & He). exists a, (b ++ post).
    split_and!; [by rewrite app_assoc|done|]. by exists b, post.
  - intros (a & b & -> & Ha & mid & post & -> & Hl & He). exists (a ++ mid), post.
    split_and!; [by rewrite app_assoc| |done]. by exists a, mid.
Qed.

Lemma accepts_spec c t : (c =? dot) || (c =? t) = true <-> accepts c t.
Proof. unfold accepts. rewrite orb_true_iff, !Z.eqb_eq. done. Qed.

Lemma matchstar_spec here c text :
  matchstar here c text = true <-> exists a b, text = a ++ b /\ Forall (accepts c) a /\ here b = true.
Proof.
  induction text as [|t text IH]; cbn [matchstar].
  - destruct (here []) eqn:E; (split; [intros H|]); try done.
    + by exists [], [].
    + intros (a & b & Heq & _ & Hh). symmetry in Heq. apply app_eq_nil in Heq as [-> ->]. congruence.
  - destruct (here (t :: text)) eqn:E; (split; [intros H|]); try done.
    + by exists [], (t :: text).
    + destruct ((t =? c) || (c =? dot)) eqn:Ec; [|done]. apply IH in H as (a & b & -> & Ha & Hh).
      exists (t :: a), b. split_and!; [done| |done]. constructor; [|done].
      apply accepts_spec. rewrite orb_comm, (Z.eqb_sym c t). done.
    + intros (a & b & Heq & Ha & Hh). destruct a as [|x a]; [cbn in Heq; subst; congruence|].
      injection Heq as <- ->. apply Forall_cons in Ha as [Hx Ha]. apply accepts_spec in Hx.
      rewrite orb_comm, Z.eqb_sym in Hx. rewrite Hx. apply IH. by exists a, b.
Qed.

Lemma matchhere_one c re text : 
  (match text with
   | t :: text' => if (c =? dot) || (c =? t) then matchhere re text' else false
   | [] => false
   end = true) <-> exists t s', text = t :: s' /\ accepts c t /\ matchhere re s' = true.
Proof.
  destruct text as [|t text]; [naive_solver|]. destruct ((c =? dot) || (c =? t)) eqn:E.
  - apply accepts_spec in E. naive_solver.
  - split; [done|]. intros (t' & s' & [= <- <-] & Ha%accepts_spec & _). congruence.
Qed.

Lemma matchhere_spec re text : matchhere re text = true <-> starts (parse re) text.
Proof.
  remember (length re) as n eqn:Hn. revert re text Hn. induction (Nat.lt_wf_0 n) as [n _ IH]. intros re text ->.
  destruct re as [|c [|s re]].
  - cbn. rewrite starts_nil. naive_solver.
  - cbn [parse]. destruct (c =? dollar) eqn:Ed.
    + rewrite starts_nil. cbn. rewrite Ed. destruct text; naive_solver.
    + assert (matchhere [c] text = match text with
           | t :: text' => if (c =? dot) || (c =? t) then matchhere [] text' else false
           | [] => false
           end) as -> by (cbn; by rewrite Ed).
      rewrite matchhere_one, (starts_one c ([], false)).
      split; intros (t & s' & -> & Ha & _); exists t, s'; (split_and!; [done..|]); [by apply starts_nil|done].
  - assert (E : matchhere (c :: s :: re) text =
      if s =? star then matchstar (matchhere re) c text
      else match text with
           | t :: text' => if (c =? dot) || (c =? t) then matchhere (s :: re) text' else false
           | [] => false
           end) by done.
    assert (Ep : parse (c :: s :: re) =
      if s =? star then (Star c :: (parse re).1, (parse re).2)
      else (One c :: (parse (s :: re)).1, (parse (s :: re)).2)).
    { cbn. destruct (s =? star); [by destruct (parse re)|]. by destruct (match re with [] => _ | _ => _ end). }
    rewrite E, Ep. destruct (s =? star).
    + assert (IH' := fun t => IH (length re) ltac:(cbn; lia) re t eq_refl).
      rewrite matchstar_spec, starts_star. by setoid_rewrite IH'.
    + assert (IH' := fun t => IH (length (s :: re)) ltac:(cbn; lia) (s :: re) t eq_refl).
      rewrite matchhere_one, starts_one. by setoid_rewrite IH'.
Qed.

Lemma match_loop_spec re text :
  match_loop re text = true <-> exists pre s, text = pre ++ s /\ starts (parse re) s.
Proof.
  induction text as [|t text IH]; cbn [match_loop]; destruct (matchhere re _) eqn:E.
  - apply matchhere_spec in E. split; [|done]. intros _. by exists [], [].
  - split; [done|]. intros (pre & s & Heq & Hs). symmetry in Heq. apply app_eq_nil in Heq as [-> ->].
    apply matchhere_spec in Hs. congruence.
  - apply matchhere_spec in E. split; [|done]. intros _. by exists [], (t :: text).
  - rewrite IH. split.
    + intros (pre & s & -> & Hs). by exists (t :: pre), s.
    + intros ([|x pre] & s & Heq & Hs); [|injection Heq as <- ->; by exists pre, s].
      cbn in Heq. subst. apply matchhere_spec in Hs. congruence.
Qed.

Lemma match_occurs re text : match_ re text = true <-> occurs re text.
Proof.
  assert (Hl : anchored re = false -> match_ re text = match_loop re text).
  { intros E. unfold match_. destruct re as [|c re]; [done|]. cbn in E. by rewrite E. }
  unfold occurs, body. destruct (anchored re) eqn:E.
  - destruct re as [|c re]; [done|]. cbn in E. unfold match_. rewrite E, matchhere_spec. cbn [tail]. split.
    + intros (mid & post & -> & Hl' & He). by exists [], mid, post.
    + intros (pre & mid & post & -> & Hl' & Hp & He). rewrite Hp by done. by exists mid, post.
  - rewrite Hl, match_loop_spec by done. split.
    + intros (pre & s & -> & mid & post & -> & Hl' & He). by exists pre, mid, post.
    + intros (pre & mid & post & -> & Hl' & _ & He). exists pre, (mid ++ post). split; [done|]. by exists mid, post.
Qed.

(** C14. The matcher decides the language of the pattern: match returns true
    exactly when some string of the items the pattern denotes occurs in the
    text, at its start when the pattern begins with '^' and at its end when
    it finishes with the anchor '$'. *)
Theorem match_correct re text : match_ re text = true <-> occurs re text.
Proof. apply match_occurs. Qed.

(** *** Lines of a file *)

(** The complete lines of a file, each with its newline. *)
Fixpoint lines_of (s : list Z) : list (list Z) :=
  match s with
  | [] => []
  | c :: s => if c =? newline then [newline] :: lines_of s
              else match lines_of s with [] => [] | l :: ls => (c :: l) :: ls end
  end.

Definition selected (pattern line : list Z) : bool := match_ pattern (take (pred (length line)) line).
Definition grep_ref (pattern s : list Z) : list (list Z) := List.filter (selected pattern) (lines_of s).

(** Reads from an input whose bytes still to come are [data f]: a read
    takes some of them, none only at the end, and when it takes fewer than
    asked for it has seen a newline or the end.  So do reads of a file and
    of the console; a pipe returns whatever has been written so far. *)
Definition line_reads {F} (data : F -> list Z) (read : nat -> F -> list Z * F) : Prop :=
  forall n f, (0 < n)%nat ->
    let '(chunk, f') := read n f in
    data f = chunk ++ data f' /\ (length chunk <= n)%nat /\ (chunk = [] -> data f = []) /\
    (length chunk = n \/ newline ∈ chunk \/ data f' = []).

(** A read from a regular file. *)
Definition file_read (n : nat) (f : list Z) : list Z * list Z := (take n f, drop n f).

Lemma file_reads : line_reads (fun f => f) file_read.
Proof.
  intros n f Hn. cbn. split; [by rewrite take_drop|]. split; [rewrite length_take; lia|]. split.
  - destruct f; [done|]. destruct n; [lia|done].
  - destruct (decide (n <= length f)%nat); [left; rewrite length_take; lia|]. right; right. apply drop_ge. lia.
Qed.

Lemma strchr_some p q s : strchr_nl p = Some q ->
  (q < length p)%nat /\ lines_of (p ++ s) = take (S q) p :: lines_of (drop (S q) p ++ s).
Proof.
  revert q. induction p as [|c p IH]; intros q; [done|]. cbn [strchr_nl app lines_of length].
  destruct (c =? 0); [done|]. destruct (Z.eqb_spec c newline) as [->|Hc].
  - intros [= <-]. split; [lia|done].
  - intros (q' & Hq & ->)%fmap_Some. destruct (IH _ Hq) as [Hl ->]. split; [lia|done].
Qed.

Lemma strchr_none p s : Forall (fun c => c <> 0) p -> strchr_nl p = None ->
  lines_of (p ++ s) = match lines_of s with [] => [] | l :: ls => (p ++ l) :: ls end.
Proof.
  induction p as [|c p IH]; [intros _ _; cbn; by destruct (lines_of s)|]. intros [Hc Hp]%Forall_cons. cbn [strchr_nl app lines_of].
  rewrite (proj2 (Z.eqb_neq c 0)) by done. destruct (c =? newline); [done|].
  intros Hq%fmap_None. rewrite IH by done. by destruct (lines_of s).
Qed.

Lemma grep_lines_spec pattern fuel p ws r : (length p <= fuel)%nat -> grep_lines fuel pattern p = (ws, r) ->
  strchr_nl r = None /\ (exists d, p = d ++ r) /\
  (forall s, grep_ref pattern (p ++ s) = ws ++ grep_ref pattern (r ++ s)) /\
  (forall s l, l ∈ lines_of (r ++ s) -> l ∈ lines_of (p ++ s)).
Proof.
  revert p ws r. induction fuel as [|fuel IH]; intros p ws r Hf; cbn [grep_lines].
  { destruct p; [|cbn in Hf; lia]. intros [= <- <-]. split_and!; try done. by exists []. }
  destruct (strchr_nl p) as [q|] eqn:Eq.
  2:{ intros [= <- <-]. split_and!; try done. by exists []. }
  destruct (grep_lines fuel pattern (drop (S q) p)) as [ws' r'] eqn:E. intros [= <- <-].
  destruct (strchr_some p q [] Eq) as [Hq _]. apply IH in E as (Hn & (d & Hd) & Hr & Hl); [|rewrite length_drop; lia].
  split_and!; [done| | |].
  - exists (take (S q) p ++ d). rewrite <- app_assoc, <- Hd. by rewrite take_drop.
  - intros s. unfold grep_ref in *. rewrite (proj2 (strchr_some p q s Eq)). cbn [List.filter].
    unfold selected at 1. rewrite length_take, Nat.min_l, take_take, Nat.min_l by lia. cbn [pred].
    case_match; cbn; rewrite Hr; done.
  - intros s l Hin. rewrite (proj2 (strchr_some p q s Eq)). right. by apply Hl.
Qed.

Lemma lines_nonempty s l : l ∈ lines_of s -> l <> [].
Proof.
  revert l. induction s as [|c s IH]; cbn [lines_of]; [by intros l ?%elem_of_nil|]. intros l. destruct (c =? newline).
  - intros [->|H]%elem_of_cons; [done|by apply IH].
  - destruct (lines_of s) as [|l0 ls]; [by intros ?%elem_of_nil|]. intros [->|H]%elem_of_cons; [done|]. apply IH. by right.
Qed.

Lemma no_newline b : Forall (fun c => c <> 0) b -> strchr_nl b = None -> newline ∉ b.
Proof.
  induction b as [|c b IH]; [intros _ _ ?%elem_of_nil; done|]. intros [Hc Hb]%Forall_cons. cbn [strchr_nl].
  rewrite (proj2 (Z.eqb_neq c 0)) by done. destruct (Z.eqb_spec c newline); [done|].
  intros Hq%fmap_None [?|Hin]%elem_of_cons; [done|]. by apply IH.
Qed.

(** A full buffer without a newline is not the start of a line. *)
Lemma full_buffer b s : Forall (fun c => c <> 0) b -> strchr_nl b = None -> (length b = 1023)%nat ->
  (forall l, l ∈ lines_of (b ++ s) -> (length l <= 1023)%nat) -> lines_of s = [].
Proof.
  intros Hnz Hnl Hlen Hall. rewrite strchr_none in Hall by done. destruct (lines_of s) as [|l ls] eqn:E; [done|].
  assert (l <> []) by (apply (lines_nonempty s); rewrite E; left).
  specialize (Hall (b ++ l) ltac:(left)). rewrite length_app in Hall. destruct l; [done|]. cbn in Hall. lia.
Qed.

Section loop.
Context {F : Type} (data : F -> list Z) (read : nat -> F -> list Z * F).
Hypothesis reads : line_reads data read.

Lemma grep_loop_spec pattern fuel buf f :
  Forall (fun c => c <> 0) (buf ++ data f) -> strchr_nl buf = None -> (length buf < 1023)%nat -> (length (data f) < fuel)%nat ->
  (forall l, l ∈ lines_of (buf ++ data f) -> (length l <= 1023)%nat) ->
  grep_loop read fuel pattern buf f = Some (grep_ref pattern (buf ++ data f)).
Proof.
  revert buf f. induction fuel as [|fuel IH]; intros buf f Hnz Hnl Hb Hf Hlines; [lia|].
  cbn [grep_loop]. set (n := (BUFSZ - length buf - 1)%nat).
  assert (Hn : (n = 1023 - length buf)%nat) by (unfold n, BUFSZ; lia).
  pose proof (reads n f ltac:(lia)) as Hrd. destruct (read n f) as [chunk f'].
  destruct Hrd as (Ed & Hcl & Hend & Hwhy). rewrite Ed in *. destruct chunk as [|c0 ch].
  { cbn [app] in *. rewrite (Hend eq_refl), app_nil_r in *. unfold grep_ref. by rewrite <- (app_nil_r buf), (strchr_none buf []). }
  remember (c0 :: ch) as chunk eqn:Ech. set (b := buf ++ chunk).
  assert (Hpos : (0 < length chunk)%nat) by (rewrite Ech; cbn; lia). clear c0 ch Ech Hend.
  rewrite app_assoc in *. fold b in Hnz, Hlines |- *. apply Forall_app in Hnz as [Hnzb Hnzf].
  destruct (grep_lines (length b) pattern b) as [ws r] eqn:Eg.
  apply grep_lines_spec in Eg as (Hr & (d & Hd) & Hspec & Hin); [|done].
  assert (Hnzr : Forall (fun c => c <> 0) r) by (rewrite Hd in Hnzb; by apply Forall_app in Hnzb as [_ ?]).
  assert (Hlb : (length b <= 1023)%nat) by (unfold b; rewrite length_app; lia).
  assert (Hfd : (length (data f') < fuel)%nat) by (rewrite length_app in Hf; lia).
  rewrite Hspec. destruct (Nat.eqb_spec (length r) (length b)) as [Elen|Elen].
  - assert (r = b) as ->.
    { apply (f_equal length) in Hd as Hdl. rewrite length_app in Hdl. destruct d; [by cbn in Hd|cbn in Hdl; lia]. }
    assert (El : lines_of (data f') = []).
    { destruct Hwhy as [Hfull|[Hnew| ->]]; [| |done].
      - apply (full_buffer b); try done. unfold b. rewrite length_app. lia.
      - exfalso. apply (no_newline b); [done..|]. unfold b. apply elem_of_app. by right. }
    rewrite (IH [] f'); cbn [app]; try done; [|cbn; lia|by rewrite El; intros l ?%elem_of_nil].
    unfold grep_ref. rewrite strchr_none, El by done. done.
  - apply (f_equal length) in Hd as Hdl. rewrite length_app in Hdl.
    rewrite (IH r f'); try done; [by apply Forall_app|lia|]. intros l Hl. by apply Hlines, Hin.
Qed.

(** C39. On an input without NUL bytes whose complete lines fit the buffer
    (1023 bytes with the newline), read so that a short read has seen a
    newline or the end (as from a file or the console), grep terminates,
    and the sequence of its writes is exactly the sequence of the
    newline-terminated lines of the input that match the pattern, in
    order. *)
Theorem grep_correct pattern f :
  Forall (fun c => c <> 0) (data f) -> (forall l, l ∈ lines_of (data f) -> (length l <= 1023)%nat) ->
  grep read (S (length (data f))) pattern f = Some (List.filter (selected pattern) (lines_of (data f))).
Proof. intros H1 H2. unfold grep. rewrite (grep_loop_spec pattern _ [] f); try done; [cbn; lia|lia]. Qed.
End loop.

Definition text0 : list Z := [97; 10; 98; 10; 97; 98; 10; 97].

Lemma grep_correct_witness : grep file_read 9 [94; 97] text0 = Some [[97; 10]; [97; 98; 10]].
Proof.
  refine (eq_trans (grep_correct (fun f => f) file_read file_reads [94; 97] text0 _ _) _).
  - repeat constructor; lia.
  - intros l Hl. vm_compute in Hl. repeat (apply elem_of_cons in Hl as [->|Hl]; [vm_compute; lia|]). by apply elem_of_nil in Hl.
  - vm_compute. reflexivity.
Defined.

(** The last line of a file that does not end in a newline is not looked
    at, nor is a line that arrives in two short reads from a pipe. *)
Theorem grep_drops_unterminated_line :
  grep file_read 9 [97] [97; 97; 97] = Some [] /\
  grep (fun _ f => match f with c :: f => (c, f) | [] => ([], []) end) 9 [97] [[97]; [97; 10]] = Some [[97; 10]].
Proof. by vm_compute. Qed.
