(* ===== verification/FontBin.v ===== *)
(** * font_bin.h

    The bitmaps of the 95 printable characters, 30 rows of 15 bits each,
    from the space (32) on; [font_bin] is the whole table. *)

From Stdlib Require Import ZArith List.
Import ListNotations.
Open Scope bool_scope.

Local Open Scope Z_scope.

(** Characters 32 to 55. *)
Definition font_bin_0 : list (list Z) := [
  [0x0; 0x0; 0x0; 0x0; 0x0; 0x0; 0x0; 0x0; 0x0; 0x0; 0x0; 0x0; 0x0; 0x0; 0x0;
   0x0; 0x0; 0x0; 0x0; 0x0; 0x0; 0x0; 0x0; 0x0; 0x0; 0x0; 0x0; 0x0; 0x0; 0x0];
  [0x0; 0x1c0; 0x1c0; 0x1c0; 0x1c0; 0x1c0; 0x1c0; 0x1c0; 0x1c0; 0x1c0; 0x1c0; 0x180; 0x180; 0x180; 0x180;
   0x180; 0x0; 0x0; 0x0; 0x1c0; 0x3c0; 0x3c0; 0x1c0; 0x0; 0x0; 0x0; 0x0; 0x0; 0x0; 0x0];
  [0xc38; 0x1e38; 0x1e38; 0xe38; 0xe38; 0xc38; 0xc38; 0xc38; 0xc30; 0xc10; 0x0; 0x0; 0x0; 0x0; 0x0;
   0x0; 0x0; 0x0; 0x0; 0x0; 0x0; 0x0; 0x0; 0x0; 0x0; 0x0; 0x0; 0x0; 0x0; 0x0];
  [0x0; 0x0; 0x318; 0x318; 0x318; 0x210; 0x630; 0x738; 0x3ffe; 0x3ffe; 0x630; 0x630; 0x630; 0x630; 0x3ffc;
   0x3ffc; 0x3ffc; 0xc60; 0xc60; 0xc60; 0xc60; 0xc60; 0x18c0; 0x0; 0x0; 0x0; 0x0; 0x0; 0x0; 0x0];
  [0x180; 0x180; 0x3e0; 0x7f0; 0xff8; 0xe18; 0x1c00; 0x1c00; 0x1e00; 0xf00; 0xf80; 0x7c0; 0x3f0; 0x1f8; 0x78;
   0x3c; 0x1c; 0x1c; 0x1c; 0x183c; 0x1ff8; 0x1ff0; 0x7e0; 0x180; 0x180; 0x180; 0x80; 0x0; 0x0; 0x0];
  [0x0; 0x0; 0x1e00; 0x3f04; 0x330e; 0x730c; 0x6318; 0x6338; 0x6330; 0x3320; 0x3700; 0x1e00; 0x800; 0x3c; 0x7c;
   0x6c6; 0xcc6; 0x1cc6; 0x18c6; 0x38c6; 0x30c6; 0x7c; 0x3c; 0x0; 0x0; 0x0; 0x0; 0x0; 0x0; 0x0];
  [0x0; 0x380; 0x7c0; 0xfe0; 0xc60; 0xc60; 0xc60; 0xc60; 0xee0; 0xfc0; 0xf80; 0x70e; 0xf0e; 0x1f8e; 0x1f8c;
   0x39dc; 0x39fc; 0x38f8; 0x3878; 0x387c; 0x3cfe; 0x1ffe; 0xfc4; 0x0; 0x0; 0x0; 0x0; 0x0; 0x0; 0x0];
  [0x1c0; 0x1c0; 0x1c0; 0x1c0; 0x1c0; 0x1c0; 0x1c0; 0x180; 0x180; 0x80; 0x0; 0x0; 0x0; 0x0; 0x0;
   0x0; 0x0; 0x0; 0x0; 0x0; 0x0; 0x0; 0x0; 0x0; 0x0; 0x0; 0x0; 0x0; 0x0; 0x0];
  [0x38; 0x70; 0xe0; 0x1e0; 0x1c0; 0x380; 0x380; 0x380; 0x700; 0x700; 0x700; 0x700; 0x700; 0x700; 0x700;
   0x700; 0x700; 0x700; 0x700; 0x300; 0x380; 0x380; 0x180; 0x1c0; 0xe0; 0xe0; 0x70; 0x38; 0x0; 0x0];
  [0xe00; 0xf00; 0x700; 0x380; 0x1c0; 0x1c0; 0xc0; 0xe0; 0xe0; 0xe0; 0x60; 0x70; 0x70; 0x70; 0x70;
   0x70; 0x70; 0x60; 0xe0; 0xe0; 0xe0; 0xc0; 0x1c0; 0x380; 0x380; 0x700; 0xe00; 0xe00; 0x0; 0x0];
  [0x180; 0x180; 0x180; 0x1ff8; 0xff8; 0x3e0; 0x3e0; 0x760; 0x630; 0x420; 0x0; 0x0; 0x0; 0x0; 0x0;
   0x0; 0x0; 0x0; 0x0; 0x0; 0x0; 0x0; 0x0; 0x0; 0x0; 0x0; 0x0; 0x0; 0x0; 0x0];
  [0x0; 0x0; 0x0; 0x0; 0x0; 0x180; 0x180; 0x180; 0x180; 0x180; 0x180; 0x3ffe; 0x3ffe; 0x1c0; 0x180;
   0x180; 0x180; 0x180; 0x180; 0x180; 0x0; 0x0; 0x0; 0x0; 0x0; 0x0; 0x0; 0x0; 0x0; 0x0];
  [0x0; 0x0; 0x0; 0x0; 0x0; 0x0; 0x0; 0x0; 0x0; 0x0; 0x0; 0x0; 0x0; 0x0; 0x0;
   0x0; 0x0; 0x0; 0x0; 0x3c0; 0x3e0; 0x3e0; 0x1e0; 0x60; 0xc0; 0xc0; 0x380; 0x300; 0x200; 0x0];
  [0x0; 0x0; 0x0; 0x0; 0x0; 0x0; 0x0; 0x0; 0x0; 0x0; 0x0; 0x0; 0x0; 0xff0; 0xff0;
   0xff0; 0x0; 0x0; 0x0; 0x0; 0x0; 0x0; 0x0; 0x0; 0x0; 0x0; 0x0; 0x0; 0x0; 0x0];
  [0x0; 0x0; 0x0; 0x0; 0x0; 0x0; 0x0; 0x0; 0x0; 0x0; 0x0; 0x0; 0x0; 0x0; 0x0;
   0x0; 0x0; 0x0; 0x0; 0x1c0; 0x3c0; 0x3c0; 0x1c0; 0x0; 0x0; 0x0; 0x0; 0x0; 0x0; 0x0];
  [0xc; 0xc; 0x1c; 0x18; 0x18; 0x30; 0x30; 0x30; 0x60; 0x60; 0xe0; 0xc0; 0xc0; 0x180; 0x180;
   0x180; 0x300; 0x300; 0x300; 0x600; 0x600; 0xe00; 0xc00; 0xc00; 0x1800; 0x1800; 0x1800; 0x3000; 0x0; 0x0];
  [0x0; 0x0; 0x3e0; 0x7f0; 0xff0; 0xe38; 0x1c38; 0x1c1c; 0x1c1c; 0x1c1c; 0x3c1c; 0x3c1c; 0x3c1c; 0x3c1c; 0x1c1c;
   0x1c1c; 0x1c1c; 0x1c1c; 0x1c38; 0xe38; 0xf78; 0x7f0; 0x3e0; 0x0; 0x0; 0x0; 0x0; 0x0; 0x0; 0x0];
  [0x0; 0x0; 0x1c0; 0x7c0; 0xfc0; 0xfc0; 0x1c0; 0x1c0; 0x1c0; 0x1c0; 0x1c0; 0x1c0; 0x1c0; 0x1c0; 0x1c0;
   0x1c0; 0x1c0; 0x1c0; 0x1c0; 0x1c0; 0x1ffc; 0x1ffc; 0x1ffc; 0x0; 0x0; 0x0; 0x0; 0x0; 0x0; 0x0];
  [0x0; 0x0; 0x7e0; 0x1ff0; 0x3ff0; 0x1838; 0x38; 0x38; 0x38; 0x38; 0x38; 0x78; 0x70; 0xf0; 0xe0;
   0x1c0; 0x3c0; 0x780; 0x700; 0xe00; 0x1ffc; 0x3ffc; 0x3ffc; 0x0; 0x0; 0x0; 0x0; 0x0; 0x0; 0x0];
  [0x0; 0x0; 0x7e0; 0x1ff0; 0x1ff8; 0x1838; 0x38; 0x38; 0x38; 0x38; 0xf0; 0x3e0; 0x3e0; 0x3f0; 0x78;
   0x38; 0x1c; 0x1c; 0x1c; 0x1838; 0x3ef8; 0x1ff0; 0xfe0; 0x0; 0x0; 0x0; 0x0; 0x0; 0x0; 0x0];
  [0x0; 0x0; 0xf0; 0xf0; 0x1f0; 0x1f0; 0x3f0; 0x370; 0x770; 0x670; 0xe70; 0xc70; 0x1c70; 0x1870; 0x3878;
   0x3ffc; 0x3ffc; 0x78; 0x70; 0x70; 0x70; 0x70; 0x70; 0x0; 0x0; 0x0; 0x0; 0x0; 0x0; 0x0];
  [0x0; 0x0; 0xff8; 0xff8; 0xff8; 0xe00; 0xe00; 0xe00; 0xc00; 0xc00; 0xfe0; 0x1ff0; 0xc78; 0x38; 0x3c;
   0x1c; 0x1c; 0x1c; 0x3c; 0x1038; 0x3ef8; 0x1ff0; 0xfe0; 0x0; 0x0; 0x0; 0x0; 0x0; 0x0; 0x0];
  [0x0; 0x0; 0x1f0; 0x7f8; 0x7f8; 0xe08; 0x1e00; 0x1c00; 0x1c00; 0x1c00; 0x1ce0; 0x1ff0; 0x1ff8; 0x1e3c; 0x1c1c;
   0x1c1c; 0x1c1c; 0x1c1c; 0x1c1c; 0xe1c; 0xf78; 0x7f0; 0x3e0; 0x0; 0x0; 0x0; 0x0; 0x0; 0x0; 0x0];
  [0x0; 0x0; 0x1ffc; 0x1ffc; 0x1ffc; 0x38; 0x38; 0x70; 0x70; 0xe0; 0xe0; 0xe0; 0x1c0; 0x1c0; 0x1c0;
   0x1c0; 0x3c0; 0x380; 0x380; 0x380; 0x380; 0x380; 0x380; 0x0; 0x0; 0x0; 0x0; 0x0; 0x0; 0x0]].

(** Characters 56 to 79. *)
Definition font_bin_1 : list (list Z) := [
  [0x0; 0x0; 0x7e0; 0xff0; 0xe78; 0x1c38; 0x1c18; 0x1c18; 0x1c18; 0x1e38; 0xf30; 0x7f0; 0x7e0; 0xff0; 0x1c78;
   0x1c3c; 0x381c; 0x381c; 0x381c; 0x1c1c; 0x1e3c; 0xff8; 0x7f0; 0x0; 0x0; 0x0; 0x0; 0x0; 0x0; 0x0];
  [0x0; 0x0; 0x7c0; 0xfe0; 0x1e70; 0x1c38; 0x1c38; 0x381c; 0x381c; 0x381c; 0x1c1c; 0x1c3c; 0x1ffc; 0xffc; 0x79c;
   0x1c; 0x1c; 0x38; 0x38; 0x878; 0x1cf0; 0x1fe0; 0xfc0; 0x0; 0x0; 0x0; 0x0; 0x0; 0x0; 0x0];
  [0x0; 0x0; 0x0; 0x0; 0x0; 0x0; 0x0; 0x180; 0x3c0; 0x3c0; 0x3c0; 0x1c0; 0x0; 0x0; 0x0;
   0x0; 0x0; 0x0; 0x0; 0x1c0; 0x3c0; 0x3c0; 0x1c0; 0x0; 0x0; 0x0; 0x0; 0x0; 0x0; 0x0];
  [0x0; 0x0; 0x0; 0x0; 0x0; 0x0; 0x0; 0x180; 0x3c0; 0x3c0; 0x3c0; 0x1c0; 0x0; 0x0; 0x0;
   0x0; 0x0; 0x0; 0x0; 0x3c0; 0x3e0; 0x3e0; 0x1e0; 0x60; 0xc0; 0xc0; 0x380; 0x300; 0x200; 0x0];
  [0x0; 0x0; 0x0; 0x0; 0x0; 0x0; 0x6; 0x1e; 0xfe; 0x3f0; 0x1f80; 0x3e00; 0x3c00; 0x3f00; 0x7e0;
   0x1fc; 0x3e; 0xe; 0x0; 0x0; 0x0; 0x0; 0x0; 0x0; 0x0; 0x0; 0x0; 0x0; 0x0; 0x0];
  [0x0; 0x0; 0x0; 0x0; 0x0; 0x0; 0x0; 0x3ffc; 0x3ffe; 0x3ffe; 0x0; 0x0; 0x0; 0x0; 0x0;
   0x3ffe; 0x3ffe; 0x0; 0x0; 0x0; 0x0; 0x0; 0x0; 0x0; 0x0; 0x0; 0x0; 0x0; 0x0; 0x0];
  [0x0; 0x0; 0x0; 0x0; 0x0; 0x0; 0x2000; 0x3c00; 0x3f00; 0xfe0; 0x1f8; 0x3c; 0x1c; 0xfc; 0x7f0;
   0x3f80; 0x3e00; 0x3000; 0x0; 0x0; 0x0; 0x0; 0x0; 0x0; 0x0; 0x0; 0x0; 0x0; 0x0; 0x0];
  [0x0; 0x7e0; 0xff0; 0x1e78; 0x838; 0x38; 0x38; 0x38; 0x38; 0x70; 0xf0; 0xe0; 0x1c0; 0x1c0; 0x380;
   0x380; 0x0; 0x0; 0x0; 0x3c0; 0x3c0; 0x3c0; 0x3c0; 0x0; 0x0; 0x0; 0x0; 0x0; 0x0; 0x0];
  [0x0; 0x0; 0x1e0; 0x7f0; 0xf38; 0xc1c; 0x1c0c; 0x180c; 0x380c; 0x380c; 0x301c; 0x307c; 0x31fc; 0x31cc; 0x338c;
   0x338c; 0x338c; 0x339c; 0x31fc; 0x31e4; 0x3800; 0x1800; 0x1800; 0x1c00; 0xe00; 0x738; 0x3f8; 0xe0; 0x0; 0x0];
  [0x0; 0x0; 0x3e0; 0x3e0; 0x7e0; 0x7e0; 0x770; 0x770; 0x670; 0xe70; 0xe70; 0xe38; 0xe38; 0xc38; 0x1ff8;
   0x1ff8; 0x1ffc; 0x1c1c; 0x381c; 0x381c; 0x381c; 0x380e; 0x380e; 0x0; 0x0; 0x0; 0x0; 0x0; 0x0; 0x0];
  [0x0; 0x0; 0x1fe0; 0x1ff8; 0x1c78; 0x1c3c; 0x1c3c; 0x1c3c; 0x1c38; 0x1c38; 0x1ef0; 0x1fe0; 0x1ff8; 0x1c3c; 0x1c1c;
   0x1c1c; 0x1c1c; 0x1c1c; 0x1c1c; 0x1c3c; 0x1ff8; 0x1ff0; 0x1fe0; 0x0; 0x0; 0x0; 0x0; 0x0; 0x0; 0x0];
  [0x0; 0xe0; 0x3f8; 0x7fc; 0xf9c; 0xe00; 0x1e00; 0x1c00; 0x1c00; 0x1c00; 0x3c00; 0x3c00; 0x3c00; 0x3c00; 0x3c00;
   0x1c00; 0x1c00; 0x1c00; 0x1e00; 0xf0c; 0xffe; 0x7fc; 0x1f8; 0x0; 0x0; 0x0; 0x0; 0x0; 0x0; 0x0];
  [0x0; 0x0; 0x1fc0; 0x1ff0; 0x1cf0; 0x1c78; 0x1c38; 0x1c3c; 0x1c1c; 0x1c1c; 0x1c1c; 0x1c1c; 0x1c1c; 0x1c1c; 0x1c1c;
   0x1c1c; 0x1c1c; 0x1c3c; 0x1c38; 0x1c78; 0x1ff0; 0x1fe0; 0x1f80; 0x0; 0x0; 0x0; 0x0; 0x0; 0x0; 0x0];
  [0x0; 0x0; 0x1ffc; 0x1ffc; 0x1e00; 0x1e00; 0x1e00; 0x1e00; 0x1e00; 0x1e00; 0x1ff0; 0x1ff0; 0x1ff0; 0x1e00; 0x1e00;
   0x1e00; 0x1e00; 0x1e00; 0x1e00; 0x1e00; 0x1ffc; 0x1ffc; 0x1ffc; 0x0; 0x0; 0x0; 0x0; 0x0; 0x0; 0x0];
  [0x0; 0x0; 0xffc; 0xffc; 0xe00; 0xe00; 0xe00; 0xe00; 0xe00; 0xe00; 0xe00; 0xff8; 0xff8; 0xff8; 0xe00;
   0xe00; 0xe00; 0xe00; 0xe00; 0xe00; 0xe00; 0xe00; 0xe00; 0x0; 0x0; 0x0; 0x0; 0x0; 0x0; 0x0];
  [0x0; 0xe0; 0x3f8; 0x7fc; 0xf1c; 0x1e08; 0x1c00; 0x1c00; 0x1c00; 0x3c00; 0x3c00; 0x3800; 0x387c; 0x3c7c; 0x3c1c;
   0x3c1c; 0x1c1c; 0x1c1c; 0x1e1c; 0xe1c; 0xffc; 0x7fc; 0x3f8; 0x0; 0x0; 0x0; 0x0; 0x0; 0x0; 0x0];
  [0x0; 0x0; 0x1c1c; 0x1c1c; 0x1c1c; 0x1c1c; 0x1c1c; 0x1c1c; 0x1c1c; 0x1c1c; 0x1ffc; 0x1ffc; 0x1ffc; 0x1c1c; 0x1c1c;
   0x1c1c; 0x1c1c; 0x1c1c; 0x1c1c; 0x1c1c; 0x1c1c; 0x1c1c; 0x1c1c; 0x0; 0x0; 0x0; 0x0; 0x0; 0x0; 0x0];
  [0x0; 0x0; 0x1ffc; 0x1ffc; 0x3c0; 0x1c0; 0x1c0; 0x1c0; 0x1c0; 0x1c0; 0x1c0; 0x1c0; 0x1c0; 0x1c0; 0x1c0;
   0x1c0; 0x1c0; 0x1c0; 0x1c0; 0x1c0; 0x1ffc; 0x1ffc; 0x1ffc; 0x0; 0x0; 0x0; 0x0; 0x0; 0x0; 0x0];
  [0x0; 0x0; 0x38; 0x38; 0x38; 0x38; 0x38; 0x38; 0x38; 0x38; 0x38; 0x38; 0x38; 0x38; 0x38;
   0x38; 0x38; 0x38; 0x38; 0x1838; 0x1ff8; 0x1ff0; 0x7e0; 0x0; 0x0; 0x0; 0x0; 0x0; 0x0; 0x0];
  [0x0; 0x0; 0x1c1c; 0x1c3c; 0x1c38; 0x1c70; 0x1c70; 0x1ce0; 0x1ce0; 0x1dc0; 0x1de0; 0x1fe0; 0x1fe0; 0x1ff0; 0x1e70;
   0x1e70; 0x1c38; 0x1c38; 0x1c38; 0x1c1c; 0x1c1c; 0x1c1c; 0x1c0e; 0x0; 0x0; 0x0; 0x0; 0x0; 0x0; 0x0];
  [0x0; 0x0; 0xe00; 0xe00; 0xe00; 0xe00; 0xe00; 0xe00; 0xe00; 0xe00; 0xe00; 0xe00; 0xe00; 0xe00; 0xe00;
   0xe00; 0xe00; 0xe00; 0xe00; 0xe00; 0xffc; 0xffc; 0xffc; 0x0; 0x0; 0x0; 0x0; 0x0; 0x0; 0x0];
  [0x0; 0x0; 0x3c1c; 0x3c1c; 0x3c3c; 0x3c3c; 0x3e3c; 0x3e3c; 0x3e7c; 0x3e6c; 0x3b6c; 0x3b4c; 0x3bcc; 0x39cc; 0x39cc;
   0x398c; 0x398c; 0x380c; 0x380c; 0x380c; 0x380c; 0x380c; 0x380c; 0x0; 0x0; 0x0; 0x0; 0x0; 0x0; 0x0];
  [0x0; 0x0; 0x1c1c; 0x1e1c; 0x1e1c; 0x1e1c; 0x1f1c; 0x1f1c; 0x1b1c; 0x1b1c; 0x199c; 0x199c; 0x199c; 0x18dc; 0x18dc;
   0x18dc; 0x18fc; 0x187c; 0x187c; 0x187c; 0x183c; 0x183c; 0x183c; 0x0; 0x0; 0x0; 0x0; 0x0; 0x0; 0x0];
  [0x0; 0x1c0; 0x7f0; 0xff0; 0x1e78; 0x1c38; 0x1c1c; 0x3c1c; 0x3c1c; 0x381c; 0x381c; 0x381c; 0x381c; 0x381c; 0x381c;
   0x381c; 0x3c1c; 0x1c1c; 0x1c3c; 0x1e38; 0xff8; 0xff0; 0x3e0; 0x0; 0x0; 0x0; 0x0; 0x0; 0x0; 0x0]].

(** Characters 80 to 103. *)
Definition font_bin_2 : list (list Z) := [
  [0x0; 0x0; 0x1ff0; 0x1ff8; 0x1c7c; 0x1c1c; 0x1c1c; 0x1c1e; 0x1c1e; 0x1c1c; 0x1c1c; 0x1c3c; 0x1ff8; 0x1ff0; 0x1fc0;
   0x1c00; 0x1c00; 0x1c00; 0x1c00; 0x1c00; 0x1c00; 0x1c00; 0x1c00; 0x0; 0x0; 0x0; 0x0; 0x0; 0x0; 0x0];
  [0x0; 0x1c0; 0x7f0; 0xff0; 0x1e78; 0x1c38; 0x1c1c; 0x3c1c; 0x3c1c; 0x381c; 0x381c; 0x381c; 0x381c; 0x381c; 0x381c;
   0x381c; 0x3c1c; 0x1c1c; 0x1c3c; 0x1c38; 0xf78; 0xff0; 0x3e0; 0x1c0; 0x1c0; 0xf0; 0x7e; 0x3e; 0xc; 0x0];
  [0x0; 0x0; 0x1ff0; 0x1ff8; 0x1c7c; 0x1c3c; 0x1c1c; 0x1c1c; 0x1c1c; 0x1c1c; 0x1c3c; 0x1c78; 0x1ff8; 0x1fe0; 0x1ce0;
   0x1cf0; 0x1c70; 0x1c70; 0x1c38; 0x1c38; 0x1c3c; 0x1c1c; 0x1c1e; 0x0; 0x0; 0x0; 0x0; 0x0; 0x0; 0x0];
  [0x0; 0x1c0; 0x7f0; 0xff8; 0x1e38; 0x1c00; 0x1c00; 0x1c00; 0x1e00; 0x1f00; 0xf80; 0x7e0; 0x3f0; 0xf8; 0x7c;
   0x3c; 0x1c; 0x1c; 0x81c; 0x1c3c; 0x3ff8; 0x1ff8; 0x7e0; 0x0; 0x0; 0x0; 0x0; 0x0; 0x0; 0x0];
  [0x0; 0x0; 0x3ffe; 0x3ffe; 0x3c0; 0x1c0; 0x1c0; 0x1c0; 0x1c0; 0x1c0; 0x1c0; 0x1c0; 0x1c0; 0x1c0; 0x1c0;
   0x1c0; 0x1c0; 0x1c0; 0x1c0; 0x1c0; 0x1c0; 0x1c0; 0x1c0; 0x0; 0x0; 0x0; 0x0; 0x0; 0x0; 0x0];
  [0x0; 0x0; 0x1c1c; 0x1c1c; 0x1c1c; 0x1c1c; 0x1c1c; 0x1c1c; 0x1c1c; 0x1c1c; 0x1c1c; 0x1c1c; 0x1c1c; 0x1c1c; 0x1c1c;
   0x1c1c; 0x1c1c; 0x1c1c; 0x1c1c; 0x1c3c; 0x1ff8; 0xff8; 0x7e0; 0x0; 0x0; 0x0; 0x0; 0x0; 0x0; 0x0];
  [0x0; 0x0; 0x381e; 0x381c; 0x381c; 0x3c1c; 0x1c1c; 0x1c1c; 0x1c38; 0x1c38; 0xe38; 0xe38; 0xe38; 0xe30; 0xe70;
   0x670; 0x770; 0x760; 0x760; 0x7e0; 0x3e0; 0x3e0; 0x3c0; 0x0; 0x0; 0x0; 0x0; 0x0; 0x0; 0x0];
  [0x0; 0x0; 0x7006; 0x7006; 0x3006; 0x300e; 0x300e; 0x31ce; 0x31ce; 0x39ce; 0x39cc; 0x39cc; 0x3bcc; 0x3bcc; 0x3b6c;
   0x1b6c; 0x1a6c; 0x1e7c; 0x1e7c; 0x1e3c; 0x1e3c; 0x1e38; 0x1c38; 0x0; 0x0; 0x0; 0x0; 0x0; 0x0; 0x0];
  [0x0; 0x0; 0x3c1c; 0x1c1c; 0x1c38; 0xe38; 0xe38; 0xe70; 0x770; 0x7e0; 0x3e0; 0x3e0; 0x3c0; 0x3e0; 0x7e0;
   0x770; 0xe70; 0xe70; 0xe38; 0x1c38; 0x1c3c; 0x3c1c; 0x381c; 0x0; 0x0; 0x0; 0x0; 0x0; 0x0; 0x0];
  [0x0; 0x0; 0x381e; 0x3c1c; 0x1c1c; 0x1c38; 0x1c38; 0xe38; 0xe30; 0xe70; 0x770; 0x7e0; 0x3e0; 0x3e0; 0x3c0;
   0x1c0; 0x1c0; 0x1c0; 0x1c0; 0x1c0; 0x1c0; 0x1c0; 0x1c0; 0x0; 0x0; 0x0; 0x0; 0x0; 0x0; 0x0];
  [0x0; 0x0; 0x1ffc; 0x1ffc; 0x3c; 0x38; 0x78; 0x70; 0xf0; 0xe0; 0x1e0; 0x1c0; 0x3c0; 0x380; 0x780;
   0x700; 0x700; 0xe00; 0xe00; 0x1c00; 0x1ffc; 0x3ffc; 0x3ffc; 0x0; 0x0; 0x0; 0x0; 0x0; 0x0; 0x0];
  [0x3f8; 0x3f8; 0x300; 0x300; 0x300; 0x300; 0x300; 0x300; 0x300; 0x300; 0x300; 0x300; 0x300; 0x300; 0x300;
   0x300; 0x300; 0x300; 0x300; 0x300; 0x300; 0x300; 0x300; 0x300; 0x300; 0x300; 0x3f8; 0x3f8; 0x0; 0x0];
  [0x3000; 0x1800; 0x1800; 0x1800; 0xc00; 0xc00; 0xe00; 0x600; 0x600; 0x300; 0x300; 0x300; 0x180; 0x180; 0x180;
   0xc0; 0xc0; 0xe0; 0x60; 0x60; 0x30; 0x30; 0x30; 0x18; 0x18; 0x18; 0xc; 0xc; 0x0; 0x0];
  [0xfc0; 0xfc0; 0xc0; 0xc0; 0xc0; 0xc0; 0xc0; 0xc0; 0xc0; 0xc0; 0xc0; 0xc0; 0xc0; 0xc0; 0xc0;
   0xc0; 0xc0; 0xc0; 0xc0; 0xc0; 0xc0; 0xc0; 0xc0; 0xc0; 0xc0; 0xc0; 0xfc0; 0xfc0; 0x0; 0x0];
  [0x0; 0x1c0; 0x3c0; 0x3c0; 0x3e0; 0x760; 0x660; 0x670; 0xe30; 0xe30; 0xc38; 0x1c18; 0x1c1c; 0x181c; 0x0;
   0x0; 0x0; 0x0; 0x0; 0x0; 0x0; 0x0; 0x0; 0x0; 0x0; 0x0; 0x0; 0x0; 0x0; 0x0];
  [0x0; 0x0; 0x0; 0x0; 0x0; 0x0; 0x0; 0x0; 0x0; 0x0; 0x0; 0x0; 0x0; 0x0; 0x0;
   0x0; 0x0; 0x0; 0x0; 0x0; 0x0; 0x0; 0x0; 0x0; 0x0; 0x1ffc; 0x1ffc; 0x0; 0x0; 0x0];
  [0x780; 0x380; 0x180; 0x1c0; 0x0; 0x0; 0x0; 0x0; 0x0; 0x0; 0x0; 0x0; 0x0; 0x0; 0x0;
   0x0; 0x0; 0x0; 0x0; 0x0; 0x0; 0x0; 0x0; 0x0; 0x0; 0x0; 0x0; 0x0; 0x0; 0x0];
  [0x0; 0x0; 0x0; 0x0; 0x0; 0x0; 0x0; 0x7e0; 0x1ff8; 0xe78; 0x38; 0x3c; 0x1c; 0xfc; 0x7fc;
   0xf1c; 0x1c1c; 0x1c1c; 0x1c1c; 0x1c3c; 0x1e7c; 0x1ffc; 0xf9c; 0x0; 0x0; 0x0; 0x0; 0x0; 0x0; 0x0];
  [0x0; 0x1c00; 0x1c00; 0x1c00; 0x1c00; 0x1c00; 0x1c00; 0x1df0; 0x1ff8; 0x1f78; 0x1e3c; 0x1c1c; 0x1c1c; 0x1c1c; 0x1c1c;
   0x1c1c; 0x1c1c; 0x1c1c; 0x1c3c; 0x1c3c; 0x1f78; 0x1ff0; 0x19e0; 0x0; 0x0; 0x0; 0x0; 0x0; 0x0; 0x0];
  [0x0; 0x0; 0x0; 0x0; 0x0; 0x0; 0x0; 0x3f8; 0x7fc; 0xf98; 0xe00; 0x1e00; 0x1c00; 0x1c00; 0x1c00;
   0x1c00; 0x1c00; 0x1c00; 0x1e00; 0xe00; 0xf9c; 0x7fc; 0x3f8; 0x0; 0x0; 0x0; 0x0; 0x0; 0x0; 0x0];
  [0x0; 0x3c; 0x3c; 0x3c; 0x3c; 0x3c; 0x3c; 0x7fc; 0xffc; 0x1f7c; 0x1e3c; 0x1c3c; 0x3c3c; 0x3c3c; 0x3c3c;
   0x3c3c; 0x3c3c; 0x3c3c; 0x1c3c; 0x1c3c; 0x1e7c; 0xffc; 0x79c; 0x0; 0x0; 0x0; 0x0; 0x0; 0x0; 0x0];
  [0x0; 0x0; 0x0; 0x0; 0x0; 0x0; 0x0; 0x3f0; 0x7f8; 0xf38; 0x1c1c; 0x1c1c; 0x1c1c; 0x3c1c; 0x3ffc;
   0x3ffc; 0x3c00; 0x1c00; 0x1c00; 0x1e00; 0xf18; 0x7f8; 0x3f8; 0x0; 0x0; 0x0; 0x0; 0x0; 0x0; 0x0];
  [0x38; 0xfe; 0x1fe; 0x1c0; 0x3c0; 0x380; 0x380; 0x1ffc; 0x1ffc; 0x1ff8; 0x380; 0x380; 0x380; 0x380; 0x380;
   0x380; 0x380; 0x380; 0x380; 0x380; 0x380; 0x380; 0x380; 0x0; 0x0; 0x0; 0x0; 0x0; 0x0; 0x0];
  [0x0; 0x0; 0x0; 0x0; 0x0; 0x0; 0x0; 0x7fe; 0xffe; 0x1e7c; 0x1c30; 0x1c38; 0x1c38; 0x1c38; 0x1c30;
   0xe70; 0xfe0; 0xd80; 0x1c00; 0x1c00; 0x1e00; 0xffc; 0xffc; 0x1c1e; 0x180e; 0x380e; 0x381c; 0x1e7c; 0xff8; 0x3c0]].

(** Characters 104 to 126. *)
Definition font_bin_3 : list (list Z) := [
  [0x0; 0x1c00; 0x1c00; 0x1c00; 0x1c00; 0x1c00; 0x1c00; 0x1cf8; 0x1ff8; 0x1ffc; 0x1e1c; 0x1c1c; 0x1c1c; 0x1c1c; 0x1c1c;
   0x1c1c; 0x1c1c; 0x1c1c; 0x1c1c; 0x1c1c; 0x1c1c; 0x1c1c; 0x1c1c; 0x0; 0x0; 0x0; 0x0; 0x0; 0x0; 0x0];
  [0xe0; 0x1e0; 0x1e0; 0xe0; 0x0; 0x0; 0x0; 0x1fe0; 0x1fe0; 0x1fe0; 0xe0; 0xe0; 0xe0; 0xe0; 0xe0;
   0xe0; 0xe0; 0xe0; 0xe0; 0xe0; 0xe0; 0xe0; 0xe0; 0x0; 0x0; 0x0; 0x0; 0x0; 0x0; 0x0];
  [0xe0; 0x1e0; 0x1e0; 0xe0; 0x0; 0x0; 0x0; 0x1fe0; 0x1fe0; 0x1fe0; 0xe0; 0xe0; 0xe0; 0xe0; 0xe0;
   0xe0; 0xe0; 0xe0; 0xe0; 0xe0; 0xe0; 0xe0; 0xe0; 0xe0; 0xe0; 0xe0; 0x1be0; 0x3fc0; 0x3f80; 0x0];
  [0x0; 0x1c00; 0x1c00; 0x1c00; 0x1c00; 0x1c00; 0x1c00; 0x1c1c; 0x1c3c; 0x1c38; 0x1c70; 0x1cf0; 0x1ce0; 0x1dc0; 0x1fe0;
   0x1fe0; 0x1ff0; 0x1e70; 0x1c38; 0x1c38; 0x1c1c; 0x1c1c; 0x1c1e; 0x0; 0x0; 0x0; 0x0; 0x0; 0x0; 0x0];
  [0x0; 0x1f80; 0x1f80; 0x380; 0x380; 0x380; 0x380; 0x380; 0x380; 0x380; 0x380; 0x380; 0x380; 0x380; 0x380;
   0x380; 0x380; 0x380; 0x380; 0x3c0; 0x1e8; 0x1fc; 0xfc; 0x0; 0x0; 0x0; 0x0; 0x0; 0x0; 0x0];
  [0x0; 0x0; 0x0; 0x0; 0x0; 0x0; 0x0; 0x37bc; 0x3ffc; 0x3ffe; 0x39ce; 0x398e; 0x398e; 0x398e; 0x398e;
   0x398e; 0x398e; 0x398e; 0x398e; 0x398e; 0x398e; 0x398e; 0x398e; 0x0; 0x0; 0x0; 0x0; 0x0; 0x0; 0x0];
  [0x0; 0x0; 0x0; 0x0; 0x0; 0x0; 0x0; 0x18f8; 0x1ff8; 0x1ffc; 0x1e1c; 0x1c1c; 0x1c1c; 0x1c1c; 0x1c1c;
   0x1c1c; 0x1c1c; 0x1c1c; 0x1c1c; 0x1c1c; 0x1c1c; 0x1c1c; 0x1c1c; 0x0; 0x0; 0x0; 0x0; 0x0; 0x0; 0x0];
  [0x0; 0x0; 0x0; 0x0; 0x0; 0x0; 0x0; 0x7e0; 0xff0; 0x1f78; 0x1c3c; 0x1c1c; 0x3c1c; 0x3c1c; 0x381c;
   0x381c; 0x3c1c; 0x3c1c; 0x1c1c; 0x1c3c; 0x1f78; 0xff0; 0x7e0; 0x0; 0x0; 0x0; 0x0; 0x0; 0x0; 0x0];
  [0x0; 0x0; 0x0; 0x0; 0x0; 0x0; 0x0; 0x19f0; 0x1ff8; 0x1f78; 0x1e3c; 0x1c1c; 0x1c1c; 0x1c1c; 0x1c1c;
   0x1c1c; 0x1c1c; 0x1c1c; 0x1c3c; 0x1c3c; 0x1f78; 0x1ff0; 0x1de0; 0x1c00; 0x1c00; 0x1c00; 0x1c00; 0x1c00; 0x1c00; 0x0];
  [0x0; 0x0; 0x0; 0x0; 0x0; 0x0; 0x0; 0x7dc; 0xffc; 0x1f7c; 0x1c3c; 0x1c3c; 0x3c3c; 0x3c3c; 0x383c;
   0x383c; 0x3c3c; 0x3c3c; 0x1c3c; 0x1c3c; 0x1e7c; 0xffc; 0x7bc; 0x3c; 0x3c; 0x3c; 0x3c; 0x3c; 0x3c; 0x0];
  [0x0; 0x0; 0x0; 0x0; 0x0; 0x0; 0x0; 0xe7c; 0xefc; 0xffc; 0xf80; 0xf00; 0xf00; 0xe00; 0xe00;
   0xe00; 0xe00; 0xe00; 0xe00; 0xe00; 0xe00; 0xe00; 0xe00; 0x0; 0x0; 0x0; 0x0; 0x0; 0x0; 0x0];
  [0x0; 0x0; 0x0; 0x0; 0x0; 0x0; 0x0; 0x7f0; 0xff8; 0x1e38; 0x1c00; 0x1c00; 0x1e00; 0xf80; 0x7e0;
   0x1f8; 0x78; 0x3c; 0x1c; 0x1c; 0x1c3c; 0x1ff8; 0xff0; 0x0; 0x0; 0x0; 0x0; 0x0; 0x0; 0x0];
  [0x0; 0x0; 0x0; 0x380; 0x380; 0x380; 0x380; 0x3ffc; 0x3ffc; 0x1ff8; 0x780; 0x780; 0x780; 0x780; 0x780;
   0x780; 0x780; 0x780; 0x780; 0x380; 0x3c0; 0x3fc; 0x1fc; 0x0; 0x0; 0x0; 0x0; 0x0; 0x0; 0x0];
  [0x0; 0x0; 0x0; 0x0; 0x0; 0x0; 0x0; 0x3c3c; 0x3c3c; 0x3c3c; 0x3c3c; 0x3c3c; 0x3c3c; 0x3c3c; 0x3c3c;
   0x3c3c; 0x3c3c; 0x3c3c; 0x3c3c; 0x3c7c; 0x1ffc; 0x1fdc; 0xf9c; 0x0; 0x0; 0x0; 0x0; 0x0; 0x0; 0x0];
  [0x0; 0x0; 0x0; 0x0; 0x0; 0x0; 0x0; 0x381e; 0x381c; 0x3c1c; 0x1c1c; 0x1c18; 0x1c38; 0xe38; 0xe38;
   0xe30; 0xe70; 0x770; 0x760; 0x7e0; 0x3e0; 0x3e0; 0x3c0; 0x0; 0x0; 0x0; 0x0; 0x0; 0x0; 0x0];
  [0x0; 0x0; 0x0; 0x0; 0x0; 0x0; 0x0; 0x7006; 0x7186; 0x71ce; 0x31ce; 0x31ce; 0x31ce; 0x3bce; 0x3b4c;
   0x3b4c; 0x3b6c; 0x1a7c; 0x1e7c; 0x1e7c; 0x1e3c; 0x1e38; 0x1e38; 0x0; 0x0; 0x0; 0x0; 0x0; 0x0; 0x0];
  [0x0; 0x0; 0x0; 0x0; 0x0; 0x0; 0x0; 0x3c1c; 0x1c3c; 0x1e38; 0xe38; 0x770; 0x7e0; 0x3e0; 0x3c0;
   0x3c0; 0x7e0; 0x7f0; 0xe70; 0xe78; 0x1c38; 0x1c3c; 0x381c; 0x0; 0x0; 0x0; 0x0; 0x0; 0x0; 0x0];
  [0x0; 0x0; 0x0; 0x0; 0x0; 0x0; 0x0; 0x381e; 0x381c; 0x1c1c; 0x1c1c; 0x1c18; 0xe38; 0xe38; 0xe38;
   0x630; 0x770; 0x770; 0x370; 0x3e0; 0x3e0; 0x1e0; 0x1c0; 0x1c0; 0x1c0; 0x380; 0x1f80; 0x1f00; 0x1e00; 0x0];
  [0x0; 0x0; 0x0; 0x0; 0x0; 0x0; 0x0; 0xffc; 0xffc; 0xff8; 0x38; 0x70; 0xe0; 0xe0; 0x1c0;
   0x3c0; 0x380; 0x700; 0xf00; 0xe00; 0x1ffc; 0x1ffc; 0x1ffc; 0x0; 0x0; 0x0; 0x0; 0x0; 0x0; 0x0];
  [0xf8; 0x1f8; 0x1c0; 0x180; 0x180; 0x180; 0x180; 0x180; 0x180; 0x180; 0x180; 0x180; 0x380; 0xf00; 0xf00;
   0x380; 0x180; 0x180; 0x180; 0x180; 0x180; 0x180; 0x180; 0x180; 0x180; 0x1c0; 0x1f8; 0xf8; 0x0; 0x0];
  [0x180; 0x180; 0x180; 0x180; 0x180; 0x180; 0x180; 0x180; 0x180; 0x180; 0x180; 0x180; 0x180; 0x180; 0x180;
   0x180; 0x180; 0x180; 0x180; 0x180; 0x180; 0x180; 0x180; 0x180; 0x180; 0x180; 0x180; 0x180; 0x180; 0x180];
  [0xf00; 0xf80; 0x1c0; 0x1c0; 0x1c0; 0x1c0; 0x1c0; 0x1c0; 0x180; 0x180; 0x180; 0x1c0; 0x1e0; 0x78; 0xf8;
   0x1e0; 0x1c0; 0x180; 0x180; 0x1c0; 0x1c0; 0x1c0; 0x1c0; 0x1c0; 0x1c0; 0x1c0; 0xf80; 0xf00; 0x0; 0x0];
  [0x0; 0x0; 0x0; 0x0; 0x0; 0x0; 0x0; 0x0; 0x0; 0x0; 0x1f00; 0x3f86; 0x31fe; 0x20fc; 0x30;
   0x0; 0x0; 0x0; 0x0; 0x0; 0x0; 0x0; 0x0; 0x0; 0x0; 0x0; 0x0; 0x0; 0x0; 0x0]].

Definition font_bin : list (list Z) := font_bin_0 ++ font_bin_1 ++ font_bin_2 ++ font_bin_3.

(** The table has a row of 30 for each of the 95 characters, and a row of
    a glyph fits the 15 bits the renderer looks at. *)
Lemma font_bin_shape :
  length font_bin = 95%nat /\ Forall (fun g => length g = 30%nat /\ Forall (fun r => 0 <= r < 2 ^ 15) g) font_bin.
Proof.
  split; [reflexivity|]. apply Forall_forall. intros g Hg.
  assert (H : forallb (fun g => Nat.eqb (length g) 30 && forallb (fun r => (0 <=? r) && (r <? 2 ^ 15)) g) font_bin = true)
    by (vm_compute; reflexivity).
  rewrite forallb_forall in H. specialize (H g Hg). apply andb_prop in H as [H1 H2].
  split; [now apply Nat.eqb_eq|]. apply Forall_forall. intros r Hr. rewrite forallb_forall in H2.
  specialize (H2 r Hr). apply andb_prop in H2 as [H2 H3]. now rewrite Z.leb_le, Z.ltb_lt in *.
Qed.
