(* ===== verification/Graphic.v ===== *)
(** * graphic.c, font.c and the text screen of console.c

    The frame buffer is a stretch of kernel memory with four bytes per
    pixel.  font_render draws a character of the table in FontBin.v,
    graphic_scroll_up moves the picture, and graphic_putc keeps the cursor
    of a screen of 20 rows of 53 characters.  The theorems give the pixels
    after each of them and show that graphic_putc implements a text
    terminal: a grid of characters that scrolls. *)

From stdpp Require Import base numbers strings list.
From S2P Require Import Prelude Kstring FontBin.

Local Open Scope Z_scope.

Definition FONT_WIDTH : Z := 15.
Definition FONT_HEIGHT : Z := 30.
Definition CONSOLE_HORIZONTAL_MAX : Z := 53.
Definition CONSOLE_VERTICAL_MAX : Z := 20.
Definition BACKSPACE : Z := 256.

Record gpu : Type := mkgpu {
  pvram_addr : Z;
  vvram_addr : Z;
  vram_size : Z;
  horizontal_resolution : Z;
  vertical_resolution : Z;
  pixels_per_line : Z
}.

Record graphic_pixel : Type := mkpixel { blue : Z; green : Z; red : Z }.

Definition black_pixel : graphic_pixel := mkpixel 0 0 0.
Definition white_pixel : graphic_pixel := mkpixel 255 255 255.

Section graphic.
Variable g : gpu.

(** What is read for an index outside font_bin. *)
Variable stray : Z -> Z -> Z.

Definition graphic_draw_pixel (x y : Z) (p : graphic_pixel) (m : memory) : memory :=
  let pixel := u32 (vvram_addr g + 4 * (y * pixels_per_line g + x)) in
  store8 (u32 (pixel + 2)) (red p) (store8 (u32 (pixel + 1)) (green p) (store8 pixel (blue p) m)).

Definition graphic_scroll_up (height : Z) (m : memory) : memory :=
  let addr_diff := i32 (u32 (4 * pixels_per_line g * height)) in
  let m := memmove (vvram_addr g) (u32 (vvram_addr g + addr_diff)) (u32 (vram_size g - addr_diff)) m in
  memset (u32 (vvram_addr g + vram_size g - addr_diff)) 0 (u32 addr_diff) m.

(** font_bin[index][i] *)
Definition font_row (index i : Z) : Z :=
  if (0 <=? index) && (index <? 95) then nth (Z.to_nat i) (nth (Z.to_nat index) font_bin []) 0
  else stray index i.

(** The inner loop for [j = n - 1, ..., 0]. *)
Fixpoint render_row (n : nat) (x y i index : Z) (m : memory) : memory :=
  match n with
  | O => m
  | S n =>
      let j := Z.of_nat n in
      let bin := Z.land (font_row (index - 32) i) (Z.shiftl 1 j) in
      render_row n x y i index
        (graphic_draw_pixel (x + (14 - j)) (y + i)
           (if bin =? Z.shiftl 1 j then white_pixel else black_pixel) m)
  end.

(** The outer loop from [i], [n] rows to go. *)
Fixpoint render_rows (n : nat) (i x y index : Z) (m : memory) : memory :=
  match n with
  | O => m
  | S n => render_rows n (i + 1) x y index (render_row 15 x y i index m)
  end.

Definition font_render (x y index : Z) (m : memory) : memory := render_rows 30 0 x y index m.

Fixpoint font_render_string_loop (string : list Z) (i row : Z) (m : memory) : memory :=
  match string with
  | [] => m
  | c :: string =>
      if i <? 52 then font_render_string_loop string (i + 1) row (font_render (i * 15 + 2) (row * 30) c m)
      else m
  end.

Definition font_render_string (string : list Z) (row : Z) (m : memory) : memory :=
  font_render_string_loop string 0 row m.

(** graphic_putc: the cursor console_pos and the memory after it. *)
Definition graphic_putc (c : Z) (pos : Z) (m : memory) : Z * memory :=
  if c =? 10 then
    let pos := pos + (CONSOLE_HORIZONTAL_MAX - Z.rem pos CONSOLE_HORIZONTAL_MAX) in
    if CONSOLE_VERTICAL_MAX * CONSOLE_HORIZONTAL_MAX <=? pos
    then (pos - CONSOLE_HORIZONTAL_MAX, graphic_scroll_up 30 m)
    else (pos, m)
  else if c =? BACKSPACE then
    ((if 0 <? pos then pos - 1 else pos), m)
  else
    let '(pos, m) :=
      if CONSOLE_VERTICAL_MAX * CONSOLE_HORIZONTAL_MAX <=? pos
      then (pos - CONSOLE_HORIZONTAL_MAX, graphic_scroll_up 30 m) else (pos, m) in
    let x := Z.rem pos CONSOLE_HORIZONTAL_MAX * FONT_WIDTH + 2 in
    let y := Z.quot pos CONSOLE_HORIZONTAL_MAX * FONT_HEIGHT in
    (pos + 1, font_render x y c m).

(** ** Pixels *)

(** A frame of [h] lines inside the address space. *)
Record frame_ok (h : Z) : Prop := {
  fr_base : 0 <= vvram_addr g;
  fr_ppl : 0 < pixels_per_line g;
  fr_h : 0 <= h;
  fr_size : vram_size g = 4 * (pixels_per_line g * h);
  fr_small : vram_size g < 2147483648;
  fr_end : vvram_addr g + vram_size g < 4294967296
}.

Definition in_frame (h x y : Z) : Prop := 0 <= x < pixels_per_line g /\ 0 <= y < h.

Definition addr (x y : Z) : Z := vvram_addr g + 4 * (y * pixels_per_line g + x).
Definition pixel (m : memory) (x y : Z) : graphic_pixel :=
  mkpixel (m (addr x y)) (m (addr x y + 1)) (m (addr x y + 2)).

Section frame.
Context (h : Z) (Hf : frame_ok h).

Lemma index_inj x y x' y' : 0 <= x < pixels_per_line g -> 0 <= x' < pixels_per_line g ->
  y * pixels_per_line g + x = y' * pixels_per_line g + x' -> x = x' /\ y = y'.
Proof.
  intros Hx Hx' E. pose proof (fr_ppl h Hf) as Hp.
  assert (y = y').
  { apply (f_equal (fun z => z / pixels_per_line g)) in E.
    rewrite !Z.div_add_l, !Z.div_small in E by lia. lia. }
  subst. lia.
Qed.

Lemma addr_range x y : in_frame h x y -> vvram_addr g <= addr x y /\ addr x y + 4 <= vvram_addr g + vram_size g.
Proof.
  intros [[Hx0 Hx1] [Hy0 Hy1]]. destruct Hf as [H0 H1 H2 H3 H4 H5]. rewrite H3. unfold addr. nia.
Qed.

Definition outside_frame (a : Z) : Prop := ~ (vvram_addr g <= a < vvram_addr g + vram_size g).

Lemma draw_at x y p m a : in_frame h x y -> graphic_draw_pixel x y p m a =
  if a =? addr x y + 2 then u8 (red p) else if a =? addr x y + 1 then u8 (green p)
  else if a =? addr x y then u8 (blue p) else m a.
Proof.
  intros Hin. pose proof (addr_range x y Hin). destruct Hf. unfold graphic_draw_pixel. fold (addr x y).
  rewrite !u32_id by (unfold in_u32; rewrite ?u32_id by (unfold in_u32; lia); lia). done.
Qed.

Definition is_color (p : graphic_pixel) : Prop := is_byte (blue p) /\ is_byte (green p) /\ is_byte (red p).

Lemma draw_pixel x y p m x' y' : is_color p -> in_frame h x y -> in_frame h x' y' ->
  pixel (graphic_draw_pixel x y p m) x' y' = if decide (x' = x /\ y' = y) then p else pixel m x' y'.
Proof.
  intros (Hb & Hg & Hr) Hin Hin'. unfold pixel. rewrite !draw_at by done. case_decide as E.
  - destruct E as [-> ->]. rewrite !Z.eqb_refl.
    rewrite (proj2 (Z.eqb_neq (addr x y) (addr x y + 2))), (proj2 (Z.eqb_neq (addr x y) (addr x y + 1))),
      (proj2 (Z.eqb_neq (addr x y + 1) (addr x y + 2))) by lia.
    destruct p. cbn in *. unfold is_byte in *. by rewrite !u8_id by (unfold in_u8; lia).
  - assert (Hne : y * pixels_per_line g + x <> y' * pixels_per_line g + x').
    { intros Heq. apply E. apply index_inj in Heq; [|apply Hin|apply Hin']. destruct Heq; by subst. }
    unfold addr. f_equal; repeat (rewrite (proj2 (Z.eqb_neq _ _)) by lia); done.
Qed.

Lemma draw_outside x y p m a : in_frame h x y -> outside_frame a -> graphic_draw_pixel x y p m a = m a.
Proof.
  intros Hin Ho. rewrite draw_at by done. pose proof (addr_range x y Hin). unfold outside_frame in Ho.
  repeat (rewrite (proj2 (Z.eqb_neq _ _)) by lia). done.
Qed.

(** *** Rendering a character *)

(** The colour of column [k], row [i] of a glyph. *)
Definition glyph (index k i : Z) : graphic_pixel :=
  if Z.testbit (font_row (index - 32) i) (14 - k) then white_pixel else black_pixel.

Lemma land_mask v j : 0 <= j -> (Z.land v (Z.shiftl 1 j) =? Z.shiftl 1 j) = Z.testbit v j.
Proof.
  intros Hj. rewrite Z.shiftl_1_l. destruct (Z.testbit v j) eqn:E.
  - apply Z.eqb_eq. apply Z.bits_inj'. intros n Hn. rewrite Z.land_spec, Z.pow2_bits_eqb by done.
    destruct (Z.eqb_spec j n) as [->|]; [by rewrite E|by rewrite andb_false_r].
  - apply Z.eqb_neq. intros Heq. apply (f_equal (fun z => Z.testbit z j)) in Heq.
    by rewrite Z.land_spec, E, Z.pow2_bits_true in Heq.
Qed.

Lemma color_if (b : bool) : is_color (if b then white_pixel else black_pixel).
Proof. destruct b; repeat split; cbn; lia. Qed.

Lemma render_row_pixel n x y i index m x' y' : (n <= 15)%nat ->
  0 <= x -> x + 15 <= pixels_per_line g -> 0 <= y + i < h -> in_frame h x' y' ->
  pixel (render_row n x y i index m) x' y' =
    if decide (y' = y + i /\ x + 15 - Z.of_nat n <= x' < x + 15) then glyph index (x' - x) i else pixel m x' y'.
Proof.
  intros Hn Hx Hx1 Hy Hin. revert m. induction n as [|n IH]; intros m; cbn [render_row].
  { rewrite decide_False by lia. done. }
  rewrite IH by lia. rewrite land_mask by lia. rewrite draw_pixel; [|apply color_if|unfold in_frame; lia|done].
  unfold glyph. repeat case_decide; try lia; try done.
  assert (x' = x + (14 - Z.of_nat n)) as -> by lia.
  by replace (14 - (x + (14 - Z.of_nat n) - x)) with (Z.of_nat n) by lia.
Qed.

Lemma render_row_outside n x y i index m a : (n <= 15)%nat ->
  0 <= x -> x + 15 <= pixels_per_line g -> 0 <= y + i < h -> outside_frame a ->
  render_row n x y i index m a = m a.
Proof.
  intros Hn Hx Hx1 Hy Ho. revert m. induction n as [|n IH]; intros m; cbn [render_row]; [done|].
  rewrite IH by lia. apply draw_outside; [unfold in_frame; lia|done].
Qed.

Lemma render_rows_spec n i x y index m : 0 <= i ->
  0 <= x -> x + 15 <= pixels_per_line g -> 0 <= y -> y + i + Z.of_nat n <= h ->
  (forall x' y', in_frame h x' y' -> pixel (render_rows n i x y index m) x' y' =
    if decide (x <= x' < x + 15 /\ y + i <= y' < y + i + Z.of_nat n) then glyph index (x' - x) (y' - y)
    else pixel m x' y') /\
  (forall a, outside_frame a -> render_rows n i x y index m a = m a).
Proof.
  revert i m. induction n as [|n IH]; intros i m Hi Hx Hx1 Hy Hh; cbn [render_rows].
  { split; [|done]. intros x' y' _. rewrite decide_False by lia. done. }
  destruct (IH (i + 1) (render_row 15 x y i index m)) as [IHp IHo]; [lia..|]. split.
  - intros x' y' Hin. rewrite IHp, render_row_pixel by (done || lia). repeat case_decide; try lia; try done.
    assert (y' = y + i) as -> by lia. f_equal. lia.
  - intros a Ho. rewrite IHo by done. apply render_row_outside; (done || lia).
Qed.

Lemma font_render_pixels x y index m :
  0 <= x -> x + 15 <= pixels_per_line g -> 0 <= y -> y + 30 <= h ->
  (forall x' y', in_frame h x' y' -> pixel (font_render x y index m) x' y' =
    if decide (x <= x' < x + 15 /\ y <= y' < y + 30) then glyph index (x' - x) (y' - y) else pixel m x' y') /\
  (forall a, outside_frame a -> font_render x y index m a = m a).
Proof.
  intros Hx Hx1 Hy Hh. destruct (render_rows_spec 30 0 x y index m) as [Hp Ho]; [lia..|]. split; [|exact Ho].
  intros x' y' Hin. unfold font_render. rewrite Hp by done. rewrite Z.add_0_r. done.
Qed.

(** *** Scrolling *)

Lemma scroll_at d m a : byte_memory m -> 0 <= d <= h -> 
  graphic_scroll_up d m a =
    if decide (outside_frame a) then m a
    else let a' := a + 4 * (pixels_per_line g * d) in
         if decide (a' < vvram_addr g + vram_size g) then m a' else 0.
Proof.
  intros Hm Hd. destruct Hf as [H0 H1 H2 H3 H4 H5]. set (dd := 4 * (pixels_per_line g * d)) in *.
  assert (Hdd : 0 <= dd <= vram_size g) by (rewrite H3; unfold dd; nia).
  unfold graphic_scroll_up. replace (4 * pixels_per_line g * d) with dd by (unfold dd; lia).
  rewrite (u32_id dd) by (unfold in_u32; lia). rewrite (i32_id dd) by lia.
  rewrite !u32_id by (unfold in_u32; lia).
  rewrite memset_spec by (unfold no_wrap; lia). rewrite memmove_spec by (done || unfold no_wrap; lia).
  unfold in_range, outside_frame. cbn zeta.
  repeat case_decide; bool_cases; cbn [andb]; try lia; try done. f_equal. lia.
Qed.

Lemma scroll_moved d m a : byte_memory m -> 0 <= d <= h -> vvram_addr g <= a ->
  a + 4 * (pixels_per_line g * d) < vvram_addr g + vram_size g ->
  graphic_scroll_up d m a = m (a + 4 * (pixels_per_line g * d)).
Proof.
  intros Hm Hd H0 H1. rewrite scroll_at by done. pose proof (fr_ppl h Hf).
  rewrite decide_False by (unfold outside_frame; nia). cbn zeta. by rewrite decide_True.
Qed.

Lemma scroll_cleared d m a : byte_memory m -> 0 <= d <= h -> vvram_addr g <= a < vvram_addr g + vram_size g ->
  vvram_addr g + vram_size g <= a + 4 * (pixels_per_line g * d) -> graphic_scroll_up d m a = 0.
Proof.
  intros Hm Hd H0 H1. rewrite scroll_at by done. rewrite decide_False by (unfold outside_frame; lia). cbn zeta.
  by rewrite decide_False by lia.
Qed.

Lemma scroll_pixels d m : byte_memory m -> 0 <= d <= h ->
  (forall x y, in_frame h x y -> pixel (graphic_scroll_up d m) x y =
    if decide (y + d < h) then pixel m x (y + d) else black_pixel) /\
  (forall a, outside_frame a -> graphic_scroll_up d m a = m a).
Proof.
  intros Hm Hd. split; [|intros a Ho; rewrite scroll_at by done; by rewrite decide_True].
  intros x y Hin. pose proof (addr_range x y Hin) as Hr.
  assert (Ha : addr x y + 4 * (pixels_per_line g * d) = addr x (y + d)) by (unfold addr; lia).
  unfold pixel. case_decide as Hy.
  - assert (Hin' : in_frame h x (y + d)) by (unfold in_frame in *; lia). pose proof (addr_range _ _ Hin').
    f_equal; rewrite scroll_moved by (done || lia); f_equal; lia.
  - assert (vvram_addr g + vram_size g <= addr x (y + d)).
    { destruct Hf as [H0 H1 H2 H3 H4 H5]. rewrite H3. unfold addr. destruct Hin. nia. }
    unfold black_pixel. f_equal; apply scroll_cleared; (done || lia).
Qed.

Lemma scroll_bytes d m : byte_memory m -> 0 <= d <= h -> byte_memory (graphic_scroll_up d m).
Proof.
  intros Hm Hd a. rewrite scroll_at by done. cbn zeta. repeat case_decide; try apply Hm. unfold is_byte. lia.
Qed.

Lemma render_row_bytes n x y i index m : byte_memory m -> byte_memory (render_row n x y i index m).
Proof.
  revert m. induction n as [|n IH]; intros m Hm; cbn [render_row]; [done|]. apply IH.
  unfold graphic_draw_pixel. by repeat apply byte_memory_store8.
Qed.

Lemma render_rows_bytes n i x y index m : byte_memory m -> byte_memory (render_rows n i x y index m).
Proof.
  revert i m. induction n as [|n IH]; intros i m Hm; cbn [render_rows]; [done|]. apply IH. by apply render_row_bytes.
Qed.

Lemma font_render_bytes x y index m : byte_memory m -> byte_memory (font_render x y index m).
Proof. apply render_rows_bytes. Qed.

End frame.

(** ** The text terminal

    A grid of 20 rows of 53 cells, [None] when the contents of a cell are
    not known, with a cursor that may stand after the last cell. *)
Record term : Type := mkterm { cells : Z -> Z -> option Z; cursor : Z }.

Definition scrolled (cs : Z -> Z -> option Z) : Z -> Z -> option Z :=
  fun r c => if decide (r + 1 < 20) then cs (r + 1) c else Some 32.

(** A character the font has shows as itself. *)
Definition shown (c : Z) : option Z := if decide (32 <= c < 127) then Some c else None.

Definition set_cell (cs : Z -> Z -> option Z) (pos c : Z) : Z -> Z -> option Z :=
  fun r k => if decide (r = pos / 53 /\ k = pos mod 53) then shown c else cs r k.

Definition term_putc (c : Z) (t : term) : term :=
  if decide (c = 10) then
    let pos := cursor t / 53 * 53 + 53 in
    if decide (1060 <= pos) then mkterm (scrolled (cells t)) (pos - 53) else mkterm (cells t) pos
  else if decide (c = BACKSPACE) then mkterm (cells t) (Z.max 0 (cursor t - 1))
  else
    let t := if decide (1060 <= cursor t) then mkterm (scrolled (cells t)) (cursor t - 53) else t in
    mkterm (set_cell (cells t) (cursor t) c) (cursor t + 1).

(** The pixels show the cells. *)
Definition shows_cells (m : memory) (cs : Z -> Z -> option Z) : Prop :=
  forall r c ch, 0 <= r < 20 -> 0 <= c < 53 -> cs r c = Some ch ->
  forall k i, 0 <= k < 15 -> 0 <= i < 30 -> pixel m (c * 15 + 2 + k) (r * 30 + i) = glyph ch k i.

Record shows (m : memory) (pos : Z) (t : term) : Prop := {
  sh_bytes : byte_memory m;
  sh_pos : pos = cursor t;
  sh_range : 0 <= cursor t <= 1060;
  sh_cells : shows_cells m (cells t)
}.

Section terminal.
Hypothesis Hf : frame_ok 600.
Hypothesis Hw : 797 <= pixels_per_line g.

Lemma space_glyph k i : glyph 32 k i = black_pixel.
Proof.
  unfold glyph, font_row. change ((0 <=? 32 - 32) && (32 - 32 <? 95)) with true. cbn match.
  assert (nth (Z.to_nat (32 - 32)) font_bin [] = replicate 30 0) as -> by reflexivity.
  assert (nth (Z.to_nat i) (replicate 30 0) 0 = 0) as ->; [|by rewrite Z.testbit_0_l].
  change (replicate 30 0) with (List.repeat 0 30). apply nth_repeat.
Qed.

Lemma cell_in_frame r c k i : 0 <= r < 20 -> 0 <= c < 53 -> 0 <= k < 15 -> 0 <= i < 30 ->
  in_frame 600 (c * 15 + 2 + k) (r * 30 + i).
Proof. unfold in_frame. lia. Qed.

Lemma scroll_cells m cs : byte_memory m -> shows_cells m cs -> shows_cells (graphic_scroll_up 30 m) (scrolled cs).
Proof.
  intros Hm Hs r c ch Hr Hc Hch k i Hk Hi.
  destruct (scroll_pixels 600 Hf 30 m Hm ltac:(lia)) as [Hp _]. rewrite Hp by (by apply cell_in_frame).
  unfold scrolled in Hch. case_decide.
  - rewrite decide_True by lia. rewrite <- (Hs (r + 1) c ch) by (done || lia). f_equal. lia.
  - injection Hch as <-. rewrite decide_False by lia. by rewrite space_glyph.
Qed.

Lemma put_cells m cs pos ch : shows_cells m cs -> 0 <= pos < 1060 ->
  shows_cells (font_render (pos mod 53 * 15 + 2) (pos / 53 * 30) ch m) (set_cell cs pos ch).
Proof.
  intros Hs Hpos r c ch' Hr Hc Hch k i Hk Hi.
  assert (Hq : 0 <= pos / 53 < 20 /\ 0 <= pos mod 53 < 53) by (Z.div_mod_to_equations; lia).
  destruct (font_render_pixels 600 Hf (pos mod 53 * 15 + 2) (pos / 53 * 30) ch m) as [Hp _]; [lia..|].
  rewrite Hp by (by apply cell_in_frame). unfold set_cell in Hch. case_decide as Hcell.
  - destruct Hcell as [-> ->]. rewrite decide_True by lia. unfold shown in Hch. case_decide; [|done].
    injection Hch as <-. f_equal; lia.
  - rewrite decide_False by lia. by apply Hs.
Qed.

(** One step: the new state shows the new terminal and memory outside the
    frame is unchanged. *)
Definition put_ok (m : memory) (r : Z * memory) (t : term) : Prop :=
  shows r.2 r.1 t /\ forall a, outside_frame a -> r.2 a = m a.

Lemma scroll_ok m t pos pos' : shows m pos t -> 0 <= pos' <= 1060 ->
  put_ok m (pos', graphic_scroll_up 30 m) (mkterm (scrolled (cells t)) pos').
Proof.
  intros [Hm _ _ Hs] Hp. split; [|by apply (scroll_pixels 600)]. split; cbn [cells cursor fst snd]; [|done|done|by apply scroll_cells].
  apply (scroll_bytes 600); [done..|lia].
Qed.

Lemma render_ok m t pos ch : shows m pos t -> pos < 1060 ->
  put_ok m (pos + 1, font_render (pos mod 53 * 15 + 2) (pos / 53 * 30) ch m)
    (mkterm (set_cell (cells t) (cursor t) ch) (cursor t + 1)).
Proof.
  intros [Hm -> Hr Hs] Hp.
  assert (Hq : 0 <= cursor t / 53 < 20 /\ 0 <= cursor t mod 53 < 53) by (Z.div_mod_to_equations; lia).
  split; [|apply (font_render_pixels 600); try done; lia].
  split; cbn [cells cursor fst snd]; [by apply font_render_bytes|done|lia|apply put_cells; [done|lia]].
Qed.

Lemma graphic_putc_step ch pos m t : shows m pos t -> put_ok m (graphic_putc ch pos m) (term_putc ch t).
Proof.
  intros Hsh. pose proof Hsh as [Hm -> Hr Hs].
  unfold graphic_putc, term_putc, CONSOLE_HORIZONTAL_MAX, CONSOLE_VERTICAL_MAX, FONT_WIDTH, FONT_HEIGHT.
  change (20 * 53) with 1060. rewrite Z.rem_mod_nonneg by lia.
  destruct (Z.eqb_spec ch 10) as [->|Hnl]; [rewrite decide_True by done|rewrite decide_False by done].
  { replace (cursor t + (53 - cursor t mod 53)) with (cursor t / 53 * 53 + 53) by (Z.div_mod_to_equations; lia).
    cbn zeta. destruct (Z.leb_spec 1060 (cursor t / 53 * 53 + 53)).
    - rewrite decide_True by done. eapply scroll_ok; [done|]. Z.div_mod_to_equations; lia.
    - rewrite decide_False by lia. split; [split; cbn; try done; Z.div_mod_to_equations; lia|done]. }
  destruct (Z.eqb_spec ch BACKSPACE) as [->|Hbs]; [rewrite decide_True by done|rewrite decide_False by done].
  { replace (if 0 <? cursor t then cursor t - 1 else cursor t) with (Z.max 0 (cursor t - 1))
      by (destruct (Z.ltb_spec 0 (cursor t)); lia).
    split; [split; cbn; try done; lia|done]. }
  destruct (Z.leb_spec 1060 (cursor t)).
  - rewrite decide_True by done. destruct (scroll_ok m t _ (cursor t - 53) Hsh ltac:(lia)) as [Hs1 Ho1].
    rewrite Z.rem_mod_nonneg, Z.quot_div_nonneg by lia.
    destruct (render_ok _ _ _ ch Hs1 ltac:(cbn; lia)) as [Hs2 Ho2]. split; [exact Hs2|].
    intros a Ha. etransitivity; [by apply Ho2|by apply Ho1].
  - rewrite decide_False by lia. rewrite Z.rem_mod_nonneg, Z.quot_div_nonneg by lia. apply render_ok; [done|lia].
Qed.

(** Printing a string. *)
Definition putc_all (s : list Z) (pos : Z) (m : memory) : Z * memory :=
  foldl (fun st c => graphic_putc c st.1 st.2) (pos, m) s.

(** C12. The screen is a text terminal: when the pixels of an 800 by 600 (or
    wider) frame show the cells of a terminal, then after any sequence of
    characters given to graphic_putc they show the terminal that results
    from those characters (printable characters drawn glyph by glyph at
    their cell, newline, backspace, and scrolling with the new row blank);
    the cursor stays within 0..1060, and no byte outside the frame buffer
    is written. *)
Theorem graphic_putc_refines s pos m t : shows m pos t ->
  let r := putc_all s pos m in
  shows r.2 r.1 (foldl (fun t c => term_putc c t) t s) /\ (forall a, outside_frame a -> r.2 a = m a).
Proof.
  unfold putc_all. revert pos m t. induction s as [|ch s IH]; intros pos m t Hs; cbn [foldl]; [done|].
  destruct (graphic_putc_step ch pos m t Hs) as [Hs1 Ho1]. cbn zeta in *. cbn [fst snd].
  destruct (graphic_putc ch pos m) as [pos1 m1]. destruct (IH pos1 m1 _ Hs1) as [Hs2 Ho2].
  split; [exact Hs2|]. intros a Ha. rewrite Ho2 by done. by apply Ho1.
Qed.

(** A control character other than newline is drawn from memory outside
    the font table: what its cell shows is not determined by the program. *)
Theorem control_char_reads_outside_font c k i : 0 <= c < 32 ->
  glyph c k i = if Z.testbit (stray (c - 32) i) (14 - k) then white_pixel else black_pixel.
Proof.
  intros Hc. unfold glyph, font_row. rewrite (proj2 (Z.leb_gt 0 (c - 32))) by lia. done.
Qed.

End terminal.
End graphic.

(** An 800 by 600 frame whose cells are not known yet, as at boot. *)
Definition gpu0 : gpu := mkgpu 3221225472 4259446784 1920000 800 600 800.

Lemma graphic_putc_refines_witness :
  let r := putc_all gpu0 (fun _ _ => 0) [104; 105; 10] 1060 (fun _ => 0) in
  shows gpu0 (fun _ _ => 0) r.2 r.1
    (foldl (fun t c => term_putc c t) (mkterm (fun _ _ => None) 1060) [104; 105; 10]) /\
  (forall a, outside_frame gpu0 a -> r.2 a = 0).
Proof.
  apply (graphic_putc_refines gpu0 (fun _ _ => 0) ltac:(split; cbn; lia) ltac:(cbn; lia) [104; 105; 10] 1060
    (fun _ => 0) (mkterm (fun _ _ => None) 1060)).
  split; cbn; [intros x; unfold is_byte; lia|done|lia|done].
Defined.
