(* ===== verification/Console.v ===== *)
(** * console.c

    Formatted output to the console, the line discipline that edits the
    characters typed until a line is complete, and the read and write
    functions of the console device.  consoleintr is shown to implement a
    queue of committed characters and a line being edited; consoleread to
    deliver the next line of that queue. *)

From stdpp Require Import base numbers strings gmap list.
From S2P Require Import Prelude Kmonad Kstring Digits Ring Locks Block Log Fs Graphic.

Local Open Scope Z_scope.

Definition INPUT_BUF : Z := 128.

(** Control-x. *)
Definition C (x : Z) : Z := x - 64.
Notation CtrlP := 16 (only parsing).
Notation CtrlU := 21 (only parsing).
Notation CtrlH := 8 (only parsing).
Notation CtrlD := 4 (only parsing).
Notation NL := 10 (only parsing).

Record console : Type := mkconsole {
  panicked : bool;
  locking : bool;            (* cons.locking *)
  ibuf : bytes;              (* input.buf[INPUT_BUF] *)
  ir : Z;                    (* input.r, read index *)
  iw : Z;                    (* input.w, write index *)
  ie : Z;                    (* input.e, edit index *)
  console_pos : Z;
  cmem : memory;             (* kernel memory, with the frame buffer *)
  serial : list Z            (* bytes sent to the serial port *)
}.

Definition set_input (b : bytes) (r w e : Z) (s : console) : console :=
  mkconsole (panicked s) (locking s) b r w e (console_pos s) (cmem s) (serial s).
Definition set_locking (l : bool) (s : console) : console :=
  mkconsole (panicked s) l (ibuf s) (ir s) (iw s) (ie s) (console_pos s) (cmem s) (serial s).
Definition set_panicked (p : bool) (s : console) : console :=
  mkconsole p (locking s) (ibuf s) (ir s) (iw s) (ie s) (console_pos s) (cmem s) (serial s).

Section console.
Variable g : gpu.
Variable stray : Z -> Z -> Z.
Variable uart : bool.                (* is there a serial port *)
(** The NUL-terminated string at an address. *)
Variable string_at : Z -> bytes.

(** uartputc waits for the port before it writes the byte. *)
Definition uartputc (c : Z) (out : list Z) : list Z := if uart then out ++ [u8 c] else out.

Definition emit (c : Z) (s : console) : console :=
  let out := if c =? BACKSPACE then uartputc 8 (uartputc 32 (uartputc 8 (serial s))) else uartputc c (serial s) in
  let '(pos, m) := graphic_putc g stray c (console_pos s) (cmem s) in
  mkconsole (panicked s) (locking s) (ibuf s) (ir s) (iw s) (ie s) pos m out.

(** A CPU that prints after a panic stops there. *)
Definition consputc (c : Z) : K console unit :=
  s ← get;
  if panicked s then panic "panicked" else modify (emit c).

Fixpoint puts (cs : list Z) : K console unit :=
  match cs with
  | [] => mret tt
  | c :: cs => consputc c;; puts cs
  end.

(** *** printint and cprintf *)

Definition digits : list Z := [48; 49; 50; 51; 52; 53; 54; 55; 56; 57; 97; 98; 99; 100; 101; 102].

(** The do loop of printint: the digits stored in buf, least significant
    first. *)
Definition printint_loop (x base : Z) : list Z := digit_loop digits 32 x base.

(** buf when the characters are printed from its end. *)
Definition printint_buf (xx base : Z) (sign : bool) : list Z :=
  let neg := sign && (xx <? 0) in
  let x := if neg then u32 (- xx) else u32 xx in
  printint_loop x base ++ (if neg then [45] else []).

Definition printint (xx base : Z) (sign : bool) : K console unit := puts (rev (printint_buf xx base sign)).

Definition null_string : list Z := [40; 110; 117; 108; 108; 41].

(** The loop of cprintf; [argp] are the words after fmt on the stack, [k]
    the next one. *)
Fixpoint cprintf_loop (fmt : bytes) (argp : nat -> Z) (k : nat) : K console unit :=
  match fmt with
  | [] => mret tt
  | c :: fmt =>
      if negb (c =? 37) then consputc c;; cprintf_loop fmt argp k
      else match fmt with
           | [] => mret tt
           | c :: fmt =>
               if c =? 100 then printint (i32 (argp k)) 10 true;; cprintf_loop fmt argp (S k)
               else if (c =? 120) || (c =? 112) then printint (i32 (argp k)) 16 false;; cprintf_loop fmt argp (S k)
               else if c =? 115 then
                 puts (if argp k =? 0 then null_string else string_at (argp k));; cprintf_loop fmt argp (S k)
               else if c =? 37 then consputc 37;; cprintf_loop fmt argp k
               else consputc 37;; consputc c;; cprintf_loop fmt argp k
           end
  end.

Definition cprintf (fmt : bytes) (argp : nat -> Z) : K console unit :=
  l ← gets locking;
  when l (acquire L_cons);;
  cprintf_loop fmt argp 0;;
  when l (release L_cons).

(** panic: what is printed before the CPU stops; the message is the format,
    [stack] the words after it. *)
Definition panic_output (lapicid : Z) (msg : bytes) (stack : nat -> Z) (pcs : list Z) : K console unit :=
  modify (set_locking false);;
  cprintf [108; 97; 112; 105; 99; 105; 100; 32; 37; 100; 58; 32; 112; 97; 110; 105; 99; 58; 32] (fun _ => lapicid);;
  cprintf msg stack;;
  cprintf [NL] stack;;
  foldr (fun pc k => cprintf [32; 37; 112] (fun _ => pc);; k) (mret tt) (take 10 pcs);;
  modify (set_panicked true).

(** *** The line discipline *)

(** [input.buf[x % INPUT_BUF]] *)
Definition in_char (x : Z) (s : console) : Z := nth_byte (ibuf s) (Z.to_nat (x mod INPUT_BUF)).

(** The loop for ^U; an edited line has at most INPUT_BUF characters. *)
Fixpoint kill_line (fuel : nat) : K console unit :=
  match fuel with
  | O => mret tt
  | S fuel =>
      s ← get;
      if negb (ie s =? iw s) && negb (in_char (u32 (ie s - 1)) s =? NL) then
        modify (fun s => set_input (ibuf s) (ir s) (iw s) (u32 (ie s - 1)) s);;
        consputc BACKSPACE;;
        kill_line fuel
      else mret tt
  end.

(** One turn of the loop of consoleintr; true for ^P. *)
Definition intr_char (c : Z) : K console bool :=
  s ← get;
  if c =? CtrlP then mret true
  else if c =? CtrlU then kill_line 129;; mret false
  else if (c =? CtrlH) || (c =? 127) then
    (if negb (ie s =? iw s) then
       modify (fun s => set_input (ibuf s) (ir s) (iw s) (u32 (ie s - 1)) s);;
       consputc BACKSPACE
     else mret tt);;
    mret false
  else
    (if negb (c =? 0) && (u32 (ie s - ir s) <? INPUT_BUF) then
       let c := if c =? 13 then NL else c in
       modify (fun s => set_input (<[Z.to_nat (ie s mod INPUT_BUF) := u8 c]> (ibuf s)) (ir s) (iw s) (u32 (ie s + 1)) s);;
       consputc c;;
       s ← get;
       if (c =? NL) || (c =? CtrlD) || (ie s =? u32 (ir s + INPUT_BUF)) then
         modify (fun s => set_input (ibuf s) (ir s) (ie s) (ie s) s);;
         wakeup C_input
       else mret tt
     else mret tt);;
    mret false.

Fixpoint intr_chars (cs : list Z) : K console bool :=
  match cs with
  | [] => mret false
  | c :: cs => d ← intr_char c; d' ← intr_chars cs; mret (d || d')
  end.

(** consoleintr; [cs] are the characters getc returns before it returns a
    negative value.  True when the caller goes on with procdump(). *)
Definition consoleintr (cs : list Z) : K console bool :=
  acquire L_cons;;
  d ← intr_chars cs;
  release L_cons;;
  mret d.

(** *** Reading *)

(** The loop of consoleread with [n] bytes to go, up to its end or to the
    next sleep on &input.r ([inl] with the bytes stored at dst so far).  A
    negative count reads nothing and returns 0. *)
Fixpoint consoleread_loop (killed : bool) (target : Z) (n : nat) (dst : bytes) : K console (bytes + Z * bytes) :=
  match n with
  | O => mret (inr (Z.max target 0, dst))
  | S n' =>
      s ← get;
      if ir s =? iw s then
        if killed then mret (inr (-1, dst)) else mret (inl dst)
      else
        let c := in_char (ir s) s in
        modify (fun s => set_input (ibuf s) (u32 (ir s + 1)) (iw s) (ie s) s);;
        if c =? CtrlD then
          when (Z.of_nat n <? target) (modify (fun s => set_input (ibuf s) (u32 (ir s - 1)) (iw s) (ie s) s));;
          mret (inr (target - Z.of_nat n, dst))
        else if c =? NL then mret (inr (target - Z.of_nat n', dst ++ [c]))
        else consoleread_loop killed target n' (dst ++ [c])
  end.

(** A run under the console lock; sleep releases it. *)
Definition consoleread_run (killed : bool) (target : Z) (dst : bytes) : K console (bytes + Z * bytes) :=
  acquire L_cons;;
  r ← consoleread_loop killed target (Z.to_nat target - length dst) dst;
  release L_cons;;
  mret r.

Definition consoleinit : K console unit :=
  modify (set_panicked false);;
  modify (fun s => foldl (fun s c =>
    let '(pos, m) := graphic_putc g stray c (console_pos s) (cmem s) in
    mkconsole (panicked s) (locking s) (ibuf s) (ir s) (iw s) (ie s) pos m (serial s)) s
    [83; 116; 97; 114; 116; 105; 110; 103; 32; 88; 86; 54; 95; 85; 69; 70; 73; 46; 46; 46; 10]);;
  modify (set_locking true).

(** *** The device functions, on a machine that has a file system and a
    console *)
Section device.
Context {M S : Type} `{BlockOps S} (fl : lens M (fs S)) (cl : lens M console).

(** The first run of consoleread, and a run of a woken reader. *)
Definition consoleread_end (ip : nat) (r : bytes + Z * bytes) : K M (bytes + Z * bytes) :=
  match r with
  | inl dst => mret (inl dst)
  | inr v => zoom fl (ilock ip);; mret (inr v)
  end.

Definition consoleread (killed : bool) (ip : nat) (n : Z) : K M (bytes + Z * bytes) :=
  zoom fl (iunlock ip);;
  r ← zoom cl (consoleread_run killed n []);
  consoleread_end ip r.

Definition consoleread_resume (killed : bool) (ip : nat) (n : Z) (dst : bytes) : K M (bytes + Z * bytes) :=
  r ← zoom cl (consoleread_run killed n dst);
  consoleread_end ip r.

Definition consolewrite (ip : nat) (buf : bytes) (n : Z) : K M Z :=
  zoom fl (iunlock ip);;
  zoom cl (acquire L_cons;; puts (take (Z.to_nat n) buf);; release L_cons);;
  zoom fl (ilock ip);;
  mret n.

End device.
End console.
