(* ===== verification/ConsoleProof.v ===== *)
(** * The console's promises

    The input ring holds a queue of committed characters followed by the
    line being edited; [intr_ref] and [read_ref] are the line discipline
    and the reader on those, and consoleintr and consoleread implement
    them across the wrap-around of the counters. *)

From stdpp Require Import base numbers strings gmap list.
From S2P Require Import Prelude Kmonad Kstring Digits Ring Locks Block Log Fs Graphic Console.

Local Open Scope Z_scope.

Notation ring := (Ring.ring INPUT_BUF).
Notation slot := (Ring.slot INPUT_BUF).

Lemma INPUT_BUF_div : (INPUT_BUF | 4294967296).
Proof. by exists 33554432. Qed.

(** The queue of committed characters and the line being edited. *)
Record line : Type := mkline { queue : bytes; edit : bytes }.

(** A carriage return counts as a newline. *)
Definition typed (c : Z) : Z := if decide (c = 13) then NL else c.

Inductive key := Ignored | Kill | Erase | Complete | Insert.

(** What a character does. *)
Definition key_of (c : Z) (l : line) : key :=
  if decide (c = CtrlP) then Ignored
  else if decide (c = CtrlU) then Kill
  else if decide (c = CtrlH \/ c = 127) then Erase
  else if decide (c <> 0 /\ (length (queue l) + length (edit l) < 128)%nat) then
    if decide (typed c = NL \/ typed c = CtrlD \/ (length (queue l) + length (edit l) = 127)%nat)
    then Complete else Insert
  else Ignored.

Definition intr_ref (c : Z) (l : line) : line :=
  match key_of c l with
  | Ignored => l
  | Kill => mkline (queue l) []
  | Erase => mkline (queue l) (take (pred (length (edit l))) (edit l))
  | Complete => mkline (queue l ++ edit l ++ [typed c]) []
  | Insert => mkline (queue l) (edit l ++ [typed c])
  end.

(** What is echoed. *)
Definition echo (c : Z) (l : line) : list Z :=
  match key_of c l with
  | Ignored => []
  | Kill => replicate (length (edit l)) BACKSPACE
  | Erase => match edit l with [] => [] | _ => [BACKSPACE] end
  | Complete | Insert => [typed c]
  end.

(** Readers are woken when a line is complete. *)
Definition wakes (c : Z) (l : line) : list chan := match key_of c l with Complete => [C_input] | _ => [] end.

Record holds (s : console) (l : line) : Prop := {
  h_buf : length (ibuf s) = 128%nat;
  h_r : in_u32 (ir s);
  h_w : iw s = u32 (ir s + Z.of_nat (length (queue l)));
  h_e : ie s = u32 (iw s + Z.of_nat (length (edit l)));
  h_queue : queue l = ring (ibuf s) (ir s) (length (queue l));
  h_edit : edit l = ring (ibuf s) (iw s) (length (edit l));
  h_len : (length (queue l) + length (edit l) <= 128)%nat;
  h_nl : Forall (fun c => c <> NL) (edit l);
  h_run : panicked s = false
}.

(** The same console but for the characters printed. *)
Definition same_input (s s' : console) : Prop :=
  panicked s' = panicked s /\ ibuf s' = ibuf s /\ ir s' = ir s /\ iw s' = iw s /\ ie s' = ie s.

Lemma holds_same s s' l : same_input s s' -> holds s l -> holds s' l.
Proof. intros (E1 & E2 & E3 & E4 & E5) []. split; rewrite ?E1, ?E2, ?E3, ?E4, ?E5; done. Qed.

(** The screen, the cursor and the serial port after printing. *)
Definition device (s : console) : Z * memory * list Z := (console_pos s, cmem s, serial s).

(** The counters. *)
Lemma count_edit s l : holds s l -> u32 (ie s - ir s) = Z.of_nat (length (queue l) + length (edit l)).
Proof.
  intros []. rewrite h_e0, h_w0. unfold u32, in_u32 in *. rewrite Nat2Z.inj_add. Z.div_mod_to_equations. lia.
Qed.

Lemma edit_empty s l : holds s l -> ie s = iw s <-> edit l = [].
Proof.
  intros H. pose proof H as []. pose proof (u32_bound (ir s + Z.of_nat (length (queue l)))) as Hb. rewrite <- h_w0 in Hb.
  split.
  - intros E. apply length_zero_iff_nil. rewrite h_e0 in E. unfold u32, in_u32 in *. Z.div_mod_to_equations. lia.
  - intros E. rewrite h_e0, E. cbn. rewrite Z.add_0_r. by apply u32_id.
Qed.

Lemma queue_empty s l : holds s l -> ir s = iw s <-> queue l = [].
Proof.
  intros []. split.
  - intros E. apply length_zero_iff_nil. rewrite h_w0 in E. unfold u32, in_u32 in *. Z.div_mod_to_equations. lia.
  - intros E. rewrite h_w0, E. cbn. rewrite Z.add_0_r. symmetry. by apply u32_id.
Qed.

(** *** Editing *)

(** Taking back the last character. *)
Lemma drop_last s q e c : holds s (mkline q (e ++ [c])) ->
  holds (set_input (ibuf s) (ir s) (iw s) (u32 (ie s - 1)) s) (mkline q e) /\
  in_char (u32 (ie s - 1)) s = c.
Proof.
  intros [H1 H2 H3 H4 H5 H6 H7 H8 H9]. cbn [queue edit] in *. rewrite length_app in *. cbn [length] in *.
  rewrite Nat.add_1_r, ring_snoc in H6. apply app_inj_tail in H6 as [H6 Hc].
  assert (Hie : u32 (ie s - 1) = u32 (iw s + Z.of_nat (length e))).
  { rewrite H4. unfold u32. rewrite Zminus_mod_idemp_l. f_equal. lia. }
  split.
  - split; cbn; try done; try lia. by apply Forall_app in H8 as [? _].
  - unfold in_char. rewrite Hie. fold (slot (u32 (iw s + Z.of_nat (length e)))).
    rewrite (slot_u32 _ INPUT_BUF_div). done.
Qed.

Lemma list_snoc_inv {A} (e : list A) : e = [] \/ exists e' c, e = e' ++ [c].
Proof. destruct e using rev_ind; [by left|right; eauto]. Qed.

(** Adding a character to the line, and completing it. *)
Lemma add_char s q e c : holds s (mkline q e) -> (length q + length e < 128)%nat -> is_byte c ->
  let s' := set_input (<[Z.to_nat (ie s mod INPUT_BUF) := u8 c]> (ibuf s)) (ir s) (iw s) (u32 (ie s + 1)) s in
  (c <> NL -> holds s' (mkline q (e ++ [c]))) /\
  holds (set_input (ibuf s') (ir s') (ie s') (ie s') s') (mkline (q ++ e ++ [c]) []).
Proof.
  intros Hs Hlt Hc. pose proof (count_edit s _ Hs) as Hcnt. destruct Hs as [H1 H2 H3 H4 H5 H6 H7 H8 H9].
  cbn [queue edit] in *. cbn zeta. rewrite (u8_id c) by (unfold is_byte, in_u8 in *; lia).
  fold (slot (ie s)). set (b := <[slot (ie s) := c]> (ibuf s)).
  assert (Hse : slot (ie s) = slot (ir s + Z.of_nat (length q + length e))).
  { rewrite H4, H3, (slot_u32 _ INPUT_BUF_div), (slot_u32_add _ INPUT_BUF_div). f_equal. lia. }
  assert (Hbs : nth_byte b (slot (ie s)) = c).
  { unfold nth_byte, b. rewrite list_lookup_insert_eq; [done|]. rewrite H1. by apply (slot_lt INPUT_BUF). }
  assert (Hq : q = ring b (ir s) (length q)).
  { unfold b. rewrite Hse, ring_insert by (unfold INPUT_BUF; lia). done. }
  assert (He : e ++ [c] = ring b (iw s) (length e + 1)).
  { rewrite Nat.add_1_r, ring_snoc. f_equal.
    - rewrite H6 at 1. rewrite H3, !(ring_u32 _ INPUT_BUF_div). unfold b. rewrite Hse, (ring_insert INPUT_BUF eq_refl); [done|].
      unfold INPUT_BUF. lia.
    - rewrite <- (slot_u32 _ INPUT_BUF_div), <- H4. by rewrite Hbs. }
  assert (Hie : u32 (ie s + 1) = u32 (iw s + Z.of_nat (length (e ++ [c])))).
  { rewrite H4, length_app. cbn [length]. unfold u32. rewrite Z.add_mod_idemp_l by done. f_equal. lia. }
  assert (Hlb : length b = 128%nat) by (unfold b; by rewrite length_insert).
  split.
  - intros Hnl. split; cbn [set_input ibuf ir iw ie queue edit panicked]; try done.
    + rewrite length_app. done.
    + rewrite length_app. cbn. lia.
    + by apply Forall_app, conj, Forall_singleton.
  - assert (Hl : length (q ++ e ++ [c]) = (length q + (length e + 1))%nat) by (by rewrite !length_app).
    split; cbn [set_input ibuf ir iw ie queue edit panicked]; try done.
    + rewrite Hie, Hl, H3, length_app. cbn [length]. unfold u32. rewrite Z.add_mod_idemp_l by done. f_equal. lia.
    + cbn. rewrite Z.add_0_r. symmetry. apply u32_id, u32_bound.
    + rewrite Hl, ring_app. rewrite <- Hq. f_equal. rewrite He, H3, (ring_u32 _ INPUT_BUF_div). done.
    + rewrite Hl. cbn. lia.
Qed.


(** *** Reading *)

(** Taking the next committed character. *)
Lemma take_char s c q e : holds s (mkline (c :: q) e) ->
  in_char (ir s) s = c /\ holds (set_input (ibuf s) (u32 (ir s + 1)) (iw s) (ie s) s) (mkline q e) /\
  u32 (u32 (ir s + 1) - 1) = ir s.
Proof.
  intros [H1 H2 H3 H4 H5 H6 H7 H8 H9]. cbn [queue edit length Ring.ring] in *. injection H5 as Hc Hq.
  split; [done|]. split.
  - split; cbn [set_input ibuf ir iw ie queue edit panicked]; try done; [apply u32_bound| | |lia].
    + rewrite H3. unfold u32. rewrite Z.add_mod_idemp_l by done. f_equal. lia.
    + by rewrite (ring_u32 _ INPUT_BUF_div).
  - unfold u32, in_u32 in *. rewrite Zminus_mod_idemp_l. replace (ir s + 1 - 1) with (ir s) by lia. by apply Z.mod_small.
Qed.

(** The bytes a read of at most [n] takes from the queue: up to a newline
    or a ^D. *)
Fixpoint chunk (n : nat) (q : bytes) : bytes :=
  match n, q with
  | S n, c :: q => if decide (c = CtrlD) then [] else if decide (c = NL) then [c] else c :: chunk n q
  | _, _ => []
  end.

(** The outcome of a read of [n] more bytes with [dst] read before:
    asleep, or a value; and the queue left. *)
Definition read_ref (killed : bool) (target : Z) (n : nat) (q dst : bytes) : (bytes + Z * bytes) * bytes :=
  let got := chunk n q in
  let rest := drop (length got) q in
  let all := dst ++ got in
  if decide (length got < n /\ last got <> Some NL /\ rest = [])%nat then
    if killed then (inr (-1, all), rest) else (inl all, rest)
  else (inr (Z.of_nat (length all), all),
        if decide (length got < n /\ last got <> Some NL /\ all = [])%nat then tail rest else rest).

Lemma read_ref_eof killed target n q dst : read_ref killed target (S n) (CtrlD :: q) dst =
  (inr (Z.of_nat (length dst), dst), if decide (dst = []) then q else CtrlD :: q).
Proof.
  unfold read_ref. assert (chunk (S n) (CtrlD :: q) = []) as -> by reflexivity.
  cbn [length drop last tail]. rewrite app_nil_r, decide_False by naive_solver. f_equal.
  destruct (decide (dst = [])) as [->|]; [by rewrite decide_True by (split_and!; [lia|done|done])|].
  by rewrite decide_False by naive_solver.
Qed.

Lemma read_ref_nl killed target n q dst : read_ref killed target (S n) (NL :: q) dst =
  (inr (Z.of_nat (length dst) + 1, dst ++ [NL]), q).
Proof.
  unfold read_ref. assert (chunk (S n) (NL :: q) = [NL]) as -> by reflexivity.
  cbn [length drop last tail]. rewrite !decide_False by naive_solver. f_equal. rewrite length_app. cbn. do 2 f_equal. lia.
Qed.

Lemma read_ref_char killed target n c q dst : c <> CtrlD -> c <> NL ->
  read_ref killed target (S n) (c :: q) dst = read_ref killed target n q (dst ++ [c]).
Proof.
  intros H1 H2. unfold read_ref.
  assert (chunk (S n) (c :: q) = c :: chunk n q) as -> by (cbn [chunk]; by rewrite decide_False, decide_False).
  cbn [length drop]. rewrite <- !app_assoc. cbn [app].
  assert (Hl : last (c :: chunk n q) = Some NL <-> last (chunk n q) = Some NL).
  { destruct (chunk n q); cbn; [naive_solver congruence|done]. }
  rewrite (decide_ext _ (length (chunk n q) < n /\ last (chunk n q) <> Some NL /\ drop (length (chunk n q)) q = [])%nat)
    by (rewrite Hl, <- Nat.succ_lt_mono; done).
  case_decide; [done|]. f_equal. rewrite !decide_False; [done|..]; intros (_ & _ & E); by destruct dst.
Qed.

Lemma consoleread_loop_run killed target n q e dst s x (Q : bytes + Z * bytes -> console -> ctx -> Prop) :
  holds s (mkline q e) -> target = Z.of_nat (length dst + n) ->
  (forall s', holds s' (mkline (read_ref killed target n q dst).2 e) -> device s' = device s ->
     Q (read_ref killed target n q dst).1 s' x) ->
  wp (consoleread_loop killed target n dst) Q s x.
Proof.
  revert q dst s. induction n as [|n IH]; intros q dst s Hs Ht HQ; cbn [consoleread_loop].
  { ksteps. unfold read_ref in HQ. cbn [chunk length drop] in HQ. rewrite !decide_False in HQ by lia.
    rewrite app_nil_r in HQ. cbn in HQ. rewrite Nat.add_0_r in Ht. rewrite Ht, Z.max_l by lia. by apply HQ. }
  ksteps. destruct q as [|ch q].
  { rewrite (proj2 (Z.eqb_eq _ _) (proj2 (queue_empty s _ Hs) eq_refl)). unfold read_ref in HQ.
    cbn [chunk length drop last] in HQ. rewrite decide_True in HQ by (split_and!; [lia|done|done]).
    rewrite app_nil_r in HQ. destruct killed; ksteps; by apply HQ. }
  rewrite (proj2 (Z.eqb_neq (ir s) (iw s))) by (rewrite (queue_empty s _ Hs); done).
  destruct (take_char s ch q e Hs) as (-> & Hs1 & Hback). ksteps. destruct (Z.eqb_spec ch CtrlD) as [->|Hd].
  { rewrite read_ref_eof in HQ. replace (target - Z.of_nat (S n)) with (Z.of_nat (length dst)) by lia.
    destruct dst as [|d dst]; cbn [fst snd] in HQ.
    - rewrite decide_True in HQ by done. rewrite (proj2 (Z.ltb_ge _ _)) by (cbn in *; lia). ksteps. by apply HQ.
    - rewrite decide_False in HQ by done. rewrite (proj2 (Z.ltb_lt _ _)) by (cbn in *; lia). ksteps.
      apply HQ; [|done]. apply (holds_same s); [|exact Hs]. repeat split. exact Hback. }
  destruct (Z.eqb_spec ch NL) as [->|Hn].
  { rewrite read_ref_nl in HQ. ksteps.
    replace (target - Z.of_nat n) with (Z.of_nat (length dst) + 1) by lia. by apply HQ. }
  rewrite read_ref_char in HQ by done. eapply IH; [exact Hs1| |exact HQ]. rewrite length_app. cbn. lia.
Qed.

Lemma chunk_prefix n q : q = chunk n q ++ drop (length (chunk n q)) q /\ (length (chunk n q) <= n)%nat.
Proof.
  revert n. induction q as [|c q IH]; intros [|n]; cbn [chunk]; try (split; [done|cbn; lia]).
  case_decide; [split; [done|cbn; lia]|]. case_decide; [split; [done|cbn; lia]|].
  destruct (IH n) as [E Hl]. cbn [length drop app]. split; [by f_equal|lia].
Qed.

Lemma chunk_line n q : Forall (fun c => c <> CtrlD) (chunk n q) /\
  (forall i, chunk n q !! i = Some NL -> S i = length (chunk n q)) /\
  (length (chunk n q) = n \/ last (chunk n q) = Some NL \/
   drop (length (chunk n q)) q = [] \/ head (drop (length (chunk n q)) q) = Some CtrlD).
Proof.
  revert n. induction q as [|c q IH]; intros [|n]; cbn [chunk].
  1-3: split_and!; [constructor|done|by auto].
  case_decide as Hd; [subst; split_and!; [constructor|done|by auto]|].
  case_decide as Hn.
  { subst. split_and!; [by repeat constructor|by intros [|i]|by auto]. }
  destruct (IH n) as (H1 & H2 & H3). split_and!.
  - by constructor.
  - intros [|i]; cbn; [by intros [= ->]|]. intros Hi%H2. by rewrite Hi.
  - cbn [length drop]. destruct H3 as [H3|[H3|H3]]; [left; lia| |tauto]. right. left.
    destruct (chunk n q); [done|]. done.
Qed.

(** C36. A run of consoleread that has [dst] already and wants [target]
    bytes takes a prefix [got] of the committed queue that contains no ^D
    and no newline except as its last byte, at most what is wanted.  It
    goes to sleep (or returns -1 when killed) only with the queue used up
    and the line incomplete; otherwise it returns the number of bytes read,
    because they are all that was wanted, or end in a newline, or the next
    character is ^D.  The ^D is consumed exactly when nothing was read
    before it, so that the end of file is seen once.  The line being edited
    and the screen are not touched. *)
Theorem consoleread_correct killed target dst q e s x :
  holds s (mkline q e) -> Z.of_nat (length dst) <= target -> L_cons ∉ held x ->
  wp (consoleread_run killed target dst) (fun r s' x' => x' = x /\ device s' = device s /\
    exists got rest q', q = got ++ rest /\ holds s' (mkline q' e) /\
      Forall (fun c => c <> CtrlD) got /\ (forall i, got !! i = Some NL -> S i = length got) /\
      Z.of_nat (length (dst ++ got)) <= target /\
      ((r = (if killed then inr (-1, dst ++ got) else inl (dst ++ got)) /\
        rest = [] /\ q' = [] /\ Z.of_nat (length (dst ++ got)) < target /\ last got <> Some NL) \/
       (r = inr (Z.of_nat (length (dst ++ got)), dst ++ got) /\
        ((q' = rest /\ (Z.of_nat (length (dst ++ got)) = target \/ last got = Some NL \/
            (dst ++ got <> [] /\ head rest = Some CtrlD))) \/
         (dst ++ got = [] /\ rest = CtrlD :: q'))))) s x.
Proof.
  intros Hs Ht Hl. unfold consoleread_run. kstep. kstep. kstep. set (n := (Z.to_nat target - length dst)%nat).
  eapply consoleread_loop_run; [exact Hs|lia|]. intros s' Hs' Hd. kstep. kstep. kstep.
  split; [by rewrite mkctx_eta|]. split; [exact Hd|]. destruct (chunk_prefix n q) as [Hq Hle].
  destruct (chunk_line n q) as (H1 & H2 & H3). revert Hs'. unfold read_ref.
  set (got := chunk n q) in *. set (rest := drop (length got) q) in *. intros Hs'.
  exists got, rest. rewrite length_app in *. case_decide as E.
  - destruct E as (E1 & E2 & E3). exists []. split_and!; try done; [|lia|left; split_and!; [by destruct killed|done|done|lia|done]].
    rewrite E3 in Hs'. by destruct killed.
  - case_decide as E'; eexists; (split_and!; [exact Hq|exact Hs'|exact H1|exact H2|lia|right; split; [done|]]).
    + destruct E' as (E1 & E2 & E3). right. split; [done|].
      destruct H3 as [H3|[H3|[H3|H3]]]; [lia|done|naive_solver|]. destruct rest; [done|]. by injection H3 as ->.
    + left. split; [done|]. destruct H3 as [H3|[H3|[H3|H3]]]; [left; lia|by auto| |].
      * destruct (decide (length got < n)%nat); [|left; lia]. right. left.
        destruct (decide (last got = Some NL)); [done|]. by destruct E.
      * destruct (decide (length got < n)%nat); [|left; lia]. right.
        destruct (decide (last got = Some NL)); [by left|right]. split; [|done]. intros E0. by apply E'.
Qed.

(** *** The interrupt handler *)

Section console.
Variable g : gpu.
Variable stray : Z -> Z -> Z.
Variable uart : bool.

Abbreviation emit := (emit g stray uart).
Definition emits (cs : list Z) (s : console) : console := foldl (fun s c => emit c s) s cs.

Lemma emit_same c s : same_input s (emit c s).
Proof. unfold Console.emit. destruct (graphic_putc _ _ _ _ _). done. Qed.

Lemma same_trans s s' s'' : same_input s s' -> same_input s' s'' -> same_input s s''.
Proof. intros (? & ? & ? & ? & ?) (? & ? & ? & ? & ?). repeat split; congruence. Qed.

Lemma emits_same cs s : same_input s (emits cs s).
Proof.
  revert s. induction cs as [|c cs IH]; intros s; [done|]. cbn. eapply same_trans; [apply emit_same|apply IH].
Qed.

Lemma consputc_run c s x (Q : unit -> console -> ctx -> Prop) :
  panicked s = false -> Q tt (emit c s) x -> wp (consputc g stray uart c) Q s x.
Proof. intros Hp HQ. unfold consputc. ksteps. rewrite Hp. by kstep. Qed.

Lemma emit_device c s s' : device s = device s' -> device (emit c s) = device (emit c s').
Proof.
  unfold device, Console.emit. intros [= E1 E2 E3]. rewrite E1, E2, E3.
  destruct (graphic_putc _ _ _ _ _). done.
Qed.

Lemma emits_device cs s s' : device s = device s' -> device (emits cs s) = device (emits cs s').
Proof. revert s s'. induction cs as [|c cs IH]; intros s s' E; cbn; [done|]. by apply IH, emit_device. Qed.

Lemma kill_line_run fuel q e s x (Q : unit -> console -> ctx -> Prop) :
  holds s (mkline q e) -> (length e < fuel)%nat ->
  (forall s', holds s' (mkline q []) -> device s' = device (emits (replicate (length e) BACKSPACE) s) -> Q tt s' x) ->
  wp (kill_line g stray uart fuel) Q s x.
Proof.
  revert e s. induction fuel as [|fuel IH]; intros e s Hs Hf HQ; [lia|]. cbn [kill_line]. ksteps.
  destruct (list_snoc_inv e) as [->|(e' & c & ->)].
  { rewrite (proj2 (Z.eqb_eq _ _) (proj2 (edit_empty s _ Hs) eq_refl)). cbn [negb andb]. ksteps. by apply HQ. }
  assert (ie s <> iw s) by (rewrite (edit_empty s _ Hs); cbn; by destruct e').
  pose proof (h_nl _ _ Hs) as Hnl. cbn [edit] in Hnl. apply Forall_app in Hnl as [_ Hnl]. apply Forall_cons in Hnl as [Hnl _].
  destruct (drop_last s q e' c Hs) as [Hs' ->]. rewrite (proj2 (Z.eqb_neq (ie s) _)), (proj2 (Z.eqb_neq c _)) by done. cbn [negb andb]. ksteps.
  apply consputc_run; [apply Hs|]. apply IH with e'.
  - eapply holds_same; [apply emit_same|done].
  - rewrite length_app in Hf. cbn in Hf. lia.
  - intros s' Hh Hd. apply HQ; [done|]. rewrite Hd, length_app, Nat.add_1_r. cbn [replicate emits foldl].
    apply emits_device, emit_device. done.
Qed.

(** The state and context after the characters [cs]. *)
Fixpoint intr_post (cs : list Z) (l : line) (ks : list Z) (ws : list chan) : line * list Z * list chan :=
  match cs with
  | [] => (l, ks, ws)
  | c :: cs => intr_post cs (intr_ref c l) (ks ++ echo c l) (ws ++ wakes c l)
  end.

Lemma erase_run q e s x (Q : unit -> console -> ctx -> Prop) :
  holds s (mkline q e) ->
  (forall s', holds s' (mkline q (take (pred (length e)) e)) ->
     device s' = device (emits (match e with [] => [] | _ => [BACKSPACE] end) s) -> Q tt s' x) ->
  wp (if negb (ie s =? iw s) then
       modify (fun s => set_input (ibuf s) (ir s) (iw s) (u32 (ie s - 1)) s);;
       consputc g stray uart BACKSPACE
     else mret tt) Q s x.
Proof.
  intros Hs HQ. destruct (list_snoc_inv e) as [->|(e' & c & ->)].
  { rewrite (proj2 (Z.eqb_eq _ _) (proj2 (edit_empty s _ Hs) eq_refl)). cbn [negb]. ksteps. by apply HQ. }
  assert (ie s <> iw s) by (rewrite (edit_empty s _ Hs); cbn; by destruct e').
  rewrite (proj2 (Z.eqb_neq _ _)) by done. cbn [negb]. ksteps.
  destruct (drop_last s q e' c Hs) as [Hs' _]. apply consputc_run; [apply Hs|]. apply HQ.
  - rewrite length_app, Nat.add_1_r. cbn [pred]. rewrite take_app_length. eapply holds_same; [apply emit_same|done].
  - assert (match e' ++ [c] with [] => [] | _ => [BACKSPACE] end = [BACKSPACE]) as -> by (by destruct e').
    apply (emit_device BACKSPACE). done.
Qed.

Lemma insert_run q e c s x (Q : unit -> console -> ctx -> Prop) :
  let last := c = NL \/ c = CtrlD \/ (length q + length e = 127)%nat in
  holds s (mkline q e) -> is_byte c -> (length q + length e < 128)%nat ->
  (forall s', last -> holds s' (mkline (q ++ e ++ [c]) []) -> device s' = device (emit c s) ->
     Q tt s' (mkctx (held x) (woken x ++ [C_input]) (mypid x))) ->
  (forall s', ~ last -> holds s' (mkline q (e ++ [c])) -> device s' = device (emit c s) -> Q tt s' x) ->
  wp (modify (fun s => set_input (<[Z.to_nat (ie s mod INPUT_BUF) := u8 c]> (ibuf s)) (ir s) (iw s) (u32 (ie s + 1)) s);;
      consputc g stray uart c;;
      s ← get;
      if (c =? NL) || (c =? CtrlD) || (ie s =? u32 (ir s + INPUT_BUF)) then
        modify (fun s => set_input (ibuf s) (ir s) (ie s) (ie s) s);;
        wakeup C_input
      else mret tt) Q s x.
Proof.
  intros last Hs Hc Hlt HL HI. destruct (add_char s q e c Hs Hlt Hc) as [Hins Hcom]. ksteps.
  set (s1 := set_input _ _ _ _ s) in *. apply consputc_run; [apply Hs|]. ksteps.
  destruct (emit_same c s1) as (E1 & E2 & E3 & E4 & E5).
  assert (Hlast : (c =? NL) || (c =? CtrlD) || (ie (emit c s1) =? u32 (ir (emit c s1) + INPUT_BUF)) = true <-> last).
  { rewrite E3, E5, !orb_true_iff, !Z.eqb_eq. unfold last.
    assert (Hie : ie s1 = u32 (ir s1 + INPUT_BUF) <-> (length q + length e = 127)%nat); [|naive_solver].
    pose proof (count_edit s _ Hs) as Hcnt. pose proof (h_r _ _ Hs) as Hr. cbn [queue edit] in Hcnt.
    pose proof (h_e _ _ Hs) as He'. pose proof (u32_bound (iw s + Z.of_nat (length e))) as He. cbn [edit] in He'. rewrite <- He' in He.
    clear He'. cbn. unfold INPUT_BUF, u32, in_u32 in *. clear -Hcnt Hr He. Z.div_mod_to_equations. lia. }
  destruct ((c =? NL) || (c =? CtrlD) || (ie _ =? _)) eqn:E.
  - ksteps. apply HL; [by apply Hlast| |by apply (emit_device c s1 s)].
    eapply holds_same; [|exact Hcom]. cbn. by rewrite E2, E3, E5.
  - ksteps. apply HI; [intros H; apply Hlast in H; congruence| |by apply (emit_device c s1 s)].
    eapply holds_same; [apply emit_same|]. apply Hins. intros ->. done.
Qed.

Lemma intr_char_run c l s x (Q : bool -> console -> ctx -> Prop) :
  holds s l -> is_byte c ->
  (forall s', holds s' (intr_ref c l) -> device s' = device (emits (echo c l) s) ->
     Q (c =? CtrlP) s' (mkctx (held x) (woken x ++ wakes c l) (mypid x))) ->
  wp (intr_char g stray uart c) Q s x.
Proof.
  destruct l as [q e]. intros Hs Hc HQ. unfold intr_char. ksteps.
  unfold intr_ref, echo, wakes, key_of in HQ. cbn [queue edit] in HQ.
  destruct (Z.eqb_spec c CtrlP) as [->|H1]; [rewrite decide_True in HQ by done|rewrite decide_False in HQ by done].
  { ksteps. rewrite app_nil_r, mkctx_eta in HQ. by apply HQ. }
  destruct (Z.eqb_spec c CtrlU) as [->|H2]; [rewrite decide_True in HQ by done|rewrite decide_False in HQ by done].
  { ksteps. rewrite app_nil_r, mkctx_eta in HQ. eapply kill_line_run; [exact Hs| |].
    - pose proof (h_len _ _ Hs). cbn in *. lia.
    - intros s' Hs' Hd. ksteps. by apply HQ. }
  destruct ((c =? CtrlH) || (c =? 127)) eqn:E3.
  { apply orb_true_iff in E3. rewrite !Z.eqb_eq in E3. rewrite decide_True in HQ by done.
    kstep. rewrite app_nil_r, mkctx_eta in HQ. eapply erase_run; [exact Hs|].
    intros s' Hs' Hd. ksteps. by apply HQ. }
  apply orb_false_iff in E3 as [E3 E4]. rewrite Z.eqb_neq in E3, E4. rewrite decide_False in HQ by naive_solver.
  assert (Hroom : negb (c =? 0) && (u32 (ie s - ir s) <? INPUT_BUF) = true <->
    c <> 0 /\ (length q + length e < 128)%nat).
  { rewrite andb_true_iff, negb_true_iff, Z.eqb_neq, Z.ltb_lt, (count_edit s _ Hs). cbn [queue edit]. unfold INPUT_BUF.
    split; intros [? ?]; split; (done || lia). }
  destruct (negb (c =? 0) && (u32 (ie s - ir s) <? INPUT_BUF)) eqn:E5.
  2:{ rewrite decide_False in HQ by (intros H; apply Hroom in H; congruence).
      ksteps. rewrite app_nil_r, mkctx_eta in HQ. by apply HQ. }
  destruct (proj1 Hroom eq_refl) as [Hc0 Hlt]. rewrite decide_True in HQ by done.
  assert (Ht : (if c =? 13 then NL else c) = typed c).
  { unfold typed. destruct (Z.eqb_spec c 13); [by rewrite decide_True|by rewrite decide_False]. }
  assert (is_byte (typed c)) by (unfold typed, is_byte in *; case_decide; lia).
  cbn zeta. rewrite Ht. kstep. eapply insert_run; [exact Hs|done|done| |]; intros s' Hlast Hs' Hd; ksteps.
  - rewrite decide_True in HQ by done. by apply HQ.
  - rewrite decide_False in HQ by done. rewrite app_nil_r, mkctx_eta in HQ. by apply HQ.
Qed.

Lemma intr_chars_run cs l s x (Q : bool -> console -> ctx -> Prop) ks0 s0 ws0 h pid :
  holds s l -> Forall is_byte cs -> device s = device (emits ks0 s0) -> x = mkctx h ws0 pid ->
  (forall s' l' ks ws, intr_post cs l ks0 ws0 = (l', ks, ws) -> holds s' l' -> device s' = device (emits ks s0) ->
     Q (existsb (fun c => c =? CtrlP) cs) s' (mkctx h ws pid)) ->
  wp (intr_chars g stray uart cs) Q s x.
Proof.
  revert l s x Q ks0 ws0. induction cs as [|c cs IH]; intros l s x Q ks0 ws0 Hs Hb Hd -> HQ; cbn [intr_chars].
  { kstep. by eapply HQ. }
  apply Forall_cons in Hb as [Hc Hcs]. kstep. eapply intr_char_run; [done..|]. intros s1 Hs1 Hd1. kstep.
  eapply IH; [exact Hs1|done| |reflexivity|].
  - rewrite Hd1. unfold emits. rewrite foldl_app. apply (emits_device (echo c l)). exact Hd.
  - intros s' l' ks ws Hp Hs' Hd'. kstep. by eapply HQ.
Qed.

(** C11. The line discipline: with the input ring holding a queue of
    committed characters and a line being edited, consoleintr on any
    sequence of characters leaves it holding what the reference editor
    gives (characters inserted at the end, backspace and kill, carriage
    return as newline, the line committed by newline, ^D or a full buffer,
    characters dropped while the buffer is full), echoes exactly the
    reference echo to the screen and serial port, wakes the readers once
    per committed line and asks for the process listing exactly when ^P
    was typed; the counters may wrap around 2^32. *)
Theorem consoleintr_refines cs l s x : holds s l -> Forall is_byte cs -> L_cons ∉ held x ->
  wp (consoleintr g stray uart cs) (fun dump s' x' =>
    let '(l', ks, ws) := intr_post cs l [] (woken x) in
    holds s' l' /\ device s' = device (emits ks s) /\ dump = existsb (fun c => c =? CtrlP) cs /\
    x' = mkctx (held x) ws (mypid x)) s x.
Proof.
  intros Hs Hb Hl. unfold consoleintr. kstep. kstep. kstep.
  apply (intr_chars_run cs l s _ _ [] s (woken x) (L_cons :: held x) (mypid x)); [exact Hs|done|done|done|].
  intros s' l' ks ws Hp Hs' Hd. kstep. kstep. kstep. by rewrite Hp.
Qed.

End console.

(** ** Printing a number *)

(** The value of a digit character. *)
Definition digit_value (d : Z) : Z := if d <? 58 then d - 48 else d - 87.

Lemma digits_value b d : b = 10 \/ b = 16 -> 0 <= d < b -> digit_value (nth (Z.to_nat d) digits 0) = d.
Proof.
  intros Hb Hd. assert (Hd16 : (Z.to_nat d < 16)%nat) by lia. rewrite <- (Z2Nat.id d) at 2 by lia.
  set (n := Z.to_nat d) in *. clearbody n. clear Hd Hb b d. do 16 (destruct n as [|n]; [done|]). lia.
Qed.

(** printint in base 10 or 16: the characters collected in buf never
    exceed its 16 bytes; they are the digits of the magnitude of the number
    (of its 32-bit pattern when it is printed unsigned) without leading
    zeros, with a minus sign at the end of the buffer, printed first,
    exactly for a negative number printed signed.  This includes the most
    negative number, whose magnitude does not fit an int. *)
Theorem printint_correct xx base sign :
  base = 10 \/ base = 16 -> -2147483648 <= xx < 2147483648 ->
  let neg := sign && (xx <? 0) in
  let x := if neg then - xx else u32 xx in
  exists ds, printint_buf xx base sign = ds ++ (if neg then [45] else []) /\
    (1 <= length ds <= 10)%nat /\ (length (printint_buf xx base sign) <= 16)%nat /\
    worth digit_value base ds = x /\ (x <> 0 -> exists d, last ds = Some d /\ digit_value d <> 0).
Proof.
  intros Hb Hxx neg x. unfold printint_buf. fold neg. exists (printint_loop x base).
  assert (Hx : (if neg then u32 (- xx) else u32 xx) = x /\ 0 <= x < 4294967296).
  { unfold x. destruct neg eqn:E; [|by split; [|apply u32_bound]].
    apply andb_true_iff in E as [_ E%Z.ltb_lt]. split; [|lia]. apply u32_id. unfold in_u32. lia. }
  destruct Hx as [-> Hx]. assert (Hbase : 2 <= base) by lia.
  assert (Hp : 4294967296 <= base ^ Z.of_nat 10 /\ 4294967296 <= base ^ Z.of_nat 32) by (by destruct Hb as [->| ->]).
  destruct (digit_loop_length digits base Hbase 10 32 x) as [Hl0 Hl1]; [lia..|]. unfold printint_loop.
  split_and!; [done|lia|lia| | |].
  - rewrite length_app. destruct neg; cbn [length]; lia.
  - apply digit_loop_worth; [done|by intros; apply (digits_value base)|lia].
  - intros Hx0. apply digit_loop_last; [done|by intros; apply (digits_value base)|lia..].
Qed.

Lemma printint_correct_witness : exists ds, printint_buf (-2147483648) 10 true = ds ++ [45] /\
    (1 <= length ds <= 10)%nat /\ (length (printint_buf (-2147483648) 10 true) <= 16)%nat /\
    worth digit_value 10 ds = 2147483648 /\
    (2147483648 <> 0 -> exists d, last ds = Some d /\ digit_value d <> 0).
Proof. apply (printint_correct (-2147483648) 10 true); [by left|lia]. Defined.

(** ** Concrete runs *)

(** An empty line at counters about to wrap around. *)
Definition cons0 : console :=
  mkconsole false true (replicate 128 0) 4294967294 4294967294 4294967294 1060 (fun _ => 0) [].

Lemma cons0_holds : holds cons0 (mkline [] []).
Proof. split; cbn; try done; lia. Qed.

Lemma consoleintr_refines_witness :
  wp (consoleintr gpu0 (fun _ _ => 0) true [104; 106; 8; 105; 13]) (fun dump s' x' =>
    holds s' (mkline [104; 105; 10] []) /\
    device s' = device (emits gpu0 (fun _ _ => 0) true [104; 106; 256; 105; 10] cons0) /\ dump = false /\
    x' = mkctx [] [C_input] 7) cons0 (mkctx [] [] 7).
Proof.
  refine (wp_mono _ _ _ _ _ (consoleintr_refines gpu0 (fun _ _ => 0) true [104; 106; 8; 105; 13] (mkline [] [])
    cons0 (mkctx [] [] 7) cons0_holds _ _) _).
  - repeat constructor; lia.
  - cbn. apply not_elem_of_nil.
  - intros d s' x' H. exact H.
Defined.

(** The same line, typed. *)
Definition cons1 : console :=
  mkconsole false true ([105; 10] ++ replicate 124 0 ++ [0; 104]) 4294967295 2 2 1060 (fun _ => 0) [].

Lemma cons1_holds : holds cons1 (mkline [104; 105; 10] []).
Proof. split; cbn; try done; lia. Qed.

Lemma consoleread_correct_witness :
  wp (consoleread_run false 5 []) (fun r s' x' => x' = mkctx [] [] 7 /\ device s' = device cons1 /\
    exists got rest q', [104; 105; 10] = got ++ rest /\ holds s' (mkline q' []) /\
      Forall (fun c => c <> CtrlD) got /\ (forall i, got !! i = Some NL -> S i = length got) /\
      Z.of_nat (length ([] ++ got)) <= 5 /\
      ((r = inl ([] ++ got) /\
        rest = [] /\ q' = [] /\ Z.of_nat (length ([] ++ got)) < 5 /\ last got <> Some NL) \/
       (r = inr (Z.of_nat (length ([] ++ got)), [] ++ got) /\
        ((q' = rest /\ (Z.of_nat (length ([] ++ got)) = 5 \/ last got = Some NL \/
            ([] ++ got <> [] /\ head rest = Some CtrlD))) \/
         ([] ++ got = [] /\ rest = CtrlD :: q'))))) cons1 (mkctx [] [] 7).
Proof.
  apply (consoleread_correct false 5 [] [104; 105; 10] [] cons1 (mkctx [] [] 7) cons1_holds).
  - cbn. lia.
  - cbn. apply not_elem_of_nil.
Defined.
