(* ===== verification/Ulib.v ===== *)
(** * ulib.c and printf.c

    The library of the user programs: string functions over the memory of
    the process, gets and atoi, and formatted output.  printint and atoi
    are shown to be inverse on the non-negative ints, memmove to be a
    forward copy. *)

From stdpp Require Import base numbers strings list.
From S2P Require Import Prelude Kstring Digits.

Local Open Scope Z_scope.

(** *** Strings *)

(** The copy loop with the test on the byte copied, at most [fuel] turns. *)
Fixpoint strcpy (fuel : nat) (s t : Z) (m : memory) : option memory :=
  match fuel with
  | O => None
  | S fuel =>
      let m' := store8 s (m t) m in
      if m' s =? 0 then Some m' else strcpy fuel (u32 (s + 1)) (u32 (t + 1)) m'
  end.

Fixpoint strcmp (fuel : nat) (p q : Z) (m : memory) : option Z :=
  match fuel with
  | O => None
  | S fuel =>
      if negb (m p =? 0) && (m p =? m q) then strcmp fuel (u32 (p + 1)) (u32 (q + 1)) m
      else Some (m p - m q)
  end.

(** [for(n = 0; s[n]; n++)] *)
Fixpoint strlen_loop (fuel : nat) (s n : Z) (m : memory) : option Z :=
  match fuel with
  | O => None
  | S fuel => if m (u32 (s + n)) =? 0 then Some n else strlen_loop fuel s (n + 1) m
  end.

Definition strlen (fuel : nat) (s : Z) (m : memory) : option Z := strlen_loop fuel s 0 m.

Definition memset (dst c n : Z) (m : memory) : memory := stosb dst c (Z.to_nat n) m.

(** The address of the first [c], 0 when there is none. *)
Fixpoint strchr (fuel : nat) (s c : Z) (m : memory) : option Z :=
  match fuel with
  | O => None
  | S fuel => if m s =? 0 then Some 0 else if m s =? c then Some s else strchr fuel (u32 (s + 1)) c m
  end.

(** gets on the bytes [input] that read(0, &c, 1) delivers; the bytes
    stored in buf before the NUL, and the input left.  [room] is max - 1
    minus the bytes stored. *)
Fixpoint gets_loop (room : nat) (input : bytes) : bytes * bytes :=
  match room with
  | O => ([], input)
  | S room =>
      match input with
      | [] => ([], [])
      | c :: input =>
          if (c =? 10) || (c =? 13) then ([c], input)
          else let '(b, rest) := gets_loop room input in (c :: b, rest)
      end
  end.

Definition gets (max : Z) (input : bytes) : bytes * bytes :=
  let '(b, rest) := gets_loop (Z.to_nat (max - 1)) input in (b ++ [0], rest).

(** atoi on the characters of the string, with the arithmetic of int. *)
Fixpoint atoi_loop (s : bytes) (n : Z) : Z :=
  match s with
  | [] => n
  | c :: s => if (48 <=? c) && (c <=? 57) then atoi_loop s (i32 (i32 (i32 (n * 10) + c) - 48)) else n
  end.

Definition atoi (s : bytes) : Z := atoi_loop s 0.

(** memmove copies upwards from the first byte. *)
Definition memmove (vdst vsrc n : Z) (m : memory) : memory := copy_forward vdst vsrc (Z.to_nat n) m.

(** *** printf *)

Definition digits : list Z := [48; 49; 50; 51; 52; 53; 54; 55; 56; 57; 65; 66; 67; 68; 69; 70].

(** The characters printed. *)
Definition printint (xx base : Z) (sgn : bool) : list Z :=
  let neg := sgn && (xx <? 0) in
  let x := if neg then u32 (- xx) else u32 xx in
  rev (digit_loop digits 32 x base ++ (if neg then [45] else [])).

(** The bytes printf writes one by one to fd: [state] is true after a '%',
    [ap k] is the next argument word, [string_at] the string at an
    address. *)
Fixpoint printf_loop (string_at : Z -> bytes) (fmt : bytes) (state : bool) (ap : nat -> Z) (k : nat) : list Z :=
  match fmt with
  | [] => []
  | c :: fmt =>
      let next := printf_loop string_at fmt in
      if negb state then
        if c =? 37 then next true ap k else c :: next false ap k
      else if c =? 100 then printint (i32 (ap k)) 10 true ++ next false ap (S k)
      else if (c =? 120) || (c =? 112) then printint (i32 (ap k)) 16 false ++ next false ap (S k)
      else if c =? 115 then
        (if ap k =? 0 then [40; 110; 117; 108; 108; 41] else string_at (ap k)) ++ next false ap (S k)
      else if c =? 99 then u8 (ap k) :: next false ap (S k)
      else if c =? 37 then c :: next false ap k
      else 37 :: c :: next false ap k
  end.

Definition printf (string_at : Z -> bytes) (fmt : bytes) (ap : nat -> Z) : list Z :=
  printf_loop string_at fmt false ap 0.

(** ** printint and atoi *)

Definition digit_value (d : Z) : Z := d - 48.

Lemma decimal_digit d : 0 <= d < 10 -> nth (Z.to_nat d) digits 0 = 48 + d.
Proof.
  intros Hd. assert (Hd10 : (Z.to_nat d < 10)%nat) by lia. rewrite <- (Z2Nat.id d) at 2 by lia.
  set (n := Z.to_nat d) in *. clearbody n. clear Hd d. do 10 (destruct n as [|n]; [done|]). lia.
Qed.

Lemma worth_app val base a b : worth val base (a ++ b) = worth val base a + base ^ Z.of_nat (length a) * worth val base b.
Proof.
  unfold worth. induction a as [|d a IH]; cbn [app foldr length]; [rewrite Z.pow_0_r; lia|].
  rewrite IH, Nat2Z.inj_succ, Z.pow_succ_r by lia. lia.
Qed.

Lemma worth_nonneg ds : Forall (fun d => 48 <= d <= 57) ds -> 0 <= worth digit_value 10 ds.
Proof.
  induction 1 as [|d ds Hd _ IH]; [done|]. unfold worth, digit_value in *. cbn [foldr]. lia.
Qed.

Lemma i32_cong x y : u32 x = u32 y -> i32 x = i32 y.
Proof. intros E. by rewrite <- (i32_u32 x), <- (i32_u32 y), E. Qed.

Lemma u32_i32 x : u32 (i32 x) = u32 x.
Proof.
  unfold i32, u32. case_match; [by rewrite Z.mod_mod by done|].
  replace (x mod 4294967296 - 4294967296) with (x mod 4294967296 + (-1) * 4294967296) by lia.
  by rewrite Z_mod_plus_full, Z.mod_mod by done.
Qed.

(** The step of atoi computes n * 10 + digit even when the character added
    first leaves the range of int. *)
Lemma atoi_step n c : 0 <= n -> 48 <= c <= 57 -> n * 10 + (c - 48) < 2147483648 ->
  i32 (i32 (i32 (n * 10) + c) - 48) = n * 10 + (c - 48).
Proof.
  intros Hn Hc Hlt. rewrite (i32_cong _ (n * 10 + c - 48)).
  - rewrite i32_id; lia.
  - rewrite (i32_id (n * 10)) by lia.
    transitivity (u32 (u32 (i32 (n * 10 + c)) - 48)).
    + unfold u32. by rewrite Zminus_mod_idemp_l.
    + rewrite u32_i32. unfold u32. by rewrite Zminus_mod_idemp_l.
Qed.

(** atoi reads a run of digits followed by something else. *)
Lemma atoi_digits ds rest n :
  Forall (fun d => 48 <= d <= 57) ds -> match rest with c :: _ => ~ (48 <= c <= 57) | [] => True end ->
  0 <= n -> worth digit_value 10 (rev ds) + n * 10 ^ Z.of_nat (length ds) < 2147483648 ->
  atoi_loop (ds ++ rest) n = worth digit_value 10 (rev ds) + n * 10 ^ Z.of_nat (length ds).
Proof.
  intros Hds Hrest. revert n. induction Hds as [|d ds Hd Hds IH]; intros n Hn Hlt.
  { cbn [app rev worth foldr length] in *. destruct rest as [|c rest]; cbn [atoi_loop]; [cbn; lia|].
    destruct (Z.leb_spec 48 c), (Z.leb_spec c 57); cbn [andb]; try lia; cbn; lia. }
  cbn [app rev atoi_loop length] in *. rewrite worth_app, length_rev in *. unfold worth at 2 in Hlt. unfold worth at 2.
  cbn [foldr] in *. unfold digit_value at 2 in Hlt. unfold digit_value at 2.
  rewrite Nat2Z.inj_succ, Z.pow_succ_r in * by lia.
  rewrite (proj2 (Z.leb_le 48 d)), (proj2 (Z.leb_le d 57)) by lia. cbn [andb].
  pose proof (worth_nonneg (rev ds) ltac:(by apply Forall_rev)) as Hw.
  assert (Hp : 1 <= 10 ^ Z.of_nat (length ds)) by (pose proof (Z.pow_pos_nonneg 10 (Z.of_nat (length ds))); lia).
  rewrite atoi_step by (done || nia). rewrite IH by nia. lia.
Qed.

(** Printing a non-negative int and reading it back: atoi of what
    printf("%d") printed, followed by anything that does not start with a
    digit, is the number, for every int from 0 to 2^31 - 1. *)
Theorem atoi_printint n rest :
  0 <= n < 2147483648 -> match rest with c :: _ => ~ (48 <= c <= 57) | [] => True end ->
  atoi (printint n 10 true ++ rest) = n.
Proof.
  intros Hn Hrest. unfold printint. rewrite (proj2 (Z.ltb_ge n 0)) by lia. cbn [andb].
  rewrite app_nil_r, u32_id by (unfold in_u32; lia). set (ds := digit_loop digits 32 n 10).
  assert (Hv : forall d, 0 <= d < 10 -> digit_value (nth (Z.to_nat d) digits 0) = d).
  { intros d Hd. rewrite decimal_digit by done. unfold digit_value. lia. }
  assert (Hw : worth digit_value 10 ds = n) by (apply digit_loop_worth; [lia|done|lia]).
  assert (Hds : Forall (fun d => 48 <= d <= 57) ds).
  { apply Forall_forall. intros d Hd. apply (digit_loop_digits digits 10) in Hd as (i & Hi & ->); [|lia..].
    rewrite decimal_digit by done. lia. }
  unfold atoi. rewrite atoi_digits; rewrite ?rev_involutive, ?Hw; try done; try lia. by apply Forall_rev.
Qed.

Lemma atoi_printint_witness : atoi (printint 2147483647 10 true ++ [10]) = 2147483647.
Proof. apply (atoi_printint 2147483647 [10]); [lia|cbn; lia]. Defined.

(** memmove is a forward copy: right when the destination is below the
    source or the ranges are disjoint, *)
Lemma memmove_forward d s n m x : byte_memory m -> no_wrap d n -> no_wrap s n -> d <= s \/ s + n <= d ->
  memmove d s n m x = if in_range d n x then m (x - d + s) else m x.
Proof.
  intros Hm Hd Hs Hor. unfold memmove. pose proof Hd as (_ & Hn & _).
  rewrite copy_forward_spec; rewrite ?Z2Nat.id by done; done.
Qed.

(** and wrong when the destination overlaps the end of the source: the
    bytes 1, 2, 3 moved up by one become 1, 1, 1. *)
Theorem memmove_overlap_wrong :
  let m := store8 4098 3 (store8 4097 2 (store8 4096 1 (fun _ => 0))) in
  map (memmove 4097 4096 3 m) [4097; 4098; 4099] = [1; 1; 1].
Proof. by vm_compute. Qed.
