(* ===== verification/Sh.v ===== *)
(** * sh.c

    The shell: tokens, the recursive descent parser, NUL-termination of
    the words, and the program that runs a parsed command.

    The line is the list of its characters before the NUL; a pointer into
    it is the suffix it points to, so [es] is the empty suffix.  The words
    of a command are the pairs of pointers (q, eq) the parser stores.
    panic() ends the process and is an error of the parser; the mutual
    recursion is on fuel. *)

From stdpp Require Import base numbers strings list.
From S2P Require Import Prelude.

Local Open Scope Z_scope.

Definition MAXARGS : nat := 10.
Definition O_RDONLY : Z := 0.
Definition O_WRONLY : Z := 1.
Definition O_RDWR : Z := 2.
Definition O_CREATE : Z := 512.

(** " \t\r\n\v" and "<|>&;()" *)
Definition whitespace : list Z := [32; 9; 13; 10; 11].
Definition symbols : list Z := [60; 124; 62; 38; 59; 40; 41].

(** [strchr(set, c) != 0] *)
Fixpoint strchr (set : list Z) (c : Z) : bool :=
  match set with
  | [] => false
  | x :: set => if x =? c then true else strchr set c
  end.

(** A counted string: its first character and the one after its last. *)
Record word : Type := mkword { wq : list Z; weq : list Z }.

Inductive cmd : Type :=
| execcmd (argv : list word)
| redircmd (c : cmd) (file : word) (mode fd : Z)
| pipecmd (left right : cmd)
| listcmd (left right : cmd)
| backcmd (c : cmd).

(** *** Tokens *)

Fixpoint skip_ws (s : list Z) : list Z :=
  match s with
  | [] => []
  | c :: t => if strchr whitespace c then skip_ws t else s
  end.

Fixpoint skip_word (s : list Z) : list Z :=
  match s with
  | [] => []
  | c :: t => if negb (strchr whitespace c) && negb (strchr symbols c) then skip_word t else s
  end.

(** The token, the word it spans and *ps after it. *)
Definition gettoken (ps : list Z) : Z * word * list Z :=
  let s := skip_ws ps in
  let '(ret, eq) :=
    match s with
    | [] => (0, s)
    | c :: t =>
        if strchr [124; 40; 41; 59; 38; 60] c then (c, t)
        else if c =? 62 then
          match t with
          | c' :: t' => if c' =? 62 then (43, t') else (c, t)
          | [] => (c, t)
          end
        else (97, skip_word s)
    end in
  (ret, mkword s eq, skip_ws eq).

(** The answer and *ps. *)
Definition peek (ps : list Z) (toks : list Z) : bool * list Z :=
  let s := skip_ws ps in
  (match s with [] => false | c :: _ => strchr toks c end, s).

(** *** The parser *)

Inductive result (A : Type) : Type :=
| Ok (a : A) (ps : list Z)
| Err (msg : string)
| OutOfFuel.
Arguments Ok {A}.
Arguments Err {A}.
Arguments OutOfFuel {A}.

Definition rbind {A B} (m : result A) (f : A -> list Z -> result B) : result B :=
  match m with
  | Ok a ps => f a ps
  | Err msg => Err msg
  | OutOfFuel => OutOfFuel
  end.

(** The redirections parseredirs wraps around its command, the last one
    outermost. *)
Fixpoint parseredirs (fuel : nat) (c : cmd) (ps : list Z) : result cmd :=
  match fuel with
  | O => OutOfFuel
  | S fuel =>
      let '(b, ps) := peek ps [60; 62] in
      if b then
        let '(tok, _, ps) := gettoken ps in
        let '(tok2, w, ps) := gettoken ps in
        if negb (tok2 =? 97) then Err "missing file for redirection"
        else if tok =? 60 then parseredirs fuel (redircmd c w O_RDONLY 0) ps
        else parseredirs fuel (redircmd c w (Z.lor O_WRONLY O_CREATE) 1) ps
      else Ok c ps
  end.

(** The command a parseexec has so far: [cmd->argv] is filled in place
    inside the redirections already around it. *)
Fixpoint set_argv (argv : list word) (c : cmd) : cmd :=
  match c with
  | execcmd _ => execcmd argv
  | redircmd c file mode fd => redircmd (set_argv argv c) file mode fd
  | c => c
  end.

(** The while loop of parseexec. *)
Fixpoint parseargs (fuel : nat) (ret : cmd) (argv : list word) (ps : list Z) : result cmd :=
  match fuel with
  | O => OutOfFuel
  | S fuel =>
      let '(b, ps) := peek ps [124; 41; 38; 59] in
      if b then Ok ret ps
      else
        let '(tok, w, ps) := gettoken ps in
        if tok =? 0 then Ok ret ps
        else if negb (tok =? 97) then Err "syntax"
        else
          let argv := argv ++ [w] in
          if (MAXARGS <=? length argv)%nat then Err "too many args"
          else rbind (parseredirs (S (length ps)) (set_argv argv ret) ps) (fun ret ps => parseargs fuel ret argv ps)
  end.

(** The loop of parseline over '&'. *)
Fixpoint parseback (fuel : nat) (c : cmd) (ps : list Z) : result cmd :=
  match fuel with
  | O => OutOfFuel
  | S fuel =>
      let '(b, ps) := peek ps [38] in
      if b then let '(_, _, ps) := gettoken ps in parseback fuel (backcmd c) ps else Ok c ps
  end.

Fixpoint parseline (fuel : nat) (ps : list Z) : result cmd :=
  match fuel with
  | O => OutOfFuel
  | S fuel =>
      rbind (parsepipe fuel ps) (fun c ps =>
      rbind (parseback (S (length ps)) c ps) (fun c ps =>
      let '(b, ps) := peek ps [59] in
      if b then
        let '(_, _, ps) := gettoken ps in
        rbind (parseline fuel ps) (fun r ps => Ok (listcmd c r) ps)
      else Ok c ps))
  end

with parsepipe (fuel : nat) (ps : list Z) : result cmd :=
  match fuel with
  | O => OutOfFuel
  | S fuel =>
      rbind (parseexec fuel ps) (fun c ps =>
      let '(b, ps) := peek ps [124] in
      if b then
        let '(_, _, ps) := gettoken ps in
        rbind (parsepipe fuel ps) (fun r ps => Ok (pipecmd c r) ps)
      else Ok c ps)
  end

with parseexec (fuel : nat) (ps : list Z) : result cmd :=
  match fuel with
  | O => OutOfFuel
  | S fuel =>
      let '(b, ps) := peek ps [40] in
      if b then parseblock fuel ps
      else
        rbind (parseredirs (S (length ps)) (execcmd []) ps) (fun ret ps =>
        parseargs (S (length ps)) ret [] ps)
  end

with parseblock (fuel : nat) (ps : list Z) : result cmd :=
  match fuel with
  | O => OutOfFuel
  | S fuel =>
      let '(b, ps) := peek ps [40] in
      if negb b then Err "parseblock"
      else
        let '(_, _, ps) := gettoken ps in
        rbind (parseline fuel ps) (fun c ps =>
        let '(b, ps) := peek ps [41] in
        if negb b then Err "syntax - missing )"
        else
          let '(_, _, ps) := gettoken ps in
          parseredirs (S (length ps)) c ps)
  end.

(** Each level of the grammar may be entered once without reading a
    character. *)
Definition parse_fuel (s : list Z) : nat := 4 * length s + 4.

(** [*eq = 0] for a word, in the buffer of the line with its NUL; the
    position of a suffix is counted from the end. *)
Definition end_word (s : list Z) (buf : list Z) (w : word) : list Z := <[(length s - length (weq w))%nat := 0]> buf.

Fixpoint nulterminate (s : list Z) (c : cmd) (buf : list Z) : list Z :=
  match c with
  | execcmd argv => foldl (end_word s) buf argv
  | redircmd c file _ _ => end_word s (nulterminate s c buf) file
  | pipecmd l r => nulterminate s r (nulterminate s l buf)
  | listcmd l r => nulterminate s r (nulterminate s l buf)
  | backcmd c => nulterminate s c buf
  end.

(** parsecmd: the command and the buffer its words point into. *)
Definition parsecmd (s : list Z) : result (cmd * list Z) :=
  rbind (parseline (parse_fuel s) s) (fun c ps =>
  match skip_ws ps with
  | [] => Ok (c, nulterminate s c (s ++ [0])) []
  | _ => Err "syntax"
  end).

(** *** Running a command

    The system calls runcmd makes; a program that forks goes on as the
    child (pid 0) and as the parent. Printf is a line on the standard error
    with a word of the command in it. *)
Inductive prog : Type :=
| Exit
| Exec (path : word) (argv : list word) (failed : prog)
| Close (fd : Z) (k : prog)
| Open (file : word) (mode : Z) (failed k : prog)
| Pipe (failed : prog) (k : Z -> Z -> prog)
| Dup (fd : Z) (k : prog)
| Fork (failed child parent : prog)
| Wait (k : prog)
| Printf (before : string) (arg : option word) (after : string) (k : prog).

Definition panic (msg : string) : prog := Printf msg None EmptyString Exit.

Fixpoint runcmd (c : cmd) : prog :=
  match c with
  | execcmd [] => Exit
  | execcmd (p :: argv) => Exec p (p :: argv) (Printf "exec " (Some p) " failed" Exit)
  | redircmd c file mode fd => Close fd (Open file mode (Printf "open " (Some file) " failed" Exit) (runcmd c))
  | listcmd l r => Fork (panic "fork") (runcmd l) (Wait (runcmd r))
  | pipecmd l r =>
      Pipe (panic "pipe") (fun p0 p1 =>
        Fork (panic "fork")
          (Close 1 (Dup p1 (Close p0 (Close p1 (runcmd l)))))
          (Fork (panic "fork")
            (Close 0 (Dup p0 (Close p0 (Close p1 (runcmd r)))))
            (Close p0 (Close p1 (Wait (Wait Exit))))))
  | backcmd c => Fork (panic "fork") (runcmd c) Exit
  end.

(** What main does with a line: cd is run by the shell itself, with the
    last character chopped. *)
Inductive action : Type :=
| Chdir (path : list Z)
| Run (r : result (cmd * list Z)).

Definition main_line (buf : list Z) : action :=
  match buf with
  | 99 :: 100 :: 32 :: _ => Chdir (drop 3 (take (length buf - 1) buf))
  | _ => Run (parsecmd buf)
  end.
