(* ===== verification/ShProof.v ===== *)
(** * The parser of the shell is total and right

    The parser returns a command or an error on every line within its
    fuel, and every word of a parsed command reads back as a NUL-terminated
    string. *)

From stdpp Require Import base numbers strings sets list.
From S2P Require Import Prelude Sh.

Local Open Scope Z_scope.

(** Characters of a word. *)
Definition word_char (c : Z) : bool := negb (strchr whitespace c) && negb (strchr symbols c).

Definition ends_word (s : list Z) : Prop := match s with [] => True | c :: _ => word_char c = false end.

(** The characters of a word. *)
Definition text (w : word) : list Z := take (length (wq w) - length (weq w)) (wq w).

(** A word of a command: an argument of one of its programs, or the file of
    one of its redirections. *)
Inductive word_of (w : word) : cmd -> Prop :=
| of_exec argv : w ∈ argv -> word_of w (execcmd argv)
| of_file c mode fd : word_of w (redircmd c w mode fd)
| of_redir c file mode fd : word_of w c -> word_of w (redircmd c file mode fd)
| of_pipe_left l r : word_of w l -> word_of w (pipecmd l r)
| of_pipe_right l r : word_of w r -> word_of w (pipecmd l r)
| of_list_left l r : word_of w l -> word_of w (listcmd l r)
| of_list_right l r : word_of w r -> word_of w (listcmd l r)
| of_back c : word_of w c -> word_of w (backcmd c).

(** All of them, in the order in which nulterminate ends them. *)
Fixpoint words (c : cmd) : list word :=
  match c with
  | execcmd argv => argv
  | redircmd c file _ _ => words c ++ [file]
  | pipecmd l r => words l ++ words r
  | listcmd l r => words l ++ words r
  | backcmd c => words c
  end.

Lemma word_of_words w c : word_of w c -> w ∈ words c.
Proof. induction 1; cbn [words]; rewrite ?elem_of_app; auto. right. by apply list_elem_of_singleton. Qed.

Lemma nulterminate_words s c : forall buf, nulterminate s c buf = foldl (end_word s) buf (words c).
Proof.
  induction c as [argv|c IH file mode fd|l IHl r IHr|l IHl r IHr|c IH]; intros buf; cbn [nulterminate words]; [done|..].
  - by rewrite foldl_app, IH.
  - by rewrite foldl_app, IHl, IHr.
  - by rewrite foldl_app, IHl, IHr.
  - apply IH.
Qed.

(** A word of the line [s]. *)
Definition word_ok (s : list Z) (w : word) : Prop :=
  wq w `suffix_of` s /\ wq w = text w ++ weq w /\ Forall (fun c => word_char c = true) (text w) /\
  text w <> [] /\ ends_word (weq w).

(** Chains of suffixes. *)
Ltac suffix :=
  match goal with
  | |- ?a `suffix_of` ?a => reflexivity
  | |- [] `suffix_of` _ => apply suffix_nil
  | H : ?a `suffix_of` ?b |- ?a `suffix_of` _ => apply (transitivity H); clear H; suffix
  end.

(** ** Tokens *)

Lemma strchr_spec set c : strchr set c = true <-> c ∈ set.
Proof.
  induction set as [|x set IH]; cbn [strchr]; [rewrite elem_of_nil; done|].
  destruct (Z.eqb_spec x c) as [->|Hne]; rewrite elem_of_cons; [by split; [left|]|]. rewrite IH. naive_solver.
Qed.

Lemma strchr_false set c : strchr set c = false <-> c ∉ set.
Proof. rewrite <- strchr_spec. by destruct (strchr set c). Qed.

Lemma skip_ws_suffix s : skip_ws s `suffix_of` s.
Proof.
  induction s as [|c s IH]; cbn [skip_ws]; [done|]. case_match; [|done]. by apply suffix_cons_r.
Qed.

Lemma skip_word_split s : exists t, s = t ++ skip_word s /\ Forall (fun c => word_char c = true) t /\
  ends_word (skip_word s) /\ (match s with c :: _ => word_char c = true -> t <> [] | [] => True end).
Proof.
  induction s as [|c s IH]; cbn [skip_word]; [by exists []|].
  fold (word_char c). destruct (word_char c) eqn:E.
  - destruct IH as (t & E1 & E2 & E3 & _). exists (c :: t). split_and!; [cbn; congruence|by constructor|done|done].
  - exists []. split_and!; [done|constructor|done|done].
Qed.

Lemma skip_ws_head s c t : skip_ws s = c :: t -> strchr whitespace c = false.
Proof.
  induction s as [|x s IH]; cbn [skip_ws]; [done|]. destruct (strchr whitespace x) eqn:E; [done|]. by intros [= <- _].
Qed.

Lemma peek_true ps toks ps' : peek ps toks = (true, ps') -> exists c t, ps' = c :: t /\ strchr toks c = true.
Proof. unfold peek. destruct (skip_ws ps) as [|c t]; intros [= E <-]. eauto. Qed.

Lemma peek_suffix ps toks b ps' : peek ps toks = (b, ps') -> ps' = skip_ws ps /\ ps' `suffix_of` ps.
Proof. unfold peek. intros [= _ <-]. split; [done|apply skip_ws_suffix]. Qed.

Lemma gettoken_spec ps tok w ps' : gettoken ps = (tok, w, ps') ->
  ps' `suffix_of` ps /\ (tok <> 0 -> (length ps' < length ps)%nat) /\
  (tok = 97 -> forall s, ps `suffix_of` s -> word_ok s w).
Proof.
  unfold gettoken. pose proof (skip_ws_suffix ps) as Hs. destruct (skip_ws ps) as [|c t] eqn:E.
  { intros [= <- <- <-]. split_and!; [apply suffix_nil|done|done]. }
  assert (Hgen : forall eq, eq `suffix_of` c :: t -> (length eq < length (c :: t))%nat ->
    skip_ws eq `suffix_of` ps /\ (length (skip_ws eq) < length ps)%nat).
  { intros eq He Hl. pose proof (skip_ws_suffix eq) as He'. split; [suffix|].
    apply suffix_length in He', Hs. lia. }
  assert (Htail : t `suffix_of` c :: t) by (by apply suffix_cons_r).
  destruct (strchr [124; 40; 41; 59; 38; 60] c) eqn:Esym.
  { intros [= <- <- <-]. destruct (Hgen t) as [H1 H2]; [done|cbn; lia|]. split_and!; [done|done|]. intros ->. done. }
  destruct (Z.eqb_spec c 62) as [->|Hgt].
  { destruct t as [|c' t']; [|destruct (Z.eqb_spec c' 62)]; intros [= <- <- <-].
    - destruct (Hgen []) as [H1 H2]; [apply suffix_nil|cbn; lia|]. by split_and!.
    - destruct (Hgen t') as [H1 H2]; [by do 2 apply suffix_cons_r|cbn; lia|]. by split_and!.
    - destruct (Hgen (c' :: t')) as [H1 H2]; [done|cbn; lia|]. by split_and!. }
  intros [= <- <- <-]. assert (Hc : word_char c = true).
  { unfold word_char. rewrite (skip_ws_head _ _ _ E). apply strchr_false in Esym. apply negb_true_iff, strchr_false.
    unfold symbols. set_solver. }
  destruct (skip_word_split (c :: t)) as (x & E1 & E2 & E3 & E4). specialize (E4 Hc).
  assert (Hx : (0 < length x)%nat) by (destruct x; [done|cbn; lia]).
  apply (f_equal length) in E1 as El. rewrite length_app in El.
  destruct (Hgen (skip_word (c :: t))) as [H1 H2]; [by exists x|lia|]. split_and!; [done|done|].
  intros _ s Hps. unfold word_ok, text. cbn [wq weq]. rewrite El, Nat.add_sub. 
  assert (take (length x) (c :: t) = x) as -> by (rewrite E1; apply take_app_length).
  split_and!; [suffix|exact E1|exact E2|exact E4|exact E3].
Qed.

(** The token at a symbol. *)
Lemma gettoken_symbol c t : c ∈ symbols -> exists tok eq, tok <> 0 /\ eq `suffix_of` t /\
  gettoken (c :: t) = (tok, mkword (c :: t) eq, skip_ws eq) /\ (c <> 62 -> eq = t).
Proof.
  unfold symbols. rewrite !elem_of_cons, elem_of_nil.
  intros [->|[->|[->|[->|[->|[->|[->|[]]]]]]]].
  1-2, 4-7: eexists _, t; (split_and!; [|reflexivity|reflexivity|done]); done.
  destruct t as [|c t]; [by exists 62, []|]. unfold gettoken. cbn. destruct (c =? 62); [|by exists 62, (c :: t)].
  exists 43, t. split_and!; [done|by apply suffix_cons_r|done|done].
Qed.

Lemma peek_token ps toks ps1 : peek ps toks = (true, ps1) -> Forall (fun c => c ∈ symbols) toks ->
  exists tok w ps2, gettoken ps1 = (tok, w, ps2) /\ ps2 `suffix_of` ps1 /\ (length ps2 < length ps1)%nat.
Proof.
  intros (c & t & -> & Hc%strchr_spec)%peek_true Hall. eapply Forall_forall in Hc; [|exact Hall]. cbn in Hc.
  destruct (gettoken_symbol c t Hc) as (tok & eq & Htok & _ & E & _). eexists _, _, _. split; [exact E|].
  destruct (gettoken_spec _ _ _ _ E) as (H1 & H2 & _). auto.
Qed.

Ltac symbols := repeat constructor; unfold Sh.symbols; set_solver.

(** ** The parser never runs out of fuel *)

(** A result for the line [s] read from [ps]. *)
Definition good (s ps : list Z) (r : result cmd) : Prop :=
  match r with
  | Ok c ps' => ps' `suffix_of` ps /\ Forall (word_ok s) (words c)
  | Err _ => True
  | OutOfFuel => False
  end.

Lemma good_weaken s ps ps' r : ps' `suffix_of` ps -> good s ps' r -> good s ps r.
Proof. unfold good. destruct r; try done. intros H [H1 H2]. split; [by etrans|done]. Qed.

Lemma good_bind s ps r f : good s ps r ->
  (forall c ps', ps' `suffix_of` ps -> Forall (word_ok s) (words c) -> good s ps' (f c ps')) ->
  good s ps (rbind r f).
Proof.
  intros Hr Hf. destruct r as [c ps'| |]; cbn in *; try done. destruct Hr as [H1 H2].
  eapply good_weaken; [exact H1|]. by apply Hf.
Qed.

Section line.
Context (s : list Z).

Lemma parseredirs_good fuel c ps : (length ps < fuel)%nat -> ps `suffix_of` s -> Forall (word_ok s) (words c) ->
  good s ps (parseredirs fuel c ps).
Proof.
  revert c ps. induction fuel as [|fuel IH]; intros c ps Hf Hs Hc; [lia|]. cbn [parseredirs].
  destruct (peek ps [60; 62]) as [b ps1] eqn:Ep. destruct (peek_suffix _ _ _ _ Ep) as [_ H1].
  destruct b; [|by split].
  destruct (gettoken ps1) as [[tok w1] ps2] eqn:E2. destruct (gettoken_spec _ _ _ _ E2) as (H2 & _ & _).
  destruct (gettoken ps2) as [[tok2 w] ps3] eqn:E3. destruct (gettoken_spec _ _ _ _ E3) as (H3 & Hl & Hw).
  destruct (Z.eqb_spec tok2 97) as [->|]; [|done]. cbn [negb].
  assert (Hps2 : ps2 `suffix_of` s) by suffix.
  specialize (Hl ltac:(done)). specialize (Hw eq_refl s Hps2). apply suffix_length in H1 as L1. apply suffix_length in H2 as L2.
  assert (Hgo : forall mode fd, good s ps (parseredirs fuel (redircmd c w mode fd) ps3)).
  { intros mode fd. eapply (good_weaken s ps ps3); [suffix|]. apply IH; [lia|suffix|].
    cbn. apply Forall_app. split; [done|]. by apply Forall_singleton. }
  destruct (tok =? 60); apply Hgo.
Qed.

Lemma set_argv_words argv c : Forall (word_ok s) argv -> Forall (word_ok s) (words c) ->
  Forall (word_ok s) (words (set_argv argv c)).
Proof.
  intros Ha. induction c as [| c IH| | |]; cbn; try done. intros [H1 H2]%Forall_app. apply Forall_app. auto.
Qed.

Lemma parseargs_good fuel ret argv ps : (length ps < fuel)%nat -> ps `suffix_of` s ->
  Forall (word_ok s) argv -> Forall (word_ok s) (words ret) -> good s ps (parseargs fuel ret argv ps).
Proof.
  revert ret argv ps. induction fuel as [|fuel IH]; intros ret argv ps Hf Hs Ha Hr; [lia|]. cbn [parseargs].
  destruct (peek ps _) as [b ps1] eqn:Ep. destruct (peek_suffix _ _ _ _ Ep) as [_ H1].
  destruct b; [by split|]. destruct (gettoken ps1) as [[tok w] ps2] eqn:E2.
  destruct (gettoken_spec _ _ _ _ E2) as (H2 & Hl & Hw). assert (H12 : ps2 `suffix_of` ps) by suffix.
  destruct (Z.eqb_spec tok 0); [by split|]. destruct (Z.eqb_spec tok 97) as [->|]; [|done]. cbn [negb].
  specialize (Hl ltac:(done)). specialize (Hw eq_refl s ltac:(suffix)). apply suffix_length in H1 as L1.
  case_match; [done|]. assert (Ha' : Forall (word_ok s) (argv ++ [w])) by (apply Forall_app; split; [done|by apply Forall_singleton]).
  eapply good_weaken; [exact H12|]. apply good_bind.
  - apply parseredirs_good; [lia|suffix|]. by apply set_argv_words.
  - intros c ps3 H3 Hc. apply suffix_length in H3 as L3. apply IH; [lia| |done|done]. suffix.
Qed.

Lemma parseback_good fuel c ps : (length ps < fuel)%nat -> ps `suffix_of` s -> Forall (word_ok s) (words c) ->
  good s ps (parseback fuel c ps).
Proof.
  revert c ps. induction fuel as [|fuel IH]; intros c ps Hf Hs Hc; [lia|]. cbn [parseback].
  destruct (peek ps _) as [b ps1] eqn:Ep. destruct (peek_suffix _ _ _ _ Ep) as [_ H1]. destruct b; [|by split].
  destruct (peek_token _ _ _ Ep) as (tok & w & ps2 & -> & H2 & L2); [symbols|]. apply (good_weaken s ps ps2); [suffix|].
  apply suffix_length in H1 as L1. apply IH; [lia|suffix|done].
Qed.

Lemma line_good fuel :
  (forall ps, ps `suffix_of` s -> (4 * length ps + 4 <= fuel)%nat -> good s ps (parseline fuel ps)) /\
  (forall ps, ps `suffix_of` s -> (4 * length ps + 3 <= fuel)%nat -> good s ps (parsepipe fuel ps)) /\
  (forall ps, ps `suffix_of` s -> (4 * length ps + 2 <= fuel)%nat -> good s ps (parseexec fuel ps)) /\
  (forall ps, ps `suffix_of` s -> (4 * length ps + 1 <= fuel)%nat -> good s ps (parseblock fuel ps)).
Proof.
  induction fuel as [|fuel (IHl & IHp & IHe & IHb)]; [split_and!; intros; lia|]. split_and!; intros ps Hs Hf.
  - cbn [parseline]. apply good_bind; [apply IHp; [done|lia]|]. intros c ps1 H1 Hc.
    apply good_bind; [apply parseback_good; [lia|suffix|done]|]. clear c Hc. intros c ps2 H2 Hc.
    destruct (peek ps2 [59]) as [b ps3] eqn:Ep. destruct (peek_suffix _ _ _ _ Ep) as [_ H3]. destruct b; [|by split].
    destruct (peek_token _ _ _ Ep) as (tok & w & ps4 & -> & H4 & L4); [symbols|]. apply (good_weaken s ps2 ps4); [suffix|].
    apply suffix_length in H1 as L1. apply suffix_length in H2 as L2. apply suffix_length in H3 as L3.
    apply good_bind; [apply IHl; [suffix|lia]|]. intros r ps5 H5 Hr. split; [done|]. cbn. by apply Forall_app.
  - cbn [parsepipe]. apply good_bind; [apply IHe; [done|lia]|]. intros c ps1 H1 Hc.
    destruct (peek ps1 [124]) as [b ps3] eqn:Ep. destruct (peek_suffix _ _ _ _ Ep) as [_ H3]. destruct b; [|by split].
    destruct (peek_token _ _ _ Ep) as (tok & w & ps4 & -> & H4 & L4); [symbols|]. apply (good_weaken s ps1 ps4); [suffix|].
    apply suffix_length in H1 as L1. apply suffix_length in H3 as L3.
    apply good_bind; [apply IHp; [suffix|lia]|]. intros r ps5 H5 Hr. split; [done|]. cbn. by apply Forall_app.
  - cbn [parseexec]. destruct (peek ps [40]) as [b ps1] eqn:Ep. destruct (peek_suffix _ _ _ _ Ep) as [_ H1].
    apply suffix_length in H1 as L1. apply (good_weaken s ps ps1); [suffix|]. destruct b; [apply IHb; [suffix|lia]|].
    apply good_bind; [apply parseredirs_good; [lia|suffix|by constructor]|]. intros c ps2 H2 Hc.
    apply parseargs_good; [lia|suffix|constructor|done].
  - cbn [parseblock]. destruct (peek ps [40]) as [b ps1] eqn:Ep. destruct (peek_suffix _ _ _ _ Ep) as [_ H1].
    destruct b; [|done]. cbn [negb]. destruct (peek_token _ _ _ Ep) as (tok & w & ps2 & -> & H2 & L2); [symbols|].
    apply suffix_length in H1 as L1. apply (good_weaken s ps ps2); [suffix|].
    apply good_bind; [apply IHl; [suffix|lia]|]. intros c ps3 H3 Hc.
    destruct (peek ps3 [41]) as [b ps4] eqn:Ep4. destruct (peek_suffix _ _ _ _ Ep4) as [_ H4].
    destruct b; [|done]. cbn [negb]. destruct (peek_token _ _ _ Ep4) as (tok' & w' & ps5 & -> & H5 & L5); [symbols|].
    apply (good_weaken s ps3 ps5); [suffix|]. apply parseredirs_good; [lia|suffix|done].
Qed.

End line.

(** ** Words are NUL-terminated *)

Lemma zeros_lookup (f : word -> nat) ws (buf : list Z) i :
  foldl (fun b w => <[f w := 0]> b) buf ws !! i =
    if decide (i < length buf /\ i ∈ map f ws)%nat then Some 0 else buf !! i.
Proof.
  revert buf. induction ws as [|w ws IH]; intros buf; cbn [foldl map].
  { rewrite decide_False; [done|]. rewrite elem_of_nil. tauto. }
  rewrite IH, length_insert. destruct (decide (i = f w)) as [->|Hne].
  - destruct (decide (f w < length buf)%nat) as [Hl|Hl].
    + rewrite (decide_True (P := (_ /\ f w ∈ f w :: _)%nat)) by (split; [done|left]).
      destruct (decide (_ /\ f w ∈ map f ws)); [done|]. by apply list_lookup_insert_eq.
    + rewrite !decide_False by tauto. rewrite !lookup_ge_None_2; [done|lia|rewrite length_insert; lia].
  - rewrite list_lookup_insert_ne by done. 
    destruct (decide (i < length buf /\ i ∈ map f ws)%nat) as [[H1 H2]|H].
    + rewrite decide_True; [done|]. split; [done|by right].
    + rewrite decide_False; [done|]. rewrite elem_of_cons. tauto.
Qed.

(** The character at the end of a word does not belong to a word. *)
Lemma word_end s w c : word_ok s w -> (s ++ [0]) !! (length s - length (weq w))%nat = Some c ->
  (length (weq w) <= length s)%nat /\ (word_char c = false \/ length (weq w) = O).
Proof.
  intros ((pre & E) & Hq & _ & _ & Hend) Hc. rewrite Hq in E. subst s. rewrite !length_app in *. split; [lia|].
  destruct (weq w) as [|c' t]; [by right|left]. cbn in Hend.
  rewrite app_assoc, <- (app_assoc _ _ [0]) in Hc. cbn [app] in Hc.
  rewrite lookup_app_r in Hc by (rewrite length_app; cbn; lia).
  replace (_ - _)%nat with O in Hc by (rewrite length_app; cbn [length]; lia). cbn in Hc. congruence.
Qed.

Lemma parsed_words s c : Forall (word_ok s) (words c) -> forall w, w ∈ words c ->
  let buf := nulterminate s c (s ++ [0]) in
  let pos := (length s - length (wq w))%nat in
  take (length (text w)) (drop pos buf) = text w /\ buf !! (pos + length (text w))%nat = Some 0.
Proof.
  intros Hall w Hw buf pos. set (f := fun w => (length s - length (weq w))%nat).
  assert (Hlook : forall i, buf !! i = if decide ((i < length (s ++ [0%Z]))%nat /\ i ∈ map f (words c)) then Some 0 else (s ++ [0]) !! i).
  { intros i. unfold buf. rewrite nulterminate_words. apply (zeros_lookup f). }
  pose proof (proj1 (Forall_forall _ _) Hall w Hw) as Hwo. pose proof Hwo as ((pre & E) & Hq & Ht & Hne & Hend).
  assert (Elen : length s = (length pre + (length (text w) + length (weq w)))%nat).
  { rewrite E, Hq, !length_app. done. }
  assert (Ewq : length (wq w) = (length (text w) + length (weq w))%nat) by (rewrite Hq at 1; by rewrite length_app).
  assert (Epos : pos = length pre) by (unfold pos; lia). rewrite Epos. split.
  - apply list_eq. intros i. destruct (decide (i < length (text w))%nat) as [Hi|Hi].
    2:{ rewrite !lookup_ge_None_2; [done|lia|rewrite length_take; lia]. }
    destruct (lookup_lt_is_Some_2 (text w) i Hi) as [x Hx]. rewrite lookup_take_lt, lookup_drop, Hlook, Hx by done.
    assert (Es : (s ++ [0]) !! (length pre + i)%nat = Some x).
    { rewrite E, Hq, <- !app_assoc, lookup_app_r, Nat.add_sub' by lia. by rewrite lookup_app_l. }
    rewrite decide_False; [done|]. intros [_ Hin]. apply list_elem_of_In, in_map_iff in Hin as (w' & Hp & Hw').
    apply list_elem_of_In in Hw'. pose proof (proj1 (Forall_forall _ _) Hall w' Hw') as Hwo'. unfold f in Hp.
    destruct (word_end s w' x Hwo' ltac:(by rewrite Hp)) as [Hle [Hf|Hz]]; [|lia].
    eapply Forall_lookup_1 in Hx; [|exact Ht]. cbn in Hx. congruence.
  - rewrite Hlook, decide_True; [done|]. rewrite length_app. cbn [length]. split; [lia|].
    apply list_elem_of_In. apply in_map_iff. exists w. split; [unfold f; lia|by apply list_elem_of_In].
Qed.

(** The word [w] of the command parsed from [s] is a NUL-terminated string in
    the line [buf]: the characters from its first one on are the characters
    the parser saw, all of them word characters, and the NUL follows; no
    word is damaged by the NUL that ends another. *)
Definition word_in (s buf : list Z) (w : word) : Prop :=
  let pos := (length s - length (wq w))%nat in
  text w <> [] /\ Forall (fun ch => word_char ch = true) (text w) /\ take (length (text w)) (drop pos s) = text w /\
  take (length (text w)) (drop pos buf) = text w /\ buf !! (pos + length (text w))%nat = Some 0.

Lemma parsecmd_words s c buf ps : parsecmd s = Ok (c, buf) ps -> forall w, w ∈ words c -> word_in s buf w.
Proof.
  unfold parsecmd. pose proof (proj1 (line_good s (parse_fuel s)) s ltac:(done) ltac:(unfold parse_fuel; lia)) as H.
  destruct (parseline (parse_fuel s) s) as [c' ps'| |]; cbn in *; [|done|done]. destruct H as [_ Hw].
  case_match; [|done]. intros [= <- <- <-] w Hin. unfold word_in. cbv zeta. destruct (parsed_words s c' Hw w Hin) as [H1 H2].
  pose proof (proj1 (Forall_forall _ _) Hw w Hin) as ((pre & E) & Hq & Ht & Hne & _). split_and!; try done.
  assert (length s - length (wq w) = length pre)%nat as -> by (rewrite E, length_app; lia).
  rewrite E, drop_app_length, Hq. apply take_app_length.
Qed.

(** C38. The parser is total: on every line it gives a command or reports a
    syntax error; the fuel of four steps per character, one for each level
    of the grammar, never runs out.  Every word of the command, argument or
    file name, is then a NUL-terminated string in the line, of the
    characters that were typed. *)
Theorem parsecmd_total (s : list Z) :
  match parsecmd s with
  | Ok (c, buf) _ => forall w, word_of w c -> word_in s buf w
  | Err _ => True
  | OutOfFuel => False
  end.
Proof.
  destruct (parsecmd s) as [[c buf] ps|msg|] eqn:E; [|done|].
  - intros w Hw. by apply (parsecmd_words s c buf ps E), word_of_words.
  - revert E. unfold parsecmd. pose proof (proj1 (line_good s (parse_fuel s)) s ltac:(done) ltac:(unfold parse_fuel; lia)) as H.
    destruct (parseline (parse_fuel s) s); cbn in *; [by case_match|done|done].
Qed.
