(* ===== verification/ShPrint.v ===== *)
(** * Printing and parsing shell commands

    A command is printed in the shell's syntax, with parentheses where the
    grammar needs them; parsing the text gives the command back. *)

From stdpp Require Import base numbers strings sets list.
From S2P Require Import Prelude Sh ShProof.

Local Open Scope Z_scope.

(** A command with the characters of its words. *)
Inductive tree : Type :=
| TExec (argv : list (list Z))
| TRedir (t : tree) (file : list Z) (mode fd : Z)
| TPipe (l r : tree)
| TList (l r : tree)
| TBack (t : tree).

Fixpoint tree_of (c : cmd) : tree :=
  match c with
  | execcmd argv => TExec (map text argv)
  | redircmd c w mode fd => TRedir (tree_of c) (text w) mode fd
  | pipecmd l r => TPipe (tree_of l) (tree_of r)
  | listcmd l r => TList (tree_of l) (tree_of r)
  | backcmd c => TBack (tree_of c)
  end.

(** What the shell can express: words of word characters, at most nine
    arguments, and the redirections of '<' and '>'. *)
Definition is_word (w : list Z) : Prop := w <> [] /\ Forall (fun c => word_char c = true) w.
Definition is_redir (mode fd : Z) : Prop := (mode = 0 /\ fd = 0) \/ (mode = 513 /\ fd = 1).

Fixpoint wf (t : tree) : Prop :=
  match t with
  | TExec argv => Forall is_word argv /\ (length argv < 10)%nat
  | TRedir t file mode fd => wf t /\ is_word file /\ is_redir mode fd
  | TPipe l r => wf l /\ wf r
  | TList l r => wf l /\ wf r
  | TBack t => wf t
  end.

(** The text of a command where the grammar wants a line, a line without
    ';', a pipeline, or a simple command. *)
Record texts : Type := mktexts { tline : list Z; tback : list Z; tpipe : list Z; texec : list Z }.

Definition paren (s : list Z) : list Z := [40] ++ s ++ [41].
Definition args_text (argv : list (list Z)) : list Z := concat (map (fun w => 32 :: w) argv).
Definition redir_text (file : list Z) (fd : Z) : list Z := (if fd =? 0 then 60 else 62) :: 32 :: file.

Fixpoint print (t : tree) : texts :=
  match t with
  | TExec argv => let e := args_text argv in mktexts e e e e
  | TRedir t file mode fd => let e := texec (print t) ++ redir_text file fd in mktexts e e e e
  | TPipe l r => let p := texec (print l) ++ [124] ++ tpipe (print r) in mktexts p p p (paren p)
  | TBack t => let b := tback (print t) ++ [38] in mktexts b b (paren b) (paren b)
  | TList l r => let s := tback (print l) ++ [59] ++ tline (print r) in mktexts s (paren s) (paren s) (paren s)
  end.

(** ** Tokens of a printed command *)

Lemma skip_ws_space s : skip_ws (32 :: s) = skip_ws s.
Proof. done. Qed.

Lemma word_char_spec c : word_char c = true <-> c ∉ whitespace /\ c ∉ symbols.
Proof. unfold word_char. rewrite andb_true_iff, !negb_true_iff, !strchr_false. done. Qed.

Lemma symbol_not_ws c : c ∈ symbols -> strchr whitespace c = false.
Proof. intros H. apply strchr_false. unfold symbols, whitespace in *. set_solver. Qed.

Lemma skip_ws_symbol c t : c ∈ symbols -> skip_ws (c :: t) = c :: t.
Proof. intros H. cbn [skip_ws]. by rewrite symbol_not_ws. Qed.

Lemma skip_ws_word w t : is_word w -> skip_ws (w ++ t) = w ++ t.
Proof.
  intros [Hne Hw]. destruct w as [|c w]; [done|]. apply Forall_cons in Hw as [Hc _].
  apply word_char_spec in Hc as [Hc _]. cbn [app skip_ws]. by rewrite (proj2 (strchr_false _ _) Hc).
Qed.

Lemma skip_word_app w t : Forall (fun c => word_char c = true) w -> ends_word t -> skip_word (w ++ t) = t.
Proof.
  induction 1 as [|c w Hc _ IH]; intros Ht; cbn [app skip_word].
  - destruct t as [|c t]; [done|]. cbn [ends_word skip_word] in *. unfold word_char in Ht. by rewrite Ht.
  - unfold word_char in Hc. rewrite Hc. by apply IH.
Qed.

Lemma gettoken_word w t : is_word w -> ends_word t ->
  gettoken (32 :: w ++ t) = (97, mkword (w ++ t) t, skip_ws t) /\ gettoken (w ++ t) = (97, mkword (w ++ t) t, skip_ws t) /\
  text (mkword (w ++ t) t) = w.
Proof.
  intros Hw Ht. assert (E : gettoken (w ++ t) = (97, mkword (w ++ t) t, skip_ws t)).
  { unfold gettoken. rewrite (skip_ws_word w t Hw). pose proof (skip_word_app w t (proj2 Hw) Ht) as Hs.
    destruct Hw as [Hne Hw]. destruct w as [|c w]; [done|]. apply Forall_cons in Hw as [Hc _].
    apply word_char_spec in Hc as [_ Hc]. cbn [app] in *. unfold symbols in Hc.
    rewrite (proj2 (strchr_false [124; 40; 41; 59; 38; 60] c)) by set_solver.
    rewrite (proj2 (Z.eqb_neq c 62)) by set_solver. by rewrite Hs. }
  split; [exact E|]. split; [exact E|]. unfold text. cbn [wq weq]. rewrite length_app, Nat.add_sub. apply take_app_length.
Qed.

(** What follows a piece of text: nothing, or one of the characters. *)
Definition follows (set : list Z) (t : list Z) : Prop :=
  match skip_ws t with [] => True | c :: _ => c ∈ set end.

Lemma follows_ends set t : (forall c, c ∈ set -> c ∈ symbols) -> follows set t -> ends_word t.
Proof.
  intros Hset. unfold follows, ends_word. destruct t as [|c t]; [done|]. cbn [skip_ws].
  destruct (strchr whitespace c) eqn:E; intros H; unfold word_char; [by rewrite E|].
  apply Hset, strchr_spec in H. rewrite H. by rewrite andb_false_r.
Qed.

Lemma peek_follows set toks t : follows set t -> (forall c, c ∈ set -> c ∉ toks) -> peek t toks = (false, skip_ws t).
Proof.
  unfold follows, peek. intros H Hd. destruct (skip_ws t) as [|c t']; [done|]. by rewrite (proj2 (strchr_false _ _) (Hd _ H)).
Qed.

Lemma follows_mono set set' t : (forall c, c ∈ set -> c ∈ set') -> follows set t -> follows set' t.
Proof. unfold follows. intros H. destruct (skip_ws t); [done|]. apply H. Qed.

Lemma follows_here set c t : c ∈ symbols -> c ∈ set -> follows set (c :: t).
Proof. intros Hs Hc. unfold follows. by rewrite skip_ws_symbol. Qed.

Lemma follows_skip set t : follows set t -> follows set (skip_ws t).
Proof.
  unfold follows. destruct (skip_ws t) as [|c t'] eqn:E; [done|]. pose proof (skip_ws_head _ _ _ E) as Hc.
  cbn [skip_ws]. by rewrite Hc.
Qed.

Lemma skip_ws_idemp t : skip_ws (skip_ws t) = skip_ws t.
Proof. destruct (skip_ws t) as [|c t'] eqn:E; [done|]. cbn [skip_ws]. by rewrite (skip_ws_head _ _ _ E). Qed.

(** The parsing functions skip white space first. *)
Lemma peek_skip t toks : peek (skip_ws t) toks = peek t toks.
Proof. unfold peek. by rewrite skip_ws_idemp. Qed.

Lemma parseredirs_skip fuel c t : parseredirs fuel c (skip_ws t) = parseredirs fuel c t.
Proof. destruct fuel; cbn [parseredirs]; [done|]. by rewrite peek_skip. Qed.

Lemma parseargs_skip fuel c argv t : parseargs fuel c argv (skip_ws t) = parseargs fuel c argv t.
Proof. destruct fuel; cbn [parseargs]; [done|]. by rewrite peek_skip. Qed.

Lemma parseback_skip fuel c t : parseback fuel c (skip_ws t) = parseback fuel c t.
Proof. destruct fuel; cbn [parseback]; [done|]. by rewrite peek_skip. Qed.

Lemma parseexec_skip fuel t : parseexec fuel (skip_ws t) = parseexec fuel t.
Proof. destruct fuel; cbn [parseexec]; [done|]. by rewrite peek_skip. Qed.

Lemma parsepipe_skip fuel t : parsepipe fuel (skip_ws t) = parsepipe fuel t.
Proof. destruct fuel; cbn [parsepipe]; [done|]. by rewrite parseexec_skip. Qed.

Lemma parseline_skip fuel t : parseline fuel (skip_ws t) = parseline fuel t.
Proof. destruct fuel; cbn [parseline]; [done|]. by rewrite parsepipe_skip. Qed.

Lemma length_skip_ws t : (length (skip_ws t) <= length t)%nat.
Proof. apply suffix_length, skip_ws_suffix. Qed.

(** ** Redirections *)

Definition redir : Type := list Z * Z * Z.
Definition redir_ok (r : redir) : Prop := is_word r.1.1 /\ is_redir r.1.2 r.2.
Definition redirs_text (rs : list redir) : list Z := concat (map (fun r => redir_text r.1.1 r.2) rs).
Definition wrap (rs : list redir) (t : tree) : tree := foldl (fun t r => TRedir t r.1.1 r.1.2 r.2) t rs.

(** No redirection follows. *)
Definition no_redir (t : list Z) : Prop := peek t [60; 62] = (false, skip_ws t) /\ ends_word t.

Lemma redirs_text_ends rs t : no_redir t -> ends_word (redirs_text rs ++ t).
Proof. intros [_ H]. destruct rs as [|r rs]; [done|]. cbn. by destruct (r.2 =? 0). Qed.

Lemma redirs_text_cons file mode fd rs t : redirs_text ((file, mode, fd) :: rs) ++ t =
  (if fd =? 0 then 60 else 62) :: 32 :: file ++ (redirs_text rs ++ t).
Proof. unfold redirs_text. cbn. by rewrite <- app_assoc. Qed.

Lemma args_text_cons w args t : args_text (w :: args) ++ t = 32 :: w ++ (args_text args ++ t).
Proof. unfold args_text. cbn. by rewrite <- app_assoc. Qed.

Lemma parseredirs_print rs : forall fuel c t, Forall redir_ok rs -> no_redir t ->
  (length (redirs_text rs ++ t) < fuel)%nat ->
  exists c', parseredirs fuel c (redirs_text rs ++ t) = Ok c' (skip_ws t) /\ tree_of c' = wrap rs (tree_of c).
Proof.
  induction rs as [|[[file mode] fd] rs IH]; intros fuel c t Hrs Ht Hf; (destruct fuel as [|fuel]; [lia|]).
  { exists c. cbn [redirs_text concat map app parseredirs]. by rewrite (proj1 Ht). }
  apply Forall_cons in Hrs as [[Hw Hr] Hrs]. cbn [fst snd] in *.
  rewrite redirs_text_cons in *. set (rest := redirs_text rs ++ t) in *.
  destruct (gettoken_word file rest Hw (redirs_text_ends rs t Ht)) as (Hg & _ & Htext).
  assert (Hp : peek ((if fd =? 0 then 60 else 62) :: 32 :: file ++ rest) [60; 62] =
    (true, (if fd =? 0 then 60 else 62) :: 32 :: file ++ rest)) by (by destruct (fd =? 0)).
  assert (Hg1 : exists w, gettoken ((if fd =? 0 then 60 else 62) :: 32 :: file ++ rest) =
    (if fd =? 0 then 60 else 62, w, skip_ws (file ++ rest))) by (destruct (fd =? 0); by eexists).
  destruct Hg1 as [w0 Hg1]. cbn [parseredirs]. rewrite Hp, Hg1, (skip_ws_word file rest Hw).
  destruct (gettoken_word file rest Hw (redirs_text_ends rs t Ht)) as (_ & -> & _). cbn [Z.eqb negb Pos.eqb].
  assert (Hl : (length rest < fuel)%nat) by (cbn [length] in Hf; rewrite length_app in Hf; lia).
  rewrite !parseredirs_skip. destruct Hr as [[-> ->]|[-> ->]]; cbn [Z.eqb Pos.eqb].
  - destruct (IH fuel (redircmd c (mkword (file ++ rest) rest) O_RDONLY 0) t Hrs Ht Hl) as (c' & E' & E).
    exists c'. split; [exact E'|]. rewrite E. cbn [tree_of]. by rewrite Htext.
  - destruct (IH fuel (redircmd c (mkword (file ++ rest) rest) (Z.lor O_WRONLY O_CREATE) 1) t Hrs Ht Hl) as (c' & E' & E).
    exists c'. split; [exact E'|]. rewrite E. cbn [tree_of]. by rewrite Htext.
Qed.

(** With the fuel the parser uses: one more than the text after white
    space. *)
Lemma parseredirs_run rs c t : Forall redir_ok rs -> no_redir t ->
  exists c', parseredirs (S (length (skip_ws (redirs_text rs ++ t)))) c (skip_ws (redirs_text rs ++ t)) = Ok c' (skip_ws t) /\
    tree_of c' = wrap rs (tree_of c).
Proof.
  intros Hrs Ht. rewrite parseredirs_skip. destruct rs as [|r rs].
  - exists c. cbn [redirs_text concat map app parseredirs]. by rewrite (proj1 Ht).
  - assert (skip_ws (redirs_text (r :: rs) ++ t) = redirs_text (r :: rs) ++ t) as ->.
    { destruct r as [[file mode] fd]. rewrite redirs_text_cons. by destruct (fd =? 0). }
    apply parseredirs_print; [done|done|lia].
Qed.

(** ** Simple commands *)

Definition after_exec : list Z := [124; 41; 38; 59].

Lemma after_exec_symbols c : c ∈ after_exec -> c ∈ symbols.
Proof. unfold after_exec, symbols. set_solver. Qed.

Lemma follows_no_redir t : follows after_exec t -> no_redir t.
Proof.
  intros H. split; [|by eapply follows_ends, H; apply after_exec_symbols].
  apply (peek_follows after_exec); [done|]. unfold after_exec. set_solver.
Qed.

Lemma words_no_redir w t : is_word w -> no_redir (32 :: w ++ t).
Proof.
  intros Hw. split; [|done]. unfold peek. rewrite skip_ws_space, skip_ws_word by done.
  destruct Hw as [Hne Hw]. destruct w as [|c w]; [done|]. apply Forall_cons in Hw as [Hc _]. cbn [app].
  apply word_char_spec in Hc as [_ Hc]. unfold symbols in Hc. rewrite (proj2 (strchr_false [60; 62] c)) by set_solver. done.
Qed.

Lemma parseargs_end fuel ret argv t : follows after_exec t -> (0 < fuel)%nat ->
  parseargs fuel ret argv t = Ok ret (skip_ws t).
Proof.
  intros H Hf. destruct fuel as [|fuel]; [lia|]. cbn [parseargs]. unfold peek, follows in *.
  destruct (skip_ws t) as [|c t']; [done|]. apply strchr_spec in H. unfold after_exec in H. by rewrite H.
Qed.

Lemma parseargs_print rs t : Forall redir_ok rs -> follows after_exec t ->
  forall args fuel argv, args <> [] -> Forall is_word args -> (length argv + length args < 10)%nat ->
  (length (args_text args ++ redirs_text rs ++ t) <= fuel)%nat ->
  exists c, parseargs fuel (execcmd argv) argv (args_text args ++ redirs_text rs ++ t) = Ok c (skip_ws t) /\
    tree_of c = wrap rs (TExec (map text argv ++ args)).
Proof.
  intros Hrs Ht. induction args as [|w args IH]; intros fuel argv Hne Hargs Hlen Hf; [done|].
  apply Forall_cons in Hargs as [Hw Hargs]. destruct fuel as [|fuel]; [rewrite args_text_cons in Hf; cbn in Hf; lia|].
  rewrite args_text_cons in *. set (rest := args_text args ++ redirs_text rs ++ t) in *.
  assert (Hends : ends_word rest).
  { unfold rest. destruct args; [|done]. apply redirs_text_ends. by apply follows_no_redir. }
  destruct (gettoken_word w rest Hw Hends) as (_ & Hg & Htext).
  assert (Hp : peek (32 :: w ++ rest) [124; 41; 38; 59] = (false, w ++ rest)).
  { unfold peek. rewrite skip_ws_space, skip_ws_word by done. destruct Hw as [Hwne Hw]. destruct w as [|c w]; [done|].
    apply Forall_cons in Hw as [Hc _]. apply word_char_spec in Hc as [_ Hc]. unfold symbols in Hc. cbn [app].
    rewrite (proj2 (strchr_false [124; 41; 38; 59] c)) by set_solver. done. }
  cbn [parseargs]. rewrite Hp, Hg. cbn [Z.eqb negb Pos.eqb set_argv].
  rewrite (proj2 (Nat.leb_gt _ _)) by (rewrite length_app; unfold MAXARGS; cbn [length] in *; lia).
  assert (Hl : (0 < length w)%nat) by (destruct Hw as [Hw _]; destruct w; [done|cbn; lia]).
  cbn [length] in Hf. rewrite length_app in Hf.
  destruct args as [|w2 args].
  - destruct (parseredirs_run rs (execcmd (argv ++ [mkword (w ++ rest) rest])) t Hrs)
      as (c & E & Htree); [by apply follows_no_redir|].
    change (redirs_text rs ++ t) with rest in E. rewrite E. cbn [rbind]. rewrite parseargs_skip.
    rewrite parseargs_end by (done || lia). exists c. split; [done|]. rewrite Htree. cbn [tree_of].
    rewrite map_app. cbn [map]. by rewrite Htext.
  - apply Forall_cons in Hargs as Hargs'. destruct Hargs' as [Hw2 _].
    assert (Hnr : no_redir rest) by (unfold rest; rewrite args_text_cons; by apply words_no_redir).
    assert (Hr : parseredirs (S (length (skip_ws rest))) (execcmd (argv ++ [mkword (w ++ rest) rest])) (skip_ws rest) =
      Ok (execcmd (argv ++ [mkword (w ++ rest) rest])) (skip_ws rest)).
    { cbn [parseredirs]. rewrite peek_skip, (proj1 Hnr). done. }
    rewrite Hr. cbn [rbind]. rewrite parseargs_skip.
    destruct (IH fuel (argv ++ [mkword (w ++ rest) rest])) as (c & E & Htree); [done|done| |unfold rest in *; lia|].
    { rewrite length_app. cbn [length] in *. lia. }
    exists c. split; [exact E|]. rewrite Htree, map_app, <- app_assoc. cbn [map app]. by rewrite Htext.
Qed.

(** ** The levels of the grammar *)

Definition parses_exec (t : tree) : Prop := forall rs rest fuel, Forall redir_ok rs -> follows after_exec rest ->
  (4 * length (texec (print t) ++ redirs_text rs ++ rest) + 2 <= fuel)%nat ->
  exists c, parseexec fuel (texec (print t) ++ redirs_text rs ++ rest) = Ok c (skip_ws rest) /\ tree_of c = wrap rs t.

Definition parses_pipe (t : tree) : Prop := forall rest fuel, follows [41; 38; 59] rest ->
  (4 * length (tpipe (print t) ++ rest) + 3 <= fuel)%nat ->
  exists c, parsepipe fuel (tpipe (print t) ++ rest) = Ok c (skip_ws rest) /\ tree_of c = t.

(** A line without ';' and [k] more '&'. *)
Definition parses_back (t : tree) : Prop := forall k rest fuel, follows [41; 59] rest ->
  (4 * length (tback (print t) ++ replicate k 38%Z ++ rest) + 3 <= fuel)%nat ->
  exists c, rbind (parsepipe fuel (tback (print t) ++ replicate k 38%Z ++ rest))
      (fun c ps => parseback (S (length ps)) c ps) = Ok c (skip_ws rest) /\ tree_of c = Nat.iter k TBack t.

Definition parses_line (t : tree) : Prop := forall rest fuel, follows [41] rest ->
  (4 * length (tline (print t) ++ rest) + 4 <= fuel)%nat ->
  exists c, parseline fuel (tline (print t) ++ rest) = Ok c (skip_ws rest) /\ tree_of c = t.

Lemma exec_words argv : wf (TExec argv) -> parses_exec (TExec argv).
Proof.
  intros [Hargs Hlen] rs rest fuel Hrs Hrest Hf. destruct fuel as [|fuel]; [lia|]. cbn [print texec] in *.
  cbn [parseexec]. destruct argv as [|w argv].
  - cbn [args_text concat map app] in *.
    assert (Hp : peek (redirs_text rs ++ rest) [40] = (false, skip_ws (redirs_text rs ++ rest))).
    { destruct rs as [|[[file mode] fd] rs].
      - apply (peek_follows after_exec); [done|]. unfold after_exec. set_solver.
      - rewrite redirs_text_cons. by destruct (fd =? 0). }
    rewrite Hp. destruct (parseredirs_run rs (execcmd []) rest Hrs (follows_no_redir _ Hrest)) as (c & E & Ht).
    rewrite E. cbn [rbind]. rewrite parseargs_skip, parseargs_end by (done || lia). by exists c.
  - apply Forall_cons in Hargs as Hw. destruct Hw as [Hw _].
    assert (Hp : peek (args_text (w :: argv) ++ redirs_text rs ++ rest) [40] =
      (false, skip_ws (args_text (w :: argv) ++ redirs_text rs ++ rest))).
    { rewrite args_text_cons. unfold peek. rewrite skip_ws_space, skip_ws_word by done. destruct Hw as [Hwne Hw].
      destruct w as [|c w]; [done|]. apply Forall_cons in Hw as [Hc _]. apply word_char_spec in Hc as [_ Hc].
      unfold symbols in Hc. cbn [app]. rewrite (proj2 (strchr_false [40] c)) by set_solver. done. }
    rewrite Hp. set (s := args_text (w :: argv) ++ redirs_text rs ++ rest) in *.
    assert (Hnr : no_redir s) by (unfold s; rewrite args_text_cons; by apply words_no_redir).
    assert (parseredirs (S (length (skip_ws s))) (execcmd []) (skip_ws s) = Ok (execcmd []) (skip_ws s)) as ->.
    { cbn [parseredirs]. by rewrite peek_skip, (proj1 Hnr). }
    cbn [rbind]. rewrite parseargs_skip.
    destruct (parseargs_print rs rest Hrs Hrest (w :: argv) (S (length (skip_ws s))) []) as (c & E & Ht);
      [done|done|cbn [length app] in *; lia| |by exists c].
    unfold s. rewrite args_text_cons, skip_ws_space, skip_ws_word by done. cbn. lia.
Qed.

Lemma rbind_ok {A B} (m : result A) (f : A -> list Z -> result B) b ps : rbind m f = Ok b ps ->
  exists a ps', m = Ok a ps' /\ f a ps' = Ok b ps.
Proof. destruct m; cbn; [eauto|done|done]. Qed.

(** A symbol that is there. *)
Lemma peek_here c set t : c ∈ symbols -> strchr set c = true -> peek (c :: t) set = (true, c :: t).
Proof. intros Hs Hc. unfold peek. rewrite skip_ws_symbol by done. by rewrite Hc. Qed.

Lemma gettoken_here c t : c ∈ symbols -> c <> 62 -> exists tok w, gettoken (c :: t) = (tok, w, skip_ws t).
Proof.
  intros Hs Hc. destruct (gettoken_symbol c t Hs) as (tok & eq & _ & _ & E & Heq). rewrite (Heq Hc) in E. eauto.
Qed.

Lemma exec_of_line t : texec (print t) = paren (tline (print t)) -> parses_line t -> parses_exec t.
Proof.
  intros Et Hl rs rest fuel Hrs Hrest Hf. rewrite Et in *. unfold paren in *. rewrite <- !app_assoc in *. cbn [app] in *.
  destruct fuel as [|[|fuel]]; [lia..|]. cbn [parseexec parseblock]. rewrite !peek_here by (done || by left || (unfold symbols; set_solver)).
  cbn [negb]. destruct (gettoken_here 40 (tline (print t) ++ 41 :: redirs_text rs ++ rest)) as (tok & w & ->);
    [unfold symbols; set_solver|done|]. rewrite parseline_skip. cbn [length] in Hf.
  destruct (Hl (41 :: redirs_text rs ++ rest) fuel) as (c & -> & Ht);
    [apply follows_here; unfold symbols; set_solver|lia|]. cbn [rbind].
  rewrite skip_ws_symbol by (unfold symbols; set_solver).
  rewrite peek_here by (done || (unfold symbols; set_solver)). cbn [negb].
  destruct (gettoken_here 41 (redirs_text rs ++ rest)) as (tok' & w' & ->); [unfold symbols; set_solver|done|].
  destruct (parseredirs_run rs c rest Hrs (follows_no_redir _ Hrest)) as (c' & E & Ht'). exists c'. by rewrite <- Ht.
Qed.

Lemma pipe_of_exec t : tpipe (print t) = texec (print t) -> parses_exec t -> parses_pipe t.
Proof.
  intros Et He rest fuel Hrest Hf. rewrite Et in *. destruct fuel as [|fuel]; [lia|]. cbn [parsepipe].
  destruct (He [] rest fuel) as (c & E & Ht); [constructor|by eapply follows_mono, Hrest; unfold after_exec; set_solver|cbn [redirs_text concat map app]; lia|].
  cbn [redirs_text concat map app] in E. rewrite E. cbn [rbind]. rewrite peek_skip.
  rewrite (peek_follows [41; 38; 59]) by (done || set_solver). by exists c.
Qed.

Lemma parseback_print k : forall fuel c rest, follows [41; 59] rest -> (k < fuel)%nat ->
  exists c', parseback fuel c (replicate k 38%Z ++ rest) = Ok c' (skip_ws rest) /\ tree_of c' = Nat.iter k TBack (tree_of c).
Proof.
  induction k as [|k IH]; intros fuel c rest Hrest Hf; (destruct fuel as [|fuel]; [lia|]); cbn [parseback replicate app].
  - rewrite (peek_follows [41; 59]) by (done || set_solver). by exists c.
  - rewrite peek_here by (done || (unfold symbols; set_solver)).
    destruct (gettoken_here 38 (replicate k 38 ++ rest)) as (tok & w & ->); [unfold symbols; set_solver|done|].
    rewrite parseback_skip. destruct (IH fuel (backcmd c) rest Hrest ltac:(lia)) as (c' & E & Ht).
    exists c'. split; [done|]. rewrite Ht. cbn [tree_of]. by rewrite Nat.iter_succ_r.
Qed.

Lemma back_of_pipe t : tback (print t) = tpipe (print t) -> parses_pipe t -> parses_back t.
Proof.
  intros Et Hp k rest fuel Hrest Hf. rewrite Et in *.
  destruct (Hp (replicate k 38 ++ rest) fuel) as (c & -> & Ht); [|lia|].
  - destruct k; cbn [replicate app]; [eapply follows_mono, Hrest; set_solver|].
    apply follows_here; unfold symbols; set_solver.
  - cbn [rbind]. rewrite parseback_skip.
    destruct (parseback_print k (S (length (skip_ws (replicate k 38 ++ rest)))) c rest Hrest) as (c' & E & Ht').
    { destruct k; [lia|]. cbn [replicate app]. rewrite skip_ws_symbol by (unfold symbols; set_solver).
      cbn [length]. rewrite length_app, length_replicate. lia. }
    exists c'. by rewrite <- Ht.
Qed.

Lemma line_of_back t : tline (print t) = tback (print t) -> parses_back t -> parses_line t.
Proof.
  intros Et Hb rest fuel Hrest Hf. rewrite Et in *. destruct fuel as [|fuel]; [lia|]. cbn [parseline].
  destruct (Hb O rest fuel) as (c & E & Ht); [eapply follows_mono, Hrest; set_solver|cbn [replicate app]; lia|].
  cbn [replicate app] in E. apply rbind_ok in E as (c0 & ps & -> & E). cbn [rbind]. rewrite E. cbn [rbind].
  rewrite peek_skip, (peek_follows [41]) by (done || set_solver). by exists c.
Qed.

(** ** Every command *)

Lemma pipe_of_pipe l r : parses_exec l -> parses_pipe r -> parses_pipe (TPipe l r).
Proof.
  intros Hl Hr rest fuel Hrest Hf. cbn [print tpipe] in *. rewrite <- !app_assoc in *. cbn [app] in *.
  destruct fuel as [|fuel]; [lia|]. cbn [parsepipe].
  destruct (Hl [] (124 :: tpipe (print r) ++ rest) fuel) as (c & E & Htl);
    [constructor|apply follows_here; unfold symbols, after_exec; set_solver|cbn [redirs_text concat map app]; lia|].
  cbn [redirs_text concat map app] in E. rewrite E. cbn [rbind]. rewrite peek_skip, peek_here by (done || (unfold symbols; set_solver)).
  destruct (gettoken_here 124 (tpipe (print r) ++ rest)) as (tok & w & ->); [unfold symbols; set_solver|done|].
  rewrite parsepipe_skip. rewrite length_app in Hf. cbn [length] in Hf.
  destruct (Hr rest fuel Hrest) as (c' & -> & Htr); [lia|]. cbn [rbind]. exists (pipecmd c c'). split; [done|].
  cbn [tree_of]. rewrite Htl, Htr. done.
Qed.

Lemma back_of_back t : parses_back t -> parses_back (TBack t).
Proof.
  intros Hb k rest fuel Hrest Hf. cbn [print tback] in *. rewrite <- !app_assoc in *. cbn [app] in *.
  destruct (Hb (S k) rest fuel Hrest Hf) as (c & E & Ht). exists c. split; [exact E|]. by rewrite Ht, Nat.iter_succ_r.
Qed.

Lemma line_of_list l r : parses_back l -> parses_line r -> parses_line (TList l r).
Proof.
  intros Hl Hr rest fuel Hrest Hf. cbn [print tline] in *. rewrite <- !app_assoc in *. cbn [app] in *.
  destruct fuel as [|fuel]; [lia|]. cbn [parseline].
  destruct (Hl O (59 :: tline (print r) ++ rest) fuel) as (c & E & Htl);
    [apply follows_here; unfold symbols; set_solver|cbn [replicate app]; lia|].
  cbn [replicate app] in E. apply rbind_ok in E as (c0 & ps & -> & E). cbn [rbind]. rewrite E. cbn [rbind].
  rewrite peek_skip, peek_here by (done || (unfold symbols; set_solver)).
  destruct (gettoken_here 59 (tline (print r) ++ rest)) as (tok & w & ->); [unfold symbols; set_solver|done|].
  rewrite parseline_skip. rewrite length_app in Hf. cbn [length] in Hf.
  destruct (Hr rest fuel Hrest) as (c' & -> & Htr); [lia|]. cbn [rbind]. exists (listcmd c c'). split; [done|].
  cbn [tree_of]. rewrite Htl, Htr. done.
Qed.

Lemma exec_of_redir t file mode fd : is_word file -> is_redir mode fd -> parses_exec t -> parses_exec (TRedir t file mode fd).
Proof.
  intros Hw Hr He rs rest fuel Hrs Hrest Hf. cbn [print texec] in *.
  assert (E : (texec (print t) ++ redir_text file fd) ++ redirs_text rs ++ rest =
    texec (print t) ++ redirs_text ((file, mode, fd) :: rs) ++ rest).
  { rewrite redirs_text_cons, <- app_assoc. done. }
  rewrite E in *. by apply (He ((file, mode, fd) :: rs) rest fuel); [constructor|..].
Qed.

Lemma parses_all t : wf t -> parses_exec t /\ parses_pipe t /\ parses_back t /\ parses_line t.
Proof.
  induction t as [argv|t IH file mode fd|l IHl r IHr|l IHl r IHr|t IH]; intros Hwf.
  - assert (He : parses_exec (TExec argv)) by (by apply exec_words).
    assert (Hp := pipe_of_exec (TExec argv) eq_refl He). assert (Hb := back_of_pipe (TExec argv) eq_refl Hp).
    pose proof (line_of_back (TExec argv) eq_refl Hb). done.
  - destruct Hwf as (Hwf & Hw & Hr). assert (He : parses_exec (TRedir t file mode fd)) by (apply exec_of_redir; [done|done|apply IH, Hwf]).
    assert (Hp := pipe_of_exec (TRedir t file mode fd) eq_refl He).
    assert (Hb := back_of_pipe (TRedir t file mode fd) eq_refl Hp).
    pose proof (line_of_back (TRedir t file mode fd) eq_refl Hb). done.
  - destruct Hwf as [Hl Hr]. assert (Hp : parses_pipe (TPipe l r)) by (apply pipe_of_pipe; [by apply IHl|by apply IHr]).
    assert (Hb := back_of_pipe (TPipe l r) eq_refl Hp). assert (Hli := line_of_back (TPipe l r) eq_refl Hb).
    pose proof (exec_of_line (TPipe l r) eq_refl Hli). done.
  - destruct Hwf as [Hl Hr]. assert (Hp : parses_line (TList l r)) by (apply line_of_list; [by apply IHl|by apply IHr]).
    assert (He := exec_of_line (TList l r) eq_refl Hp). assert (Hpi := pipe_of_exec (TList l r) eq_refl He).
    pose proof (back_of_pipe (TList l r) eq_refl Hpi). done.
  - assert (Hb : parses_back (TBack t)) by (apply back_of_back, IH, Hwf).
    assert (Hli := line_of_back (TBack t) eq_refl Hb). assert (He := exec_of_line (TBack t) eq_refl Hli).
    pose proof (pipe_of_exec (TBack t) eq_refl He). done.
Qed.

(** C10. Printing and parsing: for every command the shell can express (any
    nesting of pipes, lists, background commands, parentheses and
    redirections, words of word characters, at most nine arguments each)
    the parser reads the printed command, to the end of the line, as that
    command. *)
Theorem parse_print t : wf t -> exists c buf, parsecmd (tline (print t)) = Ok (c, buf) [] /\ tree_of c = t.
Proof.
  intros Hwf. destruct (parses_all t Hwf) as (_ & _ & _ & Hl). unfold parsecmd.
  destruct (Hl [] (parse_fuel (tline (print t)))) as (c & E & Ht); [done|rewrite app_nil_r; unfold parse_fuel; lia|].
  rewrite app_nil_r in E. rewrite E. cbn. eauto.
Qed.

(** (ls -l | wc > f) ; echo & *)
Definition tree0 : tree :=
  TList (TRedir (TPipe (TExec [[108; 115]; [45; 108]]) (TExec [[119; 99]])) [102] 513 1) (TBack (TExec [[101; 99; 104; 111]])).

Lemma parse_print_witness : exists c buf, parsecmd (tline (print tree0)) = Ok (c, buf) [] /\ tree_of c = tree0.
Proof.
  apply (parse_print tree0). cbn.
  repeat (split || constructor || (intros H; discriminate H)); try (vm_compute; reflexivity); try (right; split; reflexivity); lia.
Defined.
