(* ===== verification/Syscall.v ===== *)
(** * syscall.c: arguments of system calls

    The kernel reads the arguments of a system call from the user stack,
    through pointers the user controls.  [um] is the memory of the current
    process as the kernel sees it, [sz] its size, [esp] the saved stack
    pointer.  The theorems show that whatever the user passes, an accepted
    pointer lies with its whole buffer below [sz], and an accepted string
    ends below [sz]. *)

From stdpp Require Import base numbers strings list.
From S2P Require Import Prelude Kstring Mmu.

Local Open Scope Z_scope.

(** The functions return -1 ([None]), or 0 with the value stored through
    their pointer argument. *)
Definition fetchint (sz : Z) (um : memory) (addr : Z) : option Z :=
  if (sz <=? addr) || (sz <? u32 (addr + 4)) then None else Some (i32 (load32 addr um)).

(** The loop of fetchstr from [s], at most [n] bytes to ep. *)
Fixpoint fetchstr_loop (n : nat) (um : memory) (s start : Z) : option Z :=
  match n with
  | O => None
  | S n => if um s =? 0 then Some (s - start) else fetchstr_loop n um (u32 (s + 1)) start
  end.

(** The pointer and the length of the string. *)
Definition fetchstr (sz : Z) (um : memory) (addr : Z) : option (Z * Z) :=
  if sz <=? addr then None
  else len ← fetchstr_loop (Z.to_nat (sz - addr)) um addr addr; Some (addr, len).

Definition argint (sz : Z) (um : memory) (esp : Z) (n : Z) : option Z :=
  fetchint sz um (u32 (esp + 4 + 4 * n)).

Definition argptr (sz : Z) (um : memory) (esp : Z) (n size : Z) : option Z :=
  i ← argint sz um esp n;
  if (size <? 0) || (sz <=? u32 i) || (sz <? u32 (u32 i + size)) then None else Some (u32 i).

Definition argstr (sz : Z) (um : memory) (esp : Z) (n : Z) : option (Z * Z) :=
  addr ← argint sz um esp n;
  fetchstr sz um (u32 addr).

(** The table syscalls[], by system call number. *)
Inductive sysname : Type :=
| sys_fork | sys_exit | sys_wait | sys_pipe | sys_read | sys_kill | sys_exec | sys_fstat | sys_chdir
| sys_dup | sys_getpid | sys_sbrk | sys_sleep | sys_uptime | sys_open | sys_write | sys_mknod
| sys_unlink | sys_link | sys_mkdir | sys_close | sys_uthread_init | sys_getpinfo | sys_setSchedPolicy
| sys_yield.

Definition syscalls : list (option sysname) :=
  None :: map Some
    [sys_fork; sys_exit; sys_wait; sys_pipe; sys_read; sys_kill; sys_exec; sys_fstat; sys_chdir;
     sys_dup; sys_getpid; sys_sbrk; sys_sleep; sys_uptime; sys_open; sys_write; sys_mknod;
     sys_unlink; sys_link; sys_mkdir; sys_close; sys_uthread_init; sys_getpinfo; sys_setSchedPolicy;
     sys_yield].

(** The function syscall() calls for the number in eax; [None] is the
    branch that prints "unknown sys call" and returns -1. *)
Definition syscall_lookup (num : Z) : option sysname :=
  if (0 <? num) && (num <? Z.of_nat (length syscalls)) then default None (syscalls !! Z.to_nat num) else None.

(** ** Bounds *)

(** A process is below the kernel; allocuvm refuses a size above
    KERNBASE. *)
Definition small (sz : Z) : Prop := 0 <= sz <= KERNBASE.

Lemma fetchint_spec sz um addr v : small sz -> in_u32 addr ->
  fetchint sz um addr = Some v <-> addr + 4 <= sz /\ v = i32 (load32 addr um).
Proof.
  unfold small, in_u32, KERNBASE, fetchint. intros Hs Ha.
  destruct (Z.leb_spec sz addr); cbn [orb]; [split; [done|lia]|].
  rewrite u32_id by (unfold in_u32; lia). destruct (Z.ltb_spec sz (addr + 4)).
  - split; [done|lia].
  - split; [intros [= <-]; split; [lia|done]|by intros [_ ->]].
Qed.

Lemma fetchstr_loop_spec um start n s : 0 <= s -> s + Z.of_nat n <= KERNBASE ->
  match fetchstr_loop n um s start with
  | Some len => exists k, 0 <= k < Z.of_nat n /\ len = s + k - start /\ um (s + k) = 0 /\
      forall i, 0 <= i < k -> um (s + i) <> 0
  | None => forall i, 0 <= i < Z.of_nat n -> um (s + i) <> 0
  end.
Proof.
  revert s. induction n as [|n IH]; intros s Hs Hn; cbn [fetchstr_loop]; [intros i Hi; lia|].
  destruct (Z.eqb_spec (um s) 0) as [E|E].
  - exists 0. rewrite Z.add_0_r. split_and!; [lia|lia|lia|done|]. intros i Hi. lia.
  - rewrite u32_id by (unfold in_u32, KERNBASE in *; lia).
    assert (Hshift : forall i, i <> 0 -> s + i = s + 1 + (i - 1)) by (intros; lia).
    specialize (IH (s + 1) ltac:(lia) ltac:(lia)). destruct (fetchstr_loop n um (s + 1) start) as [len|].
    + destruct IH as (k & Hk & -> & Hz & Hnz). exists (k + 1). replace (s + (k + 1)) with (s + 1 + k) by lia.
      split_and!; [lia|lia|lia|done|]. intros i Hi. destruct (decide (i = 0)) as [->|Hi0]; [by rewrite Z.add_0_r|].
      rewrite (Hshift i) by done. apply Hnz. lia.
    + intros i Hi. destruct (decide (i = 0)) as [->|Hi0]; [by rewrite Z.add_0_r|]. rewrite (Hshift i) by done. apply IH. lia.
Qed.

Lemma fetchstr_spec sz um addr : small sz -> in_u32 addr ->
  match fetchstr sz um addr with
  | Some (p, len) => p = addr /\ 0 <= len /\ addr + len < sz /\ um (addr + len) = 0 /\
      forall i, 0 <= i < len -> um (addr + i) <> 0
  | None => forall i, addr <= i < sz -> um i <> 0
  end.
Proof.
  unfold small, in_u32, fetchstr. intros Hs Ha. destruct (Z.leb_spec sz addr); [intros i Hi; lia|].
  pose proof (fetchstr_loop_spec um addr (Z.to_nat (sz - addr)) addr ltac:(lia) ltac:(lia)) as H'.
  destruct (fetchstr_loop _ _ _ _) as [len|]; cbn.
  - destruct H' as (k & Hk & -> & Hz & Hnz). replace (addr + k - addr) with k by lia. split_and!; try done; lia.
  - intros i Hi. replace i with (addr + (i - addr)) by lia. apply H'. lia.
Qed.

(** C35. Arguments stay within the process.  For a process of a size up to
    KERNBASE, any stack pointer and any values on the stack: argint
    succeeds exactly when the word of the argument lies in the process;
    argptr of a buffer of [size] bytes succeeds exactly when moreover the
    size is not negative and the whole buffer, from a pointer below sz,
    ends at most at sz (no 32-bit sum wraps past the checks); argstr
    succeeds exactly when there is a NUL between the pointer and sz, and
    then gives the length of the string before the first one. *)
Theorem args_within_process sz um esp n size : small sz ->
  let a := u32 (esp + 4 + 4 * n) in
  let p := u32 (i32 (load32 a um)) in
  (forall v, argint sz um esp n = Some v <-> a + 4 <= sz /\ v = i32 (load32 a um)) /\
  (forall q, -2147483648 <= size < 2147483648 ->
     argptr sz um esp n size = Some q <-> a + 4 <= sz /\ q = p /\ 0 <= size /\ p < sz /\ p + size <= sz) /\
  (forall q len, argstr sz um esp n = Some (q, len) <->
     a + 4 <= sz /\ q = p /\ 0 <= len /\ p + len < sz /\ um (p + len) = 0 /\ forall i, 0 <= i < len -> um (p + i) <> 0).
Proof.
  intros Hs a p. pose proof (fun v => fetchint_spec sz um a v Hs (u32_bound _)) as Hint.
  pose proof (u32_bound (i32 (load32 a um))) as Hp. fold p in Hp. split_and!.
  - exact Hint.
  - intros q Hsize. unfold argptr, argint. fold a. destruct (fetchint sz um a) as [v|] eqn:E; cbn.
    2:{ split; [done|]. intros (Ha & _). by pose proof (proj2 (Hint _) (conj Ha eq_refl)). }
    destruct (proj1 (Hint v) eq_refl) as [Ha ->]. fold p. unfold small, in_u32, KERNBASE in *.
    destruct (Z.ltb_spec size 0); cbn [orb]; [split; [done|lia]|].
    destruct (Z.leb_spec sz p); cbn [orb]; [split; [done|lia]|].
    rewrite u32_id by (unfold in_u32; lia). destruct (Z.ltb_spec sz (p + size)); [split; [done|lia]|].
    split; [intros [= <-]; lia|]. by intros (_ & -> & _).
  - intros q len. unfold argstr, argint. fold a. destruct (fetchint sz um a) as [v|] eqn:E; cbn.
    2:{ split; [done|]. intros (Ha & _). by pose proof (proj2 (Hint _) (conj Ha eq_refl)). }
    destruct (proj1 (Hint v) eq_refl) as [Ha ->]. fold p. pose proof (fetchstr_spec sz um p Hs Hp) as H'. split.
    + intros E2. rewrite E2 in H'. tauto.
    + intros (_ & -> & Hl & Hlt & Hz & Hnz). destruct (fetchstr sz um p) as [[q len']|].
      * destruct H' as (-> & Hl' & _ & Hz' & Hnz'). do 2 f_equal.
        destruct (Z.lt_trichotomy len len') as [Hlt'|[->|Hlt']]; [|done|].
        -- by destruct (Hnz' len ltac:(lia)).
        -- by destruct (Hnz len' ltac:(lia)).
      * by destruct (H' (p + len) ltac:(unfold in_u32 in *; lia)).
Qed.

(** A process with the word 8 as its first argument, and "hi" at 8. *)
Definition um0 : memory := fun a => if a =? 4 then 8 else if a =? 8 then 104 else if a =? 9 then 105 else 0.

Lemma args_within_process_witness :
  (forall v, argint 4096 um0 0 0 = Some v <-> u32 (0 + 4 + 4 * 0) + 4 <= 4096 /\ v = i32 (load32 (u32 (0 + 4 + 4 * 0)) um0)) /\
  argptr 4096 um0 0 0 4088 = Some 8 /\ argptr 4096 um0 0 0 4089 = None /\ argstr 4096 um0 0 0 = Some (8, 2).
Proof.
  pose proof (args_within_process 4096 um0 0 0 4088 ltac:(unfold small, KERNBASE; lia)) as (H1 & H2 & H3).
  split; [exact H1|]. split; [apply H2; [lia|by vm_compute]|]. split; [by vm_compute|].
  by vm_compute.
Defined.
