(* ===== verification/File.v ===== *)
(** * file.c, and pipealloc of pipe.c

    The table of open files.  An open file is a pipe end or an inode with
    an offset, and is shared by reference count.  The state is what proc.c
    sees of the rest of the kernel: the file system, the file table, the
    pipes and the page allocator; [ProcEnv] is implemented on it, so that
    the theorems proved of proc.c against that interface apply. *)

From stdpp Require Import base numbers strings gmap list.
From S2P Require Import Prelude Kmonad Kstring Mmu Kalloc Locks Vm Proc Pipe Block Log Fs.

Local Open Scope Z_scope.

Inductive ftype : Type := FD_NONE | FD_PIPE | FD_INODE.

Record file : Type := mkfile {
  fty : ftype;
  fref : Z;               (* reference count *)
  readable : bool;
  writable : bool;
  fpipe : Z;              (* address of the pipe *)
  fip : nat;              (* inode *)
  foff : Z
}.

Definition set_fref (r : Z) (f : file) : file :=
  mkfile (fty f) r (readable f) (writable f) (fpipe f) (fip f) (foff f).
Definition set_foff (o : Z) (f : file) : file :=
  mkfile (fty f) (fref f) (readable f) (writable f) (fpipe f) (fip f) o.
Definition set_fty (t : ftype) (f : file) : file :=
  mkfile t (fref f) (readable f) (writable f) (fpipe f) (fip f) (foff f).
Definition set_pipe (r w : bool) (pa : Z) (f : file) : file :=
  mkfile FD_PIPE (fref f) r w pa (fip f) (foff f).
Definition set_inode (r w : bool) (ip : nat) (f : file) : file :=
  mkfile FD_INODE (fref f) r w (fpipe f) ip 0.

Record kenv (S : Type) : Type := mkkenv {
  kfs : fs S;
  ftable : list file;     (* ftable.file[NFILE] *)
  kpipes : Z -> pipe;     (* the pipe at an address *)
  kkmem : kmem
}.
Arguments mkkenv {S}.
Arguments kfs {S}.
Arguments ftable {S}.
Arguments kpipes {S}.
Arguments kkmem {S}.

Definition fs_lens {S} : lens (kenv S) (fs S) :=
  Lens kfs (fun v k => mkkenv v (ftable k) (kpipes k) (kkmem k)).
Definition ft_lens {S} : lens (kenv S) (list file) :=
  Lens ftable (fun v k => mkkenv (kfs k) v (kpipes k) (kkmem k)).
Definition kmem_lens {S} : lens (kenv S) kmem :=
  Lens kkmem (fun v k => mkkenv (kfs k) (ftable k) (kpipes k) v).
Definition pipe_lens {S} (pa : Z) : lens (kenv S) pipe :=
  Lens (fun k => kpipes k pa)
    (fun v k => mkkenv (kfs k) (ftable k) (fun a => if a =? pa then v else kpipes k a) (kkmem k)).

(** *** The table itself *)

(** Dereferencing a file pointer. *)
Definition get_file (i : nat) : K (list file) file :=
  o ← gets (fun t => t !! i);
  match o with Some f => mret f | None => panic "trap" end.
Definition upd_file (i : nat) (f : file -> file) : K (list file) unit := modify (alter f i).

Definition filealloc : K (list file) (option nat) :=
  acquire L_ftable;;
  t ← get;
  match find_idx (fun f => fref f =? 0) t with
  | Some i => upd_file i (set_fref 1);; release L_ftable;; mret (Some i)
  | None => release L_ftable;; mret None
  end.

Definition filedup (i : nat) : K (list file) nat :=
  acquire L_ftable;;
  f ← get_file i;
  if fref f <? 1 then panic "filedup"
  else upd_file i (fun f => set_fref (fref f + 1) f);; release L_ftable;; mret i.

(** The part of fileclose under the lock: the file to shut down when this
    was the last reference. *)
Definition fileclose_ref (i : nat) : K (list file) (option file) :=
  acquire L_ftable;;
  f ← get_file i;
  if fref f <? 1 then panic "fileclose"
  else
    upd_file i (fun f => set_fref (fref f - 1) f);;
    if 0 <? fref f - 1 then release L_ftable;; mret None
    else upd_file i (set_fty FD_NONE);; release L_ftable;; mret (Some f).

Section file.
Context {S : Type} `{BlockOps S}.
Variable devsw_read : Z -> option (nat -> Z -> K (fs S) (Z * bytes)).
Variable devsw_write : Z -> option (nat -> bytes -> Z -> K (fs S) Z).
(** Addresses of kernel.ld, and the frame buffer. *)
Variables kend kdata vram_size pvram_addr : Z.

Abbreviation on_fs m := (zoom (@fs_lens S) m).
Abbreviation on_oplog m := (zoom (@fs_lens S) (zoom log_lens m)).
Abbreviation on_ft m := (zoom (@ft_lens S) m).
Abbreviation on_kmem m := (zoom (@kmem_lens S) m).
Abbreviation on_pipe pa m := (zoom (@pipe_lens S pa) m).

Definition fileclose (i : nat) : K (kenv S) unit :=
  ff ← on_ft (fileclose_ref i);
  match ff with
  | None => mret tt
  | Some f =>
      match fty f with
      | FD_PIPE =>
          last ← on_pipe (fpipe f) (pipeclose (fpipe f) (writable f));
          when last (on_kmem (kfree kend (fpipe f)))
      | FD_INODE => on_oplog begin_op;; on_fs (iput (fip f));; on_oplog end_op
      | FD_NONE => mret tt
      end
  end.

Definition filestat (i : nat) : K (kenv S) (option stat) :=
  f ← on_ft (get_file i);
  match fty f with
  | FD_INODE =>
      on_fs (ilock (fip f));;
      st ← on_fs (stati (fip f));
      on_fs (iunlock (fip f));;
      mret (Some st)
  | _ => mret None
  end.

(** fileread: [inl tt] when it sleeps in the pipe, else the value and the
    bytes stored at addr. *)
Definition fileread (killed : bool) (i : nat) (n : Z) : K (kenv S) (unit + Z * bytes) :=
  f ← on_ft (get_file i);
  if negb (readable f) then mret (inr (-1, []))
  else match fty f with
       | FD_PIPE => on_pipe (fpipe f) (piperead (fpipe f) killed n)
       | FD_INODE =>
           on_fs (ilock (fip f));;
           r ← on_fs (readi devsw_read (fip f) (foff f) n);
           (if 0 <? fst r then on_ft (upd_file i (fun f => set_foff (u32 (foff f + fst r)) f)) else mret tt);;
           on_fs (iunlock (fip f));;
           mret (inr r)
       | FD_NONE => panic "fileread"
       end.

(** [((MAXOPBLOCKS-1-1-2) / 2) * 512] *)
Definition write_max : Z := Z.quot (MAXOPBLOCKS - 1 - 1 - 2) 2 * 512.

(** The loop of filewrite: [i] bytes are written, [addr] holds the rest. *)
Fixpoint filewrite_loop (fuel : nat) (fi : nat) (addr : bytes) (i n : Z) : K (kenv S) Z :=
  match fuel with
  | O => mret (if i =? n then n else -1)
  | Datatypes.S fuel =>
      if i <? n then
        let n1 := Z.min (n - i) write_max in
        on_oplog begin_op;;
        f ← on_ft (get_file fi);
        on_fs (ilock (fip f));;
        r ← on_fs (writei devsw_write (fip f) addr (foff f) n1);
        (if 0 <? r then on_ft (upd_file fi (fun f => set_foff (u32 (foff f + r)) f)) else mret tt);;
        on_fs (iunlock (fip f));;
        on_oplog end_op;;
        if r <? 0 then mret (if i =? n then n else -1)
        else if negb (r =? n1) then panic "short filewrite"
        else filewrite_loop fuel fi (drop (Z.to_nat r) addr) (i + r) n
      else mret (if i =? n then n else -1)
  end.

(** filewrite: [inl todo] when it sleeps in the pipe. *)
Definition filewrite (killed : bool) (i : nat) (addr : bytes) (n : Z) : K (kenv S) (bytes + Z) :=
  f ← on_ft (get_file i);
  if negb (writable f) then mret (inr (-1))
  else match fty f with
       | FD_PIPE => on_pipe (fpipe f) (pipewrite (fpipe f) killed n addr)
       | FD_INODE =>
           r ← filewrite_loop (Datatypes.S (Z.to_nat n)) i addr 0 n;
           mret (inr r)
       | FD_NONE => panic "filewrite"
       end.

(** pipealloc: the two files, or [None] with everything given back. *)
Definition close_opt (o : option nat) : K (kenv S) unit :=
  match o with Some i => fileclose i | None => mret tt end.

Definition pipealloc : K (kenv S) (option (nat * nat)) :=
  f0 ← on_ft filealloc;
  match f0 with
  | None => mret None
  | Some i0 =>
      f1 ← on_ft filealloc;
      match f1 with
      | None => fileclose i0;; mret None
      | Some i1 =>
          p ← on_kmem kalloc;
          if p =? 0 then fileclose i0;; fileclose i1;; mret None
          else
            on_pipe p (modify (fun q => pipe_init (pdata q)));;
            on_ft (upd_file i0 (set_pipe true false p));;
            on_ft (upd_file i1 (set_pipe false true p));;
            mret (Some (i0, i1))
      end
  end.

(** What proc.c calls.  userinit's namei is of "/", which does not look at
    the current directory. *)
#[export] Instance kenv_env : ProcEnv (kenv S) := {
  env_kalloc := on_kmem kalloc;
  env_kfree v := on_kmem (kfree kend v);
  env_setupkvm := on_kmem (setupkvm kend kdata vram_size pvram_addr);
  env_inituvm d b := on_kmem (inituvm d b);
  env_allocuvm d o n := on_kmem (allocuvm kend d o n);
  env_deallocuvm d o n := on_kmem (deallocuvm kend d o n);
  env_copyuvm d z := on_kmem (copyuvm kend kdata vram_size pvram_addr d z);
  env_freevm d := on_kmem (freevm kend d);
  env_filedup i := on_ft (filedup i);
  env_fileclose i := fileclose i;
  env_idup i := on_fs (idup i);
  env_iput i := on_fs (iput i);
  env_namei path := on_fs (namei devsw_read 0 path);
  env_begin_op := on_oplog begin_op;
  env_end_op := on_oplog end_op
}.

End file.
