(* ===== verification/SysFile.v ===== *)
(** * sysfile.c: the file system calls

    Argument checking and the calls into file.c and fs.c.  The system call
    runs for the current process of a CPU; [um] is the memory of that
    process as the kernel sees it.  What a call stores in user memory is
    part of its result, as a list of addresses and bytes.  A value [None]
    stands for the C value -1 where the call has more than one result. *)

From stdpp Require Import base numbers strings gmap list.
From S2P Require Import Prelude Kmonad Kstring Mmu Kalloc Locks Vm Proc Pipe Block Log Fs File Syscall.

Local Open Scope Z_scope.

Definition O_RDONLY : Z := 0.
Definition O_WRONLY : Z := 1.
Definition O_RDWR : Z := 2.
Definition O_CREATE : Z := 512.

(** The bytes of user memory a system call stored. *)
Definition stores : Type := list (Z * bytes).

Section sysfile.
Context {S : Type} `{BlockOps S}.
Variable devsw_read : Z -> option (nat -> Z -> K (fs S) (Z * bytes)).
Variable devsw_write : Z -> option (nat -> bytes -> Z -> K (fs S) Z).
Variables kend kdata vram_size pvram_addr : Z.
Variable um : memory.

Abbreviation KS := (K (pst (kenv S))).
Abbreviation on_fs m := (zoom env_lens (zoom (@fs_lens S) m)).
Abbreviation on_op m := (zoom env_lens (zoom (@fs_lens S) (zoom log_lens m))).
Abbreviation on_ft m := (zoom env_lens (zoom (@ft_lens S) m)).
Abbreviation fclose i := (zoom env_lens (fileclose kend i)).
Abbreviation irec i := (on_fs (get_ip i)).
Abbreviation namei_ d path := (on_fs (namei devsw_read d path)).
Abbreviation nameiparent_ d path name := (on_fs (nameiparent devsw_read d path name)).
Abbreviation dirlink_ dp name n := (on_fs (dirlink devsw_read devsw_write dp name n)).
Abbreviation dirlookup_ dp name := (on_fs (dirlookup devsw_read dp name)).

(** *** The current process and its arguments *)

Definition cur_index : KS nat := me ← myproc; deref me.
Definition curproc : KS proc := i ← cur_index; o ← getp i; deref o.
Definition upd_cur (f : proc -> proc) : KS unit := i ← cur_index; updp i f.

Definition arg_int (n : Z) : KS (option Z) :=
  p ← curproc; mret (argint (sz p) um (tf_esp (tf p)) n).
Definition arg_ptr (n size : Z) : KS (option Z) :=
  p ← curproc; mret (argptr (sz p) um (tf_esp (tf p)) n size).

(** The characters of a string argument, with its NUL. *)
Definition user_bytes (a n : Z) : bytes := map (fun i => um (u32 (a + Z.of_nat i))) (seq 0 (Z.to_nat n)).
Definition arg_str (n : Z) : KS (option bytes) :=
  p ← curproc;
  mret ('(a, len) ← argstr (sz p) um (tf_esp (tf p)) n; Some (user_bytes a (len + 1))).

(** The descriptor and its file. *)
Definition argfd (n : Z) : KS (option (nat * nat)) :=
  r ← arg_int n;
  p ← curproc;
  mret (match r with
        | None => None
        | Some fd =>
            if (fd <? 0) || (Z.of_nat NOFILE <=? fd) then None
            else match ofile p !! Z.to_nat fd with
                 | Some (Some f) => Some (Z.to_nat fd, f)
                 | _ => None
                 end
        end).

Definition is_free (o : option nat) : bool := match o with None => true | Some _ => false end.

(** The lowest free descriptor takes the file over. *)
Definition fdalloc (f : nat) : KS (option nat) :=
  p ← curproc;
  match find_idx is_free (ofile p) with
  | Some fd => upd_cur (fun p => set_ofile (<[fd := Some f]> (ofile p)) p);; mret (Some fd)
  | None => mret None
  end.

(** *** Descriptors *)

Definition sys_dup : KS Z :=
  r ← argfd 0;
  match r with
  | None => mret (-1)
  | Some (_, f) =>
      fd ← fdalloc f;
      match fd with
      | None => mret (-1)
      | Some fd => on_ft (filedup f);; mret (Z.of_nat fd)
      end
  end.

Definition sys_read : KS (unit + Z * stores) :=
  r ← argfd 0;
  n ← arg_int 2;
  p ← arg_ptr 1 (default 0 n);
  match r, n, p with
  | Some (_, f), Some n, Some p =>
      cur ← curproc;
      v ← zoom env_lens (fileread devsw_read (killed cur) f n);
      mret (match v with inl u => inl u | inr (v, bs) => inr (v, [(p, bs)]) end)
  | _, _, _ => mret (inr (-1, []))
  end.

Definition sys_write : KS (bytes + Z) :=
  r ← argfd 0;
  n ← arg_int 2;
  p ← arg_ptr 1 (default 0 n);
  match r, n, p with
  | Some (_, f), Some n, Some p =>
      cur ← curproc;
      zoom env_lens (filewrite devsw_write (killed cur) f (user_bytes p n) n)
  | _, _, _ => mret (inr (-1))
  end.

Definition sys_close : KS Z :=
  r ← argfd 0;
  match r with
  | None => mret (-1)
  | Some (fd, f) =>
      upd_cur (fun p => set_ofile (<[fd := None]> (ofile p)) p);;
      fclose f;;
      mret 0
  end.

(** struct stat as stored: type, dev, ino, nlink, size. *)
Definition stat_bytes (st : stat) : bytes :=
  le_bytes 2 (st_type st) ++ [0; 0] ++ le_bytes 4 (st_dev st) ++ le_bytes 4 (st_ino st) ++
  le_bytes 2 (st_nlink st) ++ [0; 0] ++ le_bytes 4 (st_size st).

Definition sys_fstat : KS (Z * stores) :=
  r ← argfd 0;
  p ← arg_ptr 1 20;
  match r, p with
  | Some (_, f), Some p =>
      st ← zoom env_lens (filestat f);
      mret (match st with Some st => (0, [(p, stat_bytes st)]) | None => (-1, []) end)
  | _, _ => mret (-1, [])
  end.

(** *** Names *)

Definition cur_cwd : KS nat := p ← curproc; deref (cwd p).

Definition set_nlink_by (d : Z) (i : nat) : KS unit :=
  on_fs (upd_ip i (fun x => set_nlink (i16 (nlink x + d)) x));; on_fs (iupdate i).

(** The label bad of sys_link. *)
Definition link_bad (i : nat) : KS Z :=
  on_fs (ilock i);; set_nlink_by (-1) i;; on_fs (iunlockput i);; on_op end_op;; mret (-1).

Definition sys_link : KS Z :=
  old ← arg_str 0;
  new ← arg_str 1;
  match old, new with
  | Some old, Some new =>
      on_op begin_op;;
      d ← cur_cwd;
      r ← namei_ d old;
      match r with
      | None => on_op end_op;; mret (-1)
      | Some i =>
          on_fs (ilock i);;
          ip ← irec i;
          if itype ip =? T_DIR then on_fs (iunlockput i);; on_op end_op;; mret (-1)
          else
            set_nlink_by 1 i;;
            on_fs (iunlock i);;
            d ← cur_cwd;
            r ← nameiparent_ d new (replicate DIRSIZ 0);
            match r with
            | None => link_bad i
            | Some (dp, name) =>
                on_fs (ilock dp);;
                x ← irec dp;
                ip ← irec i;
                bad ← ((if negb (idev x =? idev ip) then mret true
                        else v ← dirlink_ dp name (inum ip); mret (v <? 0)) : KS bool);
                if (bad : bool) then on_fs (iunlockput dp);; link_bad i
                else
                  on_fs (iunlockput dp);;
                  on_fs (iput i);;
                  on_op end_op;;
                  mret 0
            end
      end
  | _, _ => mret (-1)
  end.

(** The loop of isdirempty from [off]. *)
Fixpoint isdirempty_from (fuel dp : nat) (off : Z) : KS bool :=
  match fuel with
  | O => mret true
  | Datatypes.S fuel =>
      ip ← irec dp;
      if off <? isize ip then
        r ← on_fs (readi devsw_read dp off sizeof_dirent);
        if negb (fst r =? sizeof_dirent) then panic "isdirempty: readi"
        else if negb (de_inum (snd r) =? 0) then mret false
        else isdirempty_from fuel dp (off + sizeof_dirent)
      else mret true
  end.

Definition isdirempty (dp : nat) : KS bool :=
  ip ← irec dp;
  isdirempty_from (Z.to_nat (isize ip / sizeof_dirent) + 1) dp (2 * sizeof_dirent).

(** "." and ".." *)
Definition dot : bytes := [46; 0].
Definition dotdot : bytes := [46; 46; 0].

Definition unlink_bad (dp : nat) : KS Z := on_fs (iunlockput dp);; on_op end_op;; mret (-1).

Definition sys_unlink : KS Z :=
  path ← arg_str 0;
  match path with
  | None => mret (-1)
  | Some path =>
      on_op begin_op;;
      d ← cur_cwd;
      r ← nameiparent_ d path (replicate DIRSIZ 0);
      match r with
      | None => on_op end_op;; mret (-1)
      | Some (dp, name) =>
          on_fs (ilock dp);;
          if (namecmp name dot =? 0) || (namecmp name dotdot =? 0) then unlink_bad dp
          else
            r ← dirlookup_ dp name;
            match r with
            | None => unlink_bad dp
            | Some (i, off) =>
                on_fs (ilock i);;
                ip ← irec i;
                if nlink ip <? 1 then panic "unlink: nlink < 1"
                else
                  full ← (if itype ip =? T_DIR then e ← isdirempty i; mret (negb e) else mret false);
                  if (full : bool) then on_fs (iunlockput i);; unlink_bad dp
                  else
                    w ← on_fs (writei devsw_write dp (replicate 16 0) off sizeof_dirent);
                    if negb (w =? sizeof_dirent) then panic "unlink: writei"
                    else
                      (if itype ip =? T_DIR then set_nlink_by (-1) dp else mret tt);;
                      on_fs (iunlockput dp);;
                      set_nlink_by (-1) i;;
                      on_fs (iunlockput i);;
                      on_op end_op;;
                      mret 0
            end
      end
  end.

Definition create (path : bytes) (type major minor : Z) : KS (option nat) :=
  d ← cur_cwd;
  r ← nameiparent_ d path (replicate DIRSIZ 0);
  match r with
  | None => mret None
  | Some (dp, name) =>
      on_fs (ilock dp);;
      r ← dirlookup_ dp name;
      match r with
      | Some (i, _) =>
          on_fs (iunlockput dp);;
          on_fs (ilock i);;
          ip ← irec i;
          if (type =? T_FILE) && (itype ip =? T_FILE) then mret (Some i)
          else on_fs (iunlockput i);; mret None
      | None =>
          x ← irec dp;
          i ← on_fs (ialloc (idev x) type);
          on_fs (ilock i);;
          on_fs (upd_ip i (fun y =>
            mkinode (idev y) (inum y) (iref y) (ilk y) (ivalid y) (itype y) (i16 major) (i16 minor) 1 (isize y) (addrs y)));;
          on_fs (iupdate i);;
          (if type =? T_DIR then
             set_nlink_by 1 dp;;
             ip ← irec i;
             x ← irec dp;
             a ← dirlink_ i dot (inum ip);
             b ← ((if a <? 0 then mret a else dirlink_ i dotdot (inum x)) : KS Z);
             if b <? 0 then panic "create dots" else mret tt
           else mret tt);;
          ip ← irec i;
          v ← dirlink_ dp name (inum ip);
          if v <? 0 then panic "create: dirlink"
          else on_fs (iunlockput dp);; mret (Some i)
      end
  end.

(** The inode of sys_open, locked, or [None]. *)
Definition open_inode (path : bytes) (omode : Z) : KS (option nat) :=
  if negb (Z.land omode O_CREATE =? 0) then create path T_FILE 0 0
  else
    d ← cur_cwd;
    r ← namei_ d path;
    match r with
    | None => mret None
    | Some i =>
        on_fs (ilock i);;
        ip ← irec i;
        if (itype ip =? T_DIR) && negb (omode =? O_RDONLY) then on_fs (iunlockput i);; mret None
        else mret (Some i)
    end.

Definition sys_open : KS Z :=
  path ← arg_str 0;
  omode ← arg_int 1;
  match path, omode with
  | Some path, Some omode =>
      on_op begin_op;;
      r ← open_inode path omode;
      match r with
      | None => on_op end_op;; mret (-1)
      | Some i =>
          f ← on_ft filealloc;
          fd ← match f with Some f => fdalloc f | None => mret None end;
          match f, fd with
          | Some f, Some fd =>
              on_fs (iunlock i);;
              on_op end_op;;
              on_ft (upd_file f (set_inode (Z.land omode O_WRONLY =? 0)
                (negb (Z.land omode O_WRONLY =? 0) || negb (Z.land omode O_RDWR =? 0)) i));;
              mret (Z.of_nat fd)
          | _, _ =>
              (match f with Some f => fclose f | None => mret tt end);;
              on_fs (iunlockput i);;
              on_op end_op;;
              mret (-1)
          end
      end
  | _, _ => mret (-1)
  end.

Definition sys_mkdir : KS Z :=
  on_op begin_op;;
  path ← arg_str 0;
  r ← match path with Some path => create path T_DIR 0 0 | None => mret None end;
  match r with
  | None => on_op end_op;; mret (-1)
  | Some i => on_fs (iunlockput i);; on_op end_op;; mret 0
  end.

Definition sys_mknod : KS Z :=
  on_op begin_op;;
  path ← arg_str 0;
  major ← arg_int 1;
  minor ← arg_int 2;
  r ← match path, major, minor with
      | Some path, Some major, Some minor => create path T_DEV major minor
      | _, _, _ => mret None
      end;
  match r with
  | None => on_op end_op;; mret (-1)
  | Some i => on_fs (iunlockput i);; on_op end_op;; mret 0
  end.

Definition sys_chdir : KS Z :=
  on_op begin_op;;
  path ← arg_str 0;
  d ← cur_cwd;
  r ← match path with Some path => namei_ d path | None => mret None end;
  match r with
  | None => on_op end_op;; mret (-1)
  | Some i =>
      on_fs (ilock i);;
      ip ← irec i;
      if negb (itype ip =? T_DIR) then on_fs (iunlockput i);; on_op end_op;; mret (-1)
      else
        on_fs (iunlock i);;
        d ← cur_cwd;
        on_fs (iput d);;
        on_op end_op;;
        upd_cur (set_cwd (Some i));;
        mret 0
  end.

(** The argument vector of sys_exec: the strings at the pointers from
    [uargv + 4 * i] on, up to the null pointer. *)
Fixpoint exec_args (fuel : nat) (sz uargv i : Z) : option (list bytes) :=
  match fuel with
  | O => None
  | Datatypes.S fuel =>
      if MAXARG <=? i then None
      else
        uarg ← fetchint sz um (u32 (uargv + 4 * i));
        if uarg =? 0 then Some []
        else
          '(a, len) ← fetchstr sz um (u32 uarg);
          rest ← exec_args fuel sz uargv (i + 1);
          Some (user_bytes a (len + 1) :: rest)
  end.

(** The path and arguments sys_exec passes to exec, or -1. *)
Definition sys_exec_args : KS (option (bytes * list bytes)) :=
  path ← arg_str 0;
  uargv ← arg_int 1;
  p ← curproc;
  mret (path ← path; uargv ← uargv; argv ← exec_args 33 (sz p) (u32 uargv) 0; Some (path, argv)).

Definition sys_pipe : KS (Z * stores) :=
  fd ← arg_ptr 0 8;
  match fd with
  | None => mret (-1, [])
  | Some fd =>
      r ← zoom env_lens (pipealloc kend);
      match r with
      | None => mret (-1, [])
      | Some (rf, wf) =>
          fd0 ← fdalloc rf;
          fd1 ← match fd0 with Some _ => fdalloc wf | None => mret None end;
          match fd0, fd1 with
          | Some fd0, Some fd1 =>
              mret (0, [(fd, le_bytes 4 (Z.of_nat fd0)); (u32 (fd + 4), le_bytes 4 (Z.of_nat fd1))])
          | _, _ =>
              (match fd0 with
               | Some fd0 => upd_cur (fun p => set_ofile (<[fd0 := None]> (ofile p)) p)
               | None => mret tt
               end);;
              fclose rf;;
              fclose wf;;
              mret (-1, [])
          end
      end
  end.

(** The current process, seen from the outside. *)
Lemma wlp_cur_index s c (Q : nat -> pst (kenv S) -> ctx -> Prop) R :
  (forall k i, cpus s !! this s = Some k -> cproc k = Some i -> Q i s c) -> wlp (cur_index : KS nat) Q R s c.
Proof.
  intros HQ. unfold cur_index, myproc. lsteps. destruct (cpus s !! this s) as [k|] eqn:E; [|by cbn; lsteps].
  cbn. destruct (cproc k) as [i|] eqn:E'; cbn; [|by lsteps]. lsteps. by eapply HQ.
Qed.

Lemma wlp_curproc s c (Q : proc -> pst (kenv S) -> ctx -> Prop) R :
  (forall k i p, cpus s !! this s = Some k -> cproc k = Some i -> ptable s !! i = Some p -> Q p s c) ->
  wlp (curproc : KS proc) Q R s c.
Proof.
  intros HQ. unfold curproc. lsteps. apply wlp_cur_index. intros k i Hk Hi. unfold getp. lsteps.
  destruct (ptable s !! i) as [p|] eqn:E; [|done]. cbn. lsteps. by eapply HQ.
Qed.

End sysfile.
