(* ===== verification/FileRefs.v ===== *)
(** * Reference counts of open files

    The reference count of an entry of the file table is the number of
    descriptors, over all processes, that name it, up to the references in
    flight: a call that has taken a reference and not yet stored it in a
    descriptor, or cleared a descriptor and not yet closed the file, holds
    one; dup between fdalloc and filedup, and exit between fileclose and
    [ofile[fd] = 0], owe one.  [seg] are the pieces of the calls between
    which another process may run, each under one lock or one store; the
    invariant holds after any sequence of pieces of any processes.  The
    calls of sysfile.c and proc.c, run to their end or to their first sleep,
    are such sequences. *)

From stdpp Require Import base numbers strings gmap list.
From S2P Require Import Prelude Kmonad Kstring Mmu Kalloc Locks Vm Proc Pipe Block Bio Log LogRuns Fs FsRuns VmRuns File Syscall SysFile.

Local Open Scope Z_scope.

(** *** Counting *)

Definition names (i : nat) (o : option nat) : Z := if decide (o = Some i) then 1 else 0.

Lemma names_None i : names i None = 0.
Proof. done. Qed.

Ltac count_lia := rewrite ?names_None in *; lia.

Fixpoint fd_count (i : nat) (fds : list (option nat)) : Z :=
  match fds with
  | [] => 0
  | o :: fds => names i o + fd_count i fds
  end.

Fixpoint proc_count (i : nat) (l : list proc) : Z :=
  match l with
  | [] => 0
  | p :: l => fd_count i (ofile p) + proc_count i l
  end.

Lemma fd_count_insert i fds fd o o' : fds !! fd = Some o ->
  fd_count i (<[fd := o']> fds) = fd_count i fds - names i o + names i o'.
Proof.
  revert fd. induction fds as [|a fds IH]; intros [|fd] H; try done.
  - injection H as ->. change (<[O := o']> (o :: fds)) with (o' :: fds). cbn [fd_count]. lia.
  - change (<[S fd := o']> (a :: fds)) with (a :: <[fd := o']> fds). cbn [fd_count]. rewrite (IH fd H). lia.
Qed.

Lemma proc_count_alter i l j p f : l !! j = Some p ->
  proc_count i (alter f j l) = proc_count i l - fd_count i (ofile p) + fd_count i (ofile (f p)).
Proof.
  revert j. induction l as [|q l IH]; intros [|j] H; try done.
  - injection H as ->. change (alter f O (p :: l)) with (f p :: l). cbn [proc_count]. lia.
  - change (alter f (S j) (q :: l)) with (q :: alter f j l). cbn [proc_count]. rewrite (IH j H). lia.
Qed.

(** How often file [i] is in a list. *)
Fixpoint times (i : nat) (l : list nat) : Z :=
  match l with
  | [] => 0
  | f :: l => names i (Some f) + times i l
  end.

Lemma times_app i l1 l2 : times i (l1 ++ l2) = times i l1 + times i l2.
Proof. induction l1 as [|f l1 IH]; cbn [times app]; [done|]. rewrite IH. lia. Qed.

Definition count_of (t : list file) (i : nat) : Z := default 0 (fref <$> t !! i).

(** *** References in flight *)

(** Files held by a call that runs, and the descriptors (slot, number, file)
    whose reference is not counted. *)
Record flight : Type := mkfl {
  held_refs : list nat;
  owed : list (nat * nat * nat)
}.

Definition none : flight := mkfl [] [].

Definition in_flight (i : nat) (t : flight) : Z := times i (held_refs t) - times i (snd <$> owed t).

(** Slots without a process, or with one that has exited. *)
Definition dead (p : proc) : Prop := pstate p = UNUSED \/ pstate p = ZOMBIE.

Definition closed (p : proc) : Prop := Forall (fun o => o = None) (ofile p).

Definition no_files (p : proc) : Prop := dead p -> closed p.

Section refs.
Context {S : Type}.
Implicit Types (s : pst (kenv S)) (t : flight).

Definition set_ft (tb : list file) s : pst (kenv S) := set_env (lset ft_lens tb (env s)) s.

Definition put_fd (i fd : nat) (o : option nat) s : pst (kenv S) :=
  set_ptable (alter (fun p => set_ofile (<[fd := o]> (ofile p)) p) i (ptable s)) s.

(** What all other code does: the counts and the descriptors stay, and a
    process that exits or a slot that is freed has no descriptor. *)
Definition kept (p p' : proc) : Prop := ofile p' = ofile p /\ (dead p' -> dead p \/ closed p).

Definition rest s s' : Prop :=
  (forall i, count_of (ftable (env s')) i = count_of (ftable (env s)) i) /\ Forall2 kept (ptable s) (ptable s').

Inductive seg : pst (kenv S) * flight -> pst (kenv S) * flight -> Prop :=
| seg_alloc s h w f tb c c' : filealloc (ftable (env s)) c = Ret (Some f) tb c' ->
    seg (s, mkfl h w) (set_ft tb s, mkfl (f :: h) w)
| seg_dup s h w f a tb c c' : filedup f (ftable (env s)) c = Ret a tb c' ->
    seg (s, mkfl h w) (set_ft tb s, mkfl (f :: h) w)
| seg_close s h1 h2 w f o tb c c' : fileclose_ref f (ftable (env s)) c = Ret o tb c' ->
    seg (s, mkfl (h1 ++ f :: h2) w) (set_ft tb s, mkfl (h1 ++ h2) w)
| seg_give s h1 h2 w i p fd f : ptable s !! i = Some p -> ~ dead p -> ofile p !! fd = Some None ->
    seg (s, mkfl (h1 ++ f :: h2) w) (put_fd i fd (Some f) s, mkfl (h1 ++ h2) w)
| seg_take s h w i p fd f : ptable s !! i = Some p -> ofile p !! fd = Some (Some f) -> (i, fd) ∉ w.*1 ->
    seg (s, mkfl h w) (put_fd i fd None s, mkfl (f :: h) w)
| seg_name s h w i p fd f : ptable s !! i = Some p -> ~ dead p -> ofile p !! fd = Some None ->
    seg (s, mkfl h w) (put_fd i fd (Some f) s, mkfl h ((i, fd, f) :: w))
| seg_count s h w1 w2 i fd f a tb c c' : filedup f (ftable (env s)) c = Ret a tb c' ->
    seg (s, mkfl h (w1 ++ (i, fd, f) :: w2)) (set_ft tb s, mkfl h (w1 ++ w2))
| seg_uncount s h w i p fd f o tb c c' : ptable s !! i = Some p -> ofile p !! fd = Some (Some f) -> (i, fd) ∉ w.*1 ->
    fileclose_ref f (ftable (env s)) c = Ret o tb c' ->
    seg (s, mkfl h w) (set_ft tb s, mkfl h ((i, fd, f) :: w))
| seg_unname s h w1 w2 i fd f :
    seg (s, mkfl h (w1 ++ (i, fd, f) :: w2)) (put_fd i fd None s, mkfl h (w1 ++ w2))
| seg_rest s s' t : rest s s' -> seg (s, t) (s', t).

(** *** The invariant *)

Definition owing s (e : nat * nat * nat) : Prop :=
  let '(i, fd, f) := e in exists p, ptable s !! i = Some p /\ ofile p !! fd = Some (Some f).

Record refs_ok (st : pst (kenv S) * flight) : Prop := {
  ro_count : forall i, count_of (ftable (env st.1)) i = proc_count i (ptable st.1) + in_flight i st.2;
  ro_dead : Forall no_files (ptable st.1);
  ro_len : Forall (fun p => length (ofile p) = NOFILE) (ptable st.1);
  ro_owed : Forall (owing st.1) (owed st.2);
  ro_nodup : NoDup (owed st.2).*1
}.

Lemma count_alter tb i f g : tb !! i = Some g ->
  forall j, count_of (alter f i tb) j = if decide (j = i) then fref (f g) else count_of tb j.
Proof.
  intros Hg j. unfold count_of. rewrite list_lookup_alter. case_decide as E; case_decide as E'; subst; try done.
  by rewrite Hg.
Qed.

Lemma count_same tb i f : (forall g, fref (f g) = fref g) -> forall j, count_of (alter f i tb) j = count_of tb j.
Proof.
  intros Hf j. unfold count_of. rewrite list_lookup_alter. case_decide as E; [subst|done].
  destruct (tb !! j); cbn; [by rewrite Hf|done].
Qed.

Lemma wlp_get_file i tb c (Q : file -> list file -> ctx -> Prop) R :
  (forall f, tb !! i = Some f -> Q f tb c) -> wlp (get_file i) Q R tb c.
Proof. intros HQ. unfold get_file. lsteps. destruct (tb !! i) as [f|]; [by lsteps; apply HQ|by lsteps]. Qed.

Lemma count_set tb i f g : tb !! i = Some g ->
  forall j, count_of (alter f i tb) j = count_of tb j + (fref (f g) - fref g) * names j (Some i).
Proof.
  intros Hg j. rewrite (count_alter _ _ _ g Hg). unfold names. repeat case_decide; simplify_eq; try lia.
  unfold count_of. rewrite Hg. cbn. lia.
Qed.

Lemma filealloc_counts tb c f tb' c' : filealloc tb c = Ret (Some f) tb' c' ->
  forall j, count_of tb' j = count_of tb j + names j (Some f).
Proof.
  assert (Hw : wlp filealloc (fun o u _ => forall f, o = Some f -> forall j, count_of u j = count_of tb j + names j (Some f))
    (fun _ _ => False) tb c).
  { unfold filealloc. lsteps. destruct (find_idx _ tb) as [i|] eqn:E; lsteps; [|done].
    apply find_idx_Some in E as [(g & Hg & Hz) _]. apply Z.eqb_eq in Hz. unfold upd_file. lsteps.
    intros f' [= <-] j. rewrite (count_set _ _ _ g Hg). cbn. lia. }
  intros E. by apply (wlp_inv _ _ _ _ _ _ _ _ Hw E).
Qed.

Lemma filedup_counts tb c f a tb' c' : filedup f tb c = Ret a tb' c' ->
  a = f /\ forall j, count_of tb' j = count_of tb j + names j (Some f).
Proof.
  assert (Hw : wlp (filedup f) (fun a u _ => a = f /\ forall j, count_of u j = count_of tb j + names j (Some f))
    (fun _ _ => False) tb c).
  { unfold filedup. lsteps. apply wlp_get_file. intros g Hg. case_match; [by lsteps|]. unfold upd_file. lsteps.
    split; [done|]. intros j. rewrite (count_set _ _ _ g Hg). cbn. lia. }
  intros E. by apply (wlp_inv _ _ _ _ _ _ _ _ Hw E).
Qed.

Lemma fileclose_counts tb c f o tb' c' : fileclose_ref f tb c = Ret o tb' c' ->
  forall j, count_of tb' j = count_of tb j - names j (Some f).
Proof.
  assert (Hw : wlp (fileclose_ref f) (fun _ u _ => forall j, count_of u j = count_of tb j - names j (Some f))
    (fun _ _ => False) tb c).
  { unfold fileclose_ref. lsteps. apply wlp_get_file. intros g Hg. case_match; [by lsteps|]. unfold upd_file. lsteps.
    case_match; lsteps; intros j; rewrite ?count_same by done; rewrite (count_set _ _ _ g Hg); cbn; lia. }
  intros E. by apply (wlp_inv _ _ _ _ _ _ _ _ Hw E).
Qed.

(** *** Every piece keeps it *)

Lemma refs_ft s t t' tb :
  refs_ok (s, t) -> (forall j, count_of tb j = count_of (ftable (env s)) j + in_flight j t' - in_flight j t) ->
  Forall (owing s) (owed t') -> NoDup (owed t').*1 -> refs_ok (set_ft tb s, t').
Proof.
  intros [H1 H2 H3 H4 H5] Hc Ho Hn. split; cbn [fst snd] in *; try done.
  intros i. cbn. rewrite Hc, H1. cbn. lia.
Qed.

Lemma owing_put s i p fd o o' e : ptable s !! i = Some p -> ofile p !! fd = Some o' ->
  owing s e -> e.1 <> (i, fd) -> owing (put_fd i fd o s) e.
Proof.
  destruct e as [[i' fd'] f]. intros Hp Ho (q & Hq & Hf) Hne. cbn in *.
  destruct (decide (i' = i)) as [->|Hi].
  - assert (q = p) as -> by congruence. eexists. rewrite list_lookup_alter_eq, Hp. split; [done|]. cbn.
    rewrite list_lookup_insert_ne; [done|]. congruence.
  - exists q. by rewrite list_lookup_alter_ne.
Qed.

Lemma refs_put s t t' i p fd o o' :
  refs_ok (s, t) -> ptable s !! i = Some p -> ofile p !! fd = Some o' -> (o = None \/ ~ dead p) ->
  (forall j, in_flight j t' = in_flight j t + names j o' - names j o) ->
  Forall (owing (put_fd i fd o s)) (owed t') -> NoDup (owed t').*1 -> refs_ok (put_fd i fd o s, t').
Proof.
  intros [H1 H2 H3 H4 H5] Hp Ho Hd Hc Hw Hn. split; cbn [fst snd] in *; try done; cbn.
  - intros j. rewrite H1, (proc_count_alter _ _ _ p) by done. cbn [ofile set_ofile].
    rewrite (fd_count_insert _ _ _ o') by done. rewrite Hc. lia.
  - apply Forall_alter; [done|]. intros q Hq Hnf Hdq. assert (q = p) as -> by congruence.
    destruct Hd as [->|Hd]; [|done]. apply Forall_insert; [by apply Hnf|done].
  - apply Forall_alter; [done|]. intros q _ Hq. cbn. by rewrite length_insert.
Qed.

Lemma rest_owing s s' e : rest s s' -> owing s e -> owing s' e.
Proof.
  destruct e as [[i fd] f]. intros [_ Hk] (p & Hp & Hf). destruct (Forall2_lookup_l _ _ _ _ _ Hk Hp) as (p' & Hp' & Ho & _).
  exists p'. by rewrite Ho.
Qed.

Lemma rest_counts s s' : rest s s' -> forall i, proc_count i (ptable s') = proc_count i (ptable s).
Proof.
  intros [_ Hk] i. induction Hk as [|p p' l l' [Ho _] _ IH]; [done|]. cbn [proc_count]. by rewrite Ho, IH.
Qed.

Lemma refs_rest s s' t : refs_ok (s, t) -> rest s s' -> refs_ok (s', t).
Proof.
  intros [H1 H2 H3 H4 H5] Hr. pose proof Hr as [Hc Hk]. split; cbn [fst snd] in *; try done.
  - intros i. by rewrite Hc, (rest_counts s s' Hr), H1.
  - clear H1 H3 H4. apply Forall_lookup. intros i p' Hp'.
    destruct (Forall2_lookup_r _ _ _ _ _ Hk Hp') as (p & Hp & Ho & Hd). intros Hdead. unfold closed. rewrite Ho.
    destruct (Hd Hdead) as [Hp0|Hp0]; [|done]. rewrite Forall_lookup in H2. by apply (H2 i p Hp).
  - apply Forall_lookup. intros i p' Hp'. destruct (Forall2_lookup_r _ _ _ _ _ Hk Hp') as (p & Hp & Ho & _).
    rewrite Ho. rewrite Forall_lookup in H3. by apply (H3 i).
  - eapply Forall_impl; [exact H4|]. intros e. by apply rest_owing.
Qed.

(** Where the lists of tokens meet the counts. *)
Lemma in_flight_held i f w h1 h2 : in_flight i (mkfl (h1 ++ f :: h2) w) = in_flight i (mkfl (h1 ++ h2) w) + names i (Some f).
Proof. unfold in_flight. cbn. rewrite !times_app. cbn [times]. lia. Qed.

Lemma in_flight_owed i h w1 w2 e : in_flight i (mkfl h (w1 ++ e :: w2)) = in_flight i (mkfl h (w1 ++ w2)) - names i (Some e.2).
Proof. unfold in_flight. cbn. rewrite !fmap_app, !times_app. cbn [fmap list_fmap times]. lia. Qed.

Lemma nodup_owed {A B} (w1 w2 : list (A * B)) e : NoDup (w1 ++ e :: w2).*1 -> NoDup (w1 ++ w2).*1 /\ e.1 ∉ (w1 ++ w2).*1.
Proof.
  rewrite !fmap_app, fmap_cons. intros Hn. rewrite <- Permutation_middle in Hn. by apply NoDup_cons in Hn as [? ?].
Qed.

(** An owed descriptor is not free, and clearing another one keeps it. *)
Lemma owed_put s i p fd o o' (w : list (nat * nat * nat)) : ptable s !! i = Some p -> ofile p !! fd = Some o' ->
  Forall (owing s) w -> (i, fd) ∉ w.*1 -> Forall (owing (put_fd i fd o s)) w.
Proof.
  intros Hp Ho Hw Hn. rewrite Forall_forall in *. intros e He. eapply owing_put; [done..|by apply Hw|].
  intros E. apply Hn. apply list_elem_of_fmap. by exists e.
Qed.

Lemma free_not_owed s i p fd (w : list (nat * nat * nat)) : ptable s !! i = Some p -> ofile p !! fd = Some None ->
  Forall (owing s) w -> (i, fd) ∉ w.*1.
Proof.
  intros Hp Ho Hw Hin. apply list_elem_of_fmap in Hin as ([[i' fd'] f] & E & He). injection E as <- <-.
  rewrite Forall_forall in Hw. destruct (Hw _ He) as (q & Hq & Hf). congruence.
Qed.

Lemma seg_ok x y : refs_ok x -> seg x y -> refs_ok y.
Proof.
  intros H1 Hs. destruct Hs as [s h w f tb c c' E|s h w f a tb c c' E|s h1 h2 w f o tb c c' E|s h1 h2 w i p fd f Hp Hd Ho
    |s h w i p fd f Hp Ho Hn|s h w i p fd f Hp Hd Ho|s h w1 w2 i fd f a tb c c' E|s h w i p fd f o tb c c' Hp Ho Hn E|s h w1 w2 i fd f|s s' t Hr];
    pose proof (ro_owed _ H1) as Hw; pose proof (ro_nodup _ H1) as Hnd; cbn [fst snd owed] in Hw, Hnd.
  - eapply refs_ft; [exact H1| |done..]. intros j. rewrite (filealloc_counts _ _ _ _ _ E). unfold in_flight. cbn. count_lia.
  - eapply refs_ft; [exact H1| |done..]. intros j. rewrite (proj2 (filedup_counts _ _ _ _ _ _ E)). unfold in_flight. cbn. count_lia.
  - eapply refs_ft; [exact H1| |done..]. intros j. rewrite (fileclose_counts _ _ _ _ _ _ E).
    rewrite in_flight_held. count_lia.
  - eapply refs_put; [exact H1|exact Hp|exact Ho|by right| | |done].
    + intros j. rewrite in_flight_held. count_lia.
    + eapply owed_put; [done..|]. by eapply free_not_owed.
  - eapply refs_put; [exact H1|exact Hp|exact Ho|by left| | |done].
    + intros j. unfold in_flight. cbn. count_lia.
    + by eapply owed_put.
  - assert (Hn : (i, fd) ∉ w.*1) by (by eapply free_not_owed).
    eapply refs_put; [exact H1|exact Hp|exact Ho|by right| | |by apply NoDup_cons].
    + intros j. pose proof (in_flight_owed j h [] w (i, fd, f)) as E. cbn in *. count_lia.
    + constructor; [|by eapply owed_put]. eexists. cbn. rewrite list_lookup_alter_eq, Hp. split; [done|]. cbn.
      apply list_lookup_insert_eq. by eapply lookup_lt_Some.
  - eapply refs_ft; [exact H1| | |].
    + intros j. rewrite (proj2 (filedup_counts _ _ _ _ _ _ E)), in_flight_owed. cbn. count_lia.
    + rewrite Forall_app, Forall_cons in Hw. apply Forall_app. naive_solver.
    + by apply nodup_owed in Hnd as [? _].
  - eapply refs_ft; [exact H1| | |by apply NoDup_cons].
    + intros j. rewrite (fileclose_counts _ _ _ _ _ _ E). pose proof (in_flight_owed j h [] w (i, fd, f)) as E2. cbn in *. count_lia.
    + constructor; [by exists p|done].
  - apply nodup_owed in Hnd as [Hnd Hn]. rewrite Forall_app, Forall_cons in Hw. destruct Hw as (Hw1 & (p & Hp & Ho) & Hw2).
    eapply refs_put; [exact H1|exact Hp|exact Ho|by left| | |done].
    + intros j. rewrite in_flight_owed. cbn. count_lia.
    + eapply owed_put; [done..|by apply Forall_app|done].
  - by eapply refs_rest.
Qed.

Lemma segs_ok x y : rtc seg x y -> refs_ok x -> refs_ok y.
Proof. induction 1; eauto using seg_ok. Qed.
End refs.

(** *** Calls as sequences of pieces *)

Section paths.
Context {S : Type}.
Implicit Types s : pst (kenv S).

Abbreviation KS := (K (pst (kenv S))).

(** From a state in [P] with [t] in flight a run of [m] is a sequence of
    pieces; when it returns [a], to a state in [P' a] with [t' a] in
    flight. *)
Definition goes {A} (t : flight) (P : pst (kenv S) -> Prop) (m : KS A) (t' : A -> flight) (P' : A -> pst (kenv S) -> Prop) : Prop :=
  forall s c, refs_ok (s, t) -> P s ->
    wlp m (fun a s' _ => rtc seg (s, t) (s', t' a) /\ P' a s') (fun s' _ => exists t2, rtc seg (s, t) (s', t2)) s c.

Lemma goes_bind {A B} t P (m : KS A) (f : A -> KS B) t1 P1 t' P' :
  goes t P m t1 P1 -> (forall a, goes (t1 a) (P1 a) (f a) t' P') -> goes t P (mbind f m) t' P'.
Proof.
  intros Hm Hf s c H1 H2. apply wlp_bind. eapply wlp_mono; [by apply Hm|]. intros a s1 c1 [Hr Ha].
  eapply wlp_mono_both; [apply Hf; [by eapply segs_ok|exact Ha]| |].
  - intros b s2 c2 [Hr2 Hb]. split; [by etrans|done].
  - intros s2 c2 [t2 Hr2]. exists t2. by etrans.
Qed.

Lemma goes_ret {A} t P (a : A) (t' : A -> flight) (P' : A -> pst (kenv S) -> Prop) :
  t' a = t -> (forall s, P s -> P' a s) -> goes t P (mret a) t' P'.
Proof. intros <- HP s c H1 H2. lsteps. split; [done|by apply HP]. Qed.

Lemma goes_panic {A} t P msg (t' : A -> flight) P' : goes t P (panic msg) t' P'.
Proof. intros s c H1 H2. by lsteps. Qed.

Lemma goes_weaken {A} t P P0 (m : KS A) t' P' : (forall s, P s -> P0 s) -> goes t P0 m t' P' -> goes t P m t' P'.
Proof. intros HP Hm s c H1 H2. apply Hm; auto. Qed.

(** Code that changes nothing. *)
Lemma goes_gets {A} t P (g : pst (kenv S) -> A) (P' : A -> pst (kenv S) -> Prop) :
  (forall s, refs_ok (s, t) -> P s -> P' (g s) s) -> goes t P (gets g) (fun _ => t) P'.
Proof. intros HP s c H1 H2. lsteps. split; [done|by apply HP]. Qed.

Lemma goes_acquire t P l : goes t P (acquire l) (fun _ => t) (fun _ => P).
Proof. intros s c H1 H2. by lsteps. Qed.

Lemma goes_release t P l : goes t P (release l) (fun _ => t) (fun _ => P).
Proof. intros s c H1 H2. by lsteps. Qed.

(** Other code. *)
Lemma goes_rest t P (g : pst (kenv S) -> pst (kenv S)) (P' : unit -> pst (kenv S) -> Prop) :
  (forall s, refs_ok (s, t) -> P s -> rest s (g s) /\ P' tt (g s)) -> goes t P (modify g) (fun _ => t) P'.
Proof. intros HP s c H1 H2. lsteps. destruct (HP s H1 H2) as [Hr ?]. split; [|done]. by apply rtc_once, seg_rest. Qed.

Lemma kept_refl l : Forall2 kept l l.
Proof. induction l as [|p l IH]; [constructor|]. constructor; [|done]. split; [done|]. by left. Qed.

Lemma kept_alter f i l : (forall p, l !! i = Some p -> kept p (f p)) -> Forall2 kept l (alter f i l).
Proof.
  intros Hf. apply Forall2_same_length_lookup_2; [by rewrite length_alter|]. intros j p p' Hp Hp'.
  destruct (decide (i = j)) as [->|Hne].
  - rewrite list_lookup_alter_eq, Hp in Hp'. injection Hp' as <-. by apply Hf.
  - rewrite list_lookup_alter_ne, Hp in Hp' by done. injection Hp' as <-. split; [done|]. by left.
Qed.

Lemma rest_alter f i s : (forall p, ptable s !! i = Some p -> kept p (f p)) -> rest s (set_ptable (alter f i (ptable s)) s).
Proof. intros Hf. split; [done|]. by apply kept_alter. Qed.

(** Code below proc.c. *)
Definition kgoes {A} (t : flight) (m : K (kenv S) A) (t' : A -> flight) : Prop :=
  forall s c, refs_ok (s, t) ->
    wlp m (fun a k' _ => rtc seg (s, t) (set_env k' s, t' a)) (fun k' _ => exists t2, rtc seg (s, t) (set_env k' s, t2)) (env s) c.

Lemma kgoes_bind {A B} t (m : K (kenv S) A) (f : A -> K (kenv S) B) t1 t' :
  kgoes t m t1 -> (forall a, kgoes (t1 a) (f a) t') -> kgoes t (mbind f m) t'.
Proof.
  intros Hm Hf s c H1. apply wlp_bind. eapply wlp_mono; [by apply Hm|]. intros a k1 c1 Hr. cbn beta in Hr.
  eapply wlp_mono_both; [apply (Hf a (set_env k1 s)); by eapply segs_ok| |]; cbn beta.
  - intros b k2 c2 Hr2. by etrans.
  - intros k2 c2 [t2 Hr2]. exists t2. by etrans.
Qed.

Lemma kgoes_ret {A} t (a : A) t' : t' a = t -> kgoes t (mret a) t'.
Proof. intros <- s c H1. lsteps. replace (set_env (env s) s) with s by (by destruct s). done. Qed.

Lemma kgoes_other {A B} t (l : lens (kenv S) A) (m : K A B) :
  (forall a k, ftable (lset l a k) = ftable k) -> kgoes t (zoom l m) (fun _ => t).
Proof.
  intros Hl s c H1. assert (Hr : forall x, rtc seg (s, t) (set_env (lset l x (env s)) s, t)).
  { intros x. apply rtc_once, seg_rest. split; [|apply kept_refl]. intros i. cbn. by rewrite Hl. }
  unfold wlp, zoom. destruct (m (lget l (env s)) c); [done|done|by exists t].
Qed.

Lemma goes_env {A} t P (m : K (kenv S) A) t' : (forall s k, P s -> P (set_env k s)) -> kgoes t m t' ->
  goes t P (zoom env_lens m) t' (fun _ => P).
Proof.
  intros HP Hm s c H1 H2. specialize (Hm s c H1). unfold wlp, zoom in *. cbn. destruct (m (env s) c); auto.
Qed.

(** *** The operations of file.c *)

Lemma kgoes_filealloc h w : kgoes (mkfl h w) (zoom ft_lens filealloc)
  (fun o => match o with Some f => mkfl (f :: h) w | None => mkfl h w end).
Proof.
  intros s c H1. unfold wlp, zoom. cbn.
  assert (Hw : wlp filealloc (fun o tb _ => o = None -> tb = ftable (env s)) (fun _ _ => False) (ftable (env s)) c).
  { unfold filealloc. lsteps. case_match; by lsteps. }
  unfold wlp in Hw. destruct (filealloc (ftable (env s)) c) as [[f|] tb c'| |] eqn:E; [|..|done|done].
  - apply rtc_once. by eapply seg_alloc.
  - apply rtc_once, seg_rest. split; [|apply kept_refl]. intros i. cbn. by rewrite (Hw eq_refl).
Qed.

Lemma kgoes_filedup h w f : kgoes (mkfl h w) (zoom ft_lens (filedup f)) (fun _ => mkfl (f :: h) w).
Proof.
  intros s c H1. assert (Hw : wlp (filedup f) (fun _ _ _ => True) (fun _ _ => False) (ftable (env s)) c).
  { unfold filedup. lsteps. apply wlp_get_file. intros g Hg. case_match; by lsteps. }
  unfold wlp, zoom in *. cbn. destruct (filedup f (ftable (env s)) c) eqn:E; [|done..]. apply rtc_once. by eapply seg_dup.
Qed.

Lemma awake_close f tb c : wlp (fileclose_ref f) (fun _ _ _ => True) (fun _ _ => False) tb c.
Proof.
  unfold fileclose_ref. lsteps. apply wlp_get_file. intros g Hg. case_match; [by lsteps|]. unfold upd_file. lsteps.
  case_match; by lsteps.
Qed.

Lemma kgoes_close_ref h1 h2 w f : kgoes (mkfl (h1 ++ f :: h2) w) (zoom ft_lens (fileclose_ref f)) (fun _ => mkfl (h1 ++ h2) w).
Proof.
  intros s c H1. pose proof (awake_close f (ftable (env s)) c) as Hw. unfold wlp, zoom in *. cbn.
  destruct (fileclose_ref f (ftable (env s)) c) eqn:E; [|done..]. apply rtc_once. by eapply seg_close.
Qed.

Lemma kgoes_upd t i f : (forall g, fref (f g) = fref g) -> kgoes t (zoom ft_lens (upd_file i f)) (fun _ => t).
Proof.
  intros Hf s c H1. unfold wlp, zoom, upd_file. cbn. apply rtc_once, seg_rest. split; [|apply kept_refl].
  intros j. cbn. by rewrite count_same.
Qed.
End paths.

Section calls.
Context {S : Type} `{BlockOps S}.
Variable devsw_read : Z -> option (nat -> Z -> K (fs S) (Z * bytes)).
Variable devsw_write : Z -> option (nat -> bytes -> Z -> K (fs S) Z).
Variables kend kdata vram_size pvram_addr : Z.
Variable um : memory.
Implicit Types s : pst (kenv S).

Abbreviation KS := (K (pst (kenv S))).

(** The rest of fileclose, after the last reference is gone. *)
Definition shut (ff : option file) : K (kenv S) unit :=
  match ff with
  | None => mret tt
  | Some f =>
      match fty f with
      | FD_PIPE => last ← zoom (pipe_lens (fpipe f)) (pipeclose (fpipe f) (writable f)); when last (zoom kmem_lens (kfree kend (fpipe f)))
      | FD_INODE => zoom fs_lens (zoom log_lens begin_op);; zoom fs_lens (iput (fip f));; zoom fs_lens (zoom log_lens end_op)
      | FD_NONE => mret tt
      end
  end.

Lemma kgoes_shut t ff : kgoes t (shut ff) (fun _ => t).
Proof.
  destruct ff as [g|]; [|by apply kgoes_ret]. cbn [shut].
  destruct (fty g); [by apply kgoes_ret| |].
  - eapply kgoes_bind; [by apply kgoes_other|]. intros last. destruct last; [by apply kgoes_other|by apply kgoes_ret].
  - do 2 (eapply kgoes_bind; [by apply kgoes_other|intros []]). by apply kgoes_other.
Qed.

Lemma kgoes_fileclose h1 h2 w f : kgoes (mkfl (h1 ++ f :: h2) w) (fileclose kend f : K (kenv S) unit) (fun _ => mkfl (h1 ++ h2) w).
Proof. eapply (kgoes_bind _ _ shut); [apply kgoes_close_ref|]. intros ff. apply kgoes_shut. Qed.

Lemma kgoes_pipealloc h w : kgoes (mkfl h w) (pipealloc kend : K (kenv S) _)
  (fun o => match o with Some (i, j) => mkfl (j :: i :: h) w | None => mkfl h w end).
Proof.
  unfold pipealloc. eapply kgoes_bind; [apply kgoes_filealloc|]. intros [i0|]; [|by apply kgoes_ret].
  eapply kgoes_bind; [apply kgoes_filealloc|]. intros [i1|].
  - eapply kgoes_bind; [by apply kgoes_other|]. intros p. destruct (p =? 0).
    + eapply kgoes_bind; [apply (kgoes_fileclose [i1])|intros []].
      eapply kgoes_bind; [apply (kgoes_fileclose [])|intros []]. by apply kgoes_ret.
    + eapply kgoes_bind; [by apply kgoes_other|intros []].
      do 2 (eapply kgoes_bind; [apply kgoes_upd; done|intros []]). by apply kgoes_ret.
  - eapply kgoes_bind; [apply (kgoes_fileclose [])|intros []]. by apply kgoes_ret.
Qed.

(** The process in slot [cur] runs; none of its descriptors is owed. *)
Definition caller (cur : nat) s : Prop :=
  exists k p, cpus s !! this s = Some k /\ cproc k = Some cur /\ ptable s !! cur = Some p /\ ~ dead p.

Variables (cur : nat) (h : list nat) (w : list (nat * nat * nat)).
Hypothesis not_owed : forall fd, (cur, fd) ∉ w.*1.

(** Computations of the caller that move no reference. *)
Definition stays {A} (m : KS A) : Prop := forall t, goes t (caller cur) m (fun _ => t) (fun _ => caller cur).

Lemma stays_ret {A} (a : A) : stays (mret a).
Proof. intros t. by apply goes_ret. Qed.
Lemma stays_panic {A} msg : stays (panic msg : KS A).
Proof. intros t. apply goes_panic. Qed.
Lemma stays_bind {A B} (m : KS A) (f : A -> KS B) : stays m -> (forall a, stays (f a)) -> stays (mbind f m).
Proof. intros Hm Hf t. eapply goes_bind; [apply Hm|intros a; apply Hf]. Qed.
Lemma stays_fs {A} (m : K (fs S) A) : stays (zoom env_lens (zoom fs_lens m)).
Proof. intros t. apply goes_env; [done|by apply kgoes_other]. Qed.
Lemma stays_deref {A} (o : option A) : stays (deref o).
Proof. destruct o; [apply stays_ret|apply stays_panic]. Qed.
Lemma stays_curproc : stays curproc.
Proof. intros t s c H1 H2. by apply wlp_curproc. Qed.

Create HintDb refs.
Hint Resolve stays_ret stays_panic stays_fs stays_curproc stays_deref : refs.

Ltac keep :=
  repeat lazymatch goal with
  | |- stays (mbind _ _) => apply stays_bind; [|intros ?]
  | |- stays (match ?x with _ => _ end) => destruct x
  | |- _ => fail
  end; auto with refs.

Lemma stays_arg_int n : stays (arg_int um n).
Proof. unfold arg_int. keep. Qed.
Lemma stays_arg_ptr n size : stays (arg_ptr um n size).
Proof. unfold arg_ptr. keep. Qed.
Lemma stays_arg_str n : stays (arg_str um n).
Proof. unfold arg_str. keep. Qed.
Lemma stays_cwd : stays cur_cwd.
Proof. unfold cur_cwd. keep. Qed.
Hint Resolve stays_arg_int stays_arg_ptr stays_arg_str stays_cwd : refs.
Lemma stays_nlink d i : stays (set_nlink_by d i).
Proof. unfold set_nlink_by. keep. Qed.
Hint Resolve stays_nlink : refs.
Lemma stays_create path t ma mi : stays (create devsw_read devsw_write path t ma mi).
Proof. unfold create. keep. Qed.
Hint Resolve stays_create : refs.
Lemma stays_open_inode path omode : stays (open_inode devsw_read devsw_write path omode).
Proof. unfold open_inode. keep. Qed.

(** Descriptor [fd] of the caller names file [f]. *)
Definition has_fd (fd f : nat) s : Prop := caller cur s /\ exists p, ptable s !! cur = Some p /\ ofile p !! fd = Some (Some f).

Lemma caller_put fd o s : caller cur s -> caller cur (put_fd cur fd o s).
Proof.
  intros (k & p & Hk & Hc & Hp & Hd). exists k, (set_ofile (<[fd := o]> (ofile p)) p).
  cbn. rewrite list_lookup_alter_eq, Hp. by split_and!.
Qed.

Lemma goes_argfd n : forall t, goes t (caller cur) (argfd um n) (fun _ => t)
  (fun r s => match r with Some (fd, f) => has_fd fd f s | None => caller cur s end).
Proof.
  intros t s c H1 H2. unfold argfd, arg_int. lsteps. apply wlp_curproc. intros k i p Hk Hi Hp. lsteps.
  apply wlp_curproc. intros k' i' p' Hk' Hi' Hp'. lsteps. split; [done|].
  destruct (argint _ _ _ _) as [fd|]; [|done]. destruct (_ || _); [done|].
  destruct (ofile p' !! Z.to_nat fd) as [[f|]|] eqn:E; [|done..]. split; [done|]. exists p'.
  destruct H2 as (k0 & p0 & Hk0 & Hc0 & _). by assert (i' = cur) as <- by congruence.
Qed.

Lemma upd_cur_run f s c (Q : unit -> pst (kenv S) -> ctx -> Prop) R : caller cur s ->
  Q tt (set_ptable (alter f cur (ptable s)) s) c -> wlp (upd_cur f) Q R s c.
Proof.
  intros (k & p & Hk & Hc & _) HQ. unfold upd_cur, updp. lsteps. apply wlp_cur_index. intros k' i Hk' Hi.
  assert (i = cur) as -> by congruence. by lsteps.
Qed.

(** What fdalloc does when it finds a free descriptor. *)
Lemma goes_fdalloc t P f (t' : option nat -> flight) : t' None = t -> (forall s, P s -> caller cur s) ->
  (forall s p fd, caller cur s -> ptable s !! cur = Some p -> ~ dead p -> ofile p !! fd = Some None ->
     seg (s, t) (put_fd cur fd (Some f) s, t' (Some fd))) ->
  goes t P (fdalloc f) t' (fun r s => match r with Some fd => has_fd fd f s | None => P s end).
Proof.
  intros HN HP HS s c H1 H2'. unfold fdalloc. lsteps. apply wlp_curproc. intros k i p Hk Hi Hp.
  pose proof (HP s H2') as H2. pose proof H2 as (k0 & p0 & Hk0 & Hc0 & Hp0 & Hd0). assert (i = cur) as -> by congruence. assert (p0 = p) as -> by congruence.
  destruct (find_idx is_free (ofile p)) as [fd|] eqn:E; [|by lsteps; rewrite HN].
  apply find_idx_Some in E as [(o & Ho & Hfree) _]. destruct o as [|]; [done|]. lsteps. apply upd_cur_run; [done|]. lsteps.
  split; [apply rtc_once; by eapply HS|]. split; [by apply (caller_put fd (Some f))|].
  eexists. cbn. rewrite list_lookup_alter_eq, Hp. split; [done|]. cbn. apply list_lookup_insert_eq. by eapply lookup_lt_Some.
Qed.

Lemma goes_take fd f h0 : goes (mkfl h0 w) (has_fd fd f) (upd_cur (fun p => set_ofile (<[fd := None]> (ofile p)) p) : KS unit)
  (fun _ => mkfl (f :: h0) w) (fun _ => caller cur).
Proof.
  intros s c H1 [H2 (p & Hp & Ho)]. apply upd_cur_run; [done|]. split; [|by apply (caller_put fd None)].
  apply rtc_once. by apply (seg_take s h0 w cur p fd f).
Qed.

Lemma goes_close h1 h2 w0 f : goes (mkfl (h1 ++ f :: h2) w0) (caller cur) (zoom env_lens (fileclose kend f))
  (fun _ => mkfl (h1 ++ h2) w0) (fun _ => caller cur).
Proof. apply goes_env; [done|]. apply kgoes_fileclose. Qed.

Lemma goes_give h1 h2 w0 f P : (forall s, P s -> caller cur s) -> goes (mkfl (h1 ++ f :: h2) w0) P (fdalloc f : KS _)
  (fun o => match o with Some _ => mkfl (h1 ++ h2) w0 | None => mkfl (h1 ++ f :: h2) w0 end)
  (fun r s => match r with Some fd => has_fd fd f s | None => P s end).
Proof. intros HP. apply goes_fdalloc; [done|done|]. intros s p fd _ Hp Hd Ho. by eapply seg_give. Qed.

Lemma goes_keep {A B} t P (m : KS A) (f : A -> KS B) t' P' : stays m -> (forall s, P s -> caller cur s) ->
  (forall a, goes t (caller cur) (f a) t' P') -> goes t P (mbind f m) t' P'.
Proof. intros Hm HP Hf. eapply goes_weaken; [exact HP|]. eapply goes_bind; [apply Hm|exact Hf]. Qed.

Lemma goes_done {A} t (a : A) : goes t (caller cur) (mret a : KS A) (fun _ => t) (fun _ => caller cur).
Proof. apply stays_ret. Qed.

Lemma has_caller fd f s : has_fd fd f s -> caller cur s.
Proof. by intros [? _]. Qed.
Hint Resolve has_caller : refs.

(** *** System calls *)

(** A call ends with what was in flight when it began. *)
Definition balanced {A} (m : KS A) : Prop := goes (mkfl h w) (caller cur) m (fun _ => mkfl h w) (fun _ => caller cur).

Lemma sys_dup_balanced : balanced (sys_dup um).
Proof.
  unfold balanced, sys_dup. eapply goes_bind; [apply goes_argfd|]. intros [[fd f]|]; [|apply goes_done].
  eapply goes_bind.
  { eapply goes_weaken; [apply has_caller|].
    apply (goes_fdalloc _ _ f (fun o => match o with Some fd' => mkfl h ((cur, fd', f) :: w) | None => mkfl h w end)); [done|done|].
    intros s p fd' _ Hp Hd Ho. by eapply seg_name. }
  intros [fd'|]; [|apply goes_done]. eapply goes_weaken; [apply has_caller|]. eapply goes_bind; [|intros a; apply goes_done].
  apply goes_env; [done|]. intros s c H1.
  assert (Hw : wlp (filedup f) (fun _ _ _ => True) (fun _ _ => False) (ftable (env s)) c).
  { unfold filedup. lsteps. apply wlp_get_file. intros g Hg. case_match; by lsteps. }
  unfold wlp, zoom in *. cbn. destruct (filedup f (ftable (env s)) c) eqn:E; [|done..]. apply rtc_once. by apply (seg_count s h [] w cur fd' f _ _ _ _ E).
Qed.

Lemma sys_close_balanced : balanced (sys_close kend um).
Proof.
  unfold balanced, sys_close. eapply goes_bind; [apply goes_argfd|]. intros [[fd f]|]; [|apply goes_done].
  eapply goes_bind; [apply goes_take|intros []]. eapply goes_bind; [apply (goes_close [])|intros []]. apply goes_done.
Qed.

Lemma sys_open_balanced : balanced (sys_open devsw_read devsw_write kend um).
Proof.
  unfold balanced, sys_open. do 2 (apply goes_keep; [auto with refs..|intros ?]).
  destruct a as [path|]; [|apply goes_done]. destruct a0 as [omode|]; [|apply goes_done].
  apply goes_keep; [auto with refs..|intros []]. apply goes_keep; [apply stays_open_inode|done|]. intros [ip|].
  2:{ apply goes_keep; [auto with refs..|intros []]. apply goes_done. }
  eapply goes_bind; [apply goes_env; [done|apply kgoes_filealloc]|]. intros [f|].
  - eapply goes_bind; [by apply (goes_give [] h w f (caller cur))|]. intros [fd|].
    + eapply goes_weaken; [apply has_caller|]. do 2 (apply goes_keep; [auto with refs..|intros []]).
      eapply goes_bind; [apply goes_env; [done|by apply kgoes_upd]|intros []]. apply goes_done.
    + eapply goes_bind; [apply (goes_close [])|intros []]. do 2 (apply goes_keep; [auto with refs..|intros []]). apply goes_done.
  - do 4 (apply goes_keep; [auto with refs..|intros ?]). apply goes_done.
Qed.

Lemma sys_pipe_balanced : balanced (sys_pipe kend um).
Proof.
  unfold balanced, sys_pipe. apply goes_keep; [auto with refs..|]. intros [a|]; [|apply goes_done].
  eapply goes_bind; [apply goes_env; [done|apply kgoes_pipealloc]|]. intros [[rf wf]|]; [|apply goes_done].
  eapply goes_bind; [by apply (goes_give [wf] h w rf (caller cur))|]. intros [fd0|].
  - eapply goes_bind; [apply (goes_give [] h w wf (has_fd fd0 rf)), has_caller|]. intros [fd1|].
    + eapply goes_weaken; [apply has_caller|]. apply goes_done.
    + eapply goes_bind; [apply goes_take|intros []].
      do 2 (eapply goes_bind; [apply (goes_close [])|intros []]). apply goes_done.
  - do 2 (eapply goes_bind; [apply goes_done|intros ?]).
    eapply goes_bind; [apply (goes_close [wf])|intros []]. eapply goes_bind; [apply (goes_close [])|intros []]. apply goes_done.
Qed.

(** *** Processes *)

Local Instance the_env : ProcEnv (kenv S) := kenv_env devsw_read kend kdata vram_size pvram_addr.

(** No descriptor of [q] from [fd] on is open. *)
Definition free_from (fd : nat) (q : proc) : Prop := forall n, (fd <= n)%nat -> ofile q !! n = None \/ ofile q !! n = Some None.

Lemma free_closed q : free_from 0 q <-> closed q.
Proof.
  unfold free_from, closed. rewrite Forall_lookup. split.
  - intros Hq n o Ho. destruct (Hq n ltac:(lia)) as [E|E]; congruence.
  - intros Hq n _. destruct (ofile q !! n) as [o|] eqn:E; [|by left]. right. f_equal. by eapply Hq.
Qed.

(** The caller works on slot [i], in state [st], not its own. *)
Definition on_slot (i : nat) (st : procstate) (fd : nat) s : Prop :=
  caller cur s /\ i <> cur /\ exists q, ptable s !! i = Some q /\ pstate q = st /\ free_from fd q.

Lemma slot_caller i st fd s : on_slot i st fd s -> caller cur s.
Proof. by intros [? _]. Qed.

Lemma slot_empty t i q s : refs_ok (s, t) -> caller cur s -> ptable s !! i = Some q -> dead q -> on_slot i (pstate q) 0 s.
Proof.
  intros H1 H2 Hq Hd. split; [done|]. split.
  - intros ->. destruct H2 as (k & p & _ & _ & Hp & Hl). congruence.
  - exists q. split; [done|]. split; [done|]. apply free_closed. pose proof (ro_dead _ H1) as Hn. rewrite Forall_lookup in Hn. by eapply Hn.
Qed.

Lemma goes_slot t i st st' fd f : (forall p, ofile (f p) = ofile p) -> (forall p, pstate p = st -> pstate (f p) = st') ->
  (fd = 0%nat \/ (st' <> UNUSED /\ st' <> ZOMBIE)) ->
  goes t (on_slot i st fd) (updp i f) (fun _ => t) (fun _ => on_slot i st' fd).
Proof.
  intros Hf Hs Hfd. apply goes_rest. intros s H1 (H2 & Hne & q & Hq & Hst & Hn). split.
  - apply rest_alter. intros p Hp. assert (p = q) as -> by congruence. split; [apply Hf|]. intros Hd. right.
    destruct Hfd as [->|[? ?]]; [by apply free_closed|]. destruct Hd as [Hd|Hd]; rewrite (Hs q Hst) in Hd; done.
  - split; [|split; [done|]].
    + destruct H2 as (k & p & Hk & Hc & Hp & Hd). exists k, p. cbn. by rewrite list_lookup_alter_ne.
    + exists (f q). cbn. rewrite list_lookup_alter_eq, Hq. unfold free_from. rewrite Hf. auto.
Qed.

Lemma goes_getp t P j : goes t P (getp j) (fun _ => t) (fun o s => (forall p, o = Some p -> length (ofile p) = NOFILE) /\ P s).
Proof.
  apply goes_gets. intros s H1 H2. split; [|done]. intros p Hp. pose proof (ro_len _ H1) as Hl. by eapply Forall_lookup_1 in Hl.
Qed.

Lemma goes_deref {A} t P (o : option A) : goes t P (deref o : KS A) (fun _ => t) (fun a s => o = Some a /\ P s).
Proof. destruct o; [by apply goes_ret|apply goes_panic]. Qed.

Lemma goes_fact {A} (F : Prop) t P (m : KS A) t' P' : (F -> goes t P m t' P') -> goes t (fun s => F /\ P s) m t' P'.
Proof. intros Hm s c H1 [HF HP]. by apply Hm. Qed.

Lemma goes_kenv {A B} t i st fd (l : lens (kenv S) A) (m : K A B) : (forall a k, ftable (lset l a k) = ftable k) ->
  goes t (on_slot i st fd) (zoom env_lens (zoom l m)) (fun _ => t) (fun _ => on_slot i st fd).
Proof. intros Hl. apply goes_env; [done|by apply kgoes_other]. Qed.

Lemma goes_nextpid t P n : (forall s, P s -> P (set_nextpid n s)) -> goes t P (modify (set_nextpid n)) (fun _ => t) (fun _ => P).
Proof. intros HP. apply goes_rest. intros s H1 H2. split; [|by apply HP]. split; [done|apply kept_refl]. Qed.

(** One step on a slot that changes nothing else. *)
Ltac slot_step :=
  first
  [ eapply goes_slot; [by intros|intros; cbn; first [eassumption|reflexivity]|by auto]
  | apply goes_getp | apply goes_deref | apply goes_acquire | apply goes_release | by apply goes_nextpid
  | by apply goes_kenv | apply goes_kenv; by intros ].
Ltac slot := eapply goes_bind; [slot_step|].

Lemma goes_allocproc t forkret tf0 : goes t (caller cur) (allocproc forkret tf0 : KS _) (fun _ => t)
  (fun o s => match o with Some i => on_slot i EMBRYO 0 s | None => caller cur s end).
Proof.
  intros s c H1 H2. unfold allocproc. lstep. lstep. lstep. lstep. destruct (find_idx _ _) as [i|] eqn:E; [|by lsteps].
  apply find_idx_Some in E as [(p & Hp & Hu) _]. apply bool_decide_eq_true in Hu.
  pose proof (slot_empty t i p s H1 H2 Hp (or_introl Hu)) as H3. rewrite Hu in H3. generalize (nextpid s). intros n.
  match goal with |- wlp ?m _ _ _ _ => assert (Hg : goes t (on_slot i UNUSED 0) m (fun _ => t)
    (fun o s => match o with Some i => on_slot i EMBRYO 0 s | None => caller cur s end)) end; [|by apply Hg].
  slot. intros []. slot. intros []. slot. intros []. slot. intros []. slot. intros []. slot. intros []. slot. intros [].
  slot. intros k. slot. intros []. destruct (k =? 0).
  - eapply goes_bind; [eapply (goes_slot _ _ _ UNUSED); [done|done|by left]|intros []]. apply goes_ret; [done|]. apply slot_caller.
  - slot. intros []. slot. intros []. slot. intros []. slot. intros []. by apply goes_ret.
Qed.

Lemma goes_filedup P f : (forall s k, P s -> P (set_env k s)) ->
  goes (mkfl h w) P (zoom env_lens (env_filedup f) : KS nat) (fun _ => mkfl (f :: h) w) (fun a s => a = f /\ P s).
Proof.
  intros HP s c H1 H2. pose proof (goes_env _ P _ _ HP (kgoes_filedup h w f) s c H1 H2) as Hg.
  change (env_filedup f) with (zoom (@ft_lens S) (filedup f)). unfold wlp, zoom in *. cbn in *. destruct (filedup f (ftable (env s)) c) as [a tb c'| |] eqn:E; [|done|exact Hg].
  destruct Hg as [Hr Hp]. split; [done|]. split; [|done]. by apply filedup_counts in E as [? _].
Qed.

(** Giving slot [i] its descriptor [fd]. *)
Lemma goes_fork_fd i fd f : (fd < NOFILE)%nat ->
  goes (mkfl (f :: h) w) (on_slot i EMBRYO fd) (updp i (fun q => set_ofile (<[fd := Some f]> (ofile q)) q) : KS unit)
    (fun _ => mkfl h w) (fun _ => on_slot i EMBRYO (Datatypes.S fd)).
Proof.
  intros Hfd s c H1 (H2 & Hne & q & Hq & Hst & Hn). unfold updp. lsteps. pose proof (ro_len _ H1) as Hl.
  eapply Forall_lookup_1 in Hl; [|exact Hq]. cbn in Hl.
  assert (Ho : ofile q !! fd = Some None).
  { destruct (Hn fd ltac:(lia)) as [E|E]; [|done]. apply lookup_ge_None in E. lia. }
  split; [|split; [|split; [done|]]].
  - apply rtc_once. apply (seg_give s [] h w i q fd f); [done| |done]. intros [E|E]; congruence.
  - destruct H2 as (k & p & Hk & Hc & Hp & Hd). exists k, p. cbn. by rewrite list_lookup_alter_ne.
  - eexists. cbn. rewrite list_lookup_alter_eq, Hq. split; [done|]. split; [done|]. intros n Hle. cbn.
    rewrite list_lookup_insert_ne by lia. apply Hn. lia.
Qed.

Lemma goes_fork_files i files : forall fd, (fd + length files = NOFILE)%nat ->
  goes (mkfl h w) (on_slot i EMBRYO fd) (fork_files i fd files : KS unit) (fun _ => mkfl h w) (fun _ => on_slot i EMBRYO NOFILE).
Proof.
  induction files as [|o files IH]; intros fd Hfd; cbn in Hfd; cbn [fork_files].
  { apply goes_ret; [done|]. by replace NOFILE with fd by lia. }
  destruct o as [f|].
  - eapply goes_bind; [by apply goes_filedup|]. intros a. apply goes_fact. intros ->.
    eapply goes_bind; [apply goes_fork_fd; lia|intros []]. apply IH. lia.
  - eapply goes_weaken; [|apply IH; lia]. intros s (H2 & Hne & q & Hq & Hst & Hn). split; [done|]. split; [done|].
    exists q. split; [done|]. split; [done|]. intros n Hle. apply Hn. lia.
Qed.

Lemma fork_balanced forkret tf0 : balanced (fork forkret tf0 : KS Z).
Proof.
  unfold balanced, fork, myproc. eapply goes_bind; [by apply (goes_gets _ _ _ (fun _ => caller cur))|]. intros me.
  eapply goes_bind; [apply goes_allocproc|]. intros [i|]; [|apply goes_done].
  slot. intros j. apply goes_fact. intros _. slot. intros o. apply goes_fact. intros Hlen. slot. intros p. apply goes_fact. intros ->.
  slot. intros pd. slot. intros []. destruct (pd =? 0).
  { slot. intros o'. apply goes_fact. intros _. slot. intros q. apply goes_fact. intros _. slot. intros []. slot. intros [].
    eapply goes_bind; [eapply (goes_slot _ _ _ UNUSED); [done|done|by left]|intros []]. apply goes_ret; [done|]. apply slot_caller. }
  slot. intros []. slot. intros []. slot. intros []. slot. intros [].
  eapply goes_bind; [apply goes_fork_files; rewrite (Hlen p eq_refl); lia|intros []].
  slot. intros d. apply goes_fact. intros _. slot. intros d'. slot. intros []. slot. intros []. slot. intros o2. apply goes_fact. intros _.
  slot. intros q. apply goes_fact. intros _. slot. intros []. slot. intros []. slot. intros []. apply goes_ret; [done|]. apply slot_caller.
Qed.

Lemma wait_scan_zombie cur' l : forall i kids n, wait_scan cur' i kids l = inl n ->
  exists q, l !! (n - i)%nat = Some q /\ pstate q = ZOMBIE /\ (i <= n)%nat.
Proof.
  induction l as [|p l IH]; intros i kids n E; cbn [wait_scan] in E; [done|].
  assert (Hrest : forall b, wait_scan cur' (Datatypes.S i) b l = inl n ->
    exists q, (p :: l) !! (n - i)%nat = Some q /\ pstate q = ZOMBIE /\ (i <= n)%nat).
  { intros b Hb. destruct (IH _ _ _ Hb) as (q & Hq & Hz & Hle). exists q.
    replace (n - i)%nat with (Datatypes.S (n - Datatypes.S i)) by lia. split; [done|]. split; [done|lia]. }
  case_match; [by eapply Hrest|]. case_match eqn:Ez; [|by eapply Hrest].
  injection E as <-. exists p. rewrite Nat.sub_diag. apply bool_decide_eq_true in Ez. done.
Qed.

(** sched returns with the state it was called in. *)
Lemma wlp_sched s c (Q : unit -> pst (kenv S) -> ctx -> Prop) R : Q tt s c -> wlp sched Q R s c.
Proof. intros HQ. unfold wlp, sched. destruct (negb (bool_decide _)); [done|]. destruct (negb (Nat.eqb _ _)); [done|].
  destruct (_ ≫= _); [|done]. by destruct (is_state _ _). Qed.

(** Changing the caller's own slot, but not its descriptors. *)
Lemma goes_own t P f (P' : unit -> pst (kenv S) -> Prop) :
  (forall s, P s -> caller cur s) -> (forall p, ofile (f p) = ofile p) -> (forall p, ~ dead p -> ~ dead (f p)) ->
  (forall s, P s -> P' tt (set_ptable (alter f cur (ptable s)) s)) ->
  goes t P (updp cur f : KS unit) (fun _ => t) P'.
Proof.
  intros HP Hf Hd HP'. apply goes_rest. intros s H1 H2. split; [|by apply HP']. apply rest_alter. intros p Hp.
  destruct (HP s H2) as (k & p' & _ & _ & Hp' & Hl). assert (p' = p) as -> by congruence. split; [done|]. intros Hdd. by destruct (Hd p Hl).
Qed.

Lemma caller_own f s : (forall p, ~ dead p -> ~ dead (f p)) -> caller cur s -> caller cur (set_ptable (alter f cur (ptable s)) s).
Proof.
  intros Hd (k & p & Hk & Hc & Hp & Hl). exists k, (f p). cbn. rewrite list_lookup_alter_eq, Hp. split_and!; auto.
Qed.

Lemma goes_self t f : (forall p, ofile (f p) = ofile p) -> (forall p, ~ dead p -> ~ dead (f p)) ->
  goes t (caller cur) (updp cur f : KS unit) (fun _ => t) (fun _ => caller cur).
Proof. intros Hf Hd. apply goes_own; [done|done|done|]. intros s. by apply caller_own. Qed.

(** What the caller finds as its own slot. *)
Lemma goes_myproc t P : (forall s, P s -> caller cur s) ->
  goes t P (myproc : KS _) (fun _ => t) (fun me s => me = Some cur /\ P s).
Proof.
  intros HP. apply goes_gets. intros s _ H2. split; [|done]. destruct (HP s H2) as (k & p & Hk & Hc & _). by rewrite Hk.
Qed.

Lemma goes_sleep {A} t ch (m : KS A) : goes t (caller cur) (sleep ch L_ptable;; m) (fun _ => t) (fun _ => caller cur).
Proof.
  assert (Hs : goes t (caller cur) (sleep ch L_ptable : KS unit) (fun _ => t) (fun _ _ => False)).
  { unfold sleep. eapply goes_bind; [by apply goes_myproc|]. intros me. apply goes_fact. intros ->. cbn [decide].
    destruct (decide _); [|done]. eapply goes_bind; [by apply (goes_ret _ _ _ (fun _ => t) (fun _ => caller cur))|intros []].
    eapply goes_bind; [by apply goes_self|intros []].
    eapply goes_bind; [apply goes_self; [done|by intros p _ [? | ?]]|intros []].
    intros s c H1 H2. apply wlp_bind, wlp_sched. lsteps. by exists t. }
  eapply goes_bind; [exact Hs|]. intros [] s c _ [].
Qed.

Lemma wait_balanced : balanced (wait : KS Z).
Proof.
  unfold balanced, wait, wait_turn. eapply goes_bind; [apply goes_acquire|intros []].
  eapply goes_bind; [by apply goes_myproc|]. intros me. apply goes_fact. intros ->.
  eapply goes_bind; [apply goes_deref|]. intros cur'. apply goes_fact. intros [= <-].
  intros s c H1 H2. lstep. lstep. destruct (wait_scan _ _ _ _) as [i|kids] eqn:E.
  - apply wait_scan_zombie in E as (q & Hq & Hz & _). rewrite Nat.sub_0_r in Hq.
    pose proof (slot_empty _ i q s H1 H2 Hq (or_intror Hz)) as Hs. rewrite Hz in Hs.
    match goal with |- wlp ?m _ _ _ _ => assert (Hg : goes (mkfl h w) (on_slot i ZOMBIE 0) m (fun _ => mkfl h w) (fun _ => caller cur)) end; [|by apply Hg].
    slot. intros o. apply goes_fact. intros _. slot. intros p. apply goes_fact. intros _.
    slot. intros []. slot. intros []. slot. intros []. slot. intros []. slot. intros []. slot. intros []. slot. intros [].
    slot. intros []. slot. intros []. apply goes_ret; [done|]. apply slot_caller.
  - match goal with |- wlp ?m _ _ _ _ => assert (Hg : goes (mkfl h w) (caller cur) m (fun _ => mkfl h w) (fun _ => caller cur)) end; [|by apply Hg].
    eapply goes_bind; [apply goes_getp|]. intros o. apply goes_fact. intros _. eapply goes_bind; [apply goes_deref|]. intros p.
    apply goes_fact. intros _. destruct (_ || _).
    + eapply goes_bind; [apply goes_release|intros []]. apply goes_done.
    + apply goes_sleep.
Qed.

(** exit: the caller has closed its descriptors below [fd]. *)
Definition closing (fd : nat) (files : list (option nat)) s : Prop :=
  caller cur s /\ exists q, ptable s !! cur = Some q /\ ofile q = replicate fd None ++ files.

(** Its fileclose of descriptor [fd], while the descriptor is still there. *)
Lemma goes_uncount fd f files : goes (mkfl h w) (closing fd (Some f :: files)) (zoom env_lens (env_fileclose f) : KS unit)
  (fun _ => mkfl h ((cur, fd, f) :: w)) (fun _ => closing fd (Some f :: files)).
Proof.
  intros s c H1 H2. pose proof H2 as (_ & q & Hq & Ho).
  assert (Hfd : ofile q !! fd = Some (Some f)) by (rewrite Ho; apply list_lookup_middle; by rewrite length_replicate).
  assert (Hk : wlp (fileclose kend f) (fun _ k' _ => rtc seg (s, mkfl h w) (set_env k' s, mkfl h ((cur, fd, f) :: w)))
    (fun k' _ => exists t2, rtc seg (s, mkfl h w) (set_env k' s, t2)) (env s) c).
  { apply (wlp_bind shut). pose proof (awake_close f (ftable (env s)) c) as Hw. unfold wlp at 1, zoom. cbn. unfold wlp in Hw.
    destruct (fileclose_ref f (ftable (env s)) c) as [ff tb c1| |] eqn:E; [|done..].
    assert (Hs : seg (s, mkfl h w) (set_ft tb s, mkfl h ((cur, fd, f) :: w))) by (by eapply seg_uncount).
    eapply wlp_mono_both; [apply (kgoes_shut (mkfl h ((cur, fd, f) :: w)) ff (set_ft tb s)); by eapply seg_ok| |]; cbn beta.
    - intros [] k' c' Hr. by eapply rtc_l.
    - intros k' c' [t2 Hr]. exists t2. by eapply rtc_l. }
  unfold wlp, zoom in *. cbn in *. destruct (fileclose kend f (env s) c); auto.
Qed.

Lemma goes_unname fd f files : goes (mkfl h ((cur, fd, f) :: w)) (closing fd (Some f :: files))
  (updp cur (fun q => set_ofile (<[fd := None]> (ofile q)) q) : KS unit)
  (fun _ => mkfl h w) (fun _ => closing (Datatypes.S fd) files).
Proof.
  intros s c H1 (H2 & q & Hq & Ho). unfold updp. lsteps. split; [apply rtc_once; by apply (seg_unname s h [] w cur fd f)|].
  split; [by apply (caller_put fd None)|]. eexists. cbn [ptable set_ptable]. rewrite list_lookup_alter_eq, Hq. split; [done|].
  cbn [ofile set_ofile]. rewrite Ho, insert_app_r_alt by (rewrite length_replicate; lia). rewrite length_replicate, Nat.sub_diag, replicate_S_end, <- app_assoc. done.
Qed.

Lemma goes_exit_files files : forall fd, goes (mkfl h w) (closing fd files) (exit_files cur fd files : KS unit)
  (fun _ => mkfl h w) (fun _ => closing (fd + length files) []).
Proof.
  induction files as [|o files IH]; intros fd; cbn [exit_files length].
  { apply goes_ret; [done|]. by rewrite Nat.add_0_r. }
  replace (fd + Datatypes.S (length files))%nat with (Datatypes.S fd + length files)%nat by lia. destruct o as [f|].
  - eapply goes_bind; [apply goes_uncount|intros []]. eapply goes_bind; [apply goes_unname|intros []]. apply IH.
  - eapply goes_weaken; [|apply IH]. intros s (H2 & q & Hq & Ho). split; [done|]. exists q. split; [done|].
    by rewrite Ho, replicate_S_end, <- app_assoc.
Qed.

(** The caller has closed all its descriptors. *)
Definition all_closed s : Prop := caller cur s /\ exists q, ptable s !! cur = Some q /\ closed q.

Lemma closed_map g s : (forall p, ofile (g p) = ofile p) -> (forall p, dead (g p) <-> dead p) -> all_closed s ->
  all_closed (set_ptable (g <$> ptable s) s) /\ rest s (set_ptable (g <$> ptable s) s).
Proof.
  intros Hg Hd ((k & p & Hk & Hc & Hp & Hl) & q & Hq & Ho). split; [split|split; [done|]].
  - exists k, (g p). cbn. rewrite list_lookup_fmap, Hp, Hd. done.
  - exists (g q). cbn. rewrite list_lookup_fmap, Hq. split; [done|]. unfold closed. by rewrite Hg.
  - apply Forall2_fmap_r, Forall2_same_length_lookup_2; [done|]. intros i x y Hx Hy. assert (y = x) as -> by congruence.
    split; [done|]. rewrite Hd. by left.
Qed.

Lemma closed_alter g j s : (forall p, ofile (g p) = ofile p) -> (forall p, dead (g p) <-> dead p) -> all_closed s ->
  all_closed (set_ptable (alter g j (ptable s)) s) /\ rest s (set_ptable (alter g j (ptable s)) s).
Proof.
  intros Hg Hd ((k & p & Hk & Hc & Hp & Hl) & q & Hq & Ho). assert (q = p) as -> by congruence.
  split; [|apply rest_alter; intros x _; split; [done|]; rewrite Hd; by left].
  destruct (decide (j = cur)) as [->|Hne].
  - split; [exists k, (g p)|exists (g p)]; cbn; rewrite list_lookup_alter_eq, Hp; [by rewrite Hd|]. split; [done|]. unfold closed. by rewrite Hg.
  - split; [exists k, p|exists p]; cbn; by rewrite list_lookup_alter_ne.
Qed.

Lemma wake_same ch p : ofile (wake ch p) = ofile p /\ (dead (wake ch p) <-> dead p).
Proof.
  unfold wake. destruct (is_state SLEEPING p) eqn:E; cbn [andb]; [|done]. apply bool_decide_eq_true in E. case_match; [|done].
  split; [done|]. unfold dead. cbn. rewrite E. naive_solver.
Qed.

Lemma goes_wakeup1 t ch : goes t all_closed (wakeup1 ch : KS unit) (fun _ => t) (fun _ => all_closed).
Proof.
  apply goes_rest. intros s H1 H2. destruct (closed_map (wake ch) s) as [? ?]; [intros p; apply wake_same..|done|done].
Qed.

Lemma goes_reparent t ip n : forall i, goes t all_closed (reparent cur ip n i : KS unit) (fun _ => t) (fun _ => all_closed).
Proof.
  induction n as [|n IH]; intros i; cbn [reparent]; [by apply goes_ret|].
  eapply goes_bind; [apply goes_getp|]. intros o. apply goes_fact. intros _. eapply goes_bind; [apply goes_deref|]. intros p.
  apply goes_fact. intros _. apply (goes_bind _ _ _ _ (fun _ => t) (fun _ => all_closed)); [|intros []; apply IH].
  destruct (bool_decide _); [|by apply goes_ret].
  apply (goes_bind _ _ _ _ (fun _ => t) (fun _ => all_closed)).
  - apply goes_rest. intros s H1 H2. by destruct (closed_alter (set_parent ip) i s).
  - intros []. destruct (is_state ZOMBIE p); [apply goes_wakeup1|by apply goes_ret].
Qed.

Lemma goes_exit_zombie t : goes t all_closed (exit_zombie cur : KS unit) (fun _ => t) (fun _ _ => True).
Proof.
  unfold exit_zombie. eapply goes_bind; [apply goes_acquire|intros []].
  eapply goes_bind; [apply goes_getp|]. intros o. apply goes_fact. intros _. eapply goes_bind; [apply goes_deref|]. intros p.
  apply goes_fact. intros _. eapply goes_bind; [apply goes_wakeup1|intros []].
  do 2 (eapply goes_bind; [by apply (goes_gets _ _ _ (fun _ => all_closed))|intros ?]).
  eapply goes_bind; [apply goes_reparent|intros []].
  apply (goes_bind _ _ _ _ (fun _ => t) (fun _ _ => True)).
  - apply goes_rest. intros s H1 (_ & q & Hq & Hcl). split; [|done]. apply rest_alter. intros x Hx.
    assert (x = q) as -> by congruence. split; [done|]. by right.
  - intros [] s c H1 H2. by apply wlp_sched.
Qed.

Lemma goes_env_closed {A} t (l : lens (kenv S) A) (m : K A unit) : (forall a k, ftable (lset l a k) = ftable k) ->
  goes t all_closed (zoom env_lens (zoom l m)) (fun _ => t) (fun _ => all_closed).
Proof. intros Hl. apply goes_env; [done|by apply kgoes_other]. Qed.

Lemma exit_balanced : goes (mkfl h w) (caller cur) (exit : KS unit) (fun _ => mkfl h w) (fun _ _ => True).
Proof.
  unfold exit. eapply goes_bind; [by apply goes_myproc|]. intros me. apply goes_fact. intros ->.
  eapply goes_bind; [apply goes_deref|]. intros cur'. apply goes_fact. intros [= <-].
  eapply goes_bind; [by apply (goes_gets _ _ _ (fun _ => caller cur))|]. intros ip. case_match; [apply goes_panic|].
  apply (goes_bind _ _ _ _ (fun _ => mkfl h w) (fun o s => caller cur s /\ ptable s !! cur = o)); [by apply goes_gets|].
  intros o. destruct o as [p|]; [|apply goes_panic]. eapply goes_bind; [by apply (goes_ret _ _ p (fun _ => mkfl h w)
    (fun a s => a = p /\ (caller cur s /\ ptable s !! cur = Some p)))|]. intros a. apply goes_fact. intros ->.
  eapply goes_bind.
  { eapply goes_weaken; [|apply goes_exit_files]. intros s [H2 Hp]. split; [done|]. by exists p. }
  intros []. eapply (goes_weaken _ _ all_closed).
  { intros s (H2 & q & Hq & Ho). split; [done|]. exists q. split; [done|]. unfold closed. rewrite Ho, app_nil_r. by apply Forall_replicate. }
  eapply goes_bind; [by apply goes_env_closed|intros []].
  eapply goes_bind; [apply goes_getp|]. intros o1. apply goes_fact. intros _. eapply goes_bind; [apply goes_deref|]. intros p1.
  apply goes_fact. intros _. eapply goes_bind; [apply goes_deref|]. intros d. apply goes_fact. intros _.
  do 2 (eapply goes_bind; [by apply goes_env_closed|intros []]).
  apply (goes_bind _ _ _ _ (fun _ => mkfl h w) (fun _ => all_closed)); [|intros []; apply goes_exit_zombie].
  apply goes_rest. intros s H1 H2. by destruct (closed_alter (set_cwd None) cur s).
Qed.
End calls.

(** *** All runs *)

Section runs.
Context {S : Type} `{BlockOps S}.
Variable devsw_read : Z -> option (nat -> Z -> K (fs S) (Z * bytes)).
Variable devsw_write : Z -> option (nat -> bytes -> Z -> K (fs S) Z).
Variables kend kdata vram_size pvram_addr : Z.
Implicit Types s : pst (kenv S).

Local Instance calls_env : ProcEnv (kenv S) := kenv_env devsw_read kend kdata vram_size pvram_addr.

(** The call [m], begun in [s] with [t] in flight, is a sequence of pieces;
    when it returns, what it took is stored and what it owed is paid. *)
Definition in_pieces {A} (t : flight) s (m : K (pst (kenv S)) A) : Prop :=
  forall c, match m s c with
            | Ret _ s' _ => rtc seg (s, t) (s', t)
            | Sleep _ s' _ => exists t', rtc seg (s, t) (s', t')
            | Panic _ => True
            end.

Lemma goes_in_pieces {A} t P (m : K (pst (kenv S)) A) P' s : goes t P m (fun _ => t) P' -> refs_ok (s, t) -> P s -> in_pieces t s m.
Proof. intros Hg H1 H2 c. specialize (Hg s c H1 H2). unfold wlp in Hg. by destruct (m s c) as [? ? ?| |]; [destruct Hg| |]. Qed.

(** C3. Reference counts of open files, over any sequence of pieces of calls
    of any processes, that is, with a switch allowed at every point between
    two of them.  The count of each entry of the file table is the number of
    descriptors of all processes that name it, plus the references held by
    calls that run, less the descriptors whose reference is not counted (of
    a process between the two halves of dup, or of a file that exit closes);
    those descriptors are there, and slots that are unused or zombies have
    none.  And dup, close, open, pipe, fork, wait and exit of a process
    that owes nothing are sequences of such pieces: up to their first sleep,
    and, when they return, with nothing of their own left in flight. *)
Theorem file_refs_preserved s0 s t :
  refs_ok (s0, none) -> rtc seg (s0, none) (s, t) ->
  (forall i, count_of (ftable (env s)) i = proc_count i (ptable s) + times i (held_refs t) - times i (snd <$> owed t)) /\
  Forall no_files (ptable s) /\ Forall (owing s) (owed t) /\
  (forall cur um, caller cur s -> (forall fd, (cur, fd) ∉ (owed t).*1) ->
     in_pieces t s (sys_dup um) /\ in_pieces t s (sys_close kend um) /\
     in_pieces t s (sys_open devsw_read devsw_write kend um) /\ in_pieces t s (sys_pipe kend um) /\
     (forall forkret tf0, in_pieces t s (fork forkret tf0)) /\ in_pieces t s wait /\ in_pieces t s exit).
Proof.
  intros H1 Hr. pose proof (segs_ok _ _ Hr H1) as Hok. pose proof Hok as [H2 H3 _ H4 _]. cbn [fst snd] in *.
  split; [intros i; rewrite H2; unfold in_flight; lia|]. split; [done|]. split; [done|].
  intros cur um Hc Hn. destruct t as [h w]. cbn [owed] in Hn.
  split_and!; intros; (eapply goes_in_pieces; [|exact Hok|exact Hc]).
  - by apply sys_dup_balanced.
  - by apply sys_close_balanced.
  - by apply sys_open_balanced.
  - by apply sys_pipe_balanced.
  - by apply fork_balanced.
  - by apply wait_balanced.
  - by apply exit_balanced.
Qed.
End runs.

(** A process with descriptor 0 open calls dup(0): the arguments are on
    its stack, in the zeroed memory. *)
Definition p_files : proc :=
  mkproc 4096 0 0 RUNNING 1 None 0 zero_tf 0 (mkcontext 0 0 0 0 0) None false
    (Some 0%nat :: replicate 15 None) None [] 0 false 3 [] [].

Definition s_files : pst (kenv bio) :=
  mkpst [p_files; set_pstate UNUSED (set_ofile (replicate 16 None) p_files)] 2 None [mkcpu (Some 0%nat) 0 0 0 AtTop] 0
    (mkkenv fs0 [mkfile FD_INODE 1 true true 0 0 0; mkfile FD_NONE 0 false false 0 0 0] (fun _ => pipe_init []) k0).

Definition dup_files : pst (kenv bio) :=
  match sys_dup (fun _ => 0) s_files (mkctx [] [] 1) with Ret _ s' _ => s' | _ => s_files end.

Lemma s_files_ok : refs_ok (s_files, none).
Proof.
  split; cbn.
  - intros i. unfold names, in_flight. repeat case_decide; simplify_eq; try done. by destruct i as [|[|]].
  - apply Forall_cons. split; [by intros [? | ?]|]. apply Forall_singleton. intros _. by repeat constructor.
  - by repeat constructor.
  - constructor.
  - constructor.
Qed.

Lemma s_files_caller : caller 0 s_files.
Proof. eexists _, _. split; [done|]. split; [done|]. split; [done|]. by intros [? | ?]. Qed.

Lemma dup_files_run : exists a c, sys_dup (fun _ => 0) s_files (mkctx [] [] 1) = Ret a dup_files c.
Proof.
  assert (Hn : match sys_dup (fun _ => 0) s_files (mkctx [] [] 1) with Ret _ _ _ => true | _ => false end = true) by by vm_compute.
  unfold dup_files. destruct (sys_dup _ _ _) as [a s' c'| |]; [by exists a, c'|done..].
Qed.

(** The same process has begun exit and closed the file: the descriptor is
    still there. *)
Definition exiting : pst (kenv bio) := set_ft [mkfile FD_NONE 0 true true 0 0 0; mkfile FD_NONE 0 false false 0 0 0] s_files.

Lemma exiting_run : rtc seg (s_files, none) (exiting, mkfl [] [(0%nat, 0%nat, 0%nat)]).
Proof.
  apply rtc_once. unfold none. by eapply (seg_uncount s_files [] [] 0 p_files 0 0 _ _ (mkctx [] [] 1)); [| |apply not_elem_of_nil|].
Qed.

Lemma file_refs_preserved_witness :
  fref <$> ftable (env dup_files) !! 0%nat = Some 2 /\ count_of (ftable (env dup_files)) 0 = proc_count 0 (ptable dup_files) /\
  count_of (ftable (env exiting)) 0 = proc_count 0 (ptable exiting) - 1.
Proof.
  pose proof (file_refs_preserved (fun _ => None) (fun _ => None) 0 0 0 0 s_files) as Hf.
  destruct (Hf s_files none s_files_ok (rtc_refl _ _)) as (_ & _ & _ & Hcalls).
  destruct (Hcalls 0%nat (fun _ => 0) s_files_caller) as [Hdup _]; [intros fd; apply not_elem_of_nil|].
  destruct dup_files_run as (a & c & E). specialize (Hdup (mkctx [] [] 1)). rewrite E in Hdup.
  destruct (Hf dup_files none s_files_ok Hdup) as [Hc _]. destruct (Hf exiting _ s_files_ok exiting_run) as [He _].
  split; [by vm_compute|]. split; [rewrite Hc; change (times 0 _) with 0; lia|]. rewrite He.
  change (times 0 _) with 0 at 1. change (times 0 _) with 1. lia.
Defined.
