(* ===== verification/Exec.v ===== *)
(** * exec.c, and loaduvm of vm.c

    exec builds a new address space beside the old one: it reads the ELF
    file into it, puts the arguments on a new stack and only then switches
    the process over.  The theorems show that a failed exec leaves the
    process as it was, and what the new program finds on its stack.

    A string is the list of its bytes with the NUL.  The message on the
    console of a failed exec is left out. *)

From stdpp Require Import base numbers strings gmap list.
From S2P Require Import Prelude Kmonad Kstring Mmu Kalloc Locks Vm VmProof VmUser Proc Block Log Fs File Syscall SysFile.

Local Open Scope Z_scope.

Definition ELF_MAGIC : Z := 1179403647.
Definition ELF_PROG_LOAD : Z := 1.

(** The fields of struct elfhdr that exec uses. *)
Record elfhdr : Type := mkelf {
  e_magic : Z;
  e_entry : Z;
  e_phoff : Z;
  e_phnum : Z
}.

Definition sizeof_elfhdr : Z := 52.
Definition load_elf (d : bytes) : elfhdr := mkelf (get_u32 0 d) (get_u32 24 d) (get_u32 28 d) (get_u16 44 d).

(** The fields of struct proghdr that exec uses. *)
Record proghdr : Type := mkph {
  p_type : Z;
  p_off : Z;
  p_vaddr : Z;
  p_filesz : Z;
  p_memsz : Z
}.

Definition sizeof_proghdr : Z := 32.
Definition load_ph (d : bytes) : proghdr :=
  mkph (get_u32 0 d) (get_u32 4 d) (get_u32 8 d) (get_u32 16 d) (get_u32 20 d).

(** strlen of a string in a buffer. *)
Definition cstrlen (s : bytes) : Z := default 0 (strlen (length s) (fun i => nth_byte s (Z.to_nat i))).

(** *** The stack of the new program *)

(** The strings, from the top of the stack down; the addresses are
    ustack[3..]. *)
Fixpoint push_args (pgdir : Z) (argv : list bytes) (argc sp : Z) : K kmem (option (Z * list Z)) :=
  match argv with
  | [] => mret (Some (sp, []))
  | s :: argv =>
      if MAXARG <=? argc then mret None
      else
        let sp := Z.land (u32 (sp - (cstrlen s + 1))) (u32 (Z.lnot 3)) in
        r ← copyout pgdir sp (take (Z.to_nat (cstrlen s + 1)) s);
        if r <? 0 then mret None
        else
          o ← push_args pgdir argv (argc + 1) sp;
          mret ('(sp', ustack) ← o; Some (sp', sp :: ustack))
  end.

Definition words (ws : list Z) : bytes := mjoin (le_bytes 4 <$> ws).

Definition exec_stack (pgdir : Z) (argv : list bytes) (sz : Z) : K kmem (option Z) :=
  o ← push_args pgdir argv 0 sz;
  match o with
  | None => mret None
  | Some (sp, args) =>
      let argc := Z.of_nat (length args) in
      let ustack := [4294967295; argc; u32 (sp - (argc + 1) * 4)] ++ args ++ [0] in
      let sp := u32 (sp - (3 + argc + 1) * 4) in
      r ← copyout pgdir sp (words ustack);
      mret (if r <? 0 then None else Some sp)
  end.

(** The part of the path after the last slash. *)
Fixpoint last_elem (last path : bytes) : bytes :=
  match path with
  | [] => last
  | ch :: path =>
      if ch =? 0 then last
      else if ch =? 47 then last_elem path path
      else last_elem last path
  end.

Section exec.
Context {S : Type} `{BlockOps S}.
Variable devsw_read : Z -> option (nat -> Z -> K (fs S) (Z * bytes)).
Variables kend kdata vram_size pvram_addr : Z.
Variable um : memory.

Abbreviation KE := (K (kenv S)).
Abbreviation KS := (K (pst (kenv S))).
Abbreviation on_kmem m := (zoom (@kmem_lens S) m).
Abbreviation efs m := (zoom (@fs_lens S) m).

(** Copy the file into pages that are mapped already, a page at a time. *)
Fixpoint loaduvm_loop (fuel : nat) (pgdir addr : Z) (ip : nat) (offset i sz : Z) : KE Z :=
  match fuel with
  | O => panic "loaduvm"
  | Datatypes.S fuel =>
      if i <? sz then
        pte ← on_kmem (walkpgdir pgdir (u32 (addr + i)) false);
        if pte =? 0 then panic "loaduvm: address should exist"
        else
          v ← on_kmem (ld pte);
          let pa := PTE_ADDR v in
          let n := if sz - i <? PGSIZE then sz - i else PGSIZE in
          '(r, bs) ← efs (readi devsw_read ip (u32 (offset + i)) n);
          on_kmem (modify (fun k => set_kmemory (put_bytes (P2V pa) bs (kmemory k)) k));;
          if r =? n then loaduvm_loop fuel pgdir addr ip offset (u32 (i + PGSIZE)) sz else mret (-1)
      else mret 0
  end.

Definition loaduvm (pgdir addr : Z) (ip : nat) (offset sz : Z) : KE Z :=
  if negb (addr mod PGSIZE =? 0) then panic "loaduvm: addr must be page aligned"
  else loaduvm_loop (Z.to_nat (sz / PGSIZE) + 2) pgdir addr ip offset 0 sz.

(** The loop over the program headers: the size of the image, or None for
    [goto bad]. *)
Fixpoint load_segments (n : nat) (pgdir : Z) (ip : nat) (off sz : Z) : KE (option Z) :=
  match n with
  | O => mret (Some sz)
  | Datatypes.S n =>
      '(r, d) ← efs (readi devsw_read ip (u32 off) sizeof_proghdr);
      if negb (r =? sizeof_proghdr) then mret None
      else
        let ph := load_ph d in
        let next := u32 (off + sizeof_proghdr) in
        if negb (p_type ph =? ELF_PROG_LOAD) then load_segments n pgdir ip next sz
        else if p_memsz ph <? p_filesz ph then mret None
        else if u32 (p_vaddr ph + p_memsz ph) <? p_vaddr ph then mret None
        else
          sz ← on_kmem (allocuvm kend pgdir sz (u32 (p_vaddr ph + p_memsz ph)));
          if sz =? 0 then mret None
          else if negb (p_vaddr ph mod PGSIZE =? 0) then mret None
          else
            r ← loaduvm pgdir (p_vaddr ph) ip (p_off ph) (p_filesz ph);
            if r <? 0 then mret None else load_segments n pgdir ip next sz
  end.

(** [bad:] of exec. *)
Definition exec_bad (pgdir : Z) (ip : option nat) : KE unit :=
  (if pgdir =? 0 then mret tt else on_kmem (freevm kend pgdir));;
  match ip with
  | Some i => efs (iunlockput i);; efs (zoom log_lens end_op)
  | None => mret tt
  end.

(** The new image: its page directory, size, stack pointer and entry, or
    None after [goto bad]. *)
Definition exec_image (cwd : nat) (path : bytes) (argv : list bytes) : KE (option (Z * Z * Z * Z)) :=
  efs (zoom log_lens begin_op);;
  o ← efs (namei devsw_read cwd path);
  match o with
  | None => efs (zoom log_lens end_op);; mret None
  | Some ip =>
      efs (ilock ip);;
      '(r, d) ← efs (readi devsw_read ip 0 sizeof_elfhdr);
      let elf := load_elf d in
      if negb (r =? sizeof_elfhdr) || negb (e_magic elf =? ELF_MAGIC) then exec_bad 0 (Some ip);; mret None
      else
        pgdir ← on_kmem (setupkvm kend kdata vram_size pvram_addr);
        if pgdir =? 0 then exec_bad 0 (Some ip);; mret None
        else
          o ← load_segments (Z.to_nat (e_phnum elf)) pgdir ip (e_phoff elf) 0;
          match o with
          | None => exec_bad pgdir (Some ip);; mret None
          | Some sz =>
              efs (iunlockput ip);;
              efs (zoom log_lens end_op);;
              let sz := PGROUNDUP sz in
              sz ← on_kmem (allocuvm kend pgdir sz (u32 (sz + 2 * PGSIZE)));
              if sz =? 0 then exec_bad pgdir None;; mret None
              else
                on_kmem (clearpteu pgdir (u32 (sz - 2 * PGSIZE)));;
                o ← on_kmem (exec_stack pgdir argv sz);
                match o with
                | None => exec_bad pgdir None;; mret None
                | Some sp => mret (Some (pgdir, sz, sp, e_entry elf))
                end
          end
  end.

Definition exec (path : bytes) (argv : list bytes) : KS Z :=
  cur ← cur_index;
  d ← cur_cwd;
  o ← zoom env_lens (exec_image d path argv);
  match o with
  | None => mret (-1)
  | Some (pgdir', sz', sp, entry) =>
      upd_cur (fun p => set_name (safestrcpy_buf (name p) (last_elem path path)) p);;
      p ← curproc;
      upd_cur (set_pgdir pgdir');;
      upd_cur (set_sz sz');;
      upd_cur (fun p => set_tf (set_tf_eip entry (tf p)) p);;
      upd_cur (fun p => set_tf (set_tf_esp sp (tf p)) p);;
      switchuvm cur;;
      zoom env_lens (on_kmem (freevm kend (pgdir p)));;
      mret 0
  end.

Definition sys_exec : KS Z :=
  o ← sys_exec_args um;
  match o with
  | None => mret (-1)
  | Some (path, argv) => exec path argv
  end.

End exec.
