(* ===== verification/ExecProof.v ===== *)
(** * What exec promises

    The stack of the new program: main finds argc and argv, with copies of
    the argument strings in its own memory.  And exec switches the process
    that calls it to the new image at once or not at all, and on every path
    gives back the inode references, locks and log reservation it took. *)

From stdpp Require Import base numbers strings gmap list.
From S2P Require Import Prelude Kmonad Kstring Mmu Kalloc Locks Vm VmProof VmUser VmRuns Proc Pipe Block Bio Log LogRuns Fs FsRuns File Syscall SysFile Exec FsAcct.

Local Open Scope Z_scope.

(** *** Strings and words *)

Definition cstring (s : bytes) : Prop := exists t, s = t ++ [0] /\ Forall (fun b => 0 < b < 256) t.

Lemma cstring_bytes s : cstring s -> Forall is_byte s.
Proof.
  intros (t & -> & Ht). apply Forall_app. split; [|repeat constructor; unfold is_byte; lia].
  eapply Forall_impl; [exact Ht|]. unfold is_byte. intros; lia.
Qed.

Lemma cstrlen_cstring s : cstring s -> cstrlen s = Z.of_nat (length s) - 1.
Proof.
  intros (t & -> & Ht). unfold cstrlen. rewrite (proj2 (strlen_spec _ _ (Z.of_nat (length t)))).
  - cbn. rewrite length_app. cbn. lia.
  - unfold nth_byte. rewrite length_app. cbn. split; [lia|]. split.
    + rewrite Nat2Z.id, lookup_app_r, Nat.sub_diag by done. done.
    + intros i Hi. rewrite lookup_app_l by lia. destruct (lookup_lt_is_Some_2 t (Z.to_nat i)) as [b Hb]; [lia|].
      rewrite Hb. eapply Forall_lookup_1 in Ht; [|exact Hb]. cbn. lia.
Qed.

(** Rounding up to words. *)
Definition up4 (n : Z) : Z := (n + 3) / 4 * 4.

Lemma align_down x : in_u32 x -> Z.land x (u32 (Z.lnot 3)) = x - x mod 4.
Proof.
  intros Hx. change (u32 (Z.lnot 3)) with (Z.ldiff (Z.ones 32) (Z.ones 2)). rewrite land_round_down by done.
  change (2 ^ 2) with 4. Z.div_mod_to_equations. lia.
Qed.

(** *** The memory of the program *)

Definition user_word (f : Z -> Z) (a : Z) : Z := le_val [f a; f (a + 1); f (a + 2); f (a + 3)].

Definition user_string (f : Z -> Z) (a : Z) (s : bytes) : Prop :=
  forall i, (i < length s)%nat -> f (a + Z.of_nat i) = nth_byte s i.

(** What main(argc, argv) finds: a return address, argc, argv, and at argv
    the addresses of the strings with a null pointer after them. *)
Definition program_stack (f : Z -> Z) (sp : Z) (argv : list bytes) : Prop :=
  let argc := Z.of_nat (length argv) in
  user_word f sp = 4294967295 /\ user_word f (sp + 4) = argc /\ user_word f (sp + 8) = sp + 12 /\
  (forall j s, argv !! j = Some s -> user_string f (user_word f (sp + 12 + 4 * Z.of_nat j)) s) /\
  user_word f (sp + 12 + 4 * argc) = 0.

Lemma length_words ws : length (words ws) = (4 * length ws)%nat.
Proof.
  induction ws as [|w ws IH]; [done|]. change (words (w :: ws)) with (le_bytes 4 w ++ words ws).
  rewrite length_app, IH, length_le_bytes. cbn. lia.
Qed.

Lemma words_bytes ws : Forall is_byte (words ws).
Proof. induction ws as [|w ws IH]; [constructor|]. apply Forall_app. split; [apply le_bytes_is_byte|exact IH]. Qed.

Lemma lookup_words ws : forall j w i, ws !! j = Some w -> (i < 4)%nat -> words ws !! (4 * j + i)%nat = le_bytes 4 w !! i.
Proof.
  induction ws as [|w' ws IH]; intros [|j] w i Hj Hi; try done; change (words (w' :: ws)) with (le_bytes 4 w' ++ words ws).
  - injection Hj as ->. rewrite Nat.mul_0_r, Nat.add_0_l. apply lookup_app_l. by rewrite length_le_bytes.
  - rewrite lookup_app_r by (rewrite length_le_bytes; lia). rewrite length_le_bytes. rewrite <- (IH j w i Hj Hi). f_equal. lia.
Qed.

Lemma word_at f a ws j w : user_string f a (words ws) -> ws !! j = Some w -> in_u32 w ->
  user_word f (a + 4 * Z.of_nat j) = w.
Proof.
  intros Hs Hj Hw. pose proof (lookup_lt_Some _ _ _ Hj) as Hl.
  assert (Hb : forall i, (i < 4)%nat -> f (a + 4 * Z.of_nat j + Z.of_nat i) = nth_byte (le_bytes 4 w) i).
  { intros i Hi. replace (a + 4 * Z.of_nat j + Z.of_nat i) with (a + Z.of_nat (4 * j + i)) by lia.
    rewrite Hs by (rewrite length_words; lia). unfold nth_byte. by rewrite (lookup_words _ _ w). }
  pose proof (Hb 0%nat ltac:(lia)) as H0. rewrite Z.add_0_r in H0. pose proof (Hb 1%nat ltac:(lia)) as H1.
  pose proof (Hb 2%nat ltac:(lia)) as H2. pose proof (Hb 3%nat ltac:(lia)) as H3.
  change (Z.of_nat 1) with 1 in H1. change (Z.of_nat 2) with 2 in H2. change (Z.of_nat 3) with 3 in H3.
  unfold user_word. rewrite H0, H1, H2, H3.
  change (le_val (le_bytes 4 w) = w). rewrite le_val_bytes. apply Z.mod_small. unfold in_u32 in Hw. lia.
Qed.

(** Where the strings go, and where they end. *)
Fixpoint arg_addrs (sp : Z) (argv : list bytes) : list Z :=
  match argv with
  | [] => []
  | s :: argv => (sp - up4 (Z.of_nat (length s))) :: arg_addrs (sp - up4 (Z.of_nat (length s))) argv
  end.

Fixpoint args_size (argv : list bytes) : Z :=
  match argv with
  | [] => 0
  | s :: argv => up4 (Z.of_nat (length s)) + args_size argv
  end.

Lemma args_size_nonneg argv : 0 <= args_size argv.
Proof. induction argv as [|s argv IH]; cbn [args_size]; unfold up4 in *; [done|]. Z.div_mod_to_equations. lia. Qed.

Section stack.
Context (kend pgdir : Z) (l : list Z).
Implicit Types (m : memory) (k : kmem) (c : ctx).

(** The addresses from [lo] to [hi] are the program's. *)
Definition user_range m (lo hi : Z) : Prop := 0 <= lo /\ hi <= 4294967296 /\ forall x, lo <= x < hi -> user_page m pgdir x = true.

Lemma user_has_table m x : user_page m pgdir x = true -> has_table m pgdir (PDX x) = true.
Proof. unfold user_page, pte. by destruct (has_table m pgdir (PDX x)). Qed.

Lemma copyout_all va buf k c : kmem_inv kend l k -> as_ok kend (kmemory k) pgdir l -> Forall is_byte buf ->
  in_u32 va -> user_range (kmemory k) va (va + Z.of_nat (length buf)) ->
  wp (copyout pgdir va buf) (fun r k' c' => r = 0 /\ c' = c /\ kmem_inv kend l k' /\ as_ok kend (kmemory k') pgdir l /\
    copied (kmemory k) (kmemory k') pgdir va buf) k c.
Proof.
  intros H1 H2 H3 H4 (_ & H5 & Hu). eapply wp_mono; [apply (copyout_loop_run kend (length buf + 1) (kmemory k)); try done|].
  - lia.
  - intros x Hx. by apply user_has_table, Hu.
  - intros r k' c' (-> & Hk & Ha & n & Hc & [[-> ->]|(_ & Hn & Hf)]).
    + rewrite firstn_all in Hc. done.
    + rewrite Hu in Hf by lia. done.
Qed.

(** Only the program's memory from [lo] to [hi] changed. *)
Definition kept m m' (lo hi : Z) : Prop :=
  (forall x, pte m' pgdir x = pte m pgdir x) /\
  (forall x, in_u32 x -> user_page m pgdir x = true -> ~ lo <= x < hi -> umem m' pgdir x = umem m pgdir x).

Lemma kept_user m m' lo hi x : kept m m' lo hi -> user_page m' pgdir x = user_page m pgdir x.
Proof. intros [H1 _]. by apply user_page_pte. Qed.

Lemma kept_range m m' lo hi a b : kept m m' lo hi -> user_range m a b -> user_range m' a b.
Proof. intros Hk (H1 & H2 & H3). split_and!; try done. intros x Hx. rewrite (kept_user m m' lo hi x Hk). by apply H3. Qed.

Lemma copied_kept m m' va buf : copied m m' pgdir va buf -> kept m m' va (va + Z.of_nat (length buf)).
Proof. intros [H1 H2]. split; [done|]. intros x Hx Hu Hn. rewrite H2 by done. by rewrite decide_False. Qed.

Lemma kept_trans m m1 m2 lo1 hi1 lo2 hi2 lo hi : kept m m1 lo1 hi1 -> kept m1 m2 lo2 hi2 ->
  lo <= lo1 -> lo <= lo2 -> hi1 <= hi -> hi2 <= hi -> kept m m2 lo hi.
Proof.
  intros K1 K2 ? ? ? ?. pose proof K1 as [A1 A2]. destruct K2 as [B1 B2]. split.
  - intros x. by rewrite B1.
  - intros x Hx Hu Hn. rewrite B2, A2; try done; try lia. by rewrite (kept_user _ _ _ _ _ K1).
Qed.

Lemma copied_string m m' va buf : copied m m' pgdir va buf -> in_u32 va -> user_range m va (va + Z.of_nat (length buf)) ->
  user_string (umem m' pgdir) va buf.
Proof.
  intros [_ H2] Hva (H0 & H1 & Hu) i Hi. unfold in_u32 in *. rewrite H2 by (unfold in_u32; lia || apply Hu; lia).
  rewrite decide_True by lia. f_equal. lia.
Qed.

Lemma kept_string m m' lo hi va s : kept m m' lo hi -> user_range m va (va + Z.of_nat (length s)) ->
  hi <= va \/ va + Z.of_nat (length s) <= lo -> user_string (umem m pgdir) va s -> user_string (umem m' pgdir) va s.
Proof.
  intros [_ Hk] (H0 & H1 & Hu) Ho Hs i Hi. rewrite Hk; [by apply Hs|unfold in_u32; lia|apply Hu; lia|lia].
Qed.

Lemma push_addr s sp : cstring s -> sp mod 4 = 0 -> in_u32 sp -> 0 <= sp - up4 (Z.of_nat (length s)) ->
  Z.land (u32 (sp - (cstrlen s + 1))) (u32 (Z.lnot 3)) = sp - up4 (Z.of_nat (length s)) /\
  take (Z.to_nat (cstrlen s + 1)) s = s.
Proof.
  intros Hs Hsp Hu Hlo. rewrite cstrlen_cstring by done. split.
  - unfold up4, in_u32 in *. rewrite align_down by apply u32_bound.
    rewrite u32_id by (unfold in_u32; Z.div_mod_to_equations; lia). Z.div_mod_to_equations. lia.
  - apply take_ge. lia.
Qed.

Lemma push_args_run argv : forall argc sp k c,
  kmem_inv kend l k -> as_ok kend (kmemory k) pgdir l -> Forall cstring argv ->
  0 <= argc -> argc + Z.of_nat (length argv) <= MAXARG -> sp mod 4 = 0 -> in_u32 sp ->
  user_range (kmemory k) (sp - args_size argv) sp ->
  wp (push_args pgdir argv argc sp) (fun o k' c' =>
    o = Some (sp - args_size argv, arg_addrs sp argv) /\ c' = c /\ kmem_inv kend l k' /\ as_ok kend (kmemory k') pgdir l /\
    kept (kmemory k) (kmemory k') (sp - args_size argv) sp /\
    (forall j s a, argv !! j = Some s -> arg_addrs sp argv !! j = Some a -> user_string (umem (kmemory k') pgdir) a s)) k c.
Proof.
  induction argv as [|s argv IH]; intros argc sp k c Hk Has Hall H0 Hn Hal Hsp Hr.
  { cbn [push_args args_size arg_addrs]. kstep. rewrite Z.sub_0_r. split_and!; try done. }
  apply Forall_cons in Hall as [Hs Hall]. cbn [push_args args_size length arg_addrs] in *.
  pose proof (args_size_nonneg argv) as Hnn. rewrite (proj2 (Z.leb_gt MAXARG argc)) by lia. cbn zeta.
  destruct Hr as (Hr0 & Hr1 & Hru). destruct (push_addr s sp Hs Hal Hsp) as [-> ->]; [lia|].
  set (a := sp - up4 (Z.of_nat (length s))) in *.
  assert (Hup : Z.of_nat (length s) <= up4 (Z.of_nat (length s)) /\ a mod 4 = 0).
  { unfold a, up4. Z.div_mod_to_equations. lia. }
  assert (Hur : user_range (kmemory k) a (a + Z.of_nat (length s))).
  { split_and!; [lia..|]. intros x Hx. apply Hru. lia. }
  assert (Ha : in_u32 a) by (unfold in_u32 in *; lia).
  kstep. eapply wp_mono; [apply copyout_all; [done..|by apply cstring_bytes|done|done]|].
  intros r k1 c1 (-> & -> & Hk1 & Has1 & Hc). cbn beta. rewrite (proj2 (Z.ltb_ge 0 0)) by done. kstep.
  pose proof (copied_kept _ _ _ _ Hc) as Hkept1. eapply wp_mono.
  - apply (IH (argc + 1) a k1 c Hk1 Has1 Hall); [lia|lia|lia|done|].
    eapply kept_range; [exact Hkept1|]. split_and!; [lia..|]. intros x Hx. apply Hru. lia.
  - intros o k2 c2 (-> & -> & Hk2 & Has2 & Hkept2 & Hstr). kstep.
    replace (sp - (up4 (Z.of_nat (length s)) + args_size argv)) with (a - args_size argv) by (unfold a; lia).
    split_and!; try done.
    + eapply kept_trans; [exact Hkept1|exact Hkept2|..]; unfold a; lia.
    + intros [|j] s' a'; cbn.
      * intros [= <-] [= <-]. eapply kept_string; [exact Hkept2|by eapply kept_range|lia|]. by eapply copied_string.
      * intros Hj Ha'. by eapply Hstr.
Qed.

Lemma arg_addrs_length argv : forall sp, length (arg_addrs sp argv) = length argv.
Proof. induction argv as [|s argv IH]; intros sp; cbn; [done|]. by rewrite IH. Qed.

Lemma arg_addrs_bounds argv : forall sp j s a, argv !! j = Some s -> arg_addrs sp argv !! j = Some a ->
  sp - args_size argv <= a /\ a + Z.of_nat (length s) <= sp.
Proof.
  induction argv as [|s' argv IH]; intros sp [|j] s a Hj Ha; try done; cbn [args_size];
    pose proof (args_size_nonneg argv); cbn in Hj, Ha.
  - injection Hj as ->. injection Ha as <-. unfold up4. Z.div_mod_to_equations. lia.
  - destruct (IH _ _ _ _ Hj Ha). unfold up4 in *. Z.div_mod_to_equations. lia.
Qed.

(** The vector at the bottom of the stack. *)
Lemma ustack_layout f sp sz argv :
  let n := Z.of_nat (length argv) in let b := sz - args_size argv in
  user_string f sp (words ([4294967295; n; u32 (b - (n + 1) * 4)] ++ arg_addrs sz argv ++ [0])) ->
  b <= sz -> in_u32 sz -> sp = b - (3 + n + 1) * 4 -> in_u32 sp ->
  (forall j s a, argv !! j = Some s -> arg_addrs sz argv !! j = Some a -> user_string f a s) ->
  program_stack f sp argv.
Proof.
  intros n b Hw Hb Hsz Hsp Hu Hstr. unfold in_u32 in *. pose proof (word_at _ _ _ 0 _ Hw eq_refl ltac:(done)) as W0.
  pose proof (word_at _ _ _ 1 _ Hw eq_refl ltac:(unfold in_u32; lia)) as W1.
  pose proof (word_at _ _ _ 2 _ Hw eq_refl (u32_bound _)) as W2. rewrite Z.mul_0_r, Z.add_0_r in W0.
  split_and!; [exact W0|exact W1| | |].
  - change (sp + 8) with (sp + 4 * Z.of_nat 2). rewrite W2, u32_id by (unfold in_u32; lia). lia.
  - intros j s Hj. destruct (lookup_lt_is_Some_2 (arg_addrs sz argv) j) as [a Ha].
    { rewrite arg_addrs_length. by eapply lookup_lt_Some. }
    destruct (arg_addrs_bounds argv sz j s a Hj Ha).
    replace (sp + 12 + 4 * Z.of_nat j) with (sp + 4 * Z.of_nat (3 + j)) by lia.
    rewrite (word_at _ _ _ (3 + j) a Hw); [by eapply Hstr| |unfold in_u32; lia].
    rewrite lookup_app_r by (cbn; lia). cbn [length Nat.add Nat.sub]. rewrite Nat.sub_0_r. rewrite lookup_app_l; [done|]. by eapply lookup_lt_Some.
  - replace (sp + 12 + 4 * Z.of_nat (length argv)) with (sp + 4 * Z.of_nat (3 + length argv)) by lia.
    apply (word_at _ _ _ _ 0 Hw); [|done]. rewrite lookup_app_r by (cbn; lia).
    cbn [length Nat.add Nat.sub]. rewrite Nat.sub_0_r. rewrite lookup_app_r; rewrite arg_addrs_length; [|done]. by rewrite Nat.sub_diag.
Qed.

(** The size of the whole stack. *)
Definition stack_size (argv : list bytes) : Z := args_size argv + 4 * (Z.of_nat (length argv) + 4).

(** C19. exec's stack: in a well formed address space whose memory below
    [sz] (down to the size of the arguments) belongs to the program, the
    argument strings and the vector of their addresses are put below [sz];
    main then finds its return address, argc and argv at the stack pointer,
    argv[j] is the address of a copy of the j-th string and argv[argc] is
    null.  No other memory of the program changes. *)
Theorem exec_stack_correct argv sz k c :
  kmem_inv kend l k -> as_ok kend (kmemory k) pgdir l -> Forall cstring argv ->
  Z.of_nat (length argv) <= MAXARG -> sz mod 4 = 0 -> in_u32 sz ->
  user_range (kmemory k) (sz - stack_size argv) sz ->
  wp (exec_stack pgdir argv sz) (fun o k' c' =>
    let sp := sz - stack_size argv in
    o = Some sp /\ c' = c /\ kmem_inv kend l k' /\ as_ok kend (kmemory k') pgdir l /\
    program_stack (umem (kmemory k') pgdir) sp argv /\ kept (kmemory k) (kmemory k') sp sz) k c.
Proof.
  intros Hk Has Hall Hn Hal Hsz (Hr0 & Hr1 & Hru). pose proof (args_size_nonneg argv) as Hnn. unfold stack_size in *.
  unfold exec_stack. kstep. eapply wp_mono.
  { apply (push_args_run argv 0 sz k c Hk Has Hall); [done|lia|done|done|]. split_and!; [lia..|]. intros x Hx. apply Hru. lia. }
  intros o k1 c1 (-> & -> & Hk1 & Has1 & Hkept1 & Hstr). cbn beta iota zeta. rewrite arg_addrs_length.
  set (n := Z.of_nat (length argv)) in *. set (b := sz - args_size argv) in *. set (addrs := arg_addrs sz argv) in *.
  set (ws := [4294967295; n; u32 (b - (n + 1) * 4)] ++ addrs ++ [0]).
  replace (sz - (args_size argv + 4 * (n + 4))) with (b - (3 + n + 1) * 4) in * by lia.
  assert (Hu : in_u32 (b - (3 + n + 1) * 4)) by (unfold in_u32 in *; lia).
  rewrite (u32_id (b - (3 + n + 1) * 4)) by done. set (sp := b - (3 + n + 1) * 4) in *.
  assert (Hlen : Z.of_nat (length (words ws)) = b - sp).
  { rewrite length_words. unfold ws. rewrite !length_app. unfold addrs. rewrite arg_addrs_length. cbn. unfold sp. lia. }
  assert (Hur : user_range (kmemory k1) sp (sp + Z.of_nat (length (words ws)))).
  { rewrite Hlen. eapply kept_range; [exact Hkept1|]. split_and!; [lia..|]. intros x Hx. apply Hru. lia. }
  kstep. eapply wp_mono; [apply copyout_all; [done..|apply words_bytes|done|done]|].
  intros r k2 c2 (-> & -> & Hk2 & Has2 & Hc). pose proof (copied_kept _ _ _ _ Hc) as Hkept2. rewrite Hlen in Hkept2.
  pose proof (copied_string _ _ _ _ Hc Hu Hur) as Hws. cbn beta. kstep. split_and!; try done.
  2:{ eapply kept_trans; [exact Hkept1|exact Hkept2|..]; unfold sp, b; lia. }
  eapply ustack_layout; [exact Hws|unfold b; lia|done|unfold sp; lia|done|].
  intros j s a Hj Ha. destruct (arg_addrs_bounds argv sz j s a Hj Ha) as [Hlo Hhi].
  eapply kept_string; [exact Hkept2| |left; unfold b; lia|by eapply Hstr].
  eapply kept_range; [exact Hkept1|]. split_and!; [lia..|]. intros x Hx. apply Hru. lia.
Qed.
End stack.

(** exec of ["ls"; "-"] with its stack in the page below 8192. *)
Definition argv0 : list bytes := [[108; 115; 0]; [45; 0]].

Lemma m1_stack : user_range dir0 m1 (8192 - stack_size argv0) 8192.
Proof.
  change (8192 - stack_size argv0) with 8160. split_and!; [done..|]. intros x Hx.
  assert (Hi : PDX x = PDX 4096 /\ PTX x = PTX 4096).
  { apply page_index; [unfold in_u32; lia|done|]. unfold same_page. change (4096 / PGSIZE) with 1. unfold PGSIZE. Z.div_mod_to_equations. lia. }
  destruct Hi as [E1 E2]. unfold user_page, pte. rewrite E1, E2. by vm_compute.
Qed.

Lemma exec_stack_correct_witness :
  wp (exec_stack dir0 argv0 8192) (fun o k' c' =>
    let sp := 8192 - stack_size argv0 in
    o = Some sp /\ c' = mkctx [] [] 0 /\ kmem_inv E0 [free2; free1] k' /\ as_ok E0 (kmemory k') dir0 [free2; free1] /\
    program_stack (umem (kmemory k') dir0) sp argv0 /\ kept dir0 m1 (kmemory k') sp 8192) k1 (mkctx [] [] 0).
Proof.
  apply (exec_stack_correct E0 dir0 [free2; free1] argv0 8192 k1 (mkctx [] [] 0)).
  - apply m1_kmem.
  - apply m1_as_ok.
  - repeat constructor; [exists [108; 115]|exists [45]]; (split; [done|]); repeat constructor; lia.
  - done.
  - done.
  - done.
  - apply m1_stack.
Defined.

(** *** exec and the process *)

(** The process after exec: another program in the same process. *)
Definition become (path : bytes) (pd sz' sp entry : Z) (p : proc) : proc :=
  mkproc sz' pd (kstack p) (pstate p) (pid p) (parent p) (tfp p) (set_tf_esp sp (set_tf_eip entry (tf p)))
    (contextp p) (pcontext p) (pchan p) (killed p) (ofile p) (cwd p) (safestrcpy_buf (name p) (last_elem path path)) (uscheduler p) (is_threaded p)
    (priority p) (pticks p) (wait_ticks p).

(** Freeing memory does not sleep. *)
Definition awake {T A} (m : K T A) : Prop := forall t c, wlp m (fun _ _ _ => True) (fun _ _ => False) t c.

Lemma awake_bind {T A B} (m : K T A) (f : A -> K T B) : awake m -> (forall a, awake (f a)) -> awake (mbind f m).
Proof. intros Hm Hf t c. apply wlp_bind. eapply wlp_mono_both; [apply Hm| |done]. intros a t' c' _. apply Hf. Qed.

Lemma awake_kfree kend v : awake (kfree kend v).
Proof. intros t c. unfold kfree. case_match; [by lsteps|]. unfold when. lsteps. destruct (use_lock _); by lsteps. Qed.

Lemma awake_dealloc kend fuel pgdir : forall a oldsz, awake (deallocuvm_loop kend fuel pgdir a oldsz).
Proof.
  induction fuel as [|fuel IH]; intros a oldsz; cbn [deallocuvm_loop]; [by intros t c; lsteps|].
  case_match; [|by intros t c; lsteps]. apply awake_bind.
  { intros t c. unfold walkpgdir, ld. lsteps. by case_match; lsteps. }
  intros pte. case_match; [apply IH|]. apply awake_bind; [intros t c; unfold ld; by lsteps|]. intros v.
  apply awake_bind; [|intros []; apply IH]. case_match; [|by intros t c; lsteps]. case_match; [by intros t c; lsteps|].
  apply awake_bind; [apply awake_kfree|]. intros [] t c. unfold st. by lsteps.
Qed.

Lemma awake_freevm kend pgdir : awake (freevm kend pgdir).
Proof.
  unfold freevm. case_match; [by intros t c; lsteps|]. apply awake_bind.
  { unfold deallocuvm. case_match; [by intros t c; lsteps|]. apply awake_bind; [apply awake_dealloc|].
    intros [] t c. by lsteps. }
  intros _. apply awake_bind; [|intros []; apply awake_kfree]. generalize 0, (Z.to_nat NPDENTRIES). intros i n.
  revert i. induction n as [|n IH]; intros i; cbn [freevm_tables]; [by intros t c; lsteps|].
  apply awake_bind; [intros t c; unfold ld; by lsteps|]. intros v.
  apply awake_bind; [case_match; [apply awake_kfree|by intros t c; lsteps]|]. intros []. apply IH.
Qed.

Section atomic.
Context {S : Type} `{BlockOps S}.
Variable devsw_read : Z -> option (nat -> Z -> K (fs S) (Z * bytes)).
Variables kend kdata vram_size pvram_addr : Z.
Implicit Types s : pst (kenv S).

(** Everything but the environment of proc.c. *)
Definition same_procs s s' : Prop :=
  ptable s' = ptable s /\ cpus s' = cpus s /\ this s' = this s /\ nextpid s' = nextpid s /\ initproc s' = initproc s.

Lemma wlp_upd_cur k i f s c (Q : unit -> pst (kenv S) -> ctx -> Prop) R : cpus s !! this s = Some k -> cproc k = Some i ->
  Q tt (set_ptable (alter f i (ptable s)) s) c -> wlp (upd_cur f) Q R s c.
Proof. intros Hk Hi HQ. unfold upd_cur, cur_index, myproc, updp. lsteps. rewrite Hk. cbn. rewrite Hi. cbn. by lsteps. Qed.

(** *** What exec holds when it returns *)

Hypothesis devices_keep : forall n g, devsw_read n = Some g -> forall i k, keeps (g i k).

#[local] Instance kenv_acct : Accounted (kenv S) := fun k => acct (kfs k).

Lemma from_efs {A} a (m : K (fs S) A) Q : from a m Q -> from a (zoom fs_lens m : K (kenv S) A) Q.
Proof. intros Hm k c Hk. specialize (Hm (kfs k) c Hk). unfold wlp, zoom in *. cbn. by destruct (m _ _). Qed.

Lemma keeps_efs {A} (m : K (fs S) A) : keeps m -> keeps (zoom fs_lens m : K (kenv S) A).
Proof. intros Hm a. apply from_efs, Hm. Qed.

Lemma keeps_kmem {A} (m : K kmem A) : keeps (zoom kmem_lens m : K (kenv S) A).
Proof. intros a k c Hk. unfold wlp, zoom. cbn. by destruct (m _ _). Qed.

Hint Resolve keeps_kmem keeps_efs keeps_readi : keeps.

Lemma keeps_loaduvm pd addr ip off n : keeps (loaduvm devsw_read pd addr ip off n : K (kenv S) Z).
Proof.
  unfold loaduvm. case_match; [apply keeps_panic|]. generalize (Z.to_nat (n / PGSIZE) + 2)%nat, 0. intros fuel.
  induction fuel as [|fuel IH]; intros i; cbn [loaduvm_loop]; keep.
Qed.

Hint Resolve keeps_loaduvm : keeps.

Lemma keeps_load_segments n pd ip : forall off z, keeps (load_segments devsw_read kend n pd ip off z : K (kenv S) (option Z)).
Proof. induction n as [|n IH]; intros off z; cbn [load_segments]; keep. Qed.

(** The account of exec while it reads the file of inode [ip]. *)
Definition reading (ip : nat) (a : account) : account := relock true ip (refer 1 ip (reserve 1 a)).

Lemma close_file {B} a ip (k : unit -> K (kenv S) B) Q : unlocked ip (refer 1 ip (reserve 1 a)) -> from a (k tt) Q ->
  from (reading ip a) (zoom fs_lens (iunlockput ip);; x ← zoom fs_lens (zoom log_lens end_op); k x) Q.
Proof.
  intros Hu Hk. eapply from_bind; [by apply from_efs, iunlockput_drops|]. intros [] a' ->. rewrite refer_back.
  eapply from_bind; [apply from_efs, end_op_releases|]. intros [] a' ->. by rewrite reserve_back.
Qed.
Lemma exec_bad_closes {B} a ip pd (r : B) : unlocked ip (refer 1 ip (reserve 1 a)) ->
  from (reading ip a) (exec_bad kend pd (Some ip);; mret r) (fun _ a' => a' = a).
Proof.
  intros Hu. apply (from_bind _ _ _ (fun _ a' => a' = a)); [|by intros [] a' ->; apply from_ret].
  unfold exec_bad. apply from_then; [keep|]. intros [].
  eapply from_bind; [by apply from_efs, iunlockput_drops|]. intros [] a' ->. rewrite refer_back.
  eapply from_mono; [apply from_efs, end_op_releases|]. intros [] a' ->. apply reserve_back.
Qed.

Lemma exec_image_keeps cwd path argv : keeps (exec_image devsw_read kend kdata vram_size pvram_addr cwd path argv).
Proof.
  intros a. unfold exec_image. eapply from_bind; [apply from_efs, begin_op_reserves|]. intros [] a' ->.
  eapply from_bind; [by apply from_efs, namei_finds|]. intros [ip|] a' ->.
  2: { eapply from_bind; [apply from_efs, end_op_releases|]. intros [] a' ->. apply from_ret, reserve_back. }
  eapply from_bind; [apply from_efs, ilock_locks|]. intros [] a' [Hu ->]. fold (reading ip a).
  apply from_then; [by apply keeps_efs, keeps_readi|]. intros [r d]. case_match; [by apply exec_bad_closes|].
  apply from_then; [apply keeps_kmem|]. intros pd. case_match; [by apply exec_bad_closes|].
  apply from_then; [apply keeps_load_segments|]. intros [z|]; [|by apply exec_bad_closes].
  apply close_file; [done|]. cbv beta.
  match goal with |- from _ ?m _ => assert (Hk : keeps m) by (unfold exec_bad; keep) end. apply Hk.
Qed.
(** The CPU after switchuvm(p). *)
Definition on_cpu (p : proc) (k : cpu) : cpu :=
  mkcpu (cproc k) (sched_policy k) (V2P (pgdir p)) (u32 (kstack p + KSTACKSIZE)) (spc k).

(** exec has switched the process in slot [cur] from [p] to the image that
    exec_image built: the new directory is in use, the old one is freed. *)
Definition switched path argv (k : cpu) (cur : nat) (p : proc) s (c : ctx) s' : Prop :=
  exists d pd z sp entry e1 c1 c2 m2 c3,
    cwd p = Some d /\
    exec_image devsw_read kend kdata vram_size pvram_addr d path argv (env s) c = Ret (Some (pd, z, sp, entry)) e1 c1 /\
    freevm kend (pgdir p) (kkmem e1) c2 = Ret tt m2 c3 /\
    s' = mkpst (<[cur := become path pd z sp entry p]> (ptable s)) (nextpid s) (initproc s)
      (<[this s := on_cpu (become path pd z sp entry p) k]> (cpus s)) (this s)
      (mkkenv (kfs e1) (ftable e1) (kpipes e1) m2).

Lemma wlp_env_run {A} (m : K (kenv S) A) s c (Q : A -> pst (kenv S) -> ctx -> Prop) (R : pst (kenv S) -> ctx -> Prop) :
  (forall x e c', m (env s) c = Ret x e c' -> Q x (mkpst (ptable s) (nextpid s) (initproc s) (cpus s) (this s) e) c') ->
  (forall s' c', same_procs s s' -> R s' c') -> wlp (zoom env_lens m) Q R s c.
Proof. intros HQ HR. unfold wlp, zoom. cbn. destruct (m (env s) c); [by apply HQ|done|by apply HR]. Qed.

Lemma wlp_switch_run i p k s c (Q : unit -> pst (kenv S) -> ctx -> Prop) R :
  ptable s !! i = Some p -> cpus s !! this s = Some k ->
  (forall c', Q tt (mkpst (ptable s) (nextpid s) (initproc s) (<[this s := on_cpu p k]> (cpus s)) (this s) (env s)) c') ->
  wlp (switchuvm i : K (pst (kenv S)) unit) Q R s c.
Proof.
  intros Hp Hk HQ. unfold switchuvm, getp, updcpu. lsteps. rewrite Hp. cbn [deref]. lsteps.
  case_match; [by lsteps|]. case_match; [by lsteps|]. lsteps. unfold set_cpus. cbn [cpus this ptable nextpid initproc env].
  rewrite list_alter_alter_eq, (alter_insert _ _ _ _ Hk). apply HQ.
Qed.

(** C18. exec leaks nothing and switches at once.  On every return it has
    given back the inode references, inode locks and log reservation it
    took.  When it fails no process, CPU or page table register has changed.
    When it succeeds the calling process, and no other, runs the image that
    exec_image built: its page table, size, entry point and stack pointer
    and its name, on the CPU too, with pid, parent, descriptors and current
    directory kept; the old page table is freed.  While it sleeps reading
    the file nothing but the file system and free memory has changed.  The
    processes that end_op and the inode locks wake up are in the context of
    the run and not in this table: a wakeup makes them RUNNABLE and changes
    nothing else. *)
Theorem exec_atomic path argv k cur p s c :
  cpus s !! this s = Some k -> cproc k = Some cur -> ptable s !! cur = Some p ->
  wlp (exec devsw_read kend kdata vram_size pvram_addr path argv)
    (fun r s' _ => acct (kfs (env s')) = acct (kfs (env s)) /\
       (r = -1 /\ same_procs s s' \/ r = 0 /\ switched path argv k cur p s c s'))
    (fun s' _ => same_procs s s') s c.
Proof.
  intros Hk Hc Hp. unfold exec, cur_cwd. apply wlp_bind, wlp_cur_index. intros k' cur' Hk' Hc'.
  assert (cur' = cur) as -> by congruence. clear k' Hk' Hc'.
  apply wlp_bind, wlp_bind, wlp_curproc. intros k' i' p' Hk' Hi' Hp'.
  assert (p' = p) as -> by congruence. clear k' i' Hk' Hi' Hp'.
  destruct (cwd p) as [d|] eqn:Ed; [|by lsteps]. cbn [deref].
  apply wlp_ret, wlp_bind. pose proof (exec_image_keeps d path argv (acct (env s)) (env s) c eq_refl) as Hacct.
  apply wlp_env_run; [|done]. intros o e1 c1 E1. unfold wlp in Hacct. rewrite E1 in Hacct.
  destruct o as [[[[pd z] sp] entry]|]; [|by lsteps; split; [|left]].
  do 1 (apply wlp_bind; eapply wlp_upd_cur; [exact Hk|exact Hc|]).
  apply wlp_bind, wlp_curproc. cbn [ptable cpus this set_ptable]. intros k' i' q Hk' Hi' Hq.
  assert (i' = cur) as -> by congruence. rewrite list_lookup_alter_eq, Hp in Hq. injection Hq as <-.
  do 4 (apply wlp_bind; eapply wlp_upd_cur; [exact Hk|exact Hc|]).
  unfold set_ptable. cbn [ptable cpus this nextpid initproc env]. rewrite !list_alter_alter_eq, (alter_insert _ _ _ _ Hp).
  apply wlp_bind. eapply wlp_switch_run; [apply list_lookup_insert_eq; by eapply lookup_lt_Some|exact Hk|].
  intros c2. cbn [ptable cpus this nextpid initproc env]. apply wlp_bind.
  match goal with |- wlp _ _ _ ?x _ => set (s1 := x) end.
  unfold wlp, zoom. cbn. pose proof (awake_freevm kend (pgdir p) (kkmem e1) c2) as Haw. unfold wlp in Haw.
  destruct (freevm kend (pgdir p) (kkmem e1) c2) as [[] m2 c3| |] eqn:E3; [|done..]. lsteps.
  split; [exact Hacct|]. right. split; [done|]. exists d, pd, z, sp, entry, e1, c1, c2, m2, c3. done.
Qed.
End atomic.

(** exec of a path below something that is not a directory. *)
Definition fs_unlocked : fs bio := set_icache (alter (set_ilk (mksleeplock false 0)) 0%nat (icache fs0)) fs0.

Definition p_exec : proc :=
  mkproc 4096 dir0 E0 RUNNING 1 None 0 zero_tf 0 (mkcontext 0 0 0 0 0) None false (replicate 16 None) (Some 0%nat) [] 0 false 3 [] [].

Definition s_exec : pst (kenv bio) :=
  mkpst [p_exec] 2 None [mkcpu (Some 0%nat) 0 0 0 AtTop] 0 (mkkenv fs_unlocked [] (fun _ => pipe_init []) k0).

Lemma exec_atomic_witness :
  exists s' c', exec (fun _ => None) E0 E0 0 0 [120; 0] argv0 s_exec (mkctx [] [] 1) = Ret (-1) s' c' /\
    same_procs s_exec s' /\ acct (kfs (env s')) = acct (kfs (env s_exec)).
Proof.
  pose proof (exec_atomic (fun _ => None) E0 E0 0 0 (fun n g (E : None = Some g) => ltac:(discriminate E))
    [120; 0] argv0 _ 0 p_exec s_exec (mkctx [] [] 1) eq_refl eq_refl eq_refl) as Hw.
  assert (Hr : match exec (fun _ => None) E0 E0 0 0 [120; 0] argv0 s_exec (mkctx [] [] 1) with Ret r _ _ => r =? -1 | _ => false end = true)
    by (vm_compute; reflexivity).
  unfold wlp in Hw. destruct (exec _ _ _ _ _ _ _ _ _) as [r s' c'| |]; [|done..]. exists s', c'.
  destruct Hw as [Ha [[-> Hs]|[-> _]]]; done.
Defined.
