(* ===== verification/Kbd.v ===== *)
(** * kbd.c and kbd.h: the keyboard

    Scan codes become characters through five tables and the state of the
    modifier keys.  Typing a text on the keyboard, with shift held for the
    characters that need it, is shown to give the text. *)

From stdpp Require Import base numbers strings gmap list.
From S2P Require Import Prelude Kmonad Graphic Console.

Local Open Scope Z_scope.

Definition SHIFT : Z := 1.
Definition CTL : Z := 2.
Definition ALT : Z := 4.
Definition CAPSLOCK : Z := 8.
Definition NUMLOCK : Z := 16.
Definition SCROLLLOCK : Z := 32.
Definition E0ESC : Z := 64.

Definition KEY_HOME : Z := 224.
Definition KEY_END : Z := 225.
Definition KEY_UP : Z := 226.
Definition KEY_DN : Z := 227.
Definition KEY_LF : Z := 228.
Definition KEY_RT : Z := 229.
Definition KEY_PGUP : Z := 230.
Definition KEY_PGDN : Z := 231.
Definition KEY_INS : Z := 232.
Definition KEY_DEL : Z := 233.

(** An array initialiser of 256 bytes: the first entries, then the
    designated ones. *)
Definition table (first : list Z) (rest : list (Z * Z)) : list Z :=
  foldl (fun t e => <[Z.to_nat (fst e) := u8 (snd e)]> t)
    (map u8 first ++ replicate (256 - length first) 0) rest.

Definition shiftcode : list Z :=
  table
    []
    [(29, 2); (42, 1); (54, 1); (56, 4); (157, 2); (184, 4)].

Definition togglecode : list Z :=
  table
    []
    [(58, 8); (69, 16); (70, 32)].

Definition normalmap : list Z :=
  table
    [0; 27; 49; 50; 51; 52; 53; 54;
     55; 56; 57; 48; 45; 61; 8; 9;
     113; 119; 101; 114; 116; 121; 117; 105;
     111; 112; 91; 93; 10; 0; 97; 115;
     100; 102; 103; 104; 106; 107; 108; 59;
     39; 96; 0; 92; 122; 120; 99; 118;
     98; 110; 109; 44; 46; 47; 0; 42;
     0; 32; 0; 0; 0; 0; 0; 0;
     0; 0; 0; 0; 0; 0; 0; 55;
     56; 57; 45; 52; 53; 54; 43; 49;
     50; 51; 48; 46; 0; 0; 0; 0]
    [(156, 10); (181, 47); (200, KEY_UP); (208, KEY_DN); (201, KEY_PGUP); (209, KEY_PGDN); (203, KEY_LF); (205, KEY_RT); (151, KEY_HOME); (207, KEY_END); (210, KEY_INS); (211, KEY_DEL)].

Definition shiftmap : list Z :=
  table
    [0; 27; 33; 64; 35; 36; 37; 94;
     38; 42; 40; 41; 95; 43; 8; 9;
     81; 87; 69; 82; 84; 89; 85; 73;
     79; 80; 123; 125; 10; 0; 65; 83;
     68; 70; 71; 72; 74; 75; 76; 58;
     34; 126; 0; 124; 90; 88; 67; 86;
     66; 78; 77; 60; 62; 63; 0; 42;
     0; 32; 0; 0; 0; 0; 0; 0;
     0; 0; 0; 0; 0; 0; 0; 55;
     56; 57; 45; 52; 53; 54; 43; 49;
     50; 51; 48; 46; 0; 0; 0; 0]
    [(156, 10); (181, 47); (200, KEY_UP); (208, KEY_DN); (201, KEY_PGUP); (209, KEY_PGDN); (203, KEY_LF); (205, KEY_RT); (151, KEY_HOME); (207, KEY_END); (210, KEY_INS); (211, KEY_DEL)].

Definition ctlmap : list Z :=
  table
    [0; 0; 0; 0; 0; 0; 0; 0;
     0; 0; 0; 0; 0; 0; 0; 0;
     (C 81); (C 87); (C 69); (C 82); (C 84); (C 89); (C 85); (C 73);
     (C 79); (C 80); 0; 0; 13; 0; (C 65); (C 83);
     (C 68); (C 70); (C 71); (C 72); (C 74); (C 75); (C 76); 0;
     0; 0; 0; (C 92); (C 90); (C 88); (C 67); (C 86);
     (C 66); (C 78); (C 77); 0; 0; (C 47); 0; 0]
    [(156, 13); (181, (C 47)); (200, KEY_UP); (208, KEY_DN); (201, KEY_PGUP); (209, KEY_PGDN); (203, KEY_LF); (205, KEY_RT); (151, KEY_HOME); (207, KEY_END); (210, KEY_INS); (211, KEY_DEL)].

Definition charcode : list (list Z) := [normalmap; shiftmap; ctlmap; ctlmap].

(** An array of bytes; the index is below 256. *)
Definition at_code (t : list Z) (i : Z) : Z := nth_byte t (Z.to_nat i).

(** kbdgetc with a code in the controller: the value returned and the
    modifiers after it. *)
Definition kbd_code (shift data : Z) : Z * Z :=
  if data =? 0xE0 then (0, Z.lor shift E0ESC)
  else if negb (Z.land data 0x80 =? 0) then
    let data := if negb (Z.land shift E0ESC =? 0) then data else Z.land data 0x7F in
    (0, Z.land shift (u32 (Z.lnot (Z.lor (at_code shiftcode data) E0ESC))))
  else
    let '(data, shift) :=
      if negb (Z.land shift E0ESC =? 0) then (Z.lor data 0x80, Z.land shift (u32 (Z.lnot E0ESC))) else (data, shift) in
    let shift := Z.lor shift (at_code shiftcode data) in
    let shift := Z.lxor shift (at_code togglecode data) in
    let c := at_code (default [] (charcode !! Z.to_nat (Z.land shift (Z.lor CTL SHIFT)))) data in
    let c :=
      if negb (Z.land shift CAPSLOCK =? 0) then
        if (97 <=? c) && (c <=? 122) then u32 (c + (65 - 97))
        else if (65 <=? c) && (c <=? 90) then u32 (c + (97 - 65))
        else c
      else c in
    (c, shift).

(** kbdgetc: [None] is a controller without data. *)
Definition kbdgetc (shift : Z) (port : option Z) : Z * Z :=
  match port with
  | None => (-1, shift)
  | Some data => kbd_code shift data
  end.

(** The values of kbdgetc until the controller is empty, and the modifiers
    then. *)
Fixpoint kbd_codes (shift : Z) (codes : list Z) : list Z * Z :=
  match codes with
  | [] => ([], shift)
  | data :: codes =>
      let '(c, shift) := kbdgetc shift (Some data) in
      let '(cs, shift) := kbd_codes shift codes in
      (c :: cs, shift)
  end.

Section intr.
Variable g : gpu.
Variable stray : Z -> Z -> Z.
Variable uart : bool.

(** kbdintr with the codes waiting in the controller; the result is that
    of consoleintr and the modifiers. *)
Definition kbdintr (shift : Z) (codes : list Z) : K console (bool * Z) :=
  let '(cs, shift) := kbd_codes shift codes in
  b ← consoleintr g stray uart cs;
  mret (b, shift).

End intr.

(** *** Typing *)

(** The key of a character in a map. *)
Definition key_in (t : list Z) (ch : Z) : option Z := Z.of_nat <$> find_idx (fun c => c =? ch) t.

(** The codes of typing a character: press and release its key, with the
    left shift key held down when the character needs it. *)
Definition type_char (ch : Z) : option (list Z) :=
  match key_in normalmap ch with
  | Some i => Some [i; Z.lor i 0x80]
  | None =>
      match key_in shiftmap ch with
      | Some i => Some [0x2A; i; Z.lor i 0x80; 0xAA]
      | None => None
      end
  end.

Fixpoint type_text (text : list Z) : option (list Z) :=
  match text with
  | [] => Some []
  | ch :: text => codes ← type_char ch; rest ← type_text text; Some (codes ++ rest)
  end.

(** What the console is given: the codes that stand for no character are 0. *)
Definition typed (cs : list Z) : list Z := filter (fun c => c <> 0) cs.

Definition swapcase (c : Z) : Z :=
  if (97 <=? c) && (c <=? 122) then c - 32 else if (65 <=? c) && (c <=? 90) then c + 32 else c.

(** The modifiers of an idle keyboard. *)
Definition idle (caps : bool) : Z := if caps then CAPSLOCK else 0.

Lemma kbd_codes_app shift l1 l2 :
  kbd_codes shift (l1 ++ l2) =
  let '(c1, s1) := kbd_codes shift l1 in let '(c2, s2) := kbd_codes s1 l2 in (c1 ++ c2, s2).
Proof.
  revert shift. induction l1 as [|d l1 IH]; intros shift; cbn [app kbd_codes].
  - by destruct (kbd_codes shift l2).
  - destruct (kbdgetc shift (Some d)) as [c s]. rewrite IH. destruct (kbd_codes s l1) as [c1 s1].
    by destruct (kbd_codes s1 l2).
Qed.

(** Every character that can be typed, with and without caps lock. *)
Definition char_ok (ch : Z) : bool :=
  match type_char ch with
  | None => true
  | Some codes =>
      forallb (fun caps : bool =>
        let '(cs, s) := kbd_codes (idle caps) codes in
        bool_decide (typed cs = [if caps then swapcase ch else ch]) && (s =? idle caps)) [true; false]
  end.

Lemma chars_ok : forallb char_ok (seqZ 1 127) = true.
Proof. vm_compute. reflexivity. Qed.

Lemma type_char_ok ch codes caps : 0 < ch < 128 -> type_char ch = Some codes ->
  exists cs, kbd_codes (idle caps) codes = (cs, idle caps) /\ typed cs = [if caps then swapcase ch else ch].
Proof.
  intros Hch E. pose proof chars_ok as H. rewrite forallb_forall in H. specialize (H ch).
  assert (Hin : In ch (seqZ 1 127)) by (apply list_elem_of_In, elem_of_seqZ; lia). specialize (H Hin). unfold char_ok in H.
  rewrite E in H. rewrite forallb_forall in H. specialize (H caps).
  assert (Hc : In caps [true; false]) by (destruct caps; cbn; auto). specialize (H Hc).
  destruct (kbd_codes (idle caps) codes) as [cs s]. apply andb_true_iff in H as [H1 H2].
  apply bool_decide_eq_true in H1. apply Z.eqb_eq in H2. subst. by exists cs.
Qed.

(** Typing: the scan codes of typing any text of ASCII characters that
    have keys, on a keyboard at rest, give exactly the characters of the
    text (with the case of the letters swapped when caps lock is on), and
    leave the keyboard at rest. *)
Theorem kbd_types_text text codes caps :
  Forall (fun ch => 0 < ch < 128) text -> type_text text = Some codes ->
  exists cs, kbd_codes (idle caps) codes = (cs, idle caps) /\ typed cs = if caps then swapcase <$> text else text.
Proof.
  intros Hall. revert codes. induction Hall as [|ch text Hch Hall IH]; intros codes E; cbn [type_text] in E.
  - injection E as <-. exists []. by destruct caps.
  - destruct (type_char ch) as [c1|] eqn:E1; [|done]. destruct (type_text text) as [c2|] eqn:E2; [|done].
    injection E as <-. destruct (type_char_ok ch c1 caps Hch E1) as (cs1 & H1 & T1).
    destruct (IH c2 eq_refl) as (cs2 & H2 & T2). exists (cs1 ++ cs2). rewrite kbd_codes_app, H1, H2. split; [done|].
    unfold typed in *. rewrite filter_app, T1, T2. by destruct caps.
Qed.

Lemma kbd_types_text_witness :
  exists cs, kbd_codes 0 [0x2A; 0x23; 0xA3; 0xAA; 0x17; 0x97; 0x2A; 0x02; 0x82; 0xAA] = (cs, 0) /\ typed cs = [72; 105; 33].
Proof. apply (kbd_types_text [72; 105; 33] _ false); [repeat constructor; lia|]. vm_compute. reflexivity. Defined.
