(* ===== verification/Sysproc.v ===== *)
(** * sysproc.c, and sys_getpinfo and sys_setSchedPolicy of proc.c

    The system calls about processes and time.  [um] is the memory of the
    calling process as the kernel sees it; what a call stores there is part
    of its result.  A call that sleeps is modelled up to the sleep, and
    from each wakeup on by its [_turn].  The messages of sys_uthread_init
    on the console are left out. *)

From stdpp Require Import base numbers strings gmap list.
From S2P Require Import Prelude Kmonad Mmu Kstring Proc Sched Block Log Fs File Syscall SysFile.

Local Open Scope Z_scope.

(** The process system and [uint ticks] of trap.c. *)
Record timed (S : Type) : Type := mktimed {
  tps : pst (kenv S);
  ticks : Z
}.
Arguments mktimed {S}.
Arguments tps {S}.
Arguments ticks {S}.

Definition set_tps {S} (p : pst (kenv S)) (t : timed S) : timed S := mktimed p (ticks t).
Definition set_ticks {S} (n : Z) (t : timed S) : timed S := mktimed (tps t) n.
Definition tps_lens {S} : lens (timed S) (pst (kenv S)) := Lens tps set_tps.

(** struct pstat: six arrays of ints over the process table. *)
Definition sizeof_pstat : Z := 4 * (4 * Z.of_nat NPROC + 2 * (4 * Z.of_nat NPROC)).

Definition ints (ws : list Z) : bytes := mjoin (le_bytes 4 <$> ws).

Definition pstat_bytes (l : list proc) : bytes :=
  ints ((fun p => if is_state UNUSED p then 0 else 1) <$> l) ++
  ints (pid <$> l) ++
  ints (priority <$> l) ++
  ints ((fun p => procstate_code (pstate p)) <$> l) ++
  ints (mjoin (pticks <$> l)) ++
  ints (mjoin (wait_ticks <$> l)).

Section sysproc.
Context {S : Type} `{BlockOps S}.
Variable devsw_read : Z -> option (nat -> Z -> K (fs S) (Z * bytes)).
Variables kend kdata vram_size pvram_addr : Z.
Variables (forkret_addr : Z) (fresh_tf : trapframe).
Variable um : memory.

Abbreviation KS := (K (pst (kenv S))).
Abbreviation KT := (K (timed S)).
Local Instance sys_env : ProcEnv (kenv S) := kenv_env devsw_read kend kdata vram_size pvram_addr.

Definition sys_fork : KS Z := fork forkret_addr fresh_tf.

(** Up to the switch; exit does not return. *)
Definition sys_exit : KS unit := exit.

Definition sys_wait : KS Z := wait.

Definition sys_kill : KS Z :=
  o ← arg_int um 0;
  match o with
  | None => mret (-1)
  | Some target => kill target
  end.

Definition sys_getpid : KS Z := p ← curproc; mret (pid p).

Definition sys_sbrk : KS Z :=
  o ← arg_int um 0;
  match o with
  | None => mret (-1)
  | Some n =>
      p ← curproc;
      r ← growproc n;
      mret (if r <? 0 then -1 else i32 (sz p))
  end.

Definition sys_uthread_init : KS Z :=
  o ← arg_int um 0;
  match o with
  | None => mret (-1)
  | Some sched =>
      upd_cur (set_uscheduler (u32 sched));;
      upd_cur (set_is_threaded true);;
      mret 0
  end.

(** Up to the switch. *)
Definition sys_yield : KS unit := yield.

Definition sys_getpinfo : KS (Z * stores) :=
  ps ← arg_ptr um 0 sizeof_pstat;
  match ps with
  | None => mret (-1, [])
  | Some ps =>
      acquire L_ptable;;
      l ← gets ptable;
      release L_ptable;;
      mret (0, [(ps, pstat_bytes l)])
  end.

Definition sys_setSchedPolicy : KS Z :=
  o ← arg_int um 0;
  match o with
  | None => mret (-1)
  | Some policy => setSchedPolicy policy
  end.

(** *** Time *)

Abbreviation on_proc m := (zoom tps_lens m).

(** One turn of the loop of sys_sleep, tickslock held; [ticks - ticks0 < n]
    compares unsigned ints. *)
Definition sys_sleep_turn (ticks0 n : Z) : KT Z :=
  t ← gets ticks;
  if u32 (t - ticks0) <? u32 n then
    p ← on_proc curproc;
    if killed p then release L_ticks;; mret (-1)
    else on_proc (sleep C_ticks L_ticks);; mret 0 (* not reached: sleep suspends *)
  else release L_ticks;; mret 0.

(** Up to the loop: ticks0 and n, with tickslock held. *)
Definition sys_sleep_enter : KT (option (Z * Z)) :=
  o ← on_proc (arg_int um 0);
  match o with
  | None => mret None
  | Some n =>
      acquire L_ticks;;
      ticks0 ← gets ticks;
      mret (Some (ticks0, n))
  end.

Definition sys_sleep : KT Z :=
  o ← sys_sleep_enter;
  match o with
  | None => mret (-1)
  | Some (ticks0, n) => sys_sleep_turn ticks0 n
  end.

(** After a wakeup: the end of sleep, and the loop again. *)
Definition sys_sleep_again (i : nat) (ticks0 n : Z) : KT Z :=
  on_proc (sleep_resume i L_ticks);;
  sys_sleep_turn ticks0 n.

Definition sys_uptime : KT Z :=
  acquire L_ticks;;
  xticks ← gets ticks;
  release L_ticks;;
  mret (i32 xticks).

End sysproc.

(** ** Sleeping *)

Section sleeping.
Context {S : Type} `{BlockOps S}.
Variable um : memory.
Implicit Types s w : timed S.

(** A call of sys_sleep by process [i] from beginning to end: [r] is how the
    last turn ended, [wakes] are the states in which the process runs again
    after its wakeups.  The result is the value returned, or none while the
    process is asleep. *)
Fixpoint sys_sleep_wakes (i : nat) (ticks0 n : Z) (r : kres (timed S) Z) (wakes : list (timed S)) : option (option Z * ctx) :=
  match r with
  | Ret v _ c => Some (Some v, c)
  | Sleep _ _ c =>
      match wakes with
      | [] => Some (None, c)
      | w :: wakes => sys_sleep_wakes i ticks0 n (sys_sleep_again i ticks0 n w c) wakes
      end
  | Panic _ => None
  end.

Definition sys_sleep_life (i : nat) s (c : ctx) (wakes : list (timed S)) : option (option Z * ctx) :=
  match sys_sleep_enter um s c with
  | Ret (Some (ticks0, n)) s c => sys_sleep_wakes i ticks0 n (sys_sleep_turn ticks0 n s c) wakes
  | Ret None _ c => Some (Some (-1), c)
  | _ => None
  end.

(** Process [i], which is [p], runs on this CPU. *)
Definition runs (i : nat) (p : proc) s : Prop :=
  exists k, cpus (tps s) !! this (tps s) = Some k /\ cproc k = Some i /\ ptable (tps s) !! i = Some p.

(** The answer after the looks at the clock [l], each with the ticks since
    the call and whether the process has been killed. *)
Fixpoint awaited (n : Z) (l : list (Z * bool)) : option Z :=
  match l with
  | [] => None
  | (j, k) :: l => if n <=? j then Some 0 else if k then Some (-1) else awaited n l
  end.

(** [m] goes to sleep, with [Q] of the channel and the state. *)
Definition sleeps {T A} (m : K T A) (Q : chan -> T -> ctx -> Prop) (t : T) c : Prop :=
  match m t c with Sleep ch t' c' => Q ch t' c' | _ => False end.

Lemma sleeps_after {T A B} (m : K T A) (f : A -> K T B) Q t c :
  wp m (fun a t' c' => sleeps (f a) Q t' c') t c -> sleeps (mbind f m) Q t c.
Proof. unfold sleeps, wp, mbind, K_bind. by destruct (m t c). Qed.

Lemma sleeps_in {T A B} (m : K T A) (f : A -> K T B) Q t c : sleeps m Q t c -> sleeps (mbind f m) Q t c.
Proof. unfold sleeps, mbind, K_bind. by destruct (m t c). Qed.

Lemma sleeps_zoom {T U A} (le : lens T U) (m : K U A) (Q : chan -> T -> ctx -> Prop) t c :
  sleeps m (fun ch u c' => Q ch (lset le u t) c') (lget le t) c -> sleeps (zoom le m) Q t c.
Proof. unfold sleeps, zoom. by destruct (m _ c). Qed.

Lemma sleep_sleeps ch i k (q : pst (kenv S)) c (Q : chan -> pst (kenv S) -> ctx -> Prop) :
  cpus q !! this q = Some k -> cproc k = Some i -> is_Some (ptable q !! i) -> held c = [L_ticks] ->
  Q ch (set_ptable (alter (fun p => set_pstate SLEEPING (set_pchan (Some ch) p)) i (ptable q)) q) (mkctx [L_ptable] (woken c) (mypid c)) ->
  sleeps (sleep ch L_ticks) Q q c.
Proof.
  destruct c as [h w m]. cbn. intros Hk Hi [p Hp] -> HQ. unfold sleep, myproc. apply sleeps_after. kstep. rewrite Hk. cbn. rewrite Hi.
  apply sleeps_after. rewrite decide_False by done. kstep. apply wp_acquire; [cbn; set_solver|]. cbn. unfold wp, release. cbn.
  rewrite decide_True by set_solver. rewrite decide_False, decide_True by done. unfold updp.
  do 2 (apply sleeps_after; kstep). apply sleeps_after. unfold wp, sched. cbn.
  rewrite Hk. cbn. rewrite Hi. cbn. rewrite !list_lookup_alter_eq, Hp. cbn. unfold sleeps, block. cbn.
  rewrite list_alter_alter_eq. exact HQ.
Qed.

Lemma wp_curproc_of i p s c (Q : proc -> timed S -> ctx -> Prop) : runs i p s -> Q p s c -> wp (zoom tps_lens curproc) Q s c.
Proof.
  intros (k & Hk & Hi & Hp) HQ. apply wp_zoom. unfold curproc, cur_index, myproc, getp. cbn. kstep. kstep. kstep. rewrite Hk. cbn. rewrite Hi. cbn.
  kstep. cbn. rewrite Hp. cbn. by destruct s.
Qed.

(** One look at the clock. *)
Lemma turn_ends t0 n j i p s c : 0 <= j < 4294967296 -> ticks s = u32 (t0 + j) -> runs i p s -> held c = [L_ticks] ->
  match sys_sleep_turn t0 n s c with
  | Ret r _ c' => held c' = [] /\ awaited (u32 n) [(j, killed p)] = Some r
  | Sleep _ _ c' => held c' = [L_ptable] /\ j < u32 n /\ killed p = false
  | Panic _ => False
  end.
Proof.
  intros Hj Ht Hr Hh. assert (E : u32 (ticks s - t0) = j).
  { rewrite Ht. unfold u32. rewrite Zminus_mod_idemp_l. replace (t0 + j - t0) with j by lia. by apply Z.mod_small. }
  destruct c as [h w m]. cbn in Hh. subst h. cbn [awaited].
  destruct (Z.leb_spec (u32 n) j) as [Hle|Hlt].
  - assert (H' : wp (sys_sleep_turn t0 n) (fun r _ c' => held c' = [] /\ Some 0 = Some r) s (mkctx [L_ticks] w m)).
    { unfold sys_sleep_turn. kstep. kstep. rewrite E, (proj2 (Z.ltb_ge _ _)) by done. by ksteps. }
    destruct (wp_inv _ _ _ _ H') as (r & s' & c' & -> & ? & ?). done.
  - destruct (killed p) eqn:Ek.
    + assert (H' : wp (sys_sleep_turn t0 n) (fun r _ c' => held c' = [] /\ Some (-1) = Some r) s (mkctx [L_ticks] w m)).
      { unfold sys_sleep_turn. kstep. kstep. rewrite E, (proj2 (Z.ltb_lt _ _)) by done. kstep. eapply wp_curproc_of; [done|]. rewrite Ek. by ksteps. }
      destruct (wp_inv _ _ _ _ H') as (r & s' & c' & -> & ? & ?). done.
    + assert (H' : sleeps (sys_sleep_turn t0 n) (fun _ _ c' => held c' = [L_ptable]) s (mkctx [L_ticks] w m)).
      { unfold sys_sleep_turn. apply sleeps_after. kstep. rewrite E, (proj2 (Z.ltb_lt _ _)) by done. apply sleeps_after. eapply wp_curproc_of; [done|].
        rewrite Ek. destruct Hr as (k & Hk & Hi & Hp). apply sleeps_in, sleeps_zoom. eapply sleep_sleeps; [exact Hk|exact Hi|by eexists|done|]. done. }
      unfold sleeps in H'. by destruct (sys_sleep_turn t0 n s _).
Qed.

(** A state in which process [i] runs again, [j] ticks after the call. *)
Definition woken_at (i : nat) (t0 : Z) w (l : Z * bool) : Prop :=
  0 <= l.1 < 4294967296 /\ ticks w = u32 (t0 + l.1) /\ exists p, runs i p w /\ killed p = l.2.

Lemma again_turns i t0 n p w c : runs i p w -> held c = [L_ptable] ->
  exists w' c', sys_sleep_again i t0 n w c = sys_sleep_turn t0 n w' c' /\ runs i (set_pchan None p) w' /\ ticks w' = ticks w /\ held c' = [L_ticks].
Proof.
  intros (k & Hk & Hi & Hp) Hh. destruct c as [h wk m]. cbn in Hh. subst h.
  assert (H' : wp (zoom tps_lens (sleep_resume i L_ticks)) (fun _ w' c' => runs i (set_pchan None p) w' /\ ticks w' = ticks w /\ held c' = [L_ticks]) w (mkctx [L_ptable] wk m)).
  { apply wp_zoom. unfold sleep_resume, updp. ksteps. apply wp_acquire; [cbn; set_solver|]. split; [|done].
    exists k. cbn. split_and!; [done..|]. by rewrite list_lookup_alter_eq, Hp. }
  destruct (wp_inv _ _ _ _ H') as ([] & w' & c' & E & Hr & Ht & Hh'). exists w', c'. split; [|done].
  unfold sys_sleep_again, mbind, K_bind. by rewrite E.
Qed.

Lemma wakes_end i t0 n wakes js : Forall2 (woken_at i t0) wakes js -> forall j p s c,
  0 <= j < 4294967296 -> ticks s = u32 (t0 + j) -> runs i p s -> held c = [L_ticks] ->
  exists c', sys_sleep_wakes i t0 n (sys_sleep_turn t0 n s c) wakes = Some (awaited (u32 n) ((j, killed p) :: js), c') /\
    held c' = match awaited (u32 n) ((j, killed p) :: js) with Some _ => [] | None => [L_ptable] end.
Proof.
  induction 1 as [|w [j' k'] wakes js (Hj' & Ht' & p' & Hr' & Hk') Hws IH]; intros j p s c Hj Ht Hr Hh;
    pose proof (turn_ends t0 n j i p s c Hj Ht Hr Hh) as H1; destruct (sys_sleep_turn t0 n s c) as [r s1 c1|msg|ch s1 c1]; try done; cbn [sys_sleep_wakes].
  1,3: destruct H1 as [H1 H2]; exists c1; cbn [awaited] in *; destruct (u32 n <=? j); [by injection H2 as <-|]; destruct (killed p); [by injection H2 as <-|done].
  - destruct H1 as (H1 & H2 & H3). exists c1. cbn [awaited]. by rewrite (proj2 (Z.leb_gt _ _)), H3 by done.
  - destruct H1 as (H1 & H2 & H3). destruct (again_turns i t0 n p' w c1 Hr' H1) as (w' & c' & -> & Hrw & Htw & Hhw). cbn in *. subst k'.
    rewrite (proj2 (Z.leb_gt _ _)), H3 by done. apply (IH j' (set_pchan None p') w' c' Hj'); [by rewrite Htw|done..].
Qed.

(** C34. A call of sys_sleep with argument [n], by a process that runs.  The
    process looks at the clock when it calls and after every wakeup.  The
    call returns 0, with no lock held, at the first look at which [n] ticks
    or more have passed since the call, counting modulo 2^32 (also across
    the wrap-around of the clock); it returns -1 if the process is found
    killed at a look before; until then it is asleep on the switch, with
    only ptable.lock held.  A negative [n] counts as [n + 2^32]. *)
Theorem sys_sleep_waits i n p s c wakes js :
  runs i p s -> argint (sz p) um (tf_esp (tf p)) 0 = Some n -> held c = [] -> in_u32 (ticks s) -> Forall2 (woken_at i (ticks s)) wakes js ->
  exists c', sys_sleep_life i s c wakes = Some (awaited (u32 n) ((0, killed p) :: js), c') /\
    held c' = match awaited (u32 n) ((0, killed p) :: js) with Some _ => [] | None => [L_ptable] end.
Proof.
  intros Hr Ha Hh Ht Hw. destruct c as [h wk m]. cbn in Hh. subst h. unfold sys_sleep_life.
  assert (H' : wp (sys_sleep_enter um) (fun o s' c' => o = Some (ticks s, n) /\ s' = s /\ held c' = [L_ticks]) s (mkctx [] wk m)).
  { unfold sys_sleep_enter, arg_int. kstep. apply wp_zoom. kstep.
    destruct Hr as (k & Hk & Hi & Hp). unfold curproc, cur_index, myproc, getp. cbn. kstep. kstep. kstep. rewrite Hk. cbn. rewrite Hi. cbn.
    kstep. cbn. rewrite Hp. cbn.
    rewrite Ha. kstep. apply wp_acquire; [cbn; set_solver|]. ksteps. split_and!; [done|by destruct s|done]. }
  destruct (wp_inv _ _ _ _ H') as (o & s' & c' & -> & -> & -> & Hh'). apply wakes_end; [done|lia|by rewrite Z.add_0_r, u32_id|done..].
Qed.
End sleeping.
