(* ===== verification/Trap.v ===== *)
(** * trap.c

    The handler of interrupts, exceptions and system calls.  It may leave
    the CPU in exit or in yield; what trap does when the process runs
    again after yield is [trap_resume].  The system calls themselves
    ([do_syscall]) and the code of the user program that a timer interrupt
    calls ([user_call]) are arguments: what is shown here holds for all of
    them.  The end-of-interrupt command to the local APIC has no effect on
    the state kept here, and the messages on the console are left out.

    The theorems: a process that is marked killed never gets back to user
    mode, and what a timer interrupt does to the process it interrupts. *)

From stdpp Require Import base numbers strings gmap list.
From S2P Require Import Prelude Kmonad Mmu Kstring Kalloc Vm Proc Sched Block Log Fs File Graphic Console Kbd Syscall SysFile Sysproc.

Local Open Scope Z_scope.

(** traps.h *)
Definition T_SYSCALL : Z := 64.
Definition T_IRQ0 : Z := 32.
Definition IRQ_TIMER : Z := 0.
Definition IRQ_KBD : Z := 1.
Definition IRQ_COM1 : Z := 4.
Definition IRQ_IDE : Z := 14.
Definition IRQ_SPURIOUS : Z := 31.
Definition IRQ_I8254 : Z := 11.

(** The machine: the process system with the clock, the console, and the
    modifier keys of the keyboard. *)
Record machine (S : Type) : Type := mkmachine {
  mtimed : timed S;
  mcons : console;
  mshift : Z
}.
Arguments mkmachine {S}.
Arguments mtimed {S}.
Arguments mcons {S}.
Arguments mshift {S}.

Definition timed_lens {S} : lens (machine S) (timed S) := Lens mtimed (fun t s => mkmachine t (mcons s) (mshift s)).
Definition cons_lens {S} : lens (machine S) console := Lens mcons (fun x s => mkmachine (mtimed s) x (mshift s)).
Definition set_mshift {S} (v : Z) (s : machine S) : machine S := mkmachine (mtimed s) (mcons s) v.

(** How trap ends: it returns to the interrupted code, or the process is
    off the CPU, for good (exit) or until it is scheduled again (yield). *)
Inductive off_cpu : Type := Exited | Switched.
Inductive trap_end : Type := Iret | Off (o : off_cpu).

(** What waits at the devices: scan codes in the keyboard controller and
    bytes in the serial port. *)
Record pending : Type := mkpending { scan_codes : list Z; received : list Z }.

(** ideintr of memide.c: nothing to do, the disk is memory. *)
Definition ideintr {S} : K (machine S) unit := mret tt.

(** Interrupts that nobody handles in user mode kill the process. *)
Definition in_user (tf : trapframe) : bool := Z.land (tf_cs tf) 3 =? DPL_USER.
Definition in_kernel (tf : trapframe) : bool := Z.land (tf_cs tf) 3 =? 0.

Section trap.
Context {S : Type} `{BlockOps S}.
Variable devsw_read : Z -> option (nat -> Z -> K (fs S) (Z * bytes)).
Variables kend kdata vram_size pvram_addr : Z.
Variable do_syscall : sysname -> K (machine S) (off_cpu + Z).
Variable user_call : Z -> K (machine S) unit.
Variables (g : gpu) (stray : Z -> Z -> Z) (uart : bool).
Variable intr_addr : Z.    (* the word i8254_init allocated *)
Variable dev : pending.

Abbreviation KM := (K (machine S)).
Abbreviation on_timed m := (zoom timed_lens m).
Abbreviation on_proc m := (zoom timed_lens (zoom tps_lens m)).
Local Instance trap_env : ProcEnv (kenv S) := kenv_env devsw_read kend kdata vram_size pvram_addr.

(** The channels the devices' code called wakeup on: their sleepers run. *)
Definition wake_all (chs : list chan) (s : machine S) : machine S :=
  let wake_one ch l := wake (Some ch) <$> l in
  let p := tps (mtimed s) in
  mkmachine (mktimed (set_ptable (foldr wake_one (ptable p) chs) p) (ticks (mtimed s))) (mcons s) (mshift s).

(** Run a component that does not see the process table, and its wakeups. *)
Definition with_wakeups {A} (m : KM A) : KM A := fun s c =>
  match m s (mkctx (held c) [] (mypid c)) with
  | Ret a s' c' => Ret a (wake_all (woken c') s') (mkctx (held c') (woken c) (mypid c'))
  | Panic msg => Panic msg
  | Sleep ch s' c' => Sleep ch (wake_all (woken c') s') (mkctx (held c') (woken c) (mypid c'))
  end.

(** kbdintr, uartintr: consoleintr on what the device has.  When it returns
    true it would print the process table (procdump). *)
Definition kbd_intr : KM unit :=
  with_wakeups (
    sh ← gets mshift;
    r ← zoom cons_lens (kbdintr g stray uart sh (scan_codes dev));
    modify (set_mshift (snd r))).

Definition uart_intr : KM unit :=
  with_wakeups (zoom cons_lens (consoleintr g stray uart (if uart then received dev else []));; mret tt).

(** i8254_intr (i8254.c): the driver only notes that it was called. *)
Definition i8254_intr : K kmem unit := st intr_addr 0xEEEEEE.

(** The clock, kept by CPU 0. *)
Definition clock_tick : KM unit :=
  c ← on_proc (gets this);
  if (c =? 0)%nat then
    on_timed (
      acquire L_ticks;;
      modify (fun t => set_ticks (u32 (ticks t + 1)) t);;
      zoom tps_lens (wakeup C_ticks);;
      release L_ticks)
  else mret tt.

Definition current : KM (option proc) :=
  me ← on_proc myproc;
  match me with
  | None => mret None
  | Some i => on_proc (getp i)
  end.

(** The user-level scheduler of a threaded process is called from here. *)
Definition call_scheduler : KM unit :=
  o ← current;
  match o with
  | Some p => if is_state RUNNING p && is_threaded p && negb (uscheduler p =? 0) then user_call (uscheduler p) else mret tt
  | None => mret tt
  end.

(** syscall (syscall.c), up to the return of the call: [inl] when the call
    left the CPU (exit, yield), else the value for eax. *)
Definition syscall : KM (off_cpu + Z) :=
  p ← on_proc curproc;
  match syscall_lookup (i32 (tf_eax (tf p))) with
  | Some n => do_syscall n
  | None => mret (inr (-1))
  end.

(** The rest of syscall and of trap once a call has returned [r]. *)
Definition syscall_end (r : Z) : KM trap_end :=
  on_proc (upd_cur (fun p => set_tf (set_tf_eax (u32 r) (tf p)) p));;
  p ← on_proc curproc;
  if killed p then on_proc exit;; mret (Off Exited) else mret Iret.

(** The default branch of the switch. *)
Definition bad_trap (tf : trapframe) : KM unit :=
  o ← current;
  match o with
  | None => panic "trap"
  | Some _ => if in_kernel tf then panic "trap" else on_proc (upd_cur (set_killed true))
  end.

Definition interrupt (tf : trapframe) : KM unit :=
  let no := tf_trapno tf in
  if no =? T_IRQ0 + IRQ_TIMER then clock_tick;; call_scheduler
  else if no =? T_IRQ0 + IRQ_IDE then ideintr
  else if no =? T_IRQ0 + IRQ_IDE + 1 then mret tt
  else if no =? T_IRQ0 + IRQ_KBD then kbd_intr
  else if no =? T_IRQ0 + IRQ_COM1 then uart_intr
  else if no =? T_IRQ0 + IRQ_I8254 then on_proc (zoom env_lens (zoom kmem_lens i8254_intr))
  else if no =? T_IRQ0 + IRQ_SPURIOUS then mret tt
  else bad_trap tf.

(** [if(myproc() && myproc()->killed && (tf->cs&3) == DPL_USER) exit();] *)
Definition exit_if_killed (tf : trapframe) (next : KM trap_end) : KM trap_end :=
  o ← current;
  match o with
  | Some p => if killed p && in_user tf then on_proc exit;; mret (Off Exited) else next
  | None => next
  end.

Definition trap (tf : trapframe) : KM trap_end :=
  if tf_trapno tf =? T_SYSCALL then
    p ← on_proc curproc;
    if killed p then on_proc exit;; mret (Off Exited)
    else
      on_proc (upd_cur (set_tf tf));;
      r ← syscall;
      match r with
      | inl o => mret (Off o)
      | inr r => syscall_end r
      end
  else
    interrupt tf;;
    exit_if_killed tf (
      o ← current;
      match o with
      | Some p =>
          if is_state RUNNING p && (tf_trapno tf =? T_IRQ0 + IRQ_TIMER) then on_proc timer_yield;; mret (Off Switched)
          else exit_if_killed tf (mret Iret)
      | None => exit_if_killed tf (mret Iret)
      end).

(** The end of trap, when a process that was switched out in its yield runs
    again. *)
Definition trap_resume (tf : trapframe) : KM trap_end :=
  on_proc yield_resume;;
  exit_if_killed tf (mret Iret).

(** ** A killed process does not return to user mode *)

Implicit Types s : machine S.

(** The process that runs, if any, is not marked killed. *)
Definition spared s : Prop :=
  let q := tps (mtimed s) in
  forall k i p, cpus q !! this q = Some k -> cproc k = Some i -> ptable q !! i = Some p -> killed p = false.

Definition returns_spared (m : KM trap_end) : Prop :=
  forall s c, wlp m (fun e s' _ => e = Iret -> spared s') (fun _ _ => True) s c.

Lemma spared_bind {A} (m : KM A) f : (forall a, returns_spared (f a)) -> returns_spared (mbind f m).
Proof.
  intros Hf s c. apply wlp_bind. unfold wlp. destruct (m s c) as [a s' c'| |]; [apply Hf|done..].
Qed.

Lemma spared_off o : returns_spared (mret (Off o)).
Proof. intros s c. by lsteps. Qed.

Lemma wlp_on_proc {A} (m : K (pst (kenv S)) A) s c (Q : A -> machine S -> ctx -> Prop) :
  wlp m (fun a q c' => Q a (mkmachine (mktimed q (ticks (mtimed s))) (mcons s) (mshift s)) c') (fun _ _ => True) (tps (mtimed s)) c ->
  wlp (on_proc m) Q (fun _ _ => True) s c.
Proof. intros Hm. unfold wlp, zoom in *. cbn in *. by destruct (m _ _). Qed.

Lemma wlp_current s c (Q : option proc -> machine S -> ctx -> Prop) :
  let q := tps (mtimed s) in
  Q (k ← cpus q !! this q; i ← cproc k; ptable q !! i) s c -> wlp current Q (fun _ _ => True) s c.
Proof.
  cbn. intros HQ. destruct s as [[q t] con sh]. unfold current, myproc. apply wlp_bind, wlp_on_proc. cbn in *. lsteps.
  destruct (cpus q !! this q) as [k|]; cbn in *; [|by lsteps]. destruct (cproc k) as [i|]; cbn in *; [|by lsteps].
  exact HQ.
Qed.

Lemma spared_check tf next : in_user tf = true -> returns_spared next -> returns_spared (exit_if_killed tf next).
Proof.
  intros Hu Hn s c. unfold exit_if_killed. apply wlp_bind, wlp_current. destruct (_ ≫= _) as [p|]; [|by apply Hn].
  rewrite Hu. destruct (killed p); cbn; [|by apply Hn]. apply spared_bind. intros []. apply spared_off.
Qed.

Lemma spared_last tf : in_user tf = true -> returns_spared (exit_if_killed tf (mret Iret)).
Proof.
  intros Hu s c. unfold exit_if_killed. apply wlp_bind, wlp_current. rewrite Hu.
  destruct (_ ≫= _) as [p|] eqn:E.
  - destruct (killed p) eqn:Ek; cbn; [apply spared_bind; intros []; apply spared_off|]. lsteps. intros _ k i p' Hk Hi Hp.
    rewrite Hk in E. cbn in E. rewrite Hi in E. cbn in E. congruence.
  - lsteps. intros _ k i p' Hk Hi Hp. rewrite Hk in E. cbn in E. rewrite Hi in E. cbn in E. congruence.
Qed.

Lemma spared_syscall_end r : returns_spared (syscall_end r).
Proof.
  unfold syscall_end. apply spared_bind. intros [] s c. apply wlp_bind, wlp_on_proc, wlp_curproc. intros k i p Hk Hi Hp.
  destruct (killed p) eqn:Ek; [apply spared_bind; intros []; apply spared_off|]. lsteps. intros _ k' i' p' Hk' Hi' Hp'.
  cbn in *. congruence.
Qed.

(** C17. A killed process does not get back to user mode: whatever the system
    calls and the user's code do, when a trap from user mode returns to the
    interrupted program, at once or after the process was switched out and
    back in, the process that runs is not marked killed; the others have
    left through exit. *)
Theorem killed_never_returns tf r :
  in_user tf = true -> returns_spared (trap tf) /\ returns_spared (trap_resume tf) /\ returns_spared (syscall_end r).
Proof.
  intros Hu. split_and!; [|apply spared_bind; intros []; by apply spared_last|apply spared_syscall_end].
  unfold trap. destruct (_ =? T_SYSCALL).
  - apply spared_bind. intros p. destruct (killed p); [apply spared_bind; intros []; apply spared_off|].
    apply spared_bind. intros []. apply spared_bind. intros [o|r']; [apply spared_off|apply spared_syscall_end].
  - apply spared_bind. intros []. apply spared_check; [done|]. apply spared_bind. intros [p|]; [|by apply spared_last].
    destruct (_ && _); [|by apply spared_last]. apply spared_bind. intros []. apply spared_off.
Qed.

(** ** The timer *)

(** Sleepers on the clock wake up when CPU 0 counts a tick. *)
Definition clock_table (q : pst (kenv S)) : list proc :=
  if (this q =? 0)%nat then wake (Some C_ticks) <$> ptable q else ptable q.

Definition with_table (l : list proc) (t : Z) s : machine S :=
  mkmachine (mktimed (set_ptable l (tps (mtimed s))) t) (mcons s) (mshift s).

(** Steps of a run, with the locks that are free. *)
Ltac locks := repeat first [kstep | by (cbn; set_solver)]; cbn.

Lemma wp_clock_tick s c (Q : unit -> machine S -> ctx -> Prop) :
  let q := tps (mtimed s) in
  held c = [] ->
  Q tt (with_table (clock_table q) (if (this q =? 0)%nat then u32 (ticks (mtimed s) + 1) else ticks (mtimed s)) s) c ->
  wp clock_tick Q s c.
Proof.
  destruct s as [[q t] con sh], c as [h w m]. cbn. intros -> HQ. unfold clock_tick, clock_table in *. kstep. kstep. kstep. kstep. cbn.
  destruct (this q =? 0)%nat; cbn in *.
  - unfold wakeup, wakeup1. by locks.
  - destruct q. exact HQ.
Qed.

Lemma wp_current s c (Q : option proc -> machine S -> ctx -> Prop) :
  let q := tps (mtimed s) in
  Q (k ← cpus q !! this q; i ← cproc k; ptable q !! i) s c -> wp current Q s c.
Proof.
  cbn. intros HQ. destruct s as [[q t] con sh]. unfold current, myproc, getp. cbn in *. ksteps. cbn.
  destruct (cpus q !! this q) as [k|]; cbn in *; [|by ksteps]. destruct (cproc k) as [i|]; cbn in *; by ksteps.
Qed.
Lemma wp_timer_yield k i p (q : pst (kenv S)) c : held c = [] ->
  cpus q !! this q = Some k -> cproc k = Some i -> ptable q !! i = Some p -> pstate p = RUNNING ->
  wp timer_yield (fun _ q' c' =>
    q' = set_ptable (alter (fun p => set_pstate RUNNABLE (tick p)) i (ptable q)) q /\ held c' = [L_ptable]) q c.
Proof.
  destruct c as [h w m]. cbn. intros -> Hk Hi Hp Hst. unfold timer_yield, myproc.
  kstep. kstep. rewrite Hk. cbn. rewrite Hi. unfold getp. ksteps.
  rewrite Hp. cbn. ksteps. unfold is_state. rewrite Hst, bool_decide_eq_true_2 by done. unfold yield, myproc, updp.
  locks.
  rewrite Hk. cbn. rewrite Hi. cbn.
  locks. unfold wp, sched. cbn. rewrite Hk. cbn. rewrite Hi. cbn. rewrite list_lookup_alter_eq, list_lookup_alter_eq, Hp. cbn.
  split; [|done]. unfold set_ptable. cbn. f_equal. by rewrite list_alter_alter_eq.
Qed.

Lemma wp_timer tf k i p s c :
  let q := tps (mtimed s) in
  tf_trapno tf = T_IRQ0 + IRQ_TIMER -> held c = [] ->
  cpus q !! this q = Some k -> cproc k = Some i -> ptable q !! i = Some p ->
  pstate p = RUNNING -> killed p && in_user tf = false -> is_threaded p && negb (uscheduler p =? 0) = false ->
  wp (trap tf) (fun e s' c' =>
    e = Off Switched /\ held c' = [L_ptable] /\
    s' = mkmachine (mktimed (set_ptable (alter (fun p => set_pstate RUNNABLE (tick p)) i (clock_table q)) q)
                       (if (this q =? 0)%nat then u32 (ticks (mtimed s) + 1) else ticks (mtimed s))) (mcons s) (mshift s)) s c.
Proof.
  intros q Hno Hh Hk Hi Hp Hst Hkl Hth. unfold trap, interrupt. rewrite Hno.
  change (T_IRQ0 + IRQ_TIMER =? T_SYSCALL) with false. change (T_IRQ0 + IRQ_TIMER =? T_IRQ0 + IRQ_TIMER) with true. cbn iota zeta.
  assert (Hp1 : clock_table q !! i = Some p).
  { unfold clock_table. case_match; [|done]. rewrite list_lookup_fmap, Hp. cbn. unfold wake, is_state. by rewrite Hst. }
  kstep. kstep. apply wp_clock_tick; [done|]. fold q. set (s1 := with_table _ _ _).
  assert (Hcur : (k ← cpus (tps (mtimed s1)) !! this (tps (mtimed s1)); i ← cproc k; ptable (tps (mtimed s1)) !! i) = Some p).
  { cbn. fold q. rewrite Hk. cbn. rewrite Hi. cbn. exact Hp1. }
  unfold call_scheduler. kstep. apply wp_current. rewrite Hcur, <- andb_assoc, Hth, andb_false_r. kstep.
  unfold exit_if_killed. kstep. apply wp_current. rewrite Hcur, Hkl. kstep. apply wp_current. rewrite Hcur.
  unfold is_state. rewrite Hst. cbn.
  apply wp_bind, wp_zoom, wp_zoom. eapply wp_mono; [by eapply (wp_timer_yield k i p)|].
  intros [] q2 c2 [-> Hc2]. by kstep.
Qed.

(** [p'] is [p] after a tick was charged to it: one more at its level, and
    runnable. *)
Definition charged (p p' : proc) : Prop := exists before n after,
  pticks p = before ++ n :: after /\ Z.of_nat (length before) = priority p /\
  p' = set_pstate RUNNABLE (set_pticks (before ++ i32 (n + 1) :: after) p).

Lemma alter_middle {A} (f : A -> A) l1 x l2 n : n = length l1 -> alter f n (l1 ++ x :: l2) = l1 ++ f x :: l2.
Proof. intros ->. induction l1 as [|y l1 IH]; [done|]. cbn [length app]. change (y :: alter f (length l1) (l1 ++ x :: l2) = y :: l1 ++ f x :: l2). by rewrite IH. Qed.

Lemma tick_charged p : 0 <= priority p < Z.of_nat (length (pticks p)) -> charged p (set_pstate RUNNABLE (tick p)).
Proof.
  intros Hp. assert (Hl : (Z.to_nat (priority p) < length (pticks p))%nat) by lia.
  destruct (lookup_lt_is_Some_2 _ _ Hl) as [n Hn]. exists (take (Z.to_nat (priority p)) (pticks p)), n, (drop (1 + Z.to_nat (priority p))%nat (pticks p)).
  split; [by rewrite take_drop_middle|]. split; [rewrite length_take; lia|]. unfold tick. do 2 f_equal.
  rewrite <- (take_drop_middle _ _ _ Hn) at 1.
  apply (alter_middle (fun t => i32 (t + 1))). rewrite length_take. lia.
Qed.

(** C32. The timer: an interrupt of a running process (that is not to be
    killed on the way to user mode, and has no user-level scheduler) counts
    one tick of the clock, modulo 2^32, when it is taken by CPU 0, and then
    the sleepers on the clock become runnable.  The process is charged one
    tick at its level and becomes runnable itself, with ptable.lock held
    for the switch.  No other field of any process and nothing else
    changes. *)
Theorem timer_charges_tick tf k i p s c :
  let q := tps (mtimed s) in
  tf_trapno tf = T_IRQ0 + IRQ_TIMER -> held c = [] ->
  cpus q !! this q = Some k -> cproc k = Some i -> ptable q !! i = Some p ->
  pstate p = RUNNING -> killed p && in_user tf = false -> is_threaded p && negb (uscheduler p =? 0) = false ->
  0 <= priority p < Z.of_nat (length (pticks p)) ->
  wp (trap tf) (fun e s' c' => e = Off Switched /\ held c' = [L_ptable] /\
    mcons s' = mcons s /\ mshift s' = mshift s /\
    ticks (mtimed s') = (if (this q =? 0)%nat then (ticks (mtimed s) + 1) mod 2 ^ 32 else ticks (mtimed s)) /\
    exists l, tps (mtimed s') = set_ptable l q /\ length l = length (ptable q) /\
      (exists p', l !! i = Some p' /\ charged p p') /\
      (forall j r, j <> i -> ptable q !! j = Some r ->
         l !! j = Some (if decide (this q = 0%nat /\ pstate r = SLEEPING /\ pchan r = Some C_ticks) then set_pstate RUNNABLE r else r))) s c.
Proof.
  intros q Hno Hh Hk Hi Hp Hst Hkl Hth Hpr. eapply wp_mono; [by eapply (wp_timer tf k i p)|].
  intros e s' c' (-> & Hc & ->). cbn [mtimed mcons mshift ticks tps]. fold q. split_and!; try done.
  eexists. split; [reflexivity|].
  assert (Hw : forall j r, ptable q !! j = Some r -> clock_table q !! j = Some
    (if decide (this q = 0%nat /\ pstate r = SLEEPING /\ pchan r = Some C_ticks) then set_pstate RUNNABLE r else r)).
  { intros j r Hj. unfold clock_table. destruct (Nat.eqb_spec (this q) 0) as [E|E].
    - rewrite list_lookup_fmap, Hj. cbn. f_equal. unfold wake, is_state. destruct (decide (pstate r = SLEEPING)) as [E1|E1], (decide (pchan r = Some C_ticks)) as [E2|E2].
      + by rewrite !bool_decide_eq_true_2, decide_True.
      + rewrite (bool_decide_eq_false_2 _ E2), andb_false_r, decide_False; [done|tauto].
      + rewrite (bool_decide_eq_false_2 _ E1), decide_False; [done|tauto].
      + rewrite (bool_decide_eq_false_2 _ E1), decide_False; [done|tauto].
    - rewrite Hj, decide_False; [done|tauto]. }
  split_and!.
  - rewrite length_alter. unfold clock_table. case_match; [by rewrite length_fmap|done].
  - exists (set_pstate RUNNABLE (tick p)). rewrite list_lookup_alter_eq, (Hw i p Hp). rewrite decide_False by (intros (_ & E & _); congruence).
    split; [done|]. by apply tick_charged.
  - intros j r Hne Hj. rewrite list_lookup_alter_ne by done. by apply Hw.
Qed.
End trap.
