(* ===== verification/TrapRuns.v ===== *)
(** * Traps on a concrete machine

    One process on one CPU: it sleeps for three ticks, is interrupted by
    the timer, and makes a system call that does not exist. *)

From stdpp Require Import base numbers strings gmap list.
From S2P Require Import Prelude Kmonad Mmu Kstring Kalloc Vm VmRuns Proc Sched Pipe Block Bio Log Fs FsRuns File Graphic Console ConsoleProof Syscall SysFile Sysproc Trap.

Local Open Scope Z_scope.

Definition p_run : proc :=
  mkproc 4096 dir0 E0 RUNNING 7 None 0 zero_tf 0 (mkcontext 0 0 0 0 0) None false
    (replicate 16 None) (Some 0%nat) [] 0 false 3 [0; 0; 0; 0] [0; 0; 0; 0].

Definition q_run : pst (kenv bio) :=
  mkpst [p_run] 8 None [mkcpu (Some 0%nat) 1 0 0 AtTop] 0 (mkkenv fs0 [] (fun _ => pipe_init []) k0).

(** Two ticks before the clock wraps around. *)
Definition t_run : timed bio := mktimed q_run 4294967294.
Definition m_run : machine bio := mkmachine t_run cons0 0.

Definition timer_tf : trapframe := mktf 0 0 0 0 0 0 0 0 0 0 0 0 32 0 0 27 0 0 35.
Definition call_tf : trapframe := mktf 0 0 0 0 0 0 0 99 0 0 0 0 64 0 0 27 0 0 35.

(** sleep(3) called at tick 4294967292, with the argument on the stack: after
    two ticks it sleeps on, and at tick 1, after the wrap, it returns. *)
Definition um_three (a : Z) : Z := if a =? 4 then 3 else 0.
Definition t_call : timed bio := set_ticks 4294967292 t_run.

Lemma sys_sleep_waits_witness :
  (exists c', sys_sleep_life um_three 0 t_call (mkctx [] [] 7) [t_run] = Some (None, c') /\ held c' = [L_ptable]) /\
  (exists c', sys_sleep_life um_three 0 t_call (mkctx [] [] 7) [t_run; set_ticks 1 t_run] = Some (Some 0, c') /\ held c' = []).
Proof.
  assert (Hr : forall t, runs 0 p_run (set_ticks t t_run)) by (intros t; exists (mkcpu (Some 0%nat) 1 0 0 AtTop); done).
  assert (H2 : woken_at 0 4294967292 t_run (2, false)) by (split; [cbn; lia|]; split; [done|]; exists p_run; by split; [apply (Hr 4294967294)|]).
  assert (H5 : woken_at 0 4294967292 (set_ticks 1 t_run) (5, false)) by (split; [cbn; lia|]; split; [done|]; exists p_run; by split; [apply Hr|]).
  split.
  - apply (sys_sleep_waits um_three 0 3 p_run t_call (mkctx [] [] 7) [t_run] [(2, false)]);
      [apply Hr|vm_compute; reflexivity|reflexivity|unfold in_u32; cbn; lia|constructor; [exact H2|constructor]].
  - apply (sys_sleep_waits um_three 0 3 p_run t_call (mkctx [] [] 7) [t_run; set_ticks 1 t_run] [(2, false); (5, false)]);
      [apply Hr|vm_compute; reflexivity|reflexivity|unfold in_u32; cbn; lia|constructor; [exact H2|constructor; [exact H5|constructor]]].
Defined.

Definition no_call : sysname -> K (machine bio) (off_cpu + Z) := fun _ => mret (inr 0).
Definition no_user : Z -> K (machine bio) unit := fun _ => mret tt.

Lemma timer_charges_tick_witness :
  wp (trap (fun _ => None) 0 0 0 0 no_call no_user gpu0 (fun _ _ => 0) true E0 (mkpending [] []) timer_tf)
    (fun e s' c' => e = Off Switched /\ held c' = [L_ptable] /\ ticks (mtimed s') = 4294967295 /\
       exists p', ptable (tps (mtimed s')) !! 0%nat = Some p' /\ charged p_run p') m_run (mkctx [] [] 7).
Proof.
  eapply wp_mono; [apply (timer_charges_tick (fun _ => None) 0 0 0 0 no_call no_user gpu0 (fun _ _ => 0) true E0 (mkpending [] [])
    timer_tf (mkcpu (Some 0%nat) 1 0 0 AtTop) 0 p_run m_run (mkctx [] [] 7)); first [done | cbn; lia]|].
  intros e s' c' (-> & Hh & _ & _ & Ht & l & -> & _ & Hp & _). split_and!; [done|done|exact Ht|exact Hp].
Defined.

Lemma killed_never_returns_witness :
  exists s' c', trap (fun _ => None) 0 0 0 0 no_call no_user gpu0 (fun _ _ => 0) true E0 (mkpending [] []) call_tf m_run (mkctx [] [] 7)
    = Ret Iret s' c' /\ spared s'.
Proof.
  destruct (killed_never_returns (fun _ => None) 0 0 0 0 no_call no_user gpu0 (fun _ _ => 0) true E0 (mkpending [] []) call_tf 0 eq_refl)
    as [Ht _]. specialize (Ht m_run (mkctx [] [] 7)). unfold wlp in Ht.
  assert (Hr : match trap (fun _ => None) 0 0 0 0 no_call no_user gpu0 (fun _ _ => 0) true E0 (mkpending [] []) call_tf m_run (mkctx [] [] 7)
    with Ret Iret _ _ => true | _ => false end = true) by (vm_compute; reflexivity).
  destruct (trap _ _ _ _ _ _ _ _ _ _ _ _ _ _ _) as [[|o] s' c'| |]; try done. exists s', c'. auto.
Defined.
