(* ===== verification/Net.v ===== *)
(** * The network stack: eth.c, arp.c, ipv4.c, icmp.c, tcp.c, http.c and the
      transmit side of i8254.c

    Packets are bytes of kernel memory, read and written through the packed
    structs of pkts_hdr.h at fixed offsets.  A packet is answered in a page
    from kalloc that is handed to the transmit ring of the network card and
    freed.  The registers of the card that the driver uses (tdh, tdt,
    tdbal) are fields of the state; the card itself is not modelled.  The
    print functions and messages on the console are left out. *)

From stdpp Require Import base numbers strings gmap list.
From S2P Require Import Prelude Kmonad Kstring Mmu Kalloc Vm.

Local Open Scope Z_scope.

(** *** Memory *)

Definition store16 (a v : Z) (m : memory) : memory := store8 (u32 (a + 1)) (v / 256) (store8 a v m).
Definition load16 (a : Z) (m : memory) : Z := m a + 256 * m (u32 (a + 1)).

(** The bytes from address [a], as memcmp reads them. *)
Definition at_addr (m : memory) (a : Z) : Z -> Z := fun i => m (u32 (a + i)).
Definition of_bytes (bs : bytes) : Z -> Z := fun i => nth_byte bs (Z.to_nat i).

(** *** pkts_hdr.h: sizes and offsets of the packed structs *)

Definition sizeof_eth : Z := 14.
Definition eth_dst_mac : Z := 0.
Definition eth_src_mac : Z := 6.
Definition eth_type : Z := 12.

Definition sizeof_arp : Z := 30.
Definition arp_hrd_type : Z := 0.
Definition arp_pro_type : Z := 2.
Definition arp_hrd_len : Z := 4.
Definition arp_pro_len : Z := 5.
Definition arp_op : Z := 6.
Definition arp_src_mac : Z := 8.
Definition arp_src_ip : Z := 14.
Definition arp_dst_mac : Z := 18.
Definition arp_dst_ip : Z := 24.

Definition sizeof_ipv4 : Z := 20.
Definition ip_ver : Z := 0.
Definition ip_srv_type : Z := 1.
Definition ip_total_len : Z := 2.
Definition ip_ident : Z := 4.
Definition ip_fragment : Z := 6.
Definition ip_ttl : Z := 8.
Definition ip_protocol : Z := 9.
Definition ip_chk_sum : Z := 10.
Definition ip_src_ip : Z := 12.
Definition ip_dst_ip : Z := 16.

Definition sizeof_icmp : Z := 64.
Definition icmp_type : Z := 0.
Definition icmp_code : Z := 1.
Definition icmp_chk_sum : Z := 2.
Definition icmp_ident : Z := 4.
Definition icmp_seq_num : Z := 6.
Definition icmp_time_stamp : Z := 8.
Definition icmp_data : Z := 16.

Definition sizeof_tcp : Z := 20.
Definition tcp_src_port : Z := 0.
Definition tcp_dst_port : Z := 2.
Definition tcp_seq_num : Z := 4.
Definition tcp_ack_num : Z := 8.
Definition tcp_code_bits : Z := 12.
Definition tcp_window : Z := 14.
Definition tcp_chk_sum : Z := 16.
Definition tcp_urgent_ptr : Z := 18.

Definition ARP_TABLE_MAX : nat := 64.
Definition ARP_HARDWARE_TYPE : Z := 0x0100.
Definition ARP_PROTOCOL_TYPE : Z := 0x0008.
Definition ARP_OPS_REQUEST : Z := 0x0100.
Definition ARP_OPS_REPLY : Z := 0x0200.
Definition ARP_UPDATED_TABLE : Z := 1.
Definition ARP_CREATED_REPLY : Z := 2.
Definition IPV4_TYPE_ICMP : Z := 1.
Definition IPV4_TYPE_TCP : Z := 6.
Definition ICMP_TYPE_ECHO_REQUEST : Z := 8.
Definition ICMP_TYPE_ECHO_REPLY : Z := 0.
Definition TCP_CODEBITS_ACK : Z := 0x10.
Definition TCP_CODEBITS_PSH : Z := 0x8.
Definition TCP_CODEBITS_SYN : Z := 0x2.
Definition TCP_CODEBITS_FIN : Z := 0x1.
Definition I8254_SEND_DESC_NUM : Z := 256.

(** my_ip (i8254.c) *)
Definition my_ip : bytes := [10; 0; 1; 10].

(** *** eth.c: byte order *)

Definition N2H_ushort (value : Z) : Z := u16 (Z.shiftl (Z.land value 0xFF) 8 + Z.shiftr value 8).
Definition H2N_ushort (value : Z) : Z := u16 (Z.shiftl (Z.land value 0xFF) 8 + Z.shiftr value 8).

Definition H2N_uint (value : Z) : Z :=
  u32 (Z.shiftl (Z.land value 0xF) 24 + Z.shiftl (Z.land value 0xF0) 8 +
       Z.shiftr (Z.land value 0xF00) 8 + Z.shiftr (Z.land value 0xF000) 24).

Definition N2H_uint (value : Z) : Z :=
  u32 (Z.shiftl (Z.land value 0xFF) 24 + Z.shiftl (Z.land value 0xFF00) 8 +
       Z.shiftr (Z.land value 0xFF0000) 8 + Z.shiftr (Z.land value 0xFF000000) 24).

(** *** Checksums *)

(** One turn of the loops of ipv4_chksum and icmp_chksum. *)
Definition chk_add (chk_sum w : Z) : Z :=
  let chk_sum := u32 (chk_sum + w) in
  if 0xFFFF <? chk_sum then Z.land chk_sum 0xFFFF + 1 else chk_sum.

(** [(bin[i*2]<<8)+bin[i*2+1]] *)
Definition chk_word (m : memory) (a i : Z) : Z := Z.shiftl (m (u32 (a + i * 2))) 8 + m (u32 (a + (i * 2 + 1))).

Fixpoint chk_loop (n : nat) (i : Z) (m : memory) (a chk_sum : Z) : Z :=
  match n with
  | O => chk_sum
  | S n => chk_loop n (i + 1) m a (chk_add chk_sum (chk_word m a i))
  end.

Definition ipv4_chksum (ipv4_addr : Z) (m : memory) : Z :=
  let len := u8 (Z.land (m ipv4_addr) 0xF * 2) in
  u16 (Z.lnot (chk_loop (Z.to_nat len) 0 m ipv4_addr 0)).

Definition icmp_chksum (icmp_addr : Z) (m : memory) : Z := u16 (Z.lnot (chk_loop 32 0 m icmp_addr 0)).

(** The loops of tcp_chksum do not fold the carry. *)
Fixpoint tcp_sum (n : nat) (i : Z) (m : memory) (a chk_sum : Z) : Z :=
  match n with
  | O => chk_sum
  | S n => tcp_sum n (i + 1) m a (u32 (chk_sum + chk_word m a i))
  end.

(** struct tcp_dummy, as it lies in memory. *)
Definition tcp_dummy (tcp_addr : Z) (m : memory) : bytes :=
  my_ip ++ (at_addr m (tcp_addr + ip_src_ip) <$> [0; 1; 2; 3]) ++ [0; IPV4_TYPE_TCP] ++
  le_bytes 2 (H2N_ushort (u16 (N2H_ushort (load16 (u32 (tcp_addr + ip_total_len)) m) - sizeof_ipv4))).

Definition tcp_chksum (tcp_addr : Z) (m : memory) : Z :=
  let dummy := tcp_dummy tcp_addr m in
  let tcp_len := get_u16 10 dummy in
  let chk_sum := tcp_sum 6 0 (of_bytes dummy) 0 0 in
  let chk_sum := tcp_sum (Z.to_nat (N2H_ushort tcp_len / 2)) 0 m (u32 (tcp_addr + sizeof_ipv4)) chk_sum in
  let chk_sum := u32 (chk_sum + Z.shiftr chk_sum 16) in
  u16 (Z.lnot chk_sum).

(** *** Packets *)

Section packets.
Variable mac_addr : bytes.   (* read from the card's EEPROM by i8254_init_recv *)

(** memmove from one of the driver's byte arrays. *)
Definition put (a : Z) (bs : bytes) (m : memory) : memory := put_bytes (u32 a) bs m.

Definition arp_broadcast (send ip : Z) (m : memory) : memory :=
  let arp := send + sizeof_eth in
  let m := store8 (u32 (send + eth_type)) 0x08 m in
  let m := store8 (u32 (send + eth_type + 1)) 0x06 m in
  let m := put (send + eth_dst_mac) [0xff; 0xff; 0xff; 0xff; 0xff; 0xff] m in
  let m := put (send + eth_src_mac) mac_addr m in
  let m := store16 (u32 (arp + arp_hrd_type)) ARP_HARDWARE_TYPE m in
  let m := store16 (u32 (arp + arp_pro_type)) ARP_PROTOCOL_TYPE m in
  let m := store8 (u32 (arp + arp_hrd_len)) 6 m in
  let m := store8 (u32 (arp + arp_pro_len)) 4 m in
  let m := store16 (u32 (arp + arp_op)) ARP_OPS_REQUEST m in
  let m := put (arp + arp_dst_mac) [0; 0; 0; 0; 0; 0] m in
  let m := put (arp + arp_dst_ip) [10; 0; 1; u8 ip] m in
  let m := put (arp + arp_src_mac) mac_addr m in
  put (arp + arp_src_ip) my_ip m.

Definition arp_reply_pkt_create (arp_recv send : Z) (m : memory) : memory :=
  let arp := send + sizeof_eth in
  let m := store8 (u32 (send + eth_type)) 0x08 m in
  let m := store8 (u32 (send + eth_type + 1)) 0x06 m in
  let m := memmove (u32 (send + eth_dst_mac)) (u32 (arp_recv + arp_src_mac)) 6 m in
  let m := put (send + eth_src_mac) mac_addr m in
  let m := store16 (u32 (arp + arp_hrd_type)) ARP_HARDWARE_TYPE m in
  let m := store16 (u32 (arp + arp_pro_type)) ARP_PROTOCOL_TYPE m in
  let m := store8 (u32 (arp + arp_hrd_len)) 6 m in
  let m := store8 (u32 (arp + arp_pro_len)) 4 m in
  let m := store16 (u32 (arp + arp_op)) ARP_OPS_REPLY m in
  let m := memmove (u32 (arp + arp_dst_mac)) (u32 (arp_recv + arp_src_mac)) 6 m in
  let m := memmove (u32 (arp + arp_dst_ip)) (u32 (arp_recv + arp_src_ip)) 4 m in
  let m := put (arp + arp_src_mac) mac_addr m in
  put (arp + arp_src_ip) my_ip m.

Definition arp_pkt_size : Z := sizeof_eth + sizeof_arp.

(** The Ethernet and IPv4 headers of an answer, shared by icmp.c and tcp.c:
    the answer goes back to the sender, [id] is send_id. *)
Definition ip_reply_hdr (recv_addr send_addr total fragment protocol id : Z) (m : memory) : memory :=
  let ip_recv := recv_addr + sizeof_eth in
  let ip := send_addr + sizeof_eth in
  let m := memmove (u32 (send_addr + eth_dst_mac)) (u32 (recv_addr + eth_src_mac)) 6 m in
  let m := put (send_addr + eth_src_mac) mac_addr m in
  let m := store8 (u32 (send_addr + eth_type)) 0x08 m in
  let m := store8 (u32 (send_addr + eth_type + 1)) 0x00 m in
  let m := store8 (u32 (ip + ip_ver)) (Z.shiftl 4 4 + Z.land (sizeof_ipv4 / 4) 0xF) m in
  let m := store8 (u32 (ip + ip_srv_type)) 0 m in
  let m := store16 (u32 (ip + ip_total_len)) (H2N_ushort (u16 total)) m in
  let m := store16 (u32 (ip + ip_ident)) id m in
  let m := store16 (u32 (ip + ip_fragment)) (H2N_ushort fragment) m in
  let m := store8 (u32 (ip + ip_ttl)) 255 m in
  let m := store8 (u32 (ip + ip_protocol)) protocol m in
  let m := put (ip + ip_src_ip) my_ip m in
  let m := memmove (u32 (ip + ip_dst_ip)) (u32 (ip_recv + ip_src_ip)) 4 m in
  let m := store16 (u32 (ip + ip_chk_sum)) 0 m in
  store16 (u32 (ip + ip_chk_sum)) (H2N_ushort (ipv4_chksum (u32 ip) m)) m.

Definition icmp_pkt_size : Z := sizeof_eth + sizeof_ipv4 + sizeof_icmp.

(** The ICMP part of the received packet: the header length is in words. *)
Definition ip_payload (recv_addr : Z) (m : memory) : Z :=
  let ip_recv := u32 (recv_addr + sizeof_eth) in u32 (ip_recv + Z.land (m ip_recv) 0xF * 4).

Definition icmp_reply_pkt_create (recv_addr send_addr id : Z) (m : memory) : memory :=
  let icmp_recv := ip_payload recv_addr m in
  let icmp := send_addr + sizeof_eth + sizeof_ipv4 in
  let m := ip_reply_hdr recv_addr send_addr (sizeof_ipv4 + sizeof_icmp) 0x4000 IPV4_TYPE_ICMP id m in
  let m := store8 (u32 (icmp + icmp_type)) ICMP_TYPE_ECHO_REPLY m in
  let m := store8 (u32 (icmp + icmp_code)) 0 m in
  let m := store16 (u32 (icmp + icmp_ident)) (load16 (u32 (icmp_recv + icmp_ident)) m) m in
  let m := store16 (u32 (icmp + icmp_seq_num)) (load16 (u32 (icmp_recv + icmp_seq_num)) m) m in
  let m := memmove (u32 (icmp + icmp_time_stamp)) (u32 (icmp_recv + icmp_time_stamp)) 8 m in
  let m := memmove (u32 (icmp + icmp_data)) (u32 (icmp_recv + icmp_data)) 48 m in
  let m := store16 (u32 (icmp + icmp_chk_sum)) 0 m in
  store16 (u32 (icmp + icmp_chk_sum)) (H2N_ushort (icmp_chksum (u32 icmp) m)) m.

Definition tcp_pkt_size (payload_size : Z) : Z := u32 (sizeof_eth + sizeof_ipv4 + sizeof_tcp + payload_size).

Definition tcp_pkt_create (recv_addr send_addr pkt_type payload_size id seq_num : Z) (m : memory) : memory :=
  let tcp_recv := ip_payload recv_addr m in
  let ip := send_addr + sizeof_eth in
  let tcp := ip + sizeof_ipv4 in
  let m := ip_reply_hdr recv_addr send_addr (sizeof_ipv4 + sizeof_tcp + payload_size) 0x0000 IPV4_TYPE_TCP id m in
  let m := store16 (u32 (tcp + tcp_src_port)) (load16 (u32 (tcp_recv + tcp_dst_port)) m) m in
  let m := store16 (u32 (tcp + tcp_dst_port)) (load16 (u32 (tcp_recv + tcp_src_port)) m) m in
  let m := store32 (u32 (tcp + tcp_seq_num)) (H2N_uint seq_num) m in
  let m := store32 (u32 (tcp + tcp_ack_num)) (u32 (load32 (u32 (tcp_recv + tcp_seq_num)) m + Z.shiftl 1 24)) m in
  let m := store8 (u32 (tcp + tcp_code_bits)) 0 m in
  let m := store8 (u32 (tcp + tcp_code_bits + 1)) 0 m in
  let m := store8 (u32 (tcp + tcp_code_bits)) (Z.shiftl 5 4) m in
  let m := store8 (u32 (tcp + tcp_code_bits + 1)) pkt_type m in
  let m := store16 (u32 (tcp + tcp_window)) (H2N_ushort 14480) m in
  let m := store16 (u32 (tcp + tcp_urgent_ptr)) 0 m in
  let m := store16 (u32 (tcp + tcp_chk_sum)) 0 m in
  store16 (u32 (tcp + tcp_chk_sum)) (H2N_ushort (u16 (tcp_chksum (u32 ip) m + 8))) m.

(** *** http.c *)

(** http_strcpy of the bytes of a string before its NUL, and the length. *)
Definition http_strcpy (dst : Z) (src : bytes) (start_index : Z) (m : memory) : memory :=
  put (dst + start_index) src m.

Definition http_ok : bytes :=
  [72; 84; 84; 80; 47; 49; 46; 48; 32; 50; 48; 48; 32; 79; 75; 32; 13; 10].
Definition http_content_type : bytes :=
  [67; 111; 110; 116; 101; 110; 116; 45; 84; 121; 112; 101; 58; 32; 116; 101; 120; 116; 47; 104; 116; 109; 108; 32; 13; 10].
Definition http_hello : bytes :=
  [13; 10; 72; 101; 108; 108; 111; 32; 87; 111; 114; 108; 100; 33; 13; 10].

(** The payload size and the memory; the caller sets fin_flag (tcp_fin). *)
Definition http_proc (send : Z) (m : memory) : Z * memory :=
  let m := http_strcpy send http_ok 0 m in
  let len := Z.of_nat (length http_ok) in
  let m := http_strcpy send http_content_type len m in
  let len := len + Z.of_nat (length http_content_type) in
  let m := http_strcpy send http_hello len m in
  let len := len + Z.of_nat (length http_hello) in
  let m := if negb (Z.rem len 2 =? 0) then store8 (u32 (send + len)) 0 m else m in
  (len, m).

End packets.

(** *** The state of the network code *)

(** struct arp_entry *)
Record arp_entry : Type := mkarp { arp_ip : bytes; arp_mac : bytes; arp_use : Z }.

Record net : Type := mknet {
  nkmem : kmem;
  arp_table : list arp_entry;
  ip_id : Z;                    (* int: the last packet seen, -1 at first *)
  send_id : Z;                  (* ushort *)
  seq_num : Z;                  (* uint *)
  fin_flag : bool;
  tdh : Z; tdt : Z; tdbal : Z   (* registers of the card *)
}.

Definition set_nkmem (k : kmem) (n : net) : net :=
  mknet k (arp_table n) (ip_id n) (send_id n) (seq_num n) (fin_flag n) (tdh n) (tdt n) (tdbal n).
Definition set_arp_table (t : list arp_entry) (n : net) : net :=
  mknet (nkmem n) t (ip_id n) (send_id n) (seq_num n) (fin_flag n) (tdh n) (tdt n) (tdbal n).
Definition set_ip_id (v : Z) (n : net) : net :=
  mknet (nkmem n) (arp_table n) v (send_id n) (seq_num n) (fin_flag n) (tdh n) (tdt n) (tdbal n).
Definition set_send_id (v : Z) (n : net) : net :=
  mknet (nkmem n) (arp_table n) (ip_id n) v (seq_num n) (fin_flag n) (tdh n) (tdt n) (tdbal n).
Definition set_seq_num (v : Z) (n : net) : net :=
  mknet (nkmem n) (arp_table n) (ip_id n) (send_id n) v (fin_flag n) (tdh n) (tdt n) (tdbal n).
Definition set_fin_flag (b : bool) (n : net) : net :=
  mknet (nkmem n) (arp_table n) (ip_id n) (send_id n) (seq_num n) b (tdh n) (tdt n) (tdbal n).
Definition set_tdt (v : Z) (n : net) : net :=
  mknet (nkmem n) (arp_table n) (ip_id n) (send_id n) (seq_num n) (fin_flag n) (tdh n) v (tdbal n).

Definition set_tdh (v : Z) (n : net) : net :=
  mknet (nkmem n) (arp_table n) (ip_id n) (send_id n) (seq_num n) (fin_flag n) v (tdt n) (tdbal n).
Definition set_tdbal (v : Z) (n : net) : net :=
  mknet (nkmem n) (arp_table n) (ip_id n) (send_id n) (seq_num n) (fin_flag n) (tdh n) (tdt n) v.

Definition kmem_of : lens net kmem := Lens nkmem set_nkmem.
Definition rd {A} (f : memory -> A) : K net A := gets (fun n => f (kmemory (nkmem n))).
Definition wr (f : memory -> memory) : K net unit :=
  modify (fun n => set_nkmem (set_kmemory (f (kmemory (nkmem n))) (nkmem n)) n).

(** *** arp.c: the table *)

(** The loop of arp_table_search from entry [i]; a negative result is one
    less than minus the first free entry, or 0 for a full table. *)
Fixpoint arp_search_loop (t : list arp_entry) (ip : Z -> Z) (i empty : Z) : Z :=
  match t with
  | [] => empty - 1
  | e :: t =>
      if memcmp (of_bytes (arp_ip e)) ip 4 =? 0 then i
      else arp_search_loop t ip (i + 1) (if (arp_use e =? 0) && (empty =? 1) then - i else empty)
  end.

Definition arp_table_search (t : list arp_entry) (ip : Z -> Z) : Z := arp_search_loop t ip 0 1.

Definition arp_table_update (src_ip src_mac : bytes) (t : list arp_entry) : list arp_entry :=
  let index := arp_table_search t (of_bytes src_ip) in
  if -1 <? index then alter (fun e => mkarp (arp_ip e) src_mac (arp_use e)) (Z.to_nat index) t
  else <[Z.to_nat (- (index + 1)) := mkarp src_ip src_mac 1]> t.

Section net.
Variable kend : Z.
Variable mac_addr : bytes.

Abbreviation KN := (K net).

(** *** i8254.c: the transmit ring *)

Definition i8254_send (pkt_addr len : Z) : KN Z :=
  h ← gets tdh;
  t ← gets tdt;
  b ← gets tdbal;
  let txdesc := P2V b in
  let tx_available := I8254_SEND_DESC_NUM - u32 (u32 (I8254_SEND_DESC_NUM - h) + t) mod I8254_SEND_DESC_NUM in
  let d := u32 (txdesc + 16 * (t mod I8254_SEND_DESC_NUM)) in
  if 0 <? tx_available then
    wr (fun m => memmove (P2V (load32 d m)) pkt_addr len m);;
    wr (store16 (u32 (d + 8)) len);;
    wr (store8 (u32 (d + 12)) 0);;
    wr (store8 (u32 (d + 13)) 0);;
    wr (store8 (u32 (d + 11)) 0xb);;
    wr (store16 (u32 (d + 14)) 0);;
    wr (store8 (u32 (d + 10)) 0);;
    modify (set_tdt (u32 (t + 1) mod I8254_SEND_DESC_NUM));;
    mret len
  else mret (-1).

(** The first loop of i8254_init_send, from descriptor [i] of the ring at
    [d]: every field but buf_addr. *)
Fixpoint send_desc_clear (n : nat) (i d : Z) (m : memory) : memory :=
  match n with
  | O => m
  | S n =>
      let e := d + 16 * i in
      let m := store32 (u32 (e + 4)) 0 m in
      let m := store16 (u32 (e + 8)) 0 m in
      let m := store8 (u32 (e + 10)) 0 m in
      let m := store8 (u32 (e + 11)) 0 m in
      let m := store8 (u32 (e + 12)) 0 m in
      let m := store8 (u32 (e + 13)) 0 m in
      let m := store16 (u32 (e + 14)) 0 m in
      send_desc_clear n (i + 1) d m
  end.

(** The second loop: a page for the buffers of descriptors [i] and [i+1]. *)
Fixpoint send_desc_bufs (n : nat) (i d : Z) : KN unit :=
  match n with
  | O => mret tt
  | S n =>
      buf_addr ← zoom kmem_of kalloc;
      if buf_addr =? 0 then mret tt
      else
        wr (store32 (u32 (d + 16 * i)) (V2P buf_addr));;
        wr (store32 (u32 (d + 16 * (i + 1))) (V2P (u32 (buf_addr + 0x800))));;
        send_desc_bufs n (i + 1) d
  end.

(** The registers that the driver only writes (txdctl, tdbah, tdlen, tctl,
    tipg) are left out. *)
Definition i8254_init_send : KN unit :=
  tx_desc_addr ← zoom kmem_of kalloc;
  modify (set_tdbal (V2P tx_desc_addr));;
  modify (set_tdh 0);;
  modify (set_tdt 0);;
  wr (send_desc_clear (Z.to_nat I8254_SEND_DESC_NUM) 0 tx_desc_addr);;
  send_desc_bufs (Z.to_nat (I8254_SEND_DESC_NUM / 2)) 0 tx_desc_addr.

(** *** The protocols *)

Definition arp_proc (buffer_addr : Z) : KN Z :=
  m ← rd (fun m => m);
  if negb (load16 (u32 (buffer_addr + arp_hrd_type)) m =? ARP_HARDWARE_TYPE) then mret (-1)
  else if negb (load16 (u32 (buffer_addr + arp_pro_type)) m =? ARP_PROTOCOL_TYPE) then mret (-1)
  else if negb (m (u32 (buffer_addr + arp_hrd_len)) =? 6) then mret (-1)
  else if negb (m (u32 (buffer_addr + arp_pro_len)) =? 4) then mret (-1)
  else
    let to_me := memcmp (of_bytes my_ip) (at_addr m (buffer_addr + arp_dst_ip)) 4 =? 0 in
    let from_me := memcmp (of_bytes my_ip) (at_addr m (buffer_addr + arp_src_ip)) 4 =? 0 in
    let op := load16 (u32 (buffer_addr + arp_op)) m in
    if negb to_me && negb from_me then mret (-1)
    else if (op =? ARP_OPS_REQUEST) && to_me then
      send ← zoom kmem_of kalloc;
      wr (arp_reply_pkt_create mac_addr buffer_addr send);;
      i8254_send send arp_pkt_size;;
      zoom kmem_of (kfree kend send);;
      mret ARP_CREATED_REPLY
    else if (op =? ARP_OPS_REPLY) && to_me then
      modify (fun n => set_arp_table (arp_table_update (at_addr m (buffer_addr + arp_src_ip) <$> [0; 1; 2; 3])
        (at_addr m (buffer_addr + arp_src_mac) <$> [0; 1; 2; 3; 4; 5]) (arp_table n)) n);;
      mret ARP_UPDATED_TABLE
    else mret (-1).

(** The loop of arp_scan that sends again while the card has no room; the
    ring never looks full (Lemma i8254_send_accepts), so the fuel is not
    used up. *)
Fixpoint arp_retry (fuel : nat) (send res : Z) : KN Z :=
  match fuel with
  | O => mret res
  | S fuel => if res =? -1 then res ← i8254_send send arp_pkt_size; arp_retry fuel send res else mret res
  end.

Fixpoint arp_scan_loop (n : nat) (i : Z) : KN unit :=
  match n with
  | O => mret tt
  | S n =>
      send ← zoom kmem_of kalloc;
      wr (arp_broadcast mac_addr send i);;
      res ← i8254_send send arp_pkt_size;
      arp_retry 1 send res;;
      zoom kmem_of (kfree kend send);;
      arp_scan_loop n (i + 1)
  end.

Definition arp_scan : KN unit := arp_scan_loop 256 0.

Definition icmp_proc (buffer_addr : Z) : KN unit :=
  m ← rd (fun m => m);
  let icmp_p := ip_payload buffer_addr m in
  if (m (u32 (icmp_p + icmp_code)) =? 0) && (m (u32 (icmp_p + icmp_type)) =? ICMP_TYPE_ECHO_REQUEST) then
    send ← zoom kmem_of kalloc;
    id ← gets send_id;
    wr (icmp_reply_pkt_create mac_addr buffer_addr send id);;
    modify (set_send_id (u16 (id + 1)));;
    i8254_send send icmp_pkt_size;;
    zoom kmem_of (kfree kend send)
  else mret tt.

(** tcp_pkt_create, with the global send_id. *)
Definition tcp_answer (buffer_addr send pkt_type payload_size : Z) : KN Z :=
  id ← gets send_id;
  seq ← gets seq_num;
  wr (tcp_pkt_create mac_addr buffer_addr send pkt_type payload_size id seq);;
  modify (set_send_id (u16 (id + 1)));;
  mret (tcp_pkt_size payload_size).

Definition next_seq : KN unit := modify (fun n => set_seq_num (u32 (seq_num n + 1)) n).

(** Both branches of the test for "GET" do the same. *)
Definition tcp_get (buffer_addr send : Z) : KN Z :=
  sz ← tcp_answer buffer_addr send TCP_CODEBITS_ACK 0;
  i8254_send send sz;;
  r ← rd (http_proc (send + sizeof_eth + sizeof_ipv4 + sizeof_tcp));
  wr (fun m => snd (http_proc (send + sizeof_eth + sizeof_ipv4 + sizeof_tcp) m));;
  modify (set_fin_flag true);;
  tcp_answer buffer_addr send (Z.lor TCP_CODEBITS_ACK TCP_CODEBITS_PSH) (fst r).

Definition tcp_proc (buffer_addr : Z) : KN unit :=
  m ← rd (fun m => m);
  let tcp_p := ip_payload buffer_addr m in
  let code := m (u32 (tcp_p + tcp_code_bits + 1)) in
  send ← zoom kmem_of kalloc;
  (if negb (Z.land code TCP_CODEBITS_SYN =? 0) then
     sz ← tcp_answer buffer_addr send (Z.lor TCP_CODEBITS_ACK TCP_CODEBITS_SYN) 0;
     i8254_send send sz;;
     next_seq
   else if code =? Z.lor TCP_CODEBITS_PSH TCP_CODEBITS_ACK then
     sz ← tcp_get buffer_addr send;
     i8254_send send sz;;
     next_seq
   else if code =? TCP_CODEBITS_ACK then
     f ← gets fin_flag;
     if f : bool then
       sz ← tcp_answer buffer_addr send TCP_CODEBITS_FIN 0;
       i8254_send send sz;;
       modify (set_fin_flag false)
     else mret tt
   else mret tt);;
  zoom kmem_of (kfree kend send).

Definition ipv4_proc (buffer_addr : Z) : KN unit :=
  m ← rd (fun m => m);
  last ← gets ip_id;
  let ip := buffer_addr + 14 in
  let id := load16 (u32 (ip + ip_ident)) m in
  if negb (last =? id) && negb (memcmp (of_bytes my_ip) (at_addr m (ip + ip_src_ip)) 4 =? 0) then
    modify (set_ip_id id);;
    let protocol := m (u32 (ip + ip_protocol)) in
    if protocol =? IPV4_TYPE_ICMP then icmp_proc buffer_addr
    else if protocol =? IPV4_TYPE_TCP then tcp_proc buffer_addr
    else mret tt
  else mret tt.

Definition eth_proc (buffer_addr : Z) : KN unit :=
  m ← rd (fun m => m);
  let t0 := m (u32 (buffer_addr + eth_type)) in
  let t1 := m (u32 (buffer_addr + eth_type + 1)) in
  if (t0 =? 0x08) && (t1 =? 0x06) then arp_proc (u32 (buffer_addr + sizeof_eth));; mret tt
  else if (t0 =? 0x08) && (t1 =? 0x00) then ipv4_proc buffer_addr
  else mret tt.

End net.
