(* ===== verification/NetProof.v ===== *)
(** * What the network stack sends

    The internet checksum, and the answers to ICMP echo requests and ARP
    requests as bytes. *)

From stdpp Require Import base numbers strings gmap list.
From S2P Require Import Prelude Kmonad Kstring Mmu Kalloc Vm VmUser Net.

Local Open Scope Z_scope.

(** ** The internet checksum *)

(** The one's complement sum of 16-bit words, as a number: the sum modulo
    2^16 - 1, where a sum that is not zero stays different from zero. *)
Definition ones_sum (ws : list Z) : Z :=
  let s := foldr Z.add 0 ws in if s =? 0 then 0 else (s - 1) mod 65535 + 1.

(** The sum that the loops of the code compute. *)
Definition chk_fold (ws : list Z) : Z := foldl chk_add 0 ws.

Definition word16 (w : Z) : Prop := 0 <= w < 65536.

Lemma chk_add_spec a w : 0 <= a <= 65535 -> word16 w ->
  0 <= chk_add a w <= 65535 /\ chk_add a w mod 65535 = (a + w) mod 65535 /\ (chk_add a w = 0 -> a = 0 /\ w = 0).
Proof.
  unfold word16, chk_add. intros Ha Hw. rewrite u32_id by (unfold in_u32; lia). cbn zeta.
  destruct (Z.ltb_spec 65535 (a + w)) as [Hl|Hl]; [|lia]. change (Z.land (a + w) 0xFFFF) with (Z.land (a + w) (Z.ones 16)). rewrite Z.land_ones by done.
  replace ((a + w) mod 2 ^ 16) with (a + w - 65536) by (change (2 ^ 16) with 65536; Z.div_mod_to_equations; lia).
  split_and!; [lia|lia| |lia]. replace (a + w - 65536 + 1) with (a + w + (-1) * 65535) by lia. by rewrite Z.mod_add.
Qed.

Lemma fold_spec ws : Forall word16 ws -> forall a, 0 <= a <= 65535 ->
  0 <= foldl chk_add a ws <= 65535 /\ foldl chk_add a ws mod 65535 = (a + foldr Z.add 0 ws) mod 65535 /\
  (foldl chk_add a ws = 0 -> a = 0 /\ Forall (fun w => w = 0) ws).
Proof.
  induction 1 as [|w ws Hw Hws IH]; intros a Ha; cbn [foldl foldr].
  { rewrite Z.add_0_r. split_and!; try done; lia. }
  destruct (chk_add_spec a w Ha Hw) as (H1 & H2 & H3). destruct (IH (chk_add a w) H1) as (I1 & I2 & I3). split_and!; [lia|lia| |].
  - rewrite I2. rewrite Z.add_mod, H2, <- Z.add_mod by done. f_equal. lia.
  - intros E. destruct (I3 E) as [E1 E2]. destruct (H3 E1) as [-> ->]. by split; [|constructor].
Qed.

Lemma sum_zero ws : Forall word16 ws -> foldr Z.add 0 ws = 0 -> Forall (fun w => w = 0) ws.
Proof.
  induction 1 as [|w ws Hw Hws IH]; cbn [foldr]; [done|]. intros E. assert (0 <= foldr Z.add 0 ws).
  { clear - Hws. unfold word16 in Hws. induction Hws; cbn; lia. }
  unfold word16 in Hw. constructor; [lia|]. apply IH. lia.
Qed.

(** The loops compute the one's complement sum. *)
Lemma chk_fold_ones ws : Forall word16 ws -> chk_fold ws = ones_sum ws.
Proof.
  intros H. destruct (fold_spec ws H 0 ltac:(lia)) as (B1 & B2 & B3). unfold ones_sum. fold (chk_fold ws) in *. rewrite Z.add_0_l in B2.
  assert (Hp : 0 <= foldr Z.add 0 ws) by (clear - H; unfold word16 in H; induction H; cbn; lia).
  cbn zeta. destruct (Z.eqb_spec (foldr Z.add 0 ws) 0) as [E|E].
  - apply (sum_zero ws H) in E. unfold chk_fold. clear - E. induction E as [|w ws -> _ IH]; [done|exact IH].
  - assert (chk_fold ws <> 0).
    { intros Hz. destruct (B3 Hz) as [_ HF]. apply E. clear - HF. induction HF as [|w ws -> _ IH]; [done|]. cbn. lia. }
    revert B2. generalize (foldr Z.add 0 ws) (chk_fold ws) Hp E B1 H0. clear. intros s f. Z.div_mod_to_equations. lia.
Qed.

(** The field a checksum goes to. *)
Definition chk_of (ws : list Z) : Z := u16 (Z.lnot (chk_fold ws)).

Lemma chk_fold_bound ws : Forall word16 ws -> 0 <= chk_fold ws <= 65535.
Proof. intros H. by apply (fold_spec ws H 0). Qed.

Lemma chk_of_eq ws : Forall word16 ws -> chk_of ws = 65535 - chk_fold ws.
Proof.
  intros H. pose proof (chk_fold_bound ws H). unfold chk_of, u16.
  replace (Z.lnot (chk_fold ws)) with (65535 - chk_fold ws + (-1) * 65536) by (unfold Z.lnot; lia).
  rewrite Z.mod_add by done. apply Z.mod_small. lia.
Qed.

Lemma chk_fold_zero ws : Forall (fun w => w = 0) ws -> chk_fold ws = 0.
Proof. unfold chk_fold. induction 1 as [|w ws -> _ IH]; [done|]. exact IH. Qed.

(** A header whose checksum field was zero when the checksum was computed
    verifies: its one's complement sum is all ones. *)
Lemma checksum_verifies l1 l2 : Forall word16 l1 -> Forall word16 l2 ->
  chk_fold (l1 ++ chk_of (l1 ++ 0 :: l2) :: l2) = 65535.
Proof.
  intros H1 H2. assert (H0 : Forall word16 (l1 ++ 0 :: l2)).
  { apply Forall_app. split; [done|]. constructor; [unfold word16; lia|done]. }
  pose proof (chk_fold_bound _ H0) as Hb. rewrite (chk_of_eq _ H0). set (s := chk_fold (l1 ++ 0 :: l2)) in *.
  assert (Hc : Forall word16 (l1 ++ (65535 - s) :: l2)).
  { apply Forall_app. split; [done|]. constructor; [unfold word16; lia|done]. }
  destruct (fold_spec _ Hc 0 ltac:(lia)) as (B1 & B2 & B3). fold (chk_fold (l1 ++ (65535 - s) :: l2)) in *.
  destruct (fold_spec _ H0 0 ltac:(lia)) as (_ & S2 & S3). fold (chk_fold (l1 ++ 0 :: l2)) s in S2, S3.
  assert (Hsum : forall x, foldr Z.add 0 (l1 ++ x :: l2) = foldr Z.add 0 (l1 ++ 0 :: l2) + x).
  { intros x. clear. induction l1 as [|y l1 IH]; cbn; lia. }
  rewrite Hsum in B2. set (T := foldr Z.add 0 (l1 ++ 0 :: l2)) in *.
  assert (Hz : chk_fold (l1 ++ (65535 - s) :: l2) mod 65535 = 0).
  { rewrite B2. replace (0 + (T + (65535 - s))) with (0 + T - s + 1 * 65535) by lia. rewrite Z.mod_add by done.
    rewrite Zminus_mod, <- S2, Z.sub_diag. done. }
  destruct (decide (chk_fold (l1 ++ (65535 - s) :: l2) = 0)) as [E|E]; [|Z.div_mod_to_equations; lia].
  exfalso. destruct (B3 E) as [_ HF]. apply Forall_app in HF as [F1 F2]. apply Forall_cons in F2 as [F2 F3].
  assert (s = 0); [|lia]. apply chk_fold_zero, Forall_app. split; [done|]. by constructor.
Qed.

(** ** A buffer in memory *)

Definition window (m : memory) (a : Z) (n : nat) : bytes := (fun i => m (a + Z.of_nat i)) <$> seq 0 n.

Lemma length_window m a n : length (window m a n) = n.
Proof. unfold window. by rewrite length_fmap, length_seq. Qed.

Lemma lookup_window m a n i : window m a n !! i = if decide (i < n)%nat then Some (m (a + Z.of_nat i)) else None.
Proof.
  unfold window. rewrite list_lookup_fmap. case_decide.
  - by rewrite lookup_seq_lt.
  - by rewrite lookup_seq_ge by lia.
Qed.

(** The big-endian words of a list of bytes. *)
Fixpoint be_words (l : bytes) : list Z :=
  match l with
  | h :: b :: l => (256 * h + b) :: be_words l
  | _ => []
  end.

Definition be_bytes (v : Z) : bytes := [v / 256; v mod 256].

Lemma be_words_app l1 l2 : Nat.Even (length l1) -> be_words (l1 ++ l2) = be_words l1 ++ be_words l2.
Proof.
  remember (length l1) as n eqn:En. revert l1 En. induction (lt_wf n) as [n _ IH]. intros l1 En Hev.
  destruct l1 as [|h [|b l1]]; [done| |].
  - cbn in En. subst. destruct Hev. lia.
  - cbn [app be_words]. f_equal. cbn in En. subst. apply (IH (length l1)); [lia|done|]. destruct Hev as [k Hk]. exists (k - 1)%nat. lia.
Qed.

Lemma be_words_word16 n : forall l, (length l <= n)%nat -> Forall is_byte l -> Forall word16 (be_words l).
Proof.
  induction n as [|n IH]; intros [|h [|b l]] Hl H; cbn in *; try constructor; try lia.
  - apply Forall_cons in H as [Hh H]. apply Forall_cons in H as [Hb H]. unfold is_byte, word16 in *. lia.
  - apply IH; [lia|]. apply Forall_cons in H as [_ H]. by apply Forall_cons in H as [_ H].
Qed.

Section view.
Context (m0 : memory) (a : Z) (N : nat).
Hypothesis Ha : no_wrap a (Z.of_nat N).
Implicit Types (m : memory) (w : bytes).

(** The buffer holds [w], and no other byte of memory has changed. *)
Definition view m w : Prop :=
  window m a N = w /\ byte_memory m /\ (forall x, ~ a <= x < a + Z.of_nat N -> m x = m0 x).

Lemma view_byte m w i : view m w -> (i < N)%nat -> m (a + Z.of_nat i) = nth_byte w i.
Proof. intros (<- & _) Hi. unfold nth_byte. rewrite lookup_window, decide_True by done. done. Qed.

(** Writes into the buffer. *)
Lemma view_write m m' w off bs : view m w -> (off + length bs <= N)%nat -> byte_memory m' ->
  (forall x, m' x = if decide (a + Z.of_nat off <= x < a + Z.of_nat off + Z.of_nat (length bs))
    then nth_byte bs (Z.to_nat (x - (a + Z.of_nat off))) else m x) ->
  view m' (bput off bs w).
Proof.
  intros (Hw & Hb & Ho) Hl Hb' Hm. split_and!; [|done|].
  - apply list_eq. intros i. rewrite lookup_bput by (rewrite <- Hw, length_window; done). rewrite <- Hw, !lookup_window.
    destruct (decide (i < N)%nat) as [Hi|Hi].
    + rewrite Hm. unfold nth_byte. destruct (decide (off <= i < off + length bs)%nat) as [Hr|Hr].
      * rewrite decide_True by lia. replace (Z.to_nat _) with (i - off)%nat by lia.
        destruct (lookup_lt_is_Some_2 bs (i - off)) as [b Hbb]; [lia|]. by rewrite Hbb.
      * rewrite decide_False by lia. done.
    + rewrite decide_False by lia. done.
  - intros x Hx. rewrite Hm, decide_False by lia. by apply Ho.
Qed.

Lemma view_store8 m w off v : view m w -> (off < N)%nat -> view (store8 (u32 (a + Z.of_nat off)) v m) (bput off [u8 v] w).
Proof.
  intros Hv Ho. destruct Ha as (H0 & _ & H1). rewrite u32_id by (unfold in_u32; lia).
  apply (view_write m); [done|cbn; lia|apply byte_memory_store8; apply Hv|]. intros x. unfold store8. cbn [length].
  destruct (Z.eqb_spec x (a + Z.of_nat off)) as [->|]; [|by rewrite decide_False by lia].
  rewrite decide_True by lia. by rewrite Z.sub_diag.
Qed.

Lemma view_put m w off bs : view m w -> (off + length bs <= N)%nat -> Forall is_byte bs ->
  view (put_bytes (u32 (a + Z.of_nat off)) bs m) (bput off bs w).
Proof.
  intros Hv Hl Hb. destruct Ha as (H0 & _ & H1). rewrite u32_id by (unfold in_u32; lia).
  assert (Hp : forall x, put_bytes (a + Z.of_nat off) bs m x =
    if decide (a + Z.of_nat off <= x < a + Z.of_nat off + Z.of_nat (length bs))
    then nth_byte bs (Z.to_nat (x - (a + Z.of_nat off))) else m x).
  { intros x. rewrite put_bytes_spec by (done || unfold no_wrap; lia). case_decide as Hd.
    - by rewrite (proj2 (in_range_spec _ _ _)).
    - by rewrite (proj2 (in_range_false _ _ _)). }
  apply (view_write m); [done|done| |exact Hp]. intros x. rewrite Hp. case_decide; [|apply Hv].
  unfold nth_byte. destruct (bs !! _) as [b|] eqn:E; cbn; [by eapply Forall_lookup_1 in E|unfold is_byte; lia].
Qed.

Lemma view_memmove m w off src n : view m w -> (off + n <= N)%nat -> no_wrap src (Z.of_nat n) ->
  src + Z.of_nat n <= a \/ a + Z.of_nat N <= src ->
  view (memmove (u32 (a + Z.of_nat off)) (u32 src) (Z.of_nat n) m) (bput off (window m0 src n) w).
Proof.
  intros Hv Hl Hs Hd. pose proof Hv as (_ & Hb & Ho). destruct Ha as (H0 & _ & H1). destruct Hs as (Hs0 & _ & Hs1).
  rewrite !u32_id by (unfold in_u32; lia). assert (Hm : forall x, memmove (a + Z.of_nat off) src (Z.of_nat n) m x =
    if decide (a + Z.of_nat off <= x < a + Z.of_nat off + Z.of_nat n) then m0 (x - (a + Z.of_nat off) + src) else m x).
  { intros x. rewrite memmove_spec by (done || unfold no_wrap; lia). case_decide as Hx.
    - rewrite (proj2 (in_range_spec _ _ _)) by done. apply Ho. lia.
    - by rewrite (proj2 (in_range_false _ _ _)). }
  apply (view_write m); [done|by rewrite length_window| |].
  - intros x. rewrite Hm. case_decide; [|apply Hb]. rewrite <- Ho by lia. apply Hb.
  - intros x. rewrite Hm, length_window. case_decide as Hx; [|done]. unfold nth_byte. rewrite lookup_window, decide_True by lia.
    cbn. f_equal. lia.
Qed.

Lemma le_bytes_2 v : le_bytes 2 v = [u8 v; u8 (v / 256)].
Proof. done. Qed.

Lemma view_store16 m w off v : view m w -> (off + 1 < N)%nat ->
  view (store16 (u32 (a + Z.of_nat off)) v m) (bput off (le_bytes 2 v) w).
Proof.
  intros Hv Ho. destruct Ha as (H0 & _ & H1). unfold store16. rewrite !u32_id by (unfold in_u32; rewrite ?u32_id; unfold in_u32; lia).
  apply (view_write m); [done|cbn; lia|do 2 apply byte_memory_store8; apply Hv|]. intros x. rewrite le_bytes_2. unfold store8. cbn [length].
  destruct (Z.eqb_spec x (a + Z.of_nat off + 1)) as [->|]; [|destruct (Z.eqb_spec x (a + Z.of_nat off)) as [->|]].
  - rewrite decide_True by lia. by replace (Z.to_nat _) with 1%nat by lia.
  - rewrite decide_True by lia. by replace (Z.to_nat _) with 0%nat by lia.
  - by rewrite decide_False by lia.
Qed.

(** Sums over the buffer. *)
Lemma bsub_two o n w : (o + 2 + n <= length w)%nat ->
  bsub o (2 + n) w = nth_byte w o :: nth_byte w (o + 1) :: bsub (o + 2) n w.
Proof.
  intros Hl. apply list_eq. intros i. rewrite lookup_bsub. unfold nth_byte.
  destruct (lookup_lt_is_Some_2 w o) as [x Hx]; [lia|]. destruct (lookup_lt_is_Some_2 w (o + 1)) as [y Hy]; [lia|].
  destruct i as [|[|i]]; cbn [lookup list_lookup].
  - rewrite decide_True, Nat.add_0_r, Hx by lia. done.
  - rewrite decide_True, Hy by lia. done.
  - change (list_lookup i (bsub (o + 2) n w)) with (bsub (o + 2) n w !! i). rewrite lookup_bsub.
    replace (o + S (S i))%nat with (o + 2 + i)%nat by lia. destruct (decide (i < n)%nat).
    + by rewrite decide_True by lia.
    + by rewrite decide_False by lia.
Qed.

Lemma chk_loop_view m w off : view m w -> forall n i acc, (off + 2 * i + 2 * n <= N)%nat ->
  chk_loop n (Z.of_nat i) m (a + Z.of_nat off) acc = foldl chk_add acc (be_words (bsub (off + 2 * i) (2 * n) w)).
Proof.
  intros Hv. pose proof Hv as (Hw & _). assert (Hlen : length w = N) by (by rewrite <- Hw, length_window).
  induction n as [|n IH]; intros i acc Hn; [done|]. cbn [chk_loop].
  replace (2 * S n)%nat with (2 + 2 * n)%nat by lia. rewrite bsub_two by lia. cbn [be_words foldl].
  replace (Z.of_nat i + 1) with (Z.of_nat (S i)) by lia. rewrite IH by lia.
  replace (off + 2 * S i)%nat with (off + 2 * i + 2)%nat by lia. f_equal. f_equal.
  unfold chk_word. destruct Ha as (H0 & _ & H1). rewrite !u32_id by (unfold in_u32; lia).
  replace (a + Z.of_nat off + Z.of_nat i * 2) with (a + Z.of_nat (off + 2 * i)) by lia.
  replace (a + Z.of_nat off + (Z.of_nat i * 2 + 1)) with (a + Z.of_nat (off + 2 * i + 1)) by lia.
  rewrite !(view_byte m w) by (done || lia). rewrite Z.shiftl_mul_pow2 by done. lia.
Qed.
End view.

(** The same steps at an address that is computed. *)
Section steps.
Context {m0 : memory} {a : Z} {N : nat} (Ha : no_wrap a (Z.of_nat N)).

Lemma step8 off x v m w : x = a + Z.of_nat off -> (off < N)%nat -> view m0 a N m w ->
  view m0 a N (store8 (u32 x) v m) (bput off [u8 v] w).
Proof. intros -> Ho Hv. by apply view_store8. Qed.

Lemma step16 off x v m w : x = a + Z.of_nat off -> (off + 1 < N)%nat -> view m0 a N m w ->
  view m0 a N (store16 (u32 x) v m) (bput off (le_bytes 2 v) w).
Proof. intros -> Ho Hv. by apply view_store16. Qed.

Lemma step_put off x bs m w : x = a + Z.of_nat off -> (off + length bs <= N)%nat -> Forall is_byte bs -> view m0 a N m w ->
  view m0 a N (put x bs m) (bput off bs w).
Proof. intros -> Ho Hb Hv. by apply view_put. Qed.

Lemma step_move off n x src k m w : x = a + Z.of_nat off -> k = Z.of_nat n -> (off + n <= N)%nat -> no_wrap src (Z.of_nat n) ->
  src + Z.of_nat n <= a \/ a + Z.of_nat N <= src -> view m0 a N m w ->
  view m0 a N (memmove (u32 x) (u32 src) k m) (bput off (window m0 src n) w).
Proof. intros -> -> Ho Hs Hd Hv. by apply view_memmove. Qed.

End steps.

(** ** Bytes of packets *)

Lemma bsub_middle off n l1 l2 l3 : length l1 = off -> length l2 = n -> bsub off n ((l1 ++ l2) ++ l3) = l2.
Proof.
  intros <- <-. unfold bsub. by rewrite <- app_assoc, drop_app_length, take_app_length.
Qed.

Lemma bput_middle off bs bs' l1 l2 : length l1 = off -> length bs' = length bs ->
  bput off bs (l1 ++ bs' ++ l2) = l1 ++ bs ++ l2.
Proof.
  intros <- E. unfold bput. rewrite take_app_length, <- E, <- length_app. by rewrite (app_assoc l1 bs' l2), drop_app_length.
Qed.

Lemma H2N_bytes v : word16 v -> le_bytes 2 (H2N_ushort v) = be_bytes v.
Proof.
  intros Hv. unfold word16 in Hv. unfold H2N_ushort, be_bytes. change 0xFF with (Z.ones 8). rewrite Z.land_ones by done.
  rewrite Z.shiftl_mul_pow2, Z.shiftr_div_pow2 by done. change (2 ^ 8) with 256. rewrite le_bytes_2. unfold u8, u16.
  rewrite (Z.mod_small (_ + _)) by (Z.div_mod_to_equations; lia). f_equal; [|f_equal]; Z.div_mod_to_equations; lia.
Qed.

Lemma is_byte_be v : word16 v -> Forall is_byte (be_bytes v).
Proof. unfold word16. intros H. unfold be_bytes. repeat constructor; unfold is_byte; Z.div_mod_to_equations; lia. Qed.

Lemma is_byte_window m x n : byte_memory m -> Forall is_byte (window m x n).
Proof. intros Hb. unfold window. apply Forall_fmap, Forall_true. intros i. apply Hb. Qed.

Lemma be_words_be_bytes v l : be_words (be_bytes v ++ l) = v :: be_words l.
Proof. cbn [be_bytes app be_words]. f_equal. Z.div_mod_to_equations; lia. Qed.

(** Bytes in which a checksum field lies, computed with the field zero. *)
Lemma checksum_bytes_verify l1 l2 : Nat.Even (length l1) -> Forall is_byte l1 -> Forall is_byte l2 ->
  ones_sum (be_words (l1 ++ be_bytes (chk_of (be_words (l1 ++ be_bytes 0 ++ l2))) ++ l2)) = 65535.
Proof.
  intros He H1 H2. rewrite (be_words_app l1 (be_bytes 0 ++ l2)), (be_words_app l1), !be_words_be_bytes by done.
  rewrite <- chk_fold_ones; [apply checksum_verifies; by eapply be_words_word16|].
  apply Forall_app. split; [by eapply be_words_word16|]. constructor; [apply u16_bound|by eapply be_words_word16].
Qed.

Lemma window_app m x n k : window m x (n + k) = window m x n ++ window m (x + Z.of_nat n) k.
Proof.
  apply list_eq. intros i. rewrite lookup_window. destruct (decide (i < n)%nat).
  - rewrite lookup_app_l by (rewrite length_window; lia). by rewrite lookup_window, !decide_True by lia.
  - rewrite lookup_app_r, length_window, lookup_window by (rewrite length_window; lia).
    destruct (decide (i - n < k)%nat); [rewrite decide_True by lia; do 2 f_equal; lia|by rewrite decide_False by lia].
Qed.

Lemma bput_app_r off k bs l1 l2 : off = (length l1 + k)%nat -> bput off bs (l1 ++ l2) = l1 ++ bput k bs l2.
Proof.
  intros ->. unfold bput. rewrite take_app_add, <- Nat.add_assoc, drop_app_add. by rewrite <- app_assoc.
Qed.

(** ** The headers of an answer *)

Section answer.
Context (mac : bytes) (m0 : memory) (recv a : Z) (N : nat).
Hypothesis Hmac : length mac = 6%nat.
Hypothesis Hmacb : Forall is_byte mac.
Hypothesis Ha : no_wrap a (Z.of_nat N).
Hypothesis HN : (34 <= N)%nat.
Hypothesis Hr : no_wrap recv 34.
Hypothesis Hd : recv + 34 <= a \/ a + Z.of_nat N <= recv.

(** An IPv4 header without options, from this host to the sender of the
    packet at [recv]. *)
Definition ip_header (total id fragment protocol c : Z) : bytes :=
  [69; 0] ++ be_bytes total ++ le_bytes 2 id ++ be_bytes fragment ++ [255; protocol] ++ be_bytes c ++ my_ip ++
  window m0 (recv + 26) 4.

Definition eth_header : bytes := window m0 (recv + 6) 6 ++ mac ++ [8; 0].

Ltac addr := unfold eth_dst_mac, eth_src_mac, eth_type, sizeof_eth, ip_ver, ip_srv_type, ip_total_len, ip_ident, ip_fragment,
  ip_ttl, ip_protocol, ip_chk_sum, ip_src_ip, ip_dst_ip, sizeof_ipv4, icmp_type, icmp_code, icmp_ident, icmp_seq_num,
  icmp_time_stamp, icmp_data, icmp_chk_sum; lia.
Ltac s8 o := apply (step8 Ha o); [addr|lia|].
Ltac s16 o := apply (step16 Ha o); [addr|lia|].
Ltac sput o := apply (step_put Ha o); [addr|cbn; lia|repeat constructor; unfold is_byte; lia|].
Ltac smove o n := apply (step_move Ha o n); [addr|done|lia|unfold no_wrap in *; addr|addr|].

(** The result of the stores on the bytes of the buffer. *)
Definition hdr_stores (total id fragment protocol : Z) (w : bytes) : bytes :=
  bput 24 (le_bytes 2 0) (bput 30 (window m0 (recv + sizeof_eth + ip_src_ip) 4) (bput 26 my_ip (bput 23 [u8 protocol] (bput 22 [u8 255]
    (bput 20 (le_bytes 2 (H2N_ushort fragment)) (bput 18 (le_bytes 2 id) (bput 16 (le_bytes 2 (H2N_ushort (u16 total)))
    (bput 15 [u8 0] (bput 14 [u8 (Z.shiftl 4 4 + Z.land (sizeof_ipv4 / 4) 0xF)] (bput 13 [u8 0] (bput 12 [u8 8] (bput 6 mac
    (bput 0 (window m0 (recv + eth_src_mac) 6) w))))))))))))).

Lemma hdr_stores_eq total id fragment protocol w : (34 <= length w)%nat ->
  word16 total -> word16 fragment -> is_byte protocol ->
  hdr_stores total id fragment protocol w = (eth_header ++ ip_header total id fragment protocol 0) ++ drop 34 w.
Proof.
  intros Hw Ht Hf Hp. unfold hdr_stores. rewrite !H2N_bytes by (done || unfold u16; rewrite Z.mod_small; done).
  unfold u16. rewrite (Z.mod_small total) by done. rewrite (u8_id protocol) by done.
  unfold eth_header, ip_header. replace (recv + sizeof_eth + ip_src_ip) with (recv + 26) by (unfold sizeof_eth, ip_src_ip; lia).
  change (recv + eth_src_mac) with (recv + 6).
  destruct mac as [|b1 [|b2 [|b3 [|b4 [|b5 [|b6 [|]]]]]]]; try done.
  do 34 (destruct w as [|? w]; [cbn in Hw; lia|]). clear Hw. cbn -[window]. unfold window. cbn. reflexivity.
Qed.

Lemma length_ip_header total id fragment protocol c : length (ip_header total id fragment protocol c) = 20%nat.
Proof. done. Qed.

Lemma length_eth_header : length eth_header = 14%nat.
Proof. unfold eth_header. rewrite !length_app, length_window, Hmac. done. Qed.

(** The checksum field of the header. *)
Definition ip_chk (total id fragment protocol : Z) : Z := chk_of (be_words (ip_header total id fragment protocol 0)).

Lemma ip_reply_hdr_view m w total fragment protocol id : view m0 a N m w ->
  word16 total -> word16 fragment -> is_byte protocol ->
  view m0 a N (ip_reply_hdr mac recv a total fragment protocol id m)
    ((eth_header ++ ip_header total id fragment protocol (ip_chk total id fragment protocol)) ++ drop 34 w).
Proof.
  intros Hv Ht Hf Hp. assert (Hlw : length w = N) by (destruct Hv as [<- _]; apply length_window).
  unfold ip_reply_hdr. cbn zeta. lazymatch goal with |- view _ _ _ (store16 _ (H2N_ushort (ipv4_chksum _ ?m1)) _) _ => set (m1' := m1) end.
  assert (Hv1 : view m0 a N m1' ((eth_header ++ ip_header total id fragment protocol 0) ++ drop 34 w)).
  { rewrite <- hdr_stores_eq by (done || lia). unfold m1', hdr_stores.
    s16 24%nat. smove 30%nat 4%nat. sput 26%nat. s8 23%nat. s8 22%nat. s16 20%nat. s16 18%nat. s16 16%nat. s8 15%nat. s8 14%nat.
    s8 13%nat. s8 12%nat. apply (step_put Ha 6); [addr|lia|done|]. smove 0%nat 6%nat. exact Hv. }
  clearbody m1'.
  assert (Hc : ipv4_chksum (u32 (a + sizeof_eth)) m1' = ip_chk total id fragment protocol).
  { destruct Ha as (H0 & _ & H1). unfold ipv4_chksum. rewrite u32_id by (unfold in_u32, sizeof_eth; lia).
    change (a + sizeof_eth) with (a + Z.of_nat 14). rewrite (view_byte _ _ _ _ _ 14 Hv1) by lia.
    rewrite <- app_assoc. unfold nth_byte at 1. rewrite lookup_app_r by (rewrite length_eth_header; lia). rewrite length_eth_header.
    change (default 0 ((ip_header total id fragment protocol 0 ++ drop 34 w) !! (14 - 14)%nat)) with 69.
    change (Z.to_nat (u8 (Z.land 69 15 * 2))) with 10%nat. unfold ip_chk, chk_of, chk_fold. do 2 f_equal.
    pose proof (chk_loop_view m0 a N Ha m1' _ 14 Hv1 10 0 0 ltac:(lia)) as Hl. change (Z.of_nat 0) with 0 in Hl. rewrite Hl.
    do 2 f_equal. apply bsub_middle; [apply length_eth_header|done]. }
  rewrite Hc. assert (Hcw : word16 (ip_chk total id fragment protocol)) by apply u16_bound.
  pose proof (step16 Ha 24 (a + sizeof_eth + ip_chk_sum) (H2N_ushort (ip_chk total id fragment protocol)) m1' _ ltac:(addr) ltac:(lia) Hv1) as Hv2.
  rewrite H2N_bytes in Hv2 by done. unfold ip_header in *. rewrite <- !app_assoc in *.
  assert (E : forall c rest, eth_header ++ [69; 0] ++ be_bytes total ++ le_bytes 2 id ++ be_bytes fragment ++ [255; protocol] ++ be_bytes c ++ rest
    = (eth_header ++ [69; 0] ++ be_bytes total ++ le_bytes 2 id ++ be_bytes fragment ++ [255; protocol]) ++ be_bytes c ++ rest)
    by (intros; by rewrite <- !app_assoc).
  rewrite E in Hv2 |- *. rewrite bput_middle in Hv2; [exact Hv2| |done]. rewrite length_app, length_eth_header. done.
Qed.

Lemma ip_header_verifies total id fragment protocol : byte_memory m0 -> word16 total -> word16 fragment -> is_byte protocol ->
  ones_sum (be_words (ip_header total id fragment protocol (ip_chk total id fragment protocol))) = 65535.
Proof.
  clear - m0. intros Hb Ht Hf Hp. unfold ip_chk, ip_header.
  assert (E : forall c, [69; 0] ++ be_bytes total ++ le_bytes 2 id ++ be_bytes fragment ++ [255; protocol] ++ be_bytes c ++ my_ip ++ window m0 (recv + 26) 4
    = ([69; 0] ++ be_bytes total ++ le_bytes 2 id ++ be_bytes fragment ++ [255; protocol]) ++ be_bytes c ++ my_ip ++ window m0 (recv + 26) 4)
    by (intros; by rewrite <- !app_assoc).
  rewrite !E. apply checksum_bytes_verify; [by exists 5%nat| |].
  - repeat (apply Forall_app; split); try apply is_byte_be; try apply le_bytes_is_byte; try done; repeat constructor; unfold is_byte in *; lia.
  - apply Forall_app. split; [|by apply is_byte_window]. repeat constructor; unfold is_byte; lia.
Qed.

(** ** The answer to an echo request *)

Hypothesis HN98 : N = 98%nat.
Hypothesis Hr138 : no_wrap recv 138.
Hypothesis Hd138 : recv + 138 <= a \/ a + 98 <= recv.

Definition icmp_part (icmp c : Z) : bytes := [0; 0] ++ be_bytes c ++ window m0 (icmp + 4) 60.

Lemma load16_view m w x : view m0 a N m w -> no_wrap x 2 -> x + 2 <= a \/ a + 98 <= x ->
  le_bytes 2 (load16 (u32 x) m) = window m0 x 2.
Proof.
  intros (_ & Hb & Ho) (H0 & _ & H1) Hx. unfold load16. rewrite u32_id, u32_id by (unfold in_u32; lia).
  pose proof (Hb x) as B1. pose proof (Hb (x + 1)) as B2. unfold is_byte in *. rewrite le_bytes_2. unfold u8, window. cbn.
  change (Z.of_nat 0) with 0. change (Z.of_nat 1) with 1. rewrite Z.add_0_r, <- !Ho by lia.
  f_equal; [|f_equal]; clear - B1 B2; Z.div_mod_to_equations; lia.
Qed.

Lemma icmp_stores_eq h r i : length h = 34%nat -> length r = 64%nat ->
  bput 36 (le_bytes 2 0) (bput 50 (window m0 (i + 16) 48) (bput 42 (window m0 (i + 8) 8) (bput 40 (window m0 (i + 6) 2)
    (bput 38 (window m0 (i + 4) 2) (bput 35 [u8 0] (bput 34 [u8 0] (h ++ r))))))) = h ++ icmp_part i 0.
Proof.
  intros Hh Hlr. rewrite !(bput_app_r 34 0), !(bput_app_r 35 1), !(bput_app_r 38 4), !(bput_app_r 40 6), !(bput_app_r 42 8),
    !(bput_app_r 50 16), !(bput_app_r 36 2) by (rewrite Hh; done). f_equal. unfold icmp_part.
  change 60%nat with (2 + (2 + (8 + 48)))%nat. rewrite !window_app.
  replace (i + 4 + Z.of_nat 2 + Z.of_nat 2 + Z.of_nat 8) with (i + 16) by lia.
  replace (i + 4 + Z.of_nat 2 + Z.of_nat 2) with (i + 8) by lia. replace (i + 4 + Z.of_nat 2) with (i + 6) by lia.
  do 64 (destruct r as [|? r]; [done|]). destruct r; [|done]. reflexivity.
Qed.

Lemma step_copy16 off x src m w : x = a + Z.of_nat off -> (off + 1 < N)%nat -> no_wrap src 2 ->
  src + 2 <= a \/ a + 98 <= src -> view m0 a N m w ->
  view m0 a N (store16 (u32 x) (load16 (u32 src) m) m) (bput off (window m0 src 2) w).
Proof. intros Hx Ho Hs Hds Hv. erewrite <- load16_view by done. by apply (step16 Ha). Qed.

Lemma ip_payload_eq : byte_memory m0 ->
  ip_payload recv m0 = recv + 14 + Z.land (m0 (recv + 14)) 15 * 4 /\ 0 <= Z.land (m0 (recv + 14)) 15 <= 15.
Proof.
  intros Hb. assert (Hl : 0 <= Z.land (m0 (recv + 14)) 15 <= 15)
    by (change 15 with (Z.ones 4) at 1 2; rewrite Z.land_ones by done; change (2 ^ 4) with 16; Z.div_mod_to_equations; lia).
  split; [|done]. destruct Hr138 as (H0 & _ & H1). unfold ip_payload, sizeof_eth. rewrite (u32_id (recv + 14)) by (unfold in_u32; lia).
  cbn zeta. rewrite u32_id by (unfold in_u32; lia). done.
Qed.

Ltac scopy o := apply (step_copy16 o); [addr|lia|unfold no_wrap in *; addr|addr|].

Lemma icmp_reply_view w id : view m0 a N m0 w ->
  let icmp := recv + 14 + Z.land (m0 (recv + 14)) 15 * 4 in
  view m0 a N (icmp_reply_pkt_create mac recv a id m0)
    ((eth_header ++ ip_header 84 id 0x4000 1 (ip_chk 84 id 0x4000 1)) ++ icmp_part icmp (chk_of (be_words (icmp_part icmp 0)))).
Proof.
  intros Hv icmp. assert (Hlw : length w = N) by (destruct Hv as [<- _]; apply length_window).
  destruct (ip_payload_eq ltac:(apply Hv)) as [Hp Hi]. unfold icmp_reply_pkt_create. cbn zeta. rewrite Hp. fold icmp.
  assert (Hic : recv + 14 <= icmp <= recv + 74) by lia. clearbody icmp.
  pose proof (ip_reply_hdr_view m0 w 84 0x4000 1 id Hv ltac:(done) ltac:(done) ltac:(done)) as Hv1.
  set (h := eth_header ++ _) in *.
  assert (Hlh : length h = 34%nat) by (unfold h; rewrite length_app, length_eth_header; done). clearbody h.
  lazymatch goal with |- view _ _ _ (store16 _ (H2N_ushort (icmp_chksum _ ?m1)) _) _ => set (m1' := m1) end.
  assert (Hv2 : view m0 a N m1' (h ++ icmp_part icmp 0)).
  { rewrite <- (icmp_stores_eq h (drop 34 w) icmp) by (done || rewrite length_drop; lia). unfold m1'.
    s16 36%nat. smove 50%nat 48%nat. smove 42%nat 8%nat. scopy 40%nat. scopy 38%nat. s8 35%nat. s8 34%nat. exact Hv1. }
  clearbody m1'.
  assert (Hc : icmp_chksum (u32 (a + sizeof_eth + sizeof_ipv4)) m1' = chk_of (be_words (icmp_part icmp 0))).
  { unfold icmp_chksum. destruct Ha as (H0 & _ & H1). rewrite u32_id by (unfold in_u32, sizeof_eth, sizeof_ipv4; lia).
    replace (a + sizeof_eth + sizeof_ipv4) with (a + Z.of_nat 34) by addr.
    pose proof (chk_loop_view m0 a N Ha m1' _ 34 Hv2 32 0 0 ltac:(lia)) as Hl. change (Z.of_nat 0) with 0 in Hl. rewrite Hl.
    unfold chk_of, chk_fold. do 4 f_equal. rewrite <- (app_nil_r (h ++ _)). by apply bsub_middle. }
  rewrite Hc. set (c := chk_of _) in *. assert (Hcw : word16 c) by apply u16_bound. clearbody c.
  pose proof (step16 Ha 36 (a + sizeof_eth + sizeof_ipv4 + icmp_chk_sum) (H2N_ushort c) m1' _ ltac:(addr) ltac:(lia) Hv2) as Hv3.
  rewrite H2N_bytes in Hv3 by done. unfold icmp_part in *. rewrite !(app_assoc h [0; 0]) in *.
  rewrite bput_middle in Hv3; [exact Hv3| |done]. by rewrite length_app, Hlh.
Qed.

Lemma icmp_part_verifies icmp : byte_memory m0 -> ones_sum (be_words (icmp_part icmp (chk_of (be_words (icmp_part icmp 0))))) = 65535.
Proof.
  clear - m0. intros Hb. apply (checksum_bytes_verify [0; 0]); [by exists 1%nat| |by apply is_byte_window].
  repeat constructor; unfold is_byte; lia.
Qed.

End answer.

(** C20. The packet built to answer an ICMP echo request: its 98 bytes are the
    Ethernet header back to the sender's address, an IPv4 header from this
    host to the sender's IP address, and an echo reply that repeats the
    identifier, sequence number, time stamp and data of the request; the
    one's complement sums of the IPv4 header and of the ICMP message are all
    ones, so both checksums verify at the receiver; and no byte outside the
    packet changes. *)
Theorem icmp_reply_correct (mac : bytes) (m : memory) (recv send id : Z) :
  length mac = 6%nat -> Forall is_byte mac -> byte_memory m ->
  no_wrap send 98 -> no_wrap recv 138 -> recv + 138 <= send \/ send + 98 <= recv ->
  let m' := icmp_reply_pkt_create mac recv send id m in
  let request := recv + 14 + Z.land (m (recv + 14)) 15 * 4 in
  (exists ip_sum icmp_sum, window m' send 98 =
    (window m (recv + 6) 6 ++ mac ++ [8; 0]) ++
    ([69; 0] ++ be_bytes 84 ++ le_bytes 2 id ++ be_bytes 0x4000 ++ [255; 1] ++ be_bytes ip_sum ++ my_ip ++ window m (recv + 26) 4) ++
    ([0; 0] ++ be_bytes icmp_sum ++ window m (request + 4) 60)) /\
  ones_sum (be_words (window m' (send + 14) 20)) = 65535 /\
  ones_sum (be_words (window m' (send + 34) 64)) = 65535 /\
  (forall x, ~ send <= x < send + 98 -> m' x = m x).
Proof.
  intros Hm Hmb Hb Hs Hr Hd m' request.
  assert (Hv0 : view m send 98 m (window m send 98)) by done.
  assert (Hr34 : no_wrap recv 34) by (unfold no_wrap in *; lia). assert (Hd34 : recv + 34 <= send \/ send + Z.of_nat 98 <= recv) by lia.
  destruct (icmp_reply_view mac m recv send 98 Hm Hmb Hs ltac:(lia) Hr34 Hd34 eq_refl Hr Hd (window m send 98) id Hv0) as (Hw & _ & Ho).
  fold m' request in Hw, Ho. pose proof Hw as Hw'. rewrite <- app_assoc in Hw'.
  change 98%nat with (14 + (20 + 64))%nat in Hw'. rewrite !window_app in Hw'.
  apply app_inj_1 in Hw' as [_ Hw']; [|rewrite length_window, length_eth_header; done]. apply app_inj_1 in Hw' as [Hip Hic]; [|done].
  replace (send + Z.of_nat 14 + Z.of_nat 20) with (send + 34) in Hic by lia. change (Z.of_nat 14) with 14 in Hip.
  split_and!.
  - eexists _, _. rewrite Hw, <- app_assoc. reflexivity.
  - rewrite Hip. by apply ip_header_verifies.
  - rewrite Hic. by apply icmp_part_verifies.
  - exact Ho.
Qed.

Lemma icmp_reply_correct_witness :
  let m' := icmp_reply_pkt_create [2; 0; 0; 0; 0; 1] 0x80400000 0x80500000 7 (fun x => x mod 256) in
  ones_sum (be_words (window m' 0x8050000E 20)) = 65535 /\ ones_sum (be_words (window m' 0x80500022 64)) = 65535.
Proof.
  destruct (icmp_reply_correct [2; 0; 0; 0; 0; 1] (fun x => x mod 256) 0x80400000 0x80500000 7) as (_ & H1 & H2 & _).
  - reflexivity.
  - repeat constructor; lia.
  - intros x. apply Z.mod_pos_bound. lia.
  - unfold no_wrap. lia.
  - unfold no_wrap. lia.
  - lia.
  - split; [exact H1|exact H2].
Defined.

(** ** The transmit ring *)

(** The test for room in the ring never fails: a full ring is overwritten. *)
Lemma i8254_send_accepts pkt_addr len s c : wp (i8254_send pkt_addr len) (fun r _ c' => r = len /\ c' = c) s c.
Proof.
  unfold i8254_send. ksteps. pose proof (Z.mod_pos_bound (u32 (u32 (I8254_SEND_DESC_NUM - tdh s) + tdt s)) I8254_SEND_DESC_NUM ltac:(done)).
  destruct (Z.ltb_spec 0 (I8254_SEND_DESC_NUM - u32 (u32 (I8254_SEND_DESC_NUM - tdh s) + tdt s) mod I8254_SEND_DESC_NUM)); [|lia].
  unfold wr. ksteps. done.
Qed.

Section ring.
Context (kend : Z).

Lemma kmem_inv_write l k f v : kmem_inv kend l k -> v mod PGSIZE = 0 -> v ∉ l ->
  (forall x, ~ v <= x < v + PGSIZE -> f (kmemory k) x = kmemory k x) -> kmem_inv kend l (set_kmemory (f (kmemory k)) k).
Proof. intros (Hr & Hn & Hp) Hv Hl Hf. split_and!; [|done|done]. by eapply freelist_rep_frame. Qed.

Lemma two_stores d v w i m : no_wrap d PGSIZE -> (i < 255)%nat -> in_u32 v ->
  let m' := store32 (u32 (d + 16 * Z.of_nat (S i))) w (store32 (u32 (d + 16 * Z.of_nat i)) v m) in
  load32 (d + 16 * Z.of_nat i) m' = v /\
  (forall x, x < d + 16 * Z.of_nat i \/ d + 16 * Z.of_nat (S i) + 4 <= x -> m' x = m x).
Proof.
  intros (H0 & _ & H1) Hi Hv m'. unfold PGSIZE in *. subst m'. rewrite !u32_id by (unfold in_u32; lia). split.
  - rewrite (load32_ext _ _ (store32 (d + 16 * Z.of_nat i) v m)); [apply load32_store32; [unfold no_wrap; lia|done]|unfold no_wrap; lia|].
    intros x Hx. rewrite store32_spec by (unfold no_wrap; lia). bool_cases.
  - intros x Hx. rewrite !store32_spec by (unfold no_wrap; lia). bool_cases.
Qed.

Lemma send_desc_bufs_run d n : d mod PGSIZE = 0 -> no_wrap d PGSIZE -> forall i l s c, 
  (i + n <= 255)%nat -> kmem_inv kend l (nkmem s) -> d ∉ l -> L_kmem ∉ held c ->
  wp (send_desc_bufs n (Z.of_nat i) d) (fun _ s' c' => c' = c /\ s' = set_nkmem (nkmem s') s /\ kmem_inv kend (drop n l) (nkmem s') /\
    (forall j b, (j < n)%nat -> l !! j = Some b -> load32 (d + 16 * Z.of_nat (i + j)) (kmemory (nkmem s')) = V2P b) /\
    (forall x, x < d + 16 * Z.of_nat i \/ d + 16 * Z.of_nat (i + n) + 4 <= x -> kmemory (nkmem s') x = kmemory (nkmem s) x)) s c.
Proof.
  intros Hd Hw. induction n as [|n IH]; intros i l s c Hi Hk Hdl Hc; cbn [send_desc_bufs].
  { ksteps. split_and!; try done; [by destruct s|lia]. }
  apply wp_bind, wp_zoom. eapply wp_mono; [exact (kalloc_run kend l _ c Hk Hc)|]. cbn beta. intros r k' c' (-> & -> & Hk' & _ & Hm).
  destruct l as [|b l]; cbn [head tail default] in *.
  { cbn. ksteps. split_and!; try done. intros x Hx. cbn. by rewrite Hm. }
  assert (Hb : page_ok kend b) by (destruct Hk as (_ & _ & Hk); by inversion Hk).
  cbn. destruct (Z.eqb_spec b 0) as [->|_]; [unfold page_ok, KERNBASE in Hb; lia|]. unfold wr. do 4 kstep.
  replace (Z.of_nat i + 1) with (Z.of_nat (S i)) by lia.
  destruct (two_stores d (V2P b) (V2P (u32 (b + 2048))) i (kmemory k') Hw ltac:(lia) ltac:(apply u32_bound)) as [HL HF].
  cbn [nkmem set_nkmem set_kmemory kmemory]. set (m2 := store32 _ _ (store32 _ _ _)) in *.
  eapply wp_mono; [apply (IH (S i) l)|]; cbn [nkmem set_nkmem]; [lia| |set_solver|done|].
  { apply (kmem_inv_write l k' (fun _ => m2) d Hk' Hd); [set_solver|]. intros x Hx. apply HF. unfold PGSIZE in *. lia. }
  intros _ s' c' (-> & Hs & Hks & Hj & Hx). split_and!; [done| |done| |].
  - rewrite Hs. done.
  - intros [|j] b' Hjn Hb'; cbn in Hb'.
    + injection Hb' as <-. rewrite Nat.add_0_r, <- HL. apply load32_ext; [unfold no_wrap, PGSIZE in *; lia|]. intros x Hx'. apply Hx. lia.
    + rewrite <- (Hj j b') by (done || lia). do 3 f_equal. lia.
  - intros x Hx'. rewrite Hx by lia. cbn [kmemory set_kmemory]. rewrite HF by lia. by rewrite Hm.
Qed.
Lemma store16_spec x v m y : no_wrap x 2 -> store16 x v m y = if y =? x then u8 v else if y =? x + 1 then u8 (v / 256) else m y.
Proof. intros (H0 & _ & H1). unfold store16, store8. rewrite u32_id by (unfold in_u32; lia). bool_cases. Qed.

(** The first loop leaves the addresses of the buffers, the first four bytes
    of each descriptor. *)
Lemma send_desc_clear_frame d x n : no_wrap d PGSIZE -> x < d \/ d + PGSIZE <= x \/ (x - d) mod 16 < 4 ->
  forall i m, (i + n <= 256)%nat -> send_desc_clear n (Z.of_nat i) d m x = m x.
Proof.
  intros (H0 & _ & H1) Hx. unfold PGSIZE in *. induction n as [|n IH]; intros i m Hi; [done|]. cbn [send_desc_clear]. cbn zeta.
  replace (Z.of_nat i + 1) with (Z.of_nat (S i)) by lia. rewrite IH by lia. rewrite !u32_id by (unfold in_u32; lia).
  assert (Ho : x < d + 16 * Z.of_nat i + 4 \/ d + 16 * Z.of_nat i + 16 <= x) by (Z.div_mod_to_equations; lia). clear IH Hx.
  rewrite store16_spec by (unfold no_wrap; lia). unfold store8.
  rewrite store16_spec by (unfold no_wrap; lia). rewrite store32_spec by (unfold no_wrap; lia). bool_cases.
Qed.
End ring.

(** What i8254_init_send makes of the transmit ring, in any state of the
    allocator: the ring lies in the first free page, descriptor i below 128
    gets the i-th page after it as its buffer, and the pages given out leave
    the free list; but the buffer addresses of descriptors 129 to 255 are
    never written, so they keep what the free page held, although i8254_send
    copies packets to them as soon as tdt passes 128. *)
Theorem i8254_init_send_ring (kend tx : Z) (l : list Z) (s : net) (c : ctx) :
  kmem_inv kend (tx :: l) (nkmem s) -> L_kmem ∉ held c ->
  wp i8254_init_send (fun _ s' c' => c' = c /\ kmem_inv kend (drop 128 l) (nkmem s') /\
    tdbal s' = V2P tx /\ tdh s' = 0 /\ tdt s' = 0 /\
    (forall i b, (i < 128)%nat -> l !! i = Some b -> load32 (tx + 16 * Z.of_nat i) (kmemory (nkmem s')) = V2P b) /\
    (forall i, (128 < i < 256)%nat ->
      load32 (tx + 16 * Z.of_nat i) (kmemory (nkmem s')) = load32 (tx + 16 * Z.of_nat i) (kmemory (nkmem s)))) s c.
Proof.
  intros Hk Hc. assert (Htx : page_ok kend tx) by (destruct Hk as (_ & _ & Hk); by inversion Hk).
  assert (Hnd : tx ∉ l) by (destruct Hk as (_ & Hk & _); by inversion Hk).
  pose proof (page_ok_no_wrap kend tx Htx) as Hw. destruct Htx as (Hmod & _).
  unfold i8254_init_send. apply wp_bind, wp_zoom. eapply wp_mono; [exact (kalloc_run kend (tx :: l) _ c Hk Hc)|].
  cbn beta. intros r k' c' (-> & -> & Hk' & _ & Hm). cbn [head tail default] in *. unfold wr. do 8 kstep.
  eapply wp_mono; [apply (send_desc_bufs_run kend tx 128 Hmod Hw 0 l)|]; [lia| |done|done|]; cbn [nkmem set_nkmem].
  { apply (kmem_inv_write kend l k' (send_desc_clear 256 0 tx) tx Hk' Hmod Hnd). intros x Hx.
    apply (send_desc_clear_frame tx x 256 Hw) with (i := 0%nat); lia. }
  intros _ s' c' (-> & Hs & Hks & Hj & Hx). split_and!; [done|done|by rewrite Hs|by rewrite Hs|by rewrite Hs|exact Hj|].
  intros i Hi. destruct Hw as (H0 & _ & H1). unfold PGSIZE in *. apply load32_ext; [unfold no_wrap; lia|]. intros x Hx'. rewrite Hx by lia. cbn.
  rewrite <- Hm. apply (send_desc_clear_frame tx x 256) with (i := 0%nat); [done| |lia].
  right. right. replace (x - tx) with (x - tx - 16 * Z.of_nat i + Z.of_nat i * 16) by lia. rewrite Z.mod_add by done. rewrite Z.mod_small; lia.
Qed.

Lemma i8254_init_send_ring_witness :
  wp i8254_init_send (fun _ s' c' => kmem_inv 2151677952 [] (nkmem s') /\ tdbal s' = V2P 2151682048 /\
    load32 2151682048 (kmemory (nkmem s')) = V2P 2151677952 /\
    load32 (2151682048 + 16 * 200) (kmemory (nkmem s')) = load32 (2151682048 + 16 * 200) (kmemory two_pages))
    (mknet two_pages [] (-1) 0 0 false 0 0 0) (mkctx [] [] 0).
Proof.
  eapply wp_mono; [apply (i8254_init_send_ring 2151677952 2151682048 [2151677952])|].
  - split; [by vm_compute|]. split; [repeat constructor; set_solver|]. repeat constructor; by vm_compute.
  - cbn. apply not_elem_of_nil.
  - intros _ s' c' (_ & Hk & Hb & _ & _ & Hi & Hu). split_and!.
    + exact Hk.
    + exact Hb.
    + apply (Hi 0%nat); [lia|reflexivity].
    + apply (Hu 200%nat). lia.
Defined.
