(* ===== verification/Umalloc.v ===== *)
(** * umalloc.c: the allocator of the user programs

    The Kernighan and Ritchie allocator on the memory of the process: every
    block starts with a header, the address of the next free block and the
    size in units of a header, and the free blocks form a ring in the order
    of their addresses that starts at [base].  The loops take a bound on the
    number of turns and return [None] when it is used up. *)

From stdpp Require Import base numbers strings gmap list.
From S2P Require Import Prelude Kstring Mmu Kalloc.

Local Open Scope Z_scope.

(** sizeof(Header) *)
Definition HDR : Z := 8.

Record heap : Type := mkheap {
  hmem : memory;
  freep : Z;
  brk : Z       (* the size of the process, kept by the kernel *)
}.

Definition set_hmem (m : memory) (h : heap) : heap := mkheap m (freep h) (brk h).
Definition set_freep (p : Z) (h : heap) : heap := mkheap (hmem h) p (brk h).
Definition set_brk (b : Z) (h : heap) : heap := mkheap (hmem h) (freep h) b.

(** The members of the header at [p]. *)
Definition ptr (m : memory) (p : Z) : Z := load32 p m.
Definition size (m : memory) (p : Z) : Z := load32 (u32 (p + 4)) m.
Definition put_ptr (p v : Z) (m : memory) : memory := store32 p v m.
Definition put_size (p v : Z) (m : memory) : memory := store32 (u32 (p + 4)) v m.

(** [p + n] for a Header pointer. *)
Definition hadd (p n : Z) : Z := u32 (p + u32 (n * HDR)).

(** The search loop of free: the free block after which [bp] belongs. *)
Fixpoint free_loop (fuel : nat) (m : memory) (bp p : Z) : option Z :=
  match fuel with
  | O => None
  | S fuel =>
      let nx := ptr m p in
      if (p <? bp) && (bp <? nx) then Some p
      else if (nx <=? p) && ((p <? bp) || (bp <? nx)) then Some p
      else free_loop fuel m bp nx
  end.

(** Link the block at [a] to [nx], or make one block of the two when they
    touch. *)
Definition join (m : memory) (a nx : Z) : memory :=
  if hadd a (size m a) =? nx then
    let m := put_size a (u32 (size m a + size m nx)) m in
    put_ptr a (ptr m nx) m
  else put_ptr a nx m.

(** The joins of free, with the next and with the previous free block. *)
Definition free_link (m : memory) (bp p : Z) : memory := join (join m bp (ptr m p)) p bp.

Definition free (fuel : nat) (ap : Z) (h : heap) : option heap :=
  let bp := u32 (ap - HDR) in
  p ← free_loop fuel (hmem h) bp (freep h);
  Some (set_freep p (set_hmem (free_link (hmem h) bp p) h)).

Section malloc.
(** The address of the static variable base, and whether the kernel finds
    the pages for a process of the old size to grow to the new one. *)
Variable base : Z.
Variable granted : Z -> Z -> bool.

(** The system call sbrk (sys_sbrk, growproc, allocuvm and deallocuvm): the
    old size or -1.  What the kernel writes lies above the old size. *)
Definition sbrk (n : Z) (h : heap) : Z * heap :=
  let old := brk h in
  let new := u32 (old + n) in
  if 0 <? n then
    if KERNBASE <=? new then (-1, h)
    else if new <? old then (old, h)
    else if granted old new then (old, set_brk new h)
    else (-1, h)
  else if n <? 0 then
    if old <=? new then (old, h)
    else if new =? 0 then (-1, h)
    else (old, set_brk new h)
  else (old, h).

Definition morecore (fuel : nat) (nu : Z) (h : heap) : option (Z * heap) :=
  let nu := if nu <? 4096 then 4096 else nu in
  let '(p, h) := sbrk (i32 (u32 (nu * HDR))) h in
  if p =? -1 then Some (0, h)
  else
    let h := set_hmem (put_size p nu (hmem h)) h in
    h ← free fuel (hadd p 1) h;
    Some (freep h, h).

(** The block at [p], after [prevp] in the ring, is big enough. *)
Definition malloc_take (nunits prevp p : Z) (h : heap) : Z * heap :=
  let m := hmem h in
  let '(p, m) :=
    if size m p =? nunits then (p, put_ptr prevp (ptr m p) m)
    else
      let m := put_size p (u32 (size m p - nunits)) m in
      let p := hadd p (size m p) in
      (p, put_size p nunits m) in
  (hadd p 1, set_freep prevp (set_hmem m h)).

Fixpoint malloc_loop (fuel : nat) (nunits prevp p : Z) (h : heap) : option (Z * heap) :=
  match fuel with
  | O => None
  | S fuel' =>
      if nunits <=? size (hmem h) p then Some (malloc_take nunits prevp p h)
      else if p =? freep h then
        '(p, h) ← morecore fuel nunits h;
        if p =? 0 then Some (0, h) else malloc_loop fuel' nunits p (ptr (hmem h) p) h
      else malloc_loop fuel' nunits p (ptr (hmem h) p) h
  end.

Definition malloc_init (h : heap) : heap :=
  if freep h =? 0 then set_freep base (set_hmem (put_size base 0 (put_ptr base base (hmem h))) h) else h.

Definition malloc (fuel : nat) (nbytes : Z) (h : heap) : option (Z * heap) :=
  let nunits := u32 (nbytes + HDR - 1) / HDR + 1 in
  let h := malloc_init h in
  let prevp := freep h in
  malloc_loop fuel nunits prevp (ptr (hmem h) prevp) h.

End malloc.

(** *** The blocks *)

(** A block: its address and its size in units. *)
Notation blk := (Z * Z)%type.

(** The headers of [l], linked in order, the last to [e]. *)
Fixpoint chain (m : memory) (l : list blk) (e : Z) : Prop :=
  match l with
  | [] => True
  | (a, s) :: t => size m a = s /\ ptr m a = hd e (fst <$> t) /\ chain m t e
  end.

(** Blocks from [lo] to [hi], in the order of their addresses. *)
Fixpoint ordered (lo hi : Z) (l : list blk) : Prop :=
  match l with
  | [] => lo <= hi
  | (a, s) :: t => lo <= a /\ (8 | a) /\ 1 <= s /\ ordered (a + 8 * s) hi t
  end.

Definition disj (b c : blk) : Prop := fst b + 8 * snd b <= fst c \/ fst c + 8 * snd c <= fst b.

Fixpoint pairwise (l : list blk) : Prop :=
  match l with
  | [] => True
  | b :: t => Forall (disj b) t /\ pairwise t
  end.
