(* ===== verification/UmallocProof.v ===== *)
(** * The allocator of the user programs keeps its blocks apart

    The ring of free blocks as a list, and what malloc, free and morecore
    make of it.  Over all runs of a program that allocates, frees what it
    allocated and writes only into its blocks, the blocks it holds are
    disjoint. *)

From stdpp Require Import base numbers strings gmap list.
From S2P Require Import Prelude Kstring Mmu Kalloc Umalloc.

Local Open Scope Z_scope.

(** ** Headers in memory *)

Definition hdr_ok (a : Z) : Prop := 0 <= a /\ a + 8 < 4294967296.

Ltac hdr := unfold hdr_ok, no_wrap, in_u32 in *; lia.

Lemma hdr_ext a m m' : hdr_ok a -> (forall x, a <= x < a + 8 -> m' x = m x) -> ptr m' a = ptr m a /\ size m' a = size m a.
Proof.
  intros Ha H. unfold ptr, size. rewrite u32_id by hdr.
  split; apply load32_ext; try hdr; intros x Hx; apply H; lia.
Qed.

Lemma put_ptr_frame a v m x : hdr_ok a -> ~ a <= x < a + 8 -> put_ptr a v m x = m x.
Proof. intros Ha Hx. unfold put_ptr. rewrite store32_spec by hdr. bool_cases. Qed.

Lemma put_size_frame a v m x : hdr_ok a -> ~ a <= x < a + 8 -> put_size a v m x = m x.
Proof. intros Ha Hx. unfold put_size. rewrite u32_id by hdr. rewrite store32_spec by hdr. bool_cases. Qed.

Lemma ptr_put_ptr a v m : hdr_ok a -> in_u32 v -> ptr (put_ptr a v m) a = v.
Proof. intros Ha Hv. apply load32_store32; [hdr|done]. Qed.

Lemma size_put_size a v m : hdr_ok a -> in_u32 v -> size (put_size a v m) a = v.
Proof. intros Ha Hv. unfold size, put_size. rewrite u32_id by hdr. apply load32_store32; [hdr|done]. Qed.

Lemma size_put_ptr a v m : hdr_ok a -> size (put_ptr a v m) a = size m a.
Proof.
  intros Ha. unfold size, put_ptr. rewrite u32_id by hdr. apply load32_ext; [hdr|]. intros x Hx.
  rewrite store32_spec by hdr. bool_cases.
Qed.

Lemma ptr_put_size a v m : hdr_ok a -> ptr (put_size a v m) a = ptr m a.
Proof.
  intros Ha. unfold ptr, put_size. rewrite u32_id by hdr. apply load32_ext; [hdr|]. intros x Hx.
  rewrite store32_spec by hdr. bool_cases.
Qed.

Lemma hadd_eq a n : 0 <= a -> 0 <= n -> a + 8 * n < 4294967296 -> hadd a n = a + 8 * n.
Proof. intros Ha Hn H. unfold hadd, HDR. rewrite (u32_id (n * 8)) by hdr. rewrite u32_id by hdr. lia. Qed.

(** The units of a request, with its header. *)
Definition units (nbytes : Z) : Z := (nbytes + 7) / 8 + 1.

Lemma units_bounds n : 0 <= n < 2147483632 -> u32 (n + HDR - 1) / HDR + 1 = units n /\ 1 <= units n < 2 ^ 28 /\ n <= 8 * (units n - 1).
Proof. intros Hn. unfold units, HDR. rewrite u32_id by hdr. replace (n + 8 - 1) with (n + 7) by lia. Z.div_mod_to_equations; lia. Qed.

(** ** The ring as a list *)

Lemma chain_app m l1 l2 e : chain m (l1 ++ l2) e <-> chain m l1 (hd e (fst <$> l2)) /\ chain m l2 e.
Proof.
  induction l1 as [|[a s] l1 IH]; cbn [app chain]; [naive_solver|]. rewrite IH.
  assert (E : hd e (fst <$> (l1 ++ l2)) = hd (hd e (fst <$> l2)) (fst <$> l1)) by (by destruct l1).
  rewrite E. naive_solver.
Qed.

Definition hdrs_kept (m m' : memory) (l : list blk) : Prop :=
  Forall (fun b => hdr_ok (fst b) /\ forall x, fst b <= x < fst b + 8 -> m' x = m x) l.

Lemma chain_frame m m' l e : hdrs_kept m m' l -> chain m l e -> chain m' l e.
Proof.
  induction 1 as [|[a s] l [Ha Hx] _ IH]; [done|]. cbn [chain]. intros (Hs & Hp & Hc).
  destruct (hdr_ext a m m' Ha Hx) as [-> ->]. naive_solver.
Qed.

Lemma ordered_le lo hi l : ordered lo hi l -> lo <= hi.
Proof. revert lo. induction l as [|[a s] l IH]; intros lo; [done|]. intros (H1 & _ & H2 & H3%IH). lia. Qed.

Lemma ordered_weaken lo lo' hi hi' l : lo' <= lo -> hi <= hi' -> ordered lo hi l -> ordered lo' hi' l.
Proof.
  revert lo lo'. induction l as [|[a s] l IH]; intros lo lo' Hlo Hhi; cbn [ordered]; [lia|].
  intros (H1 & H2 & H3 & H4). split_and!; [lia|done|lia|]. by eapply IH.
Qed.

Lemma ordered_app lo hi l1 l2 : ordered lo hi (l1 ++ l2) <-> exists mid, ordered lo mid l1 /\ ordered mid hi l2.
Proof.
  revert lo. induction l1 as [|[a s] l1 IH]; intros lo; cbn [app ordered].
  - split; [intros H; exists lo; split; [lia|done]|intros (mid & H1 & H2); by eapply ordered_weaken].
  - rewrite IH. naive_solver.
Qed.

Lemma ordered_block lo hi l a s : ordered lo hi l -> (a, s) ∈ l -> lo <= a /\ (8 | a) /\ 1 <= s /\ a + 8 * s <= hi.
Proof.
  intros H (l1 & l2 & ->)%list_elem_of_split.
  apply ordered_app in H as (mid & H1%ordered_le & H2 & H3 & H4 & H5%ordered_le). split_and!; [lia|done|lia|lia].
Qed.

(** ** Joining blocks *)

Definition merge (b : blk) (l : list blk) : list blk :=
  match l with
  | c :: t => if fst b + 8 * snd b =? fst c then (fst b, snd b + snd c) :: t else b :: l
  | [] => [b]
  end.

Lemma hd_merge b l e : hd e (fst <$> merge b l) = fst b.
Proof. destruct b as [a s], l as [|[n sn] l]; [done|]. cbn. by destruct (_ =? _). Qed.

Lemma merge_head b l : exists t l', merge b l = (fst b, t) :: l'.
Proof. destruct b as [a s], l as [|[n sn] l]; cbn; [by eexists _, _|]. destruct (_ =? _); by eexists _, _. Qed.

Lemma merge_ordered lo hi a s l : lo <= a -> (8 | a) -> 1 <= s -> ordered (a + 8 * s) hi l -> ordered lo hi (merge (a, s) l).
Proof.
  intros Hlo Ha Hs. destruct l as [|[n sn] l]; cbn [merge ordered fst snd]; [done|]. intros (H1 & H2 & H3 & H4).
  destruct (Z.eqb_spec (a + 8 * s) n) as [<-|]; cbn [ordered]; split_and!; try done; try lia.
  by replace (a + 8 * (s + sn)) with (a + 8 * s + 8 * sn) by lia.
Qed.

Lemma join_frame m a nx x : hdr_ok a -> ~ a <= x < a + 8 -> join m a nx x = m x.
Proof.
  intros Ha Hx. unfold join. destruct (_ =? _); rewrite put_ptr_frame by done; [|done]. by rewrite put_size_frame.
Qed.

Lemma hd_in_u32 lo hi l e : ordered lo hi l -> 0 <= lo /\ hi < 4294967296 -> in_u32 e -> in_u32 (hd e (fst <$> l)).
Proof. destruct l as [|[a s] l]; [done|]. cbn. intros (H1 & _ & H2 & H3%ordered_le) H _. hdr. Qed.

(** [join] of a block with the blocks [l] that follow it. *)
Lemma join_chain m a s l e : hdr_ok a -> 0 <= s -> size m a = s -> in_u32 e -> e <= a ->
  ordered (a + 8) 4294967280 l -> ordered (a + 8 * s) 4294967280 l -> chain m l e ->
  (l = [] -> e <> a + 8 * s) -> chain (join m a (hd e (fst <$> l))) (merge (a, s) l) e.
Proof.
  intros Ha Hs Hsz He Hea Ho8 Ho Hc Hne. pose proof (ordered_le _ _ _ Ho) as Hle.
  assert (Hk : hdrs_kept m (join m a (hd e (fst <$> l))) l).
  { apply Forall_forall. intros [n sn] Hn. destruct (ordered_block _ _ _ n sn Ho8 Hn) as (H1 & _ & H2 & H3). cbn [fst].
    split; [hdr|]. intros x Hx. apply join_frame; [done|lia]. }
  pose proof (chain_frame _ _ _ _ Hk Hc) as Hc'. revert Hk Hc'. unfold join. rewrite Hsz, hadd_eq by hdr.
  destruct l as [|[n sn] l]; cbn [fmap list_fmap hd merge fst snd].
  - intros _ _. rewrite (proj2 (Z.eqb_neq _ _)) by (intros E; by apply Hne). cbn [chain]. rewrite size_put_ptr, ptr_put_ptr by hdr. done.
  - destruct Ho8 as (H1 & _ & H2 & H3'). pose proof (ordered_le _ _ _ H3') as H3. destruct Hc as (Hn1 & Hn2 & Hc). intros Hk Hc'.
    destruct (Z.eqb_spec (a + 8 * s) n) as [En|]; cbn [chain].
    + assert (Hx : ptr (put_size a (u32 (s + size m n)) m) n = ptr m n).
      { apply hdr_ext; [hdr|]. intros x Hx. apply put_size_frame; [done|lia]. }
      assert (Hu : in_u32 (ptr m n)) by (rewrite Hn2; apply (hd_in_u32 _ _ _ _ H3'); [hdr|done]).
      rewrite Hx, size_put_ptr, size_put_size, ptr_put_ptr by (done || apply u32_bound). rewrite Hn1, Hn2.
      rewrite Hx, Hn1, Hn2 in Hc'. split_and!; [apply u32_id; hdr|done|apply Hc'].
    + rewrite size_put_ptr, ptr_put_ptr by hdr. done.
Qed.

(** ** The search of free *)

Lemma chain_lookup m l e j a s : chain m l e -> l !! j = Some (a, s) ->
  size m a = s /\ ptr m a = from_option fst e (l !! S j).
Proof.
  revert j. induction l as [|[b t] l IH]; intros [|j] Hc Hj; try done.
  - cbn in Hj. injection Hj as -> ->. destruct Hc as (H1 & H2 & _). split; [done|]. rewrite H2. cbn. by destruct l.
  - destruct Hc as (_ & _ & Hc). apply (IH j Hc Hj).
Qed.

Section free_loop.
Context (m : memory) (full : list blk) (base bp p : Z).
Hypothesis Hchain : chain m full base.
Context (kk : nat) (Hbase : fst <$> (full !! 0%nat) = Some base) (Hk : fst <$> (full !! kk) = Some p).
Hypothesis Hlow : forall i b, full !! i = Some b -> (i <= kk)%nat -> fst b < bp.
Hypothesis Hhigh : forall i b, full !! i = Some b -> (kk < i)%nat -> bp < fst b.
Hypothesis Hmin : forall i b, full !! i = Some b -> base <= fst b.
Hypothesis Hasc : forall i b c, full !! i = Some b -> full !! S i = Some c -> fst b < fst c.

Lemma free_loop_low d : forall j a s fuel, full !! j = Some (a, s) -> (j + d = kk)%nat -> (d < fuel)%nat -> free_loop fuel m bp a = Some p.
Proof.
  induction d as [|d IH]; intros j a s [|fuel] Hj Hd Hf; try lia; cbn [free_loop]; cbn zeta;
    destruct (chain_lookup m full base j a s Hchain Hj) as [_ Hp]; rewrite Hp.
  - assert (j = kk) as -> by lia. rewrite Hj in Hk. cbn in Hk. injection Hk as ->. pose proof (Hlow kk _ Hj ltac:(lia)) as Hl. cbn in Hl.
    destruct (full !! S kk) as [[n sn]|] eqn:En; cbn.
    + pose proof (Hhigh (S kk) _ En ltac:(lia)) as Hh. cbn in Hh. bool_cases.
    + pose proof (Hmin kk _ Hj) as Hm. cbn in Hm. bool_cases.
  - destruct (full !! S j) as [[n sn]|] eqn:En.
    + cbn [from_option fst]. pose proof (Hlow (S j) _ En ltac:(lia)) as Hl. pose proof (Hasc j _ _ Hj En) as Ha. cbn in Hl, Ha.
      bool_cases; by apply (IH (S j) n sn); [|lia..].
    + apply lookup_ge_None in En. destruct (full !! kk) eqn:E; [|done]. apply lookup_lt_Some in E. lia.
Qed.

Lemma free_loop_high d : forall j a s fuel, full !! j = Some (a, s) -> (kk < j)%nat -> (j + d = length full)%nat -> (d + kk < fuel)%nat ->
  free_loop fuel m bp a = Some p.
Proof.
  induction d as [|d IH]; intros j a s [|fuel] Hj Hjk Hd Hf; try lia; [by apply lookup_lt_Some in Hj; lia|].
  cbn [free_loop]. cbn zeta. destruct (chain_lookup m full base j a s Hchain Hj) as [_ ->].
  pose proof (Hhigh j _ Hj Hjk) as Hh. cbn in Hh. destruct (full !! S j) as [[n sn]|] eqn:En; cbn [from_option fst].
  - pose proof (Hasc j _ _ Hj En) as Ha. cbn in Ha. bool_cases. apply (IH (S j) n sn); [done|lia..].
  - destruct (full !! 0%nat) as [[b0 s0]|] eqn:E0; [|done]. cbn in Hbase. injection Hbase as ->.
    pose proof (Hlow 0 _ E0 ltac:(lia)) as Hl. cbn in Hl. bool_cases. apply (free_loop_low kk 0 base s0); [done|lia..].
Qed.

Lemma free_loop_finds j a s fuel : full !! j = Some (a, s) -> (length full <= fuel)%nat -> free_loop fuel m bp a = Some p.
Proof.
  intros Hj Hf. assert (kk < length full)%nat by (destruct (full !! kk) eqn:E; [by apply lookup_lt_Some in E|done]).
  destruct (decide (j <= kk)%nat).
  - apply (free_loop_low (kk - j) j a s); [done|lia..].
  - pose proof (lookup_lt_Some _ _ _ Hj). apply (free_loop_high (length full - j) j a s); [done|lia..].
Qed.
End free_loop.

(** ** The joins of free *)

Lemma free_link_frame m bp p x : hdr_ok bp -> hdr_ok p -> ~ bp <= x < bp + 8 -> ~ p <= x < p + 8 -> free_link m bp p x = m x.
Proof. intros Hb Hp Hx Hy. unfold free_link. by rewrite !join_frame. Qed.

Lemma free_link_chain m base pre p sp bp s l2 : 0 <= base <= p -> 0 <= sp -> p + 8 <= bp -> p + 8 * sp <= bp -> 1 <= s ->
  chain m (pre ++ (p, sp) :: l2) base -> size m bp = s -> ordered (bp + 8 * s) 4294967280 l2 ->
  (8 | bp) -> Forall (fun b => 0 <= fst b /\ fst b + 8 <= p) pre ->
  chain (free_link m bp p) (pre ++ merge (p, sp) (merge (bp, s) l2)) base.
Proof.
  intros Hb Hsp H8 Hpb Hs Hc Hsz Ho Hal Hpre. pose proof (ordered_le _ _ _ Ho) as Hle.
  apply chain_app in Hc as (Hc1 & Hp1 & Hp2 & Hc2). cbn [fst fmap list_fmap hd] in Hc1. unfold free_link. rewrite Hp2.
  assert (HL : chain (join m bp (hd base (fst <$> l2))) (merge (bp, s) l2) base).
  { apply join_chain; try done; try hdr. eapply ordered_weaken; [| |exact Ho]; lia. }
  set (m1 := join m bp _) in *. assert (Hf : forall x, ~ bp <= x < bp + 8 -> m1 x = m x) by (intros; apply join_frame; [hdr|done]).
  assert (Hne : merge (bp, s) l2 <> []) by (destruct l2 as [|[]]; cbn; [done|by destruct (_ =? _)]).
  change bp with (fst (bp, s)) at 1. rewrite <- (hd_merge (bp, s) l2 base). apply chain_app. rewrite (hd_merge (p, sp)). split.
  - eapply chain_frame; [|exact Hc1]. eapply Forall_impl; [exact Hpre|]. intros [a sa] [H0 H1]. cbn [fst] in *. split; [hdr|].
    intros x Hx. rewrite join_frame by (hdr || lia). apply Hf. lia.
  - apply join_chain; try done; try hdr.
    + rewrite <- Hp1. apply hdr_ext; [hdr|]. intros x Hx. apply Hf. lia.
    + by apply merge_ordered.
    + by apply merge_ordered.
Qed.

(** ** The invariant *)

Section heap.
Context (base : Z).

(** The free blocks are [l], the blocks handed out [A]. *)
Record heap_ok (h : heap) (l A : list blk) : Prop := {
  ok_base : 0 < base;
  ok_chain : chain (hmem h) ((base, 0) :: l) base;
  ok_ordered : ordered (base + 8) (brk h) l;
  ok_freep : freep h ∈ base :: (fst <$> l);
  ok_alloc : Forall (fun b => base + 8 <= fst b /\ (8 | fst b) /\ 1 <= snd b /\ fst b + 8 * snd b <= brk h /\
    size (hmem h) (fst b) = snd b) A;
  ok_apart : pairwise A;
  ok_disj : Forall (fun b => Forall (disj b) l) A;
  ok_brk : (8 | brk h) /\ brk h <= KERNBASE
}.

(** The bytes of the blocks [A]. *)
Definition owned (A : list blk) (x : Z) : Prop := Exists (fun b => fst b <= x < fst b + 8 * snd b) A.

Lemma disj_sym b c : disj b c -> disj c b.
Proof. unfold disj. lia. Qed.

Lemma pairwise_middle A1 b A2 : pairwise (A1 ++ b :: A2) <-> Forall (disj b) (A1 ++ A2) /\ pairwise (A1 ++ A2).
Proof.
  induction A1 as [|c A1 IH]; cbn [app pairwise]; [done|]. rewrite IH, !Forall_app, !Forall_cons, Forall_app.
  split; intros; split_and!; try naive_solver; apply disj_sym; naive_solver.
Qed.

(** A block apart from those of a list has its place in it. *)
Lemma ordered_split lo hi l bp s : ordered lo hi l -> lo <= bp -> 1 <= s -> bp + 8 * s <= hi -> Forall (disj (bp, s)) l ->
  exists l1 l2, l = l1 ++ l2 /\ ordered lo bp l1 /\ ordered (bp + 8 * s) hi l2.
Proof.
  revert lo. induction l as [|[a t] l IH]; intros lo Ho Hlo Hs Hhi Hd.
  - exists [], []. cbn in *. split_and!; [done|lia|lia].
  - apply Forall_cons in Hd as [[Hd|Hd] Hl]; cbn [fst snd] in Hd.
    + exists [], ((a, t) :: l). split_and!; [done|cbn; lia|]. destruct Ho as (H1 & H2 & H3 & H4). cbn [ordered]. split_and!; try done; lia.
    + destruct Ho as (H1 & H2 & H3 & H4). destruct (IH _ H4 Hd Hs Hhi Hl) as (l1 & l2 & -> & E1 & E2).
      exists ((a, t) :: l1), l2. done.
Qed.

Lemma ordered_next lo hi l i b c : ordered lo hi l -> l !! i = Some b -> l !! S i = Some c -> fst b + 8 * snd b <= fst c /\ 1 <= snd b.
Proof.
  revert lo i. induction l as [|[a t] l IH]; intros lo [|i]; try done.
  - cbn. intros (_ & _ & H3 & H4) [= <-]. destruct l as [|[a' t'] l]; [done|]. cbn. intros [= <-]. cbn. cbn in H4. lia.
  - intros (_ & _ & _ & H4). cbn. by apply IH with (1 := H4).
Qed.

Lemma full_next hi l i b c : ordered (base + 8) hi l -> ((base, 0) :: l) !! i = Some b -> ((base, 0) :: l) !! S i = Some c -> fst b < fst c.
Proof.
  intros Ho. destruct i as [|i]; cbn.
  - intros [= <-]. destruct l as [|[a s] l]; [done|]. intros [= <-]. cbn in *. lia.
  - intros H1 H2. destruct (ordered_next _ _ _ _ _ _ Ho H1 H2). lia.
Qed.

(** A block of at least [n] units. *)
Definition room (n : Z) (l : list blk) : Prop := Exists (fun c => n <= snd c) l.

Lemma merge_room_head lo hi b l : ordered lo hi l -> room (snd b) (merge b l).
Proof.
  destruct l as [|[n sn] l]; cbn [merge ordered]; intros H; [by constructor|].
  destruct (_ =? _); constructor; cbn; lia.
Qed.

Lemma merge_room n b l : 0 <= snd b -> room n l -> room n (merge b l).
Proof.
  intros Hb H. destruct l as [|c l]; [by inversion H|]. cbn [merge]. destruct (_ =? _); [|by right].
  apply Exists_cons in H as [H|H]; [left; cbn; lia|by right].
Qed.

Lemma length_merge b l : (length (merge b l) <= S (length l))%nat.
Proof. destruct l as [|c l]; cbn; [done|]. destruct (_ =? _); cbn; lia. Qed.

(** The pieces of the ring around the place of a block at [bp], and the ring
    when the blocks [L] from [bp] on are joined to it. *)
Lemma ring_split bp l1 : ordered (base + 8) bp l1 -> 0 < base ->
  exists pre p sp, (base, 0) :: l1 = pre ++ [(p, sp)] /\ base <= p /\ 0 <= sp /\ p + 8 <= bp /\ p + 8 * sp <= bp /\
    Forall (fun b => 0 <= fst b /\ fst b + 8 <= p) pre /\
    (forall hi L n, ordered bp hi L -> hd base (fst <$> L) = bp -> room n L ->
      exists l', pre ++ merge (p, sp) L = (base, 0) :: l' /\ ordered (base + 8) hi l' /\ room n l' /\ (length l' <= length l1 + length L)%nat).
Proof.
  intros Ho Hb. pose proof (ordered_le _ _ _ Ho) as Hle. destruct l1 as [|[p sp] l1 _] using rev_ind.
  - exists [], base, 0. split_and!; try done; try lia. intros hi L n HL Hhd Hn. exists L. split_and!; [| |done|cbn; lia].
    + destruct L as [|[a s] L]; cbn in *; [lia|]. subst. by rewrite (proj2 (Z.eqb_neq _ _)) by lia.
    + eapply ordered_weaken; [| |exact HL]; lia.
  - apply ordered_app in Ho as (mid & Ho1 & H1 & H2 & H3 & H4). pose proof (ordered_le _ _ _ Ho1) as Hle1. cbn in H4.
    exists ((base, 0) :: l1), p, sp. split_and!; try done; try lia.
    + constructor; [cbn; lia|]. apply Forall_forall. intros [a s] Hin. destruct (ordered_block _ _ _ _ _ Ho1 Hin). cbn. lia.
    + intros hi L n HL Hhd Hn. exists (l1 ++ merge (p, sp) L). split_and!; [done| | |].
      * apply ordered_app. exists mid. split; [done|]. apply merge_ordered; try done. eapply ordered_weaken; [| |exact HL]; lia.
      * apply Exists_app. right. apply merge_room; [cbn; lia|done].
      * pose proof (length_merge (p, sp) L). rewrite !length_app. cbn. lia.
Qed.

(** Memory that agrees on the blocks handed out has their headers. *)
Lemma alloc_frame m m' hi A : (forall x, owned A x -> m' x = m x) -> hi <= KERNBASE -> 0 < base ->
  Forall (fun b => base + 8 <= fst b /\ (8 | fst b) /\ 1 <= snd b /\ fst b + 8 * snd b <= hi /\ size m (fst b) = snd b) A ->
  Forall (fun b => base + 8 <= fst b /\ (8 | fst b) /\ 1 <= snd b /\ fst b + 8 * snd b <= hi /\ size m' (fst b) = snd b) A.
Proof.
  unfold KERNBASE. intros Hm Hhi Hb. rewrite !Forall_forall. intros HA b Hin. destruct (HA b Hin) as (H1 & H2 & H3 & H4 & H5). split_and!; try done.
  rewrite <- H5. apply hdr_ext; [hdr|]. intros x Hx. apply Hm. apply Exists_exists. exists b. split; [done|lia].
Qed.

(** ** free *)

Lemma free_finds m l1 l2 bp s pre p sp hi q fuel : 0 < base -> 1 <= s -> ordered (base + 8) bp l1 -> ordered (bp + 8 * s) hi l2 ->
  chain m ((base, 0) :: l1 ++ l2) base -> (base, 0) :: l1 = pre ++ [(p, sp)] -> q ∈ base :: (fst <$> l1 ++ l2) ->
  (length (l1 ++ l2) < fuel)%nat -> free_loop fuel m bp q = Some p.
Proof.
  intros Hb Hs Ho1 Ho2 Hc Efull Hq Hf. pose proof (ordered_le _ _ _ Ho1) as Hle.
  assert (Hfull : (base, 0) :: l1 ++ l2 = pre ++ (p, sp) :: l2) by (change ((base, 0) :: l1 ++ l2) with (((base, 0) :: l1) ++ l2); by rewrite Efull, <- app_assoc).
  assert (Hlen : length l1 = length pre) by (apply (f_equal length) in Efull; rewrite length_app in Efull; cbn in Efull; lia).
  assert (Hlow : forall b, b ∈ (base, 0) :: l1 -> base <= fst b < bp).
  { intros [a t] [E|Hin]%elem_of_cons; [injection E as -> ->; cbn; lia|]. destruct (ordered_block _ _ _ _ _ Ho1 Hin). cbn. lia. }
  assert (Hhigh : forall b, b ∈ l2 -> bp < fst b).
  { intros [a t] Hin. destruct (ordered_block _ _ _ _ _ Ho2 Hin). cbn. lia. }
  assert (Hqi : exists j t, ((base, 0) :: l1 ++ l2) !! j = Some (q, t)).
  { change (base :: (fst <$> l1 ++ l2)) with (fst <$> ((base, 0) :: l1 ++ l2)) in Hq. apply list_elem_of_fmap in Hq as ([a t] & -> & Hin).
    apply list_elem_of_lookup in Hin as [j Hj]. by exists j, t. }
  destruct Hqi as (j & t & Hj). apply (free_loop_finds m ((base, 0) :: l1 ++ l2) base bp p Hc (length l1)) with (j := j) (s := t); [done|..].
  - rewrite Hfull, Hlen. by rewrite list_lookup_middle.
  - intros i b Hi Hik. apply Hlow. apply list_elem_of_lookup. exists i. change ((base, 0) :: l1 ++ l2) with (((base, 0) :: l1) ++ l2) in Hi.
    rewrite lookup_app_l in Hi by (cbn; lia). done.
  - intros i b Hi Hik. apply Hhigh. apply list_elem_of_lookup. change ((base, 0) :: l1 ++ l2) with (((base, 0) :: l1) ++ l2) in Hi.
    rewrite lookup_app_r in Hi by (cbn; lia). by eexists.
  - intros i b Hi. apply list_elem_of_lookup_2 in Hi. change ((base, 0) :: l1 ++ l2) with (((base, 0) :: l1) ++ l2) in Hi.
    apply elem_of_app in Hi as [Hi|Hi]; [apply Hlow in Hi; lia|apply Hhigh in Hi; lia].
  - intros i b c. apply full_next with (hi := hi). apply ordered_app. exists bp. split; [done|]. eapply ordered_weaken; [| |exact Ho2]; lia.
  - done.
  - cbn. lia.
Qed.

Lemma merge_disj b c l : 1 <= snd b -> disj b c -> Forall (disj b) l -> Forall (disj b) (merge c l).
Proof.
  intros Hb Hc Hl. destruct l as [|d l]; cbn [merge]; [by constructor|].
  destruct (Z.eqb_spec (fst c + 8 * snd c) (fst d)) as [E|]; [|by constructor]. apply Forall_cons in Hl as [Hd Hl].
  constructor; [|done]. unfold disj in *. cbn [fst snd]. lia.
Qed.

Lemma owned_disj A b x : Forall (disj b) A -> 1 <= snd b -> owned A x -> ~ fst b <= x < fst b + 8.
Proof. intros H Hb Ho Hx. apply Exists_exists in Ho as (c & Hin & Hc). eapply Forall_forall in H; [|exact Hin]. unfold disj in H. lia. Qed.

Lemma remove_Forall {P : blk -> Prop} A1 b A2 : Forall P (A1 ++ b :: A2) -> P b /\ Forall P (A1 ++ A2).
Proof. rewrite !Forall_app, Forall_cons. naive_solver. Qed.

Lemma free_correct h l A1 b A2 fuel : heap_ok h l (A1 ++ b :: A2) -> (length l < fuel)%nat ->
  exists h' l', free fuel (fst b + 8) h = Some h' /\ heap_ok h' l' (A1 ++ A2) /\ room (snd b) l' /\ (length l' <= S (length l))%nat /\
    brk h' = brk h /\ (forall x, owned (A1 ++ A2) x -> hmem h' x = hmem h x).
Proof.
  intros [Hb Hc Ho Hf Ha Hp Hd [Hb8 Hbk]] Hfuel. destruct b as [bp s]. cbn [fst snd].
  apply remove_Forall in Ha as [(Hb1 & Hb2 & Hb3 & Hb4 & Hb5) Ha]. apply remove_Forall in Hd as [Hd' Hd].
  apply pairwise_middle in Hp as [Hp' Hp]. cbn [fst snd] in *. unfold KERNBASE in *.
  destruct (ordered_split _ _ _ bp s Ho Hb1 Hb3 Hb4 Hd') as (l1 & l2 & -> & Ho1 & Ho2).
  destruct (ring_split bp l1 Ho1 Hb) as (pre & p & sp & Efull & Hp1 & Hp2 & Hp3 & Hp4 & Hpre & Hring).
  destruct (Hring (brk h) (merge (bp, s) l2) s) as (l' & El' & Hol' & Hroom & Hlen);
    [by apply merge_ordered; [lia|..]|apply hd_merge|by eapply (merge_room_head _ _ (bp, s))|].
  assert (Hloop : free_loop fuel (hmem h) bp (freep h) = Some p) by (by eapply free_finds).
  assert (Hfull : forall Q : blk -> Prop, Q (base, 0) -> Forall Q (l1 ++ l2) -> Forall Q pre /\ Q (p, sp) /\ Forall Q l2).
  { intros Q HQ0 HQ. apply Forall_app in HQ as [HQ1 HQ2]. assert (HF : Forall Q ((base, 0) :: l1)) by (by constructor).
    rewrite Efull, Forall_app, Forall_singleton in HF. naive_solver. }
  assert (Hkeep : forall x, owned (A1 ++ A2) x -> free_link (hmem h) bp p x = hmem h x).
  { intros x Hx. apply free_link_frame; [hdr|hdr|by apply (owned_disj _ (bp, s) x Hp')|]. apply Exists_exists in Hx as (b & Hin & Hx).
    eapply Forall_forall in Ha as (Ha1 & _ & Ha2 & _); [|exact Hin]. eapply Forall_forall in Hd; [|exact Hin].
    destruct (Hfull (fun c => ~ fst c <= x < fst c + 8)) as (_ & HQ & _); [cbn; lia| |exact HQ].
    apply Forall_forall. intros [c sc] Hcin. eapply Forall_forall in Hd; [|exact Hcin].
    destruct (ordered_block _ _ _ _ _ Ho Hcin). unfold disj in Hd. cbn in *. lia. }
  eexists _, l'. split.
  { unfold free. replace (u32 (bp + 8 - HDR)) with bp by (unfold HDR; rewrite u32_id by hdr; lia). rewrite Hloop. reflexivity. }
  cbn [hmem brk set_freep set_hmem]. split_and!; [|done|rewrite length_app; pose proof (length_merge (bp, s) l2); lia|done|done].
  split; cbn [hmem brk set_freep set_hmem freep]; try done.
  - rewrite <- El'. apply free_link_chain; try done; try lia.
    + change ((p, sp) :: l2) with ([(p, sp)] ++ l2). rewrite app_assoc, <- Efull. done.
    + eapply ordered_weaken; [| |exact Ho2]; lia.
  - change (base :: (fst <$> l')) with (fst <$> ((base, 0) :: l')). rewrite <- El', fmap_app. apply elem_of_app. right.
    destruct (merge_head (p, sp) (merge (bp, s) l2)) as (t & L & ->). by left.
  - by apply (alloc_frame (hmem h)).
  - apply Forall_forall. intros b Hin. eapply Forall_forall in Ha as (Ha1 & _ & Ha2 & _); [|exact Hin]. eapply Forall_forall in Hd; [|exact Hin].
    eapply Forall_forall in Hp'; [|exact Hin]. destruct (Hfull (disj b)) as (HQ1 & HQ2 & HQ3); [unfold disj; cbn; lia|done|].
    assert (HF : Forall (disj b) ((base, 0) :: l')).
    { rewrite <- El'. apply Forall_app. split; [done|]. apply merge_disj; [done|done|]. apply merge_disj; [done|by apply disj_sym|done]. }
    by inversion HF.
Qed.
(** ** malloc *)

(** What is left of a block when [n] units are cut off its end. *)
Definition rest (p sp n : Z) (y : list blk) : list blk := if sp =? n then y else (p, sp - n) :: y.

Lemma rest_ordered lo hi p sp n y : 1 <= n <= sp -> ordered lo hi ((p, sp) :: y) -> ordered lo hi (rest p sp n y).
Proof.
  intros Hn (H1 & H2 & H3 & H4). unfold rest. destruct (Z.eqb_spec sp n).
  - eapply ordered_weaken; [| |exact H4]; lia.
  - cbn. split_and!; try done; [lia|]. eapply ordered_weaken; [| |exact H4]; lia.
Qed.

Lemma cut_ok h l1 p sp y A n m' f : heap_ok h (l1 ++ (p, sp) :: y) A -> 1 <= n <= sp ->
  (forall x, owned A x -> m' x = hmem h x) -> chain m' ((base, 0) :: l1 ++ rest p sp n y) base ->
  size m' (p + 8 * (sp - n)) = n -> f ∈ base :: (fst <$> l1 ++ rest p sp n y) ->
  heap_ok (mkheap m' f (brk h)) (l1 ++ rest p sp n y) ((p + 8 * (sp - n), n) :: A).
Proof.
  intros [Hb Hc Ho Hf Ha Hp Hd [Hb8 Hbk]] Hn Hm Hc' Hsz Hf'.
  pose proof Ho as Ho'. apply ordered_app in Ho' as (mid & Ho1 & Ho2). pose proof Ho2 as (Hp1 & Hp2 & Hp3 & Ho3).
  pose proof (ordered_le _ _ _ Ho1) as Hle1. pose proof (ordered_le _ _ _ Ho3) as Hle3.
  assert (Hall : forall b, disj b (p, sp) -> disj (p + 8 * (sp - n), n) b) by (unfold disj; cbn; intros; lia).
  split; cbn [hmem freep brk]; try done.
  - apply ordered_app. exists mid. split; [done|]. by apply rest_ordered.
  - constructor; [|by apply (alloc_frame (hmem h))]. cbn [fst snd]. split_and!; try lia. apply Z.divide_add_r; [done|]. by exists (sp - n); lia.
  - split; [|done]. eapply Forall_impl; [exact Hd|]. intros b Hb'. apply Hall. eapply Forall_forall; [exact Hb'|]. set_solver.
  - assert (Hin : forall c, c ∈ l1 ++ rest p sp n y -> c ∈ l1 \/ c = (p, sp - n) /\ sp <> n \/ c ∈ y).
    { intros c. unfold rest. destruct (Z.eqb_spec sp n); set_solver. }
    constructor.
    + apply Forall_forall. intros [c sc] [H|[[E _]|H]]%Hin.
      * destruct (ordered_block _ _ _ _ _ Ho1 H). unfold disj. cbn. lia.
      * injection E as -> ->. unfold disj. cbn. lia.
      * destruct (ordered_block _ _ _ _ _ Ho3 H). unfold disj. cbn. lia.
    + eapply Forall_impl; [exact Hd|]. intros b. rewrite !Forall_forall. intros Hb' c [H|[[-> _]|H]]%Hin; [apply Hb'; set_solver| |apply Hb'; set_solver].
      specialize (Hb' (p, sp) ltac:(set_solver)). unfold disj in *. cbn in *. lia.
Qed.

Lemma malloc_take_mem h n x q sq p sp y : 0 < base <= q -> q + 8 <= p -> p + 8 * sp <= 4294967280 -> 1 <= n <= sp ->
  Forall (fun b => 0 <= fst b /\ fst b + 8 <= q) x -> Forall (fun b => hdr_ok (fst b) /\ p + 8 * sp <= fst b) y ->
  chain (hmem h) (x ++ (q, sq) :: (p, sp) :: y) base ->
  let '(r, h') := malloc_take n q p h in
  r = p + 8 * (sp - n) + 8 /\ brk h' = brk h /\ freep h' = q /\
  (forall z, ~ p <= z < p + 8 * sp -> ~ q <= z < q + 8 -> hmem h' z = hmem h z) /\
  chain (hmem h') (x ++ (q, sq) :: rest p sp n y) base /\ size (hmem h') (p + 8 * (sp - n)) = n.
Proof.
  intros Hb Hq Hp Hn Hx Hy (Hcx & Hq1 & Hq2 & Hp1 & Hp2 & Hcy)%chain_app. cbn [fst fmap list_fmap hd] in *.
  unfold malloc_take, rest. rewrite Hp1. destruct (Z.eqb_spec sp n) as [<-|Esp]; cbn [brk freep hmem set_hmem set_freep].
  - assert (Hu : in_u32 (ptr (hmem h) p)).
    { rewrite Hp2. destruct y as [|c y]; [cbn; hdr|]. apply Forall_cons in Hy as [[Hc _] _]. cbn. hdr. }
    rewrite Z.sub_diag, Z.mul_0_r, Z.add_0_r. split_and!; try done.
    + rewrite hadd_eq by hdr. lia.
    + intros z Hz1 Hz2. apply put_ptr_frame; [hdr|done].
    + apply chain_app. split; [|cbn [chain]; split_and!].
      * eapply chain_frame; [|exact Hcx]. eapply Forall_impl; [exact Hx|]. intros b [Hbx1 Hbx2]. split; [hdr|]. intros z Hz. apply put_ptr_frame; [hdr|lia].
      * by rewrite size_put_ptr by hdr.
      * by rewrite ptr_put_ptr by hdr.
      * eapply chain_frame; [|exact Hcy]. eapply Forall_impl; [exact Hy|]. intros b [Hbx1 Hbx2]. split; [hdr|]. intros z Hz. apply put_ptr_frame; [hdr|lia].
    + rewrite <- Hp1. apply hdr_ext; [hdr|]. intros z Hz. apply put_ptr_frame; [hdr|lia].
  - rewrite (u32_id (sp - n)) by hdr. rewrite size_put_size by hdr. rewrite (hadd_eq p (sp - n)) by hdr. set (p' := p + 8 * (sp - n)).
    assert (Hfr : forall z, ~ p <= z < p + 8 -> ~ p' <= z < p' + 8 -> put_size p' n (put_size p (sp - n) (hmem h)) z = hmem h z).
    { intros z Hz1 Hz2. rewrite !put_size_frame by hdr. done. }
    assert (Hp' : p + 8 <= p' /\ p' + 8 <= p + 8 * sp) by lia.
    destruct (hdr_ext p (put_size p (sp - n) (hmem h)) (put_size p' n (put_size p (sp - n) (hmem h)))) as [Ep Es];
      [hdr|intros z Hz; apply put_size_frame; [hdr|lia]|].
    split_and!; try done.
    + rewrite hadd_eq by hdr. lia.
    + intros z Hz1 Hz2. apply Hfr; lia.
    + apply chain_app. split; [|cbn [chain]; split_and!].
      * eapply chain_frame; [|exact Hcx]. eapply Forall_impl; [exact Hx|]. intros b [Hbx1 Hbx2]. split; [hdr|]. intros z Hz. apply Hfr; lia.
      * rewrite <- Hq1. apply hdr_ext; [hdr|]. intros z Hz. apply Hfr; lia.
      * transitivity (ptr (hmem h) q); [|done]. apply hdr_ext; [hdr|]. intros z Hz. apply Hfr; lia.
      * by rewrite Es, size_put_size by hdr.
      * by rewrite Ep, ptr_put_size by hdr.
      * eapply chain_frame; [|exact Hcy]. eapply Forall_impl; [exact Hy|]. intros b [Hbx1 Hbx2]. split; [hdr|]. intros z Hz. apply Hfr; lia.
    + by rewrite size_put_size by hdr.
Qed.

Lemma malloc_take_ok h l A n x q sq p sp y : heap_ok h l A -> (base, 0) :: l = x ++ (q, sq) :: (p, sp) :: y -> 1 <= n <= sp ->
  let '(r, h') := malloc_take n q p h in
  exists l', heap_ok h' l' ((r - 8, n) :: A) /\ base < r /\ brk h' = brk h /\ (forall z, owned A z -> hmem h' z = hmem h z).
Proof.
  intros Hok E Hn. pose proof Hok as [Hb Hc Ho Hf Ha Hp Hd [Hb8 Hbk]]. unfold KERNBASE in Hbk.
  assert (El : exists l1, l = l1 ++ (p, sp) :: y /\ (base, 0) :: l1 = x ++ [(q, sq)]).
  { destruct x as [|b x]; injection E as E1 E2; subst; [by exists []|]. exists (x ++ [(q, sq)]). by rewrite <- app_assoc. }
  destruct El as (l1 & -> & E1). rewrite E in Hc. apply chain_app in Hc as (Hcx & Hq1 & Hq2 & Hp1 & Hp2 & Hcy).
  pose proof Ho as Ho'. apply ordered_app in Ho' as (mid & Ho1 & Ho2 & Ho3 & Ho4 & Ho5). pose proof (ordered_le _ _ _ Ho5) as Hle5.
  destruct (ring_split p l1) as (x' & q' & sq' & E2 & Hq3 & _ & Hq4 & _ & Hx & _); [by eapply ordered_weaken; [| |exact Ho1]|done|].
  rewrite E1 in E2. apply app_inj_tail in E2 as [<- [= <- <-]].
  assert (Hy : Forall (fun b => hdr_ok (fst b) /\ p + 8 * sp <= fst b) y).
  { apply Forall_forall. intros [c sc] Hin. destruct (ordered_block _ _ _ _ _ Ho5 Hin). cbn. split; [hdr|lia]. }
  assert (Hown : forall z, owned A z -> ~ p <= z < p + 8 * sp /\ ~ q <= z < q + 8).
  { intros z (b & Hin & Hz)%Exists_exists. eapply Forall_forall in Ha as (Ha1 & _ & Ha2 & _); [|exact Hin]. eapply Forall_forall in Hd; [|exact Hin].
    assert (Hd0 : Forall (fun c => ~ fst c <= z < fst c + 8) ((base, 0) :: l1 ++ (p, sp) :: y)).
    { constructor; [cbn; lia|]. apply Forall_forall. intros [c sc] Hc. eapply Forall_forall in Hd; [|exact Hc].
      destruct (ordered_block _ _ _ _ _ Ho Hc). unfold disj in Hd. cbn in *. lia. }
    split; [eapply Forall_forall in Hd; [|apply elem_of_app; right; by left]; unfold disj in Hd; cbn in Hd; lia|].
    rewrite Forall_forall in Hd0. apply (Hd0 (q, sq)). rewrite E. set_solver. }
  pose proof (malloc_take_mem h n x q sq p sp y ltac:(lia) Hq4 ltac:(lia) Hn Hx Hy) as Hcut. destruct (malloc_take n q p h) as [r h'].
  destruct Hcut as (-> & Hbrk & Hfp & Hm' & Hch & Hsz); [by apply chain_app|].
  assert (Hm : forall z, owned A z -> hmem h' z = hmem h z) by (intros z Hz; apply Hm'; by apply Hown).
  exists (l1 ++ rest p sp n y). split_and!; [|lia|done|done].
  replace (p + 8 * (sp - n) + 8 - 8) with (p + 8 * (sp - n)) by lia. destruct h' as [m' f b']. cbn [brk freep hmem] in *. subst b' f.
  apply (cut_ok h); try done.
  - change ((base, 0) :: l1 ++ rest p sp n y) with (((base, 0) :: l1) ++ rest p sp n y). by rewrite E1, <- app_assoc.
  - change (base :: (fst <$> l1 ++ rest p sp n y)) with (fst <$> (((base, 0) :: l1) ++ rest p sp n y)). rewrite E1, <- app_assoc, fmap_app. set_solver.
Qed.

(** ** The search of malloc *)

Context (granted : Z -> Z -> bool).
Implicit Types (l A y : list blk).

(** The address of the last block of [y], [q] when there is none. *)
Definition last_addr (q : Z) (y : list blk) : Z := default q (fst <$> last y).

Lemma last_addr_split b y : exists x sq, b :: y = x ++ [(last_addr (fst b) y, sq)].
Proof.
  destruct y as [|[a s] y _] using rev_ind; [exists [], (snd b); by destruct b|]. exists (b :: y), s.
  unfold last_addr. by rewrite last_snoc.
Qed.

Lemma last_addr_cons q b y : last_addr q (b :: y) = last_addr (fst b) y.
Proof. unfold last_addr. rewrite last_cons. by destruct (last y). Qed.

Lemma scan_list h n y : forall q e fuel, chain (hmem h) y e -> Forall (fun b => fst b <> freep h) y -> (length y <= fuel)%nat ->
  (exists y1 p sp y2, y = y1 ++ (p, sp) :: y2 /\ n <= sp /\
    malloc_loop granted fuel n q (hd e (fst <$> y)) h = Some (malloc_take n (last_addr q y1) p h)) \/
  (Forall (fun b => snd b < n) y /\
    malloc_loop granted fuel n q (hd e (fst <$> y)) h = malloc_loop granted (fuel - length y) n (last_addr q y) e h).
Proof.
  induction y as [|[a s] y IH]; intros q e fuel Hc Hf Hlen.
  { right. split; [done|]. cbn. by rewrite Nat.sub_0_r. }
  destruct fuel as [|fuel]; [cbn in Hlen; lia|]. destruct Hc as (H1 & H2 & Hc). apply Forall_cons in Hf as [Ha Hf].
  cbn [malloc_loop fmap list_fmap hd fst]. rewrite H1. destruct (Z.leb_spec n s) as [Hs|Hs].
  { left. exists [], a, s, y. done. }
  rewrite (proj2 (Z.eqb_neq _ _)) by done. rewrite H2.
  destruct (IH a e fuel Hc Hf ltac:(cbn in Hlen; lia)) as [(y1 & p & sp & y2 & -> & Hsp & ->)|[Hy ->]].
  - left. exists ((a, s) :: y1), p, sp, y2. rewrite last_addr_cons. done.
  - right. split; [by constructor|]. by rewrite last_addr_cons.
Qed.

Lemma not_room n l : Forall (fun b => snd b < n) l -> ~ room n l.
Proof. intros H (b & Hin & Hb)%Exists_exists. eapply Forall_forall in H; [|exact Hin]. cbn in H. lia. Qed.

(** The search either takes a block that is big enough or comes back to
    freep, with every block too small. *)
Lemma scan h l A n fuel : heap_ok h l A -> 1 <= n -> (S (length l) < fuel)%nat ->
  let r := malloc_loop granted fuel n (freep h) (ptr (hmem h) (freep h)) h in
  (exists x q sq p sp y, (base, 0) :: l = x ++ (q, sq) :: (p, sp) :: y /\ n <= sp /\ r = Some (malloc_take n q p h)) \/
  (~ room n l /\ exists fuel' prev, (fuel <= S fuel' + S (length l))%nat /\ r = malloc_loop granted (S fuel') n prev (freep h) h /\
    size (hmem h) (freep h) < n).
Proof.
  intros [Hb Hc Ho Hf Ha Hp Hd Hbk] Hn Hfuel r.
  assert (Hne : forall b, b ∈ l -> fst b <> base) by (intros [a s] Hin; destruct (ordered_block _ _ _ _ _ Ho Hin); cbn; lia).
  assert (Htake : forall b y1 p sp y2 pre, (base, 0) :: l = pre ++ b :: y1 ++ (p, sp) :: y2 ->
    exists x sq, (base, 0) :: l = x ++ (last_addr (fst b) y1, sq) :: (p, sp) :: y2).
  { intros b y1 p sp y2 pre E. destruct (last_addr_split b y1) as (x & sq & Ex). exists (pre ++ x), sq.
    rewrite E. change (b :: y1 ++ (p, sp) :: y2) with ((b :: y1) ++ (p, sp) :: y2). rewrite Ex. by rewrite <- !app_assoc. }
  pose proof Hc as (Hb0 & Hb1 & Hcl). subst r. destruct (decide (freep h = base)) as [Ef|Ef].
  - rewrite Ef, Hb1. destruct (scan_list h n l base base fuel Hcl) as [(y1 & p & sp & y2 & El & Hsp & ->)|[Hsm ->]].
    + rewrite Ef. by apply Forall_forall.
    + lia.
    + left. destruct (Htake (base, 0) y1 p sp y2 []) as (x & sq & E); [by rewrite El|]. eauto 10.
    + right. split; [by apply not_room|]. exists (fuel - length l - 1)%nat, (last_addr base l). split_and!; [lia| |rewrite Hb0; lia]. f_equal. lia.
  - assert (Hin : freep h ∈ fst <$> l) by set_solver. apply list_elem_of_fmap in Hin as ([f sf] & Ef' & Hin). cbn in Ef'.
    apply list_elem_of_split in Hin as (z & y & ->). apply ordered_app in Ho as (mid & Ho1 & Ho2 & _ & Ho4 & Ho5).
    apply chain_app in Hcl as (Hcz & Hf1 & Hf2 & Hcy). cbn [fst fmap list_fmap hd] in Hcz. rewrite length_app in *. cbn [length] in *. rewrite Ef', Hf2.
    destruct (scan_list h n y f base fuel Hcy) as [(y1 & p & sp & y2 & -> & Hsp & ->)|[Hsm ->]].
    + apply Forall_forall. intros [c sc] Hc'. destruct (ordered_block _ _ _ _ _ Ho5 Hc'). rewrite Ef'. cbn. lia.
    + lia.
    + left. destruct (Htake (f, sf) y1 p sp y2 ((base, 0) :: z)) as (x & sq & E); [done|]. eauto 10.
    + destruct (fuel - length y)%nat as [|fuel1] eqn:E1; [lia|]. cbn [malloc_loop]. rewrite Hb0, Hb1.
      rewrite (proj2 (Z.leb_gt _ _)) by lia. rewrite (proj2 (Z.eqb_neq _ _)) by done.
      assert (Eh : hd base (fst <$> z ++ (f, sf) :: y) = hd f (fst <$> z)) by (by destruct z). rewrite Eh.
      destruct (scan_list h n z base f fuel1 Hcz) as [(y1 & p & sp & y2 & -> & Hsp & ->)|[Hsz ->]].
      * apply Forall_forall. intros [c sc] Hc'. destruct (ordered_block _ _ _ _ _ Ho1 Hc'). rewrite Ef'. cbn. lia.
      * lia.
      * left. destruct (Htake (base, 0) y1 p sp (y2 ++ (f, sf) :: y) []) as (x & sq & E); [by rewrite <- app_assoc|]. eauto 10.
      * destruct (fuel1 - length z)%nat as [|fuel2] eqn:E2; [lia|]. destruct (Z.leb_spec n sf) as [Hsf|Hsf].
        -- left. destruct (Htake (base, 0) z f sf y []) as (x & sq & E); [done|]. exists x, (last_addr base z), sq, f, sf, y. split_and!; [done|done|].
           cbn [malloc_loop]. rewrite Hf1, (proj2 (Z.leb_le _ _)) by done. done.
        -- right. split; [apply not_room, Forall_app; split; [done|by constructor]|]. exists fuel2, (last_addr base z). split_and!; [lia|done|lia].
Qed.

(** ** Memory from the kernel *)

(** The new memory as a block handed out. *)
Lemma grow_ok h l A nu : heap_ok h l A -> 1 <= nu -> brk h + 8 * nu <= KERNBASE ->
  heap_ok (mkheap (put_size (brk h) nu (hmem h)) (freep h) (brk h + 8 * nu)) l ((brk h, nu) :: A).
Proof.
  intros [Hb Hc Ho Hf Ha Hp Hd [Hb8 Hbk]] Hnu Hk. unfold KERNBASE in *. pose proof (ordered_le _ _ _ Ho) as Hle.
  assert (Hm : forall x, x < brk h -> put_size (brk h) nu (hmem h) x = hmem h x) by (intros; apply put_size_frame; [hdr|lia]).
  split; cbn [hmem freep brk]; try done.
  - eapply chain_frame; [|exact Hc]. constructor; [cbn; split; [hdr|intros; apply Hm; lia]|]. apply Forall_forall. intros [a s] Hin.
    destruct (ordered_block _ _ _ _ _ Ho Hin). cbn. split; [hdr|intros; apply Hm; lia].
  - eapply ordered_weaken; [| |exact Ho]; lia.
  - constructor; [cbn; split_and!; try done; try lia; by rewrite size_put_size by hdr|]. apply (alloc_frame (hmem h)); try done.
    + intros x (b & Hin & Hx)%Exists_exists. eapply Forall_forall in Ha as (Ha1 & _ & _ & Ha2 & _); [|exact Hin]. apply Hm. lia.
    + eapply Forall_impl; [exact Ha|]. intros b (H1 & H2 & H3 & H4 & H5). split_and!; try done; lia.
  - split; [|done]. eapply Forall_impl; [exact Ha|]. intros b (H1 & H2 & H3 & H4 & H5). unfold disj. cbn. lia.
  - constructor; [|done]. apply Forall_forall. intros [a s] Hin. destruct (ordered_block _ _ _ _ _ Ho Hin). unfold disj. cbn. lia.
  - split; [|done]. apply Z.divide_add_r; [done|]. by exists nu; lia.
Qed.

(** The kernel does not let the process grow by the memory morecore asks
    for. *)
Definition refused (h : heap) (nu : Z) : Prop :=
  let new := brk h + 8 * Z.max nu 4096 in KERNBASE <= new \/ granted (brk h) new = false.

Lemma morecore_ok h l A nu fuel : heap_ok h l A -> 1 <= nu < 2 ^ 28 -> (length l < fuel)%nat ->
  refused h nu /\ morecore granted fuel nu h = Some (0, h) \/
  exists h' l', morecore granted fuel nu h = Some (freep h', h') /\ heap_ok h' l' A /\ room nu l' /\ (length l' <= S (length l))%nat /\
    brk h <= brk h' /\ (forall x, owned A x -> hmem h' x = hmem h x).
Proof.
  intros Hok Hnu Hfuel. pose proof Hok as [Hb _ Ho _ Ha _ _ [_ Hbk]]. pose proof (ordered_le _ _ _ Ho) as Hle. unfold morecore.
  replace (if nu <? 4096 then 4096 else nu) with (Z.max nu 4096) by (destruct (Z.ltb_spec nu 4096); lia).
  unfold refused. set (nu' := Z.max nu 4096). assert (Hnu' : nu <= nu' < 2 ^ 28) by lia.
  unfold HDR, KERNBASE in *. assert (Ei : i32 (u32 (nu' * 8)) = 8 * nu') by (rewrite u32_id by hdr; rewrite i32_id by lia; lia).
  rewrite Ei. unfold sbrk. cbn zeta. rewrite (proj2 (Z.ltb_lt _ _)), (u32_id (brk h + 8 * nu')) by hdr.
  unfold KERNBASE. destruct (Z.leb_spec 2147483648 (brk h + 8 * nu')); [left; split; [by left|done]|]. rewrite (proj2 (Z.ltb_ge _ _)) by lia.
  destruct (granted (brk h) (brk h + 8 * nu')); [|left; split; [by right|done]]. right. rewrite (proj2 (Z.eqb_neq _ _)) by lia.
  cbn [set_hmem set_brk hmem freep brk]. rewrite hadd_eq by hdr. replace (brk h + 8 * 1) with (brk h + 8) by lia.
  destruct (free_correct _ l [] (brk h, nu') A fuel (grow_ok h l A nu' Hok ltac:(lia) ltac:(unfold KERNBASE; lia)) Hfuel)
    as (h' & l' & Hfree & Hok' & Hr & Hl & Hbr & Hm).
  cbn [fst snd] in Hfree. unfold set_hmem, set_brk. cbn [hmem freep brk]. rewrite Hfree. exists h', l'. split_and!; try done.
  - eapply Exists_impl; [exact Hr|]. cbn. intros; lia.
  - rewrite Hbr. cbn. lia.
  - intros x Hx. rewrite Hm by done. cbn. apply put_size_frame; [hdr|]. apply Exists_exists in Hx as (b & Hin & Hx). eapply Forall_forall in Ha as (Ha1 & _ & _ & Ha2 & _); [|exact Hin]. lia.
Qed.

Lemma freep_pos h l A : heap_ok h l A -> freep h <> 0.
Proof.
  intros [Hb _ Ho Hf _ _ _ _]. apply elem_of_cons in Hf as [->|Hf]; [lia|]. apply list_elem_of_fmap in Hf as ([a s] & -> & Hin).
  destruct (ordered_block _ _ _ _ _ Ho Hin). cbn. lia.
Qed.

Lemma malloc_loop_ok h l A n fuel : heap_ok h l A -> 1 <= n < 2 ^ 28 -> (2 * length l + 6 <= fuel)%nat ->
  exists r h', malloc_loop granted fuel n (freep h) (ptr (hmem h) (freep h)) h = Some (r, h') /\ brk h <= brk h' /\
    (forall x, owned A x -> hmem h' x = hmem h x) /\
    ((r = 0 /\ ~ room n l /\ refused h n /\ h' = h) \/ (base < r /\ exists l', heap_ok h' l' ((r - 8, n) :: A))).
Proof.
  assert (Htake : forall h l x q sq p sp y, heap_ok h l A -> (base, 0) :: l = x ++ (q, sq) :: (p, sp) :: y -> 1 <= n <= sp ->
    exists r h', malloc_take n q p h = (r, h') /\ brk h <= brk h' /\ (forall x, owned A x -> hmem h' x = hmem h x) /\
    (base < r /\ exists l', heap_ok h' l' ((r - 8, n) :: A))).
  { intros h0 l0 x q sq p sp y Hok E Hn. pose proof (malloc_take_ok h0 l0 A n x q sq p sp y Hok E Hn) as Ht.
    destruct (malloc_take n q p h0) as [r h']. destruct Ht as (l' & H1 & H2 & H3 & H4). exists r, h'. split_and!; [done|lia|done|done|by exists l']. }
  intros Hok Hn Hfuel. destruct (scan h l A n fuel Hok) as [(x & q & sq & p & sp & y & E & Hsp & ->)|(Hnr & fuel' & prev & Hf' & -> & Hs)]; [lia|lia| |].
  - destruct (Htake h l x q sq p sp y Hok E ltac:(lia)) as (r & h' & -> & H1 & H2 & H3). eauto 10.
  - cbn [malloc_loop]. rewrite (proj2 (Z.leb_gt _ _)), Z.eqb_refl by lia.
    destruct (morecore_ok h l A n (S fuel') Hok Hn ltac:(lia)) as [[Href ->]|(h' & l' & -> & Hok' & Hr & Hlen & Hbr & Hm)].
    + cbn. exists 0, h. split_and!; [done|lia|done|by left].
    + cbn [mbind option_bind]. rewrite (proj2 (Z.eqb_neq _ _)) by (by eapply freep_pos).
      destruct (scan h' l' A n fuel' Hok') as [(x & q & sq & p & sp & y & E & Hsp & ->)|(Hnr' & _)]; [lia|lia| |done].
      destruct (Htake h' l' x q sq p sp y Hok' E ltac:(lia)) as (r & h'' & -> & H1 & H2 & H3). exists r, h''. split_and!; [done|lia| |by right].
      intros z Hz. by rewrite H2, Hm.
Qed.

(** ** Bounds on the turns *)

Lemma free_loop_mono m bp q fuel fuel' p : free_loop fuel m bp p = Some q -> (fuel <= fuel')%nat -> free_loop fuel' m bp p = Some q.
Proof.
  revert fuel' p. induction fuel as [|fuel IH]; intros [|fuel'] p H Hle; try done; [lia|]. cbn [free_loop] in *.
  repeat (destruct (_ && _); [done|]). apply IH; [done|lia].
Qed.

Lemma free_mono fuel fuel' ap h h' : free fuel ap h = Some h' -> (fuel <= fuel')%nat -> free fuel' ap h = Some h'.
Proof.
  unfold free. intros H Hle. destruct (free_loop fuel _ _ _) as [q|] eqn:E; [|done]. by rewrite (free_loop_mono _ _ _ _ _ _ E Hle).
Qed.

Lemma morecore_mono fuel fuel' nu h r : morecore granted fuel nu h = Some r -> (fuel <= fuel')%nat -> morecore granted fuel' nu h = Some r.
Proof.
  unfold morecore. intros H Hle. destruct (sbrk _ _ _) as [p h1]. destruct (p =? -1); [done|].
  destruct (free fuel _ _) as [h2|] eqn:E; [|done]. by rewrite (free_mono _ _ _ _ _ E Hle).
Qed.

Lemma malloc_loop_mono n fuel fuel' q p h r : malloc_loop granted fuel n q p h = Some r -> (fuel <= fuel')%nat ->
  malloc_loop granted fuel' n q p h = Some r.
Proof.
  revert fuel' q p h. induction fuel as [|fuel IH]; intros [|fuel'] q p h H Hle; try done; [lia|]. cbn [malloc_loop] in *.
  destruct (_ <=? _); [done|]. destruct (_ =? _); [|apply IH; [done|lia]].
  destruct (morecore granted (S fuel) n h) as [[p' h']|] eqn:E; [|done]. rewrite (morecore_mono _ (S fuel') _ _ _ E Hle). cbn in *.
  destruct (_ =? 0); [done|]. apply IH; [done|lia].
Qed.

(** ** Runs *)

(** The heap of a program before its first malloc. *)
Definition fresh (h : heap) : Prop :=
  freep h = 0 /\ 0 < base /\ base + 8 <= brk h /\ (8 | brk h) /\ brk h <= KERNBASE.

Definition heap_inv (h : heap) (A : list blk) : Prop := (fresh h /\ A = []) \/ exists l, heap_ok h l A.

Lemma malloc_init_fresh h : fresh h -> heap_ok (malloc_init base h) [] [] /\ brk (malloc_init base h) = brk h.
Proof.
  intros (Hf & Hb & Hk & H8 & Hkb). unfold malloc_init. rewrite Hf. cbn [Z.eqb]. unfold KERNBASE in *. split; [|done].
  split; cbn [hmem freep brk set_freep set_hmem]; try done; [|set_solver].
  cbn. rewrite size_put_size, ptr_put_size, ptr_put_ptr by hdr. done.
Qed.

Lemma malloc_init_ok h l A : heap_ok h l A -> malloc_init base h = h.
Proof. intros Hok. unfold malloc_init. rewrite (proj2 (Z.eqb_neq _ _)) by (by eapply freep_pos). done. Qed.

(** The steps of a program: malloc of less than 2 GB, free of a block it
    holds, and writes to the bytes of its blocks. *)
Inductive hstep : heap * list blk -> heap * list blk -> Prop :=
| hs_malloc n fuel h A r h' : 0 <= n < 2147483632 -> malloc base granted fuel n h = Some (r, h') ->
    hstep (h, A) (h', if r =? 0 then A else (r - 8, units n) :: A)
| hs_free A1 b A2 fuel h h' : free fuel (fst b + 8) h = Some h' -> hstep (h, A1 ++ b :: A2) (h', A1 ++ A2)
| hs_write b A h x v : b ∈ A -> fst b + 8 <= x < fst b + 8 * snd b -> hstep (h, A) (set_hmem (store8 x v (hmem h)) h, A).

Lemma malloc_start h A : heap_inv h A -> exists l, heap_ok (malloc_init base h) l A /\ brk (malloc_init base h) = brk h.
Proof.
  intros [[Hf ->]|[l Hok]].
  - destruct (malloc_init_fresh h Hf) as [H1 H2]. by exists [].
  - exists l. by rewrite (malloc_init_ok h l A).
Qed.

Lemma malloc_step_inv h A n fuel r h' : heap_inv h A -> 0 <= n < 2147483632 -> malloc base granted fuel n h = Some (r, h') ->
  heap_inv h' (if r =? 0 then A else (r - 8, units n) :: A).
Proof.
  intros Hi Hn Hm. destruct (malloc_start h A Hi) as (l & Hok & _). destruct (units_bounds n Hn) as (Eu & Hu & _).
  unfold malloc in Hm. rewrite Eu in Hm. apply (malloc_loop_mono _ _ (fuel + 2 * length l + 6)) in Hm; [|lia].
  destruct (malloc_loop_ok (malloc_init base h) l A (units n) (fuel + 2 * length l + 6) Hok Hu ltac:(lia)) as (r' & h1 & E & _ & _ & Hr).
  rewrite E in Hm. injection Hm as -> ->. pose proof (ok_base _ _ _ Hok). right.
  destruct Hr as [(-> & _ & _ & ->)|(Hr & l' & Hok')]; [by exists l|]. rewrite (proj2 (Z.eqb_neq _ _)) by lia. by exists l'.
Qed.

Lemma write_inv h A b x v : heap_inv h A -> b ∈ A -> fst b + 8 <= x < fst b + 8 * snd b -> heap_inv (set_hmem (store8 x v (hmem h)) h) A.
Proof.
  intros [[_ ->]|[l [Hb Hc Ho Hf Ha Hp Hd [Hb8 Hbk]]]] Hin Hx; [set_solver|]. right. exists l. unfold KERNBASE in *.
  apply list_elem_of_split in Hin as (A1 & A2 & ->). pose proof Ha as Ha'. apply remove_Forall in Ha' as [(Hb1 & Hb2 & Hb3 & Hb4 & Hb5) Ha2].
  pose proof Hd as Hd'. apply remove_Forall in Hd' as [Hdb _]. pose proof Hp as Hp'. apply pairwise_middle in Hp' as [Hpb _].
  assert (Hm : forall a, hdr_ok a -> ~ a <= x < a + 8 -> forall z, a <= z < a + 8 -> store8 x v (hmem h) z = hmem h z).
  { intros a _ Hax z Hz. unfold store8. rewrite (proj2 (Z.eqb_neq _ _)) by lia. done. }
  split; cbn [hmem freep brk set_hmem]; try done.
  - eapply chain_frame; [|exact Hc]. constructor; [cbn; split; [hdr|]; apply Hm; [hdr|lia]|]. apply Forall_forall. intros [c sc] Hin.
    destruct (ordered_block _ _ _ _ _ Ho Hin). eapply Forall_forall in Hdb; [|exact Hin]. unfold disj in Hdb. cbn in *.
    split; [hdr|]. apply Hm; [hdr|lia].
  - apply Forall_forall. intros c Hin. pose proof (proj1 (Forall_forall _ _) Ha c Hin) as (H1 & H2 & H3 & H4 & H5). split_and!; try done.
    rewrite <- H5. apply hdr_ext; [hdr|]. apply Hm; [hdr|]. apply elem_of_app in Hin.
    assert (Hc' : c = b \/ c ∈ A1 ++ A2) by set_solver. destruct Hc' as [->|Hc']; [lia|].
    eapply Forall_forall in Hpb; [|exact Hc']. unfold disj in Hpb. lia.
Qed.

Lemma hstep_inv s s' : hstep s s' -> heap_inv (fst s) (snd s) -> heap_inv (fst s') (snd s').
Proof.
  intros [n fuel h A r h' Hn Hm|A1 b A2 fuel h h' Hf|b A h x v Hin Hx] Hi; cbn [fst snd] in *.
  - by eapply malloc_step_inv.
  - destruct Hi as [[_ Hi]|[l Hok]]; [by destruct A1|]. right. apply (free_mono _ (fuel + S (length l))) in Hf; [|lia].
    destruct (free_correct h l A1 b A2 (fuel + S (length l)) Hok ltac:(lia)) as (h1 & l' & E & Hok' & _). rewrite E in Hf. injection Hf as ->. by exists l'.
  - by eapply write_inv.
Qed.

Lemma heap_inv_blocks h A : heap_inv h A -> pairwise A /\ Forall (fun b => base + 8 <= fst b /\ (8 | fst b) /\ fst b + 8 * snd b <= brk h) A.
Proof.
  intros [[_ ->]|[l [_ _ _ _ Ha Hp _ _]]]; [done|]. split; [done|]. eapply Forall_impl; [exact Ha|]. naive_solver.
Qed.
End heap.

Lemma rtc_preserves {S} (R : S -> S -> Prop) (I : S -> Prop) : (forall s s', R s s' -> I s -> I s') -> forall s s', rtc R s s' -> I s -> I s'.
Proof. intros HR s s' Hr. induction Hr; eauto. Qed.

(** The states of the heap: before the first call, with no block free or
    handed out, or with the free blocks [l] and the blocks handed out [A]. *)
Definition heap_state (base : Z) (h : heap) (l A : list blk) : Prop :=
  (fresh base h /\ l = [] /\ A = []) \/ heap_ok base h l A.

Lemma heap_state_init base h l A : heap_state base h l A ->
  heap_ok base (malloc_init base h) l A /\ brk (malloc_init base h) = brk h /\ (forall x, owned A x -> hmem (malloc_init base h) x = hmem h x).
Proof.
  intros [(Hf & -> & ->)|Hok].
  - destruct (malloc_init_fresh base (fun _ _ => true) h Hf) as [Hok Hb]. split_and!; [done..|]. intros x Hx. by apply Exists_nil in Hx.
  - by rewrite (malloc_init_ok base h l A Hok).
Qed.

(** C29. malloc(n) for n < 2^31 - 16, in any state of the heap, the first
    call included: with a bound of twice the number of free blocks plus 6 the
    search ends.  It returns a pointer to a new block of at least n bytes,
    apart from the blocks handed out before and from the free ones (the
    invariant of the heap with that block added); or 0, with the heap as it
    was (on the first call, with the empty ring set up), when no free block is
    big enough and the kernel refuses more memory.  The bytes of the blocks
    handed out before are unchanged. *)
Theorem malloc_correct (base : Z) (granted : Z -> Z -> bool) (h : heap) (l A : list blk) (n : Z) (fuel : nat) :
  heap_state base h l A -> 0 <= n < 2147483632 -> (2 * length l + 6 <= fuel)%nat ->
  exists r h', malloc base granted fuel n h = Some (r, h') /\
    (forall x, owned A x -> hmem h' x = hmem h x) /\
    ((r = 0 /\ ~ room (units n) l /\ refused granted h (units n) /\ h' = malloc_init base h /\ heap_ok base h' l A) \/
     (exists l', heap_ok base h' l' ((r - 8, units n) :: A) /\ n <= 8 * (units n - 1))).
Proof.
  intros Hst Hn Hfuel. destruct (heap_state_init base h l A Hst) as (Hok & Hb & Hkeep).
  destruct (units_bounds n Hn) as (Eu & Hu & Hnu). unfold malloc. rewrite Eu.
  destruct (malloc_loop_ok base granted (malloc_init base h) l A (units n) fuel Hok Hu Hfuel) as (r & h' & E & _ & Hm & Hr).
  exists r, h'. split_and!; [done|intros x Hx; by rewrite Hm, Hkeep|].
  destruct Hr as [(Hr0 & Hno & Href & ->)|(_ & l' & Hok')]; [left|right; by exists l'].
  split_and!; try done. unfold refused in *. by rewrite <- Hb.
Qed.

(** C22. Over all runs of a program that asks for less than 2^31 - 16 bytes
    at a time, frees blocks it holds and writes only to bytes of its blocks, starting
    with the untouched heap: the blocks it holds are pairwise disjoint, lie
    between the static data and the end of the process, and are aligned to
    8 bytes. *)
Theorem heap_runs_safe (base : Z) (granted : Z -> Z -> bool) (h0 h : heap) (A : list blk) :
  fresh base h0 -> rtc (hstep base granted) (h0, []) (h, A) ->
  pairwise A /\ Forall (fun b => base + 8 <= fst b /\ (8 | fst b) /\ fst b + 8 * snd b <= brk h) A.
Proof.
  intros Hf Hr. apply (heap_inv_blocks base granted). assert (Hi : heap_inv base h0 []) by (by left).
  apply (rtc_preserves (hstep base granted) (fun s => heap_inv base (fst s) (snd s)) (hstep_inv base granted) _ _ Hr Hi).
Qed.

(** *** A heap with one block handed out, on a page from the kernel *)

Definition heap0 : heap := mkheap (fun _ => 0) 0 0x3000.
Definition heap1 : heap := default heap0 (snd <$> malloc 0x1000 (fun _ _ => true) 10 100 heap0).

Lemma malloc_correct_witness :
  (exists r h', malloc 0x1000 (fun _ _ => true) 6 100 heap0 = Some (r, h') /\ exists l', heap_ok 0x1000 h' l' [(r - 8, 14)]) /\
  (exists r h', malloc 0x1000 (fun _ _ => true) 10 24 heap1 = Some (r, h') /\ exists l', heap_ok 0x1000 h' l' ((r - 8, 4) :: [(0xAF90, 14)])).
Proof.
  split.
  { destruct (malloc_correct 0x1000 (fun _ _ => true) heap0 [] [] 100 6) as (r & h' & E & _ & Hr).
    - left. split_and!; [|done..]. vm_compute. split_and!; try done. by exists 1536.
    - lia.
    - cbn. lia.
    - exists r, h'. split; [exact E|]. destruct Hr as [(_ & _ & Hno & _)|(l' & Hok & _)]; [|by exists l'].
      exfalso. destruct Hno as [Hno|Hno]; [by apply Hno|discriminate Hno]. }
  destruct (malloc_correct 0x1000 (fun _ _ => true) heap1 [(0x3000, 4082)] [(0xAF90, 14)] 24 10) as (r & h' & E & _ & Hr).
  - right. split.
    + lia.
    + vm_compute. done.
    + vm_compute. split_and!; try done. by exists 1536.
    + vm_compute. set_solver.
    + repeat constructor; try (vm_compute; done). cbn. by exists 5618.
    + vm_compute. repeat constructor.
    + constructor; [|constructor]. constructor; [|constructor]. right. cbn. lia.
    + vm_compute. split; [by exists 5632|done].
  - lia.
  - cbn. lia.
  - exists r, h'. split; [exact E|]. destruct Hr as [(_ & Hno & _)|(l' & Hok & _)].
    + exfalso. apply Hno. left. cbn. done.
    + exists l'. exact Hok.
Defined.

Lemma heap_runs_safe_witness : exists A, rtc (hstep 0x1000 (fun _ _ => true)) (heap0, []) (heap1, A) /\ pairwise A /\ length A = 1%nat.
Proof.
  exists [(0xAF90, 14)].
  assert (Hr : rtc (hstep 0x1000 (fun _ _ => true)) (heap0, []) (heap1, [(0xAF90, 14)])).
  { eapply rtc_l; [|apply rtc_refl]. apply (hs_malloc 0x1000 (fun _ _ => true) 100 10 heap0 [] 0xAF98 heap1); [lia|].
    assert (E : fst <$> malloc 0x1000 (fun _ _ => true) 10 100 heap0 = Some 0xAF98) by (vm_compute; reflexivity).
    unfold heap1. destruct (malloc 0x1000 (fun _ _ => true) 10 100 heap0) as [[r h]|]; [|discriminate E]. injection E as ->. reflexivity. }
  split; [exact Hr|]. split; [|reflexivity].
  destruct (heap_runs_safe 0x1000 (fun _ _ => true) heap0 heap1 [(0xAF90, 14)]) as [H _].
  - vm_compute. split_and!; try done. by exists 1536.
  - exact Hr.
  - exact H.
Defined.
