(* ===== verification/Uprog.v ===== *)
(** * Small user programs: cat.c, wc.c, ls.c, echo.c, kill.c, ln.c, mkdir.c, rm.c

    A program is a computation over system calls: [sys] is what the kernel
    answers, the result of the call and the bytes it stores for the caller,
    in a state of the rest of the system.  A program returns, exits, or has
    used up the bound on the turns of its loops.  wc is shown to count
    lines, words and characters however read cuts up the input; fmtname of
    ls to be the last element of the path, padded. *)

From stdpp Require Import base numbers strings list.
From S2P Require Import Prelude Digits Ulib.

Local Open Scope Z_scope.

Inductive ucall : Type :=
| Open (path : bytes) (mode : Z)
| Read (fd n : Z)
| Write (fd : Z) (bs : bytes)
| Close (fd : Z)
| Fstat (fd : Z)
| Kill (pid : Z)
| Link (old new : bytes)
| Mkdir (path : bytes)
| Unlink (path : bytes)
| Fork
| Wait
| Exec (path : bytes) (argv : list bytes)
| Dup (fd : Z)
| Pipe
| Mknod (path : bytes) (major minor : Z)
| Chdir (path : bytes)
| Sleep (n : Z)
| SetSchedPolicy (policy : Z)
| Getpinfo
| Yield.

Inductive uout (F A : Type) : Type :=
| Done (a : A) (f : F)
| Exited (f : F)
| Stuck.
Arguments Done {F A}.
Arguments Exited {F A}.
Arguments Stuck {F A}.

Definition U (F A : Type) : Type := F -> uout F A.

#[export] Instance U_ret F : MRet (U F) := fun A a f => Done a f.
#[export] Instance U_bind F : MBind (U F) := fun A B k m f =>
  match m f with
  | Done a f' => k a f'
  | Exited f' => Exited f'
  | Stuck => Stuck
  end.

(** Text of C strings. *)
Definition text (s : string) : bytes := (fun a => Z.of_nat (Ascii.nat_of_ascii a)) <$> String.list_ascii_of_string s.
Definition nl : bytes := [10].
Definition dec (n : Z) : bytes := printint n 10 true.

Definition DIRSIZ : nat := 14.

(** *** ls.c: fmtname *)

(** The loop from the end of the path back to the last slash: the bytes
    after it. *)
Fixpoint after_slash (p : bytes) (acc : bytes) : bytes :=
  match p with
  | [] => acc
  | b :: p => if b =? 47 then acc else after_slash p (b :: acc)
  end.

(** [path] are the bytes before the NUL; the result as printed. *)
Definition fmtname (path : bytes) : bytes :=
  let p := after_slash (rev path) [] in
  if Nat.leb DIRSIZ (length p) then p
  else p ++ replicate (DIRSIZ - length p) 32.

Section programs.
Context {F : Type} (sys : ucall -> F -> Z * bytes * F).
Abbreviation U := (U F).

Definition call (u : ucall) : U (Z * bytes) := fun f => let '(r, bs, f) := sys u f in Done (r, bs) f.
Definition exit {A} : U A := fun f => Exited f.
Definition stuck {A} : U A := fun _ => Stuck.

(** ulib.c: stat *)
Definition stat (n : bytes) : U (Z * bytes) :=
  '(fd, _) ← call (Open n 0);
  if fd <? 0 then mret (-1, [])
  else
    '(r, st) ← call (Fstat fd);
    call (Close fd);;
    mret (r, st).

(** printf: one write for each character. *)
Fixpoint print (fd : Z) (bs : bytes) : U unit :=
  match bs with
  | [] => mret tt
  | b :: bs => call (Write fd [b]);; print fd bs
  end.

(** *** echo.c *)

Fixpoint echo_loop (args : list bytes) : U unit :=
  match args with
  | [] => mret tt
  | a :: args => print 1 (a ++ match args with [] => nl | _ => [32] end);; echo_loop args
  end.

Definition echo (args : list bytes) : U unit := echo_loop args;; exit.

(** *** kill.c *)

Fixpoint kill_loop (args : list bytes) : U unit :=
  match args with
  | [] => mret tt
  | a :: args => call (Kill (atoi a));; kill_loop args
  end.

Definition kill (args : list bytes) : U unit :=
  match args with
  | [] => print 2 (text "usage: kill pid..." ++ nl);; exit
  | _ => kill_loop args;; exit
  end.

(** *** ln.c *)

Definition ln (args : list bytes) : U unit :=
  match args with
  | [old; new] =>
      r ← call (Link old new);
      (if fst r <? 0 then print 2 (text "link " ++ old ++ [32] ++ new ++ text ": failed" ++ nl) else mret tt);;
      exit
  | _ => print 2 (text "Usage: ln old new" ++ nl);; exit
  end.

(** *** mkdir.c and rm.c: up to the first failure *)

Fixpoint mkdir_loop (args : list bytes) : U unit :=
  match args with
  | [] => mret tt
  | a :: args =>
      r ← call (Mkdir a);
      if fst r <? 0 then print 2 (text "mkdir: " ++ a ++ text " failed to create" ++ nl) else mkdir_loop args
  end.

Definition mkdir (args : list bytes) : U unit :=
  match args with
  | [] => print 2 (text "Usage: mkdir files..." ++ nl);; exit
  | _ => mkdir_loop args;; exit
  end.

Fixpoint rm_loop (args : list bytes) : U unit :=
  match args with
  | [] => mret tt
  | a :: args =>
      r ← call (Unlink a);
      if fst r <? 0 then print 2 (text "rm: " ++ a ++ text " failed to delete" ++ nl) else rm_loop args
  end.

Definition rm (args : list bytes) : U unit :=
  match args with
  | [] => print 2 (text "Usage: rm files..." ++ nl);; exit
  | _ => rm_loop args;; exit
  end.

(** *** cat.c *)

Fixpoint cat (fuel : nat) (fd : Z) : U unit :=
  match fuel with
  | O => stuck
  | S fuel =>
      r ← call (Read fd 512);
      let '(n, buf) := r in
      if 0 <? n then
        w ← call (Write 1 (take (Z.to_nat n) buf));
        if negb (fst w =? n) then print 1 (text "cat: write error" ++ nl);; exit
        else cat fuel fd
      else if n <? 0 then print 1 (text "cat: read error" ++ nl);; exit
      else mret tt
  end.

Fixpoint cat_files (fuel : nat) (args : list bytes) : U unit :=
  match args with
  | [] => mret tt
  | a :: args =>
      r ← call (Open a 0);
      if fst r <? 0 then print 1 (text "cat: cannot open " ++ a ++ nl);; exit
      else cat fuel (fst r);; call (Close (fst r));; cat_files fuel args
  end.

Definition cat_main (fuel : nat) (args : list bytes) : U unit :=
  match args with
  | [] => cat fuel 0;; exit
  | _ => cat_files fuel args;; exit
  end.

(** *** wc.c *)

Definition wc_space (b : Z) : bool := existsb (Z.eqb b) [32; 13; 9; 10; 11].

(** l, w, c and inword. *)
Notation counts := (Z * Z * Z * bool)%type.

Definition wc_char (s : counts) (b : Z) : counts :=
  let '(l, w, c, inword) := s in
  let c := c + 1 in
  let l := if b =? 10 then l + 1 else l in
  if wc_space b then (l, w, c, false)
  else if negb inword then (l, w + 1, c, true)
  else (l, w, c, inword).

Fixpoint wc_loop (fuel : nat) (fd : Z) (s : counts) : U (Z * counts) :=
  match fuel with
  | O => stuck
  | S fuel =>
      r ← call (Read fd 512);
      let '(n, buf) := r in
      if 0 <? n then wc_loop fuel fd (foldl wc_char s (take (Z.to_nat n) buf))
      else mret (n, s)
  end.

Definition wc (fuel : nat) (fd : Z) (name : bytes) : U unit :=
  r ← wc_loop fuel fd (0, 0, 0, false);
  let '(n, (l, w, c, _)) := r in
  if n <? 0 then print 1 (text "wc: read error" ++ nl);; exit
  else print 1 (dec l ++ [32] ++ dec w ++ [32] ++ dec c ++ [32] ++ name ++ nl).

Fixpoint wc_files (fuel : nat) (args : list bytes) : U unit :=
  match args with
  | [] => mret tt
  | a :: args =>
      r ← call (Open a 0);
      if fst r <? 0 then print 1 (text "wc: cannot open " ++ a ++ nl);; exit
      else wc fuel (fst r) a;; call (Close (fst r));; wc_files fuel args
  end.

Definition wc_main (fuel : nat) (args : list bytes) : U unit :=
  match args with
  | [] => wc fuel 0 [];; exit
  | _ => wc_files fuel args;; exit
  end.

(** *** ls.c *)

(** The fields of the struct stat a call stores. *)
Definition st_type (st : bytes) : Z := i16 (get_u16 0 st).
Definition st_ino (st : bytes) : Z := get_u32 8 st.
Definition st_size (st : bytes) : Z := get_u32 16 st.

Definition ls_line (name st : bytes) : bytes :=
  name ++ [32] ++ dec (st_type st) ++ [32] ++ dec (i32 (st_ino st)) ++ [32] ++ dec (i32 (st_size st)) ++ nl.

(** The bytes of a C string buffer before its NUL. *)
Fixpoint before_nul (bs : bytes) : bytes :=
  match bs with
  | [] => []
  | b :: bs => if b =? 0 then [] else b :: before_nul bs
  end.

Fixpoint ls_dir (fuel : nat) (fd : Z) (path : bytes) : U unit :=
  match fuel with
  | O => stuck
  | S fuel =>
      r ← call (Read fd 16);
      let '(n, de) := r in
      if negb (n =? 16) then mret tt
      else if get_u16 0 de =? 0 then ls_dir fuel fd path
      else
        let buf := path ++ [47] ++ before_nul (bsub 2 DIRSIZ de) in
        st ← stat buf;
        (if fst st <? 0 then print 1 (text "ls: cannot stat " ++ buf ++ nl)
         else print 1 (ls_line (fmtname buf) (snd st)));;
        ls_dir fuel fd path
  end.

Definition ls (fuel : nat) (path : bytes) : U unit :=
  r ← call (Open path 0);
  let fd := fst r in
  if fd <? 0 then print 2 (text "ls: cannot open " ++ path ++ nl)
  else
    st ← call (Fstat fd);
    if fst st <? 0 then print 2 (text "ls: cannot stat " ++ path ++ nl);; call (Close fd);; mret tt
    else
      (if st_type (snd st) =? 2 then print 1 (ls_line (fmtname path) (snd st))
       else if st_type (snd st) =? 1 then
         if 512 <? Z.of_nat (length path) + 1 + 14 + 1 then print 1 (text "ls: path too long" ++ nl)
         else ls_dir fuel fd path
       else mret tt);;
      call (Close fd);; mret tt.

Fixpoint ls_all (fuel : nat) (args : list bytes) : U unit :=
  match args with
  | [] => mret tt
  | a :: args => ls fuel a;; ls_all fuel args
  end.

Definition ls_main (fuel : nat) (args : list bytes) : U unit :=
  match args with
  | [] => ls fuel (text ".");; exit
  | _ => ls_all fuel args;; exit
  end.

End programs.

(** ** What wc counts *)

(** The words of a text: the longest runs of characters that are not white
    space; [cur] is the run read so far. *)
Fixpoint words_from (cur : bytes) (l : bytes) : list bytes :=
  match l with
  | [] => match cur with [] => [] | _ => [cur] end
  | b :: l =>
      if wc_space b then match cur with [] => words_from [] l | _ => cur :: words_from [] l end
      else words_from (cur ++ [b]) l
  end.

Definition words (l : bytes) : list bytes := words_from [] l.

Definition lines (l : bytes) : nat := length (filter (fun b => b = 10) l).

Lemma wc_chars l : forall n w c cur,
  let '(n', w', c', _) := foldl wc_char (n, w, c, negb (bool_decide (cur = []))) l in
  n' = n + Z.of_nat (lines l) /\ c' = c + Z.of_nat (length l) /\
  w' = w + Z.of_nat (length (words_from cur l)) - (if bool_decide (cur = []) then 0 else 1).
Proof.
  induction l as [|b l IH]; intros n w c cur.
  { cbn. destruct cur; cbn; lia. }
  cbn [foldl]. unfold wc_char at 2. cbn zeta.
  assert (Hl : (if b =? 10 then n + 1 else n) = n + Z.of_nat (lines [b])).
  { unfold lines. rewrite filter_cons, filter_nil. destruct (Z.eqb_spec b 10) as [->|]; [rewrite decide_True|rewrite decide_False]; cbn; try done; lia. }
  assert (Hb : Z.of_nat (lines (b :: l)) = Z.of_nat (lines [b]) + Z.of_nat (lines l)).
  { unfold lines. rewrite !filter_cons, filter_nil. case_decide; cbn; lia. }
  rewrite Hl. cbn [words_from]. destruct (wc_space b).
  - specialize (IH (n + Z.of_nat (lines [b])) w (c + 1) []). cbn [bool_decide negb] in IH.
    destruct (foldl wc_char _ l) as [[[n' w'] c'] i']. destruct IH as (-> & -> & ->). destruct cur; cbn [length]; rewrite Hb; cbn; split_and!; lia.
  - destruct cur as [|b0 cur].
    + specialize (IH (n + Z.of_nat (lines [b])) (w + 1) (c + 1) [b]). cbn -[lines Z.of_nat] in IH |- *.
      destruct (foldl wc_char _ l) as [[[n' w'] c'] i']. destruct IH as (-> & -> & ->). split_and!; lia.
    + specialize (IH (n + Z.of_nat (lines [b])) w (c + 1) ((b0 :: cur) ++ [b])). cbn -[lines Z.of_nat] in IH |- *.
      destruct (foldl wc_char _ l) as [[[n' w'] c'] i']. destruct IH as (-> & -> & ->). split_and!; lia.
Qed.

(** Reading [fd] in pieces of at most [k] bytes from state [f] gives
    [content] and then the end of the file, in state [f']. *)
Inductive feeds {F : Type} (sys : ucall -> F -> Z * bytes * F) (fd k : Z) : F -> bytes -> F -> Prop :=
| feeds_end f f' bs : sys (Read fd k) f = (0, bs, f') -> feeds sys fd k f [] f'
| feeds_more f f1 f' piece rest : piece <> [] -> sys (Read fd k) f = (Z.of_nat (length piece), piece, f1) ->
    feeds sys fd k f1 rest f' -> feeds sys fd k f (piece ++ rest) f'.

Lemma wc_loop_run {F} (sys : ucall -> F -> Z * bytes * F) fd f content f' : feeds sys fd 512 f content f' ->
  forall fuel s, (length content < fuel)%nat -> wc_loop sys fuel fd s f = Done (0, foldl wc_char s content) f'.
Proof.
  induction 1 as [f f' bs Hs|f f1 f' piece rest Hne Hs _ IH]; intros [|fuel] s Hf; try lia; cbn [wc_loop]; unfold mbind, U_bind, call; rewrite Hs.
  - done.
  - destruct piece as [|b piece]; [done|]. rewrite (proj2 (Z.ltb_lt _ _)) by (cbn; lia). rewrite Nat2Z.id, take_ge by done.
    rewrite length_app in Hf. cbn [length] in Hf. rewrite IH by lia. by rewrite foldl_app.
Qed.

(** wc prints the number of lines, words and characters of its input,
    however read cuts the input into pieces: lines are newlines, words the
    longest runs without white space.  A bound of one more turn than there
    are characters is enough. *)
Theorem wc_correct {F : Type} (sys : ucall -> F -> Z * bytes * F) (fd : Z) (name : bytes) (f : F) (content : bytes) (f' : F) (fuel : nat) :
  feeds sys fd 512 f content f' -> (length content < fuel)%nat ->
  wc sys fuel fd name f =
    print sys 1 (dec (Z.of_nat (lines content)) ++ [32] ++ dec (Z.of_nat (length (words content))) ++ [32] ++
                 dec (Z.of_nat (length content)) ++ [32] ++ name ++ nl) f'.
Proof.
  intros Hf Hfuel. unfold wc. unfold mbind at 1, U_bind at 1. rewrite (wc_loop_run sys fd f content f' Hf fuel _ Hfuel).
  pose proof (wc_chars content 0 0 0 []) as H. cbn [bool_decide negb] in H.
  change (negb (bool_decide ([] = @nil Z))) with false in H. destruct (foldl wc_char _ content) as [[[n w] c] i].
  destruct H as (-> & -> & ->). cbn [Z.ltb Z.compare]. unfold words. rewrite Z.sub_0_r, !Z.add_0_l. done.
Qed.

(** *** A file read in two pieces *)

(** The state: the pieces still to be read and the characters printed. *)
Definition pieces_sys (u : ucall) (f : list bytes * bytes) : Z * bytes * (list bytes * bytes) :=
  match u, f with
  | Read _ _, (p :: ps, out) => (Z.of_nat (length p), p, (ps, out))
  | Write _ bs, (ps, out) => (Z.of_nat (length bs), [], (ps, out ++ bs))
  | _, _ => (0, [], f)
  end.

Lemma wc_correct_witness :
  wc pieces_sys 20 3 (text "f") ([text "one tw"; text "o three" ++ nl], []) = Done tt ([], text "1 3 14 f" ++ nl).
Proof.
  rewrite (wc_correct pieces_sys 3 (text "f") _ (text "one tw" ++ (text "o three" ++ nl) ++ []) ([], []) 20).
  - vm_compute. reflexivity.
  - apply (feeds_more _ _ _ _ ([text "o three" ++ nl], [])); [discriminate|reflexivity|].
    apply (feeds_more _ _ _ _ ([], [])); [discriminate|reflexivity|]. apply (feeds_end _ _ _ _ _ []). reflexivity.
  - vm_compute. lia.
Defined.

(** ** fmtname *)

Lemma after_slash_skip l rest acc : Forall (fun b => b <> 47) l -> after_slash (l ++ rest) acc = after_slash rest (rev l ++ acc).
Proof.
  intros H. revert acc. induction H as [|b l Hb _ IH]; intros acc; [done|]. cbn [app after_slash rev].
  rewrite (proj2 (Z.eqb_neq _ _) Hb), IH. by rewrite <- app_assoc.
Qed.

(** fmtname gives the element of the path after its last slash (the whole
    path when there is none), padded with blanks to DIRSIZ characters. *)
Theorem fmtname_last (dir name : bytes) : Forall (fun b => b <> 47) name ->
  let padded := name ++ replicate (DIRSIZ - length name) 32 in
  fmtname (dir ++ 47 :: name) = padded /\ fmtname name = padded.
Proof.
  intros H. apply Forall_rev in H. assert (Hn : forall rest, after_slash (rev name ++ 47 :: rest) [] = name /\ after_slash (rev name ++ []) [] = name).
  { intros rest. rewrite !after_slash_skip by done. cbn. by rewrite rev_involutive, app_nil_r. }
  cbn zeta. assert (Hp : (if Nat.leb DIRSIZ (length name) then name else name ++ replicate (DIRSIZ - length name) 32) = name ++ replicate (DIRSIZ - length name) 32).
  { destruct (Nat.leb_spec DIRSIZ (length name)) as [Hl|]; [|done]. replace (DIRSIZ - length name)%nat with 0%nat by lia. by rewrite app_nil_r. }
  unfold fmtname. rewrite rev_app_distr. cbn [rev]. rewrite <- app_assoc. cbn [app].
  rewrite (proj1 (Hn _)). rewrite <- (app_nil_r (rev name)), (proj2 (Hn [])). done.
Qed.
