(* ===== verification/Uproc.v ===== *)
(** * User programs that start processes: init.c, zombie.c, forktest.c,
      stressfs.c, pinfo.c and the main loop of sh.c

    The programs are computations over system calls as in Uprog.v, seen from
    one process: where fork answers 0 the computation is the one of the
    child.  forktest is shown to pass on every kernel that runs out of
    processes before N forks; init to start a shell again whenever one ends
    and never to exit itself. *)

From stdpp Require Import base numbers strings list.
From S2P Require Import Prelude Digits Ulib Sh Uprog.

Local Open Scope Z_scope.

Definition O_RDONLY : Z := 0x000.
Definition O_RDWR : Z := 0x002.
Definition O_CREATE : Z := 0x200.
Definition NPROC : nat := 64.

Section programs.
Context {F : Type} (sys : ucall -> F -> Z * bytes * F).
Abbreviation U := (U F).
Abbreviation call := (call sys).
Abbreviation print := (print sys).

(** The value of a system call. *)
Definition scall (u : ucall) : U Z := '(r, _) ← call u; mret r.

(** *** zombie.c *)

Definition zombie : U unit :=
  pid ← scall Fork;
  (if 0 <? pid then scall (Sleep 5);; mret tt else mret tt);;
  exit.

(** *** init.c *)

(** while((wpid=wait()) >= 0 && wpid != pid) *)
Fixpoint reap (fuel : nat) (pid : Z) : U unit :=
  match fuel with
  | O => stuck
  | S fuel =>
      wpid ← scall Wait;
      if (0 <=? wpid) && negb (wpid =? pid) then print 1 (text "zombie!" ++ nl);; reap fuel pid else mret tt
  end.

(** [n] turns of the loop; the bound is used up after them. *)
Fixpoint init_loop (n fuel : nat) : U unit :=
  match n with
  | O => stuck
  | S n =>
      print 1 (text "init: starting sh" ++ nl);;
      pid ← scall Fork;
      if pid <? 0 then print 1 (text "init: fork failed" ++ nl);; exit
      else if pid =? 0 then
        scall (Exec (text "sh") [text "sh"]);;
        print 1 (text "init: exec sh failed" ++ nl);;
        exit
      else reap fuel pid;; init_loop n fuel
  end.

Definition init (n fuel : nat) : U unit :=
  fd ← scall (Open (text "console") O_RDWR);
  (if fd <? 0 then scall (Mknod (text "console") 1 1);; scall (Open (text "console") O_RDWR);; mret tt else mret tt);;
  scall (Dup 0);;
  scall (Dup 0);;
  init_loop n fuel.

(** *** forktest.c *)

Definition N : nat := 1000.

(** The program's own printf: one write of the whole string. *)
Definition ft_printf (fd : Z) (s : bytes) : U unit := scall (Write fd s);; mret tt.

(** The first loop, with [k] turns left: the number of children. *)
Fixpoint ft_forks (k n : nat) : U nat :=
  match k with
  | O => mret n
  | S k =>
      pid ← scall Fork;
      if pid <? 0 then mret n
      else if pid =? 0 then exit
      else ft_forks k (S n)
  end.

Fixpoint ft_waits (n : nat) : U unit :=
  match n with
  | O => mret tt
  | S n =>
      r ← scall Wait;
      if r <? 0 then ft_printf 1 (text "wait stopped early" ++ nl);; exit else ft_waits n
  end.

Definition forktest : U unit :=
  ft_printf 1 (text "fork test" ++ nl);;
  n ← ft_forks N 0;
  if Nat.eqb n N then ft_printf 1 (text "fork claimed to work N times!" ++ nl);; exit
  else
    ft_waits n;;
    r ← scall Wait;
    if negb (r =? -1) then ft_printf 1 (text "wait got too many" ++ nl);; exit
    else ft_printf 1 (text "fork test OK" ++ nl).

Definition forktest_main : U unit := forktest;; exit.

(** *** stressfs.c *)

(** The loop of forks: the turn at which it was left. *)
Fixpoint stress_forks (k : nat) (i : Z) : U Z :=
  match k with
  | O => mret i
  | S k => pid ← scall Fork; if 0 <? pid then mret i else stress_forks k (i + 1)
  end.

Fixpoint repeat_call (n : nat) (u : ucall) : U unit :=
  match n with
  | O => mret tt
  | S n => scall u;; repeat_call n u
  end.

Definition stressfs : U unit :=
  print 1 (text "stressfs starting" ++ nl);;
  let data := replicate 512 97 in
  i ← stress_forks 4 0;
  print 1 (text "write " ++ dec i ++ nl);;
  let path := text "stressfs" ++ [48 + i] in
  fd ← scall (Open path (Z.lor O_CREATE O_RDWR));
  repeat_call 20 (Write fd data);;
  scall (Close fd);;
  print 1 (text "read" ++ nl);;
  fd ← scall (Open path O_RDONLY);
  repeat_call 20 (Read fd 512);;
  scall (Close fd);;
  scall Wait;;
  exit.

(** *** pinfo.c *)

Definition NUM_PROCS : nat := 3.

Fixpoint workload_loop (n : nat) (i j : Z) : Z :=
  match n with
  | O => j
  | S n => workload_loop n (i + 1) (i32 (j + i32 (i32 (i * j) + 1)))
  end.

(** It computes only; its callers ignore the result. *)
Definition workload (n : Z) : Z := workload_loop (Z.to_nat n) 0 0.

(** The child with number [i]: the first one gives up the CPU after every
    bit of work. *)
Definition pinfo_child (i : nat) : U unit :=
  (if Nat.eqb i 0 then repeat_call 50 Yield else mret tt);;
  exit.

Fixpoint pinfo_forks (k i : nat) : U unit :=
  match k with
  | O => mret tt
  | S k => pid ← scall Fork; (if pid =? 0 then pinfo_child i else mret tt);; pinfo_forks k (S i)
  end.

(** struct pstat: the int with number [k] of the array at word [a]. *)
Definition pstat_int (st : bytes) (a k : nat) : Z := i32 (get_u32 (4 * (a + k)) st).

Definition tab : bytes := [9].
Definition four (st : bytes) (a i : nat) : bytes :=
  dec (pstat_int st a (4 * i)) ++ [32] ++ dec (pstat_int st a (4 * i + 1)) ++ [32] ++
  dec (pstat_int st a (4 * i + 2)) ++ [32] ++ dec (pstat_int st a (4 * i + 3)).

Definition pinfo_row (st : bytes) (i : nat) : bytes :=
  dec (pstat_int st NPROC i) ++ tab ++ dec (pstat_int st (2 * NPROC) i) ++ tab ++
  four st (4 * NPROC) i ++ tab ++ four st (8 * NPROC) i ++ nl.

Fixpoint pinfo_rows (k i : nat) (st : bytes) : U unit :=
  match k with
  | O => mret tt
  | S k => (if negb (pstat_int st 0 i =? 0) then print 1 (pinfo_row st i) else mret tt);; pinfo_rows k (S i) st
  end.

Definition pinfo : U unit :=
  r ← scall (SetSchedPolicy 2);
  if r <? 0 then print 1 (text "setSchedPolicy(2) failed" ++ nl);; exit
  else
    pinfo_forks NUM_PROCS 0;;
    repeat_call NUM_PROCS Wait;;
    '(_, st) ← call Getpinfo;
    print 1 (text "PID" ++ tab ++ text "PRIO" ++ tab ++ text "TICKS(Q0~Q3)" ++ tab ++ text "WAIT(Q0~Q3)" ++ nl);;
    pinfo_rows NPROC 0 st;;
    exit.

(** *** sh.c: running commands *)

(** The characters of a word. *)
Definition word_text (w : word) : bytes := take (length (wq w) - length (weq w)) (wq w).

(** The program of runcmd as system calls of this process. *)
Fixpoint run_prog (p : prog) : U unit :=
  match p with
  | Exit => exit
  | Sh.Exec path argv failed => scall (Exec (word_text path) (word_text <$> argv));; run_prog failed
  | Sh.Close fd k => scall (Close fd);; run_prog k
  | Sh.Open file mode failed k => fd ← scall (Open (word_text file) mode); if fd <? 0 then run_prog failed else run_prog k
  | Sh.Pipe failed k => '(r, bs) ← call Pipe; if r <? 0 then run_prog failed else run_prog (k (get_u32 0 bs) (get_u32 4 bs))
  | Sh.Dup fd k => scall (Dup fd);; run_prog k
  | Sh.Fork failed child parent =>
      pid ← scall Fork;
      if pid =? -1 then run_prog failed else if pid =? 0 then run_prog child else run_prog parent
  | Sh.Wait k => scall Wait;; run_prog k
  | Printf before arg after k => print 2 (text before ++ from_option word_text [] arg ++ text after ++ nl);; run_prog k
  end.

Definition fork1 : U Z :=
  pid ← scall Fork;
  if pid =? -1 then print 2 (text "fork" ++ nl);; exit else mret pid.

(** gets: one character at a time, up to a newline, the end of the input
    or a full buffer. *)
Fixpoint gets_loop (room : nat) : U bytes :=
  match room with
  | O => mret []
  | S room =>
      '(cc, bs) ← call (Read 0 1);
      if cc <? 1 then mret []
      else
        let c := nth_byte bs 0 in
        if (c =? 10) || (c =? 13) then mret [c] else rest ← gets_loop room; mret (c :: rest)
  end.

Definition nbuf : nat := 100.

(** The characters in the buffer, or none at the end of the input. *)
Definition getcmd : U (option bytes) :=
  print 2 (text "$ ");;
  buf ← gets_loop (nbuf - 1);
  let buf := before_nul buf in
  mret (match buf with [] => None | _ => Some buf end).

(** while((fd = open("console", O_RDWR)) >= 0) *)
Fixpoint open_console (fuel : nat) : U unit :=
  match fuel with
  | O => stuck
  | S fuel =>
      fd ← scall (Open (text "console") O_RDWR);
      if fd <? 0 then mret tt
      else if 3 <=? fd then scall (Close fd);; mret tt
      else open_console fuel
  end.

(** A line: cd in the shell itself, anything else in a child (where the text
    left over after a syntax error is not printed). *)
Definition run_line (buf : bytes) : U unit :=
  match main_line buf with
  | Sh.Chdir path =>
      r ← scall (Chdir path);
      if r <? 0 then print 2 (text "cannot cd " ++ path ++ nl) else mret tt
  | Run r =>
      pid ← fork1;
      (if pid =? 0 then
         match r with
         | Ok (c, _) _ => run_prog (runcmd c)
         | Err msg => print 2 (text msg ++ nl);; exit
         | OutOfFuel => stuck
         end
       else mret tt);;
      scall Wait;;
      mret tt
  end.

Fixpoint sh_loop (fuel : nat) : U unit :=
  match fuel with
  | O => stuck
  | S fuel =>
      b ← getcmd;
      match b with
      | None => exit
      | Some buf => run_line buf;; sh_loop fuel
      end
  end.

Definition sh (fuel : nat) : U unit := open_console fuel;; sh_loop fuel.
End programs.

(** ** forktest *)

(** A kernel in which this process, the parent, can have some more
    children: [at_ f k n o] says that in [f] there is room for [k], it has
    [n], and has written [o]. *)
Record fork_kernel {F} (sys : ucall -> F -> Z * bytes * F) (at_ : F -> nat -> nat -> bytes -> Prop) : Prop := {
  fk_fork f k n o : at_ f (S k) n o -> exists pid bs f', sys Fork f = (pid, bs, f') /\ 0 < pid /\ at_ f' k (S n) o;
  fk_full f n o : at_ f 0%nat n o -> exists bs f', sys Fork f = (-1, bs, f') /\ at_ f' 0%nat n o;
  fk_wait f k n o : at_ f k (S n) o -> exists pid bs f' k', sys Wait f = (pid, bs, f') /\ 0 < pid /\ at_ f' k' n o;
  fk_childless f k o : at_ f k 0%nat o -> exists bs f', sys Wait f = (-1, bs, f') /\ at_ f' k 0%nat o;
  fk_write f k n o s : at_ f k n o -> exists r bs f', sys (Write 1 s) f = (r, bs, f') /\ at_ f' k n (o ++ s)
}.

Section forktest.
Context {F : Type} (sys : ucall -> F -> Z * bytes * F) (at_ : F -> nat -> nat -> bytes -> Prop).
Hypothesis Hk : fork_kernel sys at_.

Lemma scall_run u (f : F) r bs f' : sys u f = (r, bs, f') -> scall sys u f = Done r f'.
Proof. intros E. unfold scall, call, mbind, U_bind. by rewrite E. Qed.

Lemma ft_printf_run f k n o s : at_ f k n o -> exists f', ft_printf sys 1 s f = Done tt f' /\ at_ f' k n (o ++ s).
Proof.
  intros Ha. destruct (fk_write _ _ Hk f k n o s Ha) as (r & bs & f' & E & Ha'). exists f'. split; [|done].
  unfold ft_printf. unfold mbind, U_bind. by rewrite (scall_run _ _ _ _ _ E).
Qed.

Lemma ft_forks_run m : forall f k n o, at_ f k n o -> (k < m)%nat -> exists f', ft_forks sys m n f = Done (n + k)%nat f' /\ at_ f' 0%nat (n + k)%nat o.
Proof.
  induction m as [|m IH]; intros f k n o Ha Hlt; [lia|]. cbn [ft_forks]. unfold mbind at 1, U_bind at 1. destruct k as [|k].
  - destruct (fk_full _ _ Hk f n o Ha) as (bs & f' & E & Ha'). rewrite (scall_run _ _ _ _ _ E). cbn [Z.ltb Z.compare]. exists f'. by rewrite Nat.add_0_r.
  - destruct (fk_fork _ _ Hk f k n o Ha) as (pid & bs & f' & E & Hp & Ha'). rewrite (scall_run _ _ _ _ _ E).
    rewrite (proj2 (Z.ltb_ge _ _)), (proj2 (Z.eqb_neq _ _)) by lia. destruct (IH f' k (S n) o Ha' ltac:(lia)) as (f2 & -> & Ha2).
    exists f2. by replace (n + S k)%nat with (S n + k)%nat by lia.
Qed.

Lemma ft_waits_run n : forall f k o, at_ f k n o -> exists f' k', ft_waits sys n f = Done tt f' /\ at_ f' k' 0%nat o.
Proof.
  induction n as [|n IH]; intros f k o Ha; [by exists f, k|]. cbn [ft_waits]. unfold mbind at 1, U_bind at 1.
  destruct (fk_wait _ _ Hk f k n o Ha) as (pid & bs & f' & k' & E & Hp & Ha'). rewrite (scall_run _ _ _ _ _ E), (proj2 (Z.ltb_ge _ _)) by lia. by apply (IH f' k').
Qed.

(** forktest passes on every kernel that runs out of processes: when the
    process can have fewer than N children it forks them all, waits for
    them all, and reports success. *)
Theorem forktest_passes f k : (k < N)%nat -> at_ f k 0%nat [] ->
  exists f' k', forktest_main sys f = Exited f' /\ at_ f' k' 0%nat (text "fork test" ++ nl ++ text "fork test OK" ++ nl).
Proof.
  intros Hlt Ha. unfold forktest_main, forktest. unfold mbind, U_bind.
  destruct (ft_printf_run f k 0 [] (text "fork test" ++ nl) Ha) as (f1 & -> & H1).
  destruct (ft_forks_run N f1 k 0 _ H1 Hlt) as (f2 & -> & H2). cbn [Nat.add] in *. rewrite (proj2 (Nat.eqb_neq k N)) by lia.
  destruct (ft_waits_run k f2 0 _ H2) as (f3 & k3 & -> & H3). destruct (fk_childless _ _ Hk f3 k3 _ H3) as (bs & f4 & E4 & H4).
  rewrite (scall_run _ _ _ _ _ E4). destruct (ft_printf_run f4 k3 0 _ (text "fork test OK" ++ nl) H4) as (f5 & E5 & H5).
  change (-1 =? -1) with true. cbn [negb]. rewrite E5. exists f5, k3. split; [done|]. by rewrite <- !(assoc_L (++)) in H5.
Qed.
End forktest.

(** The shell is started again and again: init exits only when fork fails. *)
Theorem init_never_exits {F} (sys : ucall -> F -> Z * bytes * F) n fuel f f' :
  (forall f, 0 < fst (fst (sys Fork f))) -> init sys n fuel f <> Exited f'.
Proof.
  intros Hf. assert (Hc : forall u (g : F), exists r g', scall sys u g = Done r g').
  { intros u g. unfold scall, call, mbind, U_bind. destruct (sys u g) as [[r bs] g']. eauto. }
  assert (Hp : forall bs fd (g : F), exists g', print sys fd bs g = Done tt g').
  { intros bs fd. induction bs as [|b bs IH]; intros g; [by exists g|]. cbn [print]. unfold mbind, U_bind, call. destruct (sys _ g) as [[r x] g']. apply IH. }
  assert (Hr : forall m pid (g : F), (exists g', reap sys m pid g = Done tt g') \/ reap sys m pid g = Stuck).
  { induction m as [|m IH]; intros pid g; [by right|]. cbn [reap]. unfold mbind, U_bind. destruct (Hc Wait g) as (r & g1 & ->).
    destruct (_ && _); [|left; by exists g1]. destruct (Hp (text "zombie!" ++ nl) 1 g1) as (g2 & ->). apply IH. }
  assert (Hl : forall m (g : F), init_loop sys m fuel g <> Exited f').
  { induction m as [|m IH]; intros g; [done|]. cbn [init_loop]. unfold mbind, U_bind. destruct (Hp (text "init: starting sh" ++ nl) 1 g) as (g1 & ->).
    specialize (Hf g1). unfold scall at 1, call, mbind, U_bind. destruct (sys Fork g1) as [[pid bs] g2]. cbn [fst] in Hf. cbn [mret U_ret].
    unfold mret, U_ret. rewrite (proj2 (Z.ltb_ge _ _)), (proj2 (Z.eqb_neq _ _)) by lia. destruct (Hr fuel pid g2) as [(g3 & ->)| ->]; [apply IH|done]. }
  unfold init. unfold mbind at 1, U_bind at 1. destruct (Hc (Open (text "console") O_RDWR) f) as (fd & f1 & ->). unfold mbind at 1, U_bind at 1.
  assert (H1 : exists f2, (if fd <? 0 then scall sys (Mknod (text "console") 1 1);; scall sys (Open (text "console") O_RDWR);; mret tt else mret tt) f1 = Done tt f2).
  { destruct (fd <? 0); [|by exists f1]. unfold mbind, U_bind. destruct (Hc (Mknod (text "console") 1 1) f1) as (r & f2 & ->). destruct (Hc (Open (text "console") O_RDWR) f2) as (r2 & f3 & ->). by exists f3. }
  destruct H1 as (f2 & ->). unfold mbind, U_bind. destruct (Hc (Dup 0) f2) as (r & f3 & ->). destruct (Hc (Dup 0) f3) as (r2 & f4 & ->). apply Hl.
Qed.

(** *** A kernel with room for three children, and a shell session *)

Definition kids_sys (u : ucall) (f : nat * nat * bytes) : Z * bytes * (nat * nat * bytes) :=
  let '(k, n, o) := f in
  match u with
  | Fork => match k with O => (-1, [], f) | S k => (Z.of_nat (S n), [], (k, S n, o)) end
  | Wait => match n with O => (-1, [], f) | S n => (1, [], (S k, n, o)) end
  | Write _ bs => (Z.of_nat (length bs), [], (k, n, o ++ bs))
  | _ => (0, [], f)
  end.

Lemma kids_kernel : fork_kernel kids_sys (fun f k n o => f = (k, n, o)).
Proof.
  split; intros; subst; cbn.
  - eexists _, _, _. split; [reflexivity|]. split; [lia|done].
  - by eexists _, _.
  - eexists _, _, _, _. split; [reflexivity|]. split; [lia|done].
  - by eexists _, _.
  - by eexists _, _, _.
Qed.

Lemma forktest_with_three : exists f' k', forktest_main kids_sys (3%nat, 0%nat, []) = Exited f' /\ f' = (k', 0%nat, text "fork test" ++ nl ++ text "fork test OK" ++ nl).
Proof. apply (forktest_passes kids_sys _ kids_kernel (3%nat, 0%nat, []) 3); [unfold N; lia|done]. Qed.

(** The input still to be read, and the system calls made besides reading and
    printing; the process is the parent of all it forks. *)
Definition script_sys (u : ucall) (f : bytes * list ucall) : Z * bytes * (bytes * list ucall) :=
  let '(input, calls) := f in
  match u with
  | Read 0 1 => match input with [] => (0, [], f) | c :: input => (1, [c], (input, calls)) end
  | Write _ bs => (Z.of_nat (length bs), [], f)
  | Open _ _ => (3, [], (input, calls ++ [u]))
  | Fork => (7, [], (input, calls ++ [u]))
  | _ => (0, [], (input, calls ++ [u]))
  end.

(** cd is run by the shell itself, a command in a child that it waits for. *)
Lemma sh_session : sh script_sys 10 (text "cd /bin" ++ nl ++ text "ls" ++ nl, []) =
  Exited ([], [Open (text "console") O_RDWR; Close 3; Chdir (text "/bin"); Fork; Wait]).
Proof. vm_compute. reflexivity. Qed.
