(* ===== verification/Vectors.v ===== *)
(** * vectors.pl and vectors.S: the entry points of the interrupts

    vectors.S has one entry point for each interrupt number, which pushes a
    0 in place of the error code where the processor pushes none, then the
    number, and goes on at alltraps; and the table of their addresses.  The
    file is written out here as it is, and shown to be what the generator
    vectors.pl prints. *)

From stdpp Require Import base numbers strings list.
From S2P Require Import Prelude.

Local Open Scope Z_scope.

(** An instruction of an entry point. *)
Inductive vinstr : Type :=
| pushl (n : Z)
| jmp_alltraps.

#[export] Instance vinstr_eq_dec : EqDecision vinstr.
Proof. solve_decision. Defined.

(** An entry point: its label vector<n>, and its code. *)
Definition stub : Type := Z * list vinstr.

(** ** vectors.pl *)

(** The numbers for which the processor pushes an error code itself. *)
Definition has_err (i : Z) : bool := (i =? 8) || ((10 <=? i) && (i <=? 14)) || (i =? 17).

Definition gen_stub (i : Z) : stub := (i, (if negb (has_err i) then [pushl 0] else []) ++ [pushl i; jmp_alltraps]).

Definition gen_handlers : list stub := gen_stub <$> seqZ 0 256.

(** The vector table: the labels in order. *)
Definition gen_table : list Z := seqZ 0 256.

(** ** vectors.S *)

Definition handlers_0 : list stub := [
  (0, [pushl 0; pushl 0; jmp_alltraps]);
  (1, [pushl 0; pushl 1; jmp_alltraps]);
  (2, [pushl 0; pushl 2; jmp_alltraps]);
  (3, [pushl 0; pushl 3; jmp_alltraps]);
  (4, [pushl 0; pushl 4; jmp_alltraps]);
  (5, [pushl 0; pushl 5; jmp_alltraps]);
  (6, [pushl 0; pushl 6; jmp_alltraps]);
  (7, [pushl 0; pushl 7; jmp_alltraps]);
  (8, [pushl 8; jmp_alltraps]);
  (9, [pushl 0; pushl 9; jmp_alltraps]);
  (10, [pushl 10; jmp_alltraps]);
  (11, [pushl 11; jmp_alltraps]);
  (12, [pushl 12; jmp_alltraps]);
  (13, [pushl 13; jmp_alltraps]);
  (14, [pushl 14; jmp_alltraps]);
  (15, [pushl 0; pushl 15; jmp_alltraps]);
  (16, [pushl 0; pushl 16; jmp_alltraps]);
  (17, [pushl 17; jmp_alltraps]);
  (18, [pushl 0; pushl 18; jmp_alltraps]);
  (19, [pushl 0; pushl 19; jmp_alltraps]);
  (20, [pushl 0; pushl 20; jmp_alltraps]);
  (21, [pushl 0; pushl 21; jmp_alltraps]);
  (22, [pushl 0; pushl 22; jmp_alltraps]);
  (23, [pushl 0; pushl 23; jmp_alltraps]);
  (24, [pushl 0; pushl 24; jmp_alltraps]);
  (25, [pushl 0; pushl 25; jmp_alltraps]);
  (26, [pushl 0; pushl 26; jmp_alltraps]);
  (27, [pushl 0; pushl 27; jmp_alltraps]);
  (28, [pushl 0; pushl 28; jmp_alltraps])].

Definition handlers_1 : list stub := [
  (29, [pushl 0; pushl 29; jmp_alltraps]);
  (30, [pushl 0; pushl 30; jmp_alltraps]);
  (31, [pushl 0; pushl 31; jmp_alltraps]);
  (32, [pushl 0; pushl 32; jmp_alltraps]);
  (33, [pushl 0; pushl 33; jmp_alltraps]);
  (34, [pushl 0; pushl 34; jmp_alltraps]);
  (35, [pushl 0; pushl 35; jmp_alltraps]);
  (36, [pushl 0; pushl 36; jmp_alltraps]);
  (37, [pushl 0; pushl 37; jmp_alltraps]);
  (38, [pushl 0; pushl 38; jmp_alltraps]);
  (39, [pushl 0; pushl 39; jmp_alltraps]);
  (40, [pushl 0; pushl 40; jmp_alltraps]);
  (41, [pushl 0; pushl 41; jmp_alltraps]);
  (42, [pushl 0; pushl 42; jmp_alltraps]);
  (43, [pushl 0; pushl 43; jmp_alltraps]);
  (44, [pushl 0; pushl 44; jmp_alltraps]);
  (45, [pushl 0; pushl 45; jmp_alltraps]);
  (46, [pushl 0; pushl 46; jmp_alltraps]);
  (47, [pushl 0; pushl 47; jmp_alltraps]);
  (48, [pushl 0; pushl 48; jmp_alltraps]);
  (49, [pushl 0; pushl 49; jmp_alltraps]);
  (50, [pushl 0; pushl 50; jmp_alltraps]);
  (51, [pushl 0; pushl 51; jmp_alltraps]);
  (52, [pushl 0; pushl 52; jmp_alltraps]);
  (53, [pushl 0; pushl 53; jmp_alltraps]);
  (54, [pushl 0; pushl 54; jmp_alltraps]);
  (55, [pushl 0; pushl 55; jmp_alltraps]);
  (56, [pushl 0; pushl 56; jmp_alltraps]);
  (57, [pushl 0; pushl 57; jmp_alltraps])].

Definition handlers_2 : list stub := [
  (58, [pushl 0; pushl 58; jmp_alltraps]);
  (59, [pushl 0; pushl 59; jmp_alltraps]);
  (60, [pushl 0; pushl 60; jmp_alltraps]);
  (61, [pushl 0; pushl 61; jmp_alltraps]);
  (62, [pushl 0; pushl 62; jmp_alltraps]);
  (63, [pushl 0; pushl 63; jmp_alltraps]);
  (64, [pushl 0; pushl 64; jmp_alltraps]);
  (65, [pushl 0; pushl 65; jmp_alltraps]);
  (66, [pushl 0; pushl 66; jmp_alltraps]);
  (67, [pushl 0; pushl 67; jmp_alltraps]);
  (68, [pushl 0; pushl 68; jmp_alltraps]);
  (69, [pushl 0; pushl 69; jmp_alltraps]);
  (70, [pushl 0; pushl 70; jmp_alltraps]);
  (71, [pushl 0; pushl 71; jmp_alltraps]);
  (72, [pushl 0; pushl 72; jmp_alltraps]);
  (73, [pushl 0; pushl 73; jmp_alltraps]);
  (74, [pushl 0; pushl 74; jmp_alltraps]);
  (75, [pushl 0; pushl 75; jmp_alltraps]);
  (76, [pushl 0; pushl 76; jmp_alltraps]);
  (77, [pushl 0; pushl 77; jmp_alltraps]);
  (78, [pushl 0; pushl 78; jmp_alltraps]);
  (79, [pushl 0; pushl 79; jmp_alltraps]);
  (80, [pushl 0; pushl 80; jmp_alltraps]);
  (81, [pushl 0; pushl 81; jmp_alltraps]);
  (82, [pushl 0; pushl 82; jmp_alltraps]);
  (83, [pushl 0; pushl 83; jmp_alltraps]);
  (84, [pushl 0; pushl 84; jmp_alltraps]);
  (85, [pushl 0; pushl 85; jmp_alltraps]);
  (86, [pushl 0; pushl 86; jmp_alltraps])].

Definition handlers_3 : list stub := [
  (87, [pushl 0; pushl 87; jmp_alltraps]);
  (88, [pushl 0; pushl 88; jmp_alltraps]);
  (89, [pushl 0; pushl 89; jmp_alltraps]);
  (90, [pushl 0; pushl 90; jmp_alltraps]);
  (91, [pushl 0; pushl 91; jmp_alltraps]);
  (92, [pushl 0; pushl 92; jmp_alltraps]);
  (93, [pushl 0; pushl 93; jmp_alltraps]);
  (94, [pushl 0; pushl 94; jmp_alltraps]);
  (95, [pushl 0; pushl 95; jmp_alltraps]);
  (96, [pushl 0; pushl 96; jmp_alltraps]);
  (97, [pushl 0; pushl 97; jmp_alltraps]);
  (98, [pushl 0; pushl 98; jmp_alltraps]);
  (99, [pushl 0; pushl 99; jmp_alltraps]);
  (100, [pushl 0; pushl 100; jmp_alltraps]);
  (101, [pushl 0; pushl 101; jmp_alltraps]);
  (102, [pushl 0; pushl 102; jmp_alltraps]);
  (103, [pushl 0; pushl 103; jmp_alltraps]);
  (104, [pushl 0; pushl 104; jmp_alltraps]);
  (105, [pushl 0; pushl 105; jmp_alltraps]);
  (106, [pushl 0; pushl 106; jmp_alltraps]);
  (107, [pushl 0; pushl 107; jmp_alltraps]);
  (108, [pushl 0; pushl 108; jmp_alltraps]);
  (109, [pushl 0; pushl 109; jmp_alltraps]);
  (110, [pushl 0; pushl 110; jmp_alltraps]);
  (111, [pushl 0; pushl 111; jmp_alltraps]);
  (112, [pushl 0; pushl 112; jmp_alltraps]);
  (113, [pushl 0; pushl 113; jmp_alltraps]);
  (114, [pushl 0; pushl 114; jmp_alltraps]);
  (115, [pushl 0; pushl 115; jmp_alltraps])].

Definition handlers_4 : list stub := [
  (116, [pushl 0; pushl 116; jmp_alltraps]);
  (117, [pushl 0; pushl 117; jmp_alltraps]);
  (118, [pushl 0; pushl 118; jmp_alltraps]);
  (119, [pushl 0; pushl 119; jmp_alltraps]);
  (120, [pushl 0; pushl 120; jmp_alltraps]);
  (121, [pushl 0; pushl 121; jmp_alltraps]);
  (122, [pushl 0; pushl 122; jmp_alltraps]);
  (123, [pushl 0; pushl 123; jmp_alltraps]);
  (124, [pushl 0; pushl 124; jmp_alltraps]);
  (125, [pushl 0; pushl 125; jmp_alltraps]);
  (126, [pushl 0; pushl 126; jmp_alltraps]);
  (127, [pushl 0; pushl 127; jmp_alltraps]);
  (128, [pushl 0; pushl 128; jmp_alltraps]);
  (129, [pushl 0; pushl 129; jmp_alltraps]);
  (130, [pushl 0; pushl 130; jmp_alltraps]);
  (131, [pushl 0; pushl 131; jmp_alltraps]);
  (132, [pushl 0; pushl 132; jmp_alltraps]);
  (133, [pushl 0; pushl 133; jmp_alltraps]);
  (134, [pushl 0; pushl 134; jmp_alltraps]);
  (135, [pushl 0; pushl 135; jmp_alltraps]);
  (136, [pushl 0; pushl 136; jmp_alltraps]);
  (137, [pushl 0; pushl 137; jmp_alltraps]);
  (138, [pushl 0; pushl 138; jmp_alltraps]);
  (139, [pushl 0; pushl 139; jmp_alltraps]);
  (140, [pushl 0; pushl 140; jmp_alltraps]);
  (141, [pushl 0; pushl 141; jmp_alltraps]);
  (142, [pushl 0; pushl 142; jmp_alltraps]);
  (143, [pushl 0; pushl 143; jmp_alltraps]);
  (144, [pushl 0; pushl 144; jmp_alltraps])].

Definition handlers_5 : list stub := [
  (145, [pushl 0; pushl 145; jmp_alltraps]);
  (146, [pushl 0; pushl 146; jmp_alltraps]);
  (147, [pushl 0; pushl 147; jmp_alltraps]);
  (148, [pushl 0; pushl 148; jmp_alltraps]);
  (149, [pushl 0; pushl 149; jmp_alltraps]);
  (150, [pushl 0; pushl 150; jmp_alltraps]);
  (151, [pushl 0; pushl 151; jmp_alltraps]);
  (152, [pushl 0; pushl 152; jmp_alltraps]);
  (153, [pushl 0; pushl 153; jmp_alltraps]);
  (154, [pushl 0; pushl 154; jmp_alltraps]);
  (155, [pushl 0; pushl 155; jmp_alltraps]);
  (156, [pushl 0; pushl 156; jmp_alltraps]);
  (157, [pushl 0; pushl 157; jmp_alltraps]);
  (158, [pushl 0; pushl 158; jmp_alltraps]);
  (159, [pushl 0; pushl 159; jmp_alltraps]);
  (160, [pushl 0; pushl 160; jmp_alltraps]);
  (161, [pushl 0; pushl 161; jmp_alltraps]);
  (162, [pushl 0; pushl 162; jmp_alltraps]);
  (163, [pushl 0; pushl 163; jmp_alltraps]);
  (164, [pushl 0; pushl 164; jmp_alltraps]);
  (165, [pushl 0; pushl 165; jmp_alltraps]);
  (166, [pushl 0; pushl 166; jmp_alltraps]);
  (167, [pushl 0; pushl 167; jmp_alltraps]);
  (168, [pushl 0; pushl 168; jmp_alltraps]);
  (169, [pushl 0; pushl 169; jmp_alltraps]);
  (170, [pushl 0; pushl 170; jmp_alltraps]);
  (171, [pushl 0; pushl 171; jmp_alltraps]);
  (172, [pushl 0; pushl 172; jmp_alltraps]);
  (173, [pushl 0; pushl 173; jmp_alltraps])].

Definition handlers_6 : list stub := [
  (174, [pushl 0; pushl 174; jmp_alltraps]);
  (175, [pushl 0; pushl 175; jmp_alltraps]);
  (176, [pushl 0; pushl 176; jmp_alltraps]);
  (177, [pushl 0; pushl 177; jmp_alltraps]);
  (178, [pushl 0; pushl 178; jmp_alltraps]);
  (179, [pushl 0; pushl 179; jmp_alltraps]);
  (180, [pushl 0; pushl 180; jmp_alltraps]);
  (181, [pushl 0; pushl 181; jmp_alltraps]);
  (182, [pushl 0; pushl 182; jmp_alltraps]);
  (183, [pushl 0; pushl 183; jmp_alltraps]);
  (184, [pushl 0; pushl 184; jmp_alltraps]);
  (185, [pushl 0; pushl 185; jmp_alltraps]);
  (186, [pushl 0; pushl 186; jmp_alltraps]);
  (187, [pushl 0; pushl 187; jmp_alltraps]);
  (188, [pushl 0; pushl 188; jmp_alltraps]);
  (189, [pushl 0; pushl 189; jmp_alltraps]);
  (190, [pushl 0; pushl 190; jmp_alltraps]);
  (191, [pushl 0; pushl 191; jmp_alltraps]);
  (192, [pushl 0; pushl 192; jmp_alltraps]);
  (193, [pushl 0; pushl 193; jmp_alltraps]);
  (194, [pushl 0; pushl 194; jmp_alltraps]);
  (195, [pushl 0; pushl 195; jmp_alltraps]);
  (196, [pushl 0; pushl 196; jmp_alltraps]);
  (197, [pushl 0; pushl 197; jmp_alltraps]);
  (198, [pushl 0; pushl 198; jmp_alltraps]);
  (199, [pushl 0; pushl 199; jmp_alltraps]);
  (200, [pushl 0; pushl 200; jmp_alltraps]);
  (201, [pushl 0; pushl 201; jmp_alltraps]);
  (202, [pushl 0; pushl 202; jmp_alltraps])].

Definition handlers_7 : list stub := [
  (203, [pushl 0; pushl 203; jmp_alltraps]);
  (204, [pushl 0; pushl 204; jmp_alltraps]);
  (205, [pushl 0; pushl 205; jmp_alltraps]);
  (206, [pushl 0; pushl 206; jmp_alltraps]);
  (207, [pushl 0; pushl 207; jmp_alltraps]);
  (208, [pushl 0; pushl 208; jmp_alltraps]);
  (209, [pushl 0; pushl 209; jmp_alltraps]);
  (210, [pushl 0; pushl 210; jmp_alltraps]);
  (211, [pushl 0; pushl 211; jmp_alltraps]);
  (212, [pushl 0; pushl 212; jmp_alltraps]);
  (213, [pushl 0; pushl 213; jmp_alltraps]);
  (214, [pushl 0; pushl 214; jmp_alltraps]);
  (215, [pushl 0; pushl 215; jmp_alltraps]);
  (216, [pushl 0; pushl 216; jmp_alltraps]);
  (217, [pushl 0; pushl 217; jmp_alltraps]);
  (218, [pushl 0; pushl 218; jmp_alltraps]);
  (219, [pushl 0; pushl 219; jmp_alltraps]);
  (220, [pushl 0; pushl 220; jmp_alltraps]);
  (221, [pushl 0; pushl 221; jmp_alltraps]);
  (222, [pushl 0; pushl 222; jmp_alltraps]);
  (223, [pushl 0; pushl 223; jmp_alltraps]);
  (224, [pushl 0; pushl 224; jmp_alltraps]);
  (225, [pushl 0; pushl 225; jmp_alltraps]);
  (226, [pushl 0; pushl 226; jmp_alltraps]);
  (227, [pushl 0; pushl 227; jmp_alltraps]);
  (228, [pushl 0; pushl 228; jmp_alltraps]);
  (229, [pushl 0; pushl 229; jmp_alltraps]);
  (230, [pushl 0; pushl 230; jmp_alltraps]);
  (231, [pushl 0; pushl 231; jmp_alltraps])].

Definition handlers_8 : list stub := [
  (232, [pushl 0; pushl 232; jmp_alltraps]);
  (233, [pushl 0; pushl 233; jmp_alltraps]);
  (234, [pushl 0; pushl 234; jmp_alltraps]);
  (235, [pushl 0; pushl 235; jmp_alltraps]);
  (236, [pushl 0; pushl 236; jmp_alltraps]);
  (237, [pushl 0; pushl 237; jmp_alltraps]);
  (238, [pushl 0; pushl 238; jmp_alltraps]);
  (239, [pushl 0; pushl 239; jmp_alltraps]);
  (240, [pushl 0; pushl 240; jmp_alltraps]);
  (241, [pushl 0; pushl 241; jmp_alltraps]);
  (242, [pushl 0; pushl 242; jmp_alltraps]);
  (243, [pushl 0; pushl 243; jmp_alltraps]);
  (244, [pushl 0; pushl 244; jmp_alltraps]);
  (245, [pushl 0; pushl 245; jmp_alltraps]);
  (246, [pushl 0; pushl 246; jmp_alltraps]);
  (247, [pushl 0; pushl 247; jmp_alltraps]);
  (248, [pushl 0; pushl 248; jmp_alltraps]);
  (249, [pushl 0; pushl 249; jmp_alltraps]);
  (250, [pushl 0; pushl 250; jmp_alltraps]);
  (251, [pushl 0; pushl 251; jmp_alltraps]);
  (252, [pushl 0; pushl 252; jmp_alltraps]);
  (253, [pushl 0; pushl 253; jmp_alltraps]);
  (254, [pushl 0; pushl 254; jmp_alltraps]);
  (255, [pushl 0; pushl 255; jmp_alltraps])].

Definition handlers : list stub :=
  handlers_0 ++ handlers_1 ++ handlers_2 ++ handlers_3 ++ handlers_4 ++ handlers_5 ++ handlers_6 ++ handlers_7 ++ handlers_8.

Definition vectors_0 : list Z := [
  0; 1; 2; 3; 4; 5; 6; 7; 8; 9; 10; 11; 12; 13; 14; 15;
  16; 17; 18; 19; 20; 21; 22; 23; 24; 25; 26; 27; 28; 29; 30; 31;
  32; 33; 34; 35; 36; 37; 38; 39; 40; 41; 42; 43; 44; 45; 46; 47;
  48; 49; 50; 51; 52; 53; 54; 55; 56; 57; 58; 59; 60; 61; 62; 63;
  64; 65; 66; 67; 68; 69; 70; 71; 72; 73; 74; 75; 76; 77; 78; 79;
  80; 81; 82; 83; 84; 85; 86; 87; 88; 89; 90; 91; 92; 93; 94; 95;
  96; 97; 98; 99; 100; 101; 102; 103; 104; 105; 106; 107; 108; 109; 110; 111;
  112; 113; 114; 115; 116; 117; 118; 119; 120; 121; 122; 123; 124; 125; 126; 127].

Definition vectors_1 : list Z := [
  128; 129; 130; 131; 132; 133; 134; 135; 136; 137; 138; 139; 140; 141; 142; 143;
  144; 145; 146; 147; 148; 149; 150; 151; 152; 153; 154; 155; 156; 157; 158; 159;
  160; 161; 162; 163; 164; 165; 166; 167; 168; 169; 170; 171; 172; 173; 174; 175;
  176; 177; 178; 179; 180; 181; 182; 183; 184; 185; 186; 187; 188; 189; 190; 191;
  192; 193; 194; 195; 196; 197; 198; 199; 200; 201; 202; 203; 204; 205; 206; 207;
  208; 209; 210; 211; 212; 213; 214; 215; 216; 217; 218; 219; 220; 221; 222; 223;
  224; 225; 226; 227; 228; 229; 230; 231; 232; 233; 234; 235; 236; 237; 238; 239;
  240; 241; 242; 243; 244; 245; 246; 247; 248; 249; 250; 251; 252; 253; 254; 255].

(** The table vectors: vector n is the label at index n. *)
Definition vectors : list Z := vectors_0 ++ vectors_1.

(** vectors.S is what vectors.pl prints. *)
Theorem vectors_generated : handlers = gen_handlers /\ vectors = gen_table.
Proof. split; vm_compute; reflexivity. Qed.

(** The code reached through entry [n] of the table. *)
Definition vector_code (n : Z) : option (list vinstr) :=
  l ← vectors !! Z.to_nat n; snd <$> find (fun s => fst s =? l) handlers.

Lemma vector_code_eq n : 0 <= n < 256 ->
  vector_code n = Some ((if negb (has_err n) then [pushl 0] else []) ++ [pushl n; jmp_alltraps]).
Proof.
  intros Hn. assert (Hall : Forall (fun n => vector_code n = Some ((if negb (has_err n) then [pushl 0] else []) ++ [pushl n; jmp_alltraps])) (seqZ 0 256)).
  { apply (bool_decide_unpack _). vm_compute. exact I. }
  rewrite Forall_forall in Hall. apply Hall, elem_of_seqZ. lia.
Qed.
