(* ===== verification/X86.v ===== *)
(** * The processor: the instructions trapasm.S, swtch.S, usys.S and
    uthread_switch.S are written in, mmu.h's descriptors, seginit (vm.c) and
    tvinit (trap.c)

    A machine is its registers and its memory; [exec] gives each instruction
    its meaning, and [run] a sequence of them.  The addresses of labels are
    arguments of the program texts: a call pushes, and an int saves, the
    address of the instruction after it.  Interrupts are delivered through
    the descriptor tables that tvinit and seginit fill.

    The stack is handled through [words_at], the words from an address up:
    a push adds one in front, a pop takes it off. *)

From stdpp Require Import base numbers strings list.
From S2P Require Import Prelude Kstring Mmu Kalloc Vectors.

Local Open Scope Z_scope.

(** ** mmu.h: segment and gate descriptors *)

Definition STA_X : Z := 8.
Definition STA_W : Z := 2.
Definition STA_R : Z := 2.
Definition STS_T32A : Z := 9.
Definition STS_IG32 : Z := 14.
Definition STS_TG32 : Z := 15.
Definition SEG_TSS : Z := 5.
Definition NSEGS : nat := 6.

(** struct segdesc, without its reserved bits. *)
Record segdesc : Type := mksegdesc {
  lim_15_0 : Z;
  base_15_0 : Z;
  base_23_16 : Z;
  sd_type : Z;
  sd_s : Z;
  sd_dpl : Z;
  sd_p : Z;
  lim_19_16 : Z;
  sd_db : Z;
  sd_g : Z;
  base_31_24 : Z
}.

Definition zero_segdesc : segdesc := mksegdesc 0 0 0 0 0 0 0 0 0 0 0.

Definition SEG (type base lim dpl : Z) : segdesc :=
  mksegdesc (Z.land (Z.shiftr lim 12) 0xffff) (Z.land base 0xffff) (Z.land (Z.shiftr base 16) 0xff) type 1 dpl 1
    (Z.shiftr lim 28) 1 1 (Z.shiftr base 24).

Definition SEG16 (type base lim dpl : Z) : segdesc :=
  mksegdesc (Z.land lim 0xffff) (Z.land base 0xffff) (Z.land (Z.shiftr base 16) 0xff) type 1 dpl 1
    (Z.shiftr lim 16) 1 0 (Z.shiftr base 24).

(** struct gatedesc. *)
Record gatedesc : Type := mkgatedesc {
  off_15_0 : Z;
  gd_cs : Z;
  gd_args : Z;
  gd_rsv1 : Z;
  gd_type : Z;
  gd_s : Z;
  gd_dpl : Z;
  gd_p : Z;
  off_31_16 : Z
}.

Definition SETGATE (istrap : bool) (sel off d : Z) : gatedesc :=
  mkgatedesc (Z.land off 0xffff) sel 0 0 (if istrap then STS_TG32 else STS_IG32) 0 d 1 (Z.shiftr off 16).

(** trap.c: tvinit, from the table of entry points. *)
Definition tvinit (vectors : list Z) : list gatedesc :=
  let idt := (fun v => SETGATE false (Z.shiftl SEG_KCODE 3) v 0) <$> vectors in
  <[64%nat := SETGATE true (Z.shiftl SEG_KCODE 3) (nth 64 vectors 0) DPL_USER]> idt.

(** vm.c: seginit. *)
Definition seginit (gdt : list segdesc) : list segdesc :=
  let gdt := <[Z.to_nat SEG_KCODE := SEG (Z.lor STA_X STA_R) 0 0xffffffff 0]> gdt in
  let gdt := <[Z.to_nat SEG_KDATA := SEG STA_W 0 0xffffffff 0]> gdt in
  let gdt := <[Z.to_nat SEG_UCODE := SEG (Z.lor STA_X STA_R) 0 0xffffffff DPL_USER]> gdt in
  <[Z.to_nat SEG_UDATA := SEG STA_W 0 0xffffffff DPL_USER]> gdt.

(** ** The machine *)

Inductive reg : Type := EAX | ECX | EDX | EBX | ESP | EBP | ESI | EDI.
Inductive sreg : Type := DS | ES | FS | GS | CS | SS.

Definition reg_eqb (a b : reg) : bool :=
  match a, b with
  | EAX, EAX | ECX, ECX | EDX, EDX | EBX, EBX | ESP, ESP | EBP, EBP | ESI, ESI | EDI, EDI => true
  | _, _ => false
  end.

Definition sreg_eqb (a b : sreg) : bool :=
  match a, b with
  | DS, DS | ES, ES | FS, FS | GS, GS | CS, CS | SS, SS => true
  | _, _ => false
  end.

Record mach : Type := mkmach {
  regs : reg -> Z;
  segs : sreg -> Z;
  eip : Z;
  eflags : Z;
  mem : memory
}.

Definition put (r : reg) (v : Z) (s : mach) : mach :=
  mkmach (fun r' => if reg_eqb r' r then v else regs s r') (segs s) (eip s) (eflags s) (mem s).
Definition put_seg (r : sreg) (v : Z) (s : mach) : mach :=
  mkmach (regs s) (fun r' => if sreg_eqb r' r then v else segs s r') (eip s) (eflags s) (mem s).
Definition set_eip (v : Z) (s : mach) : mach := mkmach (regs s) (segs s) v (eflags s) (mem s).
Definition set_eflags (v : Z) (s : mach) : mach := mkmach (regs s) (segs s) (eip s) v (mem s).
Definition set_mem (m : memory) (s : mach) : mach := mkmach (regs s) (segs s) (eip s) (eflags s) m.

(** The privilege level the machine runs at. *)
Definition cpl (s : mach) : Z := Z.land (segs s CS) 3.

Definition push (v : Z) (s : mach) : mach :=
  let sp := u32 (regs s ESP - 4) in
  set_mem (store32 sp v (mem s)) (put ESP sp s).

Definition top (s : mach) : Z := load32 (regs s ESP) (mem s).
Definition drop_top (s : mach) : mach := put ESP (u32 (regs s ESP + 4)) s.
Definition pop (r : reg) (s : mach) : mach := put r (top s) (drop_top s).
Definition pop_seg (r : sreg) (s : mach) : mach := put_seg r (u16 (top s)) (drop_top s).
Definition pop_eip (s : mach) : mach := set_eip (top s) (drop_top s).
Definition pop_eflags (s : mach) : mach := set_eflags (top s) (drop_top s).

Definition pushal (s : mach) : mach :=
  let sp := regs s ESP in
  push (regs s EDI) (push (regs s ESI) (push (regs s EBP) (push sp (push (regs s EBX)
    (push (regs s EDX) (push (regs s ECX) (push (regs s EAX) s))))))).

(** popal skips the stack pointer pushal saved. *)
Definition popal (s : mach) : mach :=
  pop EAX (pop ECX (pop EDX (pop EBX (drop_top (pop EBP (pop ESI (pop EDI s))))))).

(** ** The descriptor tables and interrupts *)

(** idt, gdt, and the stack for the kernel in the task state segment. *)
Record tables : Type := mktables {
  idt : list gatedesc;
  gdt : list segdesc;
  ss0 : Z;
  esp0 : Z
}.

(** The flags a gate clears: TF, NT, RF and VM, and IF for an interrupt
    gate. *)
Definition clear_flags (type flags : Z) : Z :=
  let flags := Z.ldiff flags 0x34100 in
  if type =? STS_IG32 then Z.ldiff flags FL_IF else flags.

(** Interrupt [n], with the error code the processor pushes for it.  [soft]
    says that it is an int instruction, which needs the privilege the gate
    asks for. *)
Definition deliver (t : tables) (soft : bool) (n : Z) (err : option Z) (s : mach) : option mach :=
  g ← idt t !! Z.to_nat n;
  if (gd_p g =? 0) || (soft && (gd_dpl g <? cpl s)) then None
  else
    let s1 := if cpl s =? 0 then s
      else push (regs s ESP) (push (segs s SS) (put ESP (esp0 t) (put_seg SS (ss0 t) s))) in
    let s1 := push (eip s) (push (segs s CS) (push (eflags s) s1)) in
    let s1 := match err with Some e => push e s1 | None => s1 end in
    Some (set_eip (Z.lor (Z.shiftl (off_31_16 g) 16) (off_15_0 g))
      (put_seg CS (gd_cs g) (set_eflags (clear_flags (gd_type g) (eflags s1)) s1))).

(** iret clears the data segments the less privileged code may not use. *)
Definition check_seg (t : tables) (level : Z) (r : sreg) (s : mach) : mach :=
  match gdt t !! Z.to_nat (Z.shiftr (segs s r) 3) with
  | Some d => if (sd_p d =? 1) && (sd_dpl d <? level) then put_seg r 0 s else s
  | None => s
  end.

Definition iret (t : tables) (s : mach) : mach :=
  let from := cpl s in
  let s := pop_eflags (pop_seg CS (pop_eip s)) in
  let level := cpl s in
  if from <? level then
    let sp := top s in
    let s := put ESP sp (pop_seg SS (drop_top s)) in
    check_seg t level GS (check_seg t level FS (check_seg t level ES (check_seg t level DS s)))
  else s.

(** ** Instructions *)

Inductive instr : Type :=
| Push (r : reg)
| PushSeg (r : sreg)
| PushImm (v : Z)
| Pop (r : reg)
| PopSeg (r : sreg)
| Pushal
| Popal
| Mov (src dst : reg)
| MovImm (v : Z) (dst : reg)
| MovwAx (v : Z)                      (* movw $v, %ax *)
| MovwSeg (r : sreg)                  (* movw %ax, %r *)
| Load (disp : Z) (base dst : reg)    (* movl disp(%base), %dst *)
| LoadAbs (addr : Z) (dst : reg)      (* movl variable, %dst *)
| Store (src base : reg)              (* movl %src, (%base) *)
| AddImm (v : Z) (dst : reg)
| Jmp (to : Z)
| Call (to next : Z)
| Ret
| Iret
| Int (n next : Z).

Definition exec (t : tables) (i : instr) (s : mach) : option mach :=
  match i with
  | Push r => Some (push (regs s r) s)
  | PushSeg r => Some (push (segs s r) s)
  | PushImm v => Some (push v s)
  | Pop r => Some (pop r s)
  | PopSeg r => Some (pop_seg r s)
  | Pushal => Some (pushal s)
  | Popal => Some (popal s)
  | Mov src dst => Some (put dst (regs s src) s)
  | MovImm v dst => Some (put dst v s)
  | MovwAx v => Some (put EAX (regs s EAX / 65536 * 65536 + v) s)
  | MovwSeg r => Some (put_seg r (u16 (regs s EAX)) s)
  | Load disp base dst => Some (put dst (load32 (u32 (regs s base + disp)) (mem s)) s)
  | LoadAbs addr dst => Some (put dst (load32 addr (mem s)) s)
  | Store src base => Some (set_mem (store32 (regs s base) (regs s src) (mem s)) s)
  | AddImm v dst => Some (put dst (u32 (regs s dst + v)) s)
  | Jmp to => Some (set_eip to s)
  | Call to next => Some (set_eip to (push next s))
  | Ret => Some (pop_eip s)
  | Iret => Some (iret t s)
  | Int n next => deliver t true n None (set_eip next s)
  end.

Fixpoint run (t : tables) (code : list instr) (s : mach) : option mach :=
  match code with
  | [] => Some s
  | i :: code => s ← exec t i s; run t code s
  end.

Lemma run_app t l1 l2 s : run t (l1 ++ l2) s = (s ← run t l1 s; run t l2 s).
Proof. revert s. induction l1 as [|i l1 IH]; intros s; cbn; [done|]. destruct (exec t i s); cbn; [apply IH|done]. Qed.

(** ** The stack *)

(** The words from address [a] up. *)
Fixpoint words_at (a : Z) (ws : list Z) (m : memory) : Prop :=
  match ws with
  | [] => True
  | w :: ws => load32 a m = w /\ words_at (a + 4) ws m
  end.

(** [s] with the words [ws] on its stack, all below [hi]. *)
Definition on_stack (hi : Z) (ws : list Z) (s : mach) : Prop :=
  regs s ESP = hi - 4 * Z.of_nat (length ws) /\ words_at (regs s ESP) ws (mem s).

Lemma words_at_ext a ws m m' : 0 <= a -> a + 4 * Z.of_nat (length ws) < 4294967296 ->
  (forall x, a <= x < a + 4 * Z.of_nat (length ws) -> m' x = m x) -> words_at a ws m -> words_at a ws m'.
Proof.
  revert a. induction ws as [|w ws IH]; intros a Ha Hb He; cbn [words_at length] in *; [done|].
  intros [Hw Hr]. split; [|apply IH; [lia|lia|intros x Hx; apply He; lia|done]].
  rewrite <- Hw. apply load32_ext; [unfold no_wrap; lia|]. intros x Hx. apply He. lia.
Qed.

Lemma words_at_lookup ws : forall a m i w, words_at a ws m -> ws !! i = Some w -> load32 (a + 4 * Z.of_nat i) m = w.
Proof.
  induction ws as [|w0 ws IH]; intros a m [|i] w Hw Hi; try done; destruct Hw as [H0 Hr].
  - cbn in Hi. injection Hi as <-. rewrite <- H0. f_equal. lia.
  - rewrite <- (IH (a + 4) m i w Hr Hi). f_equal. lia.
Qed.

Lemma words_at_app ws ws' : forall a m, words_at a (ws ++ ws') m <-> words_at a ws m /\ words_at (a + 4 * Z.of_nat (length ws)) ws' m.
Proof.
  induction ws as [|w ws IH]; intros a m; cbn [app words_at length].
  - replace (a + 4 * Z.of_nat 0) with a by lia. tauto.
  - rewrite IH. replace (a + 4 + 4 * Z.of_nat (length ws)) with (a + 4 * Z.of_nat (S (length ws))) by lia. tauto.
Qed.

Lemma store32_other a v m x : no_wrap a 4 -> ~ (a <= x < a + 4) -> store32 a v m x = m x.
Proof. intros Ha Hx. rewrite store32_spec by done. bool_cases. Qed.

Lemma put_same r v s : regs (put r v s) r = v.
Proof. by destruct r. Qed.

Lemma put_other r r' v s : r' <> r -> regs (put r v s) r' = regs s r'.
Proof. by destruct r, r'. Qed.

Lemma load32_store32_mod a v m : no_wrap a 4 -> load32 a (store32 a v m) = u32 v.
Proof.
  intros Ha. transitivity (load32 a (store32 a (u32 v) m)); [|apply load32_store32; [done|apply u32_bound]].
  apply load32_ext; [done|]. intros x Hx. rewrite !store32_spec by done. unfold u8, u32.
  bool_cases; Z.div_mod_to_equations; lia.
Qed.

Lemma push_on hi ws v s : on_stack hi ws s -> 4 * Z.of_nat (S (length ws)) <= hi < 4294967296 ->
  on_stack hi (u32 v :: ws) (push v s).
Proof.
  intros [Hsp Hw] Hhi. unfold on_stack, push. cbn [set_mem regs mem length]. rewrite put_same, Hsp in *.
  assert (Hn : no_wrap (hi - 4 * Z.of_nat (length ws) - 4) 4) by (unfold no_wrap; lia).
  rewrite u32_id by (unfold in_u32; lia). split; [lia|]. cbn [words_at]. split; [by apply load32_store32_mod|].
  replace (_ - 4 + 4) with (hi - 4 * Z.of_nat (length ws)) by lia.
  eapply words_at_ext; [| | |exact Hw]; try lia. intros x Hx. apply store32_other; [done|lia].
Qed.

(** [s] is [s0] with the words [ws] pushed on the stack that ends at
    [hi]. *)
Record built (hi : Z) (ws : list Z) (s0 s : mach) : Prop := {
  built_stack : on_stack hi ws s;
  built_regs : forall r, r <> ESP -> regs s r = regs s0 r;
  built_segs : forall r, segs s r = segs s0 r;
  built_eip : eip s = eip s0;
  built_eflags : eflags s = eflags s0;
  built_mem : forall x, ~ (hi - 4 * Z.of_nat (length ws) <= x < hi) -> mem s x = mem s0 x
}.

Lemma built_nil hi s : regs s ESP = hi -> built hi [] s s.
Proof. intros <-. split; try done. split; [cbn; lia|done]. Qed.

Lemma built_push hi ws v s0 s : built hi ws s0 s -> 4 * Z.of_nat (S (length ws)) <= hi < 4294967296 ->
  built hi (u32 v :: ws) s0 (push v s).
Proof.
  intros [Hs Hr Hg Hi Hf Hm] Hhi. split; try done.
  - by apply push_on.
  - intros r Hne. cbn [push set_mem regs]. rewrite put_other by done. by apply Hr.
  - intros x Hx. cbn [length] in Hx. destruct Hs as [Hsp _]. cbn [push set_mem mem]. rewrite Hsp, u32_id by (unfold in_u32; lia).
    rewrite store32_other by (unfold no_wrap; lia). apply Hm. lia.
Qed.

Lemma built_push_reg hi ws r s0 s : built hi ws s0 s -> r <> ESP -> 4 * Z.of_nat (S (length ws)) <= hi < 4294967296 ->
  built hi (u32 (regs s0 r) :: ws) s0 (push (regs s r) s).
Proof. intros Hb Hr Hhi. rewrite (built_regs _ _ _ _ Hb r Hr). by apply built_push. Qed.

Lemma built_push_seg hi ws r s0 s : built hi ws s0 s -> 4 * Z.of_nat (S (length ws)) <= hi < 4294967296 ->
  built hi (u32 (segs s0 r) :: ws) s0 (push (segs s r) s).
Proof. intros Hb Hhi. rewrite (built_segs _ _ _ _ Hb r). by apply built_push. Qed.

Lemma built_esp hi ws s0 s : built hi ws s0 s -> regs s ESP = hi - 4 * Z.of_nat (length ws).
Proof. intros Hb. apply (built_stack _ _ _ _ Hb). Qed.

Lemma built_put hi ws r v s0 s : r <> ESP -> built hi ws s0 s -> built hi ws (put r v s0) (put r v s).
Proof.
  intros Hr [Hs Hg Hsg Hi Hf Hm]. split; try done.
  - unfold on_stack in *. by rewrite put_other by done.
  - intros r' Hr'. cbn [put regs]. destruct (reg_eqb r' r); [done|by apply Hg].
Qed.

Lemma built_put_seg hi ws r v s0 s : built hi ws s0 s -> built hi ws (put_seg r v s0) (put_seg r v s).
Proof. intros [Hs Hg Hsg Hi Hf Hm]. split; try done. intros r'. cbn [put_seg segs]. destruct (sreg_eqb r' r); [done|apply Hsg]. Qed.

Lemma built_set_eip hi ws v s0 s : built hi ws s0 s -> built hi ws (set_eip v s0) (set_eip v s).
Proof. intros [Hs Hg Hsg Hi Hf Hm]. by split. Qed.

Lemma built_set_eflags hi ws v s0 s : built hi ws s0 s -> built hi ws (set_eflags v s0) (set_eflags v s).
Proof. intros [Hs Hg Hsg Hi Hf Hm]. by split. Qed.

Lemma built_pushal hi ws s0 s : built hi ws s0 s -> 4 * Z.of_nat (8 + length ws) <= hi < 4294967296 ->
  built hi (map u32 [regs s0 EDI; regs s0 ESI; regs s0 EBP; hi - 4 * Z.of_nat (length ws); regs s0 EBX; regs s0 EDX; regs s0 ECX; regs s0 EAX] ++ ws)
    s0 (pushal s).
Proof.
  intros Hb Hhi. unfold pushal. cbn zeta. rewrite (built_esp _ _ _ _ Hb).
  rewrite !(built_regs _ _ _ _ Hb) by done. cbn [map app].
  repeat (apply built_push; [|cbn [length]; lia]). done.
Qed.

Lemma pop_on hi w ws s : on_stack hi (w :: ws) s -> 4 * Z.of_nat (S (length ws)) <= hi < 4294967296 ->
  top s = w /\ on_stack hi ws (drop_top s).
Proof.
  intros [Hsp [Hw Hr]] Hhi. split; [done|]. unfold on_stack, drop_top. rewrite put_same. cbn [length] in Hsp.
  rewrite u32_id by (unfold in_u32; lia). split; [lia|done].
Qed.

(** [s] has the registers and the memory of [s0], and the words [ws] on its
    stack. *)
Record carried (hi : Z) (ws : list Z) (s0 s : mach) : Prop := {
  car_stack : on_stack hi ws s;
  car_regs : forall r, r <> ESP -> regs s r = regs s0 r;
  car_segs : forall r, segs s r = segs s0 r;
  car_eip : eip s = eip s0;
  car_eflags : eflags s = eflags s0;
  car_mem : mem s = mem s0
}.

Lemma carried_drop hi w ws s0 s : carried hi (w :: ws) s0 s -> 4 * Z.of_nat (S (length ws)) <= hi < 4294967296 ->
  top s = w /\ carried hi ws s0 (drop_top s).
Proof.
  intros [Hs Hr Hg Hi Hf Hm] Hhi. destruct (pop_on hi w ws s Hs Hhi) as [Ht Hs']. split; [done|]. split; try done.
  intros r Hne. unfold drop_top. rewrite put_other by done. by apply Hr.
Qed.

Lemma carried_pop r hi w ws s0 s : r <> ESP -> carried hi (w :: ws) s0 s -> 4 * Z.of_nat (S (length ws)) <= hi < 4294967296 ->
  carried hi ws (put r w s0) (pop r s).
Proof.
  intros Hr Hc Hhi. destruct (carried_drop hi w ws s0 s Hc Hhi) as [Ht [Hs' Hr' Hg Hi Hf Hm]]. unfold pop. rewrite Ht.
  split; try done.
  - unfold on_stack in *. by rewrite put_other.
  - intros r' Hne. cbn [put regs]. destruct (reg_eqb r' r); [done|by apply Hr'].
Qed.

Lemma carried_pop_seg r hi w ws s0 s : carried hi (w :: ws) s0 s -> 4 * Z.of_nat (S (length ws)) <= hi < 4294967296 ->
  carried hi ws (put_seg r (u16 w) s0) (pop_seg r s).
Proof.
  intros Hc Hhi. destruct (carried_drop hi w ws s0 s Hc Hhi) as [Ht [Hs' Hr' Hg Hi Hf Hm]]. unfold pop_seg. rewrite Ht.
  split; try done. intros r'. cbn [put_seg segs]. destruct (sreg_eqb r' r); [done|apply Hg].
Qed.

Lemma carried_pop_eip hi w ws s0 s : carried hi (w :: ws) s0 s -> 4 * Z.of_nat (S (length ws)) <= hi < 4294967296 ->
  carried hi ws (set_eip w s0) (pop_eip s).
Proof. intros Hc Hhi. destruct (carried_drop hi w ws s0 s Hc Hhi) as [Ht []]. unfold pop_eip. rewrite Ht. by split. Qed.

Lemma carried_pop_eflags hi w ws s0 s : carried hi (w :: ws) s0 s -> 4 * Z.of_nat (S (length ws)) <= hi < 4294967296 ->
  carried hi ws (set_eflags w s0) (pop_eflags s).
Proof. intros Hc Hhi. destruct (carried_drop hi w ws s0 s Hc Hhi) as [Ht []]. unfold pop_eflags. rewrite Ht. by split. Qed.

Lemma carried_popal hi edi esi ebp osp ebx edx ecx eax ws s0 s :
  carried hi (edi :: esi :: ebp :: osp :: ebx :: edx :: ecx :: eax :: ws) s0 s -> 4 * Z.of_nat (8 + length ws) <= hi < 4294967296 ->
  carried hi ws (put EAX eax (put ECX ecx (put EDX edx (put EBX ebx (put EBP ebp (put ESI esi (put EDI edi s0))))))) (popal s).
Proof.
  intros Hc Hhi. unfold popal. do 4 (apply carried_pop; [done| |cbn [length]; lia]).
  eapply carried_drop; [|cbn [length]; lia]. do 3 (apply carried_pop; [done| |cbn [length]; lia]). exact Hc.
Qed.

(** Adding to the stack pointer drops words. *)
Lemma carried_add hi v ws ws' s0 s : carried hi (ws ++ ws') s0 s -> v = 4 * Z.of_nat (length ws) ->
  4 * Z.of_nat (length ws + length ws') <= hi < 4294967296 -> carried hi ws' s0 (put ESP (u32 (regs s ESP + v)) s).
Proof.
  intros [[Hsp Hw] Hr Hg Hi Hf Hm] -> Hhi. rewrite length_app in Hsp. apply words_at_app in Hw as [_ Hw]. split; try done.
  - unfold on_stack. rewrite put_same. cbn [put mem]. rewrite Hsp, u32_id by (unfold in_u32; lia). split; [lia|].
    replace (hi - _ + _) with (regs s ESP + 4 * Z.of_nat (length ws)) by lia. exact Hw.
  - intros r Hne. rewrite put_other by done. by apply Hr.
Qed.

(** The words in memory from an address up. *)
Fixpoint loads (a : Z) (n : nat) (m : memory) : list Z :=
  match n with
  | O => []
  | S n => load32 a m :: loads (a + 4) n m
  end.

Lemma carried_loads n s : carried (regs s ESP + 4 * Z.of_nat n) (loads (regs s ESP) n (mem s)) s s.
Proof.
  split; try done. assert (Hl : forall a k, length (loads a k (mem s)) = k) by (intros a k; revert a; induction k; cbn; auto).
  split; [rewrite Hl; lia|]. generalize (regs s ESP). intros a. clear Hl. revert a. induction n; intros a; cbn; auto.
Qed.
