(* ===== verification/Asm.v ===== *)
(** * trapasm.S, swtch.S, usys.S and initcode.S

    The assembly code between the programs and the kernel, on the machine of
    X86.v: the way into the kernel through the interrupt descriptor table,
    the entry points of vectors.S and alltraps; the way back through
    trapret; the switch between kernel threads; the system call stubs of the
    user programs.

    The C functions they call (trap, forkret) are only assumed to keep to
    the calling convention: they return with the stack pointer they were
    called with. *)

From stdpp Require Import base numbers strings gmap list.
From S2P Require Import Prelude Kmonad Kstring Mmu Kalloc Proc Syscall Vectors X86.

Local Open Scope Z_scope.

(** ** The code *)

(** alltraps, up to the call of trap; [next] is the instruction after it. *)
Definition alltraps (trap next : Z) : list instr :=
  [PushSeg DS; PushSeg ES; PushSeg FS; PushSeg GS; Pushal;
   MovwAx (Z.shiftl SEG_KDATA 3); MovwSeg DS; MovwSeg ES;
   Push ESP; Call trap next].

Definition trapret : list instr :=
  [Popal; PopSeg GS; PopSeg FS; PopSeg ES; PopSeg DS; AddImm 8 ESP; Iret].

(** From the return of trap. *)
Definition after_trap : list instr := AddImm 4 ESP :: trapret.

Definition swtch : list instr :=
  [Load 4 ESP EAX; Load 8 ESP EDX;
   Push EBP; Push EBX; Push ESI; Push EDI;
   Store ESP EAX; Mov EDX ESP;
   Pop EDI; Pop ESI; Pop EBX; Pop EBP; Ret].

(** An entry point of vectors.S; [alltraps] is the label. *)
Definition vector_instr (alltraps : Z) (v : vinstr) : instr :=
  match v with pushl n => PushImm n | jmp_alltraps => Jmp alltraps end.

(** syscall.h *)
Definition SYS_number (n : sysname) : Z :=
  match n with
  | sys_fork => 1 | sys_exit => 2 | sys_wait => 3 | sys_pipe => 4 | sys_read => 5 | sys_kill => 6
  | sys_exec => 7 | sys_fstat => 8 | sys_chdir => 9 | sys_dup => 10 | sys_getpid => 11 | sys_sbrk => 12
  | sys_sleep => 13 | sys_uptime => 14 | sys_open => 15 | sys_write => 16 | sys_mknod => 17
  | sys_unlink => 18 | sys_link => 19 | sys_mkdir => 20 | sys_close => 21 | sys_uthread_init => 22
  | sys_getpinfo => 23 | sys_setSchedPolicy => 24 | sys_yield => 25
  end.

(** usys.S: the macro SYSCALL, up to the int, whose next instruction is the
    ret. *)
Definition SYSCALL (n : sysname) (next : Z) : list instr := [MovImm (SYS_number n) EAX; Int 64 next].

(** initcode.S, up to its int. *)
Definition initcode (argv init next : Z) : list instr :=
  [PushImm argv; PushImm init; PushImm 0; MovImm (SYS_number sys_exec) EAX; Int 64 next].

(** ** Frames in memory *)

(** struct trapframe at [a]. *)
Definition load_tf (a : Z) (m : memory) : trapframe :=
  mktf (load32 a m) (load32 (a + 4) m) (load32 (a + 8) m) (load32 (a + 12) m)
    (load32 (a + 16) m) (load32 (a + 20) m) (load32 (a + 24) m) (load32 (a + 28) m)
    (u16 (load32 (a + 32) m)) (u16 (load32 (a + 36) m)) (u16 (load32 (a + 40) m)) (u16 (load32 (a + 44) m))
    (load32 (a + 48) m) (load32 (a + 52) m) (load32 (a + 56) m) (u16 (load32 (a + 60) m))
    (load32 (a + 64) m) (load32 (a + 68) m) (u16 (load32 (a + 72) m)).

(** struct context at [a]. *)
Definition load_ctx (a : Z) (m : memory) : context :=
  mkcontext (load32 a m) (load32 (a + 4) m) (load32 (a + 8) m) (load32 (a + 12) m) (load32 (a + 16) m).

Lemma load_tf_words a m edi esi ebp oesp ebx edx ecx eax gs fs es ds n err ip cs fl sp ss :
  words_at a [edi; esi; ebp; oesp; ebx; edx; ecx; eax; gs; fs; es; ds; n; err; ip; cs; fl; sp; ss] m ->
  load_tf a m = mktf edi esi ebp oesp ebx edx ecx eax (u16 gs) (u16 fs) (u16 es) (u16 ds) n err ip (u16 cs) fl sp (u16 ss).
Proof.
  intros H. assert (H0 := proj1 H). assert (Hi := fun i w => words_at_lookup _ a m i w H). unfold load_tf.
  rewrite H0, (Hi 1%nat _ eq_refl : load32 (a + 4) m = _), (Hi 2%nat _ eq_refl : load32 (a + 8) m = _), (Hi 3%nat _ eq_refl : load32 (a + 12) m = _),
    (Hi 4%nat _ eq_refl : load32 (a + 16) m = _), (Hi 5%nat _ eq_refl : load32 (a + 20) m = _), (Hi 6%nat _ eq_refl : load32 (a + 24) m = _),
    (Hi 7%nat _ eq_refl : load32 (a + 28) m = _), (Hi 8%nat _ eq_refl : load32 (a + 32) m = _), (Hi 9%nat _ eq_refl : load32 (a + 36) m = _),
    (Hi 10%nat _ eq_refl : load32 (a + 40) m = _), (Hi 11%nat _ eq_refl : load32 (a + 44) m = _), (Hi 12%nat _ eq_refl : load32 (a + 48) m = _),
    (Hi 13%nat _ eq_refl : load32 (a + 52) m = _), (Hi 14%nat _ eq_refl : load32 (a + 56) m = _), (Hi 15%nat _ eq_refl : load32 (a + 60) m = _),
    (Hi 16%nat _ eq_refl : load32 (a + 64) m = _), (Hi 17%nat _ eq_refl : load32 (a + 68) m = _), (Hi 18%nat _ eq_refl : load32 (a + 72) m = _).
  reflexivity.
Qed.

(** The frame of machine [s] interrupted by [n]. *)
Definition frame_of (s : mach) (n err oesp : Z) : trapframe :=
  mktf (regs s EDI) (regs s ESI) (regs s EBP) oesp (regs s EBX) (regs s EDX) (regs s ECX) (regs s EAX)
    (segs s GS) (segs s FS) (segs s ES) (segs s DS) n err (eip s) (segs s CS) (eflags s) (regs s ESP) (segs s SS).

(** A machine with the registers of a frame. *)
Record restored (tf : trapframe) (s : mach) : Prop := {
  res_edi : regs s EDI = tf_edi tf;
  res_esi : regs s ESI = tf_esi tf;
  res_ebp : regs s EBP = tf_ebp tf;
  res_ebx : regs s EBX = tf_ebx tf;
  res_edx : regs s EDX = tf_edx tf;
  res_ecx : regs s ECX = tf_ecx tf;
  res_eax : regs s EAX = tf_eax tf;
  res_esp : regs s ESP = tf_esp tf;
  res_gs : segs s GS = tf_gs tf;
  res_fs : segs s FS = tf_fs tf;
  res_es : segs s ES = tf_es tf;
  res_ds : segs s DS = tf_ds tf;
  res_cs : segs s CS = tf_cs tf;
  res_ss : segs s SS = tf_ss tf;
  res_eip : eip s = tf_eip tf;
  res_eflags : eflags s = tf_eflags tf
}.

(** Registers of their widths. *)
Definition mach_ok (s : mach) : Prop :=
  (forall r, in_u32 (regs s r)) /\ (forall r, in_u16 (segs s r)) /\ in_u32 (eip s) /\ in_u32 (eflags s).

(** A selector user mode may have in a data segment register. *)
Definition user_sel (t : tables) (sel : Z) : bool :=
  match gdt t !! Z.to_nat (Z.shiftr sel 3) with
  | Some d => negb ((sd_p d =? 1) && (sd_dpl d <? 3))
  | None => true
  end.

(** A frame that returns to user mode. *)
Definition user_frame (t : tables) (tf : trapframe) : bool :=
  (Z.land (tf_cs tf) 3 =? 3) && user_sel t (tf_ds tf) && user_sel t (tf_es tf) && user_sel t (tf_fs tf) && user_sel t (tf_gs tf).

(** ** Into the kernel *)

(** The whole way: the processor delivers interrupt [n], and then, from the
    address it found in the table, the code of an entry point and alltraps
    run.  [lab] gives the addresses of the labels vector0 to vector255. *)
Definition enter (lab : Z -> Z) (all trap next : Z) (t : tables) (s : mach) : option mach :=
  '(_, code) ← find (fun v => lab (fst v) =? eip s) handlers;
  s ← run t (vector_instr all <$> code) s;
  run t (alltraps trap next) s.

Definition trap_entry (lab : Z -> Z) (all trap next : Z) (t : tables) (soft : bool) (n : Z) (err : option Z) (s : mach) : option mach :=
  s ← deliver t soft n err s;
  enter lab all trap next t s.

(** What alltraps leaves for trap: the frame below the top of the stack
    [hi], its address as the argument, the return address; the kernel's
    data segments; everything else as before. *)
Record at_trap (t : tables) (trap next hi : Z) (istrap : bool) (s s1 : mach) : Prop := {
  at_eip : eip s1 = trap;
  at_esp : regs s1 ESP = hi - 84;
  at_ret : load32 (hi - 84) (mem s1) = u32 next;
  at_arg : load32 (hi - 80) (mem s1) = hi - 76;
  at_ds : segs s1 DS = Z.shiftl SEG_KDATA 3;
  at_es : segs s1 ES = Z.shiftl SEG_KDATA 3;
  at_cs : segs s1 CS = Z.shiftl SEG_KCODE 3;
  at_ss : segs s1 SS = ss0 t;
  at_flags : eflags s1 = clear_flags (if istrap then STS_TG32 else STS_IG32) (eflags s);
  at_mem : forall x, ~ (hi - 84 <= x < hi) -> mem s1 x = mem s x
}.

Lemma vectors_lookup n : 0 <= n < 256 -> vectors !! Z.to_nat n = Some n.
Proof.
  intros Hn. destruct vectors_generated as [_ ->]. unfold gen_table. rewrite lookup_seqZ. split; lia.
Qed.

Lemma find_stub lab n l : n ∈ l -> (forall k, k ∈ l -> lab k = lab n -> k = n) ->
  find (fun v => lab (fst v) =? lab n) (gen_stub <$> l) = Some (gen_stub n).
Proof.
  induction l as [|k l IH]; intros Hn Hi; [by apply not_elem_of_nil in Hn|]. cbn [fmap list_fmap find gen_stub fst].
  destruct (Z.eqb_spec (lab k) (lab n)) as [E|E].
  - by rewrite (Hi k (list_elem_of_here _ _) E).
  - apply IH; [set_solver|]. intros j Hj. apply Hi. set_solver.
Qed.

Lemma gate_offset v : in_u32 v -> Z.lor (Z.shiftl (Z.shiftr v 16) 16) (Z.land v 0xffff) = v.
Proof.
  intros _. apply Z.bits_inj'. intros i Hi. change 0xffff with (Z.ones 16).
  rewrite Z.lor_spec, Z.land_spec, Z.shiftl_spec, Z.testbit_ones_nonneg by lia.
  destruct (Z.ltb_spec i 16); [rewrite Z.testbit_neg_r by lia; by rewrite andb_true_r|].
  rewrite Z.shiftr_spec by lia. replace (i - 16 + 16) with i by lia. by rewrite andb_false_r, orb_false_r.
Qed.

Lemma tvinit_lookup lab n : 0 <= n < 256 -> tvinit (lab <$> vectors) !! Z.to_nat n =
  Some (SETGATE (n =? 64) (Z.shiftl SEG_KCODE 3) (lab n) (if n =? 64 then DPL_USER else 0)).
Proof.
  intros Hn. unfold tvinit. destruct (Z.eqb_spec n 64) as [->|Hne].
  - rewrite list_lookup_insert_eq; [done|]. rewrite !length_fmap. vm_compute. lia.
  - rewrite list_lookup_insert_ne by lia. rewrite !list_lookup_fmap, vectors_lookup by done. done.
Qed.

Section entry.
Context (lab : Z -> Z) (all trap next : Z) (t : tables).
Hypothesis Hidt : idt t = tvinit (lab <$> vectors).
Hypothesis Hlab : forall n, 0 <= n < 256 -> in_u32 (lab n).
Hypothesis Hinj : forall n k, 0 <= n < 256 -> 0 <= k < 256 -> lab k = lab n -> k = n.

(** The registers on the kernel's side: its stack and code segment. *)
Definition kernel_side (n : Z) (s : mach) : mach :=
  put_seg CS (Z.shiftl SEG_KCODE 3) (set_eflags (clear_flags (if n =? 64 then STS_TG32 else STS_IG32) (eflags s))
    (put ESP (esp0 t) (put_seg SS (ss0 t) s))).

Hypothesis Hstack : 84 <= esp0 t < 4294967296.

Lemma deliver_user soft n err s : cpl s = 3 -> 0 <= n < 256 -> (soft = true -> n = 64) ->
  exists s1, deliver t soft n err s = Some s1 /\
    built (esp0 t) (map u32 (option_list err ++ [eip s; segs s CS; eflags s; regs s ESP; segs s SS])) (set_eip (lab n) (kernel_side n s)) s1.
Proof.
  intros Hc Hn Hs. unfold deliver. rewrite Hidt, tvinit_lookup by done. cbn [mbind option_bind gd_p gd_dpl gd_type gd_cs SETGATE off_31_16 off_15_0].
  rewrite Hc. assert (E : (1 =? 0) || (soft && ((if n =? 64 then DPL_USER else 0) <? 3)) = false).
  { destruct soft; [|done]. by rewrite Hs. }
  rewrite E. change (3 =? 0) with false. rewrite gate_offset by auto. cbn zeta iota. eexists. split; [done|].
  unfold kernel_side. apply built_set_eip, built_put_seg.
  assert (Hb : built (esp0 t) (map u32 (option_list err ++ [eip s; segs s CS; eflags s; regs s ESP; segs s SS])) (put ESP (esp0 t) (put_seg SS (ss0 t) s))
    (match err with Some e => push e | None => id end (push (eip s) (push (segs s CS) (push (eflags s)
      (push (regs s ESP) (push (segs s SS) (put ESP (esp0 t) (put_seg SS (ss0 t) s))))))))).
  { destruct err; cbn [option_list app map id]; repeat (apply built_push; [|cbn [length]; lia]); by apply built_nil. }
  destruct err; cbn [id] in Hb; rewrite (built_eflags _ _ _ _ Hb); by apply built_set_eflags.
Qed.

Lemma vector_run n err s s1 : built (esp0 t) (map u32 (option_list err ++ [eip s; segs s CS; eflags s; regs s ESP; segs s SS])) (set_eip (lab n) (kernel_side n s)) s1 ->
  0 <= n < 256 -> (is_Some err <-> has_err n = true) ->
  exists code s2, find (fun v => lab (fst v) =? eip s1) handlers = Some (n, code) /\ run t (vector_instr all <$> code) s1 = Some s2 /\
    built (esp0 t) (map u32 [n; default 0 err; eip s; segs s CS; eflags s; regs s ESP; segs s SS]) (set_eip all (kernel_side n s)) s2.
Proof.
  intros Hb Hn He. rewrite (built_eip _ _ _ _ Hb). cbn [eip set_eip]. destruct vectors_generated as [-> _]. unfold gen_handlers.
  rewrite find_stub; [|apply elem_of_seqZ; lia|intros k Hk; apply elem_of_seqZ in Hk; apply Hinj; lia].
  unfold gen_stub. change (set_eip all (kernel_side n s)) with (set_eip all (set_eip (lab n) (kernel_side n s))).
  destruct (has_err n) eqn:E; destruct err as [e|];
    try (by destruct (proj2 He eq_refl)); try (by specialize (proj1 He (mk_is_Some _ e eq_refl)));
    (eexists _, _; split_and!; [done| |apply built_set_eip]; [cbn [negb app fmap list_fmap vector_instr run exec mbind option_bind]; done|]);
    cbn [option_list app map default from_option id]; repeat (apply built_push; [|cbn [length]; lia]); exact Hb.
Qed.

Lemma alltraps_run ws s0 s : built (esp0 t) ws s0 s -> length ws = 7%nat ->
  exists v s1, run t (alltraps trap next) s = Some s1 /\ u16 v = Z.shiftl SEG_KDATA 3 /\
    built (esp0 t) (map u32 ([next; esp0 t - 76; regs s0 EDI; regs s0 ESI; regs s0 EBP; esp0 t - 44; regs s0 EBX; regs s0 EDX; regs s0 ECX; regs s0 EAX;
      segs s0 GS; segs s0 FS; segs s0 ES; segs s0 DS]) ++ ws)
      (set_eip trap (put_seg ES (u16 v) (put_seg DS (u16 v) (put EAX v s0)))) s1.
Proof.
  intros Hb Hl. unfold alltraps. cbn [run exec mbind option_bind].
  apply (built_push_seg _ _ DS) in Hb; [|cbn [length]; lia]. apply (built_push_seg _ _ ES) in Hb; [|cbn [length]; lia].
  apply (built_push_seg _ _ FS) in Hb; [|cbn [length]; lia]. apply (built_push_seg _ _ GS) in Hb; [|cbn [length]; lia].
  apply built_pushal in Hb; [|cbn [length]; lia].
  match type of Hb with built _ _ _ ?x => revert Hb; generalize x; intros s1 Hb end.
  set (v := regs s1 EAX / 65536 * 65536 + _). exists v.
  apply (built_put _ _ EAX v) in Hb; [|done]. apply (built_put_seg _ _ DS (u16 v)) in Hb. apply (built_put_seg _ _ ES (u16 v)) in Hb.
  cbn [regs put_seg put]. cbn [reg_eqb].
  eexists. split_and!; [done|unfold v, u16; change (Z.shiftl SEG_KDATA 3) with 16; Z.div_mod_to_equations; lia|].
  apply built_set_eip. cbn [map app]. cbn [map app length] in Hb. rewrite Hl in Hb. apply built_push; [|cbn [length]; lia].
  replace (esp0 t - 76) with (regs s1 ESP); [apply built_push; [exact Hb|cbn [length]; lia]|].
  pose proof (built_esp _ _ _ _ Hb) as E. cbn [length regs put put_seg reg_eqb] in E. lia.
Qed.

Lemma trap_entry_user soft n err s : mach_ok s -> cpl s = 3 -> 0 <= n < 256 -> (soft = true -> n = 64) ->
  (is_Some err <-> has_err n = true) -> in_u32 (default 0 err) ->
  exists s1, trap_entry lab all trap next t soft n err s = Some s1 /\ at_trap t trap next (esp0 t) (n =? 64) s s1 /\
    load_tf (esp0 t - 76) (mem s1) = frame_of s n (default 0 err) (esp0 t - 44).
Proof.
  intros (Hr & Hg & Hip & Hfl) Hc Hn Hs He Herr.
  destruct (deliver_user soft n err s Hc Hn Hs) as (s1 & H1 & Hb1).
  destruct (vector_run n err s s1 Hb1 Hn He) as (code & s2 & H2 & H3 & Hb2).
  destruct (alltraps_run _ _ s2 Hb2 eq_refl) as (v & s3 & H4 & Hv & Hb3).
  exists s3. split; [unfold trap_entry, enter; rewrite H1; cbn [mbind option_bind]; rewrite H2; cbn [mbind option_bind]; rewrite H3; exact H4|].
  destruct Hb3 as [[Hsp Hw] Gr Gs Gi Gf Gm]. cbn [map app length] in Hsp, Gm. rewrite Hsp in Hw.
  change (4 * Z.of_nat 21) with 84 in *. rewrite Hv in *. split.
  - cbn [map app words_at] in Hw. destruct Hw as (W1 & W2 & _).
    split; [by rewrite Gi|done|exact W1| |by rewrite Gs|by rewrite Gs|by rewrite Gs|by rewrite Gs|by rewrite Gf|].
    + replace (esp0 t - 80) with (esp0 t - 84 + 4) by lia. rewrite W2. apply u32_id. unfold in_u32. lia.
    + intros x Hx. by rewrite Gm.
  - apply (words_at_app [_; _]) in Hw as [_ Hw]. replace (esp0 t - 84 + _) with (esp0 t - 76) in Hw by (cbn; lia).
    cbn [map app] in Hw. apply load_tf_words in Hw. rewrite Hw. unfold frame_of.
    cbn [regs segs set_eip kernel_side put put_seg set_eflags reg_eqb sreg_eqb].
    assert (Hu : forall r, in_u32 (segs s r)) by (intros r; specialize (Hg r); unfold in_u16, in_u32 in *; lia).
    rewrite !(u32_id (segs s _)), !(u32_id (regs s _)), !(u16_id (segs s _)) by done.
    rewrite !u32_id by (done || unfold in_u32; lia). done.
Qed.
End entry.

(** ** Back to user mode *)

Lemma check_seg_user t r s : user_sel t (segs s r) = true -> check_seg t 3 r s = s.
Proof. unfold user_sel, check_seg. destruct (gdt t !! _) as [d|]; [|done]. by destruct (_ && _). Qed.

(** iret to user mode, with the rest of a frame on the stack. *)
Lemma iret_user t hi ip cs fl sp ss s0 s : carried hi [ip; cs; fl; sp; ss] s0 s -> 20 <= hi < 4294967296 ->
  cpl s0 = 0 -> Z.land (u16 cs) 3 = 3 -> (forall r, r = DS \/ r = ES \/ r = FS \/ r = GS -> user_sel t (segs s0 r) = true) ->
  let s' := iret t s in
  (forall r, r <> ESP -> regs s' r = regs s0 r) /\ regs s' ESP = sp /\ eip s' = ip /\ eflags s' = fl /\ mem s' = mem s0 /\
  segs s' CS = u16 cs /\ segs s' SS = u16 ss /\ (forall r, r <> CS -> r <> SS -> segs s' r = segs s0 r).
Proof.
  intros Hc Hhi Hk Hcs Hu. unfold iret. assert (E : cpl s = 0) by (unfold cpl; by rewrite (car_segs _ _ _ _ Hc)). rewrite E.
  apply carried_pop_eip in Hc; [|cbn; lia]. apply (carried_pop_seg CS) in Hc; [|cbn; lia]. apply carried_pop_eflags in Hc; [|cbn; lia].
  match type of Hc with carried _ _ _ ?x => revert Hc; generalize x; intros s1 Hc end.
  assert (E1 : cpl s1 = 3) by (unfold cpl; by rewrite (car_segs _ _ _ _ Hc)). rewrite E1. cbn zeta. change (0 <? 3) with true. cbn iota.
  apply carried_drop in Hc as [-> Hc]; [|cbn; lia]. apply (carried_pop_seg SS) in Hc; [|cbn; lia].
  match type of Hc with carried _ _ _ ?x => revert Hc; generalize x; intros s2 Hc end.
  destruct Hc as [_ Hr Hg Hi Hf Hm].
  rewrite (check_seg_user t DS), (check_seg_user t ES), (check_seg_user t FS), (check_seg_user t GS)
    by (cbn [put segs]; rewrite Hg; cbn; apply Hu; auto).
  split_and!; try done.
  - intros r Hne. rewrite put_other by done. rewrite Hr by done. done.
  - cbn [put segs]. rewrite Hg. done.
  - cbn [put segs]. rewrite Hg. done.
  - intros r H1 H2. cbn [put segs]. rewrite Hg. by destruct r.
Qed.

Lemma trapret_words t hi edi esi ebp osp ebx edx ecx eax gs fs es ds n err ip cs fl sp ss s :
  let tf := mktf edi esi ebp osp ebx edx ecx eax (u16 gs) (u16 fs) (u16 es) (u16 ds) n err ip (u16 cs) fl sp (u16 ss) in
  carried hi [edi; esi; ebp; osp; ebx; edx; ecx; eax; gs; fs; es; ds; n; err; ip; cs; fl; sp; ss] s s ->
  76 <= hi < 4294967296 -> cpl s = 0 -> user_frame t tf = true ->
  exists s', run t trapret s = Some s' /\ restored tf s' /\ mem s' = mem s.
Proof.
  intros tf Hc Hhi Hk Hu. unfold trapret. cbn [run exec mbind option_bind].
  apply carried_popal in Hc; [|cbn; lia]. apply (carried_pop_seg GS) in Hc; [|cbn; lia]. apply (carried_pop_seg FS) in Hc; [|cbn; lia].
  apply (carried_pop_seg ES) in Hc; [|cbn; lia]. apply (carried_pop_seg DS) in Hc; [|cbn; lia].
  apply (carried_add _ 8 [_; _]) in Hc; [|done|cbn; lia].
  match type of Hc with carried _ _ _ ?x => revert Hc; generalize x; intros s1 Hc end.
  unfold user_frame in Hu. cbn [tf tf_cs tf_ds tf_es tf_fs tf_gs] in Hu. rewrite !andb_true_iff, Z.eqb_eq in Hu.
  destruct Hu as ((((Hcs & Hd) & He) & Hf) & Hg). eexists. split; [done|].
  destruct (iret_user t hi ip cs fl sp ss _ s1 Hc ltac:(lia) Hk Hcs) as (R1 & R2 & R3 & R4 & R5 & R6 & R7 & R8).
  { intros r [-> | [-> | [-> | ->]]]; done. }
  split; [|exact R5]. split; cbn [tf tf_edi tf_esi tf_ebp tf_ebx tf_edx tf_ecx tf_eax tf_gs tf_fs tf_es tf_ds tf_eip tf_cs tf_eflags tf_esp tf_ss];
    try done; try (by rewrite R1); by rewrite R8.
Qed.

(** trapret with the stack pointer at a frame for user mode. *)
Lemma trapret_user t s : cpl s = 0 -> 0 <= regs s ESP -> regs s ESP + 76 < 4294967296 ->
  user_frame t (load_tf (regs s ESP) (mem s)) = true ->
  exists s', run t trapret s = Some s' /\ restored (load_tf (regs s ESP) (mem s)) s' /\ mem s' = mem s.
Proof.
  intros Hk Hlo Hhi Hu. pose proof (carried_loads 19 s) as Hc. pose proof (proj2 (car_stack _ _ _ _ Hc)) as Hw.
  apply load_tf_words in Hw. rewrite Hw in *. eapply trapret_words; [exact Hc|lia|done|done].
Qed.

(** ** swtch *)

(** The machine [s'] after swtch from [s], called with [old] and [new] and
    the return address [ret]. *)
Record switched (old new ret : Z) (s s' : mach) : Prop := {
  sw_old : load32 old (mem s') = regs s ESP - 16;
  sw_saved : load_ctx (regs s ESP - 16) (mem s') = mkcontext (regs s EDI) (regs s ESI) (regs s EBX) (regs s EBP) ret;
  sw_loaded : mkcontext (regs s' EDI) (regs s' ESI) (regs s' EBX) (regs s' EBP) (eip s') = load_ctx new (mem s');
  sw_esp : regs s' ESP = new + 20;
  sw_segs : forall r, segs s' r = segs s r;
  sw_eflags : eflags s' = eflags s;
  sw_mem : forall x, ~ (regs s ESP - 16 <= x < regs s ESP) -> ~ (old <= x < old + 4) -> mem s' x = mem s x
}.

(** swtch is called with stack and arguments at addresses that do not wrap,
    and with its variable [old] apart from the words it pushes. *)
Record swtch_call (old new ret : Z) (s : mach) : Prop := {
  sc_args : words_at (regs s ESP) [ret; old; new] (mem s);
  sc_stack : 16 <= regs s ESP /\ regs s ESP + 12 < 4294967296;
  sc_old : 0 <= old /\ old + 4 < 4294967296;
  sc_apart : old + 4 <= regs s ESP - 16 \/ regs s ESP + 4 <= old;
  sc_new : 0 <= new /\ new + 20 < 4294967296
}.

Lemma load_ctx_words a m edi esi ebx ebp ip : words_at a [edi; esi; ebx; ebp; ip] m -> load_ctx a m = mkcontext edi esi ebx ebp ip.
Proof.
  intros H. assert (H0 := proj1 H). assert (Hi := fun i w => words_at_lookup _ a m i w H). unfold load_ctx.
  by rewrite H0, (Hi 1%nat _ eq_refl : load32 (a + 4) m = _), (Hi 2%nat _ eq_refl : load32 (a + 8) m = _),
    (Hi 3%nat _ eq_refl : load32 (a + 12) m = _), (Hi 4%nat _ eq_refl : load32 (a + 16) m = _).
Qed.

(** The second half of swtch: pop the registers of the new thread. *)
Lemma swtch_pops t new s : regs s ESP = new -> 0 <= new -> new + 20 < 4294967296 ->
  exists s', run t [Pop EDI; Pop ESI; Pop EBX; Pop EBP; Ret] s = Some s' /\
    mkcontext (regs s' EDI) (regs s' ESI) (regs s' EBX) (regs s' EBP) (eip s') = load_ctx new (mem s) /\
    regs s' ESP = new + 20 /\ (forall r, segs s' r = segs s r) /\ eflags s' = eflags s /\ mem s' = mem s.
Proof.
  intros Hsp Hlo Hhi. pose proof (carried_loads 5 s) as Hc. pose proof (proj2 (car_stack _ _ _ _ Hc)) as Hw.
  apply load_ctx_words in Hw. rewrite Hsp in *. rewrite Hw. clear Hw. cbn [run exec mbind option_bind]. eexists. split; [done|].
  cbn [loads] in Hc.
  apply (carried_pop EDI) in Hc; [|done|cbn; lia]. apply (carried_pop ESI) in Hc; [|done|cbn; lia].
  apply (carried_pop EBX) in Hc; [|done|cbn; lia]. apply (carried_pop EBP) in Hc; [|done|cbn; lia].
  apply carried_pop_eip in Hc; [|cbn; lia].
  match type of Hc with carried _ _ _ ?x => revert Hc; generalize x; intros s1 Hc end.
  destruct Hc as [[Hs _] Hr Hg Hi Hf Hm]. rewrite !Hr, Hi, Hs by done. split_and!; try done. cbn [length]. lia.
Qed.

Lemma swtch_run t old new ret s : swtch_call old new ret s -> mach_ok s -> exists s', run t swtch s = Some s' /\ switched old new ret s s'.
Proof.
  intros [Hw Hs Ho Ha Hn] (Hr & _). set (e := regs s ESP) in *.
  assert (Hi := fun i w => words_at_lookup _ _ _ i w Hw).
  set (sa := put EDX new (put EAX old s)).
  assert (Hb : built e (map u32 [regs sa EDI; regs sa ESI; regs sa EBX; regs sa EBP]) sa
    (push (regs sa EDI) (push (regs sa ESI) (push (regs sa EBX) (push (regs sa EBP) sa))))).
  { cbn [map]. repeat (apply built_push; [|cbn [length]; lia]). by apply built_nil. }
  set (sb := push _ _) in Hb.
  assert (E : run t swtch s = run t [Store ESP EAX; Mov EDX ESP; Pop EDI; Pop ESI; Pop EBX; Pop EBP; Ret] sb).
  { unfold swtch. cbn [run exec mbind option_bind]. fold e. rewrite (u32_id (e + 4)) by (unfold in_u32; lia).
    rewrite (Hi 1%nat _ eq_refl : load32 (e + 4) (mem s) = _). cbn [regs put reg_eqb mem]. fold e. rewrite (u32_id (e + 8)) by (unfold in_u32; lia).
    rewrite (Hi 2%nat _ eq_refl : load32 (e + 8) (mem s) = _). reflexivity. }
  clearbody sb. rewrite E. cbn [run exec mbind option_bind].
  destruct Hb as [[Bsp Bw] Br Bg Bi Bf Bm]. cbn [map length] in Bsp, Bm. change (4 * Z.of_nat 4) with 16 in *.
  rewrite (Br EAX) by done. change (regs sa EAX) with old. cbn [set_mem regs]. rewrite (Br EDX) by done. change (regs sa EDX) with new.
  match goal with |- context [pop EDI ?x] => set (sc := x) end.
  destruct (swtch_pops t new sc eq_refl) as (s' & Hrun & Hl & Hsp & Hsg & Hfl & Hm); [lia..|].
  exists s'. split; [exact Hrun|]. assert (Em : mem s' = store32 old (regs sb ESP) (mem sb)) by (by rewrite Hm).
  rewrite Bsp in *. assert (Hmem : forall x, ~ (old <= x < old + 4) -> mem s' x = mem sb x).
  { intros x Hx. rewrite Em. apply store32_other; [unfold no_wrap; lia|done]. }
  split; [|fold e; apply load_ctx_words| | | | |].
  - rewrite Em. rewrite load32_store32_mod by (unfold no_wrap; lia). apply u32_id. unfold in_u32. lia.
  - apply (words_at_ext _ _ (mem sb)); [lia|cbn; lia|intros x Hx; apply Hmem; cbn in Hx; lia|].
    cbn [map] in Bw. rewrite !(u32_id (regs sa _)) in Bw by apply Hr. apply (words_at_app [_; _; _; _] [_]). split; [exact Bw|].
    cbn [words_at length]. split; [|done]. replace (_ + _) with e by lia.
    etransitivity; [|exact (proj1 Hw)]. apply load32_ext; [unfold no_wrap; lia|]. intros x Hx. apply Bm. lia.
  - by rewrite Hl, Hm.
  - done.
  - intros r. rewrite Hsg. apply Bg.
  - by rewrite Hfl.
  - intros x H1 H2. rewrite Hmem by done. apply Bm. exact H1.
Qed.

(** ** The properties *)

(** A C function, called in [s] with its return address on the stack, has
    returned in [s'].  It may have changed any memory. *)
Definition c_returned (s s' : mach) : Prop :=
  regs s' ESP = u32 (regs s ESP + 4) /\ eip s' = load32 (regs s ESP) (mem s) /\ segs s' CS = segs s CS.

(** The tables and labels a running kernel has: the interrupt descriptor
    table of tvinit on the entry points, which are at different addresses,
    and room for a frame on the kernel's stack. *)
Record kernel_tables (lab : Z -> Z) (t : tables) : Prop := {
  kt_idt : idt t = tvinit (lab <$> vectors);
  kt_lab : forall n, 0 <= n < 256 -> in_u32 (lab n);
  kt_inj : forall n k, 0 <= n < 256 -> 0 <= k < 256 -> lab k = lab n -> k = n;
  kt_stack : 84 <= esp0 t < 4294967296
}.

(** The return of trap with the frame at the top of the stack. *)
Lemma after_trap_user t trap next istrap s s1 s2 : at_trap t trap next (esp0 t) istrap s s1 -> 84 <= esp0 t < 4294967296 -> c_returned s1 s2 ->
  user_frame t (load_tf (esp0 t - 76) (mem s2)) = true ->
  exists s3, run t after_trap s2 = Some s3 /\ restored (load_tf (esp0 t - 76) (mem s2)) s3 /\ mem s3 = mem s2.
Proof.
  intros Ha Hs (Hsp & _ & Hcs) Hu. rewrite (at_esp _ _ _ _ _ _ _ Ha), u32_id in Hsp by (unfold in_u32; lia).
  unfold after_trap. cbn [run exec mbind option_bind]. rewrite Hsp, u32_id by (unfold in_u32; lia).
  replace (esp0 t - 84 + 4 + 4) with (esp0 t - 76) by lia.
  apply (trapret_user t (put ESP (esp0 t - 76) s2)); cbn [regs put reg_eqb mem]; try lia; [|done].
  unfold cpl. cbn [segs put]. rewrite Hcs, (at_cs _ _ _ _ _ _ _ Ha). reflexivity.
Qed.

(** C6. An interrupt or system call of a user program.  The processor, the
    entry point of its number and alltraps call trap with the address of a
    frame at the top of the kernel's stack, in which all registers of the
    program are saved with the number and the error code (or 0); interrupts
    are off unless it is a system call, and no memory outside the 84 bytes
    is written.  When trap returns, the program goes on with exactly the
    registers of the frame as trap left it, and so unchanged if trap did not
    change it. *)
Theorem trap_round_trip lab all trap next t soft n err s :
  kernel_tables lab t -> mach_ok s -> cpl s = 3 -> 0 <= n < 256 -> (soft = true -> n = 64) ->
  (is_Some err <-> has_err n = true) -> in_u32 (default 0 err) ->
  exists s1, trap_entry lab all trap next t soft n err s = Some s1 /\ at_trap t trap next (esp0 t) (n =? 64) s s1 /\
    load_tf (esp0 t - 76) (mem s1) = frame_of s n (default 0 err) (esp0 t - 44) /\
    forall s2, c_returned s1 s2 -> user_frame t (load_tf (esp0 t - 76) (mem s2)) = true ->
      exists s3, run t after_trap s2 = Some s3 /\ restored (load_tf (esp0 t - 76) (mem s2)) s3 /\ mem s3 = mem s2.
Proof.
  intros [K1 K2 K3 K4] Hm Hc Hn Hs He Hw.
  destruct (trap_entry_user lab all trap next t K1 K2 K3 K4 soft n err s) as (s1 & H1 & H2 & H3); [done..|].
  exists s1. split_and!; [done..|]. intros s2 Hr. by eapply after_trap_user.
Qed.

(** C21. The context switch between kernel threads.  swtch saves the context
    of the caller and continues in the other thread; when some thread
    switches back to the saved context, which nobody has written in the
    meantime, the first call returns to its caller with the stack pointer
    and the callee-saved registers it had. *)
Theorem swtch_round_trip t old new ret s : swtch_call old new ret s -> mach_ok s ->
  exists s1, run t swtch s = Some s1 /\ switched old new ret s s1 /\
    forall old2 ret2 s2, swtch_call old2 (load32 old (mem s1)) ret2 s2 -> mach_ok s2 ->
      (forall x, regs s ESP - 16 <= x < regs s ESP + 4 -> mem s2 x = mem s1 x) ->
      regs s2 ESP <= regs s ESP - 16 \/ regs s ESP + 4 <= regs s2 ESP - 16 ->
      old2 + 4 <= regs s ESP - 16 \/ regs s ESP + 4 <= old2 ->
      exists s3, run t swtch s2 = Some s3 /\ eip s3 = ret /\ regs s3 ESP = regs s ESP + 4 /\
        forall r, r ∈ [EBX; ESI; EDI; EBP] -> regs s3 r = regs s r.
Proof.
  intros Hc Hm. destruct (swtch_run t old new ret s Hc Hm) as (s1 & H1 & Hs1). exists s1. split_and!; [done..|].
  intros old2 ret2 s2 Hc2 Hm2 Hkeep Hd1 Hd2. destruct (swtch_run t _ _ ret2 s2 Hc2 Hm2) as (s3 & H3 & Hs3). exists s3. split; [done|].
  pose proof (sw_loaded _ _ _ _ _ Hs3) as Hl. rewrite (sw_old _ _ _ _ _ Hs1) in Hl.
  assert (E : load_ctx (regs s ESP - 16) (mem s3) = load_ctx (regs s ESP - 16) (mem s1)).
  { destruct (sc_stack _ _ _ _ Hc). unfold load_ctx. f_equal; apply load32_ext; (unfold no_wrap; lia) || intros x Hx;
    rewrite (sw_mem _ _ _ _ _ Hs3), Hkeep; (done || lia). }
  rewrite E, (sw_saved _ _ _ _ _ Hs1) in Hl. injection Hl as E1 E2 E3 E4 E5. split_and!; [done| |].
  - rewrite (sw_esp _ _ _ _ _ Hs3), (sw_old _ _ _ _ _ Hs1). lia.
  - intros r Hr. rewrite !elem_of_cons, elem_of_nil in Hr. destruct Hr as [-> | [-> | [-> | [-> | []]]]]; assumption.
Qed.

(** A new process.  allocproc leaves a context that enters forkret, whose
    return address is trapret, below the frame: the first swtch to the
    process runs forkret, and when that returns, the registers of the frame
    are loaded. *)
Theorem new_process_starts t old ret k forkret tr s :
  let tfp := u32 (k + KSTACKSIZE - sizeof_trapframe) in
  let c := u32 (tfp - 4 - sizeof_context) in
  swtch_call old c ret s -> mach_ok s -> cpl s = 0 -> 0 <= k -> k + KSTACKSIZE < 4294967296 ->
  words_at c [0; 0; 0; 0; forkret; tr] (mem s) ->
  regs s ESP <= k \/ k + KSTACKSIZE <= regs s ESP - 16 -> old + 4 <= k \/ k + KSTACKSIZE <= old ->
  exists s1, run t swtch s = Some s1 /\ eip s1 = forkret /\
    forall s2, c_returned s1 s2 -> eip s2 = tr /\
      (user_frame t (load_tf tfp (mem s2)) = true ->
       exists s3, run t trapret s2 = Some s3 /\ restored (load_tf tfp (mem s2)) s3).
Proof.
  intros tfp c Hc Hm Hk Hk0 Hk1 Hw Hd1 Hd2. unfold KSTACKSIZE in *.
  assert (Et : tfp = k + 4020) by (unfold tfp, sizeof_trapframe; rewrite u32_id; unfold in_u32, KSTACKSIZE; lia).
  assert (Ec : c = k + 3996) by (unfold c, sizeof_context; rewrite Et, u32_id; unfold in_u32; lia). clearbody tfp c. subst tfp c.
  destruct (swtch_run t _ _ _ s Hc Hm) as (s1 & H1 & Hs1). exists s1. split; [done|].
  assert (Hw1 : words_at (k + 3996) [0; 0; 0; 0; forkret; tr] (mem s1)).
  { eapply words_at_ext; [lia|cbn; lia| |exact Hw]. intros x Hx. cbn in Hx. apply (sw_mem _ _ _ _ _ Hs1); lia. }
  pose proof (sw_loaded _ _ _ _ _ Hs1) as Hl. rewrite (load_ctx_words _ _ 0 0 0 0 forkret) in Hl by (apply (words_at_app [_; _; _; _; _] [_]) in Hw1; apply Hw1).
  injection Hl as _ _ _ _ Hip. split; [done|]. intros s2 (Hsp & Hip2 & Hcs). rewrite (sw_esp _ _ _ _ _ Hs1) in *.
  rewrite u32_id in Hsp by (unfold in_u32; lia). split.
  - rewrite Hip2. exact (words_at_lookup _ _ _ 5 _ Hw1 eq_refl).
  - intros Hu. replace (k + 4020) with (regs s2 ESP) in * by lia.
    destruct (trapret_user t s2) as (s3 & H3 & H4 & _); [|lia|lia|done|by exists s3].
    unfold cpl in *. by rewrite Hcs, (sw_segs _ _ _ _ _ Hs1).
Qed.

Lemma syscall_number nm : syscall_lookup (SYS_number nm) = Some nm /\ in_u32 (SYS_number nm).
Proof. unfold in_u32. destruct nm; (split; [reflexivity|vm_compute; split; congruence]). Qed.

Lemma frame_user t s n e sp : cpl s = 3 -> (forall r, user_sel t (segs s r) = true) -> user_frame t (frame_of s n e sp) = true.
Proof.
  intros Hc Hu. unfold user_frame, frame_of. cbn [tf_cs tf_ds tf_es tf_fs tf_gs]. unfold cpl in Hc. rewrite Hc, !Hu. done.
Qed.

Lemma run_syscall t nm next s : run t (SYSCALL nm next) s = deliver t true 64 None (set_eip next (put EAX (SYS_number nm) s)).
Proof. unfold SYSCALL. cbn [run exec mbind option_bind]. by destruct (deliver _ _ _ _ _). Qed.

(** A system call of a user program, from the call of its stub in usys.S
    to the return: the kernel finds the number in eax that its table has for
    that call, and the registers of the program in the frame.  When trap
    returns with a result in the eax of the frame, the stub returns to its
    caller: with the result in eax, the return address popped, and all other
    registers as they were. *)
Theorem syscall_stub_correct lab all trap next t nm ip s : kernel_tables lab t -> mach_ok s -> cpl s = 3 -> in_u32 ip ->
  (forall r, user_sel t (segs s r) = true) ->
  exists s1, (s' ← run t (SYSCALL nm ip) s; enter lab all trap next t s') = Some s1 /\ eip s1 = trap /\
    syscall_lookup (tf_eax (load_tf (esp0 t - 76) (mem s1))) = Some nm /\ tf_esp (load_tf (esp0 t - 76) (mem s1)) = regs s ESP /\
    forall s2 res, c_returned s1 s2 -> load_tf (esp0 t - 76) (mem s2) = set_tf_eax res (load_tf (esp0 t - 76) (mem s1)) ->
      exists s3, run t (after_trap ++ [Ret]) s2 = Some s3 /\ regs s3 EAX = res /\ regs s3 ESP = u32 (regs s ESP + 4) /\
        eip s3 = load32 (regs s ESP) (mem s2) /\ (forall r, r <> EAX -> r <> ESP -> regs s3 r = regs s r) /\
        (forall r, segs s3 r = segs s r) /\ eflags s3 = eflags s.
Proof.
  intros Hk (Hr & Hg & _ & Hf) Hc Hip Hu. destruct (syscall_number nm) as [Hl Hn]. set (s0 := set_eip ip (put EAX (SYS_number nm) s)).
  destruct Hk as [K1 K2 K3 K4].
  destruct (trap_entry_user lab all trap next t K1 K2 K3 K4 true 64 None s0) as (s1 & H1 & H2 & H3); [|done|done|done|split; [by intros [? ?]|done]|done|].
  { split_and!; try done. intros r. cbn [s0 regs set_eip put]. by destruct (reg_eqb r EAX). }
  exists s1. rewrite run_syscall. split; [exact H1|]. split; [apply H2|]. rewrite H3. split; [exact Hl|]. split; [done|].
  intros s2 res Hret Htf. rewrite run_app.
  destruct (after_trap_user t trap next _ s0 s1 s2 H2 K4 Hret) as (s3 & -> & Hres & Hm).
  { rewrite Htf. by apply (frame_user t s0). }
  rewrite Htf in Hres. destruct Hres. cbn [mbind option_bind run exec]. eexists. split; [done|].
  unfold pop_eip, drop_top, top. cbn [set_eip regs segs eip eflags put reg_eqb]. rewrite Hm. split_and!; try done.
  - by rewrite res_esp0.
  - by rewrite res_esp0.
  - intros r H4 H5. by destruct r.
  - by intros [].
Qed.

(** ** A running kernel *)

Definition lab0 (n : Z) : Z := 2148532224 + 16 * n.
Definition t0 : tables := mktables (tvinit (lab0 <$> vectors)) (seginit (replicate NSEGS zero_segdesc)) 16 2380267520.

Lemma t0_ok : kernel_tables lab0 t0.
Proof. split; [done|unfold lab0, in_u32; lia|unfold lab0; lia|vm_compute; split; congruence]. Qed.

(** A user program with small numbers in its registers. *)
Definition u0 : mach :=
  mkmach (fun r => match r with EAX => 1 | ECX => 2 | EDX => 3 | EBX => 4 | ESP => 12256 | EBP => 12272 | ESI => 7 | EDI => 8 end)
    (fun r => match r with CS => 27 | FS | GS => 0 | _ => 35 end) 4096 514 (fun _ => 0).

Lemma u0_ok : mach_ok u0.
Proof. split_and!; try intros []; vm_compute; split; congruence. Qed.

(** A page fault of the program. *)
Lemma trap_round_trip_witness : exists s1, trap_entry lab0 2148540000 2148550000 2148540020 t0 false 14 (Some 6) u0 = Some s1 /\
  load_tf (esp0 t0 - 76) (mem s1) = frame_of u0 14 6 (esp0 t0 - 44).
Proof.
  destruct (trap_round_trip lab0 2148540000 2148550000 2148540020 t0 false 14 (Some 6) u0) as (s1 & H1 & _ & H3 & _);
    [exact t0_ok|exact u0_ok|reflexivity|lia|discriminate|split; [reflexivity|eauto]|vm_compute; split; congruence|].
  exists s1. split; [exact H1|exact H3].
Defined.

(** getpid. *)
Lemma syscall_stub_correct_witness : exists s1, (s' ← run t0 (SYSCALL sys_getpid 900) u0; enter lab0 2148540000 2148550000 2148540020 t0 s') = Some s1 /\
  syscall_lookup (tf_eax (load_tf (esp0 t0 - 76) (mem s1))) = Some sys_getpid.
Proof.
  destruct (syscall_stub_correct lab0 2148540000 2148550000 2148540020 t0 sys_getpid 900 u0) as (s1 & H1 & _ & H3 & _);
    [exact t0_ok|exact u0_ok|reflexivity|vm_compute; split; congruence|intros []; reflexivity|].
  exists s1. split; [exact H1|exact H3].
Defined.

(** A kernel thread about to call swtch with a variable at 1000 and a new
    context at 2000. *)
Definition k0 : mach :=
  mkmach (fun r => match r with EAX => 1 | ECX => 2 | EDX => 3 | EBX => 4 | ESP => 4000 | EBP => 4100 | ESI => 7 | EDI => 8 end)
    (fun r => match r with CS => 8 | _ => 16 end) 4096 2 (store32 4000 77 (store32 4004 1000 (store32 4008 2000 (fun _ => 0)))).

Lemma k0_call : swtch_call 1000 2000 77 k0.
Proof. split; [vm_compute; tauto|cbn [k0 regs]; lia..]. Qed.

Lemma k0_ok : mach_ok k0.
Proof. split_and!; try intros []; vm_compute; split; congruence. Qed.

Lemma swtch_round_trip_witness : exists s1, run t0 swtch k0 = Some s1 /\ load32 1000 (mem s1) = 3984.
Proof.
  destruct (swtch_round_trip t0 1000 2000 77 k0 k0_call k0_ok) as (s1 & H1 & H2 & _). exists s1. split; [exact H1|exact (sw_old _ _ _ _ _ H2)].
Defined.
