(* ===== verification/Uthread.v ===== *)
(** * uthread1.c and uthread_switch.S: threads inside a user program

    The functions of uthread1.c work on the memory of the program, where the
    table all_thread starts at [A] and the variables current_thread and
    next_thread are at [CT] and [NT]; thread_switch runs on the machine of
    X86.v.  Shown is what thread_create and thread_schedule do to the table,
    and what becomes of a thread that thread_switch enters for the first
    time: thread_create leaves room for eight registers below the address of
    the function, but thread_switch pops none and returns to the word it
    finds there, which is 0 in a fresh program; and it leaves current_thread
    as it was. *)

From stdpp Require Import base numbers strings list.
From S2P Require Import Prelude Kstring Mmu Kalloc Vectors X86.

Local Open Scope Z_scope.

Definition FREE : Z := 0.
Definition RUNNING : Z := 1.
Definition RUNNABLE : Z := 2.
Definition STACK_SIZE : Z := 8192.
Definition MAX_THREAD : nat := 4.

(** struct thread: sp, stack, state. *)
Definition sizeof_thread : Z := 4 + STACK_SIZE + 4.
Definition off_stack : Z := 4.
Definition off_state : Z := 4 + STACK_SIZE.

Section uthread.
Variables A CT NT : Z.

Definition thread (i : nat) : Z := A + sizeof_thread * Z.of_nat i.
Definition state (m : memory) (t : Z) : Z := load32 (t + off_state) m.
Definition set_state (t v : Z) (m : memory) : memory := store32 (t + off_state) v m.

(** How thread_schedule ends: it prints a message and exits, calls
    thread_switch, or returns. *)
Inductive scheduled : Type :=
| Exits (m : memory)
| Switches (m : memory)
| Returns (m : memory).

(** The search for another thread that can run. *)
Definition find_runnable (m : memory) : option Z :=
  find (fun t => (state m t =? RUNNABLE) && negb (t =? load32 CT m)) (thread <$> seq 0 MAX_THREAD).

Definition thread_schedule (m : memory) : scheduled :=
  let cur := load32 CT m in
  let m := store32 NT 0 m in
  let next := match find_runnable m with
              | Some t => t
              | None => if state m cur =? RUNNABLE then cur else 0
              end in
  let m := store32 NT next m in
  if next =? 0 then Exits m
  else if negb (cur =? next) then Switches (set_state cur RUNNABLE (set_state next RUNNING m))
  else Returns (store32 NT 0 m).

(** thread_init, after the system call uthread_init. *)
Definition thread_init (m : memory) : memory :=
  let m := store32 CT (thread 0) m in
  set_state (thread 0) RUNNING m.

(** The thread thread_create uses: the first free one, or what follows the
    table. *)
Definition free_thread (m : memory) : Z :=
  default (thread MAX_THREAD) (find (fun t => state m t =? FREE) (thread <$> seq 0 MAX_THREAD)).

Definition thread_create (func : Z) (m : memory) : memory :=
  let t := free_thread m in
  let sp := t + off_stack + STACK_SIZE in
  let m := store32 t sp m in
  let m := store32 t (load32 t m - 4) m in
  let m := store32 (load32 t m) func m in
  let m := store32 t (load32 t m - 32) m in
  set_state t RUNNABLE m.

(** uthread_switch.S *)
Definition thread_switch : list instr :=
  [LoadAbs CT EAX; Store ESP EAX; LoadAbs NT EBX; Load 0 EBX ESP; Ret].

(** ** The layout *)

(** The table and the two variables, apart from each other. *)
Record layout : Prop := {
  lay_table : 4096 <= A /\ A + 5 * sizeof_thread < KERNBASE;
  lay_ct : 4096 <= CT /\ CT + 4 < KERNBASE;
  lay_nt : 4096 <= NT /\ NT + 4 < KERNBASE;
  lay_apart : CT + 4 <= NT \/ NT + 4 <= CT;
  lay_ct_out : CT + 4 <= A \/ A + 5 * sizeof_thread <= CT;
  lay_nt_out : NT + 4 <= A \/ A + 5 * sizeof_thread <= NT
}.

Lemma load32_store32_ne a b v m : no_wrap a 4 -> no_wrap b 4 -> a + 4 <= b \/ b + 4 <= a -> load32 a (store32 b v m) = load32 a m.
Proof. intros Ha Hb Hd. apply load32_ext; [done|]. intros x Hx. apply store32_other; [done|lia]. Qed.

End uthread.

(** Loads after stores at addresses that are apart. *)
Lemma load32_hit a v m : no_wrap a 4 -> in_u32 v -> load32 a (store32 a v m) = v.
Proof. apply load32_store32. Qed.

Ltac ld := repeat first
  [ rewrite load32_hit by (unfold no_wrap, in_u32, RUNNABLE, RUNNING; lia)
  | rewrite load32_store32_ne by (unfold no_wrap; lia) ].

(** Where a thread lies. *)
Definition in_memory (t : Z) : Prop := 4096 <= t /\ t + sizeof_thread < KERNBASE.

Lemma thread_create_eq A func m : let t := free_thread A m in in_memory t -> thread_create A func m =
  store32 (t + 8196) RUNNABLE (store32 t (t + 8160) (store32 (t + 8192) func (store32 t (t + 8192) (store32 t (t + 8196) m)))).
Proof.
  intros t Ht. unfold thread_create. fold t. clearbody t. unfold in_memory, sizeof_thread, STACK_SIZE, KERNBASE in Ht.
  cbn [Z.add Pos.add Pos.add_carry Pos.succ] in Ht. cbn zeta. replace (t + off_stack + STACK_SIZE) with (t + 8196) by (unfold off_stack, STACK_SIZE; lia).
  rewrite (load32_hit t (t + 8196)) by (unfold no_wrap, in_u32; lia). replace (t + 8196 - 4) with (t + 8192) by lia.
  rewrite (load32_hit t (t + 8192)) by (unfold no_wrap, in_u32; lia). ld.
  replace (t + 8192 - 32) with (t + 8160) by lia. reflexivity.
Qed.

(** thread_create takes the first free thread: its stack pointer is 36 bytes
    below the top of its stack, with the function in the top word, and it
    can run. *)
Theorem thread_create_correct A func m : let t := free_thread A m in let m' := thread_create A func m in
  in_memory t -> in_u32 func ->
  load32 t m' = t + 8160 /\ load32 (t + 8192) m' = func /\ state m' t = RUNNABLE /\
  forall x, ~ (t <= x < t + 4) -> ~ (t + 8192 <= x < t + 8200) -> m' x = m x.
Proof.
  intros t m' Ht Hf. unfold m'. rewrite thread_create_eq by done. fold t. clearbody t. clear m'.
  unfold in_memory, sizeof_thread, STACK_SIZE, KERNBASE in Ht. cbn [Z.add Pos.add Pos.add_carry Pos.succ] in Ht.
  unfold state. change (t + off_state) with (t + 8196). split_and!.
  - by ld.
  - rewrite !(load32_store32_ne (t + 8192)) by (unfold no_wrap; lia). by rewrite load32_hit by (done || unfold no_wrap; lia).
  - by ld.
  - intros x H1 H2. rewrite !store32_other by (unfold no_wrap; lia). done.
Qed.

Lemma threads_eq A : thread A <$> seq 0 MAX_THREAD = [A; A + 8200; A + 16400; A + 24600].
Proof. unfold thread. cbn -[Z.mul Z.add Z.of_nat]. change sizeof_thread with 8200. repeat (apply f_equal2; [lia|]). done. Qed.

Lemma load32_zero a m : no_wrap a 4 -> (forall x, a <= x < a + 4 -> m x = 0) -> load32 a m = 0.
Proof. intros (H1 & _ & H2) H. unfold load32. rewrite !u32_id by (unfold in_u32; lia). rewrite !H by lia. done. Qed.

Section fresh.
Variables A CT NT func : Z.
Variable m : memory.
Hypothesis L : layout A CT NT.
Hypothesis Hzero : forall x, A <= x < A + 4 * sizeof_thread -> m x = 0.
Hypothesis Hfunc : in_u32 func.

Lemma layout_bounds : (4096 <= A /\ A + 41000 < 2147483648) /\ (4096 <= CT /\ CT + 4 < 2147483648) /\ (4096 <= NT /\ NT + 4 < 2147483648) /\
  (CT + 4 <= NT \/ NT + 4 <= CT) /\ (CT + 4 <= A \/ A + 41000 <= CT) /\ (NT + 4 <= A \/ A + 41000 <= NT).
Proof. clear - L. destruct L as [H1 H2 H3 H4 H5 H6]. change (5 * sizeof_thread) with 41000 in *. unfold KERNBASE in *. split_and!; tauto || lia. Qed.

Lemma zero_word a : A <= a -> a + 4 <= A + 32800 -> load32 a m = 0.
Proof.
  intros H1 H2. pose proof layout_bounds as B. apply load32_zero; [unfold no_wrap; lia|]. intros x Hx. apply Hzero. change sizeof_thread with 8200. lia.
Qed.

(** The memory after thread_init and thread_create. *)
Lemma created : thread_create A func (thread_init A CT m) =
  store32 (A + 16396) RUNNABLE (store32 (A + 8200) (A + 16360) (store32 (A + 16392) func (store32 (A + 8200) (A + 16392) (store32 (A + 8200) (A + 16396)
    (store32 (A + 8196) RUNNING (store32 CT A m)))))).
Proof.
  pose proof layout_bounds as B. unfold thread_init, set_state. change (A + sizeof_thread * Z.of_nat 0) with (A + 0). unfold thread.
  replace (A + sizeof_thread * Z.of_nat 0) with A by lia. change (A + off_state) with (A + 8196).
  set (m1 := store32 (A + 8196) RUNNING (store32 CT A m)).
  assert (Hf : free_thread A m1 = A + 8200).
  { unfold free_thread. rewrite threads_eq. cbn [find]. unfold state. change (A + off_state) with (A + 8196). rewrite <- !Z.add_assoc. change (8200 + off_state) with 16396.
    unfold m1. ld. rewrite (zero_word (A + 16396)) by lia. done. }
  rewrite thread_create_eq; rewrite Hf; [|unfold in_memory, KERNBASE; change sizeof_thread with 8200; lia].
  rewrite <- !Z.add_assoc. reflexivity.
Qed.

Lemma first_schedule : exists m2, thread_schedule A CT NT (thread_create A func (thread_init A CT m)) = Switches m2 /\
  load32 CT m2 = A /\ load32 NT m2 = A + 8200 /\ load32 (A + 8200) m2 = A + 16360 /\ load32 (A + 16360) m2 = 0.
Proof.
  pose proof layout_bounds as B. rewrite created. set (m1 := store32 (A + 16396) _ _).
  assert (Hc : load32 CT m1 = A) by (unfold m1; by ld).
  assert (Hr : find_runnable A CT (store32 NT 0 m1) = Some (A + 8200)).
  { unfold find_runnable. rewrite threads_eq. cbn [find]. unfold state. change (A + off_state) with (A + 8196). rewrite <- !Z.add_assoc. change (8200 + off_state) with 16396.
    rewrite (load32_store32_ne CT NT), Hc by (unfold no_wrap; lia). unfold m1. ld.
    rewrite (proj2 (Z.eqb_neq (A + 8200) A)) by lia. done. }
  unfold thread_schedule. cbn zeta. rewrite Hc, Hr. rewrite (proj2 (Z.eqb_neq (A + 8200) 0)), (proj2 (Z.eqb_neq A (A + 8200))) by lia. cbn [negb].
  eexists. split; [done|]. unfold set_state. rewrite <- !Z.add_assoc. change (8200 + off_state) with 16396. change (A + off_state) with (A + 8196).
  split_and!; [ld; exact Hc|by ld|unfold m1; by ld|unfold m1; ld; apply zero_word; lia].
Qed.
End fresh.

(** The first thread of a program whose table is still zero: thread_schedule
    after thread_create switches to it, but thread_switch returns to address
    0, not to the function, with ebx overwritten; and current_thread still
    names the old thread. *)
Theorem new_thread_starts_at_zero A CT NT func m t s : layout A CT NT -> (forall x, A <= x < A + 4 * sizeof_thread -> m x = 0) -> in_u32 func ->
  exists m2, thread_schedule A CT NT (thread_create A func (thread_init A CT m)) = Switches m2 /\
    (mem s = m2 -> exists s', run t (thread_switch CT NT) s = Some s' /\ eip s' = 0 /\ regs s' EBX = thread A 1 /\ load32 CT (mem s') = thread A 0).
Proof.
  intros L Hz Hf. destruct (first_schedule A CT NT func m L Hz) as (m2 & H1 & Hc & Hn & Hsp & H0). exists m2. split; [done|]. intros Hm.
  pose proof (layout_bounds A CT NT L) as B. unfold thread_switch. cbn [run exec mbind option_bind regs put reg_eqb mem set_mem]. rewrite Hm, Hc.
  rewrite (load32_store32_ne NT), Hn by (unfold no_wrap; lia). rewrite Z.add_0_r, (u32_id (A + 8200)) by (unfold in_u32; lia).
  rewrite (load32_store32_ne (A + 8200)), Hsp by (unfold no_wrap; lia). eexists. split; [done|].
  unfold pop_eip, drop_top, top. cbn [eip set_eip regs put reg_eqb mem set_mem]. rewrite !load32_store32_ne, H0, Hc by (unfold no_wrap; lia).
  unfold thread. change sizeof_thread with 8200. split_and!; lia.
Qed.
