(* ===== verification/Boot.v ===== *)
(** * bootmain.c: the boot loader

    bootmain reads the ELF image of the kernel from the disk, sector by
    sector, into physical memory and jumps to its entry.  The disk is the
    one of Ide.v; it has carried out its command when its status says ready.
    [None] stands for waiting for a disk that never gets ready.

    Shown is that, when the segments are in an order in which the whole
    sectors of one do not hit what was loaded before, every segment ends up
    in memory as the file has it, with the rest of it zero. *)

From stdpp Require Import base numbers strings gmap list.
From S2P Require Import Prelude Kmonad Kstring Mmu Kalloc Block Bio Ide.

Local Open Scope Z_scope.

Definition SECTSIZE : Z := 512.
Definition ELF_MAGIC : Z := 0x464C457F.

Record boot : Type := mkboot {
  bmem : memory;
  bdisk : disk
}.

Definition ready (r : Z) : bool := Z.land r 0xC0 =? 0x40.

Fixpoint waitdisk_loop (st : list Z) : option (list Z) :=
  match st with
  | [] => None
  | r :: st => if ready r then Some st else waitdisk_loop st
  end.

Definition waitdisk (d : disk) : option disk :=
  st ← waitdisk_loop (dstat d);
  Some (disk_complete (set_stat st d)).

(** rep insl: the bytes of the data port, from [dst] on *)
Fixpoint insl (dst : Z) (bs : bytes) (m : memory) : memory :=
  match bs with
  | [] => m
  | b :: bs => insl (u32 (dst + 1)) bs (store8 dst b m)
  end.

Definition readsect (dst offset : Z) (s : boot) : option boot :=
  d ← waitdisk (bdisk s);
  let d := disk_outb 0x1F2 1 d in
  let d := disk_outb 0x1F3 offset d in
  let d := disk_outb 0x1F4 (Z.shiftr offset 8) d in
  let d := disk_outb 0x1F5 (Z.shiftr offset 16) d in
  let d := disk_outb 0x1F6 (Z.lor (Z.shiftr offset 24) 0xE0) d in
  let d := disk_outb 0x1F7 0x20 d in
  d ← waitdisk d;
  Some (mkboot (insl dst (take (Z.to_nat SECTSIZE) (din d)) (bmem s)) d).

Fixpoint readseg_loop (fuel : nat) (pa epa offset : Z) (s : boot) : option boot :=
  if pa <? epa then
    match fuel with
    | O => None
    | S fuel => s ← readsect pa offset s; readseg_loop fuel (u32 (pa + SECTSIZE)) epa (u32 (offset + 1)) s
    end
  else Some s.

(** The loop runs once for each sector of the segment, which has one more
    when it does not start at a sector boundary. *)
Definition readseg (pa count offset : Z) (s : boot) : option boot :=
  let epa := u32 (pa + count) in
  let pa := u32 (pa - offset mod SECTSIZE) in
  let offset := u32 (offset / SECTSIZE + 1) in
  readseg_loop (Z.to_nat (count / SECTSIZE + 2)) pa epa offset s.

(** struct elfhdr at [a] and struct proghdr at [a] *)
Definition load16 (a : Z) (m : memory) : Z := m a + 256 * m (u32 (a + 1)).
Definition elf_entry (a : Z) (m : memory) : Z := load32 (u32 (a + 24)) m.
Definition elf_phoff (a : Z) (m : memory) : Z := load32 (u32 (a + 28)) m.
Definition elf_phnum (a : Z) (m : memory) : Z := load16 (u32 (a + 44)) m.
Definition ph_off (a : Z) (m : memory) : Z := load32 (u32 (a + 4)) m.
Definition ph_paddr (a : Z) (m : memory) : Z := load32 (u32 (a + 12)) m.
Definition ph_filesz (a : Z) (m : memory) : Z := load32 (u32 (a + 16)) m.
Definition ph_memsz (a : Z) (m : memory) : Z := load32 (u32 (a + 20)) m.
Definition sizeof_proghdr : Z := 32.

Definition elf : Z := 0x10000.

(** One round of the loop over the program headers. *)
Definition load_segment (ph : Z) (s : boot) : option boot :=
  let pa := ph_paddr ph (bmem s) in
  s ← readseg pa (ph_filesz ph (bmem s)) (ph_off ph (bmem s)) s;
  let m := bmem s in
  if ph_filesz ph m <? ph_memsz ph m then
    Some (mkboot (stosb (u32 (pa + ph_filesz ph m)) 0 (Z.to_nat (ph_memsz ph m - ph_filesz ph m)) m) (bdisk s))
  else Some s.

Fixpoint load_segments (fuel : nat) (ph eph : Z) (s : boot) : option boot :=
  if ph <? eph then
    match fuel with
    | O => None
    | S fuel => s ← load_segment ph s; load_segments fuel (u32 (ph + sizeof_proghdr)) eph s
    end
  else Some s.

(** The address bootmain jumps to; it returns, with no address, when the
    disk holds no ELF file.  phnum has 16 bits. *)
Definition bootmain (s : boot) : option (option Z * boot) :=
  s ← readseg elf 4096 0 s;
  if negb (load32 elf (bmem s) =? ELF_MAGIC) then Some (None, s)
  else
    let ph := u32 (elf + elf_phoff elf (bmem s)) in
    let eph := u32 (ph + sizeof_proghdr * elf_phnum elf (bmem s)) in
    s ← load_segments (Z.to_nat 65536) ph eph s;
    Some (Some (elf_entry elf (bmem s)), s).

(** ** Reading sectors *)

Lemma insl_spec bs : forall dst m x, no_wrap dst (Z.of_nat (length bs)) -> Forall is_byte bs ->
  insl dst bs m x = if in_range dst (Z.of_nat (length bs)) x then nth_byte bs (Z.to_nat (x - dst)) else m x.
Proof.
  induction bs as [|b bs IH]; intros dst m x (H0 & _ & H1) Hb; cbn [insl length] in *; [unfold in_range; bool_cases|].
  apply Forall_cons in Hb as [Hb Hbs]. rewrite u32_id by (unfold in_u32; lia). rewrite IH by (done || unfold no_wrap; lia).
  unfold in_range, store8. bool_cases.
  - subst x. rewrite Z.sub_diag. unfold is_byte in Hb. unfold u8. by rewrite Z.mod_small.
  - replace (Z.to_nat (x - dst)) with (S (Z.to_nat (x - (dst + 1)))) by lia. done.
Qed.

Definition nready (d : disk) : nat := length (filter (fun r => ready r = true) (dstat d)).

Lemma waitdisk_loop_run st n : (S n <= length (filter (fun r => ready r = true) st))%nat ->
  exists st', waitdisk_loop st = Some st' /\ (n <= length (filter (fun r => ready r = true) st'))%nat.
Proof.
  induction st as [|r st IH]; intros Hn; [cbn in Hn; lia|]. cbn [waitdisk_loop]. destruct (ready r) eqn:E.
  - rewrite filter_cons_True in Hn by done. cbn in Hn. exists st. split; [done|lia].
  - rewrite filter_cons_False in Hn by congruence. by apply IH.
Qed.

Lemma waitdisk_run d n : (S n <= nready d)%nat -> exists st, waitdisk d = Some (disk_complete (set_stat st d)) /\ (n <= nready (set_stat st d))%nat.
Proof. intros Hn. destruct (waitdisk_loop_run _ _ Hn) as (st & E & Hst). exists st. split; [|done]. unfold waitdisk. by rewrite E. Qed.

Lemma complete_stat d : dstat (disk_complete d) = dstat d.
Proof. unfold disk_complete. by destruct (dcmd d) as [[]|]. Qed.

Lemma lba_bytes o : 0 <= o < 268435456 -> let b := u8 (Z.lor (Z.shiftr o 24) 0xE0) in
  b / 16 mod 2 = 0 /\ u8 o + 256 * u8 (Z.shiftr o 8) + 65536 * u8 (Z.shiftr o 16) + 16777216 * (b mod 16) = o.
Proof.
  intros Ho b. assert (Hx : 0 <= Z.shiftr o 24 < 16) by (rewrite Z.shiftr_div_pow2 by lia; change (2 ^ 24) with 16777216; Z.div_mod_to_equations; lia).
  assert (Hb : b = Z.shiftr o 24 + 224).
  { unfold b. assert (E : forall x, 0 <= x < 16 -> u8 (Z.lor x 0xE0) = x + 224); [|by apply E].
    intros x Hx'. assert (C : In x (seqZ 0 16)) by (apply list_elem_of_In, elem_of_seqZ; lia).
    cbn in C. repeat (destruct C as [<-|C]; [reflexivity|]). done. }
  rewrite Hb. split; [Z.div_mod_to_equations; lia|]. rewrite !Z.shiftr_div_pow2 in * by lia.
  change (2 ^ 24) with 16777216 in *. change (2 ^ 8) with 256. change (2 ^ 16) with 65536. unfold u8. Z.div_mod_to_equations; lia.
Qed.

(** The registers that readsect writes. *)
Definition programmed (o : Z) (d : disk) : disk :=
  disk_outb 0x1F7 0x20 (disk_outb 0x1F6 (Z.lor (Z.shiftr o 24) 0xE0) (disk_outb 0x1F5 (Z.shiftr o 16)
    (disk_outb 0x1F4 (Z.shiftr o 8) (disk_outb 0x1F3 o (disk_outb 0x1F2 1 d))))).

Lemma readsect_eq dst o s : readsect dst o s =
  (d ← waitdisk (bdisk s); d ← waitdisk (programmed o d); Some (mkboot (insl dst (take (Z.to_nat SECTSIZE) (din d)) (bmem s)) d)).
Proof. reflexivity. Qed.

Lemma outb_reg port v d : (port =? 0x1f7) = false -> dregs (disk_outb port v d) = (fun p => if p =? port then u8 v else dregs d p) /\
  sectors (disk_outb port v d) = sectors d /\ dstat (disk_outb port v d) = dstat d.
Proof. intros E. unfold disk_outb. by rewrite E. Qed.

Lemma programmed_spec o d : 0 <= o < 268435456 -> dcmd (programmed o d) = Some (ReadSector 0 o) /\ sectors (programmed o d) = sectors d /\ dstat (programmed o d) = dstat d.
Proof.
  intros Ho. destruct (lba_bytes o Ho) as [L1 L2]. unfold programmed.
  set (d5 := disk_outb 0x1F6 _ _). assert (R : dregs d5 0x1f6 = u8 (Z.lor (Z.shiftr o 24) 0xE0) /\ dregs d5 0x1f5 = u8 (Z.shiftr o 16) /\
    dregs d5 0x1f4 = u8 (Z.shiftr o 8) /\ dregs d5 0x1f3 = u8 o /\ sectors d5 = sectors d /\ dstat d5 = dstat d).
  { unfold d5. repeat match goal with |- context [disk_outb ?p ?v ?e] => destruct (outb_reg p v e eq_refl) as (-> & -> & ->) end. done. }
  clearbody d5. destruct R as (R6 & R5 & R4 & R3 & Rs & Rt). unfold disk_outb. change (0x1F7 =? 0x1f7) with true. cbn iota zeta.
  rewrite R6, R5, R4, R3, L1, L2. done.
Qed.

Section image.
(** The bytes of the kernel file, which lies on the disk from sector 1 on. *)
Context (file : Z -> Z).
Hypothesis Hfile : forall o, is_byte (file o).

Definition piece (k : Z) : bytes := (fun i => file (512 * k + Z.of_nat i)) <$> seq 0 512.

Lemma length_piece k : length (piece k) = 512%nat.
Proof. unfold piece. by rewrite length_fmap, length_seq. Qed.

Lemma insl_piece dst k m x : no_wrap dst 512 ->
  insl dst (take (Z.to_nat SECTSIZE) (piece k)) m x = if in_range dst 512 x then file (512 * k + (x - dst)) else m x.
Proof.
  intros Hw. pose proof (length_piece k) as Hl. rewrite take_ge by (rewrite Hl; unfold SECTSIZE; lia).
  rewrite insl_spec, Hl; [|rewrite Hl; unfold no_wrap in *; lia|apply Forall_fmap, Forall_true; intros; apply Hfile].
  replace (Z.of_nat 512) with 512 by lia. destruct (in_range dst 512 x) eqn:Er; [|done]. apply in_range_spec in Er.
  unfold nth_byte, piece. rewrite list_lookup_fmap, lookup_seq_lt by lia. cbn. f_equal. lia.
Qed.

(** The disk is idle and has the image. *)
Definition has_image (d : disk) : Prop := dcmd d = None /\ forall k, 0 <= k -> sectors d 0 (k + 1) = piece k.

Lemma read_done d k n : (forall j, 0 <= j -> sectors d 0 (j + 1) = piece j) -> dcmd d = Some (ReadSector 0 (k + 1)) -> 0 <= k -> (S n <= nready d)%nat ->
  exists d', waitdisk d = Some d' /\ has_image d' /\ (n <= nready d')%nat /\ din d' = piece k.
Proof.
  intros Hi Hc Hk Hn. destruct (waitdisk_run d n Hn) as (st & E & Hst). rewrite E. unfold disk_complete. cbn [set_stat dcmd]. rewrite Hc.
  eexists. split; [reflexivity|]. split; [by split|]. split; [exact Hst|]. by apply Hi.
Qed.

Lemma readsect_run dst k s n : no_wrap dst 512 -> 0 <= k < 268435455 -> has_image (bdisk s) -> (2 + n <= nready (bdisk s))%nat ->
  exists s', readsect dst (k + 1) s = Some s' /\ has_image (bdisk s') /\ (n <= nready (bdisk s'))%nat /\
    forall x, bmem s' x = if in_range dst 512 x then file (512 * k + (x - dst)) else bmem s x.
Proof.
  intros Hw Hk [Hid Hi] Hn. rewrite readsect_eq. destruct (waitdisk_run (bdisk s) (S n)) as (st & E & Hst); [lia|]. rewrite E.
  assert (Ed : disk_complete (set_stat st (bdisk s)) = set_stat st (bdisk s)) by (unfold disk_complete; cbn [dcmd set_stat]; by rewrite Hid).
  rewrite Ed. clear E Ed. destruct (programmed_spec (k + 1) (set_stat st (bdisk s)) ltac:(lia)) as (Hc & Hs & Ht). cbn [mbind option_bind].
  destruct (read_done (programmed (k + 1) (set_stat st (bdisk s))) k n) as (d' & E' & Hd' & Hn' & Hdin); [by rewrite Hs|done|lia|unfold nready in *; by rewrite Ht|].
  rewrite E'. eexists. split; [reflexivity|]. split; [done|]. split; [done|]. intros x. cbn [bmem]. rewrite Hdin. by apply insl_piece.
Qed.

Lemma readseg_loop_run n : forall fuel pa epa k s q, (n <= fuel)%nat -> no_wrap pa (512 * Z.of_nat n) -> 0 <= k -> k + Z.of_nat n <= 268435455 ->
  epa <= pa + 512 * Z.of_nat n -> (n = 0%nat \/ pa + 512 * (Z.of_nat n - 1) < epa) ->
  has_image (bdisk s) -> (2 * n + q <= nready (bdisk s))%nat ->
  exists s', readseg_loop fuel pa epa (k + 1) s = Some s' /\ has_image (bdisk s') /\ (q <= nready (bdisk s'))%nat /\
    forall x, bmem s' x = if in_range pa (512 * Z.of_nat n) x then file (512 * k + (x - pa)) else bmem s x.
Proof.
  induction n as [|n IH]; intros fuel pa epa k s q Hf Hw Hk0 Hk He Hlast Hi Hq.
  - exists s. split; [|split_and!; [done|lia|]]. { destruct fuel; cbn [readseg_loop]; by rewrite (proj2 (Z.ltb_ge _ _)) by lia. }
    intros x. unfold in_range. bool_cases.
  - destruct fuel as [|fuel]; [lia|]. cbn [readseg_loop]. destruct Hlast as [|Hlast]; [lia|]. rewrite (proj2 (Z.ltb_lt _ _)) by lia.
    destruct Hw as (Hw1 & _ & Hw2). destruct (readsect_run pa k s (2 * n + q)) as (s1 & E1 & Hi1 & Hq1 & Hm1); [unfold no_wrap; lia|lia|done|lia|].
    rewrite E1. cbn [mbind option_bind]. unfold SECTSIZE. rewrite !u32_id by (unfold in_u32; lia).
    destruct (IH fuel (pa + 512) epa (k + 1) s1 q) as (s2 & E2 & Hi2 & Hq2 & Hm2); [lia|unfold no_wrap; lia|lia..|done|done|].
    exists s2. split_and!; [done..|]. intros x. rewrite Hm2, Hm1. unfold in_range. bool_cases; f_equal; lia.
Qed.

(** The number of sectors of [count] bytes at [off], and where they go. *)
Definition nsect (count off : Z) : Z := (count + off mod 512 + 511) / 512.

Lemma readseg_run pa count off s q : 0 <= count -> 0 <= off -> no_wrap (pa - off mod 512) (512 * nsect count off) -> off / 512 + nsect count off <= 268435455 ->
  has_image (bdisk s) -> (2 * Z.to_nat (nsect count off) + q <= nready (bdisk s))%nat ->
  exists s', readseg pa count off s = Some s' /\ has_image (bdisk s') /\ (q <= nready (bdisk s'))%nat /\
    forall x, bmem s' x = if in_range (pa - off mod 512) (512 * nsect count off) x then file (off + (x - pa)) else bmem s x.
Proof.
  intros Hc Ho Hw Hk Hi Hq. pose proof (Z.mod_pos_bound off 512 ltac:(lia)) as Hr. pose proof (Z.div_mod off 512 ltac:(lia)) as Hd.
  assert (Hn : 0 <= nsect count off) by (apply Z.div_pos; lia). pose proof (Z.div_pos off 512 Ho ltac:(lia)) as Hdp.
  pose proof (Z.div_mod (count + off mod 512 + 511) 512 ltac:(lia)) as Hdn. pose proof (Z.mod_pos_bound (count + off mod 512 + 511) 512 ltac:(lia)) as Hrn.
  fold (nsect count off) in Hdn. destruct Hw as (Hw1 & _ & Hw2). unfold readseg, SECTSIZE. rewrite !u32_id by (unfold in_u32; lia).
  destruct (readseg_loop_run (Z.to_nat (nsect count off)) (Z.to_nat (count / 512 + 2)) (pa - off mod 512) (pa + count) (off / 512) s q) as (s' & E & Hi' & Hq' & Hm).
  - pose proof (Z.div_mod count 512 ltac:(lia)). pose proof (Z.mod_pos_bound count 512 ltac:(lia)). lia.
  - unfold no_wrap. lia.
  - done.
  - lia.
  - lia.
  - destruct (decide (nsect count off = 0)) as [->|]; [by left|right; lia].
  - done.
  - done.
  - exists s'. split_and!; [done..|]. intros x. rewrite Hm, Z2Nat.id by lia. destruct (in_range _ _ x); [f_equal; lia|done].
Qed.

(** ** Segments *)

Record seg : Type := mkseg { sg_pa : Z; sg_off : Z; sg_filesz : Z; sg_memsz : Z }.

Definition seg_of (ph : Z) (m : memory) : seg := mkseg (ph_paddr ph m) (ph_off ph m) (ph_filesz ph m) (ph_memsz ph m).

(** The memory that loading [g] changes: whole sectors, and the zeros. *)
Definition seg_lo (g : seg) : Z := sg_pa g - sg_off g mod 512.
Definition seg_hi (g : seg) : Z := Z.max (seg_lo g + 512 * nsect (sg_filesz g) (sg_off g)) (sg_pa g + sg_memsz g).

Definition seg_fits (g : seg) : Prop :=
  0 <= sg_filesz g /\ 0 <= sg_off g /\ 0 <= seg_lo g /\ seg_hi g < 4294967296 /\
  sg_off g / 512 + nsect (sg_filesz g) (sg_off g) <= 268435455.

Definition loaded (m : memory) (g : seg) : memory := fun x =>
  if in_range (sg_pa g + sg_filesz g) (sg_memsz g - sg_filesz g) x then 0
  else if in_range (seg_lo g) (512 * nsect (sg_filesz g) (sg_off g)) x then file (sg_off g + (x - sg_pa g))
  else m x.

Lemma loaded_outside m g x : ~ (seg_lo g <= x < seg_hi g) -> 0 <= sg_filesz g -> loaded m g x = m x.
Proof.
  intros Hx Hf. unfold loaded, seg_hi, seg_lo in *. pose proof (Z.mod_pos_bound (sg_off g) 512 ltac:(lia)). unfold in_range. bool_cases.
Qed.

Lemma loaded_inside m g x : 0 <= sg_filesz g -> sg_pa g <= x < sg_pa g + sg_memsz g ->
  loaded m g x = if x - sg_pa g <? sg_filesz g then file (sg_off g + (x - sg_pa g)) else 0.
Proof.
  intros Hf Hx. unfold loaded, seg_lo. pose proof (Z.mod_pos_bound (sg_off g) 512 ltac:(lia)).
  pose proof (Z.div_mod (sg_filesz g + sg_off g mod 512 + 511) 512 ltac:(lia)) as Hd.
  pose proof (Z.mod_pos_bound (sg_filesz g + sg_off g mod 512 + 511) 512 ltac:(lia)).
  fold (nsect (sg_filesz g) (sg_off g)) in Hd. unfold in_range. bool_cases.
Qed.

Lemma seg_of_ext ph m m' : no_wrap ph 32 -> (forall x, ph <= x < ph + 32 -> m x = m' x) -> seg_of ph m = seg_of ph m'.
Proof.
  intros (H0 & _ & H1) Hm. unfold seg_of, ph_paddr, ph_off, ph_filesz, ph_memsz. rewrite !u32_id by (unfold in_u32; lia).
  f_equal; (apply load32_ext; [unfold no_wrap; lia|intros x Hx; apply Hm; lia]).
Qed.

Lemma load_segment_run ph s g q : no_wrap ph 32 -> seg_of ph (bmem s) = g -> seg_fits g -> (seg_hi g <= ph \/ ph + 32 <= seg_lo g) ->
  has_image (bdisk s) -> (2 * Z.to_nat (nsect (sg_filesz g) (sg_off g)) + q <= nready (bdisk s))%nat ->
  exists s', load_segment ph s = Some s' /\ has_image (bdisk s') /\ (q <= nready (bdisk s'))%nat /\ forall x, bmem s' x = loaded (bmem s) g x.
Proof.
  intros Hw Hg Hfit Hout Hi Hq. pose proof Hfit as (Hf & Ho & Hlo & Hhi & Hsec). unfold load_segment.
  pose proof Hg as Hg'. unfold seg_of in Hg'. destruct g as [pa off fsz msz]. injection Hg' as E1 E2 E3 E4. rewrite E1, E2, E3. cbn [sg_pa sg_off sg_filesz sg_memsz] in *.
  unfold seg_lo in Hlo. cbn [sg_pa sg_off] in Hlo. assert (Hn : 0 <= nsect fsz off) by (apply Z.div_pos; pose proof (Z.mod_pos_bound off 512); lia).
  destruct (readseg_run pa fsz off s q) as (s1 & R1 & Hi1 & Hq1 & Hm1); [done|done|unfold no_wrap, seg_hi, seg_lo in *; cbn [sg_pa sg_off sg_filesz sg_memsz] in *; lia|done|done|done|].
  rewrite R1. cbn [mbind option_bind].
  assert (Hs : seg_of ph (bmem s1) = mkseg pa off fsz msz).
  { rewrite <- Hg. apply seg_of_ext; [done|]. intros x Hx. rewrite Hm1. unfold seg_hi, seg_lo in Hout. cbn [sg_pa sg_off sg_filesz sg_memsz] in Hout. unfold in_range. bool_cases. }
  unfold seg_of in Hs. injection Hs as _ _ S3 S4. rewrite S3, S4. unfold loaded, seg_lo. cbn [sg_pa sg_off sg_filesz sg_memsz].
  destruct (Z.ltb_spec fsz msz) as [Hlt|Hge].
  - eexists. split; [reflexivity|]. split_and!; [done..|]. intros x. cbn [bmem]. unfold seg_hi in Hhi. cbn [sg_pa sg_off sg_filesz sg_memsz] in Hhi.
    pose proof (Z.mod_pos_bound off 512 ltac:(lia)). rewrite u32_id by (unfold in_u32; lia).
    rewrite stosb_spec by (unfold no_wrap; lia). rewrite Z2Nat.id by lia. by rewrite Hm1.
  - exists s1. split_and!; [done..|]. intros x. rewrite Hm1. assert (E : in_range (pa + fsz) (msz - fsz) x = false) by (apply in_range_false; lia). by rewrite E.
Qed.

Lemma loaded_ext g m m' : (forall x, m x = m' x) -> forall x, loaded m g x = loaded m' g x.
Proof. intros Hm x. unfold loaded. by rewrite Hm. Qed.

Lemma foldl_loaded_ext gs : forall m m', (forall x, m x = m' x) -> forall x, foldl loaded m gs x = foldl loaded m' gs x.
Proof. induction gs as [|g gs IH]; intros m m' Hm x; cbn; [apply Hm|]. apply IH. by apply loaded_ext. Qed.

(** The status polls that the segments need. *)
Definition polls (gs : list seg) : nat := foldr (fun g n => 2 * Z.to_nat (nsect (sg_filesz g) (sg_off g)) + n)%nat 0%nat gs.

(** The segment is away from the memory from [a] up to [b]. *)
Definition away (a b : Z) (g : seg) : Prop := seg_hi g <= a \/ b <= seg_lo g.

Lemma load_segments_run gs : forall fuel ph s q, (length gs <= fuel)%nat -> no_wrap ph (32 * Z.of_nat (length gs)) ->
  (forall i g, gs !! i = Some g -> seg_of (ph + 32 * Z.of_nat i) (bmem s) = g) ->
  Forall seg_fits gs -> Forall (away ph (ph + 32 * Z.of_nat (length gs))) gs -> has_image (bdisk s) -> (polls gs + q <= nready (bdisk s))%nat ->
  exists s', load_segments fuel ph (ph + 32 * Z.of_nat (length gs)) s = Some s' /\ has_image (bdisk s') /\ forall x, bmem s' x = foldl loaded (bmem s) gs x.
Proof.
  induction gs as [|g gs IH]; intros fuel ph s q Hf Hw Hg Hfit Haw Hi Hq.
  - exists s. split; [|done]. destruct fuel; cbn [load_segments length]; by rewrite (proj2 (Z.ltb_ge _ _)) by lia.
  - destruct fuel as [|fuel]; [cbn in Hf; lia|]. cbn [load_segments length] in *. destruct Hw as (Hw1 & _ & Hw2).
    rewrite (proj2 (Z.ltb_lt _ _)) by lia. apply Forall_cons in Hfit as [Hfit Hfits]. apply Forall_cons in Haw as [Ha Has]. cbn [polls foldr] in Hq.
    destruct (load_segment_run ph s g (polls gs + q)) as (s1 & E1 & Hi1 & Hq1 & Hm1); [unfold no_wrap; lia| |done|unfold away in Ha; lia|done|unfold polls; lia|].
    { rewrite <- (Hg 0%nat g eq_refl). f_equal. lia. }
    rewrite E1. cbn [mbind option_bind]. unfold sizeof_proghdr. rewrite u32_id by (unfold in_u32; lia).
    replace (ph + 32 * Z.of_nat (S (length gs))) with (ph + 32 + 32 * Z.of_nat (length gs)) by lia.
    destruct (IH fuel (ph + 32) s1 q) as (s2 & E2 & Hi2 & Hm2); [lia|unfold no_wrap; lia| |done| |done|done|].
    + intros i g' Hg'. rewrite <- (Hg (S i) g' Hg'). replace (ph + 32 * Z.of_nat (S i)) with (ph + 32 + 32 * Z.of_nat i) by lia.
      pose proof (lookup_lt_Some _ _ _ Hg'). apply seg_of_ext; [unfold no_wrap; lia|]. intros x Hx. rewrite Hm1. apply loaded_outside; [unfold away in Ha; lia|apply Hfit].
    + eapply Forall_impl; [exact Has|]. unfold away. intros g' H'. lia.
    + exists s2. split_and!; [done..|]. intros x. rewrite Hm2. cbn [foldl]. by apply foldl_loaded_ext.
Qed.

(** ** The kernel file *)

Definition fhalf (o : Z) : Z := file o + 256 * file (o + 1).
Definition fword (o : Z) : Z := file o + 256 * file (o + 1) + 65536 * file (o + 2) + 16777216 * file (o + 3).

(** The program headers that the ELF header of the file describes. *)
Definition segments : list seg :=
  (fun i => let p := fword 28 + 32 * Z.of_nat i in mkseg (fword (p + 12)) (fword (p + 4)) (fword (p + 16)) (fword (p + 20)))
    <$> seq 0 (Z.to_nat (fhalf 44)).

(** The headers are in the first page, no segment goes over the scratch
    space, and the sectors of a segment do not hit the segments before. *)
Record kernel_ok : Prop := {
  ko_magic : fword 0 = ELF_MAGIC;
  ko_table : fword 28 + 32 * fhalf 44 <= 4096;
  ko_fits : Forall seg_fits segments;
  ko_away : Forall (away elf (elf + 4096)) segments;
  ko_order : forall i j g h, segments !! i = Some g -> segments !! j = Some h -> (i < j)%nat -> away (sg_pa g) (sg_pa g + sg_memsz g) h
}.

Definition header (m : memory) : Prop := forall x, elf <= x < elf + 4096 -> m x = file (x - elf).

Lemma header_word m o : header m -> 0 <= o <= 4092 -> load32 (u32 (elf + o)) m = fword o.
Proof.
  intros Hh Ho. unfold load32, fword, elf in *. rewrite !(u32_id (65536 + o)) by (unfold in_u32; lia). rewrite !u32_id by (unfold in_u32; lia).
  rewrite !Hh by (unfold elf; lia). unfold elf. repeat f_equal; lia.
Qed.

Lemma fword_bound o : 0 <= fword o.
Proof. unfold fword. pose proof (Hfile o). pose proof (Hfile (o + 1)). pose proof (Hfile (o + 2)). pose proof (Hfile (o + 3)). unfold is_byte in *. lia. Qed.

Lemma fhalf_bound o : 0 <= fhalf o < 65536.
Proof. unfold fhalf. pose proof (Hfile o). pose proof (Hfile (o + 1)). unfold is_byte in *. lia. Qed.

Lemma header_seg m i g : header m -> fword 28 + 32 * fhalf 44 <= 4096 -> segments !! i = Some g -> seg_of (elf + fword 28 + 32 * Z.of_nat i) m = g.
Proof.
  intros Hh Ht Hg. unfold segments in Hg. apply list_lookup_fmap_Some in Hg as (j & -> & Hj). apply lookup_seq in Hj as [-> Hlt].
  pose proof (fword_bound 28). pose proof (fhalf_bound 44). unfold seg_of, ph_paddr, ph_off, ph_filesz, ph_memsz. cbn [Nat.add].
  rewrite <- !Z.add_assoc. f_equal; (rewrite header_word; [f_equal; lia|done|lia]).
Qed.

Lemma foldl_outside gs : forall m x, Forall (fun h => ~ (seg_lo h <= x < seg_hi h) /\ 0 <= sg_filesz h) gs -> foldl loaded m gs x = m x.
Proof.
  induction gs as [|h gs IH]; intros m x Hf; [done|]. apply Forall_cons in Hf as [[Hh H0] Hf]. cbn [foldl]. rewrite IH by done. by apply loaded_outside.
Qed.

Lemma foldl_segment gs m i g x : (forall i j g h, gs !! i = Some g -> gs !! j = Some h -> (i < j)%nat -> away (sg_pa g) (sg_pa g + sg_memsz g) h) ->
  Forall seg_fits gs -> gs !! i = Some g -> sg_pa g <= x < sg_pa g + sg_memsz g ->
  foldl loaded m gs x = if x - sg_pa g <? sg_filesz g then file (sg_off g + (x - sg_pa g)) else 0.
Proof.
  intros Ho Hfit Hg Hx. pose proof (lookup_lt_Some _ _ _ Hg) as Hl. rewrite <- (take_drop_middle gs i g Hg), foldl_app. cbn [foldl].
  rewrite foldl_outside; [apply loaded_inside; [apply (Forall_lookup_1 _ _ _ _ Hfit Hg)|done]|]. apply Forall_lookup. intros j h Hj.
  rewrite lookup_drop in Hj. split; [|apply (Forall_lookup_1 _ _ _ _ Hfit Hj)]. pose proof (Ho i _ g h Hg Hj ltac:(lia)) as Ha. unfold away in Ha. lia.
Qed.

(** The first page is read into the scratch space. *)
Lemma header_run s q : has_image (bdisk s) -> (16 + q <= nready (bdisk s))%nat ->
  exists s', readseg elf 4096 0 s = Some s' /\ has_image (bdisk s') /\ (q <= nready (bdisk s'))%nat /\ header (bmem s').
Proof.
  intros Hi Hn. destruct (readseg_run elf 4096 0 s q) as (s' & E & Hi' & Hq & Hm); [lia|lia|by vm_compute|by vm_compute|done|done|].
  exists s'. split_and!; [done..|]. intros x Hx. rewrite Hm. change (elf - 0 mod 512) with elf. change (512 * nsect 4096 0) with 4096.
  by rewrite (proj2 (in_range_spec _ _ _)) by lia.
Qed.

Lemma bootmain_rejects s : fword 0 <> ELF_MAGIC -> has_image (bdisk s) -> (16 <= nready (bdisk s))%nat -> exists s', bootmain s = Some (None, s').
Proof.
  intros Hm Hi Hn. destruct (header_run s 0 Hi Hn) as (s1 & E & _ & _ & Hh). exists s1. unfold bootmain. rewrite E. cbn [mbind option_bind].
  pose proof (header_word _ 0 Hh ltac:(lia)) as Hw. change (u32 (elf + 0)) with elf in Hw. rewrite Hw. by rewrite (proj2 (Z.eqb_neq _ _)).
Qed.

(** C16. The boot loader loads the kernel: from a disk that has an ELF file
    from sector 1 on, with its program headers in the first page and its
    segments in an order in which loading whole sectors does no harm,
    bootmain jumps to the entry of the file with every segment in memory:
    the bytes of the file at its physical address, and zeros up to its size
    in memory.  It needs two polls of the status for each sector. *)
Theorem bootmain_correct s : kernel_ok -> has_image (bdisk s) -> (16 + polls segments <= nready (bdisk s))%nat ->
  exists s', bootmain s = Some (Some (fword 24), s') /\
    forall i g x, segments !! i = Some g -> sg_pa g <= x < sg_pa g + sg_memsz g ->
      bmem s' x = if x - sg_pa g <? sg_filesz g then file (sg_off g + (x - sg_pa g)) else 0.
Proof.
  intros [Hmag Htab Hfit Haw Hord] Hi Hn. destruct (header_run s _ Hi Hn) as (s1 & E & Hi1 & Hn1 & Hh). unfold bootmain. rewrite E. cbn [mbind option_bind].
  pose proof (header_word _ 0 Hh ltac:(lia)) as Hw0. change (u32 (elf + 0)) with elf in Hw0. rewrite Hw0, Hmag, Z.eqb_refl. cbn [negb].
  unfold elf_phoff, elf_phnum. rewrite (header_word _ 28) by (done || lia). pose proof (fword_bound 28) as Hp. pose proof (fhalf_bound 44) as Hnum.
  assert (Hph : load16 (u32 (elf + 44)) (bmem s1) = fhalf 44) by (unfold load16, fhalf; rewrite !Hh by (vm_compute; split; congruence); done).
  assert (Hlen : length segments = Z.to_nat (fhalf 44)) by (unfold segments; by rewrite length_fmap, length_seq).
  rewrite Hph. rewrite (u32_id (elf + fword 28)) by (unfold in_u32, elf; lia). unfold sizeof_proghdr. rewrite u32_id by (unfold in_u32, elf; lia).
  replace (32 * fhalf 44) with (32 * Z.of_nat (length segments)) by (rewrite Hlen; lia).
  destruct (load_segments_run segments (Z.to_nat 65536) (elf + fword 28) s1 0) as (s2 & E2 & _ & Hm2); [lia|unfold no_wrap, elf; lia| |done| |done|lia|].
  - intros i g. by apply header_seg.
  - eapply Forall_impl; [exact Haw|]. unfold away, elf. intros g Hg. lia.
  - rewrite E2. eexists. split; [|intros i g x Hg Hx; rewrite Hm2; by eapply foldl_segment]. cbn [mbind option_bind]. do 3 f_equal.
    unfold elf_entry. apply header_word; [|lia]. intros x Hx. rewrite Hm2, foldl_outside; [by apply Hh|]. eapply Forall_impl; [apply Forall_and; split; [exact Haw|exact Hfit]|].
    intros g [Ha Hf]. split; [unfold away, elf in *; lia|apply Hf].
Qed.
End image.

(** A kernel of one segment: 3 bytes at offset 100 of the file, 5 in memory,
    loaded at 1 MB. *)
Definition tiny : bytes :=
  [127; 69; 76; 70] ++ replicate 20 0 ++ le_bytes 4 0x100002 ++ le_bytes 4 52 ++ replicate 12 0 ++ le_bytes 2 1 ++ replicate 6 0 ++
  le_bytes 4 1 ++ le_bytes 4 100 ++ le_bytes 4 0 ++ le_bytes 4 0x100000 ++ le_bytes 4 3 ++ le_bytes 4 5 ++ replicate 24 0 ++ [11; 22; 33; 44; 55].

Definition tiny_file (o : Z) : Z := if o <? 0 then 0 else nth_byte tiny (Z.to_nat o).

Definition tiny_boot : boot :=
  mkboot (fun _ => 7) (mkdisk (fun _ => 0) None (replicate 20 0x40) [] (fun _ k => piece tiny_file (k - 1)) false).

Lemma tiny_byte o : is_byte (tiny_file o).
Proof.
  unfold tiny_file, nth_byte. destruct (o <? 0); [done|]. destruct (tiny !! Z.to_nat o) as [b|] eqn:E; [|done]. cbn.
  assert (Hf : Forall (fun x => 0 <= x < 256) tiny) by (apply (bool_decide_unpack _); vm_compute; done). apply (Forall_lookup_1 _ _ _ _ Hf E).
Qed.

Lemma tiny_ok : kernel_ok tiny_file.
Proof.
  split; [reflexivity|vm_compute; congruence| | |].
  - apply Forall_singleton. vm_compute. split_and!; congruence.
  - apply Forall_singleton. right. vm_compute. congruence.
  - intros i j g h Hg Hh. apply lookup_lt_Some in Hg, Hh. change (length (segments tiny_file)) with 1%nat in *. lia.
Qed.

Lemma bootmain_correct_witness : exists s', bootmain tiny_boot = Some (Some 0x100002, s') /\ bmem s' 0x100002 = 33 /\ bmem s' 0x100003 = 0 /\ bmem s' 0x100004 = 0.
Proof.
  destruct (bootmain_correct tiny_file tiny_byte tiny_boot tiny_ok) as (s' & E & Hm).
  - split; [done|]. intros k Hk. cbn [tiny_boot bdisk sectors]. f_equal. lia.
  - vm_compute. lia.
  - exists s'. split; [exact E|]. pose proof (fun x => Hm 0%nat _ x eq_refl) as H.
    split; [|split]; (rewrite H; [vm_compute; reflexivity|vm_compute; split; congruence]).
Defined.
