(* ===== verification/Apic.v ===== *)
(** * lapic.c, ioapic.c and picirq.c: interrupt controllers and the clock

    The clock is read through ports while it runs; what it shows at the
    n-th read is an argument, so that any time may pass between two reads,
    and the registers may have any values while the clock is updated.  Shown
    is that cmostime never returns a date mixed from two moments: the date
    is one that the clock had, converted from BCD when the clock uses it,
    and the loop ends as soon as the clock stands still for two passes.

    The I/O APIC is a selector and the registers behind it, as the comment
    on struct ioapic says.  Shown is that after ioapicinit and any calls of
    ioapicenable exactly the enabled interrupts are delivered, each to the
    CPU named last.

    The local APIC is a device with a read and a write function, which are
    arguments. *)

From stdpp Require Import base numbers strings gmap list.
From S2P Require Import Prelude Kmonad Kstring Mmu.

Local Open Scope Z_scope.

(** ** The clock *)

Definition CMOS_STATA : Z := 0x0a.
Definition CMOS_STATB : Z := 0x0b.
Definition CMOS_UIP : Z := Z.shiftl 1 7.
Definition SECS : Z := 0x00.
Definition MINS : Z := 0x02.
Definition HOURS : Z := 0x04.
Definition DAY : Z := 0x07.
Definition MONTH : Z := 0x08.
Definition YEAR : Z := 0x09.

Record rtcdate : Type := mkdate { second : Z; minute : Z; hour : Z; day : Z; month : Z; year : Z }.

#[export] Instance rtcdate_eq : EqDecision rtcdate.
Proof. solve_decision. Defined.

Definition map_date (f : Z -> Z) (r : rtcdate) : rtcdate :=
  mkdate (f (second r)) (f (minute r)) (f (hour r)) (f (day r)) (f (month r)) (f (year r)).

Definition CONV (x : Z) : Z := u32 (u32 (Z.shiftr x 4 * 10) + Z.land x 0xf).

Section cmos.
(** The register [reg] at the [n]-th read. *)
Context (rtc : nat -> Z -> Z).

Definition cmos_read (reg : Z) (n : nat) : Z * nat := (rtc n reg, S n).

Definition fill_rtcdate (n : nat) : rtcdate * nat :=
  let '(s, n) := cmos_read SECS n in
  let '(mi, n) := cmos_read MINS n in
  let '(h, n) := cmos_read HOURS n in
  let '(d, n) := cmos_read DAY n in
  let '(mo, n) := cmos_read MONTH n in
  let '(y, n) := cmos_read YEAR n in
  (mkdate s mi h d mo y, n).

(** The loop: two equal readings with no update between them. *)
Fixpoint read_twice (fuel n : nat) : option (rtcdate * nat) :=
  match fuel with
  | O => None
  | S fuel =>
      let '(t1, n) := fill_rtcdate n in
      let '(a, n) := cmos_read CMOS_STATA n in
      if negb (Z.land a CMOS_UIP =? 0) then read_twice fuel n
      else
        let '(t2, n) := fill_rtcdate n in
        if decide (t1 = t2) then Some (t1, n) else read_twice fuel n
  end.

Definition cmostime (fuel n : nat) : option (rtcdate * nat) :=
  let '(sb, n) := cmos_read CMOS_STATB n in
  let bcd := Z.land sb (Z.shiftl 1 2) =? 0 in
  '(t1, n) ← read_twice fuel n;
  let t1 := if bcd then map_date CONV t1 else t1 in
  Some (mkdate (second t1) (minute t1) (hour t1) (day t1) (month t1) (u32 (year t1 + 2000)), n).
End cmos.

(** The two digits of a number in one byte. *)
Definition to_bcd (x : Z) : Z := 16 * (x / 10) + x mod 10.

Lemma CONV_bcd x : 0 <= x < 100 -> CONV (to_bcd x) = x.
Proof.
  intros Hx. assert (Hd : 0 <= x / 10 < 10) by (split; [apply Z.div_pos; lia|apply Z.div_lt_upper_bound; lia]).
  pose proof (Z.mod_pos_bound x 10 ltac:(lia)) as Hm. unfold CONV, to_bcd. rewrite Z.shiftr_div_pow2 by lia. change (2 ^ 4) with 16.
  change 0xf with (Z.ones 4). rewrite Z.land_ones by lia. change (2 ^ 4) with 16.
  replace ((16 * (x / 10) + x mod 10) / 16) with (x / 10) by (Z.div_mod_to_equations; lia).
  replace ((16 * (x / 10) + x mod 10) mod 16) with (x mod 10) by (Z.div_mod_to_equations; lia).
  rewrite (u32_id (x / 10 * 10)) by (unfold in_u32; lia). rewrite u32_id by (unfold in_u32; lia). pose proof (Z.div_mod x 10). lia.
Qed.

Definition valid_date (d : rtcdate) : Prop :=
  0 <= second d < 100 /\ 0 <= minute d < 100 /\ 0 <= hour d < 100 /\ 0 <= day d < 100 /\ 0 <= month d < 100 /\ 0 <= year d < 100.

Section clock.
(** A clock that has the date [clock n] at the [n]-th read, in BCD or not. *)
Context (rtc : nat -> Z -> Z) (clock : nat -> rtcdate) (bcd : bool).

Definition shown (d : rtcdate) : rtcdate := if bcd then map_date to_bcd d else d.

(** The clock is being updated at the [n]-th read, and says so. *)
Definition updating (n : nat) : bool := negb (Z.land (rtc n CMOS_STATA) CMOS_UIP =? 0).

(** Outside updates the registers show the date; during an update they may
    have any values. *)
Definition displays : Prop := forall n, (Z.land (rtc n CMOS_STATB) (Z.shiftl 1 2) =? 0) = bcd /\
  (updating n = false -> valid_date (clock n) /\
   mkdate (rtc n SECS) (rtc n MINS) (rtc n HOURS) (rtc n DAY) (rtc n MONTH) (rtc n YEAR) = shown (clock n)).

(** No two updates in any 13 reads: the clock stands still, is updated from
    [b] to [e], and stands still again.  The update may go by between two
    reads ([b] and [e] are equal), and may begin or end outside the 13. *)
Definition slow : Prop := forall n, exists b e, (n <= b <= e)%nat /\
  (forall j, (n <= j < b)%nat -> updating j = false /\ clock j = clock n) /\
  (forall j, (b <= j < e)%nat -> (j < n + 13)%nat -> updating j = true) /\
  (forall j, (e <= j < n + 13)%nat -> updating j = false /\ clock j = clock e).

(** From read [N] on the clock stands still for 26 reads. *)
Definition rests (N : nat) : Prop := forall j, (N <= j < N + 26)%nat -> updating j = false /\ clock j = clock N.

Hypothesis Hd : displays.
Hypothesis Hs : slow.

Lemma fill_next n : exists t, fill_rtcdate rtc n = (t, n + 6)%nat.
Proof. eexists. unfold fill_rtcdate, cmos_read. f_equal. lia. Qed.

Lemma fill_same n d : (forall j, (n <= j < n + 6)%nat -> updating j = false /\ clock j = d) -> fill_rtcdate rtc n = (shown d, n + 6)%nat.
Proof.
  intros H. unfold fill_rtcdate, cmos_read. replace (S (S (S (S (S (S n)))))) with (n + 6)%nat by lia.
  replace (S (S (S (S (S n))))) with (n + 5)%nat by lia. replace (S (S (S (S n)))) with (n + 4)%nat by lia.
  replace (S (S (S n))) with (n + 3)%nat by lia. replace (S (S n)) with (n + 2)%nat by lia. replace (S n) with (n + 1)%nat by lia.
  assert (E : forall k, (n <= k < n + 6)%nat -> mkdate (rtc k SECS) (rtc k MINS) (rtc k HOURS) (rtc k DAY) (rtc k MONTH) (rtc k YEAR) = shown d).
  { intros k Hk. destruct (H k Hk) as [Hq <-]. by apply Hd. }
  pose proof (E n ltac:(lia)) as E0. pose proof (E (n + 1)%nat ltac:(lia)) as E1. pose proof (E (n + 2)%nat ltac:(lia)) as E2.
  pose proof (E (n + 3)%nat ltac:(lia)) as E3. pose proof (E (n + 4)%nat ltac:(lia)) as E4. pose proof (E (n + 5)%nat ltac:(lia)) as E5.
  destruct (shown d) as [v1 v2 v3 v4 v5 v6]. injection E0 as -> _ _ _ _ _. injection E1 as _ -> _ _ _ _. injection E2 as _ _ -> _ _ _.
  injection E3 as _ _ _ -> _ _. injection E4 as _ _ _ _ -> _. injection E5 as _ _ _ _ _ ->. done.
Qed.

(** Two equal passes with no update at the read between them give a date
    that the clock had: the update, if there is one, is over before the
    second pass or begins after the first. *)
Lemma passes_agree n t : fill_rtcdate rtc n = (t, n + 6)%nat -> updating (n + 6) = false -> fill_rtcdate rtc (n + 7) = (t, n + 13)%nat ->
  exists j, (n <= j < n + 13)%nat /\ updating j = false /\ t = shown (clock j).
Proof.
  intros H1 Hu H2. destruct (Hs n) as (b & e & Hb & Hbefore & Hduring & Hafter). destruct (decide (n + 6 < b)%nat) as [Hlate|Hearly].
  - exists n. split; [lia|]. split; [by apply Hbefore; lia|]. rewrite (fill_same n (clock n)) in H1 by (intros j Hj; apply Hbefore; lia). congruence.
  - assert (He : (e <= n + 6)%nat).
    { destruct (decide (e <= n + 6)%nat); [done|]. by rewrite (Hduring (n + 6)%nat) in Hu by lia. }
    exists (n + 7)%nat. split; [lia|]. destruct (Hafter (n + 7)%nat ltac:(lia)) as [Q1 Q2]. split; [done|]. rewrite Q2.
    rewrite (fill_same (n + 7) (clock e)) in H2 by (intros j Hj; apply Hafter; lia). congruence.
Qed.

Lemma read_twice_date fuel : forall n t m, read_twice rtc fuel n = Some (t, m) ->
  exists j, (n <= j < m)%nat /\ updating j = false /\ t = shown (clock j).
Proof.
  induction fuel as [|fuel IH]; intros n t m Hr; [done|]. cbn [read_twice] in Hr. destruct (fill_next n) as [t1 E1]. rewrite E1 in Hr.
  unfold cmos_read in Hr. fold (updating (n + 6)) in Hr.
  destruct (updating (n + 6)) eqn:Eu; [destruct (IH _ _ _ Hr) as (j & Hj & H); exists j; split; [lia|done]|].
  replace (S (n + 6)) with (n + 7)%nat in Hr by lia. destruct (fill_next (n + 7)) as [t2 E2]. rewrite E2 in Hr.
  case_decide as Ht; [|destruct (IH _ _ _ Hr) as (j & Hj & H); exists j; split; [lia|done]].
  injection Hr as -> <-. subst t2. replace (n + 7 + 6)%nat with (n + 13)%nat in * by lia. by apply passes_agree.
Qed.

Lemma read_twice_ends fuel N : forall n, rests N -> (n < N + 13)%nat -> (N + 13 <= n + fuel)%nat -> exists t m, read_twice rtc fuel n = Some (t, m).
Proof.
  induction fuel as [|fuel IH]; intros n Hr Hn Hf; [lia|]. cbn [read_twice]. destruct (fill_next n) as [t1 E1]. rewrite E1.
  unfold cmos_read. fold (updating (n + 6)). replace (S (n + 6)) with (n + 7)%nat by lia.
  destruct (decide (N <= n)%nat) as [Hge|Hlt].
  - rewrite (proj1 (Hr (n + 6)%nat ltac:(lia))).
    assert (Hc : forall j, (n <= j < n + 13)%nat -> updating j = false /\ clock j = clock N) by (intros j Hj; apply Hr; lia).
    rewrite (fill_same n (clock N)) in E1 by (intros; apply Hc; lia). injection E1 as <-.
    rewrite (fill_same (n + 7) (clock N)) by (intros; apply Hc; lia). rewrite decide_True by done. eauto.
  - destruct (updating (n + 6)); [apply IH; [done|lia..]|]. destruct (fill_next (n + 7)) as [t2 E2]. rewrite E2.
    case_decide; [eauto|]. apply IH; [done|lia..].
Qed.

(** C40. Reading the clock, whose registers may have any values while it is
    updated and which is updated at most once in 13 reads: when it stands
    still for 26 reads at some point, cmostime ends, and the date it returns
    is the one that the clock had at some moment of the call, outside an
    update, in binary and with the century added; it is never put together
    from the dates before and after an update. *)
Theorem cmostime_correct n N : rests N -> (n <= N)%nat ->
  exists d m j, cmostime rtc (N + 13) n = Some (d, m) /\ (n <= j < m)%nat /\ updating j = false /\
    d = mkdate (second (clock j)) (minute (clock j)) (hour (clock j)) (day (clock j)) (month (clock j)) (year (clock j) + 2000).
Proof.
  intros Hr Hn. destruct (read_twice_ends (N + 13) N (S n) Hr ltac:(lia) ltac:(lia)) as (t & m & E).
  destruct (read_twice_date _ _ _ _ E) as (j & Hj & Hu & ->). unfold cmostime, cmos_read. rewrite E. cbn [mbind option_bind].
  rewrite (proj1 (Hd n)). destruct (proj2 (Hd j) Hu) as ((V1 & V2 & V3 & V4 & V5 & V6) & _).
  eexists _, _, j. split; [reflexivity|]. split; [lia|]. split; [done|].
  unfold shown. destruct bcd; cbn [map_date second minute hour day month year]; rewrite ?CONV_bcd by done; f_equal; apply u32_id; unfold in_u32; lia.
Qed.
End clock.

(** A clock in BCD that goes from 12:59:59 to 13:00:00 during the first
    pass; at reads 3 and 4 it is being updated and its registers are all
    ones. *)
Definition tick_clock (n : nat) : rtcdate := if decide (n < 3)%nat then mkdate 59 59 12 31 10 25 else mkdate 0 0 13 31 10 25.
Definition tick_updating (n : nat) : bool := bool_decide (3 <= n < 5)%nat.
Definition tick_rtc (n : nat) (reg : Z) : Z :=
  let d := map_date to_bcd (tick_clock n) in
  if reg =? CMOS_STATB then 0
  else if reg =? CMOS_STATA then if tick_updating n then CMOS_UIP else 0
  else if tick_updating n then 0xFF
  else if reg =? SECS then second d else if reg =? MINS then minute d else if reg =? HOURS then hour d
  else if reg =? DAY then day d else if reg =? MONTH then month d else if reg =? YEAR then year d else 0.

Lemma tick_updating_eq n : updating tick_rtc n = tick_updating n.
Proof. unfold updating, tick_rtc. cbn [Z.eqb Pos.eqb CMOS_STATA CMOS_STATB]. by destruct (tick_updating n). Qed.

Lemma tick_displays : displays tick_rtc tick_clock true.
Proof.
  intros n. split; [done|]. rewrite tick_updating_eq. intros Hu. split; [unfold tick_clock; case_decide; unfold valid_date; cbn; lia|].
  unfold tick_rtc. rewrite Hu. cbn. by destruct (tick_clock n).
Qed.

Lemma tick_slow : slow tick_rtc tick_clock.
Proof.
  intros n. exists (n `max` 3)%nat, (n `max` 5)%nat. split; [lia|]. split_and!; intros j; rewrite tick_updating_eq; unfold tick_updating, tick_clock.
  - intros Hj. rewrite bool_decide_false, !decide_True by lia. done.
  - intros Hj _. apply bool_decide_true. lia.
  - intros Hj. rewrite bool_decide_false, !decide_False by lia. done.
Qed.

Lemma cmostime_correct_witness : exists d m j, cmostime tick_rtc 18 0 = Some (d, m) /\ (0 <= j < m)%nat /\ updating tick_rtc j = false /\
  d = mkdate (second (tick_clock j)) (minute (tick_clock j)) (hour (tick_clock j)) (day (tick_clock j)) (month (tick_clock j)) (year (tick_clock j) + 2000).
Proof.
  apply (cmostime_correct tick_rtc tick_clock true tick_displays tick_slow 0 5); [|lia].
  intros j Hj. rewrite tick_updating_eq. unfold tick_updating, tick_clock. rewrite bool_decide_false, !decide_False by lia. done.
Defined.

(** ** ioapic.c *)

Definition T_IRQ0 : Z := 32.
Definition REG_ID : Z := 0x00.
Definition REG_VER : Z := 0x01.
Definition REG_TABLE : Z := 0x10.
Definition INT_DISABLED : Z := 0x00010000.

Record ioapic : Type := mkioapic { io_reg : Z; io_data : Z -> Z }.

Definition ioapicread (reg : Z) (s : ioapic) : Z * ioapic := (io_data s reg, mkioapic reg (io_data s)).
Definition ioapicwrite (reg data : Z) (s : ioapic) : ioapic := mkioapic reg (fun r => if r =? reg then data else io_data s r).

(** The loop over the interrupts, from [i] on. *)
Fixpoint disable_all (n : nat) (i : Z) (s : ioapic) : ioapic :=
  match n with
  | O => s
  | S n =>
      let s := ioapicwrite (REG_TABLE + 2 * i) (Z.lor INT_DISABLED (T_IRQ0 + i)) s in
      let s := ioapicwrite (REG_TABLE + 2 * i + 1) 0 s in
      disable_all n (i + 1) s
  end.

(** With the warning when the id is not the one of the tables. *)
Definition ioapicinit (ioapicid : Z) (s : ioapic) : bool * ioapic :=
  let '(v, s) := ioapicread REG_VER s in
  let maxintr := Z.land (Z.shiftr v 16) 0xFF in
  let '(v, s) := ioapicread REG_ID s in
  let id := Z.shiftr v 24 in
  (negb (id =? ioapicid), disable_all (Z.to_nat (maxintr + 1)) 0 s).

Definition ioapicenable (irq cpunum : Z) (s : ioapic) : ioapic :=
  let s := ioapicwrite (REG_TABLE + 2 * irq) (T_IRQ0 + irq) s in
  ioapicwrite (REG_TABLE + 2 * irq + 1) (u32 (Z.shiftl cpunum 24)) s.

(** What the table says of interrupt [i]: its vector and CPU, if it is
    delivered at all. *)
Definition route (s : ioapic) (i : Z) : option (Z * Z) :=
  let lo := io_data s (REG_TABLE + 2 * i) in
  if Z.testbit lo 16 then None else Some (Z.land lo 0xFF, Z.shiftr (io_data s (REG_TABLE + 2 * i + 1)) 24).

Lemma disable_all_data n : forall i s r, io_data (disable_all n i s) r =
  if (REG_TABLE + 2 * i <=? r) && (r <? REG_TABLE + 2 * (i + Z.of_nat n)) then
    (if (r - REG_TABLE) mod 2 =? 0 then Z.lor INT_DISABLED (T_IRQ0 + (r - REG_TABLE) / 2) else 0)
  else io_data s r.
Proof.
  induction n as [|n IH]; intros i s r; cbn [disable_all]; [bool_cases|]. rewrite IH. cbn [ioapicwrite io_data]. unfold REG_TABLE.
  destruct (Z.eqb_spec r (16 + 2 * i + 1)) as [->|H1]; [|destruct (Z.eqb_spec r (16 + 2 * i)) as [->|H2]].
  - replace ((16 + 2 * i + 1 - 16) mod 2) with 1 by (Z.div_mod_to_equations; lia). bool_cases.
  - replace ((16 + 2 * i - 16) mod 2) with 0 by (Z.div_mod_to_equations; lia). replace ((16 + 2 * i - 16) / 2) with i by (Z.div_mod_to_equations; lia). bool_cases.
  - bool_cases.
Qed.

(** The last CPU that [es] names for [i]. *)
Definition wanted (es : list (Z * Z)) (i : Z) : option (Z * Z) :=
  (fun e => (T_IRQ0 + i, snd e)) <$> last (filter (fun e => fst e = i) es).

Lemma route_disabled s i : 0 <= i < 224 -> io_data s (REG_TABLE + 2 * i) = Z.lor INT_DISABLED (T_IRQ0 + i) -> route s i = None.
Proof.
  intros Hi E. unfold route. rewrite E, Z.lor_spec. done.
Qed.

Lemma route_enable irq cpu s i : 0 <= irq < 224 -> 0 <= cpu < 256 ->
  route (ioapicenable irq cpu s) i = if decide (irq = i) then Some (T_IRQ0 + i, cpu) else route s i.
Proof.
  intros Hi Hc. unfold route, ioapicenable. cbn [ioapicwrite io_data]. unfold REG_TABLE, T_IRQ0. case_decide as E; [subst i|].
  - rewrite (proj2 (Z.eqb_neq (16 + 2 * irq) (16 + 2 * irq + 1))), !Z.eqb_refl by lia. change 0xFF with (Z.ones 8).
    rewrite Z.land_ones, Z.mod_small by lia. rewrite (Z.bits_above_log2 (32 + irq) 16); [|lia|apply Z.log2_lt_pow2; lia].
    rewrite Z.shiftl_mul_pow2 by lia. rewrite u32_id by (unfold in_u32; lia). rewrite <- Z.shiftl_mul_pow2, Z.shiftr_shiftl_l by lia. by rewrite Z.shiftl_0_r.
  - repeat (rewrite (proj2 (Z.eqb_neq _ _)) by lia). done.
Qed.

(** The interrupts that are delivered are those enabled, each with the
    vector of its number and to the CPU named last. *)
Theorem ioapic_routes ioapicid s es i :
  let '(_, s1) := ioapicinit ioapicid s in
  let maxintr := Z.land (Z.shiftr (io_data s REG_VER) 16) 0xFF in
  Forall (fun e => 0 <= fst e < 224 /\ 0 <= snd e < 256) es -> 0 <= i <= maxintr -> i < 224 ->
  route (foldl (fun s e => ioapicenable (fst e) (snd e) s) s1 es) i = wanted es i.
Proof.
  unfold ioapicinit, ioapicread. cbn zeta. intros He Hi Hi2. set (s1 := disable_all _ _ _). assert (H1 : route s1 i = None).
  { apply route_disabled; [lia|]. unfold s1. rewrite disable_all_data. cbn [io_data]. unfold REG_TABLE.
    rewrite (proj2 (Z.leb_le _ _)), (proj2 (Z.ltb_lt _ _)) by lia. cbn [andb].
    replace ((16 + 2 * i - 16) mod 2) with 0 by (Z.div_mod_to_equations; lia). by replace ((16 + 2 * i - 16) / 2) with i by (Z.div_mod_to_equations; lia). }
  clearbody s1. induction es as [|e es IH] using rev_ind; [done|]. apply Forall_app in He as [He Hl]. apply Forall_singleton in Hl as [Hl1 Hl2].
  rewrite foldl_app. cbn [foldl]. rewrite route_enable by done. unfold wanted. rewrite filter_app. case_decide as E.
  - rewrite filter_cons_True by done. rewrite filter_nil, last_snoc. done.
  - rewrite filter_cons_False by done. rewrite filter_nil, app_nil_r. by apply IH.
Qed.

(** ** lapic.c: the local APIC *)

Definition ID : Z := 0x0020 / 4.
Definition VER : Z := 0x0030 / 4.
Definition TPR : Z := 0x0080 / 4.
Definition EOI : Z := 0x00B0 / 4.
Definition SVR : Z := 0x00F0 / 4.
Definition ENABLE : Z := 0x00000100.
Definition ESR : Z := 0x0280 / 4.
Definition ICRLO : Z := 0x0300 / 4.
Definition INIT : Z := 0x00000500.
Definition STARTUP : Z := 0x00000600.
Definition DELIVS : Z := 0x00001000.
Definition ASSERT : Z := 0x00004000.
Definition LEVEL : Z := 0x00008000.
Definition BCAST : Z := 0x00080000.
Definition ICRHI : Z := 0x0310 / 4.
Definition TIMER : Z := 0x0320 / 4.
Definition X1 : Z := 0x0000000B.
Definition PERIODIC : Z := 0x00020000.
Definition PCINT : Z := 0x0340 / 4.
Definition LINT0 : Z := 0x0350 / 4.
Definition LINT1 : Z := 0x0360 / 4.
Definition ERROR : Z := 0x0370 / 4.
Definition MASKED : Z := 0x00010000.
Definition TICR : Z := 0x0380 / 4.
Definition TDCR : Z := 0x03E0 / 4.
Definition IRQ_TIMER : Z := 0.
Definition IRQ_ERROR : Z := 19.
Definition IRQ_SPURIOUS : Z := 31.
Definition CMOS_PORT : Z := 0x70.

(** The accesses to the device, latest first. *)
Inductive access : Type :=
| Wrote (index value : Z)
| Read (index : Z).

Section lapic.
(** The value that a read gives after the accesses made so far. *)
Context (answer : list access -> Z -> Z).
(** The pointer lapic, 0 when there is no local APIC. *)
Context (lapic : Z).

Definition lapicw (index value : Z) (h : list access) : list access := Read ID :: Wrote index value :: h.

(** while(lapic[ICRLO] & DELIVS) *)
Fixpoint wait_delivered (fuel : nat) (h : list access) : option (list access) :=
  match fuel with
  | O => None
  | S fuel =>
      let v := answer h ICRLO in
      let h := Read ICRLO :: h in
      if Z.land v DELIVS =? 0 then Some h else wait_delivered fuel h
  end.

Definition lapicinit (fuel : nat) (h : list access) : option (list access) :=
  if lapic =? 0 then Some h
  else
    let h := lapicw SVR (Z.lor ENABLE (T_IRQ0 + IRQ_SPURIOUS)) h in
    let h := lapicw TDCR X1 h in
    let h := lapicw TIMER (Z.lor PERIODIC (T_IRQ0 + IRQ_TIMER)) h in
    let h := lapicw TICR 10000000 h in
    let h := lapicw LINT0 MASKED h in
    let h := lapicw LINT1 MASKED h in
    let v := answer h VER in
    let h := Read VER :: h in
    let h := if 4 <=? Z.land (Z.shiftr v 16) 0xFF then lapicw PCINT MASKED h else h in
    let h := lapicw ERROR (T_IRQ0 + IRQ_ERROR) h in
    let h := lapicw ESR 0 h in
    let h := lapicw ESR 0 h in
    let h := lapicw EOI 0 h in
    let h := lapicw ICRHI 0 h in
    let h := lapicw ICRLO (Z.lor (Z.lor BCAST INIT) LEVEL) h in
    h ← wait_delivered fuel h;
    Some (lapicw TPR 0 h).

Definition lapicid (h : list access) : Z * list access :=
  if lapic =? 0 then (0, h) else (Z.shiftr (answer h ID) 24, Read ID :: h).

Definition lapiceoi (h : list access) : list access := if lapic =? 0 then h else lapicw EOI 0 h.

(** What lapicstartap does besides: it sets the shutdown code in the CMOS
    and the warm reset vector at 40:67. *)
Record startap : Type := mkstartap {
  outs : list (Z * Z);      (* outb, latest first *)
  smem : memory;
  acc : list access
}.

Definition store16 (a v : Z) (m : memory) : memory := store8 (u32 (a + 1)) (v / 256) (store8 a v m).

Definition warm_reset : Z := KERNBASE + Z.lor (Z.shiftl 0x40 4) 0x67.

Definition send_startup (apicid addr : Z) (h : list access) : list access :=
  let h := lapicw ICRHI (u32 (Z.shiftl apicid 24)) h in
  lapicw ICRLO (Z.lor STARTUP (Z.shiftr addr 12)) h.

Definition lapicstartap (apicid addr : Z) (s : startap) : startap :=
  let o := (CMOS_PORT + 1, 0x0A) :: (CMOS_PORT, 0xF) :: outs s in
  let m := store16 (warm_reset + 2) (u16 (Z.shiftr addr 4)) (store16 warm_reset 0 (smem s)) in
  let h := lapicw ICRHI (u32 (Z.shiftl apicid 24)) (acc s) in
  let h := lapicw ICRLO (Z.lor (Z.lor INIT LEVEL) ASSERT) h in
  let h := lapicw ICRLO (Z.lor INIT LEVEL) h in
  mkstartap o m (send_startup apicid addr (send_startup apicid addr h)).

(** The value a register was given last. *)
Fixpoint last_written (index : Z) (h : list access) : option Z :=
  match h with
  | [] => None
  | Wrote i v :: h => if i =? index then Some v else last_written index h
  | Read _ :: h => last_written index h
  end.

Lemma wait_delivered_run n : forall h, (exists k, (k < n)%nat /\ Z.land (answer (replicate k (Read ICRLO) ++ h) ICRLO) DELIVS = 0) ->
  exists k, wait_delivered n h = Some (replicate k (Read ICRLO) ++ h).
Proof.
  induction n as [|n IH]; intros h (k & Hk & Ha); [lia|]. cbn [wait_delivered]. destruct (Z.eqb_spec (Z.land (answer h ICRLO) DELIVS) 0) as [E|E].
  - by exists 1%nat.
  - destruct k as [|k]; [done|]. destruct (IH (Read ICRLO :: h)) as (j & ->).
    + exists k. split; [lia|]. rewrite <- Ha. change (Read ICRLO :: h) with ([Read ICRLO] ++ h). rewrite (assoc_L (++)), <- replicate_S_end. done.
    + exists (S j). change (Read ICRLO :: h) with ([Read ICRLO] ++ h). by rewrite (assoc_L (++)), <- replicate_S_end.
Qed.

Lemma last_written_reads k i j h : last_written i (replicate k (Read j) ++ h) = last_written i h.
Proof. induction k; [done|]. cbn. done. Qed.

(** When the INIT message is delivered at some poll, lapicinit ends, and it
    leaves the controller enabled, accepting all interrupts, with a
    periodic timer on the timer's vector and the two local lines masked. *)
Theorem lapicinit_correct fuel h : lapic <> 0 -> (forall h', exists k, (k < fuel)%nat /\ Z.land (answer (replicate k (Read ICRLO) ++ h') ICRLO) DELIVS = 0) ->
  exists h', lapicinit fuel h = Some h' /\
    last_written SVR h' = Some (Z.lor ENABLE (T_IRQ0 + IRQ_SPURIOUS)) /\ last_written TIMER h' = Some (Z.lor PERIODIC (T_IRQ0 + IRQ_TIMER)) /\
    last_written TICR h' = Some 10000000 /\ last_written LINT0 h' = Some MASKED /\ last_written LINT1 h' = Some MASKED /\
    last_written ERROR h' = Some (T_IRQ0 + IRQ_ERROR) /\ last_written TPR h' = Some 0.
Proof.
  intros Hl Hp. unfold lapicinit. rewrite (proj2 (Z.eqb_neq _ _)) by done. cbv zeta. set (h1 := lapicw ICRLO _ _).
  destruct (wait_delivered_run fuel h1 (Hp h1)) as (k & ->). eexists. split; [reflexivity|]. unfold lapicw. cbn [last_written].
  repeat (rewrite last_written_reads). unfold h1, lapicw. destruct (4 <=? _); done.
Qed.

(** The start message and the warm reset vector both name the address. *)
Theorem lapicstartap_address apicid addr s : 0 <= apicid < 256 -> 0 <= addr < 0x100000 -> addr mod 4096 = 0 ->
  let s' := lapicstartap apicid addr s in
  (exists v, last_written ICRLO (acc s') = Some v /\ Z.land v 0x700 = STARTUP /\ Z.land v 0xFF * 4096 = addr) /\
  (exists d, last_written ICRHI (acc s') = Some d /\ Z.shiftr d 24 = apicid) /\
  (smem s' (warm_reset + 2) + 256 * smem s' (warm_reset + 3)) * 16 + (smem s' warm_reset + 256 * smem s' (warm_reset + 1)) = addr.
Proof.
  intros Ha Had Hal s'. pose proof (Z.div_mod addr 4096 ltac:(lia)) as Hdm. assert (Hq : 0 <= addr / 4096 < 256) by lia.
  assert (Hv : Z.shiftr addr 12 = addr / 4096) by (by rewrite Z.shiftr_div_pow2 by lia).
  assert (Hlor : forall q, 0 <= q < 256 -> Z.land (Z.lor STARTUP q) 0x700 = STARTUP /\ Z.land (Z.lor STARTUP q) 0xFF = q).
  { intros q Hq'. assert (C : forallb (fun q => (Z.land (Z.lor STARTUP q) 0x700 =? STARTUP) && (Z.land (Z.lor STARTUP q) 0xFF =? q)) (seqZ 0 256) = true) by (vm_compute; reflexivity).
    rewrite forallb_forall in C. specialize (C q ltac:(apply list_elem_of_In, elem_of_seqZ; lia)). apply andb_true_iff in C as [C1 C2]. by apply Z.eqb_eq in C1, C2. }
  split; [|split].
  - exists (Z.lor STARTUP (addr / 4096)). unfold s', lapicstartap, send_startup. rewrite Hv. split; [reflexivity|]. destruct (Hlor _ Hq) as [-> ->]. split; [done|lia].
  - exists (apicid * 2 ^ 24). split.
    { assert (E : u32 (Z.shiftl apicid 24) = apicid * 2 ^ 24) by (rewrite Z.shiftl_mul_pow2 by lia; apply u32_id; unfold in_u32; change (2 ^ 24) with 16777216; lia).
      rewrite <- E. done. }
    rewrite <- Z.shiftl_mul_pow2, Z.shiftr_shiftl_l by lia. apply Z.shiftl_0_r.
  - unfold s', lapicstartap. cbn [smem]. assert (E4 : Z.shiftr addr 4 = addr / 16) by (by rewrite Z.shiftr_div_pow2 by lia). rewrite E4.
    assert (0 <= addr / 16 < 65536) by (split; [apply Z.div_pos; lia|apply Z.div_lt_upper_bound; lia]). unfold u16. rewrite (Z.mod_small (addr / 16)) by lia.
    unfold store16. change warm_reset with 2147484775. rewrite !u32_id by (unfold in_u32; lia). unfold store8. bool_cases.
    unfold u8. Z.div_mod_to_equations; lia.
Qed.
End lapic.

(** ** picirq.c *)

Definition IO_PIC1 : Z := 0x20.
Definition IO_PIC2 : Z := 0xA0.

(** The ports written, latest first: all interrupts of both controllers are
    masked. *)
Definition picinit (o : list (Z * Z)) : list (Z * Z) := (IO_PIC2 + 1, 0xFF) :: (IO_PIC1 + 1, 0xFF) :: o.
