(* ===== verification/MpUefi.v ===== *)
(** * mp_uefi.c: the processors of the machine

    mpinit_uefi walks the records of the ACPI table that the boot loader
    found (MADT) and collects the local APICs, one for each CPU, and the I/O
    APIC.  Shown is that on a table of records of the kinds the code knows
    the walk ends and finds all the CPUs, in order, up to NCPU; on a record
    of any other kind it never ends. *)

From stdpp Require Import base numbers strings gmap list.
From S2P Require Import Prelude Kmonad Kstring Mmu Kalloc.

Local Open Scope Z_scope.

Definition BOOTPARAM : Z := 0x50000.
Definition P2V_WO (x : Z) : Z := u32 (x + KERNBASE).

(** struct uefi_madt *)
Definition sizeof_madt : Z := 44.
Definition madt_len (madt : Z) (m : memory) : Z := load32 (u32 (madt + 4)) m.
Definition madt_lapic_addr (madt : Z) (m : memory) : Z := load32 (u32 (madt + 36)) m.

(** The variables that mpinit_uefi sets; [apicids] are those of the first
    ncpu entries of cpus. *)
Record mp : Type := mkmp {
  lapic : Z;
  apicids : list Z;
  ioapicid : Z
}.

(** The walk from offset [i] on.  [None]: it does not end within [fuel]
    records. *)
Fixpoint walk (fuel : nat) (madt len i : Z) (m : memory) (s : mp) : option mp :=
  if i <? len then
    match fuel with
    | O => None
    | S fuel =>
        let byte k := m (u32 (madt + i + k)) in
        let next n s := walk fuel madt len (u32 (i + n)) m s in
        let type := byte 0 in
        if type =? 0 then
          next (byte 1) (if decide (length (apicids s) < NCPU)%nat then mkmp (lapic s) (apicids s ++ [byte 3]) (ioapicid s) else s)
        else if type =? 1 then next (byte 1) (mkmp (lapic s) (apicids s) (byte 2))
        else if type =? 2 then next (byte 1) s
        else if type =? 4 then next (byte 1) s
        else if type =? 5 then next 0xC s
        else next 0 s
    end
  else Some s.

Definition mpinit_uefi (fuel : nat) (m : memory) (ioapicid : Z) : option mp :=
  let boot_param := P2V_WO BOOTPARAM in
  let madt := P2V_WO (load32 (u32 (boot_param + 8)) m) in
  walk fuel madt (madt_len madt m) sizeof_madt m (mkmp (madt_lapic_addr madt m) [] ioapicid).

(** ** Tables of records *)

(** A record: its kind and length, and the bytes after them. *)
Definition known (r : bytes) : Prop :=
  Forall is_byte r /\ (4 <= length r <= 255)%nat /\ nth_byte r 0 ∈ [0; 1; 2; 4; 5] /\
  (if nth_byte r 0 =? 5 then length r = 12%nat else nth_byte r 1 = Z.of_nat (length r)).

(** The CPUs, and the last I/O APIC. *)
Definition lapic_ids (rs : list bytes) : list Z := (fun r => nth_byte r 3) <$> filter (fun r => nth_byte r 0 = 0) rs.
Definition ioapic_id (rs : list bytes) (d : Z) : Z := default d (last ((fun r => nth_byte r 2) <$> filter (fun r => nth_byte r 0 = 1) rs)).

(** The bytes of [bs] are in memory from [a] on. *)
Definition bytes_at (a : Z) (bs : bytes) (m : memory) : Prop := forall i, (i < length bs)%nat -> m (a + Z.of_nat i) = nth_byte bs i.

Lemma bytes_at_app a bs1 bs2 m : bytes_at a (bs1 ++ bs2) m -> bytes_at a bs1 m /\ bytes_at (a + Z.of_nat (length bs1)) bs2 m.
Proof.
  intros H. split; intros i Hi.
  - rewrite H by (rewrite length_app; lia). unfold nth_byte. by rewrite lookup_app_l.
  - replace (a + Z.of_nat (length bs1) + Z.of_nat i) with (a + Z.of_nat (length bs1 + i)) by lia. rewrite H by (rewrite length_app; lia).
    unfold nth_byte. rewrite lookup_app_r by lia. by replace (length bs1 + i - length bs1)%nat with i by lia.
Qed.

Lemma ioapic_id_cons r rs d : ioapic_id (r :: rs) d = ioapic_id rs (if decide (nth_byte r 0 = 1) then nth_byte r 2 else d).
Proof.
  unfold ioapic_id. case_decide as E; [rewrite filter_cons_True by done|by rewrite filter_cons_False by done].
  cbn [fmap list_fmap]. rewrite last_cons. by destruct (last _).
Qed.

Lemma lapic_ids_cons r rs : lapic_ids (r :: rs) = if decide (nth_byte r 0 = 0) then nth_byte r 3 :: lapic_ids rs else lapic_ids rs.
Proof. unfold lapic_ids. case_decide as E; [by rewrite filter_cons_True|by rewrite filter_cons_False]. Qed.

Lemma walk_run madt m rs : forall fuel i s, (length rs <= fuel)%nat -> Forall known rs -> 0 <= madt -> 0 <= i ->
  madt + i + Z.of_nat (length (concat rs)) < 4294967296 -> bytes_at (madt + i) (concat rs) m ->
  walk fuel madt (i + Z.of_nat (length (concat rs))) i m s =
    Some (mkmp (lapic s) (apicids s ++ take (NCPU - length (apicids s)) (lapic_ids rs)) (ioapic_id rs (ioapicid s))).
Proof.
  induction rs as [|r rs IH]; intros fuel i s Hf Hk Hm0 Hi Hw Hb.
  - replace (walk _ _ _ _ _ _) with (Some s) by (destruct fuel; cbn [walk concat length]; by rewrite (proj2 (Z.ltb_ge _ _)) by lia).
    cbn. rewrite take_nil, app_nil_r. by destruct s.
  - apply Forall_cons in Hk as [(Hby & Hlen & Htype & Hnext) Hk]. cbn [concat] in *. rewrite length_app, Nat2Z.inj_add in *.
    apply bytes_at_app in Hb as [Hr Hb]. destruct fuel as [|fuel]; [cbn in Hf; lia|]. cbn [length] in Hf. cbn [walk].
    rewrite (proj2 (Z.ltb_lt _ _)) by lia.
    assert (B : forall k, (k < 4)%nat -> m (u32 (madt + i + Z.of_nat k)) = nth_byte r k) by (intros k Hk4; rewrite u32_id by (unfold in_u32; lia); apply Hr; lia).
    assert (B0 := B 0%nat ltac:(lia)). assert (B1 := B 1%nat ltac:(lia)). assert (B2 := B 2%nat ltac:(lia)). assert (B3 := B 3%nat ltac:(lia)).
    change (Z.of_nat 0) with 0 in B0. change (Z.of_nat 1) with 1 in B1. change (Z.of_nat 2) with 2 in B2. change (Z.of_nat 3) with 3 in B3. rewrite B0, B1, B2, B3.
    assert (Step : forall n s', n = Z.of_nat (length r) -> walk fuel madt (i + (Z.of_nat (length r) + Z.of_nat (length (concat rs)))) (u32 (i + n)) m s' =
      Some (mkmp (lapic s') (apicids s' ++ take (NCPU - length (apicids s')) (lapic_ids rs)) (ioapic_id rs (ioapicid s')))).
    { intros n s' ->. rewrite u32_id by (unfold in_u32; lia). rewrite <- (IH fuel (i + Z.of_nat (length r)) s'); [f_equal; lia|lia|done|done|lia|lia|].
      by replace (madt + (i + Z.of_nat (length r))) with (madt + i + Z.of_nat (length r)) by lia. }
    rewrite ioapic_id_cons, lapic_ids_cons. clear B B0 B1 B2 B3 Hr Hb IH.
    repeat (apply elem_of_cons in Htype as [Ht|Htype]); [..|by apply not_elem_of_nil in Htype]; rewrite Ht in *; cbn [Z.eqb Pos.eqb] in *; rewrite Step by (done || lia); try done.
    destruct s as [l ids io]. cbn [lapic apicids ioapicid]. case_decide as Hd; cbn [lapic apicids ioapicid].
    + rewrite length_app, <- (assoc_L (++)). cbn [length]. replace (NCPU - length ids)%nat with (S (NCPU - (length ids + 1))) by lia. done.
    + by replace (NCPU - length ids)%nat with 0%nat by lia.
Qed.

Lemma records_short rs : Forall known rs -> (length rs <= length (concat rs))%nat.
Proof. induction 1 as [|r rs (_ & Hl & _) _ IH]; [done|]. cbn [concat length]. rewrite length_app. lia. Qed.

(** The table at [madt] has the records [rs]. *)
Definition has_table (m : memory) (madt : Z) (rs : list bytes) : Prop :=
  P2V_WO (load32 (u32 (P2V_WO BOOTPARAM + 8)) m) = madt /\ Forall known rs /\ 0 <= madt /\
  madt_len madt m = sizeof_madt + Z.of_nat (length (concat rs)) /\ madt + madt_len madt m < 4294967296 /\
  bytes_at (madt + sizeof_madt) (concat rs) m.

(** On a table of known records the walk ends, with the first NCPU local
    APICs as the CPUs, in order, and the last I/O APIC. *)
Theorem mpinit_uefi_correct m madt rs io : has_table m madt rs ->
  mpinit_uefi (Z.to_nat (madt_len madt m)) m io = Some (mkmp (madt_lapic_addr madt m) (take NCPU (lapic_ids rs)) (ioapic_id rs io)).
Proof.
  intros (Hm & Hk & H0 & Hl & Hw & Hb). unfold mpinit_uefi. rewrite Hm. rewrite Hl in *. unfold sizeof_madt in *. pose proof (records_short rs Hk).
  rewrite walk_run; [done|lia|done|done|lia|lia|done].
Qed.

(** A record of another kind, such as an NMI source (3), is not skipped:
    the walk stays at it for ever. *)
Theorem walk_unknown_hangs madt len i m s : in_u32 i -> i < len -> m (u32 (madt + i)) ∉ [0; 1; 2; 4; 5] -> forall fuel, walk fuel madt len i m s = None.
Proof.
  intros Hi Hlt Hn fuel. induction fuel as [|fuel IH]; cbn [walk]; rewrite (proj2 (Z.ltb_lt _ _)) by done; [done|]. rewrite !Z.add_0_r.
  rewrite (u32_id i), IH by done. repeat match goal with |- context [m (u32 (madt + i)) =? ?k] => destruct (Z.eqb_spec (m (u32 (madt + i))) k) as [E|]; [rewrite E in Hn; set_solver|] end. done.
Qed.

(** Two CPUs and an I/O APIC. *)
Definition two_cpus : list bytes := [[0; 8; 0; 0; 1; 0; 0; 0]; [0; 8; 1; 7; 1; 0; 0; 0]; [1; 12; 2; 0; 0; 0; 0xC0; 0xFE; 0; 0; 0; 0]; [2; 10; 0; 0; 2; 0; 0; 0; 0; 0]].

Definition two_cpus_mem (x : Z) : Z :=
  if x =? P2V_WO BOOTPARAM + 9 then 16 else
  nth_byte ([65; 80; 73; 67; 82; 0; 0; 0] ++ replicate 28 0 ++ [0; 0; 0xE0; 0xFE] ++ replicate 4 0 ++ concat two_cpus) (Z.to_nat (x - (KERNBASE + 4096))).

Lemma two_cpus_found : mpinit_uefi 82 two_cpus_mem 0 = Some (mkmp 0xFEE00000 [0; 7] 2).
Proof. vm_compute. reflexivity. Qed.
