(* ===== verification/Pci.v ===== *)
(** * pci.c, and the initialisation of i8254.c with its receive ring

    The configuration space of the PCI bus is read and written through an
    address port and a data port.  The registers of the network card are a
    device as in Apic.v: the accesses are recorded, and what a read gives is
    an argument.  Where the driver would poll the EEPROM for ever the model
    stops with a panic.  Messages on the console are left out, but for the
    list of the devices found.

    Shown is that pci_init reports exactly the functions that are there,
    each once and in order, and that i8254_init_recv takes the station's
    address from the EEPROM and gives the same address to the card. *)

From stdpp Require Import base numbers strings gmap list.
From S2P Require Import Prelude Kmonad Kstring Mmu Kalloc Vm Net Apic.

Local Open Scope Z_scope.

(** ** The bus *)

Record pci : Type := mkpci { pci_addr : Z; pci_space : Z -> Z }.

Record pci_dev : Type := mkdev {
  bus_num : Z; device_num : Z; function_num : Z;
  device_id : Z; vendor_id : Z;
  base_class : Z; sub_class : Z; interface : Z; revision_id : Z;
  bar0 : Z; bar1 : Z
}.

(** The bus, the card, and the variables of the driver; [found] are the
    devices that pci_init_device has reported. *)
Record nic : Type := mknic {
  nnet : net;
  npci : pci;
  nacc : list access;
  base_addr : Z;
  mac_addr : bytes;
  intr_addr : Z;
  found : list pci_dev
}.

Definition net_of : lens nic net := Lens nnet (fun n s => mknic n (npci s) (nacc s) (base_addr s) (mac_addr s) (intr_addr s) (found s)).
Definition set_npci (p : pci) (s : nic) : nic := mknic (nnet s) p (nacc s) (base_addr s) (mac_addr s) (intr_addr s) (found s).
Definition set_nacc (h : list access) (s : nic) : nic := mknic (nnet s) (npci s) h (base_addr s) (mac_addr s) (intr_addr s) (found s).
Definition set_base_addr (v : Z) (s : nic) : nic := mknic (nnet s) (npci s) (nacc s) v (mac_addr s) (intr_addr s) (found s).
Definition set_mac_addr (v : bytes) (s : nic) : nic := mknic (nnet s) (npci s) (nacc s) (base_addr s) v (intr_addr s) (found s).
Definition set_intr_addr (v : Z) (s : nic) : nic := mknic (nnet s) (npci s) (nacc s) (base_addr s) (mac_addr s) v (found s).
Definition add_found (d : pci_dev) (s : nic) : nic := mknic (nnet s) (npci s) (nacc s) (base_addr s) (mac_addr s) (intr_addr s) (found s ++ [d]).

Definition PCI_CMD_BUS_MASTER : Z := Z.shiftl 1 2.
Definition I8254_DEVICE_ID : Z := 0x100E.
Definition I8254_VENDOR_ID : Z := 0x8086.
Definition I8254_RECV_DESC_NUM : Z := 256.
Definition I8254_CTRL_SLU : Z := Z.shiftl 1 6.
Definition I8254_CTRL_ILOS : Z := Z.shiftl 1 7.
Definition I8254_CTRL_RST : Z := Z.shiftl 1 26.
Definition I8254_CTRL_VME : Z := Z.shiftl 1 30.
Definition I8254_CTRL_PHY_RST : Z := Z.shiftl 1 31.
Definition I8254_RCTL_EN : Z := Z.shiftl 1 1.
Definition I8254_RCTL_UPE : Z := Z.shiftl 1 3.
Definition I8254_RCTL_MPE : Z := Z.shiftl 1 4.
Definition I8254_RCTL_BAM : Z := Z.shiftl 1 15.
Definition I8254_RCTL_SECRC : Z := Z.shiftl 1 26.
Definition I8254_RCTL_BSIZE : Z := 0.
Definition I8254_RAH_AS_DEST : Z := Z.shiftl 0 16.
Definition I8254_RAH_AV : Z := Z.shiftl 1 31.
Definition I8254_IMS_LSC : Z := Z.shiftl 1 2.
Definition I8254_IMS_RXSEQ : Z := Z.shiftl 1 3.
Definition I8254_IMS_RXDMT0 : Z := Z.shiftl 1 4.
Definition I8254_IMS_RXO : Z := Z.shiftl 1 6.
Definition I8254_IMS_RXT0 : Z := Z.shiftl 1 7.
Definition PCI_VP_OFFSET : Z := 0x40000000.
Definition PCI_P2V (a : Z) : Z := u32 (a + PCI_VP_OFFSET).

Definition pci_write_config (config : Z) : K nic unit := modify (fun s => set_npci (mkpci config (pci_space (npci s))) s).
Definition pci_write_data (v : Z) : K nic unit :=
  modify (fun s => let p := npci s in set_npci (mkpci (pci_addr p) (fun a => if a =? pci_addr p then v else pci_space p a)) s).
Definition pci_read_config : K nic Z := gets (fun s => pci_space (npci s) (pci_addr (npci s))).

Definition config_addr (bus_num device_num function_num reg_addr : Z) : Z :=
  Z.lor (Z.lor (Z.lor (Z.lor (Z.shiftl (Z.land bus_num 0xFF) 16) (Z.shiftl (Z.land device_num 0x1F) 11))
    (Z.shiftl (Z.land function_num 0x7) 8)) (Z.land reg_addr 0xFC)) 0x80000000.

Definition pci_access_config (bus_num device_num function_num reg_addr : Z) : K nic Z :=
  pci_write_config (config_addr bus_num device_num function_num reg_addr);;
  pci_read_config.

Definition pci_write_config_register (bus_num device_num function_num reg_addr data : Z) : K nic unit :=
  pci_write_config (config_addr bus_num device_num function_num reg_addr);;
  pci_write_data data.

Section driver.
(** The bound on the polls of the EEPROM, and what the registers give. *)
Context (fuel : nat) (answer : list access -> Z -> Z).

(** ** The card: registers by their offset from base_addr *)

Definition reg_write (off v : Z) : K nic unit := modify (fun s => set_nacc (Wrote off (u32 v) :: nacc s) s).
Definition reg_read (off : Z) : K nic Z :=
  v ← gets (fun s => answer (nacc s) off);
  modify (fun s => set_nacc (Read off :: nacc s) s);;
  mret v.

Fixpoint eeprom_poll (n : nat) : K nic unit :=
  match n with
  | O => panic "spin"
  | S n => data ← reg_read 0x14; if negb (Z.land data (Z.shiftl 1 4) =? 0) then mret tt else eeprom_poll n
  end.

Definition i8254_read_eeprom (addr : Z) : K nic Z :=
  reg_write 0x14 (Z.lor (Z.shiftl (Z.land addr 0xFF) 8) 1);;
  eeprom_poll fuel;;
  v ← reg_read 0x14;
  mret (Z.land (Z.shiftr v 16) 0xFFFF).

(** for(int i=0;i<128;i++) mta[i] = 0 *)
Fixpoint clear_mta (n : nat) (i : Z) : K nic unit :=
  match n with
  | O => mret tt
  | S n => reg_write (0x5200 + 4 * i) 0;; clear_mta n (i + 1)
  end.

(** The first loop over the receive descriptors: every field but
    buf_addr. *)
Fixpoint recv_desc_clear (n : nat) (i d : Z) (m : memory) : memory :=
  match n with
  | O => m
  | S n =>
      let e := d + 16 * i in
      let m := store32 (u32 (e + 4)) 0 m in
      let m := Net.store16 (u32 (e + 8)) 0 m in
      let m := Net.store16 (u32 (e + 10)) 0 m in
      let m := store8 (u32 (e + 12)) 0 m in
      let m := store8 (u32 (e + 13)) 0 m in
      let m := Net.store16 (u32 (e + 14)) 0 m in
      recv_desc_clear n (i + 1) d m
  end.

(** The second loop has the body of the one of i8254_init_send. *)
Definition recv_desc_bufs (n : nat) (i d : Z) : K net unit := send_desc_bufs n i d.

Definition ims_mask : Z := Z.lor (Z.lor (Z.lor (Z.lor I8254_IMS_RXT0 I8254_IMS_RXDMT0) I8254_IMS_RXSEQ) I8254_IMS_LSC) I8254_IMS_RXO.

Definition i8254_init_recv : K nic unit :=
  data_l ← i8254_read_eeprom 0x0;
  data_m ← i8254_read_eeprom 0x1;
  data_h ← i8254_read_eeprom 0x2;
  modify (set_mac_addr [Z.land data_l 0xFF; u8 (Z.shiftr data_l 8); Z.land data_m 0xFF; u8 (Z.shiftr data_m 8);
                        Z.land data_h 0xFF; u8 (Z.shiftr data_h 8)]);;
  reg_write 0x5400 (Z.lor data_l (Z.shiftl data_m 16));;
  reg_write 0x5404 (Z.lor (Z.lor data_h I8254_RAH_AS_DEST) I8254_RAH_AV);;
  clear_mta 128 0;;
  reg_write 0xD0 ims_mask;;
  reg_write 0xC8 ims_mask;;
  reg_write 0x2828 0;;
  reg_write 0x100 (Z.lor (Z.lor (Z.lor (Z.lor I8254_RCTL_UPE I8254_RCTL_MPE) I8254_RCTL_BAM) I8254_RCTL_BSIZE) I8254_RCTL_SECRC);;
  recv_desc_addr ← zoom net_of (zoom kmem_of kalloc);
  reg_write 0x2800 (V2P recv_desc_addr);;
  reg_write 0x2804 0;;
  reg_write 0x2808 (16 * I8254_RECV_DESC_NUM);;
  reg_write 0x2810 0;;
  reg_write 0x2818 I8254_RECV_DESC_NUM;;
  zoom net_of (wr (recv_desc_clear (Z.to_nat I8254_RECV_DESC_NUM) 0 recv_desc_addr));;
  zoom net_of (recv_desc_bufs (Z.to_nat (I8254_RECV_DESC_NUM / 2)) 0 recv_desc_addr);;
  rctl ← reg_read 0x100;
  reg_write 0x100 (Z.lor rctl I8254_RCTL_EN).

Definition ctrl_mask : Z := Z.lor (Z.lor (Z.lnot I8254_CTRL_PHY_RST) (Z.lnot I8254_CTRL_VME)) (Z.lnot I8254_CTRL_ILOS).

Definition i8254_init (dev : pci_dev) : K nic unit :=
  cmd_reg ← pci_access_config (bus_num dev) (device_num dev) (function_num dev) 0x04;
  pci_write_config_register (bus_num dev) (device_num dev) (function_num dev) 0x04 (Z.lor cmd_reg PCI_CMD_BUS_MASTER);;
  modify (set_base_addr (PCI_P2V (bar0 dev)));;
  reg_write 0xD8 0xFFFFFFFF;;
  ctrl ← reg_read 0;
  reg_write 0 (Z.lor ctrl I8254_CTRL_RST);;
  reg_write 0xD8 0xFFFFFFFF;;
  ctrl ← reg_read 0;
  reg_write 0 (Z.lor ctrl I8254_CTRL_SLU);;
  ctrl ← reg_read 0;
  reg_write 0 (Z.land ctrl ctrl_mask);;
  a ← zoom net_of (zoom kmem_of kalloc);
  modify (set_intr_addr a);;
  zoom net_of (wr (store32 a 0));;
  i8254_init_recv;;
  zoom net_of i8254_init_send;;
  reg_write 0xD8 0x0.

(** i8254_intr *)
Definition i8254_intr : K nic unit :=
  a ← gets intr_addr;
  zoom net_of (wr (store32 a 0xEEEEEE)).

(** ** pci.c: the scan *)

Definition pci_init_device (bus_num device_num function_num : Z) : K nic unit :=
  data ← pci_access_config bus_num device_num function_num 0;
  let device_id := Z.shiftr data 16 in
  let vendor_id := Z.land data 0xFFFF in
  class ← pci_access_config bus_num device_num function_num 0x8;
  bar0 ← pci_access_config bus_num device_num function_num 0x10;
  bar1 ← pci_access_config bus_num device_num function_num 0x14;
  let dev := mkdev bus_num device_num function_num device_id vendor_id
    (Z.shiftr class 24) (Z.land (Z.shiftr class 16) 0xFF) (Z.land (Z.shiftr class 8) 0xFF) (Z.land class 0xFF) bar0 bar1 in
  modify (add_found dev);;
  if (device_id =? I8254_DEVICE_ID) && (vendor_id =? I8254_VENDOR_ID) then
    pci_access_config bus_num device_num function_num 0xF0;;
    i8254_init dev
  else mret tt.

Definition pci_probe (i j k : Z) : K nic unit :=
  data ← pci_access_config i j k 0;
  if negb (Z.land data 0xFFFF =? 0xFFFF) then pci_init_device i j k else mret tt.

(** The three loops; [f] is the body with the counters before. *)
Fixpoint upto (n : nat) (i : Z) (f : Z -> K nic unit) : K nic unit :=
  match n with
  | O => mret tt
  | S n => f i;; upto n (i + 1) f
  end.

Definition pci_init : K nic unit := upto 256 0 (fun i => upto 32 0 (fun j => upto 8 0 (fun k => pci_probe i j k))).
End driver.

(** ** Configuration addresses *)

Lemma lor_low x y k : 0 <= k -> 0 <= y < 2 ^ k -> Z.lor (Z.shiftl x k) y = x * 2 ^ k + y.
Proof.
  intros Hk Hy. rewrite <- Z.shiftl_mul_pow2 by done. assert (E : Z.land (Z.shiftl x k) y = 0).
  { apply Z.bits_inj'. intros n Hn. rewrite Z.land_spec, Z.bits_0. destruct (decide (n < k)) as [Hlt|Hge]; [by rewrite Z.shiftl_spec_low|].
    destruct (decide (y = 0)) as [->|Hy0]; [by rewrite Z.bits_0, andb_false_r|]. rewrite (Z.bits_above_log2 y n); [by rewrite andb_false_r|lia|].
    assert (Z.log2 y < k) by (apply Z.log2_lt_pow2; lia). lia. }
  pose proof (Z.add_lor_land (Z.shiftl x k) y) as H. rewrite E, Z.add_0_r in H. by rewrite H.
Qed.

(** The fields of the address do not overlap. *)
Lemma config_addr_eq b d f r : 0 <= b < 256 -> 0 <= d < 32 -> 0 <= f < 8 -> 0 <= r < 256 -> r mod 4 = 0 ->
  config_addr b d f r = 2147483648 + b * 65536 + d * 2048 + f * 256 + r.
Proof.
  intros Hb Hd Hf Hr Hr4. unfold config_addr. change 0xFF with (Z.ones 8). change 0x1F with (Z.ones 5). change 0x7 with (Z.ones 3).
  rewrite !Z.land_ones by lia. rewrite (Z.mod_small b), (Z.mod_small d), (Z.mod_small f) by lia.
  assert (E : Z.land r 0xFC = r).
  { assert (C : forallb (fun q => Z.land (4 * q) 0xFC =? 4 * q) (seqZ 0 64) = true) by (vm_compute; reflexivity). rewrite forallb_forall in C.
    pose proof (Z.div_mod r 4 ltac:(lia)). assert (0 <= r / 4 < 64) by lia.
    specialize (C (r / 4) ltac:(apply list_elem_of_In, elem_of_seqZ; lia)). apply Z.eqb_eq in C. replace (4 * (r / 4)) with r in C by lia. done. }
  rewrite E. rewrite (Z.lor_comm _ 0x80000000). change 0x80000000 with (Z.shiftl 32768 16). rewrite !Z.lor_assoc, <- Z.shiftl_lor.
  assert (E2 : Z.lor 32768 b = 32768 + b) by (change 32768 with (Z.shiftl 128 8); apply (lor_low 128 b 8); lia). rewrite E2.
  rewrite <- !Z.lor_assoc.
  assert (E3 : Z.lor (Z.shiftl f 8) r = f * 256 + r) by (apply (lor_low f r 8); lia). rewrite E3.
  assert (E4 : Z.lor (Z.shiftl d 11) (f * 256 + r) = d * 2048 + (f * 256 + r)) by (apply (lor_low d _ 11); lia). rewrite E4.
  assert (E5 : Z.lor (Z.shiftl (32768 + b) 16) (d * 2048 + (f * 256 + r)) = (32768 + b) * 65536 + (d * 2048 + (f * 256 + r))) by (apply (lor_low _ _ 16); lia).
  rewrite E5. change (Z.shiftl 32768 16) with 2147483648. lia.
Qed.

(** ** The scan *)

(** The functions of the bus, in the order of the scan. *)
Definition functions : list (Z * Z * Z) :=
  i ← seqZ 0 256; j ← seqZ 0 32; (fun k => (i, j, k)) <$> seqZ 0 8.

Definition present (space : Z -> Z) (p : Z * Z * Z) : Prop := let '(i, j, k) := p in Z.land (space (config_addr i j k 0)) 0xFFFF <> 0xFFFF.

#[export] Instance present_dec space p : Decision (present space p).
Proof. destruct p as [[i j] k]. apply _. Defined.

Definition place (d : pci_dev) : Z * Z * Z := (bus_num d, device_num d, function_num d).

Section scan.
Context (fuel : nat) (answer : list access -> Z -> Z) (space : Z -> Z).

(** The identification words are as at the start, and [l] is found. *)
Definition scanned (l : list (Z * Z * Z)) (s : nic) : Prop :=
  (forall i j k, 0 <= i < 256 -> 0 <= j < 32 -> 0 <= k < 8 -> pci_space (npci s) (config_addr i j k 0) = space (config_addr i j k 0)) /\
  place <$> found s = l.

Lemma scanned_frame l s s' : pci_space (npci s') = pci_space (npci s) -> found s' = found s -> scanned l s -> scanned l s'.
Proof. intros E1 E2 [H1 H2]. split; [intros i j k Hi Hj Hk; rewrite E1; by apply H1|by rewrite E2]. Qed.

Lemma reg_write_keeps l off v : preserves (scanned l) (reg_write off v).
Proof. apply preserves_modify. intros s. by apply scanned_frame. Qed.

Lemma reg_read_keeps l off : preserves (scanned l) (reg_read answer off).
Proof. unfold reg_read. preserve. apply preserves_modify. intros s. by apply scanned_frame. Qed.

Lemma on_net_keeps {A} l (m : K net A) : preserves (scanned l) (zoom net_of m).
Proof. apply preserves_zoom. intros s t. by apply scanned_frame. Qed.

Lemma set_keeps l f : (forall s, pci_space (npci (f s)) = pci_space (npci s) /\ found (f s) = found s) -> preserves (scanned l) (modify f).
Proof. intros Hf. apply preserves_modify. intros s. destruct (Hf s). by apply scanned_frame. Qed.

Lemma write_config_keeps l a : preserves (scanned l) (pci_write_config a).
Proof. by apply set_keeps. Qed.

Lemma access_keeps l b d f r : preserves (scanned l) (pci_access_config b d f r).
Proof. unfold pci_access_config, pci_read_config. preserve. apply write_config_keeps. Qed.

Lemma eeprom_keeps l addr : preserves (scanned l) (i8254_read_eeprom fuel answer addr).
Proof.
  assert (Hp : forall n, preserves (scanned l) (eeprom_poll answer n)).
  { induction n as [|n IH]; cbn [eeprom_poll]; preserve; apply reg_read_keeps. }
  unfold i8254_read_eeprom. preserve; auto using reg_write_keeps, reg_read_keeps.
Qed.

Lemma clear_mta_keeps l n : forall i, preserves (scanned l) (clear_mta n i).
Proof. induction n as [|n IH]; intros i; cbn [clear_mta]; preserve; auto using reg_write_keeps. Qed.

Lemma init_recv_keeps l : preserves (scanned l) (i8254_init_recv fuel answer).
Proof. unfold i8254_init_recv. preserve; auto using eeprom_keeps, reg_write_keeps, reg_read_keeps, clear_mta_keeps, on_net_keeps. by apply set_keeps. Qed.

(** Writing a register other than the first of a function. *)
Lemma write_register_keeps l b d f r v : 0 <= b < 256 -> 0 <= d < 32 -> 0 <= f < 8 -> 0 < r < 256 -> r mod 4 = 0 ->
  preserves (scanned l) (pci_write_config_register b d f r v).
Proof.
  intros Hb Hd Hf Hr Hr4 s c [H1 H2]. unfold pci_write_config_register, pci_write_config, pci_write_data. lsteps. split; [|done].
  intros i j k Hi Hj Hk. cbn [set_npci npci pci_space pci_addr]. rewrite <- (H1 i j k Hi Hj Hk). rewrite !config_addr_eq by (done || lia).
  rewrite (proj2 (Z.eqb_neq _ _)); [done|]. lia.
Qed.

Lemma i8254_init_keeps l dev : 0 <= bus_num dev < 256 -> 0 <= device_num dev < 32 -> 0 <= function_num dev < 8 -> preserves (scanned l) (i8254_init fuel answer dev).
Proof.
  intros Hb Hd Hf. unfold i8254_init. preserve; auto using access_keeps, reg_write_keeps, reg_read_keeps, on_net_keeps, init_recv_keeps.
  - apply write_register_keeps; done || lia.
  - by apply set_keeps.
  - by apply set_keeps.
Qed.

Lemma probe_run l i j k s c : 0 <= i < 256 -> 0 <= j < 32 -> 0 <= k < 8 -> scanned l s ->
  wlp (pci_probe fuel answer i j k) (fun _ s' _ => scanned (l ++ filter (present space) [(i, j, k)]) s') (fun _ _ => True) s c.
Proof.
  intros Hi Hj Hk Hs. pose proof Hs as [H1 H2]. unfold pci_probe, pci_access_config, pci_write_config, pci_read_config. lsteps. cbn [set_npci npci pci_space pci_addr].
  rewrite (H1 i j k Hi Hj Hk). assert (Hs' : scanned l (set_npci (mkpci (config_addr i j k 0) (pci_space (npci s))) s)) by (by apply (scanned_frame l s)).
  destruct (Z.eqb_spec (Z.land (space (config_addr i j k 0)) 0xFFFF) 0xFFFF) as [E|E]; cbn [negb].
  { lsteps. rewrite filter_cons_False by (cbn; tauto). by rewrite filter_nil, app_nil_r. }
  rewrite filter_cons_True by done. rewrite filter_nil. generalize dependent (set_npci (mkpci (config_addr i j k 0) (pci_space (npci s))) s). intros s0 Hs0. clear s H1 H2 Hs.
  unfold pci_init_device.
  assert (Hacc : forall r s c (Q : Z -> nic -> ctx -> Prop), scanned l s -> (forall v s', scanned l s' -> Q v s' c) -> wlp (pci_access_config i j k r) Q (fun _ _ => True) s c).
  { intros r s c0 Q Hs HQ. unfold pci_access_config, pci_write_config, pci_read_config. lsteps. apply HQ. by apply (scanned_frame l s). }
  apply wlp_bind, Hacc; [done|]. intros v1 s1 S1. apply wlp_bind, Hacc; [done|]. intros v2 s2 S2. apply wlp_bind, Hacc; [done|]. intros v3 s3 S3.
  apply wlp_bind, Hacc; [done|]. intros v4 s4 [S4 S4']. lsteps.
  match goal with |- wlp _ _ _ ?s _ => assert (S5 : scanned (l ++ [(i, j, k)]) s) by (split; [exact S4|cbn [add_found found]; rewrite fmap_app, S4'; done]) end.
  destruct (_ && _); [|by lsteps].
  apply wlp_bind. eapply wlp_mono_both; [apply (access_keeps (l ++ [(i, j, k)])); exact S5| |done]. intros v6 s6 c6 S6.
  eapply wlp_mono_both; [apply i8254_init_keeps; [done..|exact S6]|done|done].
Qed.

Lemma upto_run (f : Z -> K nic unit) (g : Z -> list (Z * Z * Z)) n : forall i l s c,
  (forall i' l s c, i <= i' < i + Z.of_nat n -> scanned l s -> wlp (f i') (fun _ s' _ => scanned (l ++ g i') s') (fun _ _ => True) s c) ->
  scanned l s -> wlp (upto n i f) (fun _ s' _ => scanned (l ++ (seqZ i (Z.of_nat n) ≫= g)) s') (fun _ _ => True) s c.
Proof.
  induction n as [|n IH]; intros i l s c Hf Hs; cbn [upto]; [lsteps; cbn; by rewrite app_nil_r|].
  apply wlp_bind. eapply wlp_mono_both; [apply Hf; [lia|done]| |done]. intros ? s1 c1 H1. rewrite Nat2Z.inj_succ. rewrite seqZ_cons by lia. cbn [mbind list_bind].
  rewrite (assoc_L (++)), Z.pred_succ. apply IH; [|done]. intros i' l' s' c' Hi'. apply Hf. lia.
Qed.

(** pci_init, whenever it comes to its end, has reported exactly the
    functions whose vendor is not 0xFFFF, each once, in the order of bus,
    device and function, also when it initialises cards on the way. *)
Theorem pci_init_correct s c s' c' : pci_space (npci s) = space -> found s = [] -> pci_init fuel answer s c = Ret tt s' c' ->
  place <$> found s' = filter (present space) functions.
Proof.
  intros Hsp Hf E. assert (H0 : scanned [] s) by (split; [by rewrite Hsp|by rewrite Hf]).
  assert (H : wlp (pci_init fuel answer) (fun _ s' _ => scanned ([] ++ (seqZ 0 (Z.of_nat 256) ≫= fun i => seqZ 0 (Z.of_nat 32) ≫= fun j => seqZ 0 (Z.of_nat 8) ≫= fun k => filter (present space) [(i, j, k)])) s') (fun _ _ => True) s c).
  { apply upto_run; [|done]. intros i l1 s1 c1 Hi S1. apply upto_run; [|done]. intros j l2 s2 c2 Hj S2. apply upto_run; [|done]. intros k l3 s3 c3 Hk S3. by apply probe_run; [lia..|]. }
  destruct (wlp_inv _ _ _ _ _ _ _ _ H E) as [_ ->]. cbn [app]. unfold functions.
  assert (Hfb : forall {A B} (P : B -> Prop) `{!forall x, Decision (P x)} (h : A -> list B) l, filter P (l ≫= h) = l ≫= fun x => filter P (h x)).
  { intros A B P HP h l. induction l as [|x l IH]; [done|]. cbn. rewrite filter_app. f_equal. apply IH. }
  rewrite Hfb. apply list_bind_ext; [|done]. intros i. rewrite Hfb. apply list_bind_ext; [|done]. intros j.
  change (Z.of_nat 8) with 8. induction (seqZ 0 8) as [|k l IH]; [done|]. cbn [mbind list_bind fmap list_fmap] in IH |- *. rewrite IH, !filter_cons.
  destruct (decide (present space (i, j, k))); done.
Qed.
End scan.

(** The mask of the general configuration clears no bit: the complements
    are joined with or. *)
Lemma ctrl_mask_keeps x : in_u32 x -> Z.land x ctrl_mask = x.
Proof. intros Hx. change ctrl_mask with (-1). apply Z.land_m1_r. Qed.

(** ** The station's address *)

Section station.
Context (fuel : nat) (answer : list access -> Z -> Z).

(** The address the driver has and the one the card was given. *)
Definition station (s : nic) : Prop := exists v w, last_written 0x5400 (nacc s) = Some v /\ last_written 0x5404 (nacc s) = Some w /\
  v = le_val (take 4 (mac_addr s)) /\ Z.land w 0xFFFF = le_val (drop 4 (mac_addr s)) /\ Z.testbit w 31 = true /\ length (mac_addr s) = 6%nat.

Lemma station_write off v : off <> 0x5400 -> off <> 0x5404 -> preserves station (reg_write off v).
Proof.
  intros H1 H2. apply preserves_modify. intros s (x & w & E1 & E2 & H). exists x, w. cbn [set_nacc nacc last_written mac_addr].
  rewrite (proj2 (Z.eqb_neq _ _)), (proj2 (Z.eqb_neq off 0x5404)) by done. done.
Qed.

Lemma station_read off : preserves station (reg_read answer off).
Proof. unfold reg_read. preserve. by apply preserves_modify. Qed.

Lemma station_mta n : forall i, 0 <= i -> i + Z.of_nat n <= 128 -> preserves station (clear_mta n i).
Proof. induction n as [|n IH]; intros i Hi Hn; cbn [clear_mta]; preserve; [apply station_write; lia|apply IH; lia]. Qed.

Lemma station_net {A} (m : K net A) : preserves station (zoom net_of m).
Proof. by apply preserves_zoom. Qed.

Lemma eeprom_word addr (Q : Z -> nic -> ctx -> Prop) s c : (forall v s' c', 0 <= v < 65536 -> Q v s' c') -> wlp (i8254_read_eeprom fuel answer addr) Q (fun _ _ => True) s c.
Proof.
  intros HQ. unfold i8254_read_eeprom. unfold reg_write. lsteps.
  assert (Hp : forall n s c, wlp (eeprom_poll answer n) (fun _ _ _ => True) (fun _ _ => True) s c).
  { induction n as [|n IH]; intros s0 c0; cbn [eeprom_poll]; [by lsteps|]. unfold reg_read. lsteps. destruct (negb _); [by lsteps|apply IH]. }
  eapply wlp_mono_both; [apply Hp| |done]. intros _ s1 c1 _. unfold reg_read. lsteps. apply HQ. change 0xFFFF with (Z.ones 16). rewrite Z.land_ones by lia.
  apply Z.mod_pos_bound. lia.
Qed.

Lemma word_bytes x : 0 <= x < 65536 -> Z.land x 0xFF = x mod 256 /\ u8 (Z.shiftr x 8) = x / 256.
Proof.
  intros Hx. change 0xFF with (Z.ones 8). rewrite Z.land_ones by lia. split; [done|]. rewrite Z.shiftr_div_pow2 by lia. change (2 ^ 8) with 256.
  apply Z.mod_small. Z.div_mod_to_equations; lia.
Qed.

(** Whatever the EEPROM holds, after i8254_init_recv the driver and the card
    have the same six-byte address, and the card's is marked valid. *)
Theorem init_recv_address s c s' c' : i8254_init_recv fuel answer s c = Ret tt s' c' -> station s'.
Proof.
  intros E. assert (H : wlp (i8254_init_recv fuel answer) (fun _ s' _ => station s') (fun _ _ => True) s c); [|exact (wlp_inv _ _ _ _ _ _ _ _ H E)].
  unfold i8254_init_recv. apply wlp_bind, eeprom_word. intros l s1 c1 Hl. apply wlp_bind, eeprom_word. intros m s2 c2 Hm. apply wlp_bind, eeprom_word. intros h s3 c3 Hh.
  do 3 (apply wlp_bind; cbn beta; apply wlp_modify; cbn beta).
  match goal with |- wlp _ _ _ ?x _ => assert (S : station x); [|generalize dependent x; intros s4 S] end.
  { destruct (word_bytes l Hl) as [L1 L2], (word_bytes m Hm) as [M1 M2], (word_bytes h Hh) as [A1 A2].
    eexists _, _. cbn [set_nacc set_mac_addr nacc mac_addr last_written]. split; [reflexivity|]. split; [reflexivity|]. cbn [take drop le_val length].
    rewrite L1, L2, M1, M2, A1, A2. rewrite (Z.lor_comm l), lor_low by lia. change (2 ^ 16) with 65536. rewrite u32_id by (unfold in_u32; lia).
    change I8254_RAH_AS_DEST with 0. rewrite Z.lor_0_r, (Z.lor_comm h). change I8254_RAH_AV with (Z.shiftl 1 31).
    rewrite (lor_low 1 h 31) by lia. change (1 * 2 ^ 31) with 2147483648. rewrite u32_id by (unfold in_u32; lia).
    split; [Z.div_mod_to_equations; lia|]. split; [|split; [|done]].
    - change 0xFFFF with (Z.ones 16). rewrite Z.land_ones by lia. change (2 ^ 16) with 65536. Z.div_mod_to_equations; lia.
    - apply Z.b2z_inj. rewrite Z.testbit_spec' by lia. change (2 ^ 31) with 2147483648. cbn [Z.b2z]. Z.div_mod_to_equations; lia. }
  eapply wlp_mono_both; [|intros ? ? ? HS; exact HS|done].
  match goal with |- wlp ?m _ _ s4 ?c => assert (P : preserves station m) end.
  { pose proof (station_mta 128 0 ltac:(lia) ltac:(lia)) as Hmta.
    preserve; first [exact Hmta | apply station_write; lia | apply station_read | apply station_net]. }
  eapply wlp_mono_both; [apply P; exact S|done|done].
Qed.
End station.
