(* ===== verification/Startup.v ===== *)
(** * Starting the machine: main.c, uart.c and the rest of the set-up code

    The boot page directory of main.c, the loop that starts the other
    processors (startothers) together with what a processor reads at the end
    of entryother.S, the serial port of uart.c as accesses to its registers,
    graphic_init, kvmalloc, and getcallerpcs of spinlock.c.  The theorems
    show what the boot directory maps; that every other processor is started
    once, at the code that was copied for it and with a stack page of its
    own; that the port implements the list of bytes sent that the console is
    verified against; and which return addresses getcallerpcs finds. *)

From stdpp Require Import base numbers strings gmap list.
From S2P Require Import Prelude Kmonad Kstring Mmu Kalloc Locks Block Log Fs Vm Graphic Console Apic MpUefi.

Local Open Scope Z_scope.

(** ** The boot page directory *)

Definition PTE_PS : Z := 0x080.

(** entrypgdir: entry [i]. *)
Definition entrypgdir (i : Z) : Z :=
  if i =? 0 then Z.lor (Z.lor (Z.lor 0 PTE_P) PTE_W) PTE_PS
  else if i =? Z.shiftr KERNBASE PDXSHIFT then Z.lor (Z.lor (Z.lor 0 PTE_P) PTE_W) PTE_PS
  else 0.

(** What the processor makes of a directory all of whose present entries are
    4-Mbyte pages (CR4_PSE is set by then). *)
Definition big_page (pgdir : Z -> Z) (va : Z) : option Z :=
  let e := pgdir (PDX va) in
  if (Z.land e PTE_P =? 0) || (Z.land e PTE_PS =? 0) then None
  else Some (Z.land e (u32 (Z.lnot 0x3FFFFF)) + va mod 0x400000).

(** The first 4 Mbytes of memory are mapped where they are and at KERNBASE,
    and nothing else is. *)
Theorem entrypgdir_maps va : in_u32 va ->
  big_page entrypgdir va =
    if va <? 0x400000 then Some va
    else if (KERNBASE <=? va) && (va <? KERNBASE + 0x400000) then Some (V2P va)
    else None.
Proof.
  intros Hva. assert (E : PDX va = va / 0x400000).
  { unfold PDX, PDXSHIFT. change 0x3FF with (Z.ones 10). rewrite Z.land_ones, Z.shiftr_div_pow2 by lia. change (2 ^ 22) with 0x400000. change (2 ^ 10) with 1024.
    apply Z.mod_small. unfold in_u32 in Hva. Z.div_mod_to_equations; lia. }
  unfold big_page, entrypgdir. rewrite E. change (Z.shiftr KERNBASE PDXSHIFT) with 512. change (Z.lor (Z.lor (Z.lor 0 PTE_P) PTE_W) PTE_PS) with 131.
  unfold V2P, KERNBASE, in_u32, u32 in *. clear E.
  destruct (Z.eqb_spec (va / 0x400000) 0); [|destruct (Z.eqb_spec (va / 0x400000) 512)].
  - cbn. change (Z.land 131 (Z.lnot 4194303 mod 4294967296)) with 0. rewrite (proj2 (Z.ltb_lt _ _)) by (Z.div_mod_to_equations; lia). f_equal. Z.div_mod_to_equations; lia.
  - cbn. rewrite (proj2 (Z.ltb_ge _ _)), (proj2 (Z.leb_le _ _)), (proj2 (Z.ltb_lt _ _)) by (Z.div_mod_to_equations; lia). cbn. f_equal. change (Z.land 131 (Z.lnot 4194303 mod 4294967296)) with 0. Z.div_mod_to_equations; lia.
  - cbn. rewrite (proj2 (Z.ltb_ge _ _)) by (Z.div_mod_to_equations; lia).
    destruct (Z.leb_spec 0x80000000 va); cbn; [|done]. rewrite (proj2 (Z.ltb_ge _ _)) by (Z.div_mod_to_equations; lia). done.
Qed.

(** ** startothers *)

(** A processor as entryother.S leaves it to mpenter: the APIC it belongs
    to, the address it started at, its page directory, stack and the
    function it calls. *)
Record ap : Type := mkap { ap_id : Z; ap_start : Z; ap_cr3 : Z; ap_esp : Z; ap_call : Z }.

Record others : Type := mkothers {
  okm : kmem;
  oouts : list (Z * Z);    (* ports written, latest first *)
  oacc : list access;      (* registers of the local APIC *)
  aps : list ap            (* the processors that are up *)
}.

Definition kmem_lens : lens others kmem := Lens okm (fun k s => mkothers k (oouts s) (oacc s) (aps s)).
Definition on_mem (f : memory -> memory) (s : others) : others := mkothers (set_kmemory (f (kmemory (okm s))) (okm s)) (oouts s) (oacc s) (aps s).

(** code = P2V(0x7000) *)
Definition code : Z := P2V 0x7000.

(** movl (start-12), %eax; movl %eax, %cr3; movl (start-4), %esp;
    call *(start-8): [start] is linked at 0x7000. *)
Definition entryother (m : memory) : Z * Z * Z := (load32 (code - 12) m, load32 (code - 4) m, load32 (code - 8) m).

(** The processor that the last two registers written address starts at the
    page the STARTUP message names, runs entryother.S, mpenter and mpmain,
    and sets started. *)
Definition ap_up (s : others) : others :=
  let '(cr3, esp, entry) := entryother (kmemory (okm s)) in
  let id := Z.shiftr (default 0 (last_written ICRHI (oacc s))) 24 in
  let start := Z.land (default 0 (last_written ICRLO (oacc s))) 0xFF * 4096 in
  mkothers (okm s) (oouts s) (oacc s) (aps s ++ [mkap id start cr3 esp entry]).

Definition startap_on (apicid addr : Z) (s : others) : others :=
  let t := lapicstartap apicid addr (mkstartap (oouts s) (kmemory (okm s)) (oacc s)) in
  mkothers (set_kmemory (smem t) (okm s)) (outs t) (acc t) (aps s).

Section startothers.
(** The image of entryother.S in the kernel, and the addresses of mpenter
    and entrypgdir. *)
Context (start size mpenter pgdir : Z).

(** The body of the loop for a processor that is not this one; the last
    step is the wait for started. *)
Definition start_cpu (apicid : Z) : K others unit :=
  stack ← zoom kmem_lens kalloc;
  modify (on_mem (store32 (code - 4) (u32 (stack + KSTACKSIZE))));;
  modify (on_mem (store32 (code - 8) mpenter));;
  modify (on_mem (store32 (code - 12) (V2P pgdir)));;
  modify (startap_on apicid (V2P code));;
  modify ap_up.

(** for(c = cpus; c < cpus+ncpu; c++); [me] is the index of mycpu(). *)
Fixpoint start_loop (me i : nat) (cpus : list Z) : K others unit :=
  match cpus with
  | [] => mret tt
  | apicid :: cpus => (if Nat.eqb i me then mret tt else start_cpu apicid);; start_loop me (S i) cpus
  end.

Definition startothers (me : nat) (cpus : list Z) : K others unit :=
  modify (on_mem (memmove code start size));;
  start_loop me 0 cpus.

Context (kend : Z) (Hend : KERNLINK <= kend).

(** The free pages are above the kernel: what is stored below them leaves
    the allocator alone. *)
Lemma kmem_inv_below l k m : kmem_inv kend l k -> (forall x, KERNLINK <= x -> m x = kmemory k x) -> kmem_inv kend l (set_kmemory m k).
Proof.
  intros (Hrep & Hnd & Hok) Hm. split; [|done]. cbn [set_kmemory kmemory freelist]. generalize dependent (freelist k). clear Hnd.
  induction l as [|a l IH]; intros h Hrep; [done|]. apply Forall_cons in Hok as [Ha Hok]. destruct Hrep as [-> Hrep]. split; [done|].
  assert (Hw := page_ok_no_wrap kend a Ha). rewrite (load32_ext a m (kmemory k)); [by apply IH|unfold no_wrap, PGSIZE in *; lia|].
  intros x Hx. apply Hm. destruct Ha as (_ & He & _). lia.
Qed.

Lemma lapicstartap_mem apicid addr t x : warm_reset + 4 <= x -> smem (lapicstartap apicid addr t) x = smem t x.
Proof.
  intros Hx. unfold lapicstartap, store16. cbn [smem]. change warm_reset with 2147484775 in *. rewrite !u32_id by (unfold in_u32; lia). unfold store8.
  bool_cases.
Qed.

Lemma store32_out a v m x : no_wrap a 4 -> ~ (a <= x < a + 4) -> store32 a v m x = m x.
Proof. intros Hw Hx. rewrite store32_spec by done. bool_cases. Qed.

Lemma load32_out a b v m : no_wrap a 4 -> no_wrap b 4 -> a + 4 <= b \/ b + 4 <= a -> load32 a (store32 b v m) = load32 a m.
Proof. intros Ha Hb Hab. apply load32_ext; [done|]. intros x Hx. apply store32_out; [done|lia]. Qed.

Lemma code_eq : code = 2147512320.
Proof. reflexivity. Qed.

(** The words entryother.S reads are the ones just stored. *)
Lemma entryother_words a b d apicid addr o h m : in_u32 a -> in_u32 b -> in_u32 d ->
  entryother (smem (lapicstartap apicid addr (mkstartap o (store32 (code - 12) d (store32 (code - 8) b (store32 (code - 4) a m))) h))) = (d, a, b).
Proof.
  intros Ha Hb Hd. rewrite code_eq. unfold entryother. rewrite code_eq.
  assert (Hw : forall x, 2147512308 <= x <= 2147512316 -> no_wrap x 4) by (unfold no_wrap; lia).
  assert (E : forall x, 2147512308 <= x <= 2147512316 -> forall m', load32 x (smem (lapicstartap apicid addr (mkstartap o m' h))) = load32 x m').
  { intros x Hx m'. apply load32_ext; [by apply Hw|]. intros y Hy. rewrite lapicstartap_mem by (change warm_reset with 2147484775; lia). done. }
  change (2147512320 - 12) with 2147512308. change (2147512320 - 8) with 2147512312. change (2147512320 - 4) with 2147512316. rewrite !E by lia.
  pose proof (Hw 2147512308 ltac:(lia)) as H12. pose proof (Hw 2147512312 ltac:(lia)) as H8. pose proof (Hw 2147512316 ltac:(lia)) as H4. clear Hw E.
  repeat first [rewrite load32_store32 by done | rewrite load32_out by (done || lia)]. done.
Qed.

Lemma start_cpu_run apicid p l s c : kmem_inv kend (p :: l) (okm s) -> L_kmem ∉ held c -> 0 <= apicid < 256 -> in_u32 mpenter ->
  wp (start_cpu apicid) (fun _ s' c' => c' = c /\ kmem_inv kend l (okm s') /\
    aps s' = aps s ++ [mkap apicid 0x7000 (V2P pgdir) (p + KSTACKSIZE) mpenter] /\
    (forall x, code <= x -> kmemory (okm s') x = kmemory (okm s) x)) s c.
Proof.
  intros Hk Hc Hid Hm. unfold start_cpu. kstep. apply wp_zoom. eapply wp_mono; [by apply (kalloc_run kend (p :: l))|].
  intros r k c' (-> & -> & Hk' & _ & Em). cbn [head default] in *. unfold kmem_lens at 1. cbn [lset lget] in *.
  assert (Hp : page_ok kend p) by (destruct Hk as (_ & _ & Hok); by apply Forall_cons in Hok as [? _]).
  assert (Hin : in_u32 (p + KSTACKSIZE)) by (unfold page_ok, in_u32, KSTACKSIZE, KERNBASE, PHYSTOP in *; lia).
  assert (Hpd : in_u32 (V2P pgdir)) by (unfold V2P, in_u32, u32; apply Z.mod_pos_bound; lia).
  cbn [head from_option id]. ksteps. rewrite (u32_id (p + KSTACKSIZE)) by done. split; [done|].
  unfold ap_up, startap_on, on_mem. cbn [okm kmemory set_kmemory oouts oacc aps].
  rewrite entryother_words by done. cbn [okm kmemory set_kmemory oouts oacc aps].
  assert (Hmem : forall x, code <= x -> smem (lapicstartap apicid (V2P code) (mkstartap (oouts s) (store32 (code - 12) (V2P pgdir)
    (store32 (code - 8) mpenter (store32 (code - 4) (p + KSTACKSIZE) (kmemory k)))) (oacc s))) x = kmemory k x).
  { intros x Hx. rewrite code_eq in *. rewrite lapicstartap_mem by (change warm_reset with 2147484775; lia). cbn [smem]. rewrite !store32_out by (unfold no_wrap; lia). done. }
  split; [|split].
  - apply (kmem_inv_below l k); [done|]. intros x Hx. apply Hmem. rewrite code_eq. unfold KERNLINK, KERNBASE, EXTMEM in Hx. lia.
  - destruct (lapicstartap_address (fun _ _ => 0) apicid 0x7000 (mkstartap (oouts s) (store32 (code - 12) (V2P pgdir)
      (store32 (code - 8) mpenter (store32 (code - 4) (p + KSTACKSIZE) (kmemory k)))) (oacc s)) Hid ltac:(lia) ltac:(done)) as ((v & E1 & _ & E2) & (d & E3 & E4) & _).
    change (V2P code) with 0x7000. rewrite E1, E3. cbn [from_option]. unfold id. by rewrite E2, E4.
  - intros x Hx. rewrite Hmem by done. by rewrite Em.
Qed.

Lemma start_loop_run me cpus : forall i l s c, kmem_inv kend l (okm s) -> L_kmem ∉ held c -> Forall (fun a => 0 <= a < 256) cpus -> in_u32 mpenter ->
  let todo := if Nat.leb i me then delete (me - i)%nat cpus else cpus in
  (length todo <= length l)%nat ->
  wp (start_loop me i cpus) (fun _ s' c' => c' = c /\ kmem_inv kend (drop (length todo) l) (okm s') /\
    aps s' = aps s ++ zip_with (fun id p => mkap id 0x7000 (V2P pgdir) (p + KSTACKSIZE) mpenter) todo l /\
    (forall x, code <= x -> kmemory (okm s') x = kmemory (okm s) x)) s c.
Proof.
  induction cpus as [|a cpus IH]; intros i l s c Hk Hc Hids Hm todo Hl.
  { cbn [start_loop]. ksteps. subst todo. replace (if Nat.leb i me then delete (me - i)%nat [] else []) with ([] : list Z) by (by destruct (Nat.leb i me)).
    rewrite drop_0. cbn. by rewrite app_nil_r. }
  apply Forall_cons in Hids as [Ha Hids]. cbn [start_loop]. kstep. destruct (Nat.eqb_spec i me) as [->|Hne].
  - ksteps. subst todo. rewrite Nat.leb_refl, Nat.sub_diag in *. cbn [delete list_delete] in *.
    specialize (IH (S me) l s c Hk Hc Hids Hm). rewrite (proj2 (Nat.leb_gt (S me) me)) in IH by lia. by apply IH.
  - assert (E : todo = a :: (if Nat.leb (S i) me then delete (me - S i)%nat cpus else cpus)).
    { subst todo. destruct (Nat.leb_spec i me); [|by rewrite (proj2 (Nat.leb_gt (S i) me)) by lia].
      rewrite (proj2 (Nat.leb_le (S i) me)) by lia. replace (me - i)%nat with (S (me - S i)) by lia. done. }
    rewrite E in *. clear E todo. destruct l as [|p l]; [cbn in Hl; lia|]. cbn [length drop zip_with] in *.
    eapply wp_mono; [by apply (start_cpu_run a p l)|]. intros ? s1 c1 (-> & Hk1 & E1 & Hm1); cbn beta in *.
    eapply wp_mono; [apply (IH (S i) l s1 c Hk1 Hc Hids Hm); lia|]. intros ? s2 c2 (-> & Hk2 & E2 & Hm2); cbn beta in *.
    split; [done|]. split; [done|]. split; [by rewrite E2, E1, <- app_assoc|]. intros x Hx. by rewrite Hm2, Hm1.
Qed.

(** Every processor but this one is started exactly once, in the order of
    the table, at the page that holds the copy of entryother.S, and comes
    out of it with the boot page directory and on a stack page of its own,
    in mpenter. *)
Theorem startothers_correct me cpus l s c : kmem_inv kend l (okm s) -> L_kmem ∉ held c -> Forall (fun a => 0 <= a < 256) cpus -> in_u32 mpenter ->
  (length (delete me cpus) <= length l)%nat -> byte_memory (kmemory (okm s)) -> no_wrap start size -> code + size <= KERNLINK -> 
  wp (startothers me cpus) (fun _ s' c' => c' = c /\ kmem_inv kend (drop (length (delete me cpus)) l) (okm s') /\
    aps s' = aps s ++ zip_with (fun id p => mkap id 0x7000 (V2P pgdir) (p + KSTACKSIZE) mpenter) (delete me cpus) l /\
    (forall i, 0 <= i < size -> kmemory (okm s') (P2V 0x7000 + i) = kmemory (okm s) (start + i))) s c.
Proof.
  intros Hk Hc Hids Hm Hl Hb Hs Hsz. unfold startothers. ksteps.
  assert (Hcode : no_wrap code size) by (rewrite code_eq in *; unfold no_wrap, KERNLINK, KERNBASE, EXTMEM in *; lia).
  eapply wp_mono; [apply (start_loop_run me cpus 0 l); [|done..|]|].
  - apply (kmem_inv_below l (okm s)); [done|]. intros x Hx. rewrite memmove_spec by done. unfold in_range. by rewrite (proj2 (Z.ltb_ge x (code + size))), andb_false_r by lia.
  - cbn [Nat.leb]. rewrite Nat.sub_0_r. done.
  - cbn [Nat.leb]. rewrite Nat.sub_0_r. intros ? s' c' (-> & Hk' & E & Hm'); cbn beta in *. split; [done|]. split; [done|]. split; [done|].
    intros i Hi. fold code. rewrite Hm' by lia. cbn [on_mem okm kmemory set_kmemory]. rewrite memmove_spec by done.
    unfold in_range. rewrite (proj2 (Z.leb_le _ _)), (proj2 (Z.ltb_lt _ _)) by lia. cbn. f_equal. lia.
Qed.
End startothers.

(** ** The serial port *)

Definition COM1 : Z := 0x3f8.
Definition IRQ_COM1 : Z := 4.

Record uart_port : Type := mkuart {
  uart : bool;             (* is there a uart? *)
  uacc : list access;      (* accesses to the ports, latest first *)
  uio : ioapic
}.

Section uart.
(** The byte a port gives after the accesses made so far. *)
Context (answer : list access -> Z -> Z).

Definition outb (port v : Z) (s : uart_port) : uart_port := mkuart (uart s) (Wrote port (u8 v) :: uacc s) (uio s).
Definition inb (port : Z) (s : uart_port) : Z * uart_port := (answer (uacc s) port, mkuart (uart s) (Read port :: uacc s) (uio s)).

(** for(i = 0; i < 128 && !(inb(COM1+5) & 0x20); i++) microdelay(10) *)
Fixpoint wait_ready (n : nat) (s : uart_port) : uart_port :=
  match n with
  | O => s
  | S n => let '(v, s) := inb (COM1 + 5) s in if Z.land v 0x20 =? 0 then wait_ready n s else s
  end.

Definition uartputc (c : Z) (s : uart_port) : uart_port :=
  if negb (uart s) then s else outb (COM1 + 0) c (wait_ready 128 s).

Definition uartgetc (s : uart_port) : Z * uart_port :=
  if negb (uart s) then (-1, s)
  else
    let '(v, s) := inb (COM1 + 5) s in
    if Z.land v 0x01 =? 0 then (-1, s) else inb (COM1 + 0) s.

Definition hello : bytes := [120; 118; 54; 46; 46; 46; 10].

Definition uartinit (s : uart_port) : uart_port :=
  let s := outb (COM1 + 2) 0 s in
  let s := outb (COM1 + 3) 0x80 s in
  let s := outb (COM1 + 0) (115200 / 9600) s in
  let s := outb (COM1 + 1) 0 s in
  let s := outb (COM1 + 3) 0x03 s in
  let s := outb (COM1 + 4) 0 s in
  let s := outb (COM1 + 1) 0x01 s in
  let '(v, s) := inb (COM1 + 5) s in
  if v =? 0xFF then s
  else
    let s := mkuart true (uacc s) (uio s) in
    let '(_, s) := inb (COM1 + 2) s in
    let '(_, s) := inb (COM1 + 0) s in
    let s := mkuart (uart s) (uacc s) (ioapicenable IRQ_COM1 0 (uio s)) in
    foldl (fun s c => uartputc c s) s hello.

(** Whether COM1+0 and COM1+1 are the divisor: the top bit of COM1+3. *)
Definition unlocked (h : list access) : bool := Z.testbit (default 0 (last_written (COM1 + 3) h)) 7.

(** The bytes sent: what was written to COM1+0 as data. *)
Fixpoint sent (h : list access) : bytes :=
  match h with
  | [] => []
  | Wrote i v :: h => if (i =? COM1 + 0) && negb (unlocked h) then sent h ++ [v] else sent h
  | Read _ :: h => sent h
  end.

(** The divisor of the baud rate. *)
Fixpoint divisor (h : list access) : Z :=
  match h with
  | [] => 0
  | Wrote i v :: h =>
      if unlocked h && (i =? COM1 + 0) then Z.lor (Z.land (divisor h) 0xFF00) v
      else if unlocked h && (i =? COM1 + 1) then Z.lor (Z.land (divisor h) 0xFF) (Z.shiftl v 8)
      else divisor h
  | Read _ :: h => divisor h
  end.

Lemma wait_ready_reads n : forall s, exists k, (k <= n)%nat /\ wait_ready n s = mkuart (uart s) (replicate k (Read (COM1 + 5)) ++ uacc s) (uio s).
Proof.
  induction n as [|n IH]; intros s; cbn [wait_ready]; [exists 0%nat; by destruct s|]. unfold inb. destruct (_ =? 0); [|exists 1%nat; split; [lia|done]].
  destruct (IH (mkuart (uart s) (Read (COM1 + 5) :: uacc s) (uio s))) as (k & Hk & ->). exists (S k). split; [lia|]. cbn [uart uacc uio].
  by rewrite replicate_S_end, <- app_assoc.
Qed.

Lemma reads_same k i h : unlocked (replicate k (Read i) ++ h) = unlocked h /\ sent (replicate k (Read i) ++ h) = sent h /\ divisor (replicate k (Read i) ++ h) = divisor h.
Proof. unfold unlocked. rewrite last_written_reads. split; [done|]. by induction k as [|k [IH1 IH2]]. Qed.

(** The port with the divisor locked implements the list of bytes sent of
    the console. *)
Lemma uartputc_sends c s : unlocked (uacc s) = false ->
  let s' := uartputc c s in sent (uacc s') = Console.uartputc (uart s) c (sent (uacc s)) /\
    uart s' = uart s /\ uio s' = uio s /\ unlocked (uacc s') = false /\ divisor (uacc s') = divisor (uacc s).
Proof.
  intros Hu s'. subst s'. unfold uartputc, Console.uartputc. destruct (uart s) eqn:E; cbn [negb]; [|by rewrite E].
  destruct (wait_ready_reads 128 s) as (k & _ & ->). unfold outb. cbn [uacc uart uio]. destruct (reads_same k (COM1 + 5) (uacc s)) as (U & S & D).
  cbn [sent divisor]. rewrite U, S, D, Hu. split; [done|]. split; [done|]. split; [done|]. split; [|done].
  rewrite <- Hu, <- U. unfold unlocked. done.
Qed.

Lemma puts_sent cs : forall s, unlocked (uacc s) = false -> uart s = true ->
  let s' := foldl (fun s c => uartputc c s) s cs in sent (uacc s') = sent (uacc s) ++ (u8 <$> cs) /\
    uart s' = true /\ uio s' = uio s /\ unlocked (uacc s') = false /\ divisor (uacc s') = divisor (uacc s).
Proof.
  induction cs as [|c cs IH]; intros s Hu Ht; cbn [foldl fmap list_fmap]; [by rewrite app_nil_r|].
  destruct (uartputc_sends c s Hu) as (E & E1 & E2 & E3 & E4). destruct (IH (uartputc c s) E3) as (F & F1 & F2 & F3 & F4); [by rewrite E1|].
  rewrite F, F2, F4, E, E2, E4. unfold Console.uartputc. rewrite Ht. by rewrite <- app_assoc.
Qed.

(** The writes that set up the port, latest first. *)
Definition settings : list access :=
  [Wrote (COM1 + 1) 1; Wrote (COM1 + 4) 0; Wrote (COM1 + 3) 3; Wrote (COM1 + 1) 0; Wrote (COM1 + 0) 12; Wrote (COM1 + 3) 128; Wrote (COM1 + 2) 0].

Lemma settings_effect h : unlocked (settings ++ h) = false /\ sent (settings ++ h) = sent h /\ divisor (settings ++ h) = 12.
Proof.
  split; [done|]. split; [done|]. change (divisor (settings ++ h)) with
    (Z.lor (Z.land (Z.lor (Z.land (divisor (Wrote (COM1 + 3) 128 :: Wrote (COM1 + 2) 0 :: h)) 0xFF00) 12) 0xFF) 0).
  generalize (divisor (Wrote (COM1 + 3) 128 :: Wrote (COM1 + 2) 0 :: h)). intros d.
  apply Z.bits_inj'. intros n Hn. rewrite !Z.lor_spec, !Z.land_spec, Z.lor_spec, Z.land_spec, Z.bits_0, orb_false_r.
  destruct (decide (n < 8)) as [Hlt|Hge].
  - assert (Hc : n = 0 \/ n = 1 \/ n = 2 \/ n = 3 \/ n = 4 \/ n = 5 \/ n = 6 \/ n = 7) by lia.
    by destruct Hc as [->|[->|[->|[->|[->|[->|[->| ->]]]]]]]; rewrite ?andb_false_r.
  - rewrite (Z.bits_above_log2 0xFF n), (Z.bits_above_log2 12 n) by (cbn; lia). by rewrite andb_false_r.
Qed.

(** uartinit sets 9600 baud; if the port answers, characters received
    interrupt CPU 0 and the greeting, and nothing else, has been sent; if it
    does not, nothing is sent and no interrupt enabled. *)
Theorem uartinit_correct s : uart s = false ->
  let s1 := uartinit s in
  divisor (uacc s1) = 12 /\ unlocked (uacc s1) = false /\
  uart s1 = negb (answer (settings ++ uacc s) (COM1 + 5) =? 0xFF) /\
  sent (uacc s1) = sent (uacc s) ++ (if uart s1 then hello else []) /\
  uio s1 = (if uart s1 then ioapicenable IRQ_COM1 0 (uio s) else uio s).
Proof.
  intros Hs s1. destruct (settings_effect (uacc s)) as (U & S & D). subst s1.
  assert (E : uartinit s = (if answer (settings ++ uacc s) (COM1 + 5) =? 0xFF then mkuart (uart s) (Read (COM1 + 5) :: settings ++ uacc s) (uio s)
    else foldl (fun s c => uartputc c s)
      (mkuart true (Read (COM1 + 0) :: Read (COM1 + 2) :: Read (COM1 + 5) :: settings ++ uacc s) (ioapicenable IRQ_COM1 0 (uio s))) hello)) by done.
  rewrite E. clear E. destruct (_ =? 0xFF).
  - cbn [uart uacc uio negb]. rewrite Hs. cbn [sent divisor]. rewrite S, D, app_nil_r. done.
  - match goal with |- context [foldl _ ?x _] => destruct (puts_sent hello x U eq_refl) as (F & F1 & F2 & F3 & F4) end.
    rewrite F, F1, F2, F3, F4. cbn [uacc sent divisor uio negb]. by rewrite S, D.
Qed.
End uart.

(** ** Call stacks *)

(** The loop of getcallerpcs with [n] entries of pcs left. *)
Fixpoint getcallerpcs_loop (n : nat) (ebp : Z) (m : memory) : list Z :=
  match n with
  | O => []
  | S k =>
      if (ebp =? 0) || (ebp <? KERNBASE) || (ebp =? 0xffffffff) then replicate n 0
      else load32 (u32 (ebp + 4)) m :: getcallerpcs_loop k (load32 ebp m) m
  end.

Definition getcallerpcs (v : Z) (m : memory) : list Z := getcallerpcs_loop 10 (u32 (v - 8)) m.

(** A chain of stack frames: saved frame pointers and return addresses, up
    to a frame pointer below the kernel. *)
Fixpoint frames (ebp : Z) (m : memory) (rets : list Z) : Prop :=
  match rets with
  | [] => 0 <= ebp < KERNBASE
  | r :: rets => KERNBASE <= ebp < 0xffffffff /\ load32 (u32 (ebp + 4)) m = r /\ frames (load32 ebp m) m rets
  end.

(** pcs[] gets the return addresses of the innermost ten calls, and zeros if
    there are fewer. *)
Theorem getcallerpcs_correct v m rets : frames (u32 (v - 8)) m rets -> getcallerpcs v m = take 10 (rets ++ replicate 10 0).
Proof.
  unfold getcallerpcs. assert (G : forall n ebp rets, frames ebp m rets -> getcallerpcs_loop n ebp m = take n (rets ++ replicate n 0)).
  { induction n as [|n IH]; intros ebp l Hl; [done|]. cbn [getcallerpcs_loop]. destruct l as [|r l]; cbn [frames] in Hl.
    - rewrite (proj2 (Z.ltb_lt ebp KERNBASE)) by lia. rewrite orb_true_r. cbn [orb app]. by rewrite take_ge by (by rewrite length_replicate).
    - destruct Hl as (He & Er & Hl). unfold KERNBASE in *.
      rewrite (proj2 (Z.eqb_neq _ _)), (proj2 (Z.ltb_ge _ _)), (proj2 (Z.eqb_neq ebp 0xffffffff)) by lia. cbn [orb app take]. rewrite Er, (IH _ l Hl). f_equal.
      rewrite !take_app, !take_replicate. f_equal. f_equal. lia. }
  apply G.
Qed.

(** ** The rest *)

(** boot_param->graphic_config; its fields are long longs, of which the
    low words are used. *)
Definition graphic_init (m : memory) : gpu :=
  let config := P2V_WO BOOTPARAM + 16 in
  let vram_size := load32 (config + 8) m in
  mkgpu (load32 config m) (u32 (DEVSPACE - vram_size)) vram_size (load32 (config + 16) m) (load32 (config + 24) m) (load32 (config + 32) m).

(** kpgdir and %cr3. *)
Definition kvmalloc (kend kdata vram_size pvram_addr : Z) : K kmem (Z * Z) :=
  kpgdir ← setupkvm kend kdata vram_size pvram_addr;
  mret (kpgdir, V2P kpgdir).
